(* ===== verification/_CoqProject ===== *)
-Q . S2P
Prelude.v
Bytes.v
Mem.v
Spinlock.v
Riscv.v
Kalloc.v
Vm.v
Proc.v
Sched.v
Timer.v
Kstate.v
Console.v
Printint.v
Sleeplock.v
Bio.v
Log.v
Fs.v
Tx.v
FsBlocks.v
FsFile.v
FsInode.v
FsWrite.v
FsPath.v
FsDir.v
Itable.v
PipeRt.v
Pipe.v
File.v
Args.v
Sysfile.v
Shm.v
Exec.v
Fork.v
Syscall.v
Grep.v
Sh.v
ShGrammar.v
Virtio.v
VirtioMachine.v
Mkfs.v
Umalloc.v
UmallocUse.v
Ulib.v
Uprintf.v
Utils.v
ShRun.v
