(* ===== verification/Prelude.v ===== *)
(** * A verification of the CSEN283 xv6-riscv kernel

    The repository is xv6 for RISC-V with five course projects: priority pipes
    (proj2), timers, periodic tasks and processor affinity (proj3), shared memory
    and a listing of memory areas (proj4), and a file-size system call (proj5).
    This library is a shallow embedding of its C code and a set of theorems about
    it.  A C function is a Rocq function of the same name on an explicit state.

    ** The parts of the system, and where they are

    - Machine and memory.  [Riscv] has the constants of kernel/riscv.h and
      memlayout.h; [Mem] has byte-addressed memory and kernel/string.c; [Bytes] has
      the fields of structures in byte arrays; [Spinlock] has kernel/spinlock.c.
    - Memory management.  [Kalloc] is kernel/kalloc.c, with the free list in the
      pages; [Vm] is kernel/vm.c, with the page tables in physical memory.
    - Processes.  [Proc] is the process table of kernel/proc.c; [Sched] has several
      CPUs that run the scheduler; [Timer] is proj3/kernel and clockintr; [Fork] has
      userinit, fork and exit; [Exec] is kernel/exec.c.
    - The state.  [Kstate] has the structures above the process layer and the record
      [kst] of all of them.
    - Devices.  [Console] is uart.c, printf.c and console.c; [Printint] has the
      theorem about printint.
    - Storage.  [Sleeplock], [Bio] and [Log] are sleeplock.c, bio.c and log.c;
      [Fs] is fs.c.  [Tx] describes a process inside a transaction, and [FsBlocks],
      [FsFile], [FsInode], [FsWrite], [FsPath], [FsDir] and [Itable] have the
      theorems about the parts of fs.c.
    - Pipes and files.  [PipeRt] is proj2/kernel; [Pipe] is pipe.c; [File] is
      file.c; [Shm] is proj4/kernel.
    - System calls.  [Args], [Sysfile] and [Syscall] are syscall.c, sysfile.c,
      sysproc.c, trap.c and proj5/kernel.
    - The disk.  [Virtio] is virtio_disk.c with the device of the virtio
      specification as a parameter; [VirtioMachine] interleaves calls of the driver,
      interrupts and the device.
    - The disk image.  [Mkfs] is mkfs/mkfs.c, which makes the disk that the kernel
      of [Fs] starts from.
    - The user library.  [Umalloc] is user/umalloc.c on the bytes of the process, and
      [UmallocUse] the program that uses it; [Ulib] is user/ulib.c, with the interface
      [SysCalls] of the system calls and the laws [Files] of reading and writing;
      [Uprintf] is user/printf.c.
    - User programs.  [Grep] is user/grep.c; [Sh] is the parser of user/sh.c, [ShGrammar]
      the grammar that it implements and [ShRun] its processes, as programs of system
      calls whose steps interleave; [Utils] has wc, cat, echo, ls, rm, mkdir, ln and
      kill, and getcmd of the shell.

    ** How the code is modelled

    An operation is a value of the monad [M] of this file: it takes a state and
    returns a result with the new state, or it panics, or it is asleep for good, or
    it has run out of the turns that the model allows a loop.  C integers are
    integers with the reduction of their width written out ([u8] to [u64], [s32]).
    A structure is a record; a pointer into a static array is an index, with [NULLP]
    for the null pointer; structures in pages of their own are maps from page
    addresses.  A spin lock is a bit, and acquiring one that is held panics, so that a
    theorem that an operation returns says that it does not deadlock.

    The kernel is modelled as one process sees it.  When the process sleeps, the
    others may do anything that the interface [KernelView] allows: the environment
    is a parameter, of which a theorem may assume that it keeps the invariants it
    names.  Where the interleaving is the point, it is explicit: [Spinlock] has
    CPUs that interleave at atomic instructions, [Sched] has CPUs that interleave at
    the critical sections of the process locks, [VirtioMachine] has calls of the disk
    driver, its interrupt handler and the device, and [Log] has the disk after every
    prefix of the writes.  Some things are coarser than the code: a CPU of [Spinlock] reads
    the fields of a lock in one step where holding() and push_off() read several; the
    steps of [Sched] are whole critical sections, with the parts of allocproc, fork and
    freeproc that matter for who runs; [Bio] takes virtio_disk_rw as one step, which
    [VirtioMachine] justifies; the rings that virtio_disk_init allocates are typed
    structures of the driver's state; and the fields of struct proc that no modelled
    function reads, and debugging output, are left out.

    ** What the theorems show

    - Storage: a commit survives a crash after any of its writes, and recovery
      does too; log_write absorbs; balloc and bfree keep the bitmap; writei
      followed by readi gives the bytes back, through direct, indirect and new
      blocks, and touches no other file; dirlookup searches the entries; skipelem
      splits a path; the inode table counts references.
    - Memory: the allocator is a stack of pages; mappages, uvmalloc, uvmdealloc,
      copyin and copyout do what they should to a page table that is a tree.
    - Concurrency: spin locks exclude each other in every interleaving; no process
      runs on two CPUs; sleep and wakeup lose nothing in a pipe; a sleeping call of the
      disk driver is woken when it can go on.
    - Projects: the order of a priority pipe, the releases of a periodic task.
    - Devices: any interleaving of the disk driver's critical sections with its
      device, which may fail requests, is a disk that moves one whole block at a time,
      which is the disk that [Bio] assumes, and a call returns if the device does not
      fail; the image of mkfs satisfies the predicates that the theorems
      about the file system start from; printint fits its buffer exactly when said.
    - User programs: malloc and free implement blocks of bytes that are apart, until
      the kernel has no memory, and lose none of it; printf writes the text that its
      format describes and wc what it counts; grep's matcher decides the language of
      the expression and grep prints the lines in it; the shell's parser accepts
      the lines of a grammar and builds their commands, and whatever command it runs,
      and however its processes interleave, every program starts with three
      descriptors and nothing of a pipe that is not its own.

    Most theorems say what an operation returns and that it returns.  Theorems
    with hypotheses have a witness, a lemma that applies them to a concrete state.

    ** Bounds and fuel

    A loop of C is [loop] with a number of turns.  Where the code bounds the loop
    the number is that bound plus one: the entries of a table, the bytes of a path
    or of a transfer.  The loops that wait (for a sleep lock, for the log, for the
    disk) have the parameter [wait_bound] of the class [WaitBound]; the theorems
    hold for every positive bound, and the one about the disk names the bound it needs.
    The loops of malloc and free have two turns and more for every header that the
    memory has room for, and the programs that read a file one turn for every byte of
    it and one more.  That the number is enough is part of the
    theorems that say that an operation returns, and for the walk of a path it is
    the theorem [namex_walk_ends].

    ** What is not modelled

    - Assembly (entry.S, kernelvec.S, swtch.S, trampoline.S, initcode.S, usys.pl) and
      the CSR accessors of riscv.h: their effect is on registers that the model does not
      have.  A trap is modelled from usertrap on, a context switch as the change of the
      process that runs.
    - start.c, main.c and plic.c: loads and stores of device and machine registers,
      and calls of the init functions, which are in their components.
    - proj1/kernel: an earlier copy of syscall.c and sysproc.c.
    - init, zombie and the main function of grep, and the tests.  The interface that the
      user programs are proved against is not derived from the kernel's system calls:
      they are proved for any system that satisfies it.
    - Weak memory: a critical section is one step, and its fences are what the
      theorem about spin locks assumes of the atomic instructions. *)
From Stdlib Require Export ZifyBool.
From stdpp Require Export base numbers list strings.

Open Scope Z_scope.

(** ** Machine integers *)

(** Unsigned C integers are integers kept in [0, 2^w); every operation that
    can leave the range is followed by the reduction of its width. *)
Definition u8 (x : Z) : Z := x mod 2 ^ 8.
Definition u16 (x : Z) : Z := x mod 2 ^ 16.
Definition u32 (x : Z) : Z := x mod 2 ^ 32.
Definition u64 (x : Z) : Z := x mod 2 ^ 64.

(** Conversion of a bit pattern to a signed 32-bit [int] (two's complement,
    as the RISC-V compiler does it). *)
Definition s32 (x : Z) : Z := (x + 2 ^ 31) mod 2 ^ 32 - 2 ^ 31.

Definition s64 (x : Z) : Z := (x + 2 ^ 63) mod 2 ^ 64 - 2 ^ 63.

(** Conversion to a signed 8-bit [char], and back from [short]. *)
Definition s8 (x : Z) : Z := (x + 2 ^ 7) mod 2 ^ 8 - 2 ^ 7.
Definition s16 (x : Z) : Z := (x + 2 ^ 15) mod 2 ^ 16 - 2 ^ 15.

(** A C condition: nonzero is true. *)
Definition ctrue (x : Z) : bool := negb (x =? 0).

(** ** Outcomes and the state monad

    A kernel function either returns, panics (the machine stops), goes to
    sleep with nothing left in the schedule to wake it, or exhausts the fuel
    of one of its loops.  Every theorem that promises a result excludes the
    last three. *)
Inductive outcome (S A : Type) : Type :=
| Ok (a : A) (s : S)
| Panic (msg : string)
| Asleep (s : S)
| NoFuel.
Arguments Ok {S A} a s.
Arguments Panic {S A} msg.
Arguments Asleep {S A} s.
Arguments NoFuel {S A}.

Definition M (S A : Type) : Type := S → outcome S A.

#[export] Instance M_ret S : MRet (M S) := λ A a s, Ok a s.
#[export] Instance M_bind S : MBind (M S) := λ A B k m s,
  match m s with
  | Ok a s' => k a s'
  | Panic msg => Panic msg
  | Asleep s' => Asleep s'
  | NoFuel => NoFuel
  end.

Definition panic {S A} (msg : string) : M S A := λ _, Panic msg.
Definition gets {S A} (f : S → A) : M S A := λ s, Ok (f s) s.
Definition modify {S} (f : S → S) : M S unit := λ s, Ok tt (f s).

(** [loop fuel body a]: run [body] from [a]; [inl a'] continues with [a'],
    [inr b] leaves the loop (a [break], or the loop condition failing). *)
Fixpoint loop {S A B} (fuel : nat) (body : A → M S (A + B)) (a : A) : M S B :=
  match fuel with
  | O => λ _, NoFuel
  | Datatypes.S fuel' =>
      r ← body a;
      match r with
      | inl a' => loop fuel' body a'
      | inr b => mret b
      end
  end.

(** A computation on a part [T] of a larger state [S]. *)
Record lens (S T : Type) := Lens {
  lget : S → T;
  lset : T → S → S;
}.
Arguments Lens {S T} lget lset.
Arguments lget {S T} l.
Arguments lset {S T} l.

Definition lift {S T A} (l : lens S T) (m : M T A) : M S A := λ s,
  match m (lget l s) with
  | Ok a t => Ok a (lset l t s)
  | Panic msg => Panic msg
  | Asleep t => Asleep (lset l t s)
  | NoFuel => NoFuel
  end.

Definition lcomp {S T U} (l : lens S T) (l' : lens T U) : lens S U :=
  Lens (λ s, lget l' (lget l s)) (λ u s, lset l (lset l' u (lget l s)) s).

(** ** Tactics *)

(** Run the first computation of a bind whose result is known. *)
Lemma bind_ok {S A B} (m : M S A) (k : A → M S B) s a s' :
  m s = Ok a s' → (m ≫= k) s = k a s'.
Proof. intros H. unfold mbind, M_bind. by rewrite H. Qed.

Lemma bind_assoc {S A B C} (m : M S A) (f : A → M S B) (g : B → M S C) s :
  ((m ≫= f) ≫= g) s = (m ≫= λ a, f a ≫= g) s.
Proof. unfold mbind, M_bind. by destruct (m s). Qed.

Lemma bind_ext {S A B} (m : M S A) (f g : A → M S B) s :
  (∀ a t, f a t = g a t) → (m ≫= f) s = (m ≫= g) s.
Proof. intros E. unfold mbind, M_bind. by destruct (m s). Qed.

Lemma bind_panic {S A B} (m : M S A) (k : A → M S B) s msg :
  m s = Panic msg → (m ≫= k) s = Panic msg.
Proof. intros H. unfold mbind, M_bind. by rewrite H. Qed.

Lemma bind_ok_inv {S A B} (m : M S A) (k : A → M S B) s b s' :
  (m ≫= k) s = Ok b s' → ∃ a t, m s = Ok a t ∧ k a t = Ok b s'.
Proof. unfold mbind, M_bind. destruct (m s); naive_solver. Qed.

Lemma lift_ok {S T A} (l : lens S T) (m : M T A) s a t :
  m (lget l s) = Ok a t → lift l m s = Ok a (lset l t s).
Proof. intros H. unfold lift. by rewrite H. Qed.

Lemma lift_panic {S T A} (l : lens S T) (m : M T A) s msg :
  m (lget l s) = Panic msg → lift l m s = Panic msg.
Proof. intros H. unfold lift. by rewrite H. Qed.

(** A loop whose next turns only move on, and one that ends. *)
Lemma loop_skip {S A B} (body : A → M S (A + B)) (f : nat → A) (k fuel : nat) s :
  (∀ j, (j < k)%nat → body (f j) s = Ok (inl (f (Datatypes.S j))) s) → loop (k + fuel) body (f 0%nat) s = loop fuel body (f k) s.
Proof.
  revert f. induction k as [|k IH]; intros f Hb; [done|]. cbn [Nat.add loop].
  rewrite (bind_ok _ _ _ _ _ (Hb 0%nat ltac:(lia))). apply (IH (λ j, f (Datatypes.S j))). intros j Hj. apply Hb. lia.
Qed.
Lemma loop_end {S A B} (body : A → M S (A + B)) fuel a s b s' :
  body a s = Ok (inr b) s' → loop (Datatypes.S fuel) body a s = Ok b s'.
Proof. intros H. cbn [loop]. by rewrite (bind_ok _ _ _ _ _ H). Qed.

(** [mstep H]: the computation at the head of the goal returns by [H]. *)
Ltac mstep H := erewrite bind_ok; [| apply H].

(** Unfold the monad's plumbing on a goal or everywhere. *)
Ltac munfold := unfold mbind, M_bind, mret, M_ret, gets, modify, panic in *.

(** Split on the boolean tests of a goal, then leave linear arithmetic. *)
Ltac zcase :=
  repeat match goal with
  | |- context [if ?b then _ else _] => destruct b eqn:?
  end.

(** ** Facts about machine integers *)

Lemma u64_small x : 0 ≤ x < 2 ^ 64 → u64 x = x.
Proof. apply Z.mod_small. Qed.

Lemma u64_small_eq x y : x = y → 0 ≤ y < 2 ^ 64 → u64 x = y.
Proof. intros ->. apply u64_small. Qed.

Lemma u32_small x : 0 ≤ x < 2 ^ 32 → u32 x = x.
Proof. apply Z.mod_small. Qed.

Lemma u8_small x : 0 ≤ x < 256 → u8 x = x.
Proof. apply Z.mod_small. Qed.

Lemma u64_range x : 0 ≤ u64 x < 2 ^ 64.
Proof. apply Z.mod_pos_bound. lia. Qed.

Lemma u32_range x : 0 ≤ u32 x < 2 ^ 32.
Proof. apply Z.mod_pos_bound. lia. Qed.

Lemma u8_range x : 0 ≤ u8 x < 256.
Proof. apply Z.mod_pos_bound. lia. Qed.

Lemma s32_small x : - 2 ^ 31 ≤ x < 2 ^ 31 → s32 x = x.
Proof. intros H. unfold s32. rewrite Z.mod_small; lia. Qed.

Lemma s32_range x : - 2 ^ 31 ≤ s32 x < 2 ^ 31.
Proof. unfold s32. pose proof (Z.mod_pos_bound (x + 2 ^ 31) (2 ^ 32)). lia. Qed.

(** ** Arrays as functions *)

Definition fupd {A} (i : Z) (v : A) (f : Z → A) : Z → A := λ j, if j =? i then v else f j.

Lemma fupd_eq {A} i (v : A) f : fupd i v f i = v.
Proof. unfold fupd. by rewrite Z.eqb_refl. Qed.
Lemma fupd_ne {A} i j (v : A) f : j ≠ i → fupd i v f j = f j.
Proof. intros H. unfold fupd. by rewrite (proj2 (Z.eqb_neq j i) H). Qed.

(** ** Facts about lists *)

Lemma nth_take_lt {A} (l : list A) n i d : (i < n)%nat → nth i (take n l) d = nth i l d.
Proof. intros H. rewrite !nth_lookup. by rewrite lookup_take_lt. Qed.

Lemma nth_drop_add {A} (l : list A) n i d : nth i (drop n l) d = nth (n + i) l d.
Proof. rewrite !nth_lookup. by rewrite lookup_drop. Qed.

(** The automation database of the development: range facts of machine
    integers and of the memories and page lists built on them. *)
Create HintDb xv6.
#[export] Hint Resolve u64_range u32_range u8_range s32_range : xv6.
Create Rewrite HintDb xv6.
#[export] Hint Rewrite u64_small u32_small u8_small s32_small using lia : xv6.
