(* ===== verification/Bytes.v ===== *)
(** * Little-endian fields of structures laid out in byte arrays

    The kernel casts the data of a disk block to a structure and reads and
    writes its fields.  Here a block is a list of bytes; [get] and [put] are the
    load and the store of a field of [n] bytes at an offset. *)
From S2P Require Import Prelude.
Open Scope Z_scope.

Fixpoint le_bytes (n : nat) (v : Z) : list Z :=
  match n with
  | O => []
  | S n' => u8 v :: le_bytes n' (v / 256)
  end.

Fixpoint le_val (l : list Z) : Z :=
  match l with
  | [] => 0
  | b :: l' => b + 256 * le_val l'
  end.

Definition get (n : nat) (d : list Z) (o : Z) : Z := le_val (take n (drop (Z.to_nat o) d)).
(** Overwrite the bytes from offset [o] on. *)
Definition splice (d : list Z) (o : Z) (bs : list Z) : list Z := list_inserts (Z.to_nat o) bs d.
Definition put (n : nat) (d : list Z) (o v : Z) : list Z := splice d o (le_bytes n v).

(** uint fields, and short fields, which are signed. *)
Definition get32 (d : list Z) (o : Z) : Z := get 4 d o.
Definition put32 (d : list Z) (o v : Z) : list Z := put 4 d o v.
Definition gets16 (d : list Z) (o : Z) : Z := s16 (get 2 d o).
Definition get16 (d : list Z) (o : Z) : Z := get 2 d o.
Definition put16 (d : list Z) (o v : Z) : list Z := put 2 d o v.

(** A byte list is one whose elements are bytes. *)
Definition is_bytes (d : list Z) : Prop := Forall (λ b, 0 ≤ b < 256) d.

Lemma length_le_bytes n v : length (le_bytes n v) = n.
Proof. revert v. induction n; intros v; simpl; [done|]. by rewrite IHn. Qed.

Lemma le_bytes_bytes n v : is_bytes (le_bytes n v).
Proof. revert v. induction n; intros v; constructor; [apply u8_range|apply IHn]. Qed.

Lemma le_val_le_bytes n v : le_val (le_bytes n v) = v mod 256 ^ Z.of_nat n.
Proof.
  revert v. induction n as [|n IH]; intros v; simpl le_val; [by rewrite Z.mod_1_r|].
  rewrite IH. replace (Z.of_nat (S n)) with (1 + Z.of_nat n) by lia.
  rewrite Z.pow_add_r, Z.pow_1_r by lia. rewrite Z.rem_mul_r by lia. unfold u8. change (2 ^ 8) with 256. lia.
Qed.

Lemma le_val_range l : is_bytes l → 0 ≤ le_val l < 256 ^ Z.of_nat (length l).
Proof.
  induction 1 as [|b l Hb _ IH]; simpl length; [done|]. simpl le_val.
  replace (Z.of_nat (S (length l))) with (1 + Z.of_nat (length l)) by lia.
  rewrite Z.pow_add_r, Z.pow_1_r by lia. lia.
Qed.

Lemma le_bytes_le_val l : is_bytes l → le_bytes (length l) (le_val l) = l.
Proof.
  induction 1 as [|b l Hb _ IH]; [done|]. simpl. f_equal.
  - unfold u8. rewrite Z.mul_comm, Z.mod_add by lia. by apply Z.mod_small.
  - rewrite Z.mul_comm, Z.div_add, Z.div_small, Z.add_0_l by lia. done.
Qed.

Lemma length_splice d o bs : length (splice d o bs) = length d.
Proof. apply length_inserts. Qed.

Lemma splice_bytes d o bs : is_bytes d → is_bytes bs → is_bytes (splice d o bs).
Proof.
  intros Hd Hb. unfold splice. revert Hb. generalize (Z.to_nat o). induction bs as [|b bs IH]; intros i Hb; simpl; [done|].
  apply Forall_cons in Hb as [Hb Hbs]. apply Forall_insert; [|done]. by apply IH.
Qed.

(** The bytes of a range, and what a store leaves in them. *)
Definition sub (d : list Z) (o n : Z) : list Z := take (Z.to_nat n) (drop (Z.to_nat o) d).

Lemma sub_splice_eq d o bs :
  0 ≤ o → o + Z.of_nat (length bs) ≤ Z.of_nat (length d) → sub (splice d o bs) o (Z.of_nat (length bs)) = bs.
Proof.
  intros Ho Hl. unfold sub, splice. apply list_eq. intros i. rewrite Nat2Z.id.
  destruct (decide (i < length bs)%nat) as [Hi|Hi].
  - rewrite lookup_take_lt, lookup_drop by done. rewrite list_lookup_inserts by lia. f_equal. lia.
  - rewrite lookup_take_ge by lia. symmetry. apply lookup_ge_None. lia.
Qed.

Lemma sub_splice_ne d o bs p n :
  0 ≤ o → 0 ≤ p → 0 ≤ n → p + n ≤ o ∨ o + Z.of_nat (length bs) ≤ p → sub (splice d o bs) p n = sub d p n.
Proof.
  intros Ho Hp Hn Hd. unfold sub, splice. apply list_eq. intros i.
  destruct (decide (i < Z.to_nat n)%nat) as [Hi|Hi].
  - rewrite !lookup_take_lt, !lookup_drop by done. destruct Hd as [Hd|Hd].
    + apply list_lookup_inserts_lt. lia.
    + apply list_lookup_inserts_ge. lia.
  - by rewrite !lookup_take_ge by lia.
Qed.

Lemma get_sub n d o : get n d o = le_val (sub d o (Z.of_nat n)).
Proof. unfold get, sub. by rewrite Nat2Z.id. Qed.

Lemma get_put_eq n d o v : 0 ≤ o → o + Z.of_nat n ≤ Z.of_nat (length d) →
  get n (put n d o v) o = v mod 256 ^ Z.of_nat n.
Proof.
  intros Ho Hl. rewrite get_sub. unfold put. rewrite <- (length_le_bytes n v) at 2.
  rewrite sub_splice_eq by (by rewrite ?length_le_bytes). apply le_val_le_bytes.
Qed.

Lemma get_splice_ne n d o bs p :
  0 ≤ o → 0 ≤ p → p + Z.of_nat n ≤ o ∨ o + Z.of_nat (length bs) ≤ p → get n (splice d o bs) p = get n d p.
Proof. intros. rewrite !get_sub, sub_splice_ne; [done|done|done|lia|done]. Qed.

Lemma get_put_ne n m d o v p :
  0 ≤ o → 0 ≤ p → p + Z.of_nat n ≤ o ∨ o + Z.of_nat m ≤ p → get n (put m d o v) p = get n d p.
Proof. intros. apply get_splice_ne; try done. by rewrite length_le_bytes. Qed.

Lemma length_put n d o v : length (put n d o v) = length d.
Proof. apply length_splice. Qed.

Lemma get32_put32 d o v : 0 ≤ o → o + 4 ≤ Z.of_nat (length d) → 0 ≤ v < 2 ^ 32 → get32 (put32 d o v) o = v.
Proof. intros. unfold get32, put32. rewrite get_put_eq by done. by apply Z.mod_small. Qed.

Lemma get32_put32_ne d o v p : 0 ≤ o → 0 ≤ p → p + 4 ≤ o ∨ o + 4 ≤ p → get32 (put32 d o v) p = get32 d p.
Proof. intros. by apply get_put_ne. Qed.

Lemma length_put32 d o v : length (put32 d o v) = length d.
Proof. apply length_splice. Qed.

#[export] Hint Rewrite length_splice length_put length_put32 length_le_bytes : xv6.
