(* ===== verification/Mem.v ===== *)
(** * Physical memory and the byte routines of kernel/string.c

    Memory is a total function from addresses to bytes (integers in
    [0, 256)); words are little-endian.  The routines of string.c are the C
    loops, with the remaining count as the structurally decreasing argument. *)
From S2P Require Import Prelude.
Open Scope Z_scope.

Abbreviation mem := (Z → Z).

(** ** Loads and stores *)

Definition store8 (m : mem) (a v : Z) : mem := λ x, if x =? a then u8 v else m x.

Fixpoint load_le (m : mem) (a : Z) (n : nat) : Z :=
  match n with
  | O => 0
  | S n' => m a + 256 * load_le m (a + 1) n'
  end.

Fixpoint store_le (m : mem) (a : Z) (n : nat) (v : Z) : mem :=
  match n with
  | O => m
  | S n' => store8 (store_le m (a + 1) n' (v / 256)) a v
  end.

Definition load64 (m : mem) (a : Z) : Z := load_le m a 8.
Definition store64 (m : mem) (a v : Z) : mem := store_le m a 8 v.

(** The bytes at [a, a+n). *)
Fixpoint load_bytes (m : mem) (a : Z) (n : nat) : list Z :=
  match n with
  | O => []
  | S n' => m a :: load_bytes m (a + 1) n'
  end.

Fixpoint store_bytes (m : mem) (a : Z) (bs : list Z) : mem :=
  match bs with
  | [] => m
  | b :: bs' => store_bytes (store8 m a b) (a + 1) bs'
  end.

Definition byte_mem (m : mem) : Prop := ∀ a, 0 ≤ m a < 256.

(** ** kernel/string.c *)

(** [for(i = 0; i < n; i++) cdst[i] = c;], [k] iterations left. *)
Fixpoint memset_loop (m : mem) (dst c i : Z) (k : nat) : mem :=
  match k with
  | O => m
  | S k' => memset_loop (store8 m (dst + i) c) dst c (i + 1) k'
  end.

Definition memset (m : mem) (dst c n : Z) : mem := memset_loop m dst c 0 (Z.to_nat n).

(** [while(n-- > 0){ if( *s1 != *s2) return *s1 - *s2; s1++, s2++; }] *)
Fixpoint memcmp_loop (m : mem) (s1 s2 : Z) (n : nat) : Z :=
  match n with
  | O => 0
  | S n' => if negb (m s1 =? m s2) then m s1 - m s2
            else memcmp_loop m (s1 + 1) (s2 + 1) n'
  end.

Definition memcmp (m : mem) (v1 v2 n : Z) : Z := memcmp_loop m v1 v2 (Z.to_nat n).

(** [while(n-- > 0) *d++ = *s++;] *)
Fixpoint memmove_fwd (m : mem) (d s : Z) (n : nat) : mem :=
  match n with
  | O => m
  | S n' => memmove_fwd (store8 m d (m s)) (d + 1) (s + 1) n'
  end.

(** [while(n-- > 0) *--d = *--s;] *)
Fixpoint memmove_bwd (m : mem) (d s : Z) (n : nat) : mem :=
  match n with
  | O => m
  | S n' => memmove_bwd (store8 m (d - 1) (m (s - 1))) (d - 1) (s - 1) n'
  end.

Definition memmove (m : mem) (dst src n : Z) : mem :=
  if n =? 0 then m
  else if (src <? dst) && (src + n >? dst)
       then memmove_bwd m (dst + n) (src + n) (Z.to_nat n)
       else memmove_fwd m dst src (Z.to_nat n).

Definition memcpy (m : mem) (dst src n : Z) : mem := memmove m dst src n.

(** [while(n > 0 && *p && *p == *q) n--, p++, q++;
     if(n == 0) return 0; return (uchar)*p - (uchar)*q;] *)
Fixpoint strncmp_loop (m : mem) (p q : Z) (n : nat) : Z :=
  match n with
  | O => 0
  | S n' => if ctrue (m p) && (m p =? m q) then strncmp_loop m (p + 1) (q + 1) n'
            else u8 (m p) - u8 (m q)
  end.

Definition strncmp (m : mem) (p q n : Z) : Z := strncmp_loop m p q (Z.to_nat n).

(** [while(n-- > 0) *s++ = 0;] *)
Fixpoint strncpy_pad (m : mem) (s : Z) (n : nat) : mem :=
  match n with
  | O => m
  | S n' => strncpy_pad (store8 m s 0) (s + 1) n'
  end.

(** [while(n-- > 0 && ( *s++ = *t++) != 0) ;] then the padding loop, which
    starts with the count the first loop left. *)
Fixpoint strncpy_copy (m : mem) (s t : Z) (n : nat) : mem :=
  match n with
  | O => m
  | S n' => let m' := store8 m s (m t) in
            if ctrue (m' s) then strncpy_copy m' (s + 1) (t + 1) n'
            else strncpy_pad m' (s + 1) n'
  end.

Definition strncpy (m : mem) (s t n : Z) : mem := strncpy_copy m s t (Z.to_nat n).

(** [while(--n > 0 && ( *s++ = *t++) != 0) ; *s = 0;], [n] the count after
    the decrement. *)
Fixpoint safestrcpy_loop (m : mem) (s t : Z) (n : nat) : mem :=
  match n with
  | O => store8 m s 0
  | S n' => let m' := store8 m s (m t) in
            if ctrue (m' s) then safestrcpy_loop m' (s + 1) (t + 1) n'
            else store8 m' (s + 1) 0
  end.

Definition safestrcpy (m : mem) (s t n : Z) : mem :=
  if n <=? 0 then m else safestrcpy_loop m s t (Z.to_nat (n - 1)).

(** [for(n = 0; s[n]; n++) ;], with fuel: no NUL within it gives [None]. *)
Fixpoint strlen_loop (m : mem) (s : Z) (n : Z) (fuel : nat) : option Z :=
  match fuel with
  | O => None
  | S fuel' => if ctrue (m (s + n)) then strlen_loop m s (n + 1) fuel' else Some n
  end.

Definition strlen (m : mem) (s : Z) (fuel : nat) : option Z := strlen_loop m s 0 fuel.

(** A NUL-terminated string [l] stored at [a]. *)
Fixpoint cstr (m : mem) (a : Z) (l : list Z) : Prop :=
  match l with
  | [] => m a = 0
  | c :: l' => m a = c ∧ c ≠ 0 ∧ cstr m (a + 1) l'
  end.

(** ** Lemmas: loads and stores *)

Lemma store8_eq m a v : store8 m a v a = u8 v.
Proof. unfold store8. by rewrite Z.eqb_refl. Qed.

Lemma store8_ne m a v x : x ≠ a → store8 m a v x = m x.
Proof. intros H. unfold store8. by rewrite (proj2 (Z.eqb_neq x a)). Qed.

Lemma store8_byte m a v : byte_mem m → byte_mem (store8 m a v).
Proof. intros H x. unfold store8. zcase; auto with xv6. Qed.

Lemma load_le_ext m m' a n :
  (∀ x, a ≤ x < a + Z.of_nat n → m x = m' x) → load_le m a n = load_le m' a n.
Proof.
  revert a. induction n as [|n IH]; intros a H; simpl; [done|].
  rewrite (H a) by lia. f_equal. f_equal. apply IH. intros x Hx. apply H. lia.
Qed.

Lemma load_le_bound m a n : byte_mem m → 0 ≤ load_le m a n < 256 ^ Z.of_nat n.
Proof.
  intros Hm. revert a. induction n as [|n IH]; intros a; [simpl; lia|].
  cbn [load_le]. rewrite Nat2Z.inj_succ, Z.pow_succ_r by lia.
  pose proof (Hm a). pose proof (IH (a + 1)). nia.
Qed.

Lemma store_le_other m a n v x :
  ¬ (a ≤ x < a + Z.of_nat n) → store_le m a n v x = m x.
Proof.
  revert a v. induction n as [|n IH]; intros a v H; cbn [store_le]; [done|].
  rewrite store8_ne by lia. apply IH. lia.
Qed.

Lemma load_store_le m a n v : load_le (store_le m a n v) a n = v mod 256 ^ Z.of_nat n.
Proof.
  revert a v. induction n as [|n IH]; intros a v; [simpl; by rewrite Z.mod_1_r|].
  cbn [load_le store_le]. rewrite store8_eq.
  rewrite (load_le_ext _ (store_le m (a + 1) n (v / 256))).
  2:{ intros x Hx. apply store8_ne. lia. }
  rewrite IH, Nat2Z.inj_succ, Z.pow_succ_r by lia.
  unfold u8. change (2 ^ 8) with 256. rewrite Z.rem_mul_r by lia. done.
Qed.

Lemma store_le_byte m a n v : byte_mem m → byte_mem (store_le m a n v).
Proof.
  revert a v. induction n as [|n IH]; intros a v H; cbn [store_le]; [done|].
  apply store8_byte. by apply IH.
Qed.

Lemma load64_store64_eq m a v : load64 (store64 m a v) a = u64 v.
Proof. unfold load64, store64. rewrite load_store_le. done. Qed.

Lemma load64_store64_ne m a b v :
  a + 8 ≤ b ∨ b + 8 ≤ a → load64 (store64 m a v) b = load64 m b.
Proof.
  intros H. unfold load64, store64. apply load_le_ext. intros x Hx.
  apply store_le_other. lia.
Qed.

Lemma load64_ext m m' a :
  (∀ x, a ≤ x < a + 8 → m x = m' x) → load64 m a = load64 m' a.
Proof. intros H. apply load_le_ext. intros x Hx. apply H. lia. Qed.

Lemma load64_bound m a : byte_mem m → 0 ≤ load64 m a < 2 ^ 64.
Proof. intros H. apply (load_le_bound m a 8 H). Qed.

Lemma store64_other m a v x : ¬ (a ≤ x < a + 8) → store64 m a v x = m x.
Proof. intros H. apply store_le_other. lia. Qed.

Lemma store64_byte m a v : byte_mem m → byte_mem (store64 m a v).
Proof. apply store_le_byte. Qed.

Lemma length_load_bytes m a n : length (load_bytes m a n) = n.
Proof. revert a. induction n; intros a; simpl; auto. Qed.

Lemma lookup_load_bytes m a n i :
  (i < n)%nat → load_bytes m a n !! i = Some (m (a + Z.of_nat i)).
Proof.
  revert a i. induction n as [|n IH]; intros a [|i] H; try lia; cbn [load_bytes].
  - simpl. by rewrite Z.add_0_r.
  - simpl. rewrite IH by lia. f_equal. f_equal. lia.
Qed.

Lemma load_bytes_app m a n k :
  load_bytes m a (n + k) = load_bytes m a n ++ load_bytes m (a + Z.of_nat n) k.
Proof.
  revert a. induction n as [|n IH]; intros a; simpl; [by rewrite Z.add_0_r|].
  f_equal. rewrite IH. do 2 f_equal. lia.
Qed.

Lemma load_bytes_ext m m' a n :
  (∀ x, a ≤ x < a + Z.of_nat n → m x = m' x) → load_bytes m a n = load_bytes m' a n.
Proof.
  revert a. induction n as [|n IH]; intros a H; simpl; [done|].
  rewrite (H a) by lia. f_equal. apply IH. intros x Hx. apply H. lia.
Qed.

Lemma store_bytes_other m a bs x :
  ¬ (a ≤ x < a + Z.of_nat (length bs)) → store_bytes m a bs x = m x.
Proof.
  revert m a. induction bs as [|b bs IH]; intros m a H; simpl in *; [done|].
  rewrite IH by lia. apply store8_ne. lia.
Qed.

Lemma load_store_bytes m a bs :
  Forall (λ b, 0 ≤ b < 256) bs → load_bytes (store_bytes m a bs) a (length bs) = bs.
Proof.
  revert m a. induction bs as [|b bs IH]; intros m a H; simpl; [done|].
  inversion_clear H. f_equal; [|by apply IH].
  rewrite store_bytes_other by lia. rewrite store8_eq. by apply u8_small.
Qed.

Lemma store_bytes_in m a bs x :
  Forall (λ b, 0 ≤ b < 256) bs → a ≤ x < a + Z.of_nat (length bs) →
  store_bytes m a bs x = nth (Z.to_nat (x - a)) bs 0.
Proof.
  revert m a. induction bs as [|b bs IH]; intros m a Hb Hx; simpl in Hx; [lia|].
  inversion_clear Hb. cbn [store_bytes]. destruct (decide (x = a)) as [->|].
  - rewrite Z.sub_diag, store_bytes_other by lia. rewrite store8_eq. by apply u8_small.
  - rewrite IH by (done || lia). by replace (Z.to_nat (x - a)) with (S (Z.to_nat (x - (a + 1)))) by lia.
Qed.

Lemma store_bytes_byte m a bs : byte_mem m → byte_mem (store_bytes m a bs).
Proof.
  revert m a. induction bs as [|b bs IH]; intros m a H; simpl; [done|].
  apply IH. by apply store8_byte.
Qed.

(** ** Lemmas: string.c *)

Lemma memset_loop_spec m dst c i k x :
  memset_loop m dst c i k x =
    if (dst + i <=? x) && (x <? dst + i + Z.of_nat k) then u8 c else m x.
Proof.
  revert m i. induction k as [|k IH]; intros m i; cbn [memset_loop].
  - destruct ((dst + i <=? x) && (x <? dst + i + Z.of_nat 0)) eqn:E; [lia|done].
  - rewrite IH. unfold store8.
    destruct ((dst + (i + 1) <=? x) && (x <? dst + (i + 1) + Z.of_nat k)) eqn:E1,
      ((dst + i <=? x) && (x <? dst + i + Z.of_nat (S k))) eqn:E2; try lia;
      destruct (x =? dst + i) eqn:E3; lia || done.
Qed.

Lemma memset_spec m dst c n x :
  memset m dst c n x = if (dst <=? x) && (x <? dst + Z.max 0 n) then u8 c else m x.
Proof.
  unfold memset. rewrite memset_loop_spec, Z.add_0_r.
  by replace (Z.of_nat (Z.to_nat n)) with (Z.max 0 n) by lia.
Qed.

Lemma memset_in m dst c n x : dst ≤ x < dst + n → memset m dst c n x = u8 c.
Proof.
  intros H. rewrite memset_spec.
  destruct ((dst <=? x) && (x <? dst + Z.max 0 n)) eqn:E; [done|lia].
Qed.

Lemma memset_other m dst c n x :
  ¬ (dst ≤ x < dst + n) → memset m dst c n x = m x.
Proof.
  intros H. rewrite memset_spec.
  destruct ((dst <=? x) && (x <? dst + Z.max 0 n)) eqn:E; [lia|done].
Qed.

Lemma memset_byte m dst c n : byte_mem m → byte_mem (memset m dst c n).
Proof. intros H x. rewrite memset_spec. zcase; auto with xv6. Qed.

Lemma memmove_fwd_spec m d s n x :
  byte_mem m → (d ≤ s ∨ s + Z.of_nat n ≤ d) →
  memmove_fwd m d s n x =
    if (d <=? x) && (x <? d + Z.of_nat n) then m (s + (x - d)) else m x.
Proof.
  revert m d s. induction n as [|n IH]; intros m d s Hm H; cbn [memmove_fwd].
  { destruct ((d <=? x) && (x <? d + Z.of_nat 0)) eqn:E; [lia|done]. }
  rewrite IH; [|by apply store8_byte|lia].
  destruct ((d + 1 <=? x) && (x <? d + 1 + Z.of_nat n)) eqn:E1,
    ((d <=? x) && (x <? d + Z.of_nat (S n))) eqn:E2; try lia.
  - replace (s + 1 + (x - (d + 1))) with (s + (x - d)) by lia. apply store8_ne. lia.
  - replace x with d by lia. rewrite store8_eq, u8_small by apply Hm. f_equal. lia.
  - apply store8_ne. lia.
Qed.

Lemma memmove_bwd_spec m d s n x :
  byte_mem m → s ≤ d →
  memmove_bwd m d s n x =
    if (d - Z.of_nat n <=? x) && (x <? d) then m (s - (d - x)) else m x.
Proof.
  revert m d s. induction n as [|n IH]; intros m d s Hm H; cbn [memmove_bwd].
  { destruct ((d - Z.of_nat 0 <=? x) && (x <? d)) eqn:E; [lia|done]. }
  rewrite IH; [|by apply store8_byte|lia].
  destruct ((d - 1 - Z.of_nat n <=? x) && (x <? d - 1)) eqn:E1,
    ((d - Z.of_nat (S n) <=? x) && (x <? d)) eqn:E2; try lia.
  - replace (s - 1 - (d - 1 - x)) with (s - (d - x)) by lia. apply store8_ne. lia.
  - replace x with (d - 1) by lia. rewrite store8_eq, u8_small by apply Hm. f_equal. lia.
  - apply store8_ne. lia.
Qed.

Lemma memmove_spec m dst src n x :
  byte_mem m → 0 ≤ n →
  memmove m dst src n x =
    if (dst <=? x) && (x <? dst + n) then m (src + (x - dst)) else m x.
Proof.
  intros Hm Hn. unfold memmove. destruct (n =? 0) eqn:E0.
  { destruct ((dst <=? x) && (x <? dst + n)) eqn:E; [lia|done]. }
  destruct ((src <? dst) && (src + n >? dst)) eqn:E1.
  - rewrite memmove_bwd_spec by (done || lia).
    rewrite Z2Nat.id by lia. replace (dst + n - n) with dst by lia.
    destruct ((dst <=? x) && (x <? dst + n)); [f_equal; lia|done].
  - rewrite memmove_fwd_spec by (done || lia). by rewrite Z2Nat.id by lia.
Qed.

Lemma memmove_byte m dst src n : 0 ≤ n → byte_mem m → byte_mem (memmove m dst src n).
Proof. intros Hn Hm x. rewrite memmove_spec by done. zcase; apply Hm. Qed.

Lemma cstr_ext m m' a l :
  (∀ x, a ≤ x ≤ a + Z.of_nat (length l) → m' x = m x) → cstr m a l → cstr m' a l.
Proof.
  revert a. induction l as [|c l IH]; intros a H; simpl in *.
  - intros <-. apply H. lia.
  - intros (<- & ? & ?). split_and!; [apply H; lia|done|].
    apply IH; [|done]. intros x Hx. apply H. lia.
Qed.

Lemma strncpy_pad_spec m s n x :
  strncpy_pad m s n x = if (s <=? x) && (x <? s + Z.of_nat n) then 0 else m x.
Proof.
  revert m s. induction n as [|n IH]; intros m s; cbn [strncpy_pad].
  { destruct ((s <=? x) && (x <? s + Z.of_nat 0)) eqn:E; [lia|done]. }
  rewrite IH. unfold store8. change (u8 0) with 0. zcase; lia || done.
Qed.

(** Two disjoint ranges of addresses. *)
Definition disjoint_rng (a n b k : Z) : Prop := a + n ≤ b ∨ b + k ≤ a.

Lemma strncpy_copy_bytes m s t n l :
  byte_mem m → cstr m t l →
  disjoint_rng s (Z.of_nat n) t (Z.of_nat (length l) + 1) →
  load_bytes (strncpy_copy m s t n) s n = take n (l ++ replicate n 0) ∧
  ∀ x, ¬ (s ≤ x < s + Z.of_nat n) → strncpy_copy m s t n x = m x.
Proof.
  unfold disjoint_rng.
  revert m s t l. induction n as [|n IH]; intros m s t l Hm Hl Hd; [done|].
  cbn [strncpy_copy]. rewrite store8_eq, u8_small by apply Hm. unfold ctrue.
  destruct l as [|c l]; cbn [cstr length] in Hl, Hd.
  - rewrite Hl. change (negb (0 =? 0)) with false. cbv iota. split.
    + cbn [load_bytes app replicate take]. f_equal.
      * rewrite strncpy_pad_spec. zcase; [lia|]. by rewrite store8_eq.
      * apply list_eq_same_length with n; rewrite ?length_load_bytes,
          ?length_take, ?length_replicate; try lia.
        intros i y z Hi Hy Hz. rewrite lookup_load_bytes in Hy by lia.
        rewrite strncpy_pad_spec in Hy.
        apply lookup_take_Some in Hz as [Hz _].
        apply lookup_replicate in Hz as [-> _].
        destruct (_ && _) eqn:E in Hy; [by simplify_eq|lia].
    + intros x Hx. rewrite strncpy_pad_spec. zcase; [lia|]. apply store8_ne. lia.
  - destruct Hl as (Hc & Hc0 & Hl). rewrite Hc.
    destruct (c =? 0) eqn:E; [lia|]. cbn [negb]. cbv iota.
    destruct (IH (store8 m s c) (s + 1) (t + 1) l) as [IH1 IH2].
    + by apply store8_byte.
    + apply (cstr_ext m); [|done]. intros x Hx. apply store8_ne. lia.
    + lia.
    + split.
      * cbn [load_bytes app take]. f_equal.
        -- rewrite IH2 by lia. rewrite store8_eq. apply u8_small. rewrite <- Hc. apply Hm.
        -- rewrite IH1. apply list_eq. intros i.
           destruct (decide (i < n)%nat).
           ++ rewrite !lookup_take_lt by lia.
              destruct (decide (i < length l)%nat).
              { rewrite !lookup_app_l by lia. done. }
              rewrite !lookup_app_r by lia. rewrite !lookup_replicate_2 by lia. done.
           ++ rewrite !lookup_take_ge by lia. done.
      * intros x Hx. rewrite IH2 by lia. apply store8_ne. lia.
Qed.

Lemma safestrcpy_loop_spec m s t k l :
  byte_mem m → cstr m t l →
  disjoint_rng s (Z.of_nat k + 1) t (Z.of_nat (length l) + 1) →
  cstr (safestrcpy_loop m s t k) s (take k l) ∧
  ∀ x, ¬ (s ≤ x < s + Z.of_nat k + 1) → safestrcpy_loop m s t k x = m x.
Proof.
  unfold disjoint_rng.
  revert m s t l. induction k as [|k IH]; intros m s t l Hm Hl Hd; cbn [safestrcpy_loop].
  { split; [simpl; by rewrite store8_eq|]. intros x Hx. apply store8_ne. lia. }
  rewrite store8_eq, u8_small by apply Hm. unfold ctrue.
  destruct l as [|c l]; cbn [cstr length] in Hl, Hd.
  - rewrite Hl. change (negb (0 =? 0)) with false. cbv iota. split.
    + simpl. rewrite store8_ne by lia. by rewrite store8_eq.
    + intros x Hx. rewrite !store8_ne by lia. done.
  - destruct Hl as (Hc & Hc0 & Hl). rewrite Hc.
    destruct (c =? 0) eqn:E; [lia|]. cbn [negb]. cbv iota.
    destruct (IH (store8 m s c) (s + 1) (t + 1) l) as [IH1 IH2].
    + by apply store8_byte.
    + apply (cstr_ext m); [|done]. intros x Hx. apply store8_ne. lia.
    + lia.
    + split.
      * cbn [take cstr]. split_and!; [|done|done]. rewrite IH2 by lia.
        rewrite store8_eq. apply u8_small. rewrite <- Hc. apply Hm.
      * intros x Hx. rewrite IH2 by lia. apply store8_ne. lia.
Qed.

Lemma strncmp_loop_eq m p q n l1 l2 :
  byte_mem m → cstr m p l1 → cstr m q l2 →
  strncmp_loop m p q n = 0 ↔ take n l1 = take n l2.
Proof.
  intros Hm. revert p q l1 l2. induction n as [|n IH]; intros p q l1 l2 H1 H2; [done|].
  cbn [strncmp_loop]. rewrite !u8_small by apply Hm. unfold ctrue.
  destruct l1 as [|c l1], l2 as [|d l2]; cbn [cstr take] in *.
  - rewrite H1, H2. done.
  - destruct H2 as (H2 & ? & _). rewrite H1, H2. simpl.
    split; [lia|discriminate].
  - destruct H1 as (H1 & ? & _). rewrite H1, H2.
    replace (c =? 0) with false by lia. simpl. split; [lia|discriminate].
  - destruct H1 as (H1 & ? & Hl1), H2 as (H2 & ? & Hl2). rewrite H1, H2.
    replace (c =? 0) with false by lia. simpl. destruct (c =? d) eqn:E.
    + rewrite (IH _ _ l1 l2) by done. split; [intros ->; f_equal; lia|by intros [= _ ?]].
    + split; [lia|]. intros [= ?]. lia.
Qed.

Lemma strlen_loop_spec m s n l fuel :
  cstr m (s + n) l → (length l < fuel)%nat →
  strlen_loop m s n fuel = Some (n + Z.of_nat (length l)).
Proof.
  revert n fuel. induction l as [|c l IH]; intros n [|fuel] Hl Hf; cbn [cstr length] in *;
    try lia; cbn [strlen_loop]; unfold ctrue.
  - rewrite Hl. simpl. f_equal. lia.
  - destruct Hl as (-> & ? & Hl). destruct (c =? 0) eqn:E; [lia|]. simpl.
    rewrite IH by (lia || (by rewrite Z.add_assoc)). f_equal. lia.
Qed.

Lemma strlen_spec m s l fuel :
  cstr m s l → (length l < fuel)%nat → strlen m s fuel = Some (Z.of_nat (length l)).
Proof. intros. unfold strlen. rewrite (strlen_loop_spec m s 0 l); [done|by rewrite Z.add_0_r|done]. Qed.

(** ** Properties *)

(** C22: memmove is correct for every placement of the two ranges, overlapping
    ones included: each destination byte gets the byte its source position
    held before the call, and no byte outside the destination changes. *)
Theorem memmove_correct (m : mem) (dst src n : Z) :
  byte_mem m → 0 ≤ n →
  (∀ i, 0 ≤ i < n → memmove m dst src n (dst + i) = m (src + i)) ∧
  (∀ x, ¬ (dst ≤ x < dst + n) → memmove m dst src n x = m x).
Proof.
  intros Hm Hn. split.
  - intros i Hi. rewrite memmove_spec by done.
    destruct ((dst <=? dst + i) && (dst + i <? dst + n)) eqn:E; [f_equal; lia|lia].
  - intros x Hx. rewrite memmove_spec by done.
    destruct ((dst <=? x) && (x <? dst + n)) eqn:E; [lia|done].
Qed.

(** A memory whose byte at [a] is [a mod 256]. *)
Definition ramp : mem := λ a, a mod 256.

Lemma memmove_correct_witness :
  memmove ramp 102 100 8 107 = 105 ∧ memmove ramp 102 100 8 110 = 110.
Proof.
  assert (byte_mem ramp) as H by (intros a; apply Z.mod_pos_bound; lia).
  destruct (memmove_correct ramp 102 100 8 H ltac:(lia)) as [H1 H2].
  split; [exact (H1 5 ltac:(lia))|exact (H2 110 ltac:(lia))].
Defined.

(** Safestrcpy always leaves a NUL-terminated string in the buffer: the
    first [n-1] bytes of the source string (all of it when it fits), and
    touches nothing outside the [n] bytes of the buffer. *)
Theorem safestrcpy_terminates_string (m : mem) (s t n : Z) (l : list Z) :
  byte_mem m → 0 < n → cstr m t l →
  disjoint_rng s n t (Z.of_nat (length l) + 1) →
  cstr (safestrcpy m s t n) s (take (Z.to_nat (n - 1)) l) ∧
  ∀ x, ¬ (s ≤ x < s + n) → safestrcpy m s t n x = m x.
Proof.
  intros Hm Hn Hl Hd. unfold safestrcpy. replace (n <=? 0) with false by lia.
  destruct (safestrcpy_loop_spec m s t (Z.to_nat (n - 1)) l) as [H1 H2]; try done.
  - unfold disjoint_rng in *. lia.
  - split; [done|]. intros x Hx. apply H2. lia.
Qed.

(** The string [abcd] at 200 in zeroed memory. *)
Definition abcd : mem := store_bytes (λ _, 0) 200 [97; 98; 99; 100].

Lemma safestrcpy_terminates_string_witness :
  cstr (safestrcpy abcd 100 200 3) 100 [97; 98].
Proof.
  assert (byte_mem abcd) as Hm by (apply store_bytes_byte; intros a; lia).
  refine (proj1 (safestrcpy_terminates_string abcd 100 200 3 [97; 98; 99; 100] Hm _ _ _)).
  - lia.
  - vm_compute. intuition lia.
  - left. simpl. lia.
Defined.

(** strncpy fills exactly [n] bytes: the source string, padded with NULs
    when it is shorter than [n]; a string of [n] or more bytes is cut and gets
    no terminator (the on-disk directory names rely on this layout). *)
Theorem strncpy_pads (m : mem) (s t n : Z) (l : list Z) :
  byte_mem m → 0 ≤ n → cstr m t l →
  disjoint_rng s n t (Z.of_nat (length l) + 1) →
  load_bytes (strncpy m s t n) s (Z.to_nat n) =
    take (Z.to_nat n) (l ++ replicate (Z.to_nat n) 0) ∧
  ∀ x, ¬ (s ≤ x < s + n) → strncpy m s t n x = m x.
Proof.
  intros Hm Hn Hl Hd. unfold strncpy.
  destruct (strncpy_copy_bytes m s t (Z.to_nat n) l) as [H1 H2]; try done.
  - unfold disjoint_rng in *. lia.
  - split; [done|]. intros x Hx. apply H2. lia.
Qed.

Lemma strncpy_pads_witness :
  load_bytes (strncpy abcd 100 200 6) 100 6 = [97; 98; 99; 100; 0; 0].
Proof.
  assert (byte_mem abcd) as Hm by (apply store_bytes_byte; intros a; lia).
  refine (proj1 (strncpy_pads abcd 100 200 6 [97; 98; 99; 100] Hm _ _ _)).
  - lia.
  - vm_compute. intuition lia.
  - left. simpl. lia.
Defined.

(** The routines are used through their specifications from here on. *)
#[global] Opaque memset memmove load64 store64 strncpy safestrcpy.
