(* ===== verification/Spinlock.v ===== *)
(** * Spin locks: kernel/spinlock.c and kernel/spinlock.h

    First the code of spinlock.c on one CPU's view: the CPU's nesting depth
    [noff], its saved interrupt state [intena], the interrupt-enable bit of
    sstatus, and the lock itself.  Then the same code as a machine of several
    CPUs that interleave at the atomic instructions, for mutual exclusion.
    Last, the lock discipline the other components use: inside a critical
    section a lock is one bit, which [acquire] sets and [release] clears. *)
From stdpp Require Import functions.
From S2P Require Import Prelude.
Open Scope Z_scope.

(** struct spinlock; [lcpu] is the index of the holding CPU in [cpus]. *)
Record spinlock := Spinlock {
  locked : Z;
  lname : string;
  lcpu : option nat;
}.

(** The part of struct cpu that spinlock.c uses, and the SIE bit of sstatus. *)
Record cpu := Cpu {
  noff : Z;
  intena : Z;
  sie : bool;
}.

Definition initlock (n : string) (lk : spinlock) : spinlock := Spinlock 0 n None.

Definition intr_get (c : cpu) : Z := if sie c then 1 else 0.
Definition intr_off (c : cpu) : cpu := Cpu (noff c) (intena c) false.
Definition intr_on (c : cpu) : cpu := Cpu (noff c) (intena c) true.

Definition push_off : M cpu unit :=
  old ← gets intr_get;
  modify intr_off;;
  n ← gets noff;
  (if n =? 0 then modify (λ c, Cpu (noff c) old (sie c)) else mret tt);;
  modify (λ c, Cpu (noff c + 1) (intena c) (sie c)).

Definition pop_off : M cpu unit :=
  i ← gets intr_get;
  if ctrue i then panic "pop_off - interruptible" else
  n ← gets noff;
  if n <? 1 then panic "pop_off" else
  modify (λ c, Cpu (noff c - 1) (intena c) (sie c));;
  c ← gets id;
  if (noff c =? 0) && ctrue (intena c) then modify intr_on else mret tt.

(** [lk->locked && lk->cpu == mycpu()] *)
Definition holding (me : nat) (lk : spinlock) : bool :=
  ctrue (locked lk) && bool_decide (lcpu lk = Some me).

Definition cpu_of : lens (cpu * spinlock) cpu := Lens fst (λ c s, (c, snd s)).

(** The atomic swap of [__sync_lock_test_and_set(&lk->locked, 1)]. *)
Definition test_and_set (lk : spinlock) : Z * spinlock :=
  (locked lk, Spinlock 1 (lname lk) (lcpu lk)).

(** [acquire(lk)] on CPU [me], alone on the machine: the spin loop is given
    [fuel] turns. *)
Definition acquire_cpu (me : nat) (fuel : nat) : M (cpu * spinlock) unit :=
  lift cpu_of push_off;;
  lk ← gets snd;
  if holding me lk then panic "acquire" else
  loop fuel (λ _ : unit,
    lk ← gets snd;
    modify (λ s, (fst s, snd (test_and_set lk)));;
    mret (if ctrue (fst (test_and_set lk)) then inl tt else inr tt)) tt;;
  modify (λ s, (fst s, Spinlock (locked (snd s)) (lname (snd s)) (Some me))).

Definition release_cpu (me : nat) : M (cpu * spinlock) unit :=
  lk ← gets snd;
  if negb (holding me lk) then panic "release" else
  modify (λ s, (fst s, Spinlock (locked (snd s)) (lname (snd s)) None));;
  modify (λ s, (fst s, Spinlock 0 (lname (snd s)) (lcpu (snd s))));;
  lift cpu_of pop_off.

(** ** Several CPUs contending for one lock

    Each CPU is at one point of [acquire]/[release]; a step runs the code up
    to the next access to shared memory.  [Broken] is a panicked CPU. *)
Inductive pc : Type :=
| Idle        (* outside the critical section *)
| Spin        (* past push_off and the holding() test, about to swap *)
| Acquired    (* the swap returned 0; lk->cpu not yet written *)
| Held        (* acquire() has returned *)
| Clearing    (* release(): lk->cpu = 0 done, locked not yet cleared *)
| Broken.

#[export] Instance pc_eq_dec : EqDecision pc.
Proof. solve_decision. Defined.

Record machine := Machine {
  mlk : spinlock;
  mcpus : nat → cpu;
  mpcs : nat → pc;
}.

Definition set_pc (i : nat) (p : pc) (s : machine) : machine :=
  Machine (mlk s) (mcpus s) (<[i := p]> (mpcs s)).
Definition set_lk (lk : spinlock) (s : machine) : machine :=
  Machine lk (mcpus s) (mpcs s).
Definition set_cpu (i : nat) (c : cpu) (s : machine) : machine :=
  Machine (mlk s) (<[i := c]> (mcpus s)) (mpcs s).

Inductive cpu_step (i : nat) (s : machine) : machine → Prop :=
| step_enter c :
    mpcs s i = Idle → push_off (mcpus s i) = Ok tt c →
    cpu_step i s (set_pc i (if holding i (mlk s) then Broken else Spin) (set_cpu i c s))
| step_swap :
    mpcs s i = Spin →
    cpu_step i s (set_pc i (if ctrue (fst (test_and_set (mlk s))) then Spin else Acquired)
                    (set_lk (snd (test_and_set (mlk s))) s))
| step_record :
    mpcs s i = Acquired →
    cpu_step i s (set_pc i Held
      (set_lk (Spinlock (locked (mlk s)) (lname (mlk s)) (Some i)) s))
| step_release :
    mpcs s i = Held →
    cpu_step i s (if holding i (mlk s)
                  then set_pc i Clearing (set_lk (Spinlock (locked (mlk s)) (lname (mlk s)) None) s)
                  else set_pc i Broken s)
| step_unlock c :
    mpcs s i = Clearing → pop_off (mcpus s i) = Ok tt c →
    cpu_step i s (set_pc i Idle
      (set_lk (Spinlock 0 (lname (mlk s)) (lcpu (mlk s))) (set_cpu i c s)))
| step_unlock_panic msg :
    mpcs s i = Clearing → pop_off (mcpus s i) = Panic msg →
    cpu_step i s (set_pc i Broken s).

Inductive reachable (s0 : machine) : machine → Prop :=
| reach_init : reachable s0 s0
| reach_step s s' i : reachable s0 s → cpu_step i s s' → reachable s0 s'.

(** All CPUs idle, the lock as [initlock] leaves it. *)
Definition boot (s : machine) : Prop :=
  locked (mlk s) = 0 ∧ lcpu (mlk s) = None ∧
  ∀ i, mpcs s i = Idle ∧ 0 ≤ noff (mcpus s i) ∧ (0 < noff (mcpus s i) → sie (mcpus s i) = false).

Definition in_critical (p : pc) : bool :=
  match p with Acquired | Held | Clearing => true | _ => false end.

(** ** The lock discipline of the other components *)

(** [acquire(&x->lock)] and [release(&x->lock)] of code that runs with the
    critical sections of the other CPUs as atomic steps: the lock can only be
    held by this CPU, so acquiring a held lock is the self-deadlock that
    acquire() panics on. *)
Definition acquire {S} (l : lens S bool) : M S unit := λ s,
  if lget l s then Panic "acquire" else Ok tt (lset l true s).

Definition release {S} (l : lens S bool) : M S unit := λ s,
  if lget l s then Ok tt (lset l false s) else Panic "release".

(** ** Lemmas *)

Lemma push_off_ok c :
  push_off c = Ok tt (Cpu (noff c + 1) (if noff c =? 0 then intr_get c else intena c) false).
Proof. unfold push_off. munfold. simpl. destruct c as [n i b]; simpl. by destruct (n =? 0). Qed.

Lemma pop_off_ok c :
  sie c = false → 1 ≤ noff c →
  pop_off c = Ok tt (Cpu (noff c - 1) (intena c) ((noff c =? 1) && ctrue (intena c))).
Proof.
  destruct c as [n i b]; simpl; intros -> Hn. unfold pop_off. munfold. simpl.
  replace (n <? 1) with false by lia. simpl.
  replace (n - 1 =? 0) with (n =? 1) by lia.
  destruct (n =? 1), (ctrue i); done.
Qed.

(** The invariant of the contention machine.  [c] is the CPU inside, if any. *)
Record lock_inv (s : machine) : Prop := {
  inv_free : locked (mlk s) = 0 → lcpu (mlk s) = None ∧ ∀ i, in_critical (mpcs s i) = false;
  inv_held : locked (mlk s) ≠ 0 → ∃ c, in_critical (mpcs s c) = true ∧
      (∀ j, in_critical (mpcs s j) = true → j = c) ∧
      (mpcs s c = Held → lcpu (mlk s) = Some c) ∧
      (mpcs s c ≠ Held → lcpu (mlk s) = None);
  inv_sane : ∀ i, mpcs s i ≠ Broken ∧ 0 ≤ noff (mcpus s i) ∧
      (0 < noff (mcpus s i) → sie (mcpus s i) = false) ∧
      (mpcs s i ≠ Idle → 0 < noff (mcpus s i));
}.

Lemma holding_inv s i : lock_inv s → holding i (mlk s) = true ↔ mpcs s i = Held.
Proof.
  intros [Hf Hh _]. unfold holding, ctrue. rewrite andb_true_iff, bool_decide_eq_true.
  destruct (decide (locked (mlk s) = 0)) as [E|E].
  - destruct (Hf E) as [Hn Hc]. rewrite E, Hn. split; [intros [_ ?]; discriminate|].
    intros Hp. specialize (Hc i). by rewrite Hp in Hc.
  - destruct (Hh E) as (c & Hc & Hu & H1 & H2). split.
    + intros [_ Hi]. destruct (decide (mpcs s c = Held)) as [Ec|Ec].
      * rewrite H1 in Hi by done. congruence.
      * rewrite H2 in Hi by done. done.
    + intros Hp. assert (i = c) as -> by (apply Hu; by rewrite Hp).
      split; [lia|]. by apply H1.
Qed.

(** A step of CPU [i] that leaves the lock alone and keeps [i] on the same
    side of the critical section preserves the lock part of the invariant. *)
Lemma lock_inv_local s i p c :
  lock_inv s → in_critical (mpcs s i) = false → in_critical p = false → p ≠ Broken →
  0 ≤ noff c → (0 < noff c → sie c = false) → (p ≠ Idle → 0 < noff c) →
  lock_inv (set_pc i p (set_cpu i c s)).
Proof.
  intros [Hf Hh Hs] Hi Hp Hb Hn1 Hn2 Hn3. constructor; simpl.
  - intros E. destruct (Hf E) as [? Hc]. split; [done|]. intros j.
    destruct (decide (j = i)) as [->|]; [by rewrite fn_lookup_insert|by rewrite fn_lookup_insert_ne].
  - intros E. destruct (Hh E) as (k & Hk & Hu & H1 & H2).
    assert (k ≠ i) by congruence. exists k.
    rewrite fn_lookup_insert_ne by done. split_and!; [done| |done|done].
    intros j. destruct (decide (j = i)) as [->|]; [by rewrite fn_lookup_insert, Hp|].
    rewrite fn_lookup_insert_ne by done. apply Hu.
  - intros j. destruct (decide (j = i)) as [->|].
    + by rewrite !fn_lookup_insert.
    + rewrite !fn_lookup_insert_ne by done. apply Hs.
Qed.

(** A step of CPU [i], alone in the critical section before and after it. *)
Lemma lock_inv_owner s i p lk :
  lock_inv s → mpcs s i ≠ Idle → in_critical p = true → locked lk ≠ 0 →
  (∀ j, j ≠ i → in_critical (mpcs s j) = false) →
  (p = Held → lcpu lk = Some i) → (p ≠ Held → lcpu lk = None) →
  lock_inv (set_pc i p (set_lk lk s)).
Proof.
  intros [Hf Hh Hs] Hi Hp Hl Ho H1 H2. constructor; simpl.
  - done.
  - intros _. exists i. rewrite fn_lookup_insert. split_and!; [done| |done|done].
    intros j. destruct (decide (j = i)) as [->|]; [done|].
    rewrite fn_lookup_insert_ne by done. rewrite Ho by done. done.
  - intros j. destruct (decide (j = i)) as [->|].
    + rewrite fn_lookup_insert. destruct (Hs i) as (? & ? & ? & ?).
      split_and!; try done; [by intros ->|auto].
    + rewrite fn_lookup_insert_ne by done. apply Hs.
Qed.

Lemma critical_alone s i :
  lock_inv s → in_critical (mpcs s i) = true →
  locked (mlk s) ≠ 0 ∧ ∀ j, j ≠ i → in_critical (mpcs s j) = false.
Proof.
  intros [Hf Hh _] Hi. destruct (decide (locked (mlk s) = 0)) as [E|E].
  { destruct (Hf E) as [_ Hc]. by rewrite Hc in Hi. }
  split; [done|]. destruct (Hh E) as (c & _ & Hu & _).
  intros j Hj. destruct (in_critical (mpcs s j)) eqn:Ej; [|done].
  exfalso. apply Hj. rewrite (Hu _ Hi). by apply Hu.
Qed.

Lemma lock_inv_step s i s' : lock_inv s → cpu_step i s s' → lock_inv s'.
Proof.
  intros Hinv Hst. pose proof Hinv as [Hf Hh Hs]. destruct (Hs i) as (Hb & Hn & Hsie & Hpos).
  inversion Hst as [c Hpc Hpush|Hpc|Hpc|Hpc|c Hpc Hpop|msg Hpc Hpop]; subst s'; clear Hst.
  - rewrite push_off_ok in Hpush. injection Hpush as <-.
    destruct (holding i (mlk s)) eqn:Eh.
    { apply holding_inv in Eh; [|done]. congruence. }
    apply lock_inv_local; simpl; try done; try lia. by rewrite Hpc.
  - simpl. unfold ctrue. destruct (locked (mlk s) =? 0) eqn:E; simpl.
    + destruct (Hf ltac:(lia)) as [Hn0 Hc].
      apply lock_inv_owner; simpl; try done; try lia; try congruence.
    + destruct (Hh ltac:(lia)) as (k & Hk & Hu & H1 & H2).
      assert (k ≠ i) by (intros ->; by rewrite Hpc in Hk).
      constructor; simpl; [done| |].
      * intros _. exists k. rewrite fn_lookup_insert_ne by done. split_and!; try done.
        intros j. destruct (decide (j = i)) as [->|]; [by rewrite fn_lookup_insert|].
        rewrite fn_lookup_insert_ne by done. apply Hu.
      * intros j. destruct (decide (j = i)) as [->|].
        -- rewrite fn_lookup_insert. split_and!; try done. intros _. apply Hpos. by rewrite Hpc.
        -- rewrite fn_lookup_insert_ne by done. apply Hs.
  - destruct (critical_alone s i Hinv) as [Hl Ho]; [by rewrite Hpc|].
    apply lock_inv_owner; simpl; try done. congruence.
  - destruct (critical_alone s i Hinv) as [Hl Ho]; [by rewrite Hpc|].
    assert (holding i (mlk s) = true) as -> by (by apply holding_inv).
    apply lock_inv_owner; simpl; try done. congruence.
  - destruct (critical_alone s i Hinv) as [Hl Ho]; [by rewrite Hpc|].
    assert (0 < noff (mcpus s i)) as Hp1 by (apply Hpos; by rewrite Hpc).
    rewrite pop_off_ok in Hpop by (auto || lia). injection Hpop as <-.
    destruct (Hh Hl) as (k & Hk & Hu & H1 & H2).
    assert (i = k) as <- by (apply Hu; by rewrite Hpc).
    constructor; simpl; [|done|].
    + intros _. split; [apply H2; by rewrite Hpc|]. intros j.
      destruct (decide (j = i)) as [->|]; [by rewrite fn_lookup_insert|].
      rewrite fn_lookup_insert_ne by done. by apply Ho.
    + intros j. destruct (decide (j = i)) as [->|].
      * rewrite !fn_lookup_insert. simpl. split_and!; try done; [lia|].
        intros ?. by replace (noff (mcpus s i) =? 1) with false by lia.
      * rewrite !fn_lookup_insert_ne by done. apply Hs.
  - assert (0 < noff (mcpus s i)) as Hp1 by (apply Hpos; by rewrite Hpc).
    rewrite pop_off_ok in Hpop by (auto || lia). discriminate.
Qed.

Lemma lock_inv_reachable s0 s : boot s0 → reachable s0 s → lock_inv s.
Proof.
  intros Hb Hr. induction Hr as [|s s' i _ IH Hst]; [|by eapply lock_inv_step].
  destruct Hb as (Hl & Hc & Hi). constructor.
  - intros _. split; [done|]. intros i. by rewrite (proj1 (Hi i)).
  - done.
  - intros i. destruct (Hi i) as (Hp & ? & ?). rewrite Hp. done.
Qed.

(** ** Properties *)

(** C23: mutual exclusion.  However the atomic steps of any number of CPUs
    interleave, at most one CPU is between the successful swap of acquire and
    the clearing store of release; it runs with interrupts off, and no CPU
    ever reaches one of the panics of spinlock.c. *)
Theorem mutual_exclusion (s0 s : machine) :
  boot s0 → reachable s0 s →
  (∀ i j, in_critical (mpcs s i) = true → in_critical (mpcs s j) = true → i = j) ∧
  (∀ i, in_critical (mpcs s i) = true → sie (mcpus s i) = false) ∧
  (∀ i, mpcs s i ≠ Broken).
Proof.
  intros Hb Hr. pose proof (lock_inv_reachable _ _ Hb Hr) as Hinv. split_and!.
  - intros i j Hi Hj. destruct (critical_alone s i Hinv Hi) as [_ Ho].
    destruct (decide (j = i)); [done|]. rewrite Ho in Hj by done. discriminate.
  - intros i Hi. destruct (inv_sane s Hinv i) as (_ & _ & Hs & Hp).
    apply Hs, Hp. intros E. by rewrite E in Hi.
  - intros i. apply (inv_sane s Hinv i).
Qed.

(** Two CPUs with interrupts on and a fresh lock. *)
Definition boot0 : machine :=
  Machine (initlock "kmem" (Spinlock 7 "" None)) (λ _, Cpu 0 0 true) (λ _, Idle).

(** CPU 0 has won the swap, CPU 1 spins. *)
Definition contended : machine :=
  set_pc 0 Acquired (set_lk (Spinlock 1 "kmem" None)
    (set_pc 1 Spin (set_cpu 1 (Cpu 1 1 false)
      (set_pc 0 Spin (set_cpu 0 (Cpu 1 1 false) boot0))))).

Lemma mutual_exclusion_witness :
  ∃ s, reachable boot0 s ∧ mpcs s 0%nat = Acquired ∧ mpcs s 1%nat = Spin ∧
    sie (mcpus s 0%nat) = false ∧ in_critical (mpcs s 1%nat) = false.
Proof.
  assert (boot boot0) as Hb by (split_and!; try done; intros i; simpl; repeat split; lia).
  exists contended. assert (reachable boot0 contended) as Hr.
  { eapply reach_step; [eapply reach_step; [eapply reach_step; [apply reach_init|]|]|].
    - exact (step_enter 0 boot0 _ eq_refl (push_off_ok _)).
    - apply (step_enter 1); [reflexivity|apply push_off_ok].
    - apply (step_swap 0). reflexivity. }
  split; [exact Hr|]. destruct (mutual_exclusion boot0 _ Hb Hr) as (_ & H2 & _).
  split_and!; [reflexivity|reflexivity|apply (H2 0%nat); reflexivity|reflexivity].
Defined.

(** Acquire followed by release, on a lock nobody holds, succeeds, gives
    the lock back unheld under its name, and restores the CPU's nesting depth
    and interrupt state; while the lock is held, interrupts are off and a
    second acquire by the same CPU panics. *)
Theorem acquire_release_restores (me fuel : nat) (c : cpu) (lk : spinlock) :
  locked lk = 0 → 0 ≤ noff c → (0 < noff c → sie c = false) →
  ∃ c1 lk1 c2,
    acquire_cpu me (S fuel) (c, lk) = Ok tt (c1, lk1) ∧
    holding me lk1 = true ∧ sie c1 = false ∧
    acquire_cpu me (S fuel) (c1, lk1) = Panic "acquire" ∧
    release_cpu me (c1, lk1) = Ok tt (c2, Spinlock 0 (lname lk) None) ∧
    noff c2 = noff c ∧ sie c2 = sie c.
Proof.
  intros Hl Hn Hs. destruct c as [n i b], lk as [v nm h]; simpl in *; subst v.
  eexists _, _, _. split_and!.
  - unfold acquire_cpu. erewrite bind_ok by (apply lift_ok, push_off_ok). reflexivity.
  - unfold holding. simpl. by rewrite bool_decide_eq_true.
  - reflexivity.
  - unfold acquire_cpu. erewrite bind_ok by (apply lift_ok, push_off_ok).
    munfold. simpl. unfold holding. simpl. by rewrite bool_decide_eq_true_2.
  - unfold release_cpu. munfold. simpl. unfold holding. simpl.
    rewrite bool_decide_eq_true_2 by done. simpl. unfold lift. simpl.
    rewrite pop_off_ok; simpl; [reflexivity|done|lia].
  - simpl. lia.
  - simpl. unfold ctrue, intr_get. simpl. destruct (n =? 0) eqn:E.
    + replace (n + 1 =? 1) with true by lia. by destruct b.
    + replace (n + 1 =? 1) with false by lia. by rewrite Hs by lia.
Qed.

Lemma acquire_release_restores_witness :
  ∃ c1 lk1 c2, acquire_cpu 2 1 (Cpu 0 0 true, Spinlock 0 "pipe" None) = Ok tt (c1, lk1) ∧
    release_cpu 2 (c1, lk1) = Ok tt (c2, Spinlock 0 "pipe" None) ∧ sie c2 = true.
Proof.
  destruct (acquire_release_restores 2 0 (Cpu 0 0 true) (Spinlock 0 "pipe" None))
    as (c1 & lk1 & c2 & H1 & _ & _ & _ & H2 & _ & H3); [done|simpl; lia|simpl; lia|].
  exists c1, lk1, c2. split_and!; [exact H1|exact H2|exact H3].
Defined.
