(* ===== verification/Riscv.v ===== *)
(** * The constants and macros of kernel/riscv.h and kernel/memlayout.h

    Page geometry, page-table entries of the Sv39 scheme, and the memory
    layout, with the arithmetic facts about them that the other files use. *)
From S2P Require Import Prelude.
Open Scope Z_scope.

Definition PGSIZE : Z := 4096.
Definition PGSHIFT : Z := 12.

(** [(((sz)+PGSIZE-1) & ~(PGSIZE-1))] on uint64. *)
Definition PGROUNDUP (sz : Z) : Z := Z.land (u64 (sz + PGSIZE - 1)) (Z.lnot (PGSIZE - 1)).
Definition PGROUNDDOWN (a : Z) : Z := Z.land a (Z.lnot (PGSIZE - 1)).

Definition PTE_V : Z := Z.shiftl 1 0.
Definition PTE_R : Z := Z.shiftl 1 1.
Definition PTE_W : Z := Z.shiftl 1 2.
Definition PTE_X : Z := Z.shiftl 1 3.
Definition PTE_U : Z := Z.shiftl 1 4.

Definition PA2PTE (pa : Z) : Z := u64 (Z.shiftl (Z.shiftr pa 12) 10).
Definition PTE2PA (pte : Z) : Z := u64 (Z.shiftl (Z.shiftr pte 10) 12).
Definition PTE_FLAGS (pte : Z) : Z := Z.land pte 0x3FF.

Definition PXMASK : Z := 0x1FF.
Definition PXSHIFT (level : Z) : Z := PGSHIFT + 9 * level.
Definition PX (level va : Z) : Z := Z.land (Z.shiftr va (PXSHIFT level)) PXMASK.

Definition MAXVA : Z := Z.shiftl 1 (9 + 9 + 9 + 12 - 1).

(** memlayout.h *)
Definition UART0 : Z := 0x10000000.
Definition VIRTIO0 : Z := 0x10001000.
Definition PLIC : Z := 0x0c000000.
Definition KERNBASE : Z := 0x80000000.
Definition PHYSTOP : Z := KERNBASE + 128 * 1024 * 1024.
Definition TRAMPOLINE : Z := MAXVA - PGSIZE.
Definition TRAPFRAME : Z := TRAMPOLINE - PGSIZE.
Definition KSTACK (p : Z) : Z := TRAMPOLINE - (p + 1) * 2 * PGSIZE.

(** param.h *)
Definition NPROC : Z := 64.
Definition NCPU : Z := 8.
Definition NOFILE : Z := 16.
Definition NFILE : Z := 100.
Definition NINODE : Z := 50.
Definition NDEV : Z := 10.
Definition ROOTDEV : Z := 1.
Definition MAXARG : Z := 32.
Definition MAXOPBLOCKS : Z := 10.
Definition LOGSIZE : Z := MAXOPBLOCKS * 3.
Definition NBUF : Z := MAXOPBLOCKS * 3.
Definition FSSIZE : Z := 2000.
Definition MAXPATH : Z := 128.
Definition USERSTACK : Z := 1.

(** Linear arithmetic that knows the layout constants. *)
Ltac plia := unfold PHYSTOP, KERNBASE, PGSIZE in *; lia.

(** ** Lemmas *)

Lemma land_lnot_page x : Z.land x (Z.lnot (PGSIZE - 1)) = x / PGSIZE * PGSIZE.
Proof.
  rewrite <- Z.ldiff_land. change (PGSIZE - 1) with (Z.ones 12).
  rewrite Z.ldiff_ones_r, Z.shiftl_mul_pow2, Z.shiftr_div_pow2 by lia. done.
Qed.

Lemma PGROUNDDOWN_spec a : PGROUNDDOWN a = a / PGSIZE * PGSIZE.
Proof. apply land_lnot_page. Qed.

Lemma PGROUNDUP_spec sz :
  0 ≤ sz ≤ 2 ^ 64 - PGSIZE → PGROUNDUP sz = (sz + PGSIZE - 1) / PGSIZE * PGSIZE.
Proof.
  intros H. unfold PGROUNDUP. unfold PGSIZE in *. rewrite u64_small by lia. apply land_lnot_page.
Qed.

Lemma PGROUNDDOWN_bounds a : PGROUNDDOWN a ≤ a < PGROUNDDOWN a + PGSIZE.
Proof.
  rewrite PGROUNDDOWN_spec. unfold PGSIZE.
  pose proof (Z.mod_pos_bound a 4096). pose proof (Z.div_mod a 4096). lia.
Qed.

Lemma PGROUNDDOWN_aligned a : PGROUNDDOWN a mod PGSIZE = 0.
Proof. rewrite PGROUNDDOWN_spec. apply Z.mod_mul. done. Qed.

Lemma PGROUNDUP_bounds sz :
  0 ≤ sz ≤ 2 ^ 64 - PGSIZE → sz ≤ PGROUNDUP sz < sz + PGSIZE.
Proof.
  intros H. rewrite PGROUNDUP_spec by done. unfold PGSIZE in *.
  pose proof (Z.mod_pos_bound (sz + 4096 - 1) 4096).
  pose proof (Z.div_mod (sz + 4096 - 1) 4096). lia.
Qed.

Lemma PGROUNDUP_aligned sz :
  0 ≤ sz ≤ 2 ^ 64 - PGSIZE → PGROUNDUP sz mod PGSIZE = 0.
Proof. intros H. rewrite PGROUNDUP_spec by done. apply Z.mod_mul. done. Qed.

Lemma PGROUNDUP_id sz :
  0 ≤ sz ≤ 2 ^ 64 - PGSIZE → sz mod PGSIZE = 0 → PGROUNDUP sz = sz.
Proof.
  intros H Ha. rewrite PGROUNDUP_spec by done. unfold PGSIZE in *.
  apply Z.div_exact in Ha; [|done].
  replace (sz + 4096 - 1) with (4095 + sz / 4096 * 4096) by lia.
  rewrite Z.div_add by done. change (4095 / 4096) with 0. lia.
Qed.

Lemma PX_spec level va : 0 ≤ level → PX level va = (va / 2 ^ (12 + 9 * level)) mod 512.
Proof.
  intros H. unfold PX, PXSHIFT, PXMASK, PGSHIFT. change 0x1FF with (Z.ones 9).
  rewrite Z.land_ones, Z.shiftr_div_pow2 by lia. done.
Qed.

Lemma PX_range level va : 0 ≤ level → 0 ≤ PX level va < 512.
Proof. intros H. rewrite PX_spec by done. apply Z.mod_pos_bound. done. Qed.

(** The three indices determine the page of an address below MAXVA. *)
Lemma PX_inj va va' :
  0 ≤ va < MAXVA → 0 ≤ va' < MAXVA →
  PX 2 va = PX 2 va' → PX 1 va = PX 1 va' → PX 0 va = PX 0 va' →
  va / PGSIZE = va' / PGSIZE.
Proof.
  assert (∀ v, 0 ≤ v < MAXVA → v / PGSIZE = PX 0 v + 512 * (PX 1 v + 512 * PX 2 v)) as H.
  { intros v Hv. change MAXVA with (2 ^ 38) in Hv. unfold PGSIZE. rewrite !PX_spec by done.
    change (2 ^ (12 + 9 * 0)) with 4096. change (2 ^ (12 + 9 * 1)) with (4096 * 512).
    change (2 ^ (12 + 9 * 2)) with (4096 * 512 * 512).
    rewrite <- !Z.div_div by done.
    set (q := v / 4096). assert (0 ≤ q < 512 * 512 * 512).
    { unfold q. split; [apply Z.div_pos; lia|apply Z.div_lt_upper_bound; lia]. }
    rewrite (Z.mod_small (q / 512 / 512)).
    2:{ split; [repeat apply Z.div_pos; lia|].
        apply Z.div_lt_upper_bound; [done|]. apply Z.div_lt_upper_bound; lia. }
    rewrite (Z.div_mod q 512) at 1 by done.
    rewrite (Z.div_mod (q / 512) 512) at 1 by done. ring. }
  intros Hv Hv' H2 H1 H0. rewrite !H by done. congruence.
Qed.

Lemma page_aligned_eq a b :
  a mod PGSIZE = 0 → b mod PGSIZE = 0 → a / PGSIZE = b / PGSIZE → a = b.
Proof. unfold PGSIZE. intros. pose proof (Z.div_mod a 4096). pose proof (Z.div_mod b 4096). lia. Qed.

(** Distinct page-aligned addresses are at least a page apart. *)
Lemma page_apart a b :
  a mod PGSIZE = 0 → b mod PGSIZE = 0 → a ≠ b → a + PGSIZE ≤ b ∨ b + PGSIZE ≤ a.
Proof.
  unfold PGSIZE. intros. pose proof (Z.div_mod a 4096). pose proof (Z.div_mod b 4096). lia.
Qed.

(** An address of an aligned page keeps that page. *)
Lemma page_of_offset a o : a mod PGSIZE = 0 → 0 ≤ o < PGSIZE → PGROUNDDOWN (a + o) = a.
Proof.
  rewrite PGROUNDDOWN_spec. unfold PGSIZE. intros Ha Ho.
  apply Z.div_exact in Ha; [|done].
  replace (a + o) with (o + a / 4096 * 4096) by lia.
  rewrite Z.div_add, Z.div_small by lia. lia.
Qed.

(** ** Page-table entries as numbers *)

Lemma lor_shift_add q r k : 0 ≤ k → 0 ≤ r < 2 ^ k → Z.lor (q * 2 ^ k) r = q * 2 ^ k + r.
Proof.
  intros Hk Hr. assert (Z.land (q * 2 ^ k) r = 0) as H.
  { apply Z.bits_inj_iff'. intros n Hn. rewrite Z.land_spec, Z.bits_0.
    destruct (decide (n < k)).
    - rewrite Z.mul_pow2_bits_low by done. done.
    - replace (Z.testbit r n) with false; [by rewrite andb_false_r|].
      symmetry. rewrite <- (Z.mod_small r (2 ^ k)) by done. apply Z.mod_pow2_bits_high. lia. }
  rewrite <- Z.lxor_lor by done. by rewrite Z.add_nocarry_lxor.
Qed.

Lemma land_bit_zero v k : 0 ≤ k → (Z.land v (2 ^ k) =? 0) = negb (Z.testbit v k).
Proof.
  intros Hk. destruct (Z.testbit v k) eqn:E; simpl.
  - apply Z.eqb_neq. intros H. apply (f_equal (λ x, Z.testbit x k)) in H.
    rewrite Z.land_spec, Z.pow2_bits_true, E, Z.bits_0 in H by done. done.
  - apply Z.eqb_eq. apply Z.bits_inj_iff'. intros n Hn. rewrite Z.land_spec, Z.bits_0.
    destruct (decide (n = k)) as [->|]; [by rewrite E|].
    rewrite Z.pow2_bits_false by done. by rewrite andb_false_r.
Qed.

Lemma land_V v : (Z.land v PTE_V =? 0) = negb (Z.testbit v 0).
Proof. apply (land_bit_zero v 0). done. Qed.

Lemma land_W v : (Z.land v PTE_W =? 0) = negb (Z.testbit v 2).
Proof. apply (land_bit_zero v 2). done. Qed.

Lemma land_U v : (Z.land v PTE_U =? 0) = negb (Z.testbit v 4).
Proof. apply (land_bit_zero v 4). done. Qed.

Lemma ctrue_land_V v : ctrue (Z.land v PTE_V) = Z.testbit v 0.
Proof. unfold ctrue. rewrite land_V. apply negb_involutive. Qed.

(** The entry mappages writes. *)
Definition mkpte (pa perm : Z) : Z := Z.lor (Z.lor (PA2PTE pa) perm) PTE_V.

Lemma PA2PTE_spec pa : 0 ≤ pa < 2 ^ 56 → PA2PTE pa = pa / 4096 * 2 ^ 10.
Proof.
  intros H. unfold PA2PTE. rewrite Z.shiftl_mul_pow2, Z.shiftr_div_pow2 by lia.
  change (2 ^ 12) with 4096. apply u64_small.
  assert (0 ≤ pa / 4096) by (apply Z.div_pos; lia).
  assert (pa / 4096 < 2 ^ 44) by (apply Z.div_lt_upper_bound; lia). lia.
Qed.

Lemma lor_small a r : 0 ≤ a < 1024 → 0 ≤ r < 1024 → 0 ≤ Z.lor a r < 1024.
Proof.
  intros Ha Hr. assert (0 ≤ Z.lor a r) as H0 by (apply Z.lor_nonneg; lia). split; [done|].
  destruct (decide (Z.lor a r = 0)) as [->|]; [lia|].
  change 1024 with (2 ^ 10). apply Z.log2_lt_pow2; [lia|]. rewrite Z.log2_lor by lia.
  assert (∀ b, 0 ≤ b < 1024 → Z.log2 b < 10) as Hl.
  { intros b Hb. destruct (decide (b = 0)) as [->|]; [done|]. apply Z.log2_lt_pow2; lia. }
  apply Z.max_lub_lt; by apply Hl.
Qed.

Lemma lor_one_small r : 0 ≤ r < 1024 → 0 ≤ Z.lor r 1 < 1024.
Proof. intros H. by apply lor_small. Qed.

Lemma mkpte_spec pa perm :
  0 ≤ pa < 2 ^ 56 → 0 ≤ perm < 1024 → mkpte pa perm = pa / 4096 * 2 ^ 10 + Z.lor perm 1.
Proof.
  intros Hp Hr. unfold mkpte. rewrite PA2PTE_spec by done.
  change PTE_V with 1. rewrite <- Z.lor_assoc. apply lor_shift_add; [done|].
  by apply lor_one_small.
Qed.

Lemma mkpte_range pa perm :
  0 ≤ pa < 2 ^ 56 → 0 ≤ perm < 1024 → 0 ≤ mkpte pa perm < 2 ^ 64.
Proof.
  intros Hp Hr. rewrite mkpte_spec by done. pose proof (lor_one_small perm Hr).
  assert (0 ≤ pa / 4096) by (apply Z.div_pos; lia).
  assert (pa / 4096 < 2 ^ 44) by (apply Z.div_lt_upper_bound; lia). lia.
Qed.

(** Encoding a page address into an entry and back. *)
Lemma PTE2PA_mkpte pa perm :
  0 ≤ pa < 2 ^ 56 → pa mod PGSIZE = 0 → 0 ≤ perm < 1024 → PTE2PA (mkpte pa perm) = pa.
Proof.
  intros Hp Ha Hr. rewrite mkpte_spec by done. pose proof (lor_one_small perm Hr).
  unfold PTE2PA. rewrite Z.shiftl_mul_pow2, Z.shiftr_div_pow2 by lia.
  rewrite Z.div_add_l by done. change (2 ^ 10) with 1024. rewrite (Z.div_small (Z.lor perm 1)) by done.
  unfold PGSIZE in Ha. change (2 ^ 12) with 4096.
  pose proof (Z.div_mod pa 4096 ltac:(done)). apply u64_small_eq; lia.
Qed.

Lemma mkpte_flags pa perm :
  0 ≤ pa < 2 ^ 56 → 0 ≤ perm < 1024 → PTE_FLAGS (mkpte pa perm) = Z.lor perm 1.
Proof.
  intros Hp Hr. rewrite mkpte_spec by done. pose proof (lor_one_small perm Hr).
  unfold PTE_FLAGS. change 0x3FF with (Z.ones 10). rewrite Z.land_ones by done.
  rewrite Z.add_comm, Z.mod_add by done. by apply Z.mod_small.
Qed.

(** The low bits of an entry are its permission bits. *)
Lemma mkpte_testbit pa perm k :
  0 ≤ pa < 2 ^ 56 → 0 ≤ perm < 1024 → 0 ≤ k < 10 →
  Z.testbit (mkpte pa perm) k = Z.testbit perm k || (k =? 0).
Proof.
  intros Hp Hr Hk. transitivity (Z.testbit (PTE_FLAGS (mkpte pa perm)) k).
  - unfold PTE_FLAGS. change 0x3FF with (Z.ones 10).
    rewrite Z.land_spec, (Z.ones_spec_low 10 k) by lia. by rewrite andb_true_r.
  - rewrite mkpte_flags, Z.lor_spec by done. f_equal.
Qed.

Lemma PA2PTE_mkpte pa : Z.lor (PA2PTE pa) PTE_V = mkpte pa 0.
Proof. unfold mkpte. by rewrite Z.lor_0_r. Qed.
