(* ===== verification/Kalloc.v ===== *)
(** * The physical page allocator: kernel/kalloc.c

    The state is the kmem structure (its lock and the head of the free list)
    and the physical memory itself: the list is threaded through the free
    pages, each page's first word pointing at the next. *)
From S2P Require Import Prelude Mem Spinlock Riscv.
Open Scope Z_scope.

(** What the linker script fixes for one build: the first address after the
    kernel image ([end]), inside RAM. *)
Class KernelImage := {
  kend : Z;
  kend_range : KERNBASE < kend ≤ PHYSTOP;
}.

Record kmem := Kmem {
  klock : bool;
  freelist : Z;
  kram : mem;
}.

Definition klock_l : lens kmem bool :=
  Lens klock (λ b s, Kmem b (freelist s) (kram s)).
Definition set_freelist (p : Z) (s : kmem) : kmem := Kmem (klock s) p (kram s).
Definition set_ram (f : mem → mem) (s : kmem) : kmem := Kmem (klock s) (freelist s) (f (kram s)).

Section kalloc.
Context `{KernelImage}.

Definition kfree (pa : Z) : M kmem unit :=
  if negb (pa mod PGSIZE =? 0) || (pa <? kend) || (pa >=? PHYSTOP)
  then panic "kfree" else
  (* Fill with junk to catch dangling refs. *)
  modify (set_ram (λ m, memset m pa 1 PGSIZE));;
  let r := pa in
  acquire klock_l;;
  next ← gets freelist;
  modify (set_ram (λ m, store64 m r next));;
  modify (set_freelist r);;
  release klock_l.

Definition kalloc : M kmem Z :=
  acquire klock_l;;
  r ← gets freelist;
  (if ctrue r then m ← gets kram; modify (set_freelist (load64 m r)) else mret tt);;
  release klock_l;;
  (if ctrue r then modify (set_ram (λ m, memset m r 5 PGSIZE)) else mret tt);;
  mret r.

(** [for(; p + PGSIZE <= pa_end; p += PGSIZE) kfree(p);]: at most one turn per
    page of the range. *)
Definition freerange (pa_start pa_end : Z) : M kmem unit :=
  loop (Z.to_nat ((pa_end - pa_start) / PGSIZE + 2)) (λ p,
    if p + PGSIZE <=? pa_end then kfree p;; mret (inl (p + PGSIZE)) else mret (inr tt))
    (PGROUNDUP pa_start).

Definition kinit : M kmem unit :=
  modify (lset klock_l false);;
  freerange kend PHYSTOP.

(** ** The abstract allocator: a stack of free pages *)

Definition page_ok (p : Z) : Prop := p mod PGSIZE = 0 ∧ kend ≤ p < PHYSTOP.

(** [l] is the chain of free pages that starts at [head]. *)
Fixpoint flist (m : mem) (head : Z) (l : list Z) : Prop :=
  match l with
  | [] => head = 0
  | p :: l' => head = p ∧ page_ok p ∧ flist m (load64 m p) l'
  end.

Record kmem_inv (s : kmem) (l : list Z) : Prop := {
  ki_unlocked : klock s = false;
  ki_bytes : byte_mem (kram s);
  ki_nodup : NoDup l;
  ki_list : flist (kram s) (freelist s) l;
}.

(** [x] is a byte of the page at [p]. *)
Definition in_page (p x : Z) : Prop := p ≤ x < p + PGSIZE.

(** The states after a successful kalloc and kfree of page [p]. *)
Definition kalloced (s : kmem) (p : Z) : kmem :=
  Kmem false (load64 (kram s) p) (memset (kram s) p 5 PGSIZE).
Definition kfreed (s : kmem) (p : Z) : kmem :=
  Kmem false p (store64 (memset (kram s) p 1 PGSIZE) p (freelist s)).

(** ** Lemmas *)

Lemma page_ok_nonzero p : page_ok p → p ≠ 0.
Proof. intros [_ ?]. pose proof kend_range. unfold KERNBASE in *. lia. Qed.

Lemma page_ok_pos p : page_ok p → 0 < p < 2 ^ 56.
Proof. intros [_ ?]. pose proof kend_range. unfold KERNBASE, PHYSTOP, KERNBASE in *. lia. Qed.

Lemma in_page_disjoint p q x :
  page_ok p → page_ok q → in_page p x → in_page q x → p = q.
Proof.
  intros [Hp _] [Hq _] H1 H2. unfold in_page in *.
  destruct (decide (p = q)); [done|].
  pose proof (page_apart p q Hp Hq ltac:(done)). lia.
Qed.

Lemma flist_page_ok m h l p : flist m h l → p ∈ l → page_ok p.
Proof.
  revert h. induction l as [|q l IH]; intros h; simpl; [by intros _ ?%elem_of_nil|].
  intros (_ & Hq & Hl) [->|Hp]%elem_of_cons; [done|]. by eapply IH.
Qed.

Lemma flist_ext m m' h l :
  (∀ p x, p ∈ l → in_page p x → m' x = m x) → flist m h l → flist m' h l.
Proof.
  revert h. induction l as [|q l IH]; intros h Hx; simpl; [done|].
  intros (-> & Hq & Hl). split_and!; [done|done|].
  rewrite (load64_ext m' m).
  - apply IH; [|done]. intros p x Hp. apply Hx. by apply list_elem_of_further.
  - intros x Hxx. apply (Hx q); [by left|]. unfold in_page, PGSIZE. lia.
Qed.

(** The memory changes of an operation that leaves the free pages alone. *)
Lemma kmem_inv_frame s l m' :
  kmem_inv s l → byte_mem m' →
  (∀ p x, p ∈ l → in_page p x → m' x = kram s x) →
  kmem_inv (Kmem (klock s) (freelist s) m') l.
Proof. intros [? ? ? ?] Hb Hx. constructor; simpl; try done. by eapply flist_ext. Qed.

Lemma kalloc_empty s : kmem_inv s [] → kalloc s = Ok 0 s.
Proof.
  intros [Hk _ _ Hl]. destruct s as [k f m]; simpl in *. subst. done.
Qed.

(** A successful kalloc: the page at the head of the free list, filled with 5;
    the rest of the list stays free. *)
Lemma kalloc_cons s p l :
  kmem_inv s (p :: l) →
  kalloc s = Ok p (kalloced s p) ∧
  kmem_inv (kalloced s p) l ∧
  page_ok p ∧ p ∉ l.
Proof.
  intros [Hk Hb Hnd Hl]. destruct s as [k f m]; simpl in *.
  destruct Hl as (-> & Hp & Hl). subst k. apply NoDup_cons in Hnd as [Hni Hnd].
  split_and!; [| |done|done].
  - unfold kalloc, acquire, release. munfold. simpl. unfold ctrue.
    pose proof (page_ok_nonzero p Hp). by replace (p =? 0) with false by lia.
  - constructor; simpl; [done|by apply memset_byte|done|].
    apply (flist_ext m); [|done]. intros q x Hq Hx. apply memset_other.
    intros Hpx. apply Hni. rewrite (in_page_disjoint p q x); try done.
    by eapply flist_page_ok.
Qed.

Lemma kfree_ok s p l :
  kmem_inv s l → page_ok p → p ∉ l →
  kfree p s = Ok tt (kfreed s p) ∧
  kmem_inv (kfreed s p) (p :: l).
Proof.
  intros [Hk Hb Hnd Hl] Hp Hni. pose proof Hp as [Ha Hr].
  destruct s as [k f m]; cbn [klock kram freelist] in Hk, Hb, Hl. subst k. split.
  - unfold kfree, acquire, release. rewrite Ha.
    replace (p <? kend) with false by lia. replace (p >=? PHYSTOP) with false by lia.
    unfold kfreed. cbn [negb orb Z.eqb kram freelist]. reflexivity.
  - constructor; simpl; [done|by apply store64_byte, memset_byte|by apply NoDup_cons|].
    split_and!; [done|done|]. rewrite load64_store64_eq.
    rewrite u64_small.
    + apply (flist_ext m); [|done]. intros q x Hq Hx.
      assert (¬ in_page p x) as Hnx.
      { intros Hpx. apply Hni. rewrite (in_page_disjoint p q x); try done.
        by eapply flist_page_ok. }
      unfold in_page, PGSIZE in Hnx. rewrite store64_other by lia. apply memset_other. done.
    + destruct l as [|q l']; simpl in Hl; [lia|]. destruct Hl as (-> & Hq & _).
      apply page_ok_pos in Hq. lia.
Qed.

(** Bytes outside the freed page are untouched. *)
Lemma kfree_other s p x : ¬ in_page p x →
  kram (kfreed s p) x = kram s x.
Proof.
  intros Hx. simpl. unfold in_page, PGSIZE in *. rewrite store64_other by lia. apply memset_other. done.
Qed.

Lemma freerange_loop (n fuel : nat) p e s l :
  (n < fuel)%nat → p mod PGSIZE = 0 → kend ≤ p → e ≤ PHYSTOP →
  p + Z.of_nat n * PGSIZE ≤ e < p + (Z.of_nat n + 1) * PGSIZE →
  (∀ q, q ∈ l → q < p) → kmem_inv s l →
  ∃ s' l', loop fuel (λ p, if p + PGSIZE <=? e then kfree p;; mret (inl (p + PGSIZE))
                           else mret (inr tt)) p s = Ok tt s' ∧
    kmem_inv s' l' ∧
    ∀ q, q ∈ l' ↔ q ∈ l ∨ (q mod PGSIZE = 0 ∧ p ≤ q ∧ q + PGSIZE ≤ e).
Proof.
  revert fuel p s l. induction n as [|n IH]; intros [|fuel] p s l Hf Ha Hk He Hr Hl Hinv; try lia.
  - exists s, l. cbn [loop]. munfold. replace (p + PGSIZE <=? e) with false by lia.
    split_and!; [done|done|]. intros q. split; [by left|].
    intros [?|(Hq & ? & ?)]; [done|]. exfalso.
    destruct (decide (q = p)); [lia|]. pose proof (page_apart p q Ha Hq ltac:(done)). lia.
  - assert (page_ok p) as Hp by (unfold page_ok, PGSIZE in *; lia).
    destruct (kfree_ok s p l Hinv Hp) as [Hfr Hinv'].
    { intros Hin. apply Hl in Hin. lia. }
    assert ((p + PGSIZE) mod PGSIZE = 0) as Ha'.
    { rewrite <- (Z.mul_1_l PGSIZE) at 1. by rewrite Z.mod_add. }
    destruct (IH fuel (p + PGSIZE) (kfreed s p) (p :: l) ltac:(lia) Ha' ltac:(plia) He
                ltac:(lia)) as (s' & l' & Hrun & Hinv2 & Hl'); [|exact Hinv'|].
    { intros q [->|Hq]%elem_of_cons; [unfold PGSIZE; lia|]. apply Hl in Hq. unfold PGSIZE. lia. }
    exists s', l'. split_and!; [|done|].
    + cbn [loop]. replace (p + PGSIZE <=? e) with true by plia.
      erewrite bind_ok by (erewrite bind_ok by apply Hfr; reflexivity). exact Hrun.
    + intros q. rewrite Hl', elem_of_cons. split.
      * intros [[->|?]|(? & ? & ?)]; [right|by left|right]; unfold PGSIZE in *; split_and!; try done; lia.
      * intros [?|(Hq & ? & ?)]; [auto|]. destruct (decide (q = p)); [auto|]. right.
        pose proof (page_apart p q Ha Hq ltac:(done)). split_and!; [done|lia|lia].
Qed.

(** ** The sequence view: allocator calls against a stack of free pages *)

Inductive kop := OpAlloc | OpFree (p : Z).

Definition do_kop (o : kop) : M kmem Z :=
  match o with
  | OpAlloc => kalloc
  | OpFree p => kfree p;; mret 0
  end.

Fixpoint run_kops (os : list kop) : M kmem (list Z) :=
  match os with
  | [] => mret []
  | o :: os' => r ← do_kop o; rs ← run_kops os'; mret (r :: rs)
  end.

(** The abstract allocator: results and remaining free pages, or [None] when
    a call frees something that is not a page in use. *)
Fixpoint spec_kops (os : list kop) (free : list Z) : option (list Z * list Z) :=
  match os with
  | [] => Some ([], free)
  | OpAlloc :: os' =>
      match free with
      | [] => '(rs, f) ← spec_kops os' []; Some (0 :: rs, f)
      | p :: free' => '(rs, f) ← spec_kops os' free'; Some (p :: rs, f)
      end
  | OpFree p :: os' =>
      if bool_decide (p mod PGSIZE = 0 ∧ kend ≤ p < PHYSTOP ∧ p ∉ free)
      then '(rs, f) ← spec_kops os' (p :: free); Some (0 :: rs, f)
      else None
  end.

(** ** Properties *)

(** Kalloc, on a well-formed free list.  With a page free it returns the
    head page, which is page-aligned RAM, filled with 5, no longer on the
    list, and no other byte of memory changes; with none it returns 0 and
    changes nothing.  It never panics. *)
Theorem kalloc_correct (s : kmem) (l : list Z) :
  kmem_inv s l →
  match l with
  | [] => kalloc s = Ok 0 s
  | p :: l' => ∃ s', kalloc s = Ok p s' ∧ kmem_inv s' l' ∧ page_ok p ∧ (p ∉ l') ∧
      (∀ x, in_page p x → kram s' x = 5) ∧ (∀ x, ¬ in_page p x → kram s' x = kram s x)
  end.
Proof.
  intros Hinv. destruct l as [|p l]; [by apply kalloc_empty|].
  destruct (kalloc_cons s p l Hinv) as (Hr & Hi & Hp & Hn).
  eexists. split_and!; [exact Hr|done|done|done| |]; simpl; intros x Hx;
    [by apply memset_in|by apply memset_other].
Qed.

(** C24: kfree.  Called on anything but a page-aligned address between the end
    of the kernel image and PHYSTOP it panics; on a page in use it pushes the
    page on the free list and changes no byte outside that page. *)
Theorem kfree_correct (s : kmem) (l : list Z) (p : Z) :
  kmem_inv s l →
  (¬ page_ok p → kfree p s = Panic "kfree") ∧
  (page_ok p → p ∉ l → ∃ s', kfree p s = Ok tt s' ∧ kmem_inv s' (p :: l) ∧
     ∀ x, ¬ in_page p x → kram s' x = kram s x).
Proof.
  intros Hinv. split.
  - intros Hp. unfold kfree, page_ok in *.
    destruct (negb (p mod PGSIZE =? 0) || (p <? kend) || (p >=? PHYSTOP)) eqn:E; [done|].
    exfalso. apply Hp. lia.
  - intros Hp Hn. destruct (kfree_ok s p l Hinv Hp Hn) as [Hr Hi].
    eexists. split_and!; [exact Hr|done|]. intros x Hx. by apply kfree_other.
Qed.

(** C25: refinement.  Any sequence of kalloc and kfree calls whose frees are
    legal returns exactly what a stack of free pages returns, and ends in a
    well-formed state with exactly that stack free; so a page handed out is
    not handed out again before it is freed. *)
Theorem kalloc_refines_stack (os : list kop) (s : kmem) (l rs f : list Z) :
  kmem_inv s l → spec_kops os l = Some (rs, f) →
  ∃ s', run_kops os s = Ok rs s' ∧ kmem_inv s' f.
Proof.
  revert s l rs f. induction os as [|o os IH]; intros s l rs f Hinv Hs.
  { simpl in Hs. injection Hs as <- <-. by exists s. }
  destruct o as [|p]; cbn [spec_kops run_kops do_kop] in *.
  - destruct l as [|p l].
    + destruct (spec_kops os []) as [[rs' f']|] eqn:E; [|done]. injection Hs as <- <-.
      destruct (IH s [] rs' f' Hinv E) as (s' & Hr & Hi). exists s'. split; [|done].
      erewrite bind_ok by (by apply kalloc_empty). by erewrite bind_ok by exact Hr.
    + destruct (spec_kops os l) as [[rs' f']|] eqn:E; [|done]. injection Hs as <- <-.
      destruct (kalloc_cons s p l Hinv) as (Hk & Hi & _).
      destruct (IH _ l rs' f' Hi E) as (s' & Hr & Hi'). exists s'. split; [|done].
      erewrite bind_ok by exact Hk. by erewrite bind_ok by exact Hr.
  - case_bool_decide as Hp; [|done]. destruct Hp as (Ha & Hrg & Hn).
    destruct (spec_kops os (p :: l)) as [[rs' f']|] eqn:E; [|done]. injection Hs as <- <-.
    destruct (kfree_ok s p l Hinv (conj Ha Hrg) Hn) as [Hk Hi].
    destruct (IH _ (p :: l) rs' f' Hi E) as (s' & Hr & Hi'). exists s'. split; [|done].
    erewrite bind_ok by (by erewrite bind_ok by exact Hk). by erewrite bind_ok by exact Hr.
Qed.

(** Kinit builds, from any contents of memory, a well-formed free list of
    exactly the whole pages between the end of the kernel and PHYSTOP. *)
Theorem kinit_frees_all_pages (s : kmem) :
  byte_mem (kram s) → freelist s = 0 →
  ∃ s' l, kinit s = Ok tt s' ∧ kmem_inv s' l ∧ ∀ p, p ∈ l ↔ page_ok p.
Proof.
  intros Hb Hf. pose proof kend_range as Hk.
  assert (0 ≤ kend ≤ 2 ^ 64 - PGSIZE) as Hk2
    by plia.
  pose proof (PGROUNDUP_bounds kend Hk2) as Hup.
  pose proof (PGROUNDUP_aligned kend Hk2) as Hal.
  assert (PHYSTOP mod PGSIZE = 0) as Hpa by done.
  assert (PGROUNDUP kend ≤ PHYSTOP) as Hle.
  { destruct (decide (PGROUNDUP kend = PHYSTOP)); [lia|].
    pose proof (page_apart _ _ Hal Hpa ltac:(done)). lia. }
  set (n := Z.to_nat ((PHYSTOP - PGROUNDUP kend) / PGSIZE)).
  pose proof (Z.div_mod (PHYSTOP - PGROUNDUP kend) PGSIZE ltac:(done)) as Hd.
  pose proof (Z.mod_pos_bound (PHYSTOP - PGROUNDUP kend) PGSIZE ltac:(done)) as Hm.
  assert (0 ≤ (PHYSTOP - PGROUNDUP kend) / PGSIZE) by (apply Z.div_pos; [lia|done]).
  assert ((PHYSTOP - PGROUNDUP kend) / PGSIZE ≤ (PHYSTOP - kend) / PGSIZE)
    by (apply Z.div_le_mono; [done|lia]).
  assert (Z.of_nat n = (PHYSTOP - PGROUNDUP kend) / PGSIZE) as Hn by lia.
  assert (PGROUNDUP kend + Z.of_nat n * PGSIZE ≤ PHYSTOP <
          PGROUNDUP kend + (Z.of_nat n + 1) * PGSIZE) by (rewrite Hn; lia).
  destruct (freerange_loop n (Z.to_nat ((PHYSTOP - kend) / PGSIZE + 2)) (PGROUNDUP kend) PHYSTOP
              (lset klock_l false s) []) as (s' & l & Hr & Hi & Hl); try done; try lia.
  - by intros q ?%elem_of_nil.
  - constructor; simpl; try done. apply NoDup_nil_2.
  - exists s', l. split_and!; [exact Hr|done|]. intros p. rewrite Hl. unfold page_ok. split.
    + intros [?%elem_of_nil|(Ha & ? & ?)]; [done|]. unfold PGSIZE in *. split; [done|lia].
    + intros [Ha ?]. right. split_and!; [done| |].
      * destruct (decide (PGROUNDUP kend = p)); [lia|].
        pose proof (page_apart _ _ Hal Ha ltac:(done)). lia.
      * destruct (decide (p = PHYSTOP)); [lia|].
        pose proof (page_apart _ _ Ha Hpa ltac:(done)). lia.
Qed.
End kalloc.

(** ** Witnesses: a machine with the kernel ending three pages below PHYSTOP *)

Definition img : KernelImage.
Proof. refine {| kend := PHYSTOP - 3 * PGSIZE + 16 |}. vm_compute. split; [reflexivity|discriminate]. Defined.

Definition blank : kmem := Kmem false 0 (λ _, 0).
Definition page1 : Z := PHYSTOP - 2 * PGSIZE.
Definition page2 : Z := PHYSTOP - PGSIZE.

(** The free list after kfree(page1); kfree(page2) on blank memory. *)
Definition two_free : kmem := kfreed (kfreed blank page1) page2.

Lemma two_free_inv : @kmem_inv img two_free [page2; page1].
Proof.
  assert (@page_ok img page1) as H1 by (vm_compute; intuition discriminate).
  assert (@page_ok img page2) as H2 by (vm_compute; intuition discriminate).
  assert (@kmem_inv img blank []) as H0
    by (constructor; simpl; [done|intros a; simpl; lia|apply NoDup_nil_2|done]).
  apply (kfree_ok (kfreed blank page1) page2 [page1]); [|done|].
  - apply (kfree_ok blank page1 []); [done|done|by intros ?%elem_of_nil].
  - intros Hin%list_elem_of_singleton. discriminate.
Qed.

Lemma kalloc_correct_witness :
  ∃ s', @kalloc two_free = Ok page2 s' ∧ kram s' (page2 + 8) = 5 ∧ kram s' (page1 + 8) = 1.
Proof.
  destruct (@kalloc_correct img two_free [page2; page1] two_free_inv)
    as (s' & Hr & _ & _ & _ & Hin & Hout).
  exists s'. split_and!; [exact Hr|apply Hin; vm_compute; intuition discriminate|].
  rewrite (Hout (page1 + 8)); [vm_compute; reflexivity|].
  vm_compute. intros [? _]. by apply H.
Defined.

Lemma kfree_correct_witness :
  @kfree img 12 two_free = Panic "kfree" ∧
  ∃ s', @kfree img page2 (kalloced two_free page2) = Ok tt s' ∧ kram s' (page1 + 8) = 1.
Proof.
  destruct (@kalloc_cons img two_free page2 [page1] two_free_inv) as (_ & Hi & Hp & Hn).
  split.
  - apply (@kfree_correct img two_free [page2; page1] 12 two_free_inv).
    intros [_ ?]. vm_compute in H. intuition discriminate.
  - destruct (@kfree_correct img (kalloced two_free page2) [page1] page2 Hi) as [_ H2].
    destruct (H2 Hp Hn) as (s' & Hr & _ & Hout). exists s'. split; [exact Hr|].
    rewrite (Hout (page1 + 8)); [vm_compute; reflexivity|].
    vm_compute. intros [? _]. by apply H.
Defined.

Lemma kalloc_refines_stack_witness :
  ∃ s', @run_kops img [OpAlloc; OpAlloc; OpAlloc; OpFree page2; OpAlloc] two_free =
    Ok [page2; page1; 0; 0; page2] s'.
Proof.
  destruct (@kalloc_refines_stack img [OpAlloc; OpAlloc; OpAlloc; OpFree page2; OpAlloc]
    two_free [page2; page1] [page2; page1; 0; 0; page2] [] two_free_inv) as (s' & Hr & _).
  - vm_compute. reflexivity.
  - exists s'. exact Hr.
Defined.

Lemma kinit_frees_all_pages_witness :
  ∃ s' (l : list Z), @kinit img blank = Ok tt s' ∧ page1 ∈ l ∧ page2 ∈ l ∧ (page1 - PGSIZE) ∉ l.
Proof.
  destruct (@kinit_frees_all_pages img blank) as (s' & l & Hr & _ & Hl).
  - intros a. simpl. lia.
  - reflexivity.
  - exists s', l. rewrite !Hl. split_and!; [exact Hr| | |];
      vm_compute; intuition discriminate.
Defined.
