(* ===== verification/Vm.v ===== *)
(** * Page tables and user memory: kernel/vm.c

    Page tables live in physical memory: a page-table page is 512 little-endian
    words, and every function below reads and writes those words where vm.c
    does.  The state is that of the page allocator.  Kernel buffers passed to
    copyout and filled by copyin are byte lists. *)
From S2P Require Import Prelude Mem Spinlock Riscv Kalloc.
Open Scope Z_scope.

Definition ldram (a : Z) : M kmem Z := gets (λ s, load64 (kram s) a).
Definition stram (a v : Z) : M kmem unit := modify (set_ram (λ m, store64 m a v)).

Section vm.
Context `{KernelImage}.

(** One turn of the loop of walk at [level]: the next page-table page, or
    [None] where walk returns 0. *)
Definition walk_step (va : Z) (alloc : bool) (level pagetable : Z) : M kmem (option Z) :=
  let pte := pagetable + 8 * PX level va in
  v ← ldram pte;
  if ctrue (Z.land v PTE_V) then mret (Some (PTE2PA v))
  else if negb alloc then mret None
  else
    pt ← kalloc;
    if pt =? 0 then mret None
    else
      modify (set_ram (λ m, memset m pt 0 PGSIZE));;
      stram pte (Z.lor (PA2PTE pt) PTE_V);;
      mret (Some pt).

Fixpoint walk_levels (va : Z) (alloc : bool) (levels : list Z) (pagetable : Z)
    : M kmem (option Z) :=
  match levels with
  | [] => mret (Some pagetable)
  | level :: levels' =>
      r ← walk_step va alloc level pagetable;
      match r with
      | Some pt => walk_levels va alloc levels' pt
      | None => mret None
      end
  end.

Definition walk (pagetable va : Z) (alloc : bool) : M kmem Z :=
  if va >=? MAXVA then panic "walk" else
  r ← walk_levels va alloc [2; 1] pagetable;
  match r with
  | Some pt => mret (pt + 8 * PX 0 va)
  | None => mret 0
  end.

Definition walkaddr (pagetable va : Z) : M kmem Z :=
  if va >=? MAXVA then mret 0 else
  pte ← walk pagetable va false;
  if pte =? 0 then mret 0 else
  v ← ldram pte;
  if Z.land v PTE_V =? 0 then mret 0 else
  if Z.land v PTE_U =? 0 then mret 0 else
  mret (PTE2PA v).

(** One turn of the loop of mappages, and mappages. *)
Definition map_turn (pagetable last perm : Z) '((a, pa) : Z * Z) : M kmem (Z * Z + Z) :=
  pte ← walk pagetable a true;
  if pte =? 0 then mret (inr (-1)) else
  v ← ldram pte;
  if ctrue (Z.land v PTE_V) then panic "mappages: remap" else
  stram pte (Z.lor (Z.lor (PA2PTE pa) perm) PTE_V);;
  if a =? last then mret (inr 0)
  else mret (inl (u64 (a + PGSIZE), u64 (pa + PGSIZE))).

Definition mappages (pagetable va size pa perm : Z) : M kmem Z :=
  if negb (va mod PGSIZE =? 0) then panic "mappages: va not aligned" else
  if negb (size mod PGSIZE =? 0) then panic "mappages: size not aligned" else
  if size =? 0 then panic "mappages: size" else
  let last := u64 (va + size - PGSIZE) in
  loop (Z.to_nat (size / PGSIZE)) (map_turn pagetable last perm) (va, pa).

Definition kvmmap (kpgtbl va pa sz perm : Z) : M kmem unit :=
  r ← mappages kpgtbl va sz pa perm;
  if ctrue r then panic "kvmmap" else mret tt.

(** A kernel stack for each slot of the process table. *)
Definition proc_mapstacks (kpgtbl : Z) : M kmem unit :=
  loop (S (Z.to_nat NPROC)) (λ i,
    if i <? NPROC then
      pa ← kalloc;
      if pa =? 0 then panic "kalloc" else
      kvmmap kpgtbl (KSTACK i) pa PGSIZE (Z.lor PTE_R PTE_W);;
      mret (inl (i + 1))
    else mret (inr tt)) 0.

(** [etext] and [trampoline] are addresses the linker fixes. *)
Definition kvmmake (etext trampoline : Z) : M kmem Z :=
  kpgtbl ← kalloc;
  modify (set_ram (λ m, memset m kpgtbl 0 PGSIZE));;
  kvmmap kpgtbl UART0 UART0 PGSIZE (Z.lor PTE_R PTE_W);;
  kvmmap kpgtbl VIRTIO0 VIRTIO0 PGSIZE (Z.lor PTE_R PTE_W);;
  kvmmap kpgtbl PLIC PLIC 0x4000000 (Z.lor PTE_R PTE_W);;
  kvmmap kpgtbl KERNBASE KERNBASE (u64 (etext - KERNBASE)) (Z.lor PTE_R PTE_X);;
  kvmmap kpgtbl etext etext (u64 (PHYSTOP - etext)) (Z.lor PTE_R PTE_W);;
  kvmmap kpgtbl TRAMPOLINE trampoline PGSIZE (Z.lor PTE_R PTE_X);;
  proc_mapstacks kpgtbl;;
  mret kpgtbl.

(** The bound of the loop is [va + npages*PGSIZE] as a uint64. *)
Definition unmap_turn (pagetable stop : Z) (do_free : bool) (a : Z) : M kmem (Z + unit) :=
  if a <? stop then
    pte ← walk pagetable a false;
    if pte =? 0 then panic "uvmunmap: walk" else
    v ← ldram pte;
    if Z.land v PTE_V =? 0 then panic "uvmunmap: not mapped" else
    if PTE_FLAGS v =? PTE_V then panic "uvmunmap: not a leaf" else
    (if do_free then kfree (PTE2PA v) else mret tt);;
    stram pte 0;;
    mret (inl (u64 (a + PGSIZE)))
  else mret (inr tt).

Definition uvmunmap (pagetable va npages : Z) (do_free : bool) : M kmem unit :=
  if negb (va mod PGSIZE =? 0) then panic "uvmunmap: not aligned" else
  loop (S (Z.to_nat npages)) (unmap_turn pagetable (u64 (va + npages * PGSIZE)) do_free) va.

Definition uvmcreate : M kmem Z :=
  pagetable ← kalloc;
  if pagetable =? 0 then mret 0 else
  modify (set_ram (λ m, memset m pagetable 0 PGSIZE));;
  mret pagetable.

Definition uvmfirst (pagetable : Z) (src : list Z) (sz : Z) : M kmem unit :=
  if sz >=? PGSIZE then panic "uvmfirst: more than a page" else
  mem ← kalloc;
  modify (set_ram (λ m, memset m mem 0 PGSIZE));;
  _ ← mappages pagetable 0 PGSIZE mem (Z.lor (Z.lor (Z.lor PTE_W PTE_R) PTE_X) PTE_U);
  modify (set_ram (λ m, store_bytes m mem (take (Z.to_nat sz) src))).

Definition uvmdealloc (pagetable oldsz newsz : Z) : M kmem Z :=
  if newsz >=? oldsz then mret oldsz else
  (if PGROUNDUP newsz <? PGROUNDUP oldsz then
     let npages := s32 ((PGROUNDUP oldsz - PGROUNDUP newsz) / PGSIZE) in
     uvmunmap pagetable (PGROUNDUP newsz) npages true
   else mret tt);;
  mret newsz.

Definition uvmalloc_turn (pagetable oldsz newsz xperm a : Z) : M kmem (Z + Z) :=
  if a <? newsz then
    mem ← kalloc;
    if mem =? 0 then
      uvmdealloc pagetable a oldsz;; mret (inr 0)
    else
      modify (set_ram (λ m, memset m mem 0 PGSIZE));;
      r ← mappages pagetable a PGSIZE mem (Z.lor (Z.lor PTE_R PTE_U) xperm);
      if ctrue r then
        kfree mem;;
        uvmdealloc pagetable a oldsz;; mret (inr 0)
      else mret (inl (u64 (a + PGSIZE)))
  else mret (inr newsz).

Definition uvmalloc (pagetable oldsz newsz xperm : Z) : M kmem Z :=
  if newsz <? oldsz then mret oldsz else
  let oldsz := PGROUNDUP oldsz in
  loop (S (Z.to_nat ((newsz - oldsz) / PGSIZE + 1))) (uvmalloc_turn pagetable oldsz newsz xperm) oldsz.

(** [freewalk]: the recursion is as deep as the tree, three levels for a
    table built by walk; [depth] is its fuel. *)
Fixpoint freewalk (depth : nat) (pagetable : Z) : M kmem unit :=
  match depth with
  | O => λ _, NoFuel
  | S depth' =>
      loop 513 (λ i,
        if i <? 512 then
          pte ← ldram (pagetable + 8 * i);
          if ctrue (Z.land pte PTE_V) && (Z.land pte (Z.lor (Z.lor PTE_R PTE_W) PTE_X) =? 0) then
            freewalk depth' (PTE2PA pte);;
            stram (pagetable + 8 * i) 0;;
            mret (inl (i + 1))
          else if ctrue (Z.land pte PTE_V) then panic "freewalk: leaf"
          else mret (inl (i + 1))
        else mret (inr tt)) 0;;
      kfree pagetable
  end.

Definition uvmfree (pagetable sz : Z) : M kmem unit :=
  (if sz >? 0 then uvmunmap pagetable 0 (PGROUNDUP sz / PGSIZE) true else mret tt);;
  freewalk 3 pagetable.

Definition uvmcopy (old new sz : Z) : M kmem Z :=
  loop (S (Z.to_nat (sz / PGSIZE + 1))) (λ i,
    if i <? sz then
      pte ← walk old i false;
      if pte =? 0 then panic "uvmcopy: pte should exist" else
      v ← ldram pte;
      if Z.land v PTE_V =? 0 then panic "uvmcopy: page not present" else
      let pa := PTE2PA v in
      let flags := PTE_FLAGS v in
      mem ← kalloc;
      if mem =? 0 then
        uvmunmap new 0 (i / PGSIZE) true;; mret (inr (-1))
      else
        modify (set_ram (λ m, memmove m mem pa PGSIZE));;
        r ← mappages new i PGSIZE mem flags;
        if ctrue r then
          kfree mem;;
          uvmunmap new 0 (i / PGSIZE) true;; mret (inr (-1))
        else mret (inl (u64 (i + PGSIZE)))
    else mret (inr 0)) 0.

Definition uvmclear (pagetable va : Z) : M kmem unit :=
  pte ← walk pagetable va false;
  if pte =? 0 then panic "uvmclear" else
  v ← ldram pte;
  stram pte (Z.land v (Z.lnot PTE_U)).

(** Each turn of the copy loops finishes a page or the request. *)
Definition copy_fuel (len : Z) : nat := Z.to_nat (len / PGSIZE + 3).

Definition copyout_turn (pagetable : Z) '((dstva, src) : Z * list Z) : M kmem (Z * list Z + Z) :=
  if Z.of_nat (length src) >? 0 then
    let va0 := PGROUNDDOWN dstva in
    if va0 >=? MAXVA then mret (inr (-1)) else
    pte ← walk pagetable va0 false;
    if pte =? 0 then mret (inr (-1)) else
    v ← ldram pte;
    if (Z.land v PTE_V =? 0) || (Z.land v PTE_U =? 0) || (Z.land v PTE_W =? 0)
    then mret (inr (-1)) else
    let pa0 := PTE2PA v in
    let n := PGSIZE - (dstva - va0) in
    let n := if n >? Z.of_nat (length src) then Z.of_nat (length src) else n in
    modify (set_ram (λ m, store_bytes m (pa0 + (dstva - va0)) (take (Z.to_nat n) src)));;
    mret (inl (u64 (va0 + PGSIZE), drop (Z.to_nat n) src))
  else mret (inr 0).

Definition copyout (pagetable dstva : Z) (src : list Z) : M kmem Z :=
  loop (copy_fuel (Z.of_nat (length src))) (copyout_turn pagetable) (dstva, src).

(** The return code and the bytes written to the destination buffer. *)
Definition copyin_turn (pagetable : Z) '((srcva, len, dst) : Z * Z * list Z)
    : M kmem (Z * Z * list Z + Z * list Z) :=
  if len >? 0 then
    let va0 := PGROUNDDOWN srcva in
    pa0 ← walkaddr pagetable va0;
    if pa0 =? 0 then mret (inr (-1, dst)) else
    let n := PGSIZE - (srcva - va0) in
    let n := if n >? len then len else n in
    bs ← gets (λ s, load_bytes (kram s) (pa0 + (srcva - va0)) (Z.to_nat n));
    mret (inl (u64 (va0 + PGSIZE), len - n, dst ++ bs))
  else mret (inr (0, dst)).

Definition copyin (pagetable srcva len : Z) : M kmem (Z * list Z) :=
  loop (copy_fuel len) (copyin_turn pagetable) (srcva, len, []).

(** The inner byte loop of copyinstr: [n] bytes left on the page; the bytes
    copied, and whether a NUL was seen. *)
Fixpoint copyinstr_page (m : mem) (p : Z) (n : nat) : list Z * bool :=
  match n with
  | O => ([], false)
  | S n' => if m p =? 0 then ([0], true)
            else let '(bs, got) := copyinstr_page m (p + 1) n' in (m p :: bs, got)
  end.

Definition copyinstr (pagetable srcva max : Z) : M kmem (Z * list Z) :=
  loop (copy_fuel max) (λ '(srcva, max, dst),
    if max >? 0 then
      let va0 := PGROUNDDOWN srcva in
      pa0 ← walkaddr pagetable va0;
      if pa0 =? 0 then mret (inr (-1, dst)) else
      let n := PGSIZE - (srcva - va0) in
      let n := if n >? max then max else n in
      '(bs, got) ← gets (λ s, copyinstr_page (kram s) (pa0 + (srcva - va0)) (Z.to_nat n));
      if got : bool then mret (inr (0, dst ++ bs))
      else mret (inl (u64 (va0 + PGSIZE), max - n, dst ++ bs))
    else mret (inr (-1, dst))) (srcva, max, []).

(** ** The tree of page-table pages and the abstract page table *)

(** The page-table page that entry [i] of the page at [pt] points to. *)
Definition child (m : mem) (pt i : Z) : option Z :=
  let v := load64 m (pt + 8 * i) in
  if Z.testbit v 0 then Some (PTE2PA v) else None.

(** The page-table page at the end of a path of indices from [pt]. *)
Fixpoint node (m : mem) (pt : Z) (path : list Z) : option Z :=
  match path with
  | [] => Some pt
  | i :: path' => match child m pt i with Some q => node m q path' | None => None end
  end.

Definition path_ok (path : list Z) : Prop :=
  (length path ≤ 2)%nat ∧ Forall (λ i, 0 ≤ i < 512) path.

(** A page table is a tree: every page-table page is a RAM page, none is on
    the free list, and no page is reached along two paths. *)
Record pt_wf (m : mem) (root : Z) (free : list Z) : Prop := {
  pw_page : ∀ path p, path_ok path → node m root path = Some p → page_ok p ∧ p ∉ free;
  pw_inj : ∀ path path' p, path_ok path → path_ok path' →
    node m root path = Some p → node m root path' = Some p → path = path';
}.

Definition vpath (va : Z) : list Z := [PX 2 va; PX 1 va].

(** Where the entry of [va] is, and the entry (0 where no table reaches it):
    the abstract page table is the function from addresses to entries. *)
Definition leaf_slot (m : mem) (root va : Z) : option Z :=
  (λ p, p + 8 * PX 0 va) <$> node m root (vpath va).
Definition pte_at (m : mem) (root va : Z) : Z :=
  match leaf_slot m root va with Some a => load64 m a | None => 0 end.

(** Page [p] is a page of the table. *)
Definition in_table (m : mem) (root p : Z) : Prop := ∃ path, path_ok path ∧ node m root path = Some p.

(** The pages of the table of [s] are where they were in [s']. *)
Definition tkeep (s s' : kmem) (root : Z) : Prop :=
  ∀ path q, path_ok path → node (kram s) root path = Some q → node (kram s') root path = Some q.

(** What a step of walk may do to the machine: use free pages for new
    page-table pages of [root], and change no entry and no other byte. *)
Record pt_ext (root : Z) (s : kmem) (l : list Z) (s' : kmem) (l' : list Z) : Prop := {
  pe_inv : kmem_inv s' l';
  pe_wf : pt_wf (kram s') root l';
  pe_free : l' `suffix_of` l;
  pe_pte : ∀ va, pte_at (kram s') root va = pte_at (kram s) root va;
  pe_mono : tkeep s s' root;
  pe_used : ∀ p, p ∈ l → p ∈ l' ∨ in_table (kram s') root p;
  pe_new : ∀ path q, path_ok path → node (kram s') root path = Some q →
    node (kram s) root path = Some q ∨ q ∈ l;
  pe_frame : ∀ x, (∀ p, p ∈ l → ¬ in_page p x) →
    (∀ path p, path_ok path → node (kram s) root path = Some p → ¬ in_page p x) →
    kram s' x = kram s x;
}.

(** *** Lemmas on the tree *)

Lemma path_ok_vpath va : path_ok (vpath va).
Proof. split; [simpl; lia|]. repeat constructor; apply PX_range; lia. Qed.

Lemma path_ok_app path path' : path_ok (path ++ path') → path_ok path.
Proof. intros [Hl Hf]. rewrite length_app in Hl. apply Forall_app in Hf as [? _]. split; [lia|done]. Qed.

Lemma node_app m pt path path' :
  node m pt (path ++ path') = match node m pt path with Some q => node m q path' | None => None end.
Proof.
  revert pt. induction path as [|i path IH]; intros pt; simpl; [done|].
  destruct (child m pt i); [apply IH|done].
Qed.

Lemma child_ext m m' pt i :
  load64 m' (pt + 8 * i) = load64 m (pt + 8 * i) → child m' pt i = child m pt i.
Proof. intros E. unfold child. by rewrite E. Qed.

Lemma node_ext m m' pt path :
  (∀ pre i post q, path = pre ++ i :: post → node m pt pre = Some q →
     load64 m' (q + 8 * i) = load64 m (q + 8 * i)) →
  node m' pt path = node m pt path.
Proof.
  revert pt. induction path as [|i path IH]; intros pt Hx; [done|]. cbn [node].
  rewrite (child_ext m m') by (by apply (Hx [] i path)).
  destruct (child m pt i) as [q|] eqn:E; [|done]. apply IH.
  intros pre j post q' -> Hq. apply (Hx (i :: pre) j post); [done|].
  cbn [node]. by rewrite E.
Qed.

Lemma slot_in_page p i x : 0 ≤ i < 512 → p + 8 * i ≤ x < p + 8 * i + 8 → in_page p x.
Proof. unfold in_page, PGSIZE. lia. Qed.

Lemma load64_page_ext m m' p i :
  0 ≤ i < 512 → (∀ x, in_page p x → m' x = m x) → load64 m' (p + 8 * i) = load64 m (p + 8 * i).
Proof. intros Hi Hx. apply load64_ext. intros x ?. apply Hx. by apply (slot_in_page p i). Qed.

Lemma path_ok_mid pre i post : path_ok (pre ++ i :: post) → path_ok pre ∧ 0 ≤ i < 512.
Proof.
  intros Hp. split; [by eapply path_ok_app|].
  destruct Hp as [_ Hf]. apply Forall_app in Hf as [_ Hf]. by inversion Hf.
Qed.

(** A table's tree and entries depend only on the bytes of its pages. *)
Lemma pt_frame m m' root free :
  pt_wf m root free →
  (∀ path p x, path_ok path → node m root path = Some p → in_page p x → m' x = m x) →
  (∀ path, path_ok path → node m' root path = node m root path) ∧
  (∀ va, pte_at m' root va = pte_at m root va).
Proof.
  intros Hwf Hx. assert (∀ path, path_ok path → node m' root path = node m root path) as Hn.
  { intros path Hp. apply node_ext. intros pre i post q -> Hq.
    destruct (path_ok_mid _ _ _ Hp) as [Hpre Hi].
    apply load64_page_ext; [done|]. intros x. by apply (Hx pre). }
  split; [done|]. intros va. unfold pte_at, leaf_slot. rewrite Hn by apply path_ok_vpath.
  destruct (node m root (vpath va)) as [p|] eqn:E; [|done]. simpl.
  apply load64_page_ext; [by apply PX_range|]. intros x. by apply (Hx (vpath va)), E; apply path_ok_vpath.
Qed.

Lemma pt_wf_nodes m m' root free :
  pt_wf m root free → (∀ path, path_ok path → node m' root path = node m root path) →
  pt_wf m' root free.
Proof.
  intros [Hp Hi] Hn. constructor.
  - intros path p Hok. rewrite Hn by done. by apply Hp.
  - intros path path' p Hok Hok'. rewrite !Hn by done. by apply Hi.
Qed.

Lemma pt_wf_free m root free free' :
  pt_wf m root free → (∀ p, p ∈ free' → p ∈ free) → pt_wf m root free'.
Proof.
  intros [Hp Hi] Hs. constructor; [|done]. intros path p Hok Hn.
  destruct (Hp path p Hok Hn). split; [done|]. auto.
Qed.

(** Two pages of one table are equal or apart. *)
Lemma pt_pages_apart m root free path path' p q x :
  pt_wf m root free → path_ok path → path_ok path' →
  node m root path = Some p → node m root path' = Some q → path ≠ path' →
  in_page p x → ¬ in_page q x.
Proof.
  intros Hwf Ho Ho' Hp Hq Hne Hx Hx'.
  destruct (pw_page _ _ _ Hwf path p Ho Hp) as [Hpp _].
  destruct (pw_page _ _ _ Hwf path' q Ho' Hq) as [Hqq _].
  apply Hne, (pw_inj _ _ _ Hwf path path' p); try done.
  by rewrite (in_page_disjoint p q x).
Qed.

Lemma PX_page k va va' : 0 ≤ k → va' / PGSIZE = va / PGSIZE → PX k va' = PX k va.
Proof.
  intros Hk Hd. rewrite !PX_spec by done.
  replace (2 ^ (12 + 9 * k)) with (PGSIZE * 2 ^ (9 * k)) by (rewrite Z.pow_add_r by lia; done).
  rewrite <- !Z.div_div by lia || done. by rewrite Hd.
Qed.

Lemma pte_at_page m root va va' :
  va' / PGSIZE = va / PGSIZE → pte_at m root va' = pte_at m root va.
Proof. intros Hd. unfold pte_at, leaf_slot, vpath. by rewrite !(PX_page _ va va') by done. Qed.

(** Writing the entry of [va] changes that entry and nothing else. *)
Lemma set_leaf m root free va a v :
  pt_wf m root free → leaf_slot m root va = Some a →
  (∀ path, path_ok path → node (store64 m a v) root path = node m root path) ∧
  (∀ va', 0 ≤ va < MAXVA → 0 ≤ va' < MAXVA → pte_at (store64 m a v) root va' =
     if decide (va' / PGSIZE = va / PGSIZE) then u64 v else pte_at m root va').
Proof.
  intros Hwf Hs. unfold leaf_slot in Hs.
  destruct (node m root (vpath va)) as [p|] eqn:Ep; [|done]. simpl in Hs. injection Hs as <-.
  assert (∀ x, p + 8 * PX 0 va ≤ x < p + 8 * PX 0 va + 8 → in_page p x) as Hin
    by (intros x; apply slot_in_page, PX_range; done).
  assert (∀ path, path_ok path → node (store64 m (p + 8 * PX 0 va) v) root path = node m root path) as Hn.
  { intros path Hp. apply node_ext. intros pre i post q -> Hq.
    destruct (path_ok_mid _ _ _ Hp) as [Hpre Hi].
    apply load64_page_ext; [done|]. intros x Hx. apply store64_other. intros Hxx%Hin.
    revert Hxx. apply (pt_pages_apart m root free pre (vpath va) q); try done.
    - apply path_ok_vpath.
    - intros ->. destruct Hp as [Hl _]. rewrite length_app in Hl. simpl in Hl. lia. }
  split; [done|]. intros va' Hva Hva'. unfold pte_at, leaf_slot. rewrite Hn by apply path_ok_vpath.
  case_decide as Hd.
  - unfold vpath in *. rewrite !(PX_page _ va va'), Ep by done. simpl. apply load64_store64_eq.
  - destruct (node m root (vpath va')) as [q|] eqn:Eq; [|done]. simpl.
    destruct (decide (vpath va = vpath va')) as [Hv|Hv].
    + rewrite Hv in Ep. rewrite Ep in Eq. injection Eq as <-. apply load64_store64_ne.
      unfold vpath in Hv. injection Hv as H2 H1.
      assert (PX 0 va ≠ PX 0 va') by (intros E0; apply Hd; by apply PX_inj). lia.
    + apply load64_page_ext; [by apply PX_range|]. intros x Hx. apply store64_other. intros Hxx%Hin.
      revert Hxx. by apply (pt_pages_apart m root free (vpath va') (vpath va) q); auto using path_ok_vpath.
Qed.

(** *** Adding a page-table page *)

Lemma load64_zero_page m n i :
  0 ≤ i < 512 → (∀ x, in_page n x → m x = 0) → load64 m (n + 8 * i) = 0.
Proof.
  intros Hi Hz. rewrite (load64_page_ext (λ _, 0)) by (done || auto). done.
Qed.

(** Memory [m'] is [m] with a zeroed page [n] linked at entry [i] of the
    page-table page [p]. *)
Record linked (m m' : mem) (n p i : Z) : Prop := {
  lk_zero : ∀ x, in_page n x → m' x = 0;
  lk_slot : load64 m' (p + 8 * i) = mkpte n 0;
  lk_other : ∀ x, ¬ in_page n x → ¬ (p + 8 * i ≤ x < p + 8 * i + 8) → m' x = m x;
}.

Section link.
Variables (m m' : mem) (root n p i : Z) (l path : list Z).
Hypothesis Hwf : pt_wf m root (n :: l).
Hypothesis Hnl : n ∉ l.
Hypothesis Hn : page_ok n.
Hypothesis Hok : path_ok (path ++ [i]).
Hypothesis Hp : node m root path = Some p.
Hypothesis Hc : child m p i = None.
Hypothesis Hl : linked m m' n p i.

Lemma link_fresh path' q x :
  path_ok path' → node m root path' = Some q → in_page q x → ¬ in_page n x.
Proof.
  intros Ho Hq Hx Hx'. destruct (pw_page _ _ _ Hwf path' q Ho Hq) as [Hqo Hqf].
  apply Hqf. rewrite (in_page_disjoint q n x); auto. by left.
Qed.

(** The words of the other page-table pages are unchanged. *)
Lemma link_word path' q j :
  path_ok path' → node m root path' = Some q → 0 ≤ j < 512 → (path' ≠ path ∨ j ≠ i) →
  load64 m' (q + 8 * j) = load64 m (q + 8 * j).
Proof.
  intros Ho Hq Hj Hne. apply load64_ext. intros x Hx.
  pose proof (slot_in_page q j x Hj Hx) as Hxp. apply (lk_other _ _ _ _ _ Hl).
  { by apply (link_fresh path' q). }
  intros Hx'. destruct (path_ok_mid path i [] Hok) as [Hop Hi].
  destruct (decide (path' = path)) as [->|Hpp].
  - rewrite Hp in Hq. injection Hq as <-. destruct Hne; [done|lia].
  - apply (pt_pages_apart m root _ path' path q p x Hwf); try done.
    by apply (slot_in_page p i).
Qed.

Lemma link_node path' :
  path_ok path' →
  node m' root path' = if decide (path' = path ++ [i]) then Some n else node m root path'.
Proof.
  intros Ho. destruct (path_ok_mid path i [] Hok) as [Hop Hi].
  assert (node m' root path = Some p) as Hp'.
  { rewrite <- Hp. apply node_ext. intros pre j post q E Hq.
    assert (path_ok (pre ++ j :: post)) as Hop' by (by rewrite <- E).
    destruct (path_ok_mid _ _ _ Hop') as [Hpre Hj]. apply (link_word pre); try done.
    left. intros ->. apply (f_equal length) in E. rewrite length_app in E. simpl in E. lia. }
  pose proof (page_ok_pos n Hn) as Hnr. destruct Hn as [Hna _].
  assert (child m' p i = Some n) as Hc'.
  { unfold child. rewrite (lk_slot _ _ _ _ _ Hl), mkpte_testbit, PTE2PA_mkpte by (done || lia). done. }
  destruct (decide (path ++ [i] `prefix_of` path')) as [[post ->]|Hpre].
  - rewrite <- app_assoc. rewrite !node_app, Hp, Hp'. simpl. rewrite Hc, Hc'.
    case_decide as Hd.
    + destruct post; [done|]. apply (f_equal length) in Hd. rewrite !length_app in Hd. simpl in Hd. lia.
    + destruct post as [|j post]; [done|]. simpl.
      rewrite <- app_assoc in Ho. simpl in Ho.
      destruct Ho as [_ Hf]. apply Forall_app in Hf as [_ Hf]. inversion_clear Hf as [|? ? _ Hf'].
      inversion_clear Hf' as [|? ? Hj _].
      unfold child. by rewrite (load64_zero_page m' n j Hj (lk_zero _ _ _ _ _ Hl)).
  - rewrite decide_False by (intros ->; apply Hpre; done).
    apply node_ext. intros pre j post q -> Hq.
    destruct (path_ok_mid _ _ _ Ho) as [Hopre Hj]. apply (link_word pre); try done.
    destruct (decide (pre = path)) as [->|]; [|by left]. right. intros ->.
    apply Hpre. exists post. by rewrite <- app_assoc.
Qed.

Lemma link_pte va : pte_at m' root va = pte_at m root va.
Proof.
  unfold pte_at, leaf_slot. rewrite link_node by apply path_ok_vpath. case_decide as Hd.
  - rewrite Hd, node_app, Hp. simpl. rewrite Hc. simpl.
    apply load64_zero_page; [by apply PX_range|apply (lk_zero _ _ _ _ _ Hl)].
  - destruct (node m root (vpath va)) as [q|] eqn:E; [|done]. simpl.
    apply (link_word (vpath va)); auto using path_ok_vpath; [by apply PX_range|].
    left. intros <-. destruct Hok as [Hlen _]. simpl in Hlen. lia.
Qed.

Lemma link_wf : pt_wf m' root l.
Proof.
  assert (∀ path' q, path_ok path' → node m root path' = Some q → q ≠ n) as Hqn.
  { intros path' q Ho Hq ->. destruct (pw_page _ _ _ Hwf path' n Ho Hq) as [_ Hf]. apply Hf. by left. }
  constructor.
  - intros path' q Ho. rewrite link_node by done. case_decide; [by intros [= <-]|].
    intros Hq. destruct (pw_page _ _ _ Hwf path' q Ho Hq) as [? Hf]. split; [done|].
    intros ?. apply Hf. by right.
  - intros p1 p2 q Ho1 Ho2. rewrite !link_node by done.
    case_decide as H1; case_decide as H2; [congruence| | |].
    + intros [= <-] Hq. by apply Hqn in Hq.
    + intros Hq [= <-]. by apply Hqn in Hq.
    + by apply (pw_inj _ _ _ Hwf).
Qed.
End link.

(** *** walk *)

Lemma tkeep_refl s root : tkeep s s root.
Proof. by intros path q. Qed.
Lemma tkeep_trans s1 s2 s3 root : tkeep s1 s2 root → tkeep s2 s3 root → tkeep s1 s3 root.
Proof. intros H1 H2 path q Ho Hq. auto. Qed.
Lemma in_table_keep s s' root p : tkeep s s' root → in_table (kram s) root p → in_table (kram s') root p.
Proof. intros Hk (path & Ho & Hp). exists path. auto. Qed.

Lemma pt_ext_refl root s l : kmem_inv s l → pt_wf (kram s) root l → pt_ext root s l s l.
Proof. intros. constructor; auto using tkeep_refl. Qed.

Lemma pt_ext_trans root s1 l1 s2 l2 s3 l3 :
  pt_ext root s1 l1 s2 l2 → pt_ext root s2 l2 s3 l3 → pt_ext root s1 l1 s3 l3.
Proof.
  intros H1 H2. assert (∀ p, p ∈ l2 → p ∈ l1) as Hsub.
  { intros p Hp. destruct (pe_free _ _ _ _ _ H1) as [k ->]. apply elem_of_app. by right. }
  constructor.
  - apply H2.
  - apply H2.
  - etrans; [apply H2|apply H1].
  - intros va. rewrite (pe_pte _ _ _ _ _ H2). apply H1.
  - by apply (tkeep_trans s1 s2); [apply H1|apply H2].
  - intros p Hp. destruct (pe_used _ _ _ _ _ H1 p Hp) as [Hp'|Hp']; [by apply (pe_used _ _ _ _ _ H2)|right].
    by apply (in_table_keep s2); [apply H2|].
  - intros path q Ho Hq. destruct (pe_new _ _ _ _ _ H2 path q Ho Hq) as [Hq'|]; [|auto].
    by apply (pe_new _ _ _ _ _ H1).
  - intros x Hf Hx. rewrite (pe_frame _ _ _ _ _ H2), (pe_frame _ _ _ _ _ H1); auto.
    intros path p Ho Hp Hpx. destruct (pe_new _ _ _ _ _ H1 path p Ho Hp) as [Hp'|Hp'].
    + by eapply Hx.
    + by eapply Hf.
Qed.

(** The three outcomes of one level of walk with allocation. *)
Lemma walk_step_alloc s l root path p va level :
  kmem_inv s l → pt_wf (kram s) root l → 0 ≤ level →
  node (kram s) root path = Some p → path_ok (path ++ [PX level va]) →
  ∃ r s' l', walk_step va true level p s = Ok r s' ∧ pt_ext root s l s' l' ∧
    match r with
    | Some q => node (kram s') root (path ++ [PX level va]) = Some q
    | None => l = []
    end.
Proof.
  intros Hinv Hwf Hlev Hp Hok. set (i := PX level va) in *.
  assert (0 ≤ i < 512) as Hi by (by apply PX_range).
  unfold walk_step. erewrite bind_ok by reflexivity. fold i. rewrite ctrue_land_V.
  destruct (child (kram s) p i) as [q|] eqn:Hc.
  { unfold child in Hc. destruct (Z.testbit _ 0) eqn:E; [|done].
    exists (Some q), s, l. split_and!; [by rewrite Hc|by apply pt_ext_refl|].
    rewrite node_app, Hp. simpl. unfold child. by rewrite E. }
  pose proof Hc as Hc'. unfold child in Hc'. destruct (Z.testbit _ 0) eqn:E; [done|]. clear Hc'.
  cbn [negb]. destruct l as [|n l].
  { exists None, s, []. split_and!; [|by apply pt_ext_refl|done].
    erewrite bind_ok by (by apply kalloc_empty). done. }
  destruct (kalloc_cons s n l Hinv) as (Hka & Hki & Hn & Hnl).
  pose proof (page_ok_pos n Hn) as Hnr.
  set (m2 := store64 (memset (kram (kalloced s n)) n 0 PGSIZE) (p + 8 * i) (mkpte n 0)).
  set (s2 := Kmem false (freelist (kalloced s n)) m2).
  assert (∀ x, in_page p x → ¬ in_page n x) as Hpn.
  { intros x. apply (link_fresh (kram s) root n l Hwf Hn path); [by eapply path_ok_app|done]. }
  assert (linked (kram s) m2 n p i) as Hlk.
  { constructor.
    - intros x Hx. unfold m2. rewrite store64_other.
      + rewrite memset_in by done. done.
      + intros Hx'. by apply (Hpn x); [apply (slot_in_page p i)|].
    - unfold m2. rewrite load64_store64_eq. apply u64_small, mkpte_range; lia.
    - intros x Hx Hx'. unfold m2. rewrite store64_other by done.
      rewrite memset_other by done. simpl. by apply memset_other. }
  exists (Some n), s2, l. split_and!.
  - erewrite bind_ok by exact Hka. replace (n =? 0) with false by lia.
    unfold stram. rewrite PA2PTE_mkpte. reflexivity.
  - assert (∀ path', path_ok path' → node m2 root path' =
       if decide (path' = path ++ [i]) then Some n else node (kram s) root path') as Hnode
      by (intros; by apply (link_node (kram s) m2 root n p i l)).
    constructor.
    + apply (kmem_inv_frame (kalloced s n) l m2 Hki).
      * unfold m2. apply store64_byte, memset_byte. apply Hki.
      * intros q x Hq Hx. unfold m2. rewrite store64_other, memset_other; [done| |].
        -- intros Hnx. apply Hnl. rewrite (in_page_disjoint n q x); try done.
           eapply flist_page_ok; [apply Hki|done].
        -- intros Hx'. assert (path_ok path) as Hop by (by eapply path_ok_app).
           destruct (pw_page _ _ _ Hwf path p Hop Hp) as [Hpo Hpf]. apply Hpf. right.
           rewrite (in_page_disjoint p q x); try done.
           ++ eapply flist_page_ok; [apply Hki|done].
           ++ by apply (slot_in_page p i).
    + by apply (link_wf (kram s) m2 root n p i l path).
    + by exists [n].
    + intros va'. by apply (link_pte (kram s) m2 root n p i l path).
    + intros path' q Ho Hq. simpl. rewrite Hnode by done. case_decide as Hd; [|done].
      rewrite Hd, node_app, Hp in Hq. simpl in Hq. by rewrite Hc in Hq.
    + intros q [->|Hq]%elem_of_cons; [right|by left]. exists (path ++ [i]). split; [done|]. simpl.
      rewrite Hnode by done. by rewrite decide_True.
    + intros path' q Ho. simpl. rewrite Hnode by done. case_decide; [|by left].
      intros [= <-]. right. by left.
    + intros x Hf Hx. simpl. apply (lk_other _ _ _ _ _ Hlk).
      * apply Hf. by left.
      * intros Hx'. eapply Hx; [by eapply path_ok_app|exact Hp|]. by apply (slot_in_page p i).
  - simpl. rewrite (link_node (kram s) m2 root n p i l path) by done. by rewrite decide_True.
Qed.

(** walk with allocation: the slot of [va], or 0 with no page left. *)
Lemma walk_alloc s l root va :
  kmem_inv s l → pt_wf (kram s) root l → 0 ≤ va < MAXVA →
  ∃ r s' l', walk root va true s = Ok r s' ∧ pt_ext root s l s' l' ∧
    ((r = 0 ∧ l' = []) ∨ (r ≠ 0 ∧ leaf_slot (kram s') root va = Some r)).
Proof.
  intros Hinv Hwf Hva. unfold walk. replace (va >=? MAXVA) with false by lia. cbn [walk_levels].
  pose proof (path_ok_vpath va) as Hv. assert (path_ok [PX 2 va]) as Hv1 by (by apply (path_ok_app [_] [PX 1 va])).
  assert (∀ s2 l2 l3, pt_ext root s [] s2 l2 → l3 `suffix_of` l2 → l3 = []) as Hnil.
  { intros s2 l2 l3 He Hs. destruct (pe_free _ _ _ _ _ He) as [k1 E1]. destruct Hs as [k2 ->].
    symmetry in E1. by apply app_nil in E1 as [_ [_ ?]%app_nil]. }
  destruct (walk_step_alloc s l root [] root va 2) as (r1 & s1 & l1 & H1 & He1 & Hr1); try done.
  destruct r1 as [p1|].
  2:{ subst l. exists 0, s1, l1. split_and!; [|done|left; split; [done|by eapply Hnil]].
      munfold. by rewrite H1. }
  destruct (walk_step_alloc s1 l1 root [PX 2 va] p1 va 1) as (r2 & s2 & l2 & H2 & He2 & Hr2); try done;
    [apply He1|apply He1|].
  pose proof (pt_ext_trans _ _ _ _ _ _ _ He1 He2) as He.
  destruct r2 as [p2|].
  - exists (p2 + 8 * PX 0 va), s2, l2. split_and!; [|done|right; split].
    + munfold. rewrite H1. cbn beta iota. by rewrite H2.
    + destruct (pw_page _ _ _ (pe_wf _ _ _ _ _ He) _ _ Hv Hr2) as [Hp%page_ok_pos _].
      pose proof (PX_range 0 va). lia.
    + unfold leaf_slot. change (vpath va) with ([PX 2 va] ++ [PX 1 va]). by rewrite Hr2.
  - subst l1. exists 0, s2, l2. split_and!; [|done|left; split; [done|]].
    + munfold. rewrite H1. cbn beta iota. by rewrite H2.
    + destruct (pe_free _ _ _ _ _ He2) as [k E]. symmetry in E. by apply app_nil in E as [_ ?].
Qed.

(** walk without allocation only reads. *)
Lemma walk_lookup s root va :
  0 ≤ va < MAXVA →
  walk root va false s = Ok (default 0 (leaf_slot (kram s) root va)) s.
Proof.
  intros Hva. unfold walk. replace (va >=? MAXVA) with false by lia.
  unfold leaf_slot, vpath, walk_levels, walk_step, ldram, child, node. munfold. simpl.
  rewrite !ctrue_land_V. unfold child.
  destruct (Z.testbit (load64 _ (root + _)) 0); [|done].
  rewrite !ctrue_land_V. by destruct (Z.testbit _ 0).
Qed.

Lemma leaf_slot_nonzero m root l va a : pt_wf m root l → leaf_slot m root va = Some a → a ≠ 0.
Proof.
  intros Hwf. unfold leaf_slot. destruct (node m root (vpath va)) as [p|] eqn:E; [|done].
  intros [= <-]. destruct (pw_page _ _ _ Hwf _ _ (path_ok_vpath va) E) as [Hp%page_ok_pos _].
  pose proof (PX_range 0 va). lia.
Qed.

(** Where the slot is already there, walk with allocation finds it. *)
Lemma walk_present s l root va a :
  pt_wf (kram s) root l → 0 ≤ va < MAXVA → leaf_slot (kram s) root va = Some a →
  walk root va true s = Ok a s.
Proof.
  intros Hwf Hva. unfold walk. replace (va >=? MAXVA) with false by lia.
  unfold leaf_slot, vpath, walk_levels, walk_step, ldram, child, node. munfold. simpl.
  rewrite !ctrue_land_V. unfold child.
  destruct (Z.testbit (load64 _ (root + _)) 0); [|done].
  rewrite !ctrue_land_V. destruct (Z.testbit _ 0); [|done]. by intros [= <-].
Qed.

(** Reading the entry of a valid address through walk. *)
Lemma walk_valid s root l va :
  pt_wf (kram s) root l → 0 ≤ va < MAXVA → Z.testbit (pte_at (kram s) root va) 0 = true →
  ∃ a, walk root va false s = Ok a s ∧ a ≠ 0 ∧ leaf_slot (kram s) root va = Some a ∧
    load64 (kram s) a = pte_at (kram s) root va.
Proof.
  intros Hwf Hva Hb. unfold pte_at in *.
  destruct (leaf_slot (kram s) root va) as [a|] eqn:E; [|by rewrite Z.bits_0 in Hb].
  exists a. split_and!; try done.
  - rewrite walk_lookup by done. by rewrite E.
  - by eapply leaf_slot_nonzero.
Qed.

Lemma walkaddr_spec s root l va :
  pt_wf (kram s) root l → 0 ≤ va →
  walkaddr root va s = Ok (if (va <? MAXVA) && Z.testbit (pte_at (kram s) root va) 0
                              && Z.testbit (pte_at (kram s) root va) 4
                           then PTE2PA (pte_at (kram s) root va) else 0) s.
Proof.
  intros Hwf Hva. unfold walkaddr. destruct (va >=? MAXVA) eqn:Em.
  { by replace (va <? MAXVA) with false by lia. }
  replace (va <? MAXVA) with true by lia.
  erewrite bind_ok by (apply walk_lookup; lia). unfold pte_at.
  destruct (leaf_slot (kram s) root va) as [a|] eqn:E; cbn [from_option id andb]; [|done].
  apply (leaf_slot_nonzero _ _ l) in E; [|done]. replace (a =? 0) with false by lia.
  erewrite bind_ok by reflexivity. rewrite land_V, land_U.
  destruct (Z.testbit _ 0); cbn [negb andb]; [|done]. by destruct (Z.testbit _ 4).
Qed.

(** *** Changing entries *)

(** What an operation on the table of [root] may do: use free pages for new
    page-table pages, and set the entries to [new]; no other byte changes. *)
Record pt_upd (root : Z) (s : kmem) (l : list Z) (s' : kmem) (l' : list Z) (new : Z → Z) : Prop := {
  pu_inv : kmem_inv s' l';
  pu_wf : pt_wf (kram s') root l';
  pu_free : l' `suffix_of` l;
  pu_pte : ∀ va, 0 ≤ va < MAXVA → pte_at (kram s') root va = new va;
  pu_mono : tkeep s s' root;
  pu_used : ∀ p, p ∈ l → p ∈ l' ∨ in_table (kram s') root p;
  pu_new : ∀ path q, path_ok path → node (kram s') root path = Some q →
    node (kram s) root path = Some q ∨ q ∈ l;
  pu_frame : ∀ x, (∀ p, p ∈ l → ¬ in_page p x) →
    (∀ path p, path_ok path → node (kram s) root path = Some p → ¬ in_page p x) →
    kram s' x = kram s x;
}.

Lemma pt_ext_upd root s l s' l' : pt_ext root s l s' l' → pt_upd root s l s' l' (pte_at (kram s) root).
Proof. intros []. constructor; auto. Qed.

Lemma pt_upd_trans root s1 l1 s2 l2 s3 l3 f g :
  pt_upd root s1 l1 s2 l2 f → pt_upd root s2 l2 s3 l3 g → pt_upd root s1 l1 s3 l3 g.
Proof.
  intros H1 H2. assert (∀ p, p ∈ l2 → p ∈ l1) as Hsub.
  { intros p Hp. destruct (pu_free _ _ _ _ _ _ H1) as [k ->]. apply elem_of_app. by right. }
  constructor; try apply H2.
  - etrans; [apply H2|apply H1].
  - by apply (tkeep_trans s1 s2); [apply H1|apply H2].
  - intros p Hp. destruct (pu_used _ _ _ _ _ _ H1 p Hp) as [Hp'|Hp']; [by apply (pu_used _ _ _ _ _ _ H2)|right].
    by apply (in_table_keep s2); [apply H2|].
  - intros path q Ho Hq. destruct (pu_new _ _ _ _ _ _ H2 path q Ho Hq) as [Hq'|]; [|auto].
    by apply (pu_new _ _ _ _ _ _ H1).
  - intros x Hf Hx. rewrite (pu_frame _ _ _ _ _ _ H2), (pu_frame _ _ _ _ _ _ H1); auto.
    intros path p Ho Hp Hpx. destruct (pu_new _ _ _ _ _ _ H1 path p Ho Hp) as [Hp'|Hp'].
    + by eapply Hx.
    + by eapply Hf.
Qed.

Lemma pt_upd_new root s l s' l' f g :
  (∀ va, 0 ≤ va < MAXVA → f va = g va) → pt_upd root s l s' l' f → pt_upd root s l s' l' g.
Proof. intros E []. constructor; auto. intros va Hva. rewrite <- E by done. auto. Qed.

(** The state after storing [v] as the entry at [a]. *)
Definition pte_set (s : kmem) (a v : Z) : kmem := set_ram (λ m, store64 m a v) s.

(** Entry function [f] with the page of [va] set to [v]. *)
Definition fset (f : Z → Z) (va v : Z) : Z → Z :=
  λ va', if decide (va' / PGSIZE = va / PGSIZE) then v else f va'.

Lemma leaf_slot_page m root va a x :
  leaf_slot m root va = Some a → a ≤ x < a + 8 →
  ∃ p, node m root (vpath va) = Some p ∧ in_page p x.
Proof.
  unfold leaf_slot. destruct (node m root (vpath va)) as [p|]; [|done]. intros [= <-] Hx.
  exists p. split; [done|]. apply (slot_in_page p (PX 0 va)); [by apply PX_range|done].
Qed.

Lemma pte_set_upd root s l va a v :
  kmem_inv s l → pt_wf (kram s) root l → leaf_slot (kram s) root va = Some a →
  0 ≤ va < MAXVA → 0 ≤ v < 2 ^ 64 →
  pt_upd root s l (pte_set s a v) l (fset (pte_at (kram s) root) va v).
Proof.
  intros Hinv Hwf Ha Hva Hv. destruct (set_leaf (kram s) root l va a v Hwf Ha) as [Hn Hp].
  constructor.
  - apply kmem_inv_frame; [done|apply store64_byte, Hinv|].
    intros p x Hp' Hx. apply store64_other. intros Hx'.
    destruct (leaf_slot_page _ _ _ _ x Ha Hx') as (q & Hq & Hqx).
    destruct (pw_page _ _ _ Hwf _ _ (path_ok_vpath va) Hq) as [Hqo Hqf]. apply Hqf.
    rewrite (in_page_disjoint q p x); try done. eapply flist_page_ok; [apply Hinv|done].
  - by eapply pt_wf_nodes.
  - done.
  - intros va' Hva'. simpl. rewrite Hp by done. unfold fset. by rewrite u64_small.
  - intros path q Ho Hq. simpl. by rewrite Hn.
  - by left.
  - intros path q Ho Hq. left. simpl in Hq. by rewrite Hn in Hq.
  - intros x _ Hx. simpl. apply store64_other. intros Hx'.
    destruct (leaf_slot_page _ _ _ _ x Ha Hx') as (q & Hq & Hqx).
    by apply (Hx _ _ (path_ok_vpath va) Hq).
Qed.

(** Entry function [f] with [k] pages from [va] mapped to [pa]. *)
Definition fmap_range (f : Z → Z) (va k pa perm : Z) : Z → Z :=
  λ va', if decide (va ≤ va' < va + k * PGSIZE) then mkpte (pa + PGROUNDDOWN (va' - va)) perm
         else f va'.

Lemma fmap_range_0 f va pa perm va' : fmap_range f va 0 pa perm va' = f va'.
Proof. unfold fmap_range. rewrite decide_False by lia. done. Qed.

Lemma page_index_eq va va' : va mod PGSIZE = 0 →
  va' / PGSIZE = va / PGSIZE ↔ va ≤ va' < va + PGSIZE.
Proof.
  unfold PGSIZE. intros Hm. pose proof (Z.div_mod va 4096). pose proof (Z.div_mod va' 4096).
  pose proof (Z.mod_pos_bound va' 4096). lia.
Qed.

Lemma fmap_range_S f va k pa perm va' :
  va mod PGSIZE = 0 → 0 ≤ k →
  fmap_range (fset f va (mkpte pa perm)) (va + PGSIZE) k (pa + PGSIZE) perm va' =
  fmap_range f va (k + 1) pa perm va'.
Proof.
  intros Ha Hk. unfold fmap_range, fset. pose proof (page_index_eq va va' Ha) as Hi.
  destruct (decide (va + PGSIZE ≤ va' < va + PGSIZE + k * PGSIZE)) as [H1|H1].
  - rewrite decide_True by plia. f_equal.
    replace (va' - va) with (va' - (va + PGSIZE) + 1 * PGSIZE) by lia.
    rewrite !PGROUNDDOWN_spec, Z.div_add by done. lia.
  - destruct (decide (va' / PGSIZE = va / PGSIZE)) as [Hd|Hd].
    + apply Hi in Hd. rewrite decide_True by plia. f_equal.
      rewrite PGROUNDDOWN_spec, Z.div_small by lia. lia.
    + rewrite decide_False; [done|]. intros H2. apply Hd, Hi. plia.
Qed.

Lemma map_turn_spec root s l va pa perm last :
  kmem_inv s l → pt_wf (kram s) root l → 0 ≤ va < MAXVA → 0 ≤ pa < 2 ^ 56 → 0 ≤ perm < 1024 →
  Z.testbit (pte_at (kram s) root va) 0 = false →
  (∃ s', map_turn root last perm (va, pa) s = Ok (inr (-1)) s' ∧
     pt_upd root s l s' [] (pte_at (kram s) root)) ∨
  (∃ s' l', map_turn root last perm (va, pa) s =
       Ok (if va =? last then inr 0 else inl (u64 (va + PGSIZE), u64 (pa + PGSIZE))) s' ∧
     pt_upd root s l s' l' (fset (pte_at (kram s) root) va (mkpte pa perm))).
Proof.
  intros Hinv Hwf Hva Hpa Hperm Hb. unfold map_turn.
  destruct (walk_alloc s l root va Hinv Hwf Hva) as (r & s1 & l1 & Hw & He & Hr).
  rewrite (bind_ok _ _ _ _ _ Hw). destruct Hr as [[-> ->]|[Hr Hs]].
  { left. exists s1. split; [done|by apply pt_ext_upd]. }
  right. replace (r =? 0) with false by lia. erewrite bind_ok by reflexivity.
  rewrite ctrue_land_V.
  assert (load64 (kram s1) r = pte_at (kram s) root va) as ->.
  { rewrite <- (pe_pte _ _ _ _ _ He). unfold pte_at. by rewrite Hs. }
  rewrite Hb. exists (pte_set s1 r (mkpte pa perm)), l1. split.
  { erewrite bind_ok by reflexivity. by destruct (va =? last). }
  eapply pt_upd_trans; [by apply pt_ext_upd|].
  apply (pt_upd_new _ _ _ _ _ (fset (pte_at (kram s1) root) va (mkpte pa perm))).
  { intros va' _. unfold fset. by rewrite (pe_pte _ _ _ _ _ He). }
  apply pte_set_upd; [apply He|apply He|done|done|by apply mkpte_range].
Qed.

(** mappages on [n] unmapped pages: all of them are mapped, or memory ran out
    after the first [k]. *)
Lemma mappages_loop (n fuel : nat) root s l va pa perm :
  (0 < n ≤ fuel)%nat → kmem_inv s l → pt_wf (kram s) root l →
  va mod PGSIZE = 0 → 0 ≤ va → va + Z.of_nat n * PGSIZE ≤ MAXVA →
  0 ≤ pa → pa + Z.of_nat n * PGSIZE ≤ 2 ^ 56 → 0 ≤ perm < 1024 →
  (∀ va', va ≤ va' < va + Z.of_nat n * PGSIZE → Z.testbit (pte_at (kram s) root va') 0 = false) →
  ∃ r s' l' k,
    loop fuel (map_turn root (va + (Z.of_nat n - 1) * PGSIZE) perm) (va, pa) s = Ok r s' ∧
    pt_upd root s l s' l' (fmap_range (pte_at (kram s) root) va k pa perm) ∧
    ((r = 0 ∧ k = Z.of_nat n) ∨ (r = -1 ∧ 0 ≤ k < Z.of_nat n ∧ l' = [])).
Proof.
  revert fuel s l va pa. induction n as [|n IH]; [lia|].
  intros [|fuel] s l va pa Hf Hinv Hwf Ha Hva Hva2 Hpa Hpa2 Hperm Hun; [lia|].
  assert (MAXVA = 2 ^ 38) as HM by done. assert (PGSIZE = 4096) as HP by done. cbn [loop].
  destruct (map_turn_spec root s l va pa perm (va + (Z.of_nat (S n) - 1) * PGSIZE))
    as [(s1 & Hr & Hu)|(s1 & l1 & Hr & Hu)]; try done; try lia.
  { apply Hun. lia. }
  { exists (-1), s1, [], 0. split_and!; [by rewrite (bind_ok _ _ _ _ _ Hr)| |right; split_and!; lia || done].
    eapply pt_upd_new; [|exact Hu]. intros. by rewrite fmap_range_0. }
  rewrite (bind_ok _ _ _ _ _ Hr). destruct n as [|n].
  { replace (va =? _) with true by lia. exists 0, s1, l1, 1. split_and!; [done| |left; done].
    eapply pt_upd_new; [|exact Hu]. intros va' _.
    rewrite <- (fmap_range_S _ va 0) by done. by rewrite fmap_range_0. }
  replace (va =? _) with false by lia. rewrite !u64_small by lia.
  destruct (IH fuel s1 l1 (va + PGSIZE) (pa + PGSIZE)) as (r & s2 & l2 & k & Hl & Hu2 & Hk);
    try lia; try done; try apply Hu.
  { rewrite <- (Z.mul_1_l PGSIZE) at 1. by rewrite Z.mod_add. }
  { intros va' Hv'. rewrite (pu_pte _ _ _ _ _ _ Hu) by lia. unfold fset. rewrite decide_False.
    - apply Hun. lia.
    - rewrite page_index_eq by done. lia. }
  exists r, s2, l2, (k + 1). split_and!.
  - replace (va + (Z.of_nat (S (S n)) - 1) * PGSIZE)
      with (va + PGSIZE + (Z.of_nat (S n) - 1) * PGSIZE) by lia. done.
  - eapply pt_upd_trans; [exact Hu|]. eapply pt_upd_new; [|exact Hu2].
    intros va' Hv'. rewrite <- fmap_range_S by (done || lia).
    unfold fmap_range. case_decide; [done|]. by apply (pu_pte _ _ _ _ _ _ Hu).
  - destruct Hk as [[-> ->]|(-> & Hk & ->)]; [left|right]; split_and!; lia || done.
Qed.

(** ** User address spaces *)

Definition UMAX : Z := TRAPFRAME / PGSIZE.

(** The physical page of user page [j]. *)
Definition upa (m : mem) (root j : Z) : Z := PTE2PA (pte_at m root (j * PGSIZE)).

(** [D] is a set of mapped user pages: each has a leaf entry to a page of its
    own, which is neither free nor a page-table page.  [uhole]: the other user
    pages below the trapframe are unmapped. *)
Record uspace (s : kmem) (l : list Z) (root : Z) (D : Z → Prop) : Prop := {
  us_inv : kmem_inv s l;
  us_wf : pt_wf (kram s) root l;
  us_dom : ∀ j, D j → 0 ≤ j < UMAX;
  us_page : ∀ j, D j → page_ok (upa (kram s) root j) ∧ (upa (kram s) root j ∉ l) ∧
    (∀ path, path_ok path → node (kram s) root path ≠ Some (upa (kram s) root j)) ∧
    ∃ perm, pte_at (kram s) root (j * PGSIZE) = mkpte (upa (kram s) root j) perm ∧
      0 ≤ perm < 1024 ∧ Z.lor perm 1 ≠ 1;
  us_inj : ∀ i j, D i → D j → upa (kram s) root i = upa (kram s) root j → i = j;
}.
Definition uhole (m : mem) (root : Z) (D : Z → Prop) : Prop := ∀ j,
  0 ≤ j < UMAX → ¬ D j → Z.testbit (pte_at m root (j * PGSIZE)) 0 = false.

(** The user pages of [D] keep their place and their bytes. *)
Definition usame (s s' : kmem) (root : Z) (D : Z → Prop) : Prop := ∀ j, D j →
  pte_at (kram s') root (j * PGSIZE) = pte_at (kram s) root (j * PGSIZE) ∧
  ∀ x, in_page (upa (kram s) root j) x → kram s' x = kram s x.

Lemma usame_trans s1 s2 s3 root D : usame s1 s2 root D → usame s2 s3 root D → usame s1 s3 root D.
Proof.
  intros H1 H2 j Hj. destruct (H1 j Hj) as [E1 B1], (H2 j Hj) as [E2 B2].
  split; [by rewrite E2|]. intros x Hx. rewrite B2; [by apply B1|]. unfold upa in *. by rewrite E1.
Qed.

Lemma usame_sub s s' root (D D' : Z → Prop) :
  (∀ j, D' j → D j) → usame s s' root D → usame s s' root D'.
Proof. intros Hs Hu j Hj. auto. Qed.

#[global] Instance uspace_proper s l root :
  Proper (pointwise_relation Z iff ==> iff) (uspace s l root).
Proof.
  assert (∀ D D', pointwise_relation Z iff D D' → uspace s l root D → uspace s l root D') as Hx.
  { intros D D' HD []. constructor; try done; repeat (intros ?); repeat match goal with
    | H : D' _ |- _ => apply HD in H | H : ¬ D' _ |- _ => rewrite <- (HD _) in H end; auto. }
  intros D D' HD. split; apply Hx; [done|]. intros j. by rewrite (HD j).
Qed.

(** A change outside the table's pages, to a state whose free pages are not
    in use here. *)
Lemma uspace_frame s l s' l' root D :
  uspace s l root D → kmem_inv s' l' →
  (∀ path p x, path_ok path → node (kram s) root path = Some p → in_page p x → kram s' x = kram s x) →
  (∀ p, p ∈ l' → p ∈ l ∨ (∀ path, path_ok path → node (kram s) root path ≠ Some p) ∧
                         ∀ j, D j → upa (kram s) root j ≠ p) →
  uspace s' l' root D ∧ (∀ va, pte_at (kram s') root va = pte_at (kram s) root va) ∧
  (∀ va, leaf_slot (kram s') root va = leaf_slot (kram s) root va) ∧ tkeep s s' root.
Proof.
  intros Hu Hinv Hx Hl. destruct (pt_frame (kram s) (kram s') root l (us_wf _ _ _ _ Hu) Hx) as [Hn Hp].
  assert (∀ j, upa (kram s') root j = upa (kram s) root j) as Hup by (intros; unfold upa; by rewrite Hp).
  split_and!; [|done|intros va; unfold leaf_slot; rewrite Hn; auto using path_ok_vpath|intros path q Ho; by rewrite Hn].
  constructor.
  - done.
  - apply (pt_wf_nodes (kram s)); [|done]. constructor; [|apply (us_wf _ _ _ _ Hu)].
    intros path p Ho Hpn. destruct (pw_page _ _ _ (us_wf _ _ _ _ Hu) path p Ho Hpn) as [? Hf].
    split; [done|]. intros Hpl. destruct (Hl p Hpl) as [?|[Hnn _]]; [done|]. by apply (Hnn path).
  - apply Hu.
  - intros j Hj. rewrite Hup, Hp. destruct (us_page _ _ _ _ Hu j Hj) as (Hok & Hf & Hnn & Hperm).
    split_and!; [done| | |done].
    + intros Hpl. destruct (Hl _ Hpl) as [?|[_ Hup2]]; [done|]. by apply (Hup2 j).
    + intros path Ho. rewrite Hn by done. auto.
  - intros i j. rewrite !Hup. apply Hu.
Qed.

Lemma page_index j : j * PGSIZE / PGSIZE = j.
Proof. by apply Z.div_mul. Qed.

Lemma UMAX_lt j : 0 ≤ j < UMAX → 0 ≤ j * PGSIZE < MAXVA ∧ (j + 1) * PGSIZE < 2 ^ 38.
Proof.
  change UMAX with 67108862. change MAXVA with (2 ^ 38). unfold PGSIZE. lia.
Qed.

(** Changing the entries of the table by [pt_upd] keeps the user pages whose
    entries stay, and adds or removes those whose entries change. *)
Lemma uspace_upd s l s' l' root D D' f :
  uspace s l root D → pt_upd root s l s' l' f →
  (∀ j, D' j → D j) → (∀ j, D' j → f (j * PGSIZE) = pte_at (kram s) root (j * PGSIZE)) →
  uspace s' l' root D' ∧ usame s s' root D'.
Proof.
  intros Hu Hp Hsub Hf.
  assert (∀ j, D' j → pte_at (kram s') root (j * PGSIZE) = pte_at (kram s) root (j * PGSIZE)) as Hpte.
  { intros j Hj. rewrite <- Hf by done. apply Hp. apply UMAX_lt, (us_dom _ _ _ _ Hu). auto. }
  assert (∀ j, D' j → upa (kram s') root j = upa (kram s) root j) as Hup.
  { intros j Hj. unfold upa. by rewrite Hpte. }
  assert (∀ q, q ∈ l' → q ∈ l) as Hl.
  { intros q Hq. destruct (pu_free _ _ _ _ _ _ Hp) as [k ->]. apply elem_of_app. by right. }
  split.
  - constructor.
    + apply Hp.
    + apply Hp.
    + intros j Hj. apply (us_dom _ _ _ _ Hu). auto.
    + intros j Hj. rewrite Hup, Hpte by done.
      destruct (us_page _ _ _ _ Hu j (Hsub j Hj)) as (Hok & Hfr & Hnn & Hperm).
      split_and!; [done|by auto| |done]. intros path Ho Hn.
      destruct (pu_new _ _ _ _ _ _ Hp path _ Ho Hn); [by eapply Hnn|done].
    + intros i j Hi Hj. rewrite !Hup by done. apply (us_inj _ _ _ _ Hu); auto.
  - intros j Hj. split; [by apply Hpte|]. intros x Hx.
    destruct (us_page _ _ _ _ Hu j (Hsub j Hj)) as (Hok & Hfr & Hnn & Hperm).
    apply (pu_frame _ _ _ _ _ _ Hp).
    + intros p Hpl Hpx. apply Hfr. rewrite (in_page_disjoint _ p x Hok); try done.
      eapply flist_page_ok; [apply Hu|done].
    + intros path p Ho Hn Hpx. destruct (pw_page _ _ _ (us_wf _ _ _ _ Hu) path p Ho Hn) as [Hpo _].
      apply (Hnn path Ho). by rewrite (in_page_disjoint _ p x Hok).
Qed.

(** One turn of uvmunmap with do_free on a mapped page: the page goes back to
    the allocator and its entry is cleared. *)
Lemma unmap_turn_run s l root D j stop :
  uspace s l root D → D j → j * PGSIZE < stop →
  let p := upa (kram s) root j in
  ∃ a, leaf_slot (kram s) root (j * PGSIZE) = Some a ∧
    unmap_turn root stop true (j * PGSIZE) s = Ok (inl ((j + 1) * PGSIZE)) (pte_set (kfreed s p) a 0) ∧
    kmem_inv (kfreed s p) (p :: l).
Proof.
  intros Hu Hj Hst. destruct (us_page _ _ _ _ Hu j Hj) as (Hok & Hfr & Hnn & perm & Hpte & Hperm & Hleaf).
  destruct (UMAX_lt j (us_dom _ _ _ _ Hu j Hj)) as [Hva Hva2].
  set (p := upa (kram s) root j) in *. pose proof (page_ok_pos p Hok) as Hpr.
  destruct (walk_valid s root l (j * PGSIZE)) as (a & Hw & Ha & Hs & Hl); try done; [apply Hu| |].
  { rewrite Hpte, mkpte_testbit by lia. apply orb_true_r. }
  destruct (kfree_ok s p l (us_inv _ _ _ _ Hu) Hok Hfr) as [Hk Hki].
  exists a. split_and!; [done| |done]. unfold unmap_turn.
  replace (j * PGSIZE <? stop) with true by lia.
  rewrite (bind_ok _ _ _ _ _ Hw). replace (a =? 0) with false by lia.
  erewrite bind_ok by reflexivity. rewrite Hl, land_V, Hpte, mkpte_testbit, mkpte_flags by lia.
  rewrite orb_true_r. cbn [negb]. change PTE_V with 1. replace (Z.lor perm 1 =? 1) with false by lia.
  destruct Hok as [Hal Hrg]. rewrite PTE2PA_mkpte by (done || lia).
  erewrite bind_ok by exact Hk. erewrite bind_ok by reflexivity.
  replace (u64 (j * PGSIZE + PGSIZE)) with ((j + 1) * PGSIZE); [done|].
  rewrite u64_small; plia.
Qed.

Lemma unmap_turn_free s l root D j stop :
  uspace s l root D → D j → j * PGSIZE < stop →
  ∃ s', unmap_turn root stop true (j * PGSIZE) s = Ok (inl ((j + 1) * PGSIZE)) s' ∧
    uspace s' (upa (kram s) root j :: l) root (λ i, D i ∧ i ≠ j) ∧
    usame s s' root (λ i, D i ∧ i ≠ j) ∧ tkeep s s' root ∧
    (∀ i, 0 ≤ i < UMAX → pte_at (kram s') root (i * PGSIZE) =
       if decide (i = j) then 0 else pte_at (kram s) root (i * PGSIZE)).
Proof.
  intros Hu Hj Hst. destruct (unmap_turn_run s l root D j stop Hu Hj Hst) as (a & Ha & Hrun & Hki).
  destruct (us_page _ _ _ _ Hu j Hj) as (Hok & Hfr & Hnn & _).
  set (p := upa (kram s) root j) in *.
  assert (uspace (kfreed s p) (p :: l) root (λ i, D i ∧ i ≠ j) ∧
          (∀ va, pte_at (kram (kfreed s p)) root va = pte_at (kram s) root va) ∧
          (∀ va, leaf_slot (kram (kfreed s p)) root va = leaf_slot (kram s) root va) ∧
          tkeep s (kfreed s p) root) as (Hu1 & Hp1 & Hl1 & Hk1).
  { apply (uspace_frame s l); [|done| |].
    - constructor; try apply Hu; intros i; [intros [? ?]; by apply Hu..|]. intros j'.
      intros [? ?] [? ?]. by apply Hu.
    - intros path q x Ho Hq Hx. apply kfree_other. intros Hpx. apply (Hnn path Ho).
      destruct (pw_page _ _ _ (us_wf _ _ _ _ Hu) path q Ho Hq) as [Hqo _].
      by rewrite (in_page_disjoint p q x).
    - intros q [->|Hq]%elem_of_cons; [right|by left]. split; [done|].
      intros i [Hi Hij] E. by apply Hij, (us_inj _ _ _ _ Hu). }
  destruct (UMAX_lt j (us_dom _ _ _ _ Hu j Hj)) as [Hva _].
  rewrite <- Hl1 in Ha.
  pose proof (pte_set_upd root (kfreed s p) (p :: l) (j * PGSIZE) a 0 Hki (us_wf _ _ _ _ Hu1) Ha Hva ltac:(lia)) as Hupd.
  assert (∀ i, fset (pte_at (kram (kfreed s p)) root) (j * PGSIZE) 0 (i * PGSIZE) =
     if decide (i = j) then 0 else pte_at (kram s) root (i * PGSIZE)) as Hf.
  { intros i. unfold fset. rewrite !page_index, Hp1. done. }
  destruct (uspace_upd _ _ _ _ root _ (λ i, D i ∧ i ≠ j) _ Hu1 Hupd) as [Hu2 Hs2].
  { done. }
  { intros i [Hi Hij]. rewrite Hf, Hp1. by rewrite decide_False. }
  exists (pte_set (kfreed s p) a 0). split_and!; [done|done| |by apply (tkeep_trans _ (kfreed s p)); [|apply Hupd]|].
  - apply (usame_trans _ (kfreed s p)); [|done]. intros i [Hi Hij]. split; [by rewrite Hp1|].
    intros x Hx. apply kfree_other. intros Hpx. apply Hij, (us_inj _ _ _ _ Hu); try done.
    destruct (us_page _ _ _ _ Hu i Hi) as (Hoki & _). by apply (in_page_disjoint _ _ x).
  - intros i Hi. rewrite (pu_pte _ _ _ _ _ _ Hupd) by (by apply UMAX_lt). apply Hf.
Qed.

Lemma unmap_turn_stop root stop b a s : stop ≤ a → unmap_turn root stop b a s = Ok (inr tt) s.
Proof. intros Hs. unfold unmap_turn. by replace (a <? stop) with false by lia. Qed.

(** The physical pages of the user pages from [a] below [b], the last one first. *)
Definition uphys (s : kmem) (root a b : Z) : list Z := reverse (upa (kram s) root <$> seqZ a (b - a)).

Lemma uphys_cons s root a b : a < b → uphys s root a b = uphys s root (a + 1) b ++ [upa (kram s) root a].
Proof.
  intros Hab. unfold uphys. rewrite seqZ_cons by lia. rewrite fmap_cons, reverse_cons.
  replace (Z.succ a) with (a + 1) by lia. by replace (Z.pred (b - a)) with (b - (a + 1)) by lia.
Qed.
Lemma uphys_same s s' root a b D : usame s s' root D → (∀ i, a ≤ i < b → D i) → uphys s' root a b = uphys s root a b.
Proof.
  intros Hs Hd. unfold uphys. f_equal. apply list_fmap_ext. intros k i Hi%list_elem_of_lookup_2%elem_of_seqZ.
  unfold upa. f_equal. apply Hs, Hd. lia.
Qed.
Lemma elem_of_uphys s root a b p : p ∈ uphys s root a b ↔ ∃ j, a ≤ j < b ∧ upa (kram s) root j = p.
Proof.
  unfold uphys. rewrite elem_of_reverse, list_elem_of_fmap. split.
  - intros (j & -> & Hj%elem_of_seqZ). exists j. split; [lia|done].
  - intros (j & Hj & <-). exists j. split; [done|]. apply elem_of_seqZ. lia.
Qed.
Lemma length_uphys s root a b : length (uphys s root a b) = Z.to_nat (b - a).
Proof. unfold uphys. by rewrite length_reverse, length_fmap, length_seqZ. Qed.

(** uvmunmap with do_free on the pages from [j] up to [j + n]. *)
Lemma unmap_loop_free (n fuel : nat) s l root D j :
  (n < fuel)%nat → uspace s l root D → uhole (kram s) root D →
  (∀ i, j ≤ i < j + Z.of_nat n → D i) →
  let D' := λ i, D i ∧ ¬ (j ≤ i < j + Z.of_nat n) in
  ∃ s', loop fuel (unmap_turn root ((j + Z.of_nat n) * PGSIZE) true) (j * PGSIZE) s = Ok tt s' ∧
    uspace s' (uphys s root j (j + Z.of_nat n) ++ l) root D' ∧ uhole (kram s') root D' ∧ usame s s' root D' ∧ tkeep s s' root.
Proof.
  revert fuel s l D j. induction n as [|n IH]; intros [|fuel] s l D j Hf Hu Hh Hd; try lia.
  - exists s. cbn [loop]. erewrite bind_ok by (apply unmap_turn_stop; plia).
    split_and!; try done; [|intros i Hi Hn; apply Hh; [done|]; intros ?; apply Hn; split; [done|lia]|by intros path].
    replace (uphys _ _ _ _) with (@nil Z) by (unfold uphys; by rewrite Z.add_0_r, Z.sub_diag).
    eapply uspace_proper; [|exact Hu]. intros i. split; [by intros []|]. intros. split; [done|lia].
  - destruct (unmap_turn_free s l root D j ((j + Z.of_nat (S n)) * PGSIZE) Hu) as (s1 & Hr & Hu1 & Hs1 & Hk1 & Hp1).
    { apply Hd. lia. }
    { plia. }
    destruct (IH fuel s1 (upa (kram s) root j :: l) (λ i, D i ∧ i ≠ j) (j + 1))
      as (s' & Hl & Hu2 & Hh2 & Hs2 & Hk2); [lia|done| | |].
    { intros i Hi Hn. rewrite Hp1 by done. case_decide; [by rewrite Z.bits_0|].
      apply Hh; [done|]. intros ?. by apply Hn. }
    { intros i Hi. split; [apply Hd; lia|lia]. }
    assert (pointwise_relation Z iff
      (λ i, (D i ∧ i ≠ j) ∧ ¬ (j + 1 ≤ i < j + 1 + Z.of_nat n))
      (λ i, D i ∧ ¬ (j ≤ i < j + Z.of_nat (S n)))) as HD.
    { intros i. split; intros HDi; destruct_and!; split_and!; try done; lia. }
    assert (uphys s root j (j + Z.of_nat (S n)) = uphys s1 root (j + 1) (j + 1 + Z.of_nat n) ++ [upa (kram s) root j]) as Eps.
    { rewrite uphys_cons by lia. f_equal. replace (j + Z.of_nat (S n)) with (j + 1 + Z.of_nat n) by lia. symmetry.
      eapply uphys_same; [exact Hs1|]. intros i Hi. split; [apply Hd; lia|lia]. }
    exists s'. split_and!.
    + cbn [loop]. rewrite (bind_ok _ _ _ _ _ Hr). cbv beta iota.
      replace (j + Z.of_nat (S n)) with (j + 1 + Z.of_nat n) by lia. exact Hl.
    + rewrite Eps, <- app_assoc. eapply uspace_proper; [|exact Hu2]. intros i. symmetry. apply HD.
    + intros i Hi Hn. apply Hh2; [done|]. intros ?. by apply Hn, HD.
    + apply (usame_trans _ s1).
      * eapply usame_sub; [|exact Hs1]. intros i [? ?]. split; [done|lia].
      * eapply usame_sub; [|exact Hs2]. intros i. apply HD.
    + by apply (tkeep_trans _ s1).
Qed.

(** A user address space of [n] pages from address 0 and nothing above them
    up to the trapframe. *)
Definition upages (n : Z) : Z → Prop := λ j, 0 ≤ j < n.
Definition space (s : kmem) (l : list Z) (root n : Z) : Prop :=
  0 ≤ n ≤ UMAX ∧ uspace s l root (upages n) ∧ uhole (kram s) root (upages n).

(** The pages of a process of [sz] bytes. *)
Definition npages (sz : Z) : Z := PGROUNDUP sz / PGSIZE.

Lemma npages_spec sz : 0 ≤ sz ≤ TRAPFRAME →
  PGROUNDUP sz = npages sz * PGSIZE ∧ sz ≤ npages sz * PGSIZE < sz + PGSIZE ∧ 0 ≤ npages sz ≤ UMAX.
Proof.
  change TRAPFRAME with (67108862 * 4096). change UMAX with 67108862. intros Hs.
  pose proof (PGROUNDUP_bounds sz ltac:(plia)) as Hb.
  pose proof (PGROUNDUP_aligned sz ltac:(plia)) as Ha.
  apply Z.div_exact in Ha; [|done]. unfold npages. unfold PGSIZE in *. lia.
Qed.

Lemma uspace_add s l root D p j perm :
  uspace s l root D → 0 ≤ j < UMAX → page_ok p → p ∉ l →
  (∀ path, path_ok path → node (kram s) root path ≠ Some p) →
  (∀ i, D i → upa (kram s) root i ≠ p) →
  pte_at (kram s) root (j * PGSIZE) = mkpte p perm → 0 ≤ perm < 1024 → Z.lor perm 1 ≠ 1 →
  uspace s l root (λ i, D i ∨ i = j).
Proof.
  intros Hu Hj Hok Hl Hn Hd Hp Hperm Hne.
  assert (upa (kram s) root j = p) as Hup.
  { unfold upa. rewrite Hp. pose proof (page_ok_pos p Hok). apply PTE2PA_mkpte; [lia|apply Hok|done]. }
  constructor.
  - apply Hu.
  - apply Hu.
  - intros i [Hi| ->]; [by apply Hu|done].
  - intros i [Hi| ->]; [by apply Hu|]. rewrite Hup. split_and!; try done. by exists perm.
  - intros i i' [Hi| ->] [Hi'| ->]; rewrite ?Hup; try done.
    + by apply (us_inj _ _ _ _ Hu).
    + intros E. by apply Hd in E.
    + intros E. symmetry in E. by apply Hd in E.
Qed.

Lemma uvmdealloc_pages s l root m n oldsz newsz :
  space s l root m → 0 ≤ n ≤ m → PGROUNDUP oldsz = m * PGSIZE → PGROUNDUP newsz = n * PGSIZE →
  newsz < oldsz →
  ∃ s', uvmdealloc root oldsz newsz s = Ok newsz s' ∧ space s' (uphys s root n m ++ l) root n ∧
    usame s s' root (upages n) ∧ tkeep s s' root.
Proof.
  intros (Hm & Hu & Hh) Hn Ho Hw Hlt. unfold uvmdealloc. replace (newsz >=? oldsz) with false by lia.
  rewrite Ho, Hw. change UMAX with 67108862 in Hm. destruct (n * PGSIZE <? m * PGSIZE) eqn:E.
  - replace ((m * PGSIZE - n * PGSIZE) / PGSIZE) with (m - n)
      by (rewrite <- Z.mul_sub_distr_r; by rewrite Z.div_mul).
    rewrite s32_small by lia.
    assert (n * PGSIZE + (m - n) * PGSIZE = m * PGSIZE) as Hst by lia.
    destruct (unmap_loop_free (Z.to_nat (m - n)) (S (Z.to_nat (m - n))) s l root (upages m) n)
      as (s' & Hl & Hu' & Hh' & Hs' & Hk'); try done; [lia|unfold upages; lia|].
    assert (pointwise_relation Z iff (λ i, upages m i ∧ ¬ n ≤ i < n + Z.of_nat (Z.to_nat (m - n))) (upages n))
      as HD by (intros i; unfold upages; lia).
    replace (n + Z.of_nat (Z.to_nat (m - n))) with m in Hl, Hu' by lia.
    exists s'. split_and!.
    + unfold uvmunmap. rewrite Z.mod_mul by done. cbn [negb Z.eqb].
      rewrite Hst, u64_small by plia. by rewrite (bind_ok _ _ _ _ _ Hl).
    + split; [change UMAX with 67108862; lia|]. split.
      * eapply uspace_proper; [|exact Hu']. intros i. unfold upages. lia.
      * intros i Hi Hni. apply Hh'; [done|]. intros ?. by apply Hni, HD.
    + eapply usame_sub; [|exact Hs']. intros i. apply HD.
    + done.
  - assert (m = n) as -> by plia. exists s. unfold uphys. rewrite Z.sub_diag. split_and!; [done|done|done|apply tkeep_refl].
Qed.

(** A page just taken from the allocator and cleared. *)
Definition fresh_page (s : kmem) (p : Z) : kmem :=
  set_ram (λ m, memset m p 0 PGSIZE) (kalloced s p).

Lemma fresh_page_other s p x : ¬ in_page p x → kram (fresh_page s p) x = kram s x.
Proof. intros Hx. simpl. by rewrite !memset_other. Qed.

Lemma fresh_page_inv s p l : kmem_inv s (p :: l) → kmem_inv (fresh_page s p) l.
Proof.
  intros Hi. destruct (kalloc_cons s p l Hi) as (_ & Hk & Hp & Hn).
  apply (kmem_inv_frame (kalloced s p) l _ Hk); [apply memset_byte, Hk|].
  intros q x Hq Hx. apply memset_other. intros Hpx. apply Hn.
  rewrite (in_page_disjoint p q x); try done. eapply flist_page_ok; [apply Hk|done].
Qed.

Lemma space_mem s l s' l' root n :
  space s l root n → kmem_inv s' l' →
  (∀ path p x, path_ok path → node (kram s) root path = Some p → in_page p x → kram s' x = kram s x) →
  (∀ j x, upages n j → in_page (upa (kram s) root j) x → kram s' x = kram s x) →
  (∀ p, p ∈ l' → p ∈ l ∨ (∀ path, path_ok path → node (kram s) root path ≠ Some p) ∧
                         ∀ j, upages n j → upa (kram s) root j ≠ p) →
  space s' l' root n ∧ usame s s' root (upages n) ∧ tkeep s s' root.
Proof.
  intros (Hn & Hu & Hh) Hinv Ht Hb Hl.
  destruct (uspace_frame s l s' l' root _ Hu Hinv Ht Hl) as (Hu' & Hp & _ & Hk). split_and!; [| |done].
  - split; [done|]. split; [done|]. intros j Hj Hd. rewrite Hp. by apply Hh.
  - intros j Hj. split; [by rewrite Hp|]. intros x. by apply Hb.
Qed.

Lemma space_fresh s p l root n :
  space s (p :: l) root n →
  space (fresh_page s p) l root n ∧ usame s (fresh_page s p) root (upages n) ∧ tkeep s (fresh_page s p) root ∧
  (∀ path, path_ok path → node (kram (fresh_page s p)) root path ≠ Some p) ∧
  (∀ j, upages n j → upa (kram (fresh_page s p)) root j ≠ p).
Proof.
  intros Hsp. pose proof Hsp as (Hn & Hu & Hh).
  destruct (kalloc_cons s p l (us_inv _ _ _ _ Hu)) as (_ & _ & Hp & Hnl).
  assert (∀ path, path_ok path → node (kram s) root path ≠ Some p) as Hnode.
  { intros path Ho E. destruct (pw_page _ _ _ (us_wf _ _ _ _ Hu) path p Ho E) as [_ Hf]. apply Hf. by left. }
  assert (∀ j, upages n j → upa (kram s) root j ≠ p) as Hup.
  { intros j Hj E. destruct (us_page _ _ _ _ Hu j Hj) as (_ & Hf & _). apply Hf. rewrite E. by left. }
  assert (∀ path q x, path_ok path → node (kram s) root path = Some q → in_page q x →
     kram (fresh_page s p) x = kram s x) as Ht.
  { intros path q x Ho Hq Hx. apply fresh_page_other. intros Hpx.
    destruct (pw_page _ _ _ (us_wf _ _ _ _ Hu) path q Ho Hq) as [Hqo _].
    apply (Hnode path Ho). by rewrite (in_page_disjoint p q x). }
  destruct (space_mem s (p :: l) (fresh_page s p) l root n Hsp) as (Hs' & Hsame & Hkeep).
  - apply fresh_page_inv, Hu.
  - done.
  - intros j x Hj Hx. apply fresh_page_other. intros Hpx.
    apply (Hup j Hj). destruct (us_page _ _ _ _ Hu j Hj) as (Hok & _). by apply (in_page_disjoint _ _ x).
  - intros q Hq. left. by right.
  - destruct (pt_frame _ _ root _ (us_wf _ _ _ _ Hu) Ht) as [Hn2 Hp2]. split_and!; [done|done|done| |].
    + intros path Ho. rewrite Hn2 by done. auto.
    + intros j Hj. unfold upa in *. rewrite Hp2. auto.
Qed.

(** Mapping the fresh page [p] as user page [n]: done, or memory ran out. *)
Lemma space_grow s p l root n perm :
  space s (p :: l) root n → n < UMAX → 0 ≤ perm < 1024 → Z.lor perm 1 ≠ 1 →
  (∃ s' l', mappages root (n * PGSIZE) PGSIZE p perm (fresh_page s p) = Ok 0 s' ∧
     l' `suffix_of` l ∧ space s' l' root (n + 1) ∧ usame s s' root (upages n) ∧
     pte_at (kram s') root (n * PGSIZE) = mkpte p perm ∧ (∀ x, in_page p x → kram s' x = 0) ∧
     tkeep s s' root ∧ (∀ q, q ∈ l → q ∈ l' ∨ in_table (kram s') root q)) ∨
  (∃ s', mappages root (n * PGSIZE) PGSIZE p perm (fresh_page s p) = Ok (-1) s' ∧
     space s' [] root n ∧ usame s s' root (upages n) ∧ page_ok p ∧
     (∀ path, path_ok path → node (kram s') root path ≠ Some p) ∧
     (∀ j, upages n j → upa (kram s') root j ≠ p) ∧
     tkeep s s' root ∧ (∀ q, q ∈ l → in_table (kram s') root q)).
Proof.
  intros Hsp Hmax Hperm Hne. pose proof Hsp as (Hn0 & Hu0 & _).
  destruct (kalloc_cons s p l (us_inv _ _ _ _ Hu0)) as (_ & _ & Hp & Hnl).
  destruct (space_fresh s p l root n Hsp) as (Hs1 & Hsame1 & Hkeep1 & Hnode & Hup).
  assert (∀ x, in_page p x → kram (fresh_page s p) x = 0) as Hz
    by (intros x Hx; unfold fresh_page; simpl; by rewrite memset_in).
  set (s1 := fresh_page s p) in *. clearbody s1. pose proof Hs1 as (_ & Hu1 & Hh1).
  pose proof (page_ok_pos p Hp) as Hpr. destruct (UMAX_lt n) as [Hva Hva2]; [lia|].
  assert (PGSIZE = 4096) as HPG by done. assert (MAXVA = 2 ^ 38) as HMX by done.
  assert (n * PGSIZE mod PGSIZE = 0) as Hal by (by apply Z.mod_mul).
  assert (∀ k j, upages n j → 0 ≤ k → fmap_range (pte_at (kram s1) root) (n * PGSIZE) k p perm (j * PGSIZE)
      = pte_at (kram s1) root (j * PGSIZE)) as Hf.
  { intros k j Hj Hk. unfold fmap_range. rewrite decide_False; [done|]. unfold upages in Hj. nia. }
  assert (mappages root (n * PGSIZE) PGSIZE p perm s1 =
    loop 1 (map_turn root (n * PGSIZE + (Z.of_nat 1 - 1) * PGSIZE) perm) (n * PGSIZE, p) s1) as ->.
  { unfold mappages. rewrite Hal, u64_small by plia. cbn [negb Z.eqb].
    replace (n * PGSIZE + PGSIZE - PGSIZE) with (n * PGSIZE + (Z.of_nat 1 - 1) * PGSIZE) by lia. done. }
  destruct (mappages_loop 1 1 root s1 l (n * PGSIZE) p perm) as (r & s2 & l2 & k & Hr & Hupd & Hk);
    try lia; [apply Hu1|apply Hu1|destruct Hp as [_ ?]; plia| |].
  { intros va' Hv. replace (pte_at (kram s1) root va') with (pte_at (kram s1) root (n * PGSIZE)).
    - apply Hh1; [lia|]. unfold upages. lia.
    - apply pte_at_page. symmetry. apply page_index_eq; [done|lia]. }
  destruct (uspace_upd s1 l s2 l2 root (upages n) (upages n) _ Hu1 Hupd) as [Hu2 Hs2]; [done| |].
  { intros j Hj. apply Hf; [done|]. destruct Hk as [[_ ->]|(_ & ? & _)]; lia. }
  pose proof (usame_trans _ _ _ _ _ Hsame1 Hs2) as Hsame.
  pose proof (tkeep_trans _ _ _ _ Hkeep1 (pu_mono _ _ _ _ _ _ Hupd)) as Hkeep.
  assert (∀ path, path_ok path → node (kram s2) root path ≠ Some p) as Hnode2.
  { intros path Ho E. destruct (pu_new _ _ _ _ _ _ Hupd path p Ho E); [by eapply Hnode|done]. }
  assert (∀ j, upages n j → upa (kram s2) root j ≠ p) as Hup2.
  { intros j Hj. unfold upa in *. rewrite (proj1 (Hs2 j Hj)). auto. }
  assert (∀ j, ¬ upages (n + k) j → 0 ≤ j < UMAX → pte_at (kram s2) root (j * PGSIZE) =
            pte_at (kram s1) root (j * PGSIZE)) as Hrest.
  { intros j Hj HjU. rewrite (pu_pte _ _ _ _ _ _ Hupd) by (by apply UMAX_lt).
    unfold fmap_range. rewrite decide_False; [done|]. unfold upages in Hj. nia. }
  destruct Hk as [[-> ->]|(-> & Hk & ->)].
  - left. exists s2, l2.
    assert (pte_at (kram s2) root (n * PGSIZE) = mkpte p perm) as Hpte.
    { rewrite (pu_pte _ _ _ _ _ _ Hupd) by done. unfold fmap_range. rewrite decide_True by lia.
      rewrite Z.sub_diag. by rewrite Z.add_0_r. }
    split_and!; [done|apply Hupd| |done|done| |done|apply Hupd].
    + split; [lia|]. split.
      * eapply uspace_proper; [|apply (uspace_add _ _ _ _ p n perm Hu2); try done; try lia].
        -- intros j. unfold upages. lia.
        -- intros Hin. apply Hnl. destruct (pu_free _ _ _ _ _ _ Hupd) as [k' ->].
           apply elem_of_app. by right.
      * intros j Hj Hd. rewrite Hrest by done. apply Hh1; [done|]. unfold upages in *. lia.
    + intros x Hx. rewrite (pu_frame _ _ _ _ _ _ Hupd); [by apply Hz| |].
      * intros q Hq Hqx. apply Hnl. rewrite (in_page_disjoint p q x); try done.
        eapply flist_page_ok; [apply Hu1|done].
      * intros path q Ho Hq Hqx. apply (Hnode path Ho).
        destruct (pw_page _ _ _ (us_wf _ _ _ _ Hu1) path q Ho Hq) as [Hqo _].
        by rewrite (in_page_disjoint p q x).
  - right. exists s2. split_and!; try done; try lia.
    2:{ intros q Hq. destruct (pu_used _ _ _ _ _ _ Hupd q Hq) as [[]%elem_of_nil|]; done. }
    split; [lia|]. split; [done|]. intros j Hj Hd. replace k with 0 in Hrest by lia.
    rewrite Hrest by (done || (by rewrite Z.add_0_r)). by apply Hh1.
Qed.

Lemma uvmdealloc_back s l root n o :
  space s l root n → 0 ≤ o ≤ n →
  ∃ r s', uvmdealloc root (n * PGSIZE) (o * PGSIZE) s = Ok r s' ∧ space s' (uphys s root o n ++ l) root o ∧
    usame s s' root (upages o) ∧ tkeep s s' root.
Proof.
  intros Hs Ho. pose proof Hs as (Hn & _). change UMAX with 67108862 in Hn.
  destruct (decide (o = n)) as [->|Hne].
  - exists (n * PGSIZE), s. unfold uphys. rewrite Z.sub_diag. split_and!; [|done|done|apply tkeep_refl]. unfold uvmdealloc.
    by replace (_ >=? _) with true by plia.
  - destruct (uvmdealloc_pages s l root n o (n * PGSIZE) (o * PGSIZE)) as (s' & Hr & Hs' & Hsm & Hk);
      try done; try plia; try (apply PGROUNDUP_id; [plia|by apply Z.mod_mul]).
    by exists (o * PGSIZE), s'.
Qed.

(** The permissions of a page uvmalloc maps. *)
Definition uperm (xperm : Z) : Z := Z.lor (Z.lor PTE_R PTE_U) xperm.

Lemma uperm_ok xperm : 0 ≤ xperm < 1024 → 0 ≤ uperm xperm < 1024 ∧ Z.lor (uperm xperm) 1 ≠ 1.
Proof.
  intros Hx. split.
  - apply lor_small; [done|lia].
  - intros E. apply (f_equal (λ v, Z.testbit v 4)) in E. unfold uperm in E.
    rewrite !Z.lor_spec in E. discriminate.
Qed.

(** The user pages from [a] below [b] are zero. *)
Definition uzero (s : kmem) (root a b : Z) : Prop := ∀ j x,
  a ≤ j < b → in_page (upa (kram s) root j) x → kram s x = 0.

(** What uvmalloc makes of a process of [o] pages and the free pages [l], with the state
    [s]: the process has [n] pages and the free pages are [l'].  The pages it had are as
    they were; the new ones are zero, readable by the user with the permissions asked
    for, and were free pages; and each free page is still free, or a page of the page
    table, or one of the new pages. *)
Record grown (root xperm o : Z) (s : kmem) (l : list Z) (n : Z) (s' : kmem) (l' : list Z) : Prop := {
  gr_space : space s' l' root n;
  gr_same : usame s s' root (upages o);
  gr_zero : uzero s' root o n;
  gr_perm : ∀ j, o ≤ j < n → pte_at (kram s') root (j * PGSIZE) = mkpte (upa (kram s') root j) (uperm xperm);
  gr_from : ∀ j, o ≤ j < n → upa (kram s') root j ∈ l;
  gr_free : l' `suffix_of` l;
  gr_all : ∀ p, p ∈ l → p ∈ l' ∨ in_table (kram s') root p ∨ ∃ j, o ≤ j < n ∧ upa (kram s') root j = p;
}.

(** The process is back to its [o] pages: they are as they were, and each free page is
    free again, or a page of the page table, which keeps the pages it has been given.
    There is no free page that was not free before. *)
Record undone (root o : Z) (s : kmem) (l : list Z) (s' : kmem) (l' : list Z) : Prop := {
  ud_space : space s' l' root o;
  ud_same : usame s s' root (upages o);
  ud_from : ∀ p, p ∈ l' → p ∈ l;
  ud_all : ∀ p, p ∈ l → p ∈ l' ∨ in_table (kram s') root p;
}.

Lemma grown_refl root xperm o s l : space s l root o → grown root xperm o s l o s l.
Proof. intros Hs. constructor; [done|done|intros j x Hj; lia|intros j Hj; lia|intros j Hj; lia|done|by left]. Qed.

(** One more page. *)
Lemma grown_page root xperm o s0 l0 n s p l s' l' :
  grown root xperm o s0 l0 n s (p :: l) → page_ok p → 0 ≤ o ≤ n → 0 ≤ xperm < 1024 →
  l' `suffix_of` l → space s' l' root (n + 1) → usame s s' root (upages n) →
  pte_at (kram s') root (n * PGSIZE) = mkpte p (uperm xperm) → (∀ x, in_page p x → kram s' x = 0) →
  tkeep s s' root → (∀ q, q ∈ l → q ∈ l' ∨ in_table (kram s') root q) →
  grown root xperm o s0 l0 (n + 1) s' l'.
Proof.
  intros Hg Hp Ho Hx Hl Hs' Hsm Hpte Hz Hk Hu. destruct (uperm_ok xperm Hx) as [Hp1 _]. pose proof (page_ok_pos p Hp) as Hpr.
  assert (upa (kram s') root n = p) as Hn by (unfold upa; rewrite Hpte; apply PTE2PA_mkpte; [lia|apply Hp|done]).
  assert (∀ j, 0 ≤ j < n → upa (kram s') root j = upa (kram s) root j) as Hup.
  { intros j Hj. unfold upa. f_equal. by apply Hsm. }
  destruct (gr_free _ _ _ _ _ _ _ _ Hg) as [k Ek]. constructor.
  - done.
  - eapply usame_trans; [apply Hg|]. eapply usame_sub; [|exact Hsm]. unfold upages. lia.
  - intros j x Hj. destruct (decide (j = n)) as [->|]; [rewrite Hn; apply Hz|]. rewrite Hup by lia. intros Hin.
    rewrite (proj2 (Hsm j ltac:(unfold upages; lia))) by done. apply (gr_zero _ _ _ _ _ _ _ _ Hg j); [lia|done].
  - intros j Hj. destruct (decide (j = n)) as [->|]; [by rewrite Hn|]. rewrite Hup by lia.
    rewrite (proj1 (Hsm j ltac:(unfold upages; lia))). apply (gr_perm _ _ _ _ _ _ _ _ Hg). lia.
  - intros j Hj. destruct (decide (j = n)) as [->|].
    + rewrite Hn, Ek. apply elem_of_app. right. by left.
    + rewrite Hup by lia. apply (gr_from _ _ _ _ _ _ _ _ Hg). lia.
  - etrans; [exact Hl|]. exists (k ++ [p]). by rewrite <- app_assoc.
  - intros q Hq. destruct (gr_all _ _ _ _ _ _ _ _ Hg q Hq) as [[->|Hq']%elem_of_cons|[Ht|(j & Hj & Ej)]].
    + right. right. exists n. split; [lia|done].
    + destruct (Hu q Hq'); auto.
    + right. left. by apply (in_table_keep s).
    + right. right. exists j. split; [lia|]. by rewrite Hup by lia.
Qed.

(** The pages above [o] given back, and with them [ps] of the pages [l] that were free. *)
Lemma grown_undone root xperm o s0 l0 n s l s' ps s1 :
  grown root xperm o s0 l0 n s l → 0 ≤ o ≤ n → usame s s1 root (upages n) → tkeep s s1 root →
  (∀ q, q ∈ ps → q ∈ l) → (∀ q, q ∈ l → q ∈ ps ∨ in_table (kram s1) root q) →
  space s' (uphys s1 root o n ++ ps) root o → usame s1 s' root (upages o) → tkeep s1 s' root →
  undone root o s0 l0 s' (uphys s1 root o n ++ ps).
Proof.
  intros Hg Ho Hsm Hk Hps Hl Hs' Hsm' Hk'. destruct (gr_free _ _ _ _ _ _ _ _ Hg) as [k Ek].
  assert (uphys s1 root o n = uphys s root o n) as E by (eapply uphys_same; [exact Hsm|unfold upages; lia]). rewrite E in *. constructor.
  - done.
  - eapply usame_trans; [apply Hg|]. eapply usame_trans; [|exact Hsm']. eapply usame_sub; [|exact Hsm]. unfold upages. lia.
  - intros p [(j & Hj & <-)%elem_of_uphys|Hp]%elem_of_app.
    + by apply (gr_from _ _ _ _ _ _ _ _ Hg).
    + rewrite Ek. apply elem_of_app. right. auto.
  - intros p Hp. rewrite elem_of_app, elem_of_uphys. destruct (gr_all _ _ _ _ _ _ _ _ Hg p Hp) as [Hq|[Ht|Hj]]; [|right|by auto].
    + destruct (Hl p Hq); [by auto|right]. by apply (in_table_keep s1).
    + apply (in_table_keep s1); [done|]. by apply (in_table_keep s).
Qed.

(** A page that mappages could not map is given back. *)
Lemma space_kfree s p root n :
  space s [] root n → page_ok p → (∀ path, path_ok path → node (kram s) root path ≠ Some p) →
  (∀ j, upages n j → upa (kram s) root j ≠ p) →
  kfree p s = Ok tt (kfreed s p) ∧ space (kfreed s p) [p] root n ∧ usame s (kfreed s p) root (upages n) ∧ tkeep s (kfreed s p) root.
Proof.
  intros Hs Hp Hnode Hup. pose proof Hs as (_ & Hu & _).
  destruct (kfree_ok s p [] (us_inv _ _ _ _ Hu) Hp) as [Hf Hfi]; [by intros ?%elem_of_nil|]. split; [done|].
  apply (space_mem s [] (kfreed s p) [p] root n Hs Hfi).
  - intros path q x Hpo Hq Hqx. apply kfree_other. intros Hpx.
    destruct (pw_page _ _ _ (us_wf _ _ _ _ Hu) path q Hpo Hq) as [Hqo _].
    apply (Hnode path Hpo). by rewrite (in_page_disjoint p q x).
  - intros j x Hj Hqx. apply kfree_other. intros Hpx. apply (Hup j Hj).
    destruct (us_page _ _ _ _ Hu j Hj) as (Hok & _). by apply (in_page_disjoint _ _ x).
  - intros q ->%list_elem_of_singleton. by right.
Qed.

(** One turn of uvmalloc: a page more, or memory ran out and the pages above [o] are
    given back. *)
Lemma uvmalloc_turn_spec s0 l0 s l root n o newsz xperm :
  grown root xperm o s0 l0 n s l → 0 ≤ o ≤ n → n < UMAX → n * PGSIZE < newsz → 0 ≤ xperm < 1024 →
  (∃ s' l', uvmalloc_turn root (o * PGSIZE) newsz xperm (n * PGSIZE) s = Ok (inl ((n + 1) * PGSIZE)) s' ∧
     grown root xperm o s0 l0 (n + 1) s' l') ∨
  (∃ s' l', uvmalloc_turn root (o * PGSIZE) newsz xperm (n * PGSIZE) s = Ok (inr 0) s' ∧
     undone root o s0 l0 s' l' ∧ Z.of_nat (length l') ≤ n - o + 1).
Proof.
  intros Hg Ho Hn Hlt Hx. destruct (uperm_ok xperm Hx) as [Hp1 Hp2].
  pose proof (gr_space _ _ _ _ _ _ _ _ Hg) as Hs. pose proof Hs as (Hn0 & Hu & _). unfold uvmalloc_turn.
  replace (_ <? newsz) with true by lia. destruct l as [|p l].
  { right. destruct (uvmdealloc_back s [] root n o Hs Ho) as (r & s' & Hr & Hs' & Hsm & Hk).
    exists s', (uphys s root o n ++ []). split_and!.
    - erewrite bind_ok by (apply kalloc_empty, Hu). cbn [Z.eqb]. by rewrite (bind_ok _ _ _ _ _ Hr).
    - apply (grown_undone root xperm o s0 l0 n s []); auto using tkeep_refl. by intros j.
    - rewrite length_app, length_uphys. simpl. lia. }
  destruct (kalloc_cons s p l (us_inv _ _ _ _ Hu)) as (Hka & _ & Hp & _).
  pose proof (page_ok_pos p Hp) as Hpr. rewrite (bind_ok _ _ _ _ _ Hka).
  replace (p =? 0) with false by lia. erewrite bind_ok by reflexivity.
  change (set_ram _ (kalloced s p)) with (fresh_page s p). change (Z.lor (Z.lor _ _) xperm) with (uperm xperm).
  destruct (space_grow s p l root n (uperm xperm) Hs Hn Hp1 Hp2)
    as [(s2 & l2 & Hm & Hl2 & Hs2 & Hsm & Hpte & Hz & Hk & Hus)|(s2 & Hm & Hs2 & Hsm & _ & Hnode & Hup & Hk & Hus)];
    rewrite (bind_ok _ _ _ _ _ Hm); cbn [ctrue Z.eqb negb].
  - left. exists s2, l2. split; [|by apply (grown_page root xperm o s0 l0 n s p l)].
    replace (u64 (n * PGSIZE + PGSIZE)) with ((n + 1) * PGSIZE); [done|].
    destruct (UMAX_lt n); [lia|]. rewrite u64_small; plia.
  - right. destruct (space_kfree s2 p root n Hs2 Hp Hnode Hup) as (Hf & Hs3 & Hsm3 & Hk3).
    destruct (uvmdealloc_back _ _ root n o Hs3 Ho) as (r & s' & Hr & Hs' & Hsm' & Hk').
    exists s', (uphys (kfreed s2 p) root o n ++ [p]). split_and!.
    + rewrite (bind_ok _ _ _ _ _ Hf). by rewrite (bind_ok _ _ _ _ _ Hr).
    + apply (grown_undone root xperm o s0 l0 n s (p :: l)); try done.
      * by apply (usame_trans _ s2).
      * by apply (tkeep_trans _ s2).
      * intros q ->%list_elem_of_singleton. by left.
      * intros q [->|Hq]%elem_of_cons; [left; by left|right]. apply (in_table_keep s2); auto.
    + rewrite length_app, length_uphys. simpl. lia.
Qed.

Lemma uvmalloc_loop (k fuel : nat) s0 l0 s l root n o newsz xperm :
  (k < fuel)%nat → grown root xperm o s0 l0 n s l → 0 ≤ o ≤ n → 0 ≤ newsz ≤ TRAPFRAME →
  n + Z.of_nat k = npages newsz → 0 ≤ xperm < 1024 →
  (∃ s' l', loop fuel (uvmalloc_turn root (o * PGSIZE) newsz xperm) (n * PGSIZE) s = Ok newsz s' ∧
     grown root xperm o s0 l0 (npages newsz) s' l') ∨
  (∃ s' l', loop fuel (uvmalloc_turn root (o * PGSIZE) newsz xperm) (n * PGSIZE) s = Ok 0 s' ∧
     undone root o s0 l0 s' l' ∧ Z.of_nat (length l') ≤ npages newsz - o).
Proof.
  intros Hf Hg Ho Hsz Hk Hx. destruct (npages_spec newsz Hsz) as (_ & Hnp & Hmax).
  revert fuel s l n Hf Hg Ho Hk. induction k as [|k IH]; intros [|fuel] s l n Hf Hg Ho Hk; try lia; cbn [loop].
  - left. exists s, l. replace (npages newsz) with n by lia. split; [|done].
    unfold uvmalloc_turn. replace (n * PGSIZE <? newsz) with false; [done|]. plia.
  - destruct (uvmalloc_turn_spec s0 l0 s l root n o newsz xperm Hg Ho)
      as [(s1 & l1 & Hr & Hg1)|(s1 & l1 & Hr & Hu1 & Hl1)]; try lia; try done; [plia| |].
    + rewrite (bind_ok _ _ _ _ _ Hr). apply (IH fuel s1 l1 (n + 1)); lia || done.
    + right. exists s1, l1. rewrite (bind_ok _ _ _ _ _ Hr). split_and!; [done|done|lia].
Qed.

(** ** User memory as the kernel sees it *)

Definition ureadable (m : mem) (root va : Z) : bool :=
  (va <? MAXVA) && Z.testbit (pte_at m root va) 0 && Z.testbit (pte_at m root va) 4.
Definition uwritable (m : mem) (root va : Z) : bool :=
  ureadable m root va && Z.testbit (pte_at m root va) 2.

(** The physical address of the byte of user memory at [va], and the byte. *)
Definition uaddr (m : mem) (root va : Z) : Z := PTE2PA (pte_at m root va) + va mod PGSIZE.
Definition ubyte (m : mem) (root va : Z) : Z := m (uaddr m root va).

(** The trapframe and trampoline pages are not open to user code. *)
Definition kernel_only (m : mem) (root : Z) : Prop :=
  ∀ va, TRAPFRAME ≤ va < MAXVA → Z.testbit (pte_at m root va) 4 = false.

Lemma readable_upage s l root n va :
  space s l root n → kernel_only (kram s) root → 0 ≤ va → ureadable (kram s) root va = true →
  upages n (va / PGSIZE).
Proof.
  intros (Hn & Hu & Hh) Hko Hva Hr. unfold ureadable in Hr.
  apply andb_true_iff in Hr as [[Hm Hv]%andb_true_iff Hub].
  destruct (decide (upages n (va / PGSIZE))) as [|Hnot]; [done|exfalso].
  destruct (decide (va / PGSIZE < UMAX)) as [Hlt|Hge].
  - pose proof (Hh (va / PGSIZE)) as Hf. rewrite (pte_at_page _ _ va) in Hf by apply page_index.
    rewrite Hf in Hv; [done| |done]. split; [apply Z.div_pos; [done|done]|done].
  - rewrite Hko in Hub; [done|]. split; [|lia]. change TRAPFRAME with (UMAX * PGSIZE).
    pose proof (Z.mul_div_le va PGSIZE ltac:(done)). plia.
Qed.

Lemma ubyte_page m root va : ubyte m root va = m (upa m root (va / PGSIZE) + va mod PGSIZE).
Proof. unfold ubyte, uaddr, upa. by rewrite (pte_at_page _ _ va _ (page_index _)). Qed.

(** The state after storing [bs] at offset [off] of user page [j]. *)
Definition upoke (s : kmem) (root j off : Z) (bs : list Z) : kmem :=
  set_ram (λ m, store_bytes m (upa (kram s) root j + off) bs) s.

Lemma upoke_other s root j off bs x :
  0 ≤ off → off + Z.of_nat (length bs) ≤ PGSIZE → ¬ in_page (upa (kram s) root j) x →
  kram (upoke s root j off bs) x = kram s x.
Proof. intros Ho Hl Hx. simpl. apply store_bytes_other. unfold in_page in Hx. lia. Qed.

Lemma upoke_space s l root n j off bs :
  space s l root n → upages n j → 0 ≤ off → off + Z.of_nat (length bs) ≤ PGSIZE →
  Forall (λ b, 0 ≤ b < 256) bs →
  space (upoke s root j off bs) l root n ∧
  (∀ va, pte_at (kram (upoke s root j off bs)) root va = pte_at (kram s) root va).
Proof.
  intros Hs Hj Ho Hl Hb. pose proof Hs as (Hn & Hu & Hh).
  destruct (us_page _ _ _ _ Hu j Hj) as (Hok & Hfr & Hnn & _).
  destruct (uspace_frame s l (upoke s root j off bs) l root (upages n) Hu) as (Hu' & Hp & _).
  - apply kmem_inv_frame; [apply Hu|apply store_bytes_byte, Hu|].
    intros p x Hp Hx. apply upoke_other; try done. intros Hx'. apply Hfr.
    rewrite (in_page_disjoint _ p x); try done. eapply flist_page_ok; [apply Hu|done].
  - intros path p x Hpo Hp Hx. apply upoke_other; try done. intros Hx'. apply (Hnn path Hpo).
    destruct (pw_page _ _ _ (us_wf _ _ _ _ Hu) path p Hpo Hp) as [Hqo _].
    by rewrite (in_page_disjoint _ p x Hok).
  - auto.
  - split; [|done]. split; [done|]. split; [done|]. intros i Hi Hd. rewrite Hp. by apply Hh.
Qed.

Lemma upoke_byte s l root n j off bs va :
  space s l root n → upages n j → 0 ≤ off → off + Z.of_nat (length bs) ≤ PGSIZE →
  Forall (λ b, 0 ≤ b < 256) bs → upages n (va / PGSIZE) →
  ubyte (kram (upoke s root j off bs)) root va =
    if decide (j * PGSIZE + off ≤ va < j * PGSIZE + off + Z.of_nat (length bs))
    then nth (Z.to_nat (va - (j * PGSIZE + off))) bs 0 else ubyte (kram s) root va.
Proof.
  intros Hs Hj Ho Hl Hb Hva. pose proof Hs as (_ & Hu & _).
  destruct (upoke_space s l root n j off bs) as [_ Hp]; try done.
  rewrite !ubyte_page. replace (upa (kram (upoke s root j off bs)) root (va / PGSIZE))
    with (upa (kram s) root (va / PGSIZE)) by (unfold upa; by rewrite Hp).
  pose proof (Z.div_mod va PGSIZE ltac:(done)) as Hdm. pose proof (Z.mod_pos_bound va PGSIZE ltac:(done)).
  destruct (decide (va / PGSIZE = j)) as [E|E].
  - rewrite E in *. cbn [kram upoke set_ram]. case_decide as Hd.
    + rewrite store_bytes_in by (done || lia). f_equal. lia.
    + apply store_bytes_other. lia.
  - rewrite decide_False by plia. apply upoke_other; try done. intros Hx.
    apply E, (us_inj _ _ _ _ Hu); try done.
    destruct (us_page _ _ _ _ Hu _ Hva) as (Hok1 & _). destruct (us_page _ _ _ _ Hu j Hj) as (Hok2 & _).
    eapply (in_page_disjoint _ _ _ Hok1 Hok2); [|exact Hx]. unfold in_page. lia.
Qed.

(** *** copyout and copyin *)

Definition range (a len va : Z) : Prop := a ≤ va < a + len.

(** The fuel of the copy loops is enough: one turn per page touched, one more
    to leave. *)
Definition copy_enough (fuel : nat) (va len : Z) : Prop :=
  if decide (len = 0) then 1 ≤ Z.of_nat fuel
  else (va mod PGSIZE + len) / PGSIZE + 2 ≤ Z.of_nat fuel.

Lemma copy_fuel_enough va len : 0 ≤ va → 0 ≤ len → copy_enough (copy_fuel len) va len.
Proof.
  intros Hva Hl. unfold copy_enough, copy_fuel.
  pose proof (Z.mod_pos_bound va PGSIZE ltac:(done)).
  assert (0 ≤ len / PGSIZE) by (by apply Z.div_pos).
  assert ((va mod PGSIZE + len) / PGSIZE ≤ (len + 1 * PGSIZE) / PGSIZE) as Hle
    by (apply Z.div_le_mono; [done|lia]).
  rewrite Z.div_add in Hle by done. case_decide; lia.
Qed.

(** How a turn at [va] with [len] bytes left splits the request. *)
Definition turn_len (va len : Z) : Z :=
  let n := PGSIZE - (va - PGROUNDDOWN va) in if n >? len then len else n.

Lemma turn_len_spec va len : 0 < len → 0 ≤ va →
  va mod PGSIZE = va - PGROUNDDOWN va ∧ PGROUNDDOWN va = va / PGSIZE * PGSIZE ∧
  0 < turn_len va len ≤ len ∧ (va mod PGSIZE) + turn_len va len ≤ PGSIZE ∧
  (turn_len va len < len → PGROUNDDOWN va + PGSIZE = va + turn_len va len).
Proof.
  intros Hl Hva. pose proof (PGROUNDDOWN_bounds va). rewrite PGROUNDDOWN_spec in *. unfold turn_len.
  rewrite PGROUNDDOWN_spec. pose proof (Z.div_mod va PGSIZE ltac:(done)). pose proof (Z.mod_pos_bound va PGSIZE ltac:(done)).
  destruct (_ >? len) eqn:E; split_and!; lia.
Qed.

Lemma copy_enough_turn fuel va len :
  0 < len → 0 ≤ va → va + len < 2 ^ 64 → copy_enough (S fuel) va len →
  copy_enough fuel (u64 (PGROUNDDOWN va + PGSIZE)) (len - turn_len va len).
Proof.
  intros Hl Hva Hmax. destruct (turn_len_spec va len Hl Hva) as (Ho & Hd & Ht & Hp & Hn).
  unfold copy_enough. rewrite (decide_False (P := len = 0)) by lia. intros He.
  assert (0 ≤ (va mod PGSIZE + len) / PGSIZE).
  { apply Z.div_pos; [|done]. pose proof (Z.mod_pos_bound va PGSIZE ltac:(done)). lia. }
  case_decide as Hz; [lia|]. rewrite Hn by lia. rewrite u64_small by lia.
  assert ((va + turn_len va len) mod PGSIZE = 0) as ->.
  { rewrite <- Hn by lia. rewrite Hd. replace (_ + PGSIZE) with ((va / PGSIZE + 1) * PGSIZE) by lia. by apply Z.mod_mul. }
  replace (0 + (len - turn_len va len)) with (va mod PGSIZE + len + (-1) * PGSIZE) by lia.
  rewrite Z.div_add by done. lia.
Qed.

Lemma ureadable_page m root va va' : 0 ≤ va → 0 ≤ va' →
  va' / PGSIZE = va / PGSIZE → ureadable m root va' = ureadable m root va.
Proof.
  intros H0 H1 E. unfold ureadable. rewrite (pte_at_page _ _ va va') by done.
  assert ((va' <? MAXVA) = (va <? MAXVA)) as ->; [|done].
  change MAXVA with (2 ^ 26 * PGSIZE).
  pose proof (Z.div_mod va PGSIZE ltac:(done)). pose proof (Z.mod_pos_bound va PGSIZE ltac:(done)).
  pose proof (Z.div_mod va' PGSIZE ltac:(done)). pose proof (Z.mod_pos_bound va' PGSIZE ltac:(done)).
  plia.
Qed.

Lemma same_page va t a : va mod PGSIZE + t ≤ PGSIZE → va ≤ a < va + t → a / PGSIZE = va / PGSIZE.
Proof.
  intros Ht Ha. pose proof (Z.div_mod va PGSIZE ltac:(done)). pose proof (Z.mod_pos_bound va PGSIZE ltac:(done)).
  symmetry. apply Z.div_unique with (a - PGSIZE * (va / PGSIZE)); lia.
Qed.

(** One turn of copyout. *)
Lemma copyout_turn_spec s l root n va src :
  space s l root n → kernel_only (kram s) root → 0 ≤ va → src ≠ [] →
  let len := Z.of_nat (length src) in let t := turn_len va len in
  copyout_turn root (va, src) s =
    if uwritable (kram s) root va
    then Ok (inl (u64 (PGROUNDDOWN va + PGSIZE), drop (Z.to_nat t) src))
            (upoke s root (va / PGSIZE) (va mod PGSIZE) (take (Z.to_nat t) src))
    else Ok (inr (-1)) s.
Proof.
  intros Hs Hko Hva Hne len t. pose proof Hs as (_ & Hu & _).
  assert (0 < len) as Hlen by (destruct src; [done|]; unfold len; simpl; lia).
  destruct (turn_len_spec va len Hlen Hva) as (Ho & Hd & Ht & Hp & _).
  unfold copyout_turn. fold len. replace (len >? 0) with true by lia.
  assert (0 ≤ PGROUNDDOWN va) as Hd0 by (rewrite Hd; apply Z.mul_nonneg_nonneg; [by apply Z.div_pos|done]).
  assert (PGROUNDDOWN va / PGSIZE = va / PGSIZE) as Hpg by (rewrite Hd; apply page_index).
  rewrite <- (andb_true_r (uwritable _ _ _)). unfold uwritable.
  rewrite <- (ureadable_page _ _ va (PGROUNDDOWN va)) by done.
  rewrite <- (pte_at_page _ _ va (PGROUNDDOWN va)) by done. unfold ureadable.
  destruct (PGROUNDDOWN va >=? MAXVA) eqn:EM.
  { by replace (PGROUNDDOWN va <? MAXVA) with false by lia. }
  replace (PGROUNDDOWN va <? MAXVA) with true by lia.
  rewrite (bind_ok _ _ _ _ _ (walk_lookup s root (PGROUNDDOWN va) ltac:(lia))).
  assert (upa (kram s) root (va / PGSIZE) = PTE2PA (pte_at (kram s) root (PGROUNDDOWN va))) as Hupa.
  { unfold upa. f_equal. apply pte_at_page. rewrite page_index. by symmetry. }
  unfold upoke. rewrite Hupa. unfold pte_at in *.
  destruct (leaf_slot (kram s) root (PGROUNDDOWN va)) as [a|] eqn:Ea; cbn [from_option id andb]; [|done].
  apply (leaf_slot_nonzero _ _ l) in Ea; [|apply Hu]. replace (a =? 0) with false by lia.
  erewrite bind_ok by reflexivity. rewrite land_V, land_U, land_W.
  destruct (Z.testbit (load64 _ _) 0); cbn [negb orb andb]; [|done].
  destruct (Z.testbit (load64 _ _) 4); cbn [negb orb andb]; [|done].
  destruct (Z.testbit (load64 _ _) 2); cbn [negb orb andb]; [|done].
  erewrite bind_ok by reflexivity. rewrite Ho. reflexivity.
Qed.

(** The bytes of user memory that copyout's turn at [va] writes, by their addresses. *)
Lemma upoke_outside s root va t bs x :
  0 ≤ va → 0 ≤ t → va mod PGSIZE + t ≤ PGSIZE → Z.of_nat (length bs) = t →
  (∀ a, range va t a → uaddr (kram s) root a ≠ x) →
  kram (upoke s root (va / PGSIZE) (va mod PGSIZE) bs) x = kram s x.
Proof.
  intros Hva Ht Hp Hl Hx. simpl. apply store_bytes_other. rewrite Hl.
  destruct (decide (upa (kram s) root (va / PGSIZE) + va mod PGSIZE ≤ x < upa (kram s) root (va / PGSIZE) + va mod PGSIZE + t)) as [Hin|]; [|lia].
  set (a := va + (x - (upa (kram s) root (va / PGSIZE) + va mod PGSIZE))). assert (range va t a) as Ha by (unfold range, a; lia).
  pose proof (same_page va t a Hp Ha) as Epg. destruct (Hx a Ha). unfold uaddr.
  rewrite <- (pte_at_page _ _ a _ (page_index _)). fold (upa (kram s) root (a / PGSIZE)). rewrite Epg.
  pose proof (Z.div_mod va PGSIZE ltac:(done)). rewrite (Z.mod_eq a PGSIZE), Epg by done. unfold a. lia.
Qed.

(** copyout up to the first address that is not writable. *)
Lemma copyout_upto fuel s l root n va src :
  space s l root n → kernel_only (kram s) root → 0 ≤ va → va + Z.of_nat (length src) < 2 ^ 64 →
  Forall (λ b, 0 ≤ b < 256) src → copy_enough fuel va (Z.of_nat (length src)) →
  ∃ r s' k, loop fuel (copyout_turn root) (va, src) s = Ok r s' ∧ space s' l root n ∧
    (∀ a, pte_at (kram s') root a = pte_at (kram s) root a) ∧
    (∀ a, range va k a → uwritable (kram s) root a = true ∧ ubyte (kram s') root a = nth (Z.to_nat (a - va)) src 0) ∧
    (∀ a, upages n (a / PGSIZE) → ¬ range va k a → ubyte (kram s') root a = ubyte (kram s) root a) ∧
    (∀ x, (∀ a, range va k a → uaddr (kram s) root a ≠ x) → kram s' x = kram s x) ∧
    ((r = 0 ∧ k = Z.of_nat (length src)) ∨
     (r = -1 ∧ 0 ≤ k < Z.of_nat (length src) ∧ uwritable (kram s) root (va + k) = false)).
Proof.
  revert s va src. induction fuel as [|fuel IH]; intros s va src Hs Hko Hva Hmax Hb Hf.
  { exfalso. unfold copy_enough in Hf. case_decide; [lia|].
    assert (0 ≤ (va mod PGSIZE + Z.of_nat (length src)) / PGSIZE); [|lia].
    apply Z.div_pos; [|done]. pose proof (Z.mod_pos_bound va PGSIZE ltac:(done)). lia. }
  cbn [loop]. destruct (decide (src = [])) as [->|Hne].
  { exists 0, s, 0. split_and!; try done; [unfold range; lia|]. by left. }
  remember (Z.of_nat (length src)) as len eqn:Elen. set (t := turn_len va len).
  assert (0 < len) as Hlen by (destruct src; [done|]; simpl in *; lia).
  pose proof (copyout_turn_spec s l root n va src Hs Hko Hva Hne) as Hr. cbv zeta in Hr.
  rewrite <- Elen in Hr. fold t in Hr.
  destruct (turn_len_spec va len Hlen Hva) as (Ho & Hd & Ht & Hp & Hn). fold t in Ht, Hp, Hn.
  destruct (uwritable (kram s) root va) eqn:Ew.
  2:{ exists (-1), s, 0. rewrite (bind_ok _ _ _ _ _ Hr). split_and!; try done; [unfold range; lia|].
      right. rewrite Z.add_0_r. split_and!; lia || done. }
  rewrite (bind_ok _ _ _ _ _ Hr). set (s1 := upoke _ _ _ _ _).
  assert (upages n (va / PGSIZE)) as Hj.
  { apply (readable_upage s l root); try done. unfold uwritable in Ew. by apply andb_true_iff in Ew as [? _]. }
  assert (length (take (Z.to_nat t) src) = Z.to_nat t) as Hlt by (rewrite length_take; lia).
  pose proof (Z.mod_pos_bound va PGSIZE ltac:(done)) as Hmod.
  assert (Forall (λ b, 0 ≤ b < 256) (take (Z.to_nat t) src)) as Hbt by (by apply Forall_take).
  destruct (upoke_space s l root n (va / PGSIZE) (va mod PGSIZE) (take (Z.to_nat t) src)) as [Hs1 Hp1];
    try done; try lia. fold s1 in Hs1, Hp1.
  assert (∀ a, upages n (a / PGSIZE) → ubyte (kram s1) root a =
    if decide (range va t a) then nth (Z.to_nat (a - va)) src 0 else ubyte (kram s) root a) as Hub.
  { intros a Ha. unfold s1. rewrite (upoke_byte s l root n) by (done || lia). rewrite Hlt.
    replace (va / PGSIZE * PGSIZE + va mod PGSIZE) with va by (rewrite Ho, Hd; lia).
    rewrite Z2Nat.id by lia. unfold range. case_decide; [|done]. apply nth_take_lt. lia. }
  assert (Z.of_nat (length (drop (Z.to_nat t) src)) = len - t) as Hld by (rewrite length_drop; lia).
  destruct (IH s1 (u64 (PGROUNDDOWN va + PGSIZE)) (drop (Z.to_nat t) src))
    as (r & s' & k & Hrun & Hs' & Hp' & Hin & Hout & Hmem & Hres).
  { done. }
  { intros a. rewrite Hp1. apply Hko. }
  { apply u64_range. }
  { rewrite Hld. destruct (decide (t < len)) as [Hlt'|]; [rewrite Hn, u64_small; lia|].
    pose proof (u64_range (PGROUNDDOWN va + PGSIZE)). lia. }
  { by apply Forall_drop. }
  { rewrite Hld. by apply copy_enough_turn. }
  rewrite Hld in Hres. set (va' := u64 (PGROUNDDOWN va + PGSIZE)) in *.
  assert (0 ≤ k) as Hk0 by lia. assert (k ≤ len - t) as Hk1 by lia.
  assert (0 < k ∨ t < len → va' = va + t) as Hva'.
  { intros Hlt'. unfold va'. rewrite Hn by lia. apply u64_small. lia. }
  assert (∀ a, range va' k a → range (va + t) k a) as Hrg by (unfold range; lia).
  assert (∀ a, uwritable (kram s1) root a = uwritable (kram s) root a) as Hw
    by (intros; unfold uwritable, ureadable; by rewrite !Hp1).
  exists r, s', (t + k). split_and!; [done|done| | | | |].
  - intros a. by rewrite Hp', Hp1.
  - intros a Ha. unfold range in *. destruct (decide (a < va + t)).
    + assert (a / PGSIZE = va / PGSIZE) as Epg by (apply (same_page va t); lia).
      unfold uwritable in *. rewrite (ureadable_page _ _ va), (pte_at_page _ _ va) by (done || lia).
      split; [done|]. rewrite Hout, Hub by (rewrite ?Epg; done || lia).
      by rewrite decide_True by (unfold range; lia).
    + destruct (Hin a) as [Hwa Hba]; [lia|]. rewrite Hw in Hwa. split; [done|].
      rewrite Hba, nth_drop_add. f_equal. lia.
  - intros a Ha Hna. unfold range in *. rewrite Hout, Hub by (done || lia).
    by rewrite decide_False by (unfold range; lia).
  - intros x Hx. rewrite Hmem.
    + apply (upoke_outside s root va t); try lia; try done. intros a Ha. apply Hx. unfold range in *. lia.
    + intros a Ha. unfold uaddr. rewrite Hp1. apply Hx. unfold range in *. lia.
  - destruct Hres as [[-> ->]|(-> & Hk & Hna)]; [left|right]; split_and!; try done; try lia.
    rewrite Hw in Hna. rewrite Hva' in Hna by lia. by replace (va + (t + k)) with (va + t + k) by lia.
Qed.

Lemma copyout_loop fuel s l root n va src :
  space s l root n → kernel_only (kram s) root → 0 ≤ va → va + Z.of_nat (length src) < 2 ^ 64 →
  Forall (λ b, 0 ≤ b < 256) src → copy_enough fuel va (Z.of_nat (length src)) →
  ∃ r s', loop fuel (copyout_turn root) (va, src) s = Ok r s' ∧ space s' l root n ∧
    (∀ a, pte_at (kram s') root a = pte_at (kram s) root a) ∧
    (∀ a, upages n (a / PGSIZE) → ¬ range va (Z.of_nat (length src)) a →
       ubyte (kram s') root a = ubyte (kram s) root a) ∧
    ((r = 0 ∧ ∀ a, range va (Z.of_nat (length src)) a → uwritable (kram s) root a = true ∧
        ubyte (kram s') root a = nth (Z.to_nat (a - va)) src 0) ∨
     (r = -1 ∧ ∃ a, range va (Z.of_nat (length src)) a ∧ uwritable (kram s) root a = false)).
Proof.
  intros Hs Hko Hva Hmax Hb Hf.
  destruct (copyout_upto fuel s l root n va src) as (r & s' & k & Hr & Hs' & Hp & Hin & Hout & _ & Hres); try done.
  exists r, s'. split_and!; [done|done|done| |].
  - intros a Ha Hna. apply Hout; [done|]. unfold range in *. lia.
  - destruct Hres as [[-> ->]|(-> & Hk & Hna)]; [by left|right]. split; [done|]. exists (va + k). split; [unfold range; lia|done].
Qed.

Definition ubytes (m : mem) (root va len : Z) : list Z := (λ i, ubyte m root (va + i)) <$> seqZ 0 len.

Lemma ubytes_app m root va a b : 0 ≤ a → 0 ≤ b →
  ubytes m root va (a + b) = ubytes m root va a ++ ubytes m root (va + a) b.
Proof.
  intros Ha Hb. unfold ubytes. rewrite seqZ_app, fmap_app by done. f_equal.
  rewrite (Z.add_comm 0 a), <- (fmap_add_seqZ a 0), <- list_fmap_compose. apply list_fmap_ext.
  intros i x _. simpl. f_equal. lia.
Qed.

Lemma load_ubytes m root va t : 0 ≤ va → 0 ≤ t → va mod PGSIZE + t ≤ PGSIZE →
  load_bytes m (upa m root (va / PGSIZE) + va mod PGSIZE) (Z.to_nat t) = ubytes m root va t.
Proof.
  intros Hva Ht Hp. apply list_eq_same_length with (Z.to_nat t).
  - unfold ubytes. by rewrite length_fmap, length_seqZ.
  - apply length_load_bytes.
  - intros i x y Hi. rewrite lookup_load_bytes by done. unfold ubytes. rewrite list_lookup_fmap.
    rewrite lookup_seqZ_lt by lia. intros [= <-] [= <-]. rewrite ubyte_page, Z.add_0_l.
    assert ((va + Z.of_nat i) / PGSIZE = va / PGSIZE) as E by (apply (same_page va t); lia).
    pose proof (Z.div_mod va PGSIZE ltac:(done)).
    pose proof (Z.div_mod (va + Z.of_nat i) PGSIZE ltac:(done)) as Hdm. rewrite E in *. f_equal. lia.
Qed.

Lemma copyin_turn_spec s l root n va len dst :
  space s l root n → kernel_only (kram s) root → 0 ≤ va → 0 < len →
  let t := turn_len va len in
  copyin_turn root (va, len, dst) s =
    if ureadable (kram s) root va
    then Ok (inl (u64 (PGROUNDDOWN va + PGSIZE), len - t, dst ++ ubytes (kram s) root va t)) s
    else Ok (inr (-1, dst)) s.
Proof.
  intros Hs Hko Hva Hlen t. pose proof Hs as (_ & Hu & _).
  destruct (turn_len_spec va len Hlen Hva) as (Ho & Hd & Ht & Hp & _). fold t in Ht, Hp.
  unfold copyin_turn. replace (len >? 0) with true by lia.
  assert (0 ≤ PGROUNDDOWN va) as Hd0 by (rewrite Hd; apply Z.mul_nonneg_nonneg; [by apply Z.div_pos|done]).
  assert (PGROUNDDOWN va / PGSIZE = va / PGSIZE) as Hpg by (rewrite Hd; apply page_index).
  rewrite (bind_ok _ _ _ _ _ (walkaddr_spec s root l (PGROUNDDOWN va) (us_wf _ _ _ _ Hu) Hd0)).
  fold (ureadable (kram s) root (PGROUNDDOWN va)).
  rewrite (ureadable_page _ _ va (PGROUNDDOWN va)) by done.
  destruct (ureadable (kram s) root va) eqn:Er; [|done].
  assert (upa (kram s) root (va / PGSIZE) = PTE2PA (pte_at (kram s) root (PGROUNDDOWN va))) as Hupa.
  { unfold upa. f_equal. apply pte_at_page. rewrite page_index. by symmetry. }
  destruct (us_page _ _ _ _ Hu (va / PGSIZE)) as (Hok%page_ok_pos & _); [by eapply readable_upage|].
  rewrite Hupa in Hok. replace (PTE2PA _ =? 0) with false by lia.
  rewrite <- load_ubytes by lia. rewrite Hupa, Ho. reflexivity.
Qed.

Lemma copyin_loop fuel s l root n va len dst :
  space s l root n → kernel_only (kram s) root → 0 ≤ va → 0 ≤ len → va + len < 2 ^ 64 →
  copy_enough fuel va len →
  ∃ r bs, loop fuel (copyin_turn root) (va, len, dst) s = Ok (r, dst ++ bs) s ∧
    ((r = 0 ∧ (∀ a, range va len a → ureadable (kram s) root a = true) ∧ bs = ubytes (kram s) root va len) ∨
     (r = -1 ∧ ∃ a, range va len a ∧ ureadable (kram s) root a = false)).
Proof.
  intros Hs Hko. revert va len dst. induction fuel as [|fuel IH]; intros va len dst Hva Hlen Hmax Hf.
  { exfalso. unfold copy_enough in Hf. case_decide; [lia|].
    assert (0 ≤ (va mod PGSIZE + len) / PGSIZE); [|lia].
    apply Z.div_pos; [|done]. pose proof (Z.mod_pos_bound va PGSIZE ltac:(done)). lia. }
  cbn [loop]. destruct (decide (len = 0)) as [->|Hne].
  { exists 0, []. split; [by rewrite app_nil_r|]. left. split_and!; [done| |done]. unfold range. lia. }
  assert (0 < len) as Hl by lia. set (t := turn_len va len).
  pose proof (copyin_turn_spec s l root n va len dst Hs Hko Hva Hl) as Hr. fold t in Hr. cbv zeta in Hr.
  destruct (turn_len_spec va len Hl Hva) as (Ho & Hd & Ht & Hp & Hn). fold t in Ht, Hp, Hn.
  destruct (ureadable (kram s) root va) eqn:Ew; rewrite (bind_ok _ _ _ _ _ Hr).
  2:{ exists (-1), []. split; [by rewrite app_nil_r|]. right. split; [done|]. exists va. unfold range. split; [lia|done]. }
  set (va' := u64 (PGROUNDDOWN va + PGSIZE)) in *.
  assert (t < len → va' = va + t) as Hva'.
  { intros Hlt'. unfold va'. rewrite Hn by done. apply u64_small. lia. }
  pose proof (u64_range (PGROUNDDOWN va + PGSIZE)) as Hr64. fold va' in Hr64.
  destruct (IH va' (len - t) (dst ++ ubytes (kram s) root va t)) as (r & bs & Hrun & Hres); try lia.
  { by apply copy_enough_turn. }
  exists r, (ubytes (kram s) root va t ++ bs). rewrite app_assoc. split; [done|].
  destruct Hres as [(-> & Hall & ->)|(-> & a & Ha & Hna)].
  - left. split_and!; [done| |].
    + intros a Ha. unfold range in *. destruct (decide (a < va + t)); [|apply Hall; lia].
      rewrite (ureadable_page _ _ va) by (lia || apply (same_page va t); lia). done.
    + replace len with (t + (len - t)) at 2 by lia. rewrite ubytes_app by lia. f_equal.
      destruct (decide (t < len)); [by rewrite Hva'|]. by replace (len - t) with 0 by lia.
  - right. split; [done|]. exists a. unfold range in *. split; [lia|done].
Qed.

(** Mapping over a valid entry stops the machine. *)
Lemma mappages_remap s l root va size pa perm :
  kmem_inv s l → pt_wf (kram s) root l → 0 ≤ va < MAXVA → va mod PGSIZE = 0 →
  0 < size → size mod PGSIZE = 0 → Z.testbit (pte_at (kram s) root va) 0 = true →
  mappages root va size pa perm s = Panic "mappages: remap".
Proof.
  intros Hinv Hwf Hva Ha Hs Hsa Hb. unfold mappages. rewrite Ha, Hsa. replace (size =? 0) with false by lia.
  cbn [negb Z.eqb]. destruct (Z.to_nat (size / PGSIZE)) as [|k] eqn:Ek.
  { exfalso. apply Z.div_exact in Hsa; [|done]. unfold PGSIZE in *. lia. }
  cbn [loop]. apply bind_panic. unfold map_turn.
  destruct (walk_alloc s l root va Hinv Hwf Hva) as (r & s1 & l1 & Hw & He & Hr).
  destruct Hr as [[-> ->]|[Hr Hsl]].
  - exfalso. unfold pte_at in Hb. destruct (leaf_slot (kram s) root va) as [a|] eqn:E; [|by rewrite Z.bits_0 in Hb].
    rewrite (walk_present s l root va a) in Hw by done. injection Hw as -> _.
    by apply (leaf_slot_nonzero _ _ l) in E.
  - rewrite (bind_ok _ _ _ _ _ Hw). replace (r =? 0) with false by lia. erewrite bind_ok by reflexivity.
    rewrite ctrue_land_V. replace (load64 (kram s1) r) with (pte_at (kram s) root va); [by rewrite Hb|].
    rewrite <- (pe_pte _ _ _ _ _ He). unfold pte_at. by rewrite Hsl.
Qed.

(** ** Properties *)

(** C26: mappages on aligned, unmapped pages below MAXVA never panics.  It maps
    the pages from [va] to the physical pages from [pa] with exactly the
    permissions asked for, changes no other entry and no byte outside the
    page table and the free pages, and keeps the table a well-formed tree; or
    it returns -1, and then the allocator is empty and a first part of the
    range is mapped. *)
Theorem mappages_correct (s : kmem) (l : list Z) (root va size pa perm : Z) :
  kmem_inv s l → pt_wf (kram s) root l →
  va mod PGSIZE = 0 → size mod PGSIZE = 0 → 0 ≤ va → 0 < size → va + size ≤ MAXVA →
  0 ≤ pa → pa + size ≤ 2 ^ 56 → 0 ≤ perm < 1024 →
  (∀ va', va ≤ va' < va + size → Z.testbit (pte_at (kram s) root va') 0 = false) →
  ∃ r s' l' k, mappages root va size pa perm s = Ok r s' ∧
    pt_upd root s l s' l' (fmap_range (pte_at (kram s) root) va k pa perm) ∧
    ((r = 0 ∧ k * PGSIZE = size) ∨ (r = -1 ∧ 0 ≤ k * PGSIZE < size ∧ l' = [])).
Proof.
  intros Hinv Hwf Hva Hsz H0 H1 Hmax Hpa Hpa2 Hperm Hun.
  assert (size / PGSIZE * PGSIZE = size) as Hn by (apply Z.div_exact in Hsz; [lia|done]).
  assert (0 < size / PGSIZE) by plia. assert (MAXVA = 2 ^ 38) as HMX by done.
  destruct (mappages_loop (Z.to_nat (size / PGSIZE)) (Z.to_nat (size / PGSIZE)) root s l va pa perm)
    as (r & s' & l' & k & Hr & Hu & Hk); rewrite ?Z2Nat.id by lia; rewrite ?Hn; try done; try lia.
  rewrite Z2Nat.id in Hr, Hk by lia. exists r, s', l', k. split_and!; [|done|].
  - unfold mappages. rewrite Hva, Hsz. replace (size =? 0) with false by lia. cbn [negb Z.eqb].
    rewrite u64_small by plia. rewrite <- Hr. do 2 f_equal. lia.
  - destruct Hk as [[-> ->]|(-> & Hk & ->)]; [left|right; split_and!]; try done; plia.
Qed.

(** C27: uvmalloc from a process of [oldsz] bytes to [newsz] bytes.  Either it
    returns [newsz] and the process has exactly the pages of [newsz]: the new ones are
    zero-filled, were taken from the free pages, and are mapped with the permissions
    asked for, readable and open to user code.  Or it returns 0 and the process has the
    pages it had, no page is lost or made up (every page that was free is free again,
    or a page of the process's page table), and memory had run out: no more pages are
    free than were asked for.  Either way the old pages keep their entries and their
    bytes, every page belongs to one owner only, and nothing panics. *)
Theorem uvmalloc_correct (s : kmem) (l : list Z) (root oldsz newsz xperm : Z) :
  0 ≤ oldsz ≤ newsz → newsz ≤ TRAPFRAME → 0 ≤ xperm < 1024 →
  space s l root (npages oldsz) →
  ∃ r s' l', uvmalloc root oldsz newsz xperm s = Ok r s' ∧
    ((r = newsz ∧ grown root xperm (npages oldsz) s l (npages newsz) s' l') ∨
     (r = 0 ∧ undone root (npages oldsz) s l s' l' ∧ Z.of_nat (length l') ≤ npages newsz - npages oldsz)).
Proof.
  intros Ho Hn Hx Hs. destruct (npages_spec oldsz) as (Eo & Hbo & Hmo); [lia|].
  destruct (npages_spec newsz) as (En & Hbn & Hmn); [lia|].
  assert (npages oldsz ≤ npages newsz) by (apply Z.div_le_mono; [done|]; plia).
  unfold uvmalloc. replace (newsz <? oldsz) with false by lia. rewrite Eo.
  assert (npages newsz - npages oldsz ≤ (newsz - npages oldsz * PGSIZE) / PGSIZE + 1) as Hfuel.
  { assert (npages newsz - npages oldsz - 1 ≤ (newsz - npages oldsz * PGSIZE) / PGSIZE); [|lia].
    apply Z.div_le_lower_bound; plia. }
  destruct (uvmalloc_loop (Z.to_nat (npages newsz - npages oldsz))
    (S (Z.to_nat ((newsz - npages oldsz * PGSIZE) / PGSIZE + 1))) s l s l root (npages oldsz) (npages oldsz) newsz xperm)
    as [(s' & l' & Hr & Hg)|(s' & l' & Hr & Hu)]; try done; try lia; [by apply grown_refl| |].
  - exists newsz, s', l'. split; [done|]. by left.
  - exists 0, s', l'. split; [done|]. by right.
Qed.

(** C28: uvmdealloc shrinks a process to exactly the pages of [newsz]: the physical
    pages that were mapped above go back to the allocator, each once, the last one
    first, and no others; the pages below keep entries and bytes, and nothing panics. *)
Theorem uvmdealloc_correct (s : kmem) (l : list Z) (root oldsz newsz : Z) :
  0 ≤ newsz < oldsz → oldsz ≤ TRAPFRAME → space s l root (npages oldsz) →
  ∃ s', uvmdealloc root oldsz newsz s = Ok newsz s' ∧
    space s' (uphys s root (npages newsz) (npages oldsz) ++ l) root (npages newsz) ∧
    usame s s' root (upages (npages newsz)) ∧ tkeep s s' root.
Proof.
  intros Hn Ho Hs. destruct (npages_spec oldsz) as (Eo & Hbo & Hmo); [lia|].
  destruct (npages_spec newsz) as (En & Hbn & Hmn); [lia|].
  apply uvmdealloc_pages; try done; [|lia]. split; [lia|]. apply Z.div_le_mono; [done|]. plia.
Qed.

(** C29: copyout writes the bytes of [src] at [va] in user memory up to the first
    address whose page is not valid, user and writable.  It returns 0 when there is no
    such address, and all of [src] has been written; otherwise it returns -1, with the
    bytes before that address written and nothing more.  The page table, the other user
    bytes, and every byte of physical memory that is not one of the bytes written,
    those of the kernel included, are as they were. *)
Theorem copyout_correct (s : kmem) (l : list Z) (root n va : Z) (src : list Z) :
  space s l root n → kernel_only (kram s) root → 0 ≤ va → va + Z.of_nat (length src) < 2 ^ 64 →
  Forall (λ b, 0 ≤ b < 256) src →
  ∃ r s' k, copyout root va src s = Ok r s' ∧ space s' l root n ∧
    (∀ a, pte_at (kram s') root a = pte_at (kram s) root a) ∧
    (∀ a, range va k a → uwritable (kram s) root a = true ∧ ubyte (kram s') root a = nth (Z.to_nat (a - va)) src 0) ∧
    (∀ a, upages n (a / PGSIZE) → ¬ range va k a → ubyte (kram s') root a = ubyte (kram s) root a) ∧
    (∀ x, (∀ a, range va k a → uaddr (kram s) root a ≠ x) → kram s' x = kram s x) ∧
    ((r = 0 ∧ k = Z.of_nat (length src)) ∨
     (r = -1 ∧ 0 ≤ k < Z.of_nat (length src) ∧ uwritable (kram s) root (va + k) = false)).
Proof. intros. apply copyout_upto; try done. apply copy_fuel_enough; lia. Qed.

(** C30: copyin reads back what copyout wrote: after a copyout that returned 0,
    copyin of the same range returns 0 and the same bytes. *)
Theorem copyin_copyout (s s' : kmem) (l : list Z) (root n va : Z) (src : list Z) :
  space s l root n → kernel_only (kram s) root → 0 ≤ va → va + Z.of_nat (length src) < 2 ^ 64 →
  Forall (λ b, 0 ≤ b < 256) src → copyout root va src s = Ok 0 s' →
  copyin root va (Z.of_nat (length src)) s' = Ok (0, src) s'.
Proof.
  intros Hs Hko Hva Hmax Hb Hc.
  destruct (copyout_loop (copy_fuel (Z.of_nat (length src))) s l root n va src)
    as (r & s2 & Hr & Hs2 & Hp & _ & Hres); try done; [apply copy_fuel_enough; lia|].
  unfold copyout in Hc. rewrite Hr in Hc. injection Hc as -> ->.
  destruct Hres as [[_ Hall]|[? _]]; [|done].
  destruct (copyin_loop (copy_fuel (Z.of_nat (length src))) s' l root n va (Z.of_nat (length src)) [])
    as (r & bs & Hrun & Hr2); try done; try lia; [intros a; rewrite Hp; apply Hko|apply copy_fuel_enough; lia|].
  unfold copyin. rewrite Hrun. destruct Hr2 as [(-> & _ & ->)|(-> & a & Ha & Hna)].
  - simpl. do 2 f_equal. apply list_eq_same_length with (length src);
      [done|unfold ubytes; by rewrite length_fmap, length_seqZ, Nat2Z.id|].
    intros i x y Hi. unfold ubytes. rewrite list_lookup_fmap, lookup_seqZ_lt by lia. intros [= <-] Hy.
    destruct (Hall (va + Z.of_nat i)) as [_ E]; [unfold range; lia|]. rewrite Z.add_0_l, E.
    rewrite nth_lookup. replace (Z.to_nat (va + Z.of_nat i - va)) with i by lia. by rewrite Hy.
  - exfalso. destruct (Hall a Ha) as [Hw _]. unfold uwritable, ureadable in *. rewrite Hp in Hna.
    apply andb_true_iff in Hw as [Hw _]. congruence.
Qed.
End vm.

(** ** Witnesses: a machine with eight free pages and an empty user table *)

Definition img8 : KernelImage.
Proof. refine {| kend := PHYSTOP - 8 * PGSIZE |}. vm_compute. split; [reflexivity|discriminate]. Defined.

Definition pages8 : list Z := (λ i, PHYSTOP - i * PGSIZE) <$> [2; 3; 4; 5; 6; 7; 8].
Definition root8 : Z := PHYSTOP - PGSIZE.

(** Free the given pages one after the other. *)
Fixpoint free_all (ps : list Z) (s : kmem) : kmem :=
  match ps with [] => s | p :: ps' => kfreed (free_all ps' s) p end.

Lemma free_all_inv `{KernelImage} ps s :
  kmem_inv s [] → NoDup ps → Forall page_ok ps → kmem_inv (free_all ps s) ps.
Proof.
  intros Hs. induction ps as [|p ps IH]; intros Hnd Hf; [done|].
  inversion_clear Hnd. inversion_clear Hf. by apply kfree_ok; [apply IH| |].
Qed.

(** uvmcreate's page, root8, is all zero in blank memory. *)
Definition machine8 : kmem := free_all pages8 blank.

Lemma machine8_inv : @kmem_inv img8 machine8 pages8.
Proof.
  apply (@free_all_inv img8).
  - constructor; simpl; [done|intros a; simpl; lia|apply NoDup_nil_2|done].
  - refine (bool_decide_unpack _ _). vm_compute. exact I.
  - repeat (constructor; [vm_compute; intuition discriminate|]). constructor.
Qed.

Lemma free_all_other ps s x : (∀ p, p ∈ ps → ¬ in_page p x) → kram (free_all ps s) x = kram s x.
Proof.
  induction ps as [|p ps IH]; intros Hx; [done|]. cbn [free_all]. rewrite kfree_other by (apply Hx; left).
  apply IH. intros q Hq. apply Hx. by right.
Qed.

Lemma machine8_root x : in_page root8 x → kram machine8 x = 0.
Proof.
  intros Hx. unfold machine8. rewrite free_all_other; [done|].
  unfold in_page, root8 in *. intros p Hp. unfold pages8 in Hp.
  apply list_elem_of_fmap in Hp as (i & -> & Hi). assert (2 ≤ i).
  { repeat (apply elem_of_cons in Hi as [->|Hi]; [lia|]). by apply elem_of_nil in Hi. }
  plia.
Qed.

Lemma machine8_child i : 0 ≤ i < 512 → child (kram machine8) root8 i = None.
Proof.
  intros Hi. unfold child. rewrite (load64_zero_page _ root8 i) by (done || apply machine8_root). done.
Qed.

Lemma machine8_pte va : pte_at (kram machine8) root8 va = 0.
Proof.
  unfold pte_at, leaf_slot, vpath, node. by rewrite machine8_child by (by apply PX_range).
Qed.

Lemma machine8_wf : @pt_wf img8 (kram machine8) root8 pages8.
Proof.
  assert (∀ path p, path_ok path → node (kram machine8) root8 path = Some p → path = [] ∧ p = root8) as Hn.
  { intros [|i path] p [_ Hf]; cbn [node]; [by intros [= <-]|].
    inversion_clear Hf. by rewrite machine8_child. }
  constructor.
  - intros path p Ho Hp. destruct (Hn path p Ho Hp) as [_ ->]. split.
    + vm_compute. intuition discriminate.
    + refine (bool_decide_unpack _ _). vm_compute. exact I.
  - intros path path' p Ho Ho' Hp Hp'. destruct (Hn _ _ Ho Hp), (Hn _ _ Ho' Hp'). congruence.
Qed.

Lemma machine8_space : @space img8 machine8 pages8 root8 0.
Proof.
  split; [vm_compute; intuition discriminate|]. split.
  - constructor; try (unfold upages; intros; lia); [apply machine8_inv|apply machine8_wf].
  - intros j Hj _. by rewrite machine8_pte.
Qed.

Lemma mappages_correct_witness :
  ∃ r s' l' k, mappages root8 8192 8192 PHYSTOP 6 machine8 = Ok r s' ∧
    @pt_upd img8 root8 machine8 pages8 s' l' (fmap_range (pte_at (kram machine8) root8) 8192 k PHYSTOP 6) ∧
    ((r = 0 ∧ k * PGSIZE = 8192) ∨ (r = -1 ∧ 0 ≤ k * PGSIZE < 8192 ∧ l' = [])).
Proof.
  apply (@mappages_correct img8 machine8 pages8 root8 8192 8192 PHYSTOP 6 machine8_inv machine8_wf);
    [vm_compute; intuition discriminate..|].
  intros va' _. by rewrite machine8_pte.
Defined.

(** Seven free pages are enough for two pages, with the two pages of the lower levels of
    the table; the pages of the process were free and are its only writable ones. *)
Lemma uvmalloc_correct_witness :
  ∃ s' l', @uvmalloc img8 root8 0 8000 PTE_W machine8 = Ok 8000 s' ∧ @grown img8 root8 PTE_W 0 machine8 pages8 2 s' l' ∧
    upa (kram s') root8 1 ∈ pages8.
Proof.
  destruct (@uvmalloc_correct img8 machine8 pages8 root8 0 8000 PTE_W) as (r & s' & l' & Hr & H);
    [vm_compute; intuition discriminate..| |].
  - exact machine8_space.
  - destruct H as [[E H]|[E _]].
    + exists s', l'. rewrite E in Hr. split; [exact Hr|]. split; [exact H|]. apply (@gr_from img8 _ _ _ _ _ _ _ _ H). vm_compute. intuition discriminate.
    + exfalso. assert (match @uvmalloc img8 root8 0 8000 PTE_W machine8 with Ok r _ => r | _ => -1 end = 8000) as F by (vm_compute; reflexivity).
      rewrite Hr, E in F. discriminate F.
Defined.

(** Seven pages: two for the lower levels of the table, two for the process. *)
Definition grown8 : kmem :=
  match @uvmalloc img8 root8 0 8000 PTE_W machine8 with Ok _ s => s | _ => blank end.

Lemma grown8_space : ∃ l, @space img8 grown8 l root8 2 ∧ @uvmalloc img8 root8 0 8000 PTE_W machine8 = Ok 8000 grown8.
Proof.
  destruct (@uvmalloc_loop img8 2 3 machine8 pages8 machine8 pages8 root8 0 0 8000 PTE_W) as [(s' & l' & Hr & Hg)|(s' & l' & Hr & _)];
    [lia|apply grown_refl, machine8_space|vm_compute; intuition discriminate..| |].
  - exists l'. change (@uvmalloc img8 root8 0 8000 PTE_W machine8 = Ok 8000 s') in Hr.
    unfold grown8. rewrite Hr. split; [apply Hg|done].
  - exfalso. assert (match loop 3 (@uvmalloc_turn img8 root8 0 8000 PTE_W) 0 machine8 with
      Ok r _ => r | _ => -1 end = 8000) as E by (vm_compute; reflexivity).
    change (0 * PGSIZE) with 0 in Hr. rewrite Hr in E. discriminate.
Qed.

Lemma grown8_kernel_only : kernel_only (kram grown8) root8.
Proof.
  intros va Hva. unfold pte_at, leaf_slot, vpath, node, child.
  assert (PX 2 va = 255) as ->.
  { rewrite PX_spec by done. change TRAPFRAME with (2 ^ 38 - 8192) in Hva. change MAXVA with (2 ^ 38) in Hva.
    replace (va / 2 ^ (12 + 9 * 2)) with 255; [done|].
    apply Z.div_unique with (va - 255 * 2 ^ 30); lia. }
  assert (load64 (kram grown8) (root8 + 8 * 255) = 0) as -> by (vm_compute; reflexivity). done.
Qed.

Lemma uvmdealloc_correct_witness :
  ∃ l s', @uvmdealloc img8 root8 8000 100 grown8 = Ok 100 s' ∧ @space img8 s' (upa (kram grown8) root8 1 :: l) root8 1.
Proof.
  destruct grown8_space as (l & Hs & _).
  destruct (@uvmdealloc_correct img8 grown8 l root8 8000 100) as (s' & Hr & Hs' & _).
  - lia.
  - vm_compute. discriminate.
  - exact Hs.
  - exists l, s'. split; [exact Hr|exact Hs'].
Defined.

(** Five bytes across the boundary of the two pages; and a range that runs
    past the process. *)
Definition hello : list Z := [104; 101; 108; 108; 111].

Lemma hello_bytes : Forall (λ b, 0 ≤ b < 256) hello.
Proof. repeat constructor; lia. Qed.

Definition poked8 : kmem :=
  match copyout root8 4094 hello grown8 with Ok _ s => s | _ => blank end.

(** The second range runs past the process: its first two bytes are written. *)
Lemma copyout_correct_witness :
  (∃ s', copyout root8 4094 hello grown8 = Ok 0 s' ∧ ubyte (kram s') root8 4096 = 108) ∧
  (∃ s', copyout root8 8190 hello grown8 = Ok (-1) s' ∧ ubyte (kram s') root8 8191 = 101).
Proof.
  destruct grown8_space as (l & Hs & _). split.
  - destruct (@copyout_correct img8 grown8 l root8 2 4094 hello Hs grown8_kernel_only)
      as (r & s' & k & Hr & _ & _ & Hin & _ & _ & [[-> ->]|(-> & _)]); [lia|vm_compute; reflexivity|apply hello_bytes| |].
    + exists s'. split; [exact Hr|]. apply (Hin 4096). unfold range. simpl. lia.
    + exfalso. assert (match copyout root8 4094 hello grown8 with Ok r _ => r | _ => -1 end = 0) as E
        by (vm_compute; reflexivity). rewrite Hr in E. discriminate.
  - destruct (@copyout_correct img8 grown8 l root8 2 8190 hello Hs grown8_kernel_only)
      as (r & s' & k & Hr & _ & _ & Hin & _ & _ & [[-> _]|(-> & Hk & Hna)]); [lia|vm_compute; reflexivity|apply hello_bytes| |].
    + exfalso. assert (match copyout root8 8190 hello grown8 with Ok r _ => r | _ => 0 end = -1) as E
        by (vm_compute; reflexivity). rewrite Hr in E. discriminate.
    + exists s'. split; [exact Hr|]. apply (Hin 8191). unfold range.
      destruct (Z.eq_dec k 0) as [->|]; [exfalso; vm_compute in Hna; discriminate Hna|].
      destruct (Z.eq_dec k 1) as [->|]; [exfalso; vm_compute in Hna; discriminate Hna|]. lia.
Defined.

Lemma copyin_copyout_witness : copyin root8 4094 5 poked8 = Ok (0, hello) poked8.
Proof.
  destruct grown8_space as (l & Hs & _).
  assert (copyout root8 4094 hello grown8 = Ok 0 poked8) as Hr.
  { assert (match copyout root8 4094 hello grown8 with Ok r _ => r | _ => -1 end = 0) as E
      by (vm_compute; reflexivity).
    unfold poked8. destruct (copyout root8 4094 hello grown8); try discriminate. by rewrite E. }
  apply (@copyin_copyout img8 grown8 poked8 l root8 2 4094 hello Hs grown8_kernel_only);
    [lia|vm_compute; reflexivity|apply hello_bytes|exact Hr].
Defined.
