(* ===== verification/Proc.v ===== *)
(** * Processes: kernel/proc.h and kernel/proc.c

    The process table, its locks, and the operations of proc.c that stay inside
    the process layer: slots and pids, page tables of processes, sleep and
    wakeup, kill, wait.  fork and exit, which call into the file system and
    shared memory, are in a later file.

    Pointers into the table are indices, [NULLP] is the null pointer.  Code
    above this layer keeps its own state and reaches the process layer through
    the class [KernelView]: where the state of the process layer is inside the
    bigger state, and what the other processes do to the bigger state while
    this one is switched away. *)
From stdpp Require Import gmap.
From S2P Require Import Prelude Mem Spinlock Riscv Kalloc Vm.
Open Scope Z_scope.

Inductive procstate := UNUSED | USED | SLEEPING | RUNNABLE | RUNNING | ZOMBIE.

#[export] Instance procstate_eq_dec : EqDecision procstate.
Proof. solve_decision. Defined.

(** The addresses that processes sleep on, by the object they point at; distinct
    objects have distinct addresses. *)
Inductive chan :=
| chan0                  (* the null pointer *)
| ChProc (i : Z)         (* a struct proc *)
| ChTicks                (* &ticks *)
| ChAddr (a : Z)         (* a field of a structure in a kalloc'd page *)
| ChBuf (i : Z)          (* a struct buf, or its sleep lock *)
| ChInode (i : Z)        (* the sleep lock of a struct inode *)
| ChLog                  (* &log *)
| ChDisk                 (* &disk.free[0] *)
| ChUart                 (* &uart_tx_r *)
| ChCons.                (* &cons.r *)

#[export] Instance chan_eq_dec : EqDecision chan.
Proof. solve_decision. Defined.

Definition NULLP : Z := -1.

(** struct proc; of struct context only the fields allocproc sets. *)
Record proc := Proc {
  p_lock : bool;
  p_state : procstate;
  p_chan : chan;  (* sleeping on it, if not chan0 *)
  p_killed : Z;
  p_xstate : Z;
  p_pid : Z;
  p_cpu_mask : Z;
  p_timer : Z;  (* page of its xv6timer_t, or 0 *)
  p_parent : Z;  (* index in the table, or NULLP *)
  p_kstack : Z;
  p_sz : Z;
  p_pagetable : Z;
  p_trapframe : Z;  (* page of its trapframe, or 0 *)
  p_context : Z * Z;  (* the ra and sp of struct context *)
  p_ofile : list Z;  (* indices in the file table, or NULLP *)
  p_cwd : Z;  (* index in the inode table, or NULLP *)
  p_name : string;
}.
Definition set_p_lock (v : bool) (r : proc) : proc :=
  Proc v (p_state r) (p_chan r) (p_killed r) (p_xstate r) (p_pid r) (p_cpu_mask r) (p_timer r) (p_parent r) (p_kstack r) (p_sz r) (p_pagetable r) (p_trapframe r) (p_context r) (p_ofile r) (p_cwd r) (p_name r).
Definition set_p_state (v : procstate) (r : proc) : proc :=
  Proc (p_lock r) v (p_chan r) (p_killed r) (p_xstate r) (p_pid r) (p_cpu_mask r) (p_timer r) (p_parent r) (p_kstack r) (p_sz r) (p_pagetable r) (p_trapframe r) (p_context r) (p_ofile r) (p_cwd r) (p_name r).
Definition set_p_chan (v : chan) (r : proc) : proc :=
  Proc (p_lock r) (p_state r) v (p_killed r) (p_xstate r) (p_pid r) (p_cpu_mask r) (p_timer r) (p_parent r) (p_kstack r) (p_sz r) (p_pagetable r) (p_trapframe r) (p_context r) (p_ofile r) (p_cwd r) (p_name r).
Definition set_p_killed (v : Z) (r : proc) : proc :=
  Proc (p_lock r) (p_state r) (p_chan r) v (p_xstate r) (p_pid r) (p_cpu_mask r) (p_timer r) (p_parent r) (p_kstack r) (p_sz r) (p_pagetable r) (p_trapframe r) (p_context r) (p_ofile r) (p_cwd r) (p_name r).
Definition set_p_xstate (v : Z) (r : proc) : proc :=
  Proc (p_lock r) (p_state r) (p_chan r) (p_killed r) v (p_pid r) (p_cpu_mask r) (p_timer r) (p_parent r) (p_kstack r) (p_sz r) (p_pagetable r) (p_trapframe r) (p_context r) (p_ofile r) (p_cwd r) (p_name r).
Definition set_p_pid (v : Z) (r : proc) : proc :=
  Proc (p_lock r) (p_state r) (p_chan r) (p_killed r) (p_xstate r) v (p_cpu_mask r) (p_timer r) (p_parent r) (p_kstack r) (p_sz r) (p_pagetable r) (p_trapframe r) (p_context r) (p_ofile r) (p_cwd r) (p_name r).
Definition set_p_cpu_mask (v : Z) (r : proc) : proc :=
  Proc (p_lock r) (p_state r) (p_chan r) (p_killed r) (p_xstate r) (p_pid r) v (p_timer r) (p_parent r) (p_kstack r) (p_sz r) (p_pagetable r) (p_trapframe r) (p_context r) (p_ofile r) (p_cwd r) (p_name r).
Definition set_p_timer (v : Z) (r : proc) : proc :=
  Proc (p_lock r) (p_state r) (p_chan r) (p_killed r) (p_xstate r) (p_pid r) (p_cpu_mask r) v (p_parent r) (p_kstack r) (p_sz r) (p_pagetable r) (p_trapframe r) (p_context r) (p_ofile r) (p_cwd r) (p_name r).
Definition set_p_parent (v : Z) (r : proc) : proc :=
  Proc (p_lock r) (p_state r) (p_chan r) (p_killed r) (p_xstate r) (p_pid r) (p_cpu_mask r) (p_timer r) v (p_kstack r) (p_sz r) (p_pagetable r) (p_trapframe r) (p_context r) (p_ofile r) (p_cwd r) (p_name r).
Definition set_p_kstack (v : Z) (r : proc) : proc :=
  Proc (p_lock r) (p_state r) (p_chan r) (p_killed r) (p_xstate r) (p_pid r) (p_cpu_mask r) (p_timer r) (p_parent r) v (p_sz r) (p_pagetable r) (p_trapframe r) (p_context r) (p_ofile r) (p_cwd r) (p_name r).
Definition set_p_sz (v : Z) (r : proc) : proc :=
  Proc (p_lock r) (p_state r) (p_chan r) (p_killed r) (p_xstate r) (p_pid r) (p_cpu_mask r) (p_timer r) (p_parent r) (p_kstack r) v (p_pagetable r) (p_trapframe r) (p_context r) (p_ofile r) (p_cwd r) (p_name r).
Definition set_p_pagetable (v : Z) (r : proc) : proc :=
  Proc (p_lock r) (p_state r) (p_chan r) (p_killed r) (p_xstate r) (p_pid r) (p_cpu_mask r) (p_timer r) (p_parent r) (p_kstack r) (p_sz r) v (p_trapframe r) (p_context r) (p_ofile r) (p_cwd r) (p_name r).
Definition set_p_trapframe (v : Z) (r : proc) : proc :=
  Proc (p_lock r) (p_state r) (p_chan r) (p_killed r) (p_xstate r) (p_pid r) (p_cpu_mask r) (p_timer r) (p_parent r) (p_kstack r) (p_sz r) (p_pagetable r) v (p_context r) (p_ofile r) (p_cwd r) (p_name r).
Definition set_p_context (v : Z * Z) (r : proc) : proc :=
  Proc (p_lock r) (p_state r) (p_chan r) (p_killed r) (p_xstate r) (p_pid r) (p_cpu_mask r) (p_timer r) (p_parent r) (p_kstack r) (p_sz r) (p_pagetable r) (p_trapframe r) v (p_ofile r) (p_cwd r) (p_name r).
Definition set_p_ofile (v : list Z) (r : proc) : proc :=
  Proc (p_lock r) (p_state r) (p_chan r) (p_killed r) (p_xstate r) (p_pid r) (p_cpu_mask r) (p_timer r) (p_parent r) (p_kstack r) (p_sz r) (p_pagetable r) (p_trapframe r) (p_context r) v (p_cwd r) (p_name r).
Definition set_p_cwd (v : Z) (r : proc) : proc :=
  Proc (p_lock r) (p_state r) (p_chan r) (p_killed r) (p_xstate r) (p_pid r) (p_cpu_mask r) (p_timer r) (p_parent r) (p_kstack r) (p_sz r) (p_pagetable r) (p_trapframe r) (p_context r) (p_ofile r) v (p_name r).
Definition set_p_name (v : string) (r : proc) : proc :=
  Proc (p_lock r) (p_state r) (p_chan r) (p_killed r) (p_xstate r) (p_pid r) (p_cpu_mask r) (p_timer r) (p_parent r) (p_kstack r) (p_sz r) (p_pagetable r) (p_trapframe r) (p_context r) (p_ofile r) (p_cwd r) v.

(** struct xv6timer_t *)
Record xv6timer := Xv6timer {
  t_expiry : Z;  (* ticks between interrupts *)
  t_next_tick : Z;  (* tick count of the next trigger *)
  t_proc : Z;  (* the process, by index *)
  t_callback : bool;  (* period_callback registered *)
}.
Definition set_t_expiry (v : Z) (r : xv6timer) : xv6timer :=
  Xv6timer v (t_next_tick r) (t_proc r) (t_callback r).
Definition set_t_next_tick (v : Z) (r : xv6timer) : xv6timer :=
  Xv6timer (t_expiry r) v (t_proc r) (t_callback r).
Definition set_t_proc (v : Z) (r : xv6timer) : xv6timer :=
  Xv6timer (t_expiry r) (t_next_tick r) v (t_callback r).
Definition set_t_callback (v : bool) (r : xv6timer) : xv6timer :=
  Xv6timer (t_expiry r) (t_next_tick r) (t_proc r) v.

(** The state of the process layer, as one CPU sees it. *)
Record kern := Kern {
  k_mem : kmem;
  k_procs : list proc;  (* proc[NPROC] *)
  k_cpuid : Z;  (* the CPU this code runs on *)
  k_me : Z;  (* its c->proc: index in the table, or NULLP *)
  k_noff : Z;  (* its depth of push_off nesting *)
  k_nextpid : Z;
  k_pid_lock : bool;
  k_wait_lock : bool;
  k_initproc : Z;
  k_ticks : Z;
  k_tickslock : bool;
  k_timers : gmap Z xv6timer;  (* the xv6timer_t at each page that holds one *)
  k_slept : nat;  (* how often sched() has switched away *)
}.
Definition set_k_mem (v : kmem) (r : kern) : kern :=
  Kern v (k_procs r) (k_cpuid r) (k_me r) (k_noff r) (k_nextpid r) (k_pid_lock r) (k_wait_lock r) (k_initproc r) (k_ticks r) (k_tickslock r) (k_timers r) (k_slept r).
Definition set_k_procs (v : list proc) (r : kern) : kern :=
  Kern (k_mem r) v (k_cpuid r) (k_me r) (k_noff r) (k_nextpid r) (k_pid_lock r) (k_wait_lock r) (k_initproc r) (k_ticks r) (k_tickslock r) (k_timers r) (k_slept r).
Definition set_k_cpuid (v : Z) (r : kern) : kern :=
  Kern (k_mem r) (k_procs r) v (k_me r) (k_noff r) (k_nextpid r) (k_pid_lock r) (k_wait_lock r) (k_initproc r) (k_ticks r) (k_tickslock r) (k_timers r) (k_slept r).
Definition set_k_me (v : Z) (r : kern) : kern :=
  Kern (k_mem r) (k_procs r) (k_cpuid r) v (k_noff r) (k_nextpid r) (k_pid_lock r) (k_wait_lock r) (k_initproc r) (k_ticks r) (k_tickslock r) (k_timers r) (k_slept r).
Definition set_k_noff (v : Z) (r : kern) : kern :=
  Kern (k_mem r) (k_procs r) (k_cpuid r) (k_me r) v (k_nextpid r) (k_pid_lock r) (k_wait_lock r) (k_initproc r) (k_ticks r) (k_tickslock r) (k_timers r) (k_slept r).
Definition set_k_nextpid (v : Z) (r : kern) : kern :=
  Kern (k_mem r) (k_procs r) (k_cpuid r) (k_me r) (k_noff r) v (k_pid_lock r) (k_wait_lock r) (k_initproc r) (k_ticks r) (k_tickslock r) (k_timers r) (k_slept r).
Definition set_k_pid_lock (v : bool) (r : kern) : kern :=
  Kern (k_mem r) (k_procs r) (k_cpuid r) (k_me r) (k_noff r) (k_nextpid r) v (k_wait_lock r) (k_initproc r) (k_ticks r) (k_tickslock r) (k_timers r) (k_slept r).
Definition set_k_wait_lock (v : bool) (r : kern) : kern :=
  Kern (k_mem r) (k_procs r) (k_cpuid r) (k_me r) (k_noff r) (k_nextpid r) (k_pid_lock r) v (k_initproc r) (k_ticks r) (k_tickslock r) (k_timers r) (k_slept r).
Definition set_k_initproc (v : Z) (r : kern) : kern :=
  Kern (k_mem r) (k_procs r) (k_cpuid r) (k_me r) (k_noff r) (k_nextpid r) (k_pid_lock r) (k_wait_lock r) v (k_ticks r) (k_tickslock r) (k_timers r) (k_slept r).
Definition set_k_ticks (v : Z) (r : kern) : kern :=
  Kern (k_mem r) (k_procs r) (k_cpuid r) (k_me r) (k_noff r) (k_nextpid r) (k_pid_lock r) (k_wait_lock r) (k_initproc r) v (k_tickslock r) (k_timers r) (k_slept r).
Definition set_k_tickslock (v : bool) (r : kern) : kern :=
  Kern (k_mem r) (k_procs r) (k_cpuid r) (k_me r) (k_noff r) (k_nextpid r) (k_pid_lock r) (k_wait_lock r) (k_initproc r) (k_ticks r) v (k_timers r) (k_slept r).
Definition set_k_timers (v : gmap Z xv6timer) (r : kern) : kern :=
  Kern (k_mem r) (k_procs r) (k_cpuid r) (k_me r) (k_noff r) (k_nextpid r) (k_pid_lock r) (k_wait_lock r) (k_initproc r) (k_ticks r) (k_tickslock r) v (k_slept r).
Definition set_k_slept (v : nat) (r : kern) : kern :=
  Kern (k_mem r) (k_procs r) (k_cpuid r) (k_me r) (k_noff r) (k_nextpid r) (k_pid_lock r) (k_wait_lock r) (k_initproc r) (k_ticks r) (k_tickslock r) (k_timers r) v.

#[export] Instance proc_inhabited : Inhabited proc :=
  populate (Proc false UNUSED chan0 0 0 0 0 0 NULLP 0 0 0 0 (0, 0) [] NULLP "").

(** ** Access to the table *)

(** A process of the table; [upd_proc] is the assignment to its fields. *)
Definition procp (i : Z) (s : kern) : proc := k_procs s !!! Z.to_nat i.
Definition upd_proc (i : Z) (f : proc → proc) (s : kern) : kern :=
  set_k_procs (alter f (Z.to_nat i) (k_procs s)) s.

Definition lock_of (i : Z) : lens kern bool :=
  Lens (λ s, p_lock (procp i s)) (λ b, upd_proc i (set_p_lock b)).
Definition pid_lock : lens kern bool := Lens k_pid_lock set_k_pid_lock.
Definition wait_lock : lens kern bool := Lens k_wait_lock set_k_wait_lock.
Definition tickslock : lens kern bool := Lens k_tickslock set_k_tickslock.
Definition mem_l : lens kern kmem := Lens k_mem set_k_mem.

(** ** Where the process layer is in a bigger state *)

Class HasKern (S : Type) := kv : lens S kern.
#[export] Instance kern_has_kern : HasKern kern := Lens id (λ k _, k).

Class KernLens (S : Type) `{HasKern S} : Prop := {
  kv_get_set k (s : S) : lget kv (lset kv k s) = k;
  kv_set_get (s : S) : lset kv (lget kv s) s = s;
  kv_set_set k k' (s : S) : lset kv k (lset kv k' s) = lset kv k s;
}.
#[export] Instance kern_kern_lens : KernLens kern.
Proof. by constructor. Qed.

(** [kv_env n s]: what the rest of the machine makes of [s] between the [n]-th
    time this process is switched away and the time a scheduler looks at it
    again; [None] when it is never looked at again. *)
Class KernelView (S : Type) `{HasKern S} := kv_env : nat → S → option S.

(** Run a computation of the process layer. *)
Definition kcall {S A} `{HasKern S} (m : M kern A) : M S A := lift kv m.

(** acquire and release: the lock's bit, and the CPU's nesting depth, which
    sched() looks at. *)
Definition lock_acquire {S} `{HasKern S} (l : lens S bool) : M S unit :=
  acquire l;; kcall (modify (λ s, set_k_noff (k_noff s + 1) s)).
Definition lock_release {S} `{HasKern S} (l : lens S bool) : M S unit :=
  release l;; kcall (modify (λ s, set_k_noff (k_noff s - 1) s)).

(** [for(p = proc; p < &proc[NPROC]; p++) body]; a result leaves the loop. *)
Definition for_procs {B} (body : Z → M kern (option B)) : M kern (option B) :=
  loop (S (Z.to_nat NPROC)) (λ i,
    if i <? NPROC then
      r ← body i;
      mret (match r with Some b => inr (Some b) | None => inl (i + 1) end)
    else mret (inr None)) 0.

Definition myproc : M kern Z := gets k_me.
Definition cpuid : M kern Z := gets k_cpuid.

(** ** Initialisation, pids *)

Definition procinit : M kern unit :=
  modify (set_k_pid_lock false);;
  modify (set_k_wait_lock false);;
  _ ← for_procs (B := unit) (λ i,
    modify (upd_proc i (λ p, set_p_kstack (KSTACK i) (set_p_state UNUSED (set_p_lock false p))));;
    mret None);
  mret tt.

(** nextpid is an int; it is kept in the range of int by the wrap-around of
    the machine's add instruction. *)
Definition allocpid : M kern Z :=
  lock_acquire pid_lock;;
  pid ← gets k_nextpid;
  modify (λ s, set_k_nextpid (s32 (k_nextpid s + 1)) s);;
  lock_release pid_lock;;
  mret pid.

(** ** Page tables of processes *)

Section proc.
Context `{KernelImage}.
Variable trampoline : Z.   (* the physical address of trampoline.S *)

Definition proc_pagetable (i : Z) : M kern Z :=
  pagetable ← lift mem_l uvmcreate;
  if pagetable =? 0 then mret 0 else
  r ← lift mem_l (mappages pagetable TRAMPOLINE PGSIZE trampoline (Z.lor PTE_R PTE_X));
  if r <? 0 then
    lift mem_l (uvmfree pagetable 0);; mret 0
  else
    tf ← gets (λ s, p_trapframe (procp i s));
    r ← lift mem_l (mappages pagetable TRAPFRAME PGSIZE tf (Z.lor PTE_R PTE_W));
    if r <? 0 then
      lift mem_l (uvmunmap pagetable TRAMPOLINE 1 false);;
      lift mem_l (uvmfree pagetable 0);; mret 0
    else mret pagetable.

Definition proc_freepagetable (pagetable sz : Z) : M kern unit :=
  lift mem_l (uvmunmap pagetable TRAMPOLINE 1 false);;
  lift mem_l (uvmunmap pagetable TRAPFRAME 1 false);;
  lift mem_l (uvmfree pagetable sz).

Definition freeproc (i : Z) : M kern unit :=
  p ← gets (procp i);
  (if ctrue (p_trapframe p) then lift mem_l (kfree (p_trapframe p)) else mret tt);;
  modify (upd_proc i (set_p_trapframe 0));;
  (if ctrue (p_pagetable p) then proc_freepagetable (p_pagetable p) (p_sz p) else mret tt);;
  modify (upd_proc i (λ p,
    set_p_state UNUSED (set_p_xstate 0 (set_p_killed 0 (set_p_chan chan0 (set_p_name String.EmptyString
      (set_p_parent NULLP (set_p_pid 0 (set_p_sz 0 (set_p_pagetable 0 p)))))))))).

(** The slot found is returned with its lock held; [forkret] is the address
    of that function. *)
Definition allocproc (forkret : Z) : M kern Z :=
  r ← for_procs (λ i,
    lock_acquire (lock_of i);;
    p ← gets (procp i);
    if decide (p_state p = UNUSED) then mret (Some i)
    else lock_release (lock_of i);; mret None);
  match r with
  | None => mret NULLP
  | Some i =>
      pid ← allocpid;
      modify (upd_proc i (λ p, set_p_state USED (set_p_pid pid p)));;
      tf ← lift mem_l kalloc;
      modify (upd_proc i (set_p_trapframe tf));;
      if tf =? 0 then freeproc i;; lock_release (lock_of i);; mret NULLP else
      pagetable ← proc_pagetable i;
      modify (upd_proc i (set_p_pagetable pagetable));;
      if pagetable =? 0 then freeproc i;; lock_release (lock_of i);; mret NULLP else
      modify (upd_proc i (λ p, set_p_context (forkret, p_kstack p + PGSIZE) p));;
      mret i
  end.

(** [n] is an int, added to the uint64 size. *)
Definition growproc (n : Z) : M kern Z :=
  i ← myproc;
  p ← gets (procp i);
  if n >? 0 then
    sz ← lift mem_l (uvmalloc (p_pagetable p) (p_sz p) (u64 (p_sz p + n)) PTE_W);
    if sz =? 0 then mret (-1) else
    modify (upd_proc i (set_p_sz sz));; mret 0
  else if n <? 0 then
    sz ← lift mem_l (uvmdealloc (p_pagetable p) (p_sz p) (u64 (p_sz p + n)));
    modify (upd_proc i (set_p_sz sz));; mret 0
  else modify (upd_proc i (set_p_sz (p_sz p)));; mret 0.
End proc.

(** ** Scheduling *)

(** The test of scheduler() on CPU [c]: [cpu_mask] is compared with the CPU's
    number, -1 allows every CPU. *)
Definition sched_ok (c : Z) (p : proc) : bool :=
  bool_decide (p_state p = RUNNABLE) && ((p_cpu_mask p =? -1) || (p_cpu_mask p =? c)).

(** The body of scheduler()'s loop up to swtch(): with p->lock just acquired. *)
Definition sched_in (i : Z) (s : kern) : kern :=
  set_k_me i (upd_proc i (set_p_state RUNNING) s).

(** Its end, after swtch() has come back: c->proc = 0, release(&p->lock). *)
Definition sched_out (i : Z) : M kern unit :=
  modify (set_k_me NULLP);; lock_release (lock_of i).

(** One process of scheduler()'s loop: pass it over, or switch to it. *)
Definition sched_visit (i : Z) : M kern bool :=
  lock_acquire (lock_of i);;
  c ← cpuid;
  p ← gets (procp i);
  if sched_ok c p then modify (sched_in i);; mret true
  else lock_release (lock_of i);; mret false.

(** The tests of sched().  Interrupts are off whenever the nesting depth is
    positive, so its last test cannot fail once the depth is 1.  The result
    counts the switches. *)
Definition sched_switch : M kern nat :=
  i ← myproc;
  p ← gets (procp i);
  if negb (p_lock p) then panic "sched p->lock" else
  d ← gets k_noff;
  if negb (d =? 1) then panic "sched locks" else
  if decide (p_state p = RUNNING) then panic "sched running" else
  n ← gets k_slept;
  modify (set_k_slept (Datatypes.S n));;
  mret n.

Section view.
Context {S : Type} `{!HasKern S} `{!KernelView S}.

(** The other processes run; or nothing ever runs this one again. *)
Definition others (n : nat) : M S unit := λ s,
  match kv_env n s with Some s' => Ok tt s' | None => Asleep s end.
Definition asleep : M S unit := λ s, Asleep s.

(** sched(): it returns when some CPU's scheduler has switched back. *)
Definition sched : M S unit :=
  n ← kcall sched_switch;
  i ← kcall myproc;
  kcall (sched_out i);;
  others n;;
  ok ← kcall (sched_visit i);
  if ok : bool then mret tt else asleep.

Definition yield : M S unit :=
  i ← kcall myproc;
  kcall (lock_acquire (lock_of i));;
  kcall (modify (upd_proc i (set_p_state RUNNABLE)));;
  sched;;
  kcall (lock_release (lock_of i)).

Definition sleep (c : chan) (lk : lens S bool) : M S unit :=
  i ← kcall myproc;
  p ← kcall (gets (procp i));
  if p_lock p then mret tt else
  kcall (lock_acquire (lock_of i));;
  lock_release lk;;
  kcall (modify (upd_proc i (λ p, set_p_state SLEEPING (set_p_chan c p))));;
  sched;;
  kcall (modify (upd_proc i (set_p_chan chan0)));;
  kcall (lock_release (lock_of i));;
  lock_acquire lk.
End view.

(** One turn of the loops of wakeup() and kill(). *)
Definition wakeup_one (c : chan) (i : Z) : M kern unit :=
  me ← myproc;
  if i =? me then mret tt else
  lock_acquire (lock_of i);;
  p ← gets (procp i);
  (if bool_decide (p_state p = SLEEPING) && bool_decide (p_chan p = c)
   then modify (upd_proc i (set_p_state RUNNABLE)) else mret tt);;
  lock_release (lock_of i).

Definition wakeup (c : chan) : M kern unit :=
  _ ← for_procs (B := unit) (λ i, wakeup_one c i;; mret None);
  mret tt.

Definition kill_one (pid i : Z) : M kern (option Z) :=
  lock_acquire (lock_of i);;
  p ← gets (procp i);
  if p_pid p =? pid then
    modify (upd_proc i (set_p_killed 1));;
    (if decide (p_state p = SLEEPING) then modify (upd_proc i (set_p_state RUNNABLE)) else mret tt);;
    lock_release (lock_of i);;
    mret (Some 0)
  else lock_release (lock_of i);; mret None.

Definition kill (pid : Z) : M kern Z :=
  r ← for_procs (kill_one pid);
  mret (default (-1) r).

Definition setkilled (i : Z) : M kern unit :=
  lock_acquire (lock_of i);;
  modify (upd_proc i (set_p_killed 1));;
  lock_release (lock_of i).

Definition killed (i : Z) : M kern Z :=
  lock_acquire (lock_of i);;
  k ← gets (λ s, p_killed (procp i s));
  lock_release (lock_of i);;
  mret k.

(** The channel of a pointer into the table. *)
Definition chan_proc (i : Z) : chan := if i =? NULLP then chan0 else ChProc i.

Definition reparent (i : Z) : M kern unit :=
  _ ← for_procs (B := unit) (λ j,
    pp ← gets (procp j);
    if p_parent pp =? i then
      init ← gets k_initproc;
      modify (upd_proc j (set_p_parent init));;
      wakeup (chan_proc init);;
      mret None
    else mret None);
  mret tt.

(** A 32-bit value as the kernel passes it to copyout. *)
Definition bytes32 (v : Z) : list Z := [u8 v; u8 (v / 2 ^ 8); u8 (v / 2 ^ 16); u8 (v / 2 ^ 24)].

Section wait.
Context `{KernelImage}.
Context {S : Type} `{!HasKern S} `{!KernelView S}.

(** One scan of wait() over the table: [inl r] when wait returns [r],
    [inr havekids] when the scan ends. *)
Definition wait_scan (i addr : Z) : M kern (Z + bool) :=
  loop (Datatypes.S (Z.to_nat NPROC)) (λ '(j, havekids),
    if j <? NPROC then
      pp ← gets (procp j);
      if p_parent pp =? i then
        lock_acquire (lock_of j);;
        pp ← gets (procp j);
        if decide (p_state pp = ZOMBIE) then
          p ← gets (procp i);
          r ← (if ctrue addr then lift mem_l (copyout (p_pagetable p) addr (bytes32 (p_xstate pp))) else mret 0);
          if r <? 0 then
            lock_release (lock_of j);; lock_release wait_lock;; mret (inr (inl (-1)))
          else
            freeproc j;;
            lock_release (lock_of j);; lock_release wait_lock;;
            mret (inr (inl (p_pid pp)))
        else lock_release (lock_of j);; mret (inl (j + 1, true))
      else mret (inl (j + 1, havekids))
    else mret (inr (inr havekids))) (0, false).

(** One turn of wait()'s loop; wait(), for at most [fuel] turns. *)
Definition wait_turn (i addr : Z) : M S (unit + Z) :=
  r ← kcall (wait_scan i addr);
  match r with
  | inl v => mret (inr v)
  | inr havekids =>
      k ← (if havekids : bool then kcall (killed i) else mret 1);
      if ctrue k then kcall (lock_release wait_lock);; mret (inr (-1))
      else sleep (chan_proc i) (lcomp kv wait_lock);; mret (inl tt)
  end.

Definition wait (fuel : nat) (addr : Z) : M S Z :=
  i ← kcall myproc;
  kcall (lock_acquire wait_lock);;
  loop fuel (λ _, wait_turn i addr) tt.
End wait.

(** A kernel-side buffer is a byte list; the other side is a user address or
    an address of kernel memory. *)
Definition either_copyout (user_dst : bool) (dst : Z) (src : list Z) : M kern Z :=
  i ← myproc;
  p ← gets (procp i);
  if user_dst then lift mem_l (copyout (p_pagetable p) dst src)
  else lift mem_l (modify (set_ram (λ m, store_bytes m dst src)));; mret 0.

Definition either_copyin (user_src : bool) (src len : Z) : M kern (Z * list Z) :=
  i ← myproc;
  p ← gets (procp i);
  if user_src then lift mem_l (copyin (p_pagetable p) src len)
  else bs ← lift mem_l (gets (λ k, load_bytes (kram k) src (Z.to_nat len))); mret (0, bs).

(** ** Lemmas: the table *)

(** The table has its size, and this CPU holds no process lock. *)
Record table_ok (s : kern) : Prop := {
  to_len : length (k_procs s) = Z.to_nat NPROC;
  to_free : ∀ i, 0 ≤ i < NPROC → p_lock (procp i s) = false;
}.

(** The table with [f i] applied to each process [i]. *)
Definition map_procs (f : Z → proc → proc) (s : kern) : kern :=
  set_k_procs (imap (λ i, f (Z.of_nat i)) (k_procs s)) s.

Lemma procp_map f s i : 0 ≤ i < NPROC → length (k_procs s) = Z.to_nat NPROC →
  procp i (map_procs f s) = f i (procp i s).
Proof.
  intros Hi Hl. unfold procp, map_procs. simpl.
  destruct (lookup_lt_is_Some_2 (k_procs s) (Z.to_nat i)) as [p Hp]; [lia|].
  rewrite !list_lookup_total_alt, list_lookup_imap, Hp. simpl. by rewrite Z2Nat.id by lia.
Qed.

Lemma procp_upd_eq i f s : 0 ≤ i < NPROC → length (k_procs s) = Z.to_nat NPROC →
  procp i (upd_proc i f s) = f (procp i s).
Proof.
  intros Hi Hl. unfold procp, upd_proc. simpl.
  destruct (lookup_lt_is_Some_2 (k_procs s) (Z.to_nat i)) as [p Hp]; [lia|].
  by rewrite !list_lookup_total_alt, list_lookup_alter_eq, Hp.
Qed.

Lemma procp_upd_ne i j f s : 0 ≤ i → 0 ≤ j → i ≠ j → procp j (upd_proc i f s) = procp j s.
Proof.
  intros Hi Hj Hne. unfold procp, upd_proc. simpl.
  by rewrite !list_lookup_total_alt, list_lookup_alter_ne by lia.
Qed.

Lemma set_k_procs_id ps s : ps = k_procs s → set_k_procs ps s = s.
Proof. intros ->. by destruct s. Qed.

Lemma upd_proc_id i f s : f (procp i s) = procp i s → upd_proc i f s = s.
Proof.
  intros Hf. apply set_k_procs_id. apply list_eq. intros j. destruct (decide (j = Z.to_nat i)) as [->|].
  - rewrite list_lookup_alter_eq. unfold procp in Hf. rewrite list_lookup_total_alt in Hf.
    destruct (k_procs s !! Z.to_nat i); simpl in *; congruence.
  - by rewrite list_lookup_alter_ne.
Qed.

Lemma upd_proc_compose i f g s : upd_proc i f (upd_proc i g s) = upd_proc i (λ p, f (g p)) s.
Proof. unfold upd_proc, set_k_procs. simpl. f_equal. apply list_alter_alter_eq. Qed.

(** A loop over the table whose turn [i] changes process [i] only. *)
Lemma for_procs_map {B} (body : Z → M kern (option B)) f s :
  length (k_procs s) = Z.to_nat NPROC →
  (∀ i t, 0 ≤ i < NPROC → length (k_procs t) = Z.to_nat NPROC → t = set_k_procs (k_procs t) s →
     procp i t = procp i s → body i t = Ok None (upd_proc i (f i) t)) →
  for_procs body s = Ok None (map_procs f s).
Proof.
  intros Hl Hb. unfold for_procs.
  assert (∀ (n fuel : nat) k t, (n < fuel)%nat → Z.of_nat n + k = NPROC → 0 ≤ k →
    t = set_k_procs (imap (λ i p, if decide (Z.of_nat i < k) then f (Z.of_nat i) p else p) (k_procs s)) s →
    loop fuel (λ i, if i <? NPROC then r ← body i;
       mret (match r with Some b => inr (Some b) | None => inl (i + 1) end)
       else mret (inr None)) k t = Ok None (map_procs f s)) as Hloop.
  { induction n as [|n IH]; intros [|fuel] k t Hf Hn Hk Ht; try lia; cbn [loop].
    - replace (k <? NPROC) with false by lia. subst t. unfold mbind, M_bind, mret, M_ret, map_procs.
      f_equal. f_equal. apply imap_ext. intros i p Hp. apply lookup_lt_Some in Hp.
      by rewrite decide_True by lia.
    - replace (k <? NPROC) with true by lia.
      assert (length (k_procs t) = Z.to_nat NPROC) as Hlt by (subst t; simpl; by rewrite length_imap).
      assert (procp k t = procp k s) as Hpk.
      { subst t. unfold procp. simpl. rewrite !list_lookup_total_alt, list_lookup_imap.
        destruct (k_procs s !! Z.to_nat k); [|done]. simpl. by rewrite decide_False by lia. }
      erewrite bind_ok by (erewrite bind_ok by (apply Hb; (lia || done || by subst t)); reflexivity).
      cbv beta iota. apply IH; [lia|lia|lia|]. subst t. unfold upd_proc, set_k_procs. simpl. f_equal.
      apply list_eq. intros j. rewrite list_lookup_imap.
      destruct (decide (j = Z.to_nat k)) as [->|Hj].
      + rewrite list_lookup_alter_eq, list_lookup_imap. destruct (k_procs s !! Z.to_nat k); [|done]. simpl.
        rewrite decide_False, decide_True by lia. by rewrite Z2Nat.id by lia.
      + rewrite list_lookup_alter_ne, list_lookup_imap by done. destruct (k_procs s !! j); [|done]. simpl.
        repeat case_decide; done || lia. }
  apply (Hloop (Z.to_nat NPROC)); [lia|done|done|].
  symmetry. apply set_k_procs_id. apply list_eq. intros j. rewrite list_lookup_imap. destruct (_ !! j); [|done]. simpl.
  by rewrite decide_False by lia.
Qed.

(** *** The locks of processes *)

Lemma lock_acquire_of i s : p_lock (procp i s) = false →
  lock_acquire (lock_of i) s = Ok tt (set_k_noff (k_noff s + 1) (upd_proc i (set_p_lock true) s)).
Proof. intros Hl. unfold lock_acquire, acquire. munfold. simpl. by rewrite Hl. Qed.

Lemma lock_release_of i s : p_lock (procp i s) = true →
  lock_release (lock_of i) s = Ok tt (set_k_noff (k_noff s - 1) (upd_proc i (set_p_lock false) s)).
Proof. intros Hl. unfold lock_release, release. munfold. simpl. by rewrite Hl. Qed.

Lemma procp_noff i n s : procp i (set_k_noff n s) = procp i s.
Proof. done. Qed.

Lemma procp_me i n s : procp i (set_k_me n s) = procp i s.
Proof. done. Qed.

Lemma upd_proc_noff i f n s : upd_proc i f (set_k_noff n s) = set_k_noff n (upd_proc i f s).
Proof. by destruct s. Qed.
Lemma upd_proc_me i f n s : upd_proc i f (set_k_me n s) = set_k_me n (upd_proc i f s).
Proof. by destruct s. Qed.
Lemma upd_proc_slept i f n s : upd_proc i f (set_k_slept n s) = set_k_slept n (upd_proc i f s).
Proof. by destruct s. Qed.

Lemma upd_proc_ext i f g s : f (procp i s) = g (procp i s) → upd_proc i f s = upd_proc i g s.
Proof.
  intros E. unfold upd_proc. f_equal. apply list_eq. intros j.
  destruct (decide (j = Z.to_nat i)) as [->|]; [|by rewrite !list_lookup_alter_ne].
  rewrite !list_lookup_alter_eq. unfold procp in E. rewrite list_lookup_total_alt in E.
  destruct (k_procs s !! Z.to_nat i); simpl in *; congruence.
Qed.

(** The functions that leave p->lock alone. *)
Class LockFree (f : proc → proc) : Prop := lock_free b p :
  f (set_p_lock b p) = set_p_lock b (f p).

Lemma lock_free_lock f `{!LockFree f} p : p_lock (f p) = p_lock p.
Proof.
  replace p with (set_p_lock (p_lock p) p) at 1 by (by destruct p). rewrite (lock_free (f := f)). done.
Qed.

(** A critical section of p->lock that applies [f] to the process, from its
    start to its end. *)
Definition locked_at (i : Z) (s : kern) : kern :=
  set_k_noff (k_noff s + 1) (upd_proc i (set_p_lock true) s).

Lemma procp_locked_at i s : 0 ≤ i < NPROC → length (k_procs s) = Z.to_nat NPROC →
  procp i (locked_at i s) = set_p_lock true (procp i s).
Proof. intros. unfold locked_at. by rewrite procp_noff, procp_upd_eq. Qed.

Lemma unlock_upd i f `{!LockFree f} s :
  0 ≤ i < NPROC → length (k_procs s) = Z.to_nat NPROC → p_lock (procp i s) = false →
  lock_release (lock_of i) (upd_proc i f (locked_at i s)) = Ok tt (upd_proc i f s).
Proof.
  intros Hi Hl Hf. rewrite lock_release_of.
  - f_equal. unfold locked_at, upd_proc, set_k_noff, set_k_procs. simpl. rewrite !list_alter_alter_eq.
    f_equal; [|lia]. apply list_eq. intros j. destruct (decide (j = Z.to_nat i)) as [->|].
    + rewrite !list_lookup_alter_eq. unfold procp in Hf. rewrite list_lookup_total_alt in Hf.
      destruct (k_procs s !! Z.to_nat i) as [p|]; [|done]. simpl in *. f_equal.
      rewrite (lock_free (f := f)). rewrite <- (lock_free_lock f p) in Hf. destruct (f p); simpl in *. by subst.
    + by rewrite !list_lookup_alter_ne.
  - rewrite procp_upd_eq, procp_locked_at; try done; [by rewrite (lock_free (f := f))|].
    simpl. by rewrite length_alter.
Qed.

(** The same with no change to the process. *)
Lemma unlock_same i s :
  0 ≤ i < NPROC → length (k_procs s) = Z.to_nat NPROC → p_lock (procp i s) = false →
  lock_release (lock_of i) (locked_at i s) = Ok tt s.
Proof.
  intros Hi Hl Hf. assert (LockFree id) by done.
  rewrite <- (upd_proc_id i id (locked_at i s)) at 1 by done.
  rewrite unlock_upd by done. by rewrite upd_proc_id.
Qed.

#[export] Instance set_p_state_free st : LockFree (set_p_state st).
Proof. done. Qed.
#[export] Instance set_p_killed_free k : LockFree (set_p_killed k).
Proof. done. Qed.
#[export] Instance compose_free f g : LockFree f → LockFree g → LockFree (λ p, f (g p)).
Proof. intros Hf Hg b p. by rewrite (lock_free (f := g)), (lock_free (f := f)). Qed.

(** *** wakeup and kill *)

(** What wakeup does to process [i]. *)
Definition woken (me : Z) (c : chan) (i : Z) (p : proc) : proc :=
  if bool_decide (i ≠ me) && bool_decide (p_state p = SLEEPING) && bool_decide (p_chan p = c)
  then set_p_state RUNNABLE p else p.

Lemma woken_other me c i p : p_state p ≠ SLEEPING ∨ p_chan p ≠ c → woken me c i p = p.
Proof.
  intros H. unfold woken. destruct H as [H|H]; rewrite (bool_decide_eq_false_2 _ H); by rewrite ?andb_false_r.
Qed.

Lemma wakeup_one_spec c i s :
  0 ≤ i < NPROC → length (k_procs s) = Z.to_nat NPROC → (i ≠ k_me s → p_lock (procp i s) = false) →
  wakeup_one c i s = Ok tt (upd_proc i (woken (k_me s) c i) s).
Proof.
  intros Hi Hl Hlk. unfold wakeup_one. erewrite bind_ok by reflexivity.
  destruct (i =? k_me s) eqn:Eme.
  { rewrite upd_proc_id; [done|]. unfold woken. by rewrite bool_decide_eq_false_2 by lia. }
  specialize (Hlk ltac:(lia)).
  rewrite (bind_ok _ _ _ _ _ (lock_acquire_of i s Hlk)). erewrite bind_ok by reflexivity.
  fold (locked_at i s). rewrite procp_locked_at by done. cbn [p_state p_chan set_p_lock].
  destruct (bool_decide (p_state (procp i s) = SLEEPING) && bool_decide (p_chan (procp i s) = c)) eqn:E.
  - erewrite bind_ok by reflexivity. rewrite unlock_upd by (done || apply _).
    f_equal. apply upd_proc_ext. unfold woken.
    rewrite bool_decide_eq_true_2 by lia. cbn [andb]. by rewrite E.
  - erewrite bind_ok by reflexivity. rewrite unlock_same by done.
    rewrite upd_proc_id; [done|]. unfold woken. rewrite bool_decide_eq_true_2 by lia. cbn [andb]. by rewrite E.
Qed.

Lemma wakeup_spec c s : table_ok s → wakeup c s = Ok tt (map_procs (woken (k_me s) c) s).
Proof.
  intros Hok. unfold wakeup. erewrite bind_ok; [done|].
  apply for_procs_map; [apply Hok|]. intros i t Hi Hl Ht Hp.
  assert (k_me t = k_me s) as Eme by (rewrite Ht; done).
  erewrite bind_ok by (apply wakeup_one_spec; try done; rewrite Hp; intros _; by apply Hok).
  by rewrite Eme.
Qed.

(** The loops that stop at the first process they accept. *)
Lemma for_procs_first {B} (body : Z → M kern (option B)) s t b k :
  0 ≤ k < NPROC → (∀ i, 0 ≤ i < k → body i s = Ok None s) → body k s = Ok (Some b) t →
  for_procs body s = Ok (Some b) t.
Proof.
  intros Hk Hn Hb. unfold for_procs.
  assert (∀ (n fuel : nat) i, (n < fuel)%nat → Z.of_nat n + i = k → 0 ≤ i →
    loop fuel (λ i, if i <? NPROC then r ← body i;
       mret (match r with Some b => inr (Some b) | None => inl (i + 1) end)
       else mret (inr None)) i s = Ok (Some b) t) as Hloop.
  { induction n as [|n IH]; intros [|fuel] i Hf Hi H0; try lia; cbn [loop]; replace (i <? NPROC) with true by lia.
    - replace i with k by lia. by erewrite bind_ok by (erewrite bind_ok by exact Hb; reflexivity).
    - erewrite bind_ok by (erewrite bind_ok by (apply Hn; lia); reflexivity). cbv beta iota. apply IH; lia. }
  apply (Hloop (Z.to_nat k)); lia.
Qed.

Lemma for_procs_none {B} (body : Z → M kern (option B)) s :
  (∀ i, 0 ≤ i < NPROC → body i s = Ok None s) → for_procs body s = Ok None s.
Proof.
  intros Hn. unfold for_procs.
  assert (∀ (n fuel : nat) i, (n < fuel)%nat → Z.of_nat n + i = NPROC → 0 ≤ i →
    loop fuel (λ i, if i <? NPROC then r ← body i;
       mret (match r with Some b => inr (Some b) | None => inl (i + 1) end)
       else mret (inr None)) i s = Ok None s) as Hloop.
  { induction n as [|n IH]; intros [|fuel] i Hf Hi H0; try lia; cbn [loop].
    - by replace (i <? NPROC) with false by lia.
    - replace (i <? NPROC) with true by lia.
      erewrite bind_ok by (erewrite bind_ok by (apply Hn; lia); reflexivity). cbv beta iota. apply IH; lia. }
  apply (Hloop (Z.to_nat NPROC)); [lia|done|done].
Qed.

(** What kill does to its victim. *)
Definition kill_mark (p : proc) : proc :=
  let p := set_p_killed 1 p in
  if bool_decide (p_state p = SLEEPING) then set_p_state RUNNABLE p else p.

#[export] Instance kill_mark_free : LockFree kill_mark.
Proof. intros b p. unfold kill_mark. simpl. by case_bool_decide. Qed.

Lemma kill_one_spec pid i s :
  0 ≤ i < NPROC → length (k_procs s) = Z.to_nat NPROC → p_lock (procp i s) = false →
  kill_one pid i s = if p_pid (procp i s) =? pid then Ok (Some 0) (upd_proc i kill_mark s) else Ok None s.
Proof.
  intros Hi Hl Hlk. unfold kill_one.
  rewrite (bind_ok _ _ _ _ _ (lock_acquire_of i s Hlk)). erewrite bind_ok by reflexivity.
  fold (locked_at i s). rewrite procp_locked_at by done. cbn [p_pid p_state set_p_lock].
  destruct (p_pid (procp i s) =? pid).
  - erewrite bind_ok by reflexivity.
    assert (∀ f, LockFree f → f (procp i s) = kill_mark (procp i s) →
      (lock_release (lock_of i);; mret (Some 0)) (upd_proc i f (locked_at i s)) = Ok (Some 0) (upd_proc i kill_mark s)) as Hfin.
    { intros f Hf E. erewrite bind_ok by (by apply unlock_upd). unfold mret, M_ret. f_equal. by apply upd_proc_ext. }
    unfold kill_mark in Hfin. simpl in Hfin. destruct (decide (p_state (procp i s) = SLEEPING)) as [E|E].
    + erewrite bind_ok by reflexivity. rewrite upd_proc_compose. apply Hfin; [apply _|].
      by rewrite bool_decide_eq_true_2.
    + erewrite bind_ok by reflexivity. apply Hfin; [apply _|]. by rewrite bool_decide_eq_false_2.
  - by erewrite bind_ok by (by apply unlock_same).
Qed.

(** *** sleep *)

(** A part of the bigger state that is not in the process layer. *)
Class SideLens {S T : Type} `{HasKern S} (l : lens S T) : Prop := {
  sl_get_set b s : lget l (lset l b s) = b;
  sl_set_set b b' s : lset l b (lset l b' s) = lset l b s;
  sl_kv k s : lget l (lset kv k s) = lget l s;
  kv_sl b s : lget kv (lset l b s) = lget kv s;
  sl_comm b k s : lset l b (lset kv k s) = lset kv k (lset l b s);
}.

(** The process layer when process [i] has gone to sleep on [c], and when it
    is back. *)
Definition away (i : Z) (c : chan) (k : kern) : kern :=
  set_k_slept (Datatypes.S (k_slept k)) (set_k_noff (k_noff k - 1) (set_k_me NULLP
    (upd_proc i (λ p, set_p_state SLEEPING (set_p_chan c p)) k))).
Definition resumed (i : Z) (k : kern) : kern :=
  set_k_noff (k_noff k + 1) (set_k_me i (upd_proc i (λ p, set_p_chan chan0 (set_p_state RUNNING p)) k)).

Lemma upd_proc_len i f s : length (k_procs (upd_proc i f s)) = length (k_procs s).
Proof. unfold upd_proc. simpl. apply length_alter. Qed.

(** The visit of a scheduler to a process whose lock is free. *)
Lemma sched_visit_spec i k :
  0 ≤ i < NPROC → length (k_procs k) = Z.to_nat NPROC → p_lock (procp i k) = false →
  sched_visit i k = if sched_ok (k_cpuid k) (procp i k)
    then Ok true (sched_in i (locked_at i k)) else Ok false k.
Proof.
  intros Hi Hl Hlk. unfold sched_visit. rewrite (bind_ok _ _ _ _ _ (lock_acquire_of i k Hlk)).
  fold (locked_at i k). erewrite bind_ok by reflexivity. erewrite bind_ok by reflexivity.
  rewrite procp_locked_at by done.
  change (sched_ok (k_cpuid (locked_at i k)) (set_p_lock true (procp i k)))
    with (sched_ok (k_cpuid k) (procp i k)).
  destruct (sched_ok _ _); [done|]. by erewrite bind_ok by (by apply unlock_same).
Qed.

(** The first half of sleep: up to the switch. *)
Lemma sleep_enter i c k :
  0 ≤ i < NPROC → length (k_procs k) = Z.to_nat NPROC → p_lock (procp i k) = false →
  k_me k = i → k_noff k = 1 →
  let k2 := upd_proc i (λ p, set_p_state SLEEPING (set_p_chan c p))
              (set_k_noff (k_noff k + 1 - 1) (upd_proc i (set_p_lock true) k)) in
  sched_switch k2 = Ok (k_slept k) (set_k_slept (Datatypes.S (k_slept k)) k2) ∧
  sched_out i (set_k_slept (Datatypes.S (k_slept k)) k2) = Ok tt (away i c k).
Proof.
  intros Hi Hl Hlk Hme Hn k2.
  assert (procp i k2 = set_p_state SLEEPING (set_p_chan c (set_p_lock true (procp i k)))) as Hp.
  { unfold k2. rewrite procp_upd_eq, procp_noff, procp_upd_eq by (done || (simpl; by rewrite length_alter)). done. }
  split.
  - assert (k_me k2 = i) as Hme2 by done.
    assert (k_noff k2 = 1) as Hn2 by (unfold k2; simpl; lia).
    unfold sched_switch, myproc. munfold. rewrite Hme2, Hp.
    cbn [p_lock p_state set_p_state set_p_chan set_p_lock negb]. by rewrite Hn2.
  - unfold sched_out. erewrite bind_ok by reflexivity. rewrite lock_release_of.
    + f_equal. unfold k2, away. rewrite upd_proc_me, upd_proc_slept, !upd_proc_noff, !upd_proc_compose.
      cbn [k_noff set_k_me set_k_slept set_k_noff].
      rewrite (upd_proc_ext i _ (λ p, set_p_state SLEEPING (set_p_chan c p)) k)
        by (revert Hlk; clear; destruct (procp i k); simpl; by intros ->).
      replace (k_noff k + 1 - 1 - 1) with (k_noff k - 1) by lia.
      by destruct (upd_proc i _ k).
    + change (procp i (set_k_me NULLP (set_k_slept (S (k_slept k)) k2))) with (procp i k2). by rewrite Hp.
Qed.

Lemma ok_inj {S A} (a a' : A) (s s' : S) : Ok a s = Ok a' s' → a = a' ∧ s = s'.
Proof. by intros [= -> ->]. Qed.

Section sleep.
Context {S : Type} `{!HasKern S} `{!KernLens S} `{!KernelView S}.
Context (lk : lens S bool) `{!SideLens lk}.

Lemma kcall_ok {A} (m : M kern A) s a k :
  m (lget kv s) = Ok a k → kcall m s = Ok a (lset kv k s).
Proof. apply lift_ok. Qed.

Definition noff_by (d : Z) (k : kern) : kern := set_k_noff (k_noff k + d) k.

Lemma lock_release_side s : lget lk s = true →
  lock_release lk s = Ok tt (lset kv (noff_by (-1) (lget kv s)) (lset lk false s)).
Proof.
  intros Hl. unfold lock_release, release, mbind, M_bind. rewrite Hl.
  erewrite kcall_ok by reflexivity. by rewrite kv_sl.
Qed.

Lemma lock_acquire_side s : lget lk s = false →
  lock_acquire lk s = Ok tt (lset kv (noff_by 1 (lget kv s)) (lset lk true s)).
Proof.
  intros Hl. unfold lock_acquire, acquire, mbind, M_bind. rewrite Hl.
  erewrite kcall_ok by reflexivity. by rewrite kv_sl.
Qed.

(** The second half of sleep: the visit of a scheduler. *)
Lemma sleep_leave i s :
  let k := lget kv s in
  0 ≤ i < NPROC → length (k_procs k) = Z.to_nat NPROC → p_lock (procp i k) = false →
  lget lk s = false → sched_ok (k_cpuid k) (procp i k) = true →
  (ok ← kcall (sched_visit i);
   (if ok : bool then mret tt else asleep);;
   kcall (modify (upd_proc i (set_p_chan chan0)));;
   kcall (lock_release (lock_of i));;
   lock_acquire lk) s = Ok tt (lset lk true (lset kv (resumed i k) s)).
Proof.
  intros k Hi Hl Hlk Hf Hok. pose proof (sched_visit_spec i k Hi Hl Hlk) as Hv. rewrite Hok in Hv.
  erewrite bind_ok by (apply kcall_ok, Hv). cbv beta iota. erewrite bind_ok by reflexivity.
  erewrite bind_ok by (apply kcall_ok; rewrite kv_get_set; reflexivity). rewrite kv_set_set.
  assert (LockFree (λ p, set_p_chan chan0 (set_p_state RUNNING p))) as Hfree by done.
  assert (lock_release (lock_of i) (upd_proc i (set_p_chan chan0) (sched_in i (locked_at i k))) =
    Ok tt (set_k_me i (upd_proc i (λ p, set_p_chan chan0 (set_p_state RUNNING p)) k))) as Hr.
  { unfold sched_in. rewrite upd_proc_me, upd_proc_compose.
    pose proof (unlock_upd i (λ p, set_p_chan chan0 (set_p_state RUNNING p)) k Hi Hl Hlk) as Hu.
    assert (p_lock (procp i (upd_proc i (λ p, set_p_chan chan0 (set_p_state RUNNING p)) (locked_at i k))) = true) as Hp
      by (rewrite procp_upd_eq, procp_locked_at by (done || (simpl; by rewrite length_alter)); done).
    rewrite lock_release_of in Hu by done. apply ok_inj in Hu as [_ Hu].
    rewrite lock_release_of by (by rewrite procp_me). f_equal. rewrite <- Hu. by rewrite upd_proc_me. }
  erewrite bind_ok by (apply kcall_ok; rewrite kv_get_set; exact Hr). rewrite kv_set_set.
  rewrite lock_acquire_side by (by rewrite sl_kv). rewrite kv_get_set, <- sl_comm, kv_set_set. done.
Qed.

(** sleep on a lock of the bigger state, held alone: the state the others see
    has the lock free and the process asleep; if a scheduler finds the process
    runnable again, the process has the lock back and everything else is as
    the others left it. *)
Lemma sleep_spec c s i :
  let k := lget kv s in
  k_me k = i → 0 ≤ i < NPROC → length (k_procs k) = Z.to_nat NPROC →
  p_lock (procp i k) = false → k_noff k = 1 → lget lk s = true →
  let s1 := lset kv (away i c k) (lset lk false s) in
  match kv_env (k_slept k) s1 with
  | None => sleep c lk s = Asleep s1
  | Some s2 =>
      let k2 := lget kv s2 in
      length (k_procs k2) = Z.to_nat NPROC → p_lock (procp i k2) = false → lget lk s2 = false →
      sched_ok (k_cpuid k2) (procp i k2) = true →
      sleep c lk s = Ok tt (lset lk true (lset kv (resumed i k2) s2))
  end.
Proof.
  intros k Hme Hi Hl Hlk Hn Hheld s1.
  destruct (sleep_enter i c k Hi Hl Hlk Hme Hn) as [Hsw Hout]. cbv zeta in Hsw, Hout.
  set (k1 := upd_proc i (set_p_lock true) k) in *.
  assert (sleep c lk s = (others (k_slept k);; ok ← kcall (sched_visit i);
     (if ok : bool then mret tt else asleep);;
     kcall (modify (upd_proc i (set_p_chan chan0)));;
     kcall (lock_release (lock_of i));; lock_acquire lk) s1) as ->.
  { unfold sleep. erewrite bind_ok by (by apply kcall_ok). rewrite kv_set_get.
    erewrite bind_ok by (by apply kcall_ok). rewrite kv_set_get. fold k. rewrite Hme, Hlk.
    erewrite bind_ok by (by apply kcall_ok, lock_acquire_of). fold k k1.
    rewrite (bind_ok _ _ _ _ _ (lock_release_side _ (eq_trans (sl_kv _ _) Hheld))).
    rewrite kv_get_set, sl_comm, kv_set_set.
    erewrite bind_ok by (apply kcall_ok; rewrite kv_get_set; reflexivity). rewrite kv_set_set.
    change (noff_by (-1) (set_k_noff (k_noff k + 1) k1)) with (set_k_noff (k_noff k + 1 - 1) k1).
    unfold sched. rewrite bind_assoc. erewrite bind_ok by (apply kcall_ok; rewrite kv_get_set; exact Hsw).
    rewrite kv_set_set, bind_assoc. erewrite bind_ok by (apply kcall_ok; rewrite kv_get_set; reflexivity).
    rewrite kv_set_set, bind_assoc. change (k_me (set_k_slept _ _)) with (k_me k). rewrite Hme.
    erewrite bind_ok by (apply kcall_ok; rewrite kv_get_set; exact Hout).
    rewrite kv_set_set, bind_assoc. fold s1.
    apply bind_ext. intros _ t. by rewrite bind_assoc. }
  destruct (kv_env (k_slept k) s1) as [s2|] eqn:Env.
  - intros k2 Hl2 Hlk2 Hf2 Hok2. erewrite bind_ok by (unfold others; rewrite Env; reflexivity).
    by apply sleep_leave.
  - unfold mbind, M_bind, others. by rewrite Env.
Qed.
End sleep.

(** *** Facts the components above share *)

Lemma killed_spec i s : 0 ≤ i < NPROC → table_ok s → killed i s = Ok (p_killed (procp i s)) s.
Proof.
  intros Hi Hok. unfold killed. assert (p_lock (procp i s) = false) as Hlk by (by apply Hok).
  rewrite (bind_ok _ _ _ _ _ (lock_acquire_of i s Hlk)). fold (locked_at i s).
  erewrite bind_ok by reflexivity. rewrite procp_locked_at by (done || apply Hok).
  by rewrite (bind_ok _ _ _ _ _ (unlock_same i s Hi (to_len _ Hok) Hlk)).
Qed.

Lemma table_ok_ext k k' : k_procs k' = k_procs k → table_ok k → table_ok k'.
Proof. intros E [Hl Hf]. constructor; unfold procp in *; by rewrite E. Qed.

Lemma table_ok_upd i f k : LockFree f → 0 ≤ i < NPROC → table_ok k → table_ok (upd_proc i f k).
Proof.
  intros Hf Hi Hok. constructor; [rewrite upd_proc_len; apply Hok|]. intros j Hj.
  destruct (decide (i = j)) as [<-|Hne].
  - rewrite procp_upd_eq by (done || apply Hok). rewrite lock_free_lock by done. by apply Hok.
  - rewrite procp_upd_ne by (done || lia). by apply Hok.
Qed.

Lemma woken_fields k c i p : p_lock (woken k c i p) = p_lock p ∧ p_killed (woken k c i p) = p_killed p ∧
  p_pagetable (woken k c i p) = p_pagetable p.
Proof. unfold woken. by destruct (_ && _). Qed.

Lemma noff_back k : noff_by (-1) (noff_by 1 k) = k.
Proof. destruct k. unfold noff_by, set_k_noff. simpl. f_equal. lia. Qed.

(** What wakeups do to the process layer: some other processes that slept are
    runnable, and nothing else has changed. *)
Record kframe (k k' : kern) : Prop := {
  kf_rest : k' = set_k_procs (k_procs k') k;
  kf_len : length (k_procs k') = length (k_procs k);
  kf_proc i : 0 ≤ i < NPROC → procp i k' = procp i k ∨
    (i ≠ k_me k ∧ p_state (procp i k) = SLEEPING ∧ procp i k' = set_p_state RUNNABLE (procp i k));
}.

#[export] Instance kframe_refl : Reflexive kframe.
Proof. intros k. constructor; [by destruct k|done|]. intros i _. by left. Qed.

#[export] Instance kframe_trans : Transitive kframe.
Proof.
  intros k1 k2 k3 [E1 L1 P1] [E2 L2 P2]. assert (k_me k2 = k_me k1) as Em by (rewrite E1; done). constructor.
  - rewrite E2, E1. done.
  - congruence.
  - intros i Hi. destruct (P2 i Hi) as [->|(Hm & Hs & ->)]; [by apply P1|]. right. rewrite Em in Hm.
    destruct (P1 i Hi) as [E|(_ & Hs' & E)]; rewrite E in *; [done|]. simpl in Hs. done.
Qed.

Lemma kframe_fields k k' : kframe k k' → k_mem k' = k_mem k ∧ k_me k' = k_me k ∧ k_noff k' = k_noff k ∧
  k_timers k' = k_timers k ∧ k_slept k' = k_slept k.
Proof. intros [-> _ _]. done. Qed.

Lemma kframe_me k k' : kframe k k' → 0 ≤ k_me k < NPROC → procp (k_me k) k' = procp (k_me k) k.
Proof. intros [_ _ Hp] Hm. destruct (Hp _ Hm) as [?|[? _]]; done. Qed.

Lemma kframe_ok k k' : kframe k k' → table_ok k → table_ok k'.
Proof.
  intros Hf [Hl Hlk]. constructor; [by rewrite (kf_len _ _ Hf)|]. intros i Hi.
  destruct (kf_proc _ _ Hf i Hi) as [->|(_ & _ & ->)]; by apply Hlk.
Qed.

Lemma wakeup_frame c k : table_ok k → ∃ k', wakeup c k = Ok tt k' ∧ kframe k k'.
Proof.
  intros Hok. exists (map_procs (woken (k_me k) c) k). split; [by apply wakeup_spec|].
  constructor; [done|simpl; by rewrite length_imap|]. intros i Hi. rewrite procp_map by (done || apply Hok).
  unfold woken. destruct (_ && _) eqn:E; [right|by left].
  apply andb_true_iff in E as [[?%bool_decide_eq_true ?%bool_decide_eq_true]%andb_true_iff _]. done.
Qed.

(** ** Properties *)

(** Wakeup makes runnable exactly the other processes that sleep on the
    channel, and changes nothing else of the machine. *)
Theorem wakeup_correct (c : chan) (s : kern) :
  table_ok s →
  ∃ s', wakeup c s = Ok tt s' ∧ table_ok s' ∧ s' = set_k_procs (k_procs s') s ∧
    ∀ i, 0 ≤ i < NPROC →
      (i ≠ k_me s ∧ p_state (procp i s) = SLEEPING ∧ p_chan (procp i s) = c →
         procp i s' = set_p_state RUNNABLE (procp i s)) ∧
      (¬ (i ≠ k_me s ∧ p_state (procp i s) = SLEEPING ∧ p_chan (procp i s) = c) →
         procp i s' = procp i s).
Proof.
  intros Hok. exists (map_procs (woken (k_me s) c) s). pose proof (to_len _ Hok) as Hl.
  split_and!; [by apply wakeup_spec| |done|].
  - constructor; [simpl; by rewrite length_imap|]. intros i Hi. rewrite procp_map by done.
    unfold woken. destruct (_ && _); by apply Hok.
  - intros i Hi. rewrite procp_map by done. unfold woken. split.
    + intros (H1 & H2 & H3). by rewrite !bool_decide_eq_true_2.
    + intros Hn. destruct (_ && _) eqn:E; [|done]. exfalso. apply Hn.
      apply andb_true_iff in E as [[?%bool_decide_eq_true ?%bool_decide_eq_true]%andb_true_iff ?%bool_decide_eq_true].
      done.
Qed.

(** Kill marks the first process of the table with that pid as killed,
    makes it runnable if it was asleep, and returns 0; with no such process it
    returns -1 and changes nothing. *)
Theorem kill_correct (pid : Z) (s : kern) :
  table_ok s →
  (∀ k, 0 ≤ k < NPROC → p_pid (procp k s) = pid →
     (∀ i, 0 ≤ i < k → p_pid (procp i s) ≠ pid) → kill pid s = Ok 0 (upd_proc k kill_mark s)) ∧
  ((∀ i, 0 ≤ i < NPROC → p_pid (procp i s) ≠ pid) → kill pid s = Ok (-1) s).
Proof.
  intros Hok. pose proof (to_len _ Hok) as Hl.
  assert (∀ i, 0 ≤ i < NPROC → p_pid (procp i s) ≠ pid → kill_one pid i s = Ok None s) as Hskip.
  { intros i Hi Hp. rewrite kill_one_spec by (done || by apply Hok). by replace (_ =? _) with false by lia. }
  split.
  - intros k Hk Hp Hn. unfold kill.
    rewrite (bind_ok _ _ _ (Some 0) (upd_proc k kill_mark s)); [done|].
    apply (for_procs_first _ s _ 0 k); [done|intros i Hi; apply Hskip; [lia|by apply Hn]|].
    rewrite kill_one_spec by (done || by apply Hok). by rewrite Hp, Z.eqb_refl.
  - intros Hn. unfold kill. erewrite bind_ok by (apply for_procs_none; intros i Hi; by apply Hskip, Hn). done.
Qed.

(** ** Witnesses: a table whose process 3 sleeps on the clock *)

Definition proc_run : proc := Proc false RUNNING chan0 0 0 1 (-1) 0 NULLP 0 0 0 0 (0, 0) [] NULLP "init".
Definition proc_asleep : proc := Proc false SLEEPING ChTicks 0 0 7 (-1) 0 0 0 0 0 0 (0, 0) [] NULLP "sh".
Definition kern3 : kern :=
  Kern blank (proc_run :: replicate 2 inhabitant ++ proc_asleep :: replicate 60 inhabitant)
    0 0 0 8 false false 0 5 false ∅ 0.

Lemma kern3_ok : table_ok kern3.
Proof.
  constructor; [done|]. intros i Hi. unfold procp.
  assert (Forall (λ p, p_lock p = false) (k_procs kern3)) as Hf by (repeat constructor).
  rewrite list_lookup_total_alt. destruct (k_procs kern3 !! Z.to_nat i) as [p|] eqn:E; [|done].
  by apply (Forall_lookup_1 _ _ _ _ Hf E).
Qed.

Lemma wakeup_correct_witness :
  ∃ s', wakeup ChTicks kern3 = Ok tt s' ∧ p_state (procp 3 s') = RUNNABLE ∧ p_state (procp 0 s') = RUNNING.
Proof.
  destruct (wakeup_correct ChTicks kern3 kern3_ok) as (s' & Hr & _ & _ & Hp).
  exists s'. split_and!; [exact Hr| |].
  - destruct (Hp 3) as [Hw _]; [unfold NPROC; lia|]. rewrite Hw; [done|]. split_and!; [|done|done]. discriminate.
  - destruct (Hp 0) as [_ Hs]; [unfold NPROC; lia|]. rewrite Hs; [reflexivity|]. intros [Hne _]. apply Hne. reflexivity.
Defined.

Lemma kill_correct_witness :
  ∃ s', kill 7 kern3 = Ok 0 s' ∧ p_killed (procp 3 s') = 1 ∧ p_state (procp 3 s') = RUNNABLE ∧
    kill 99 kern3 = Ok (-1) kern3.
Proof.
  destruct (kill_correct 7 kern3 kern3_ok) as [Hk _]. destruct (kill_correct 99 kern3 kern3_ok) as [_ Hn].
  exists (upd_proc 3 kill_mark kern3). split_and!; [|done|done|].
  - apply (Hk 3); [unfold NPROC; lia|done|]. intros i Hi.
    assert (i = 0 ∨ i = 1 ∨ i = 2) as [->|[->| ->]] by lia; vm_compute; discriminate.
  - apply Hn. intros i Hi.
    assert (Forall (λ p, p_pid p ≠ 99) (k_procs kern3)) as Hf by (repeat constructor; discriminate).
    unfold procp. rewrite list_lookup_total_alt.
    destruct (k_procs kern3 !! Z.to_nat i) as [p|] eqn:E; [|discriminate].
    by apply (Forall_lookup_1 _ _ _ _ Hf E).
Defined.
