(* ===== verification/Sched.v ===== *)
(** * Several CPUs running the scheduler: kernel/proc.c

    The CPUs share the process table and interleave at the critical sections
    of the process locks; each step below is one such section of proc.c, run by
    the definitions of Proc.v on the view of one CPU.  A CPU that finds a lock
    held spins: it has no step. *)
From stdpp Require Import gmap functions.
From S2P Require Import Prelude Mem Spinlock Riscv Kalloc Vm Proc.
Open Scope Z_scope.

(** c->proc and c->noff of a CPU. *)
Record cpuv := Cpuv { c_proc : Z; c_noff : Z }.

Record sys := Sys {
  y_kern : kern;
  y_cpu : Z → cpuv;
}.

(** What CPU [c] sees, and what it leaves behind. *)
Definition view (c : Z) (y : sys) : kern :=
  set_k_cpuid c (set_k_noff (c_noff (y_cpu y c)) (set_k_me (c_proc (y_cpu y c)) (y_kern y))).
Definition commit (c : Z) (k : kern) (y : sys) : sys :=
  Sys k (<[c := Cpuv (k_me k) (k_noff k)]> (y_cpu y)).

(** The ways a process gives up its CPU, up to the switch: yield(), sleep()
    (which releases the caller's lock once it holds p->lock), exit(). *)
Definition leave_yield : M kern unit :=
  i ← myproc;
  lock_acquire (lock_of i);;
  modify (upd_proc i (set_p_state RUNNABLE));;
  _ ← sched_switch; sched_out i.
Definition leave_sleep (c : chan) : M kern unit :=
  i ← myproc;
  lock_acquire (lock_of i);;
  modify (noff_by (-1));;
  modify (upd_proc i (λ p, set_p_state SLEEPING (set_p_chan c p)));;
  _ ← sched_switch; sched_out i.
Definition leave_exit (status : Z) : M kern unit :=
  i ← myproc;
  lock_acquire (lock_of i);;
  modify (upd_proc i (λ p, set_p_state ZOMBIE (set_p_xstate status p)));;
  _ ← sched_switch; sched_out i.

(** A critical section of the lock of process [i] that moves it from one state
    to another: allocproc's claim, the end of fork, freeproc, and the callback
    of its timer. *)
Definition move (i : Z) (from to : procstate) : M kern unit :=
  lock_acquire (lock_of i);;
  p ← gets (procp i);
  (if decide (p_state p = from) then modify (upd_proc i (set_p_state to)) else mret tt);;
  lock_release (lock_of i).

Definition may_move (from to : procstate) : bool :=
  match from, to with
  | UNUSED, USED | USED, RUNNABLE | USED, UNUSED | ZOMBIE, UNUSED | SLEEPING, RUNNABLE => true
  | _, _ => false
  end.

Inductive act :=
| AVisit (i : Z)              (* scheduler(): look at process i *)
| AResume                     (* the process switched to releases its lock *)
| AYield | ASleep (c : chan) | AExit (status : Z)
| AWakeup (c : chan) (i : Z) | AKill (pid i : Z)
| AMove (i : Z) (from to : procstate)
| AAffinity (mask : Z)        (* sys_set_cpu_affinity *)
| ALock | AUnlock.            (* some other spin lock *)

(** The code of an action, as CPU [c] runs it. *)
Definition run_act (a : act) : M kern unit :=
  me ← myproc;
  match a with
  | AVisit i => if me =? NULLP then _ ← sched_visit i; mret tt else panic "not in scheduler"
  | AResume => lock_release (lock_of me)
  | AYield => leave_yield
  | ASleep c => leave_sleep c
  | AExit st => leave_exit st
  | AWakeup c i => wakeup_one c i
  | AKill pid i => _ ← kill_one pid i; mret tt
  | AMove i from to => if may_move from to then move i from to else panic "no such move"
  | AAffinity m =>
      lock_acquire (lock_of me);; modify (upd_proc me (set_p_cpu_mask m));; lock_release (lock_of me)
  | ALock => modify (noff_by 1)
  | AUnlock => modify (noff_by (-1))
  end.

(** Which process an action names besides the caller. *)
Definition act_ok (a : act) : Prop :=
  match a with AVisit i | AWakeup _ i | AKill _ i | AMove i _ _ => 0 ≤ i < NPROC | _ => True end.
(** Who takes the action: the scheduler visits, a process does the rest; a
    device interrupt may also wake. *)
Definition caller_ok (a : act) (me : Z) : Prop :=
  match a with
  | AVisit _ | AWakeup _ _ | AMove _ SLEEPING RUNNABLE | ALock | AUnlock => True
  | _ => 0 ≤ me < NPROC
  end.

Inductive sys_step : sys → sys → Prop :=
| sys_act c a y k :
    act_ok a → caller_ok a (c_proc (y_cpu y c)) → run_act a (view c y) = Ok tt k →
    sys_step y (commit c k y).

Inductive sys_reach (y0 : sys) : sys → Prop :=
| sr_init : sys_reach y0 y0
| sr_step y y' : sys_reach y0 y → sys_step y y' → sys_reach y0 y'.

(** Every CPU in its scheduler, no process running. *)
Definition sys_boot (y : sys) : Prop :=
  length (k_procs (y_kern y)) = Z.to_nat NPROC ∧
  (∀ c, y_cpu y c = Cpuv NULLP 0) ∧
  ∀ i, 0 ≤ i < NPROC → p_state (procp i (y_kern y)) ≠ RUNNING ∧ p_lock (procp i (y_kern y)) = false.

(** A process is RUNNING exactly when some CPU has it as its process, and then
    only one CPU has. *)
Record sched_inv (y : sys) : Prop := {
  si_len : length (k_procs (y_kern y)) = Z.to_nat NPROC;
  si_me : ∀ c, c_proc (y_cpu y c) = NULLP ∨ 0 ≤ c_proc (y_cpu y c) < NPROC;
  si_run : ∀ i, 0 ≤ i < NPROC →
    p_state (procp i (y_kern y)) = RUNNING ↔ ∃ c, c_proc (y_cpu y c) = i;
  si_one : ∀ c c', c_proc (y_cpu y c) = c_proc (y_cpu y c') → c_proc (y_cpu y c) ≠ NULLP → c = c';
}.

(** ** Lemmas *)

Lemma procp_view i c y : procp i (view c y) = procp i (y_kern y).
Proof. done. Qed.

(** The CPU keeps its process; the running processes stay the running ones. *)
Lemma inv_same c k y :
  sched_inv y → k_me k = c_proc (y_cpu y c) → length (k_procs k) = Z.to_nat NPROC →
  (∀ i, 0 ≤ i < NPROC → p_state (procp i k) = RUNNING ↔ p_state (procp i (y_kern y)) = RUNNING) →
  sched_inv (commit c k y).
Proof.
  intros Hinv Hme Hl Hst.
  assert (∀ c', c_proc (y_cpu (commit c k y) c') = c_proc (y_cpu y c')) as Hc.
  { intros c'. simpl. destruct (decide (c = c')) as [->|]; [by rewrite fn_lookup_insert|by rewrite fn_lookup_insert_ne]. }
  constructor.
  - done.
  - intros c'. rewrite Hc. apply Hinv.
  - intros i Hi. change (y_kern (commit c k y)) with k. rewrite Hst, (si_run _ Hinv) by done.
    split; intros [c' ?]; exists c'; [by rewrite Hc|by rewrite <- Hc].
  - intros c1 c2. rewrite !Hc. apply Hinv.
Qed.

(** The CPU switches to process [i], which was not running. *)
Lemma inv_enter c k y i :
  sched_inv y → c_proc (y_cpu y c) = NULLP → 0 ≤ i < NPROC → k_me k = i →
  length (k_procs k) = Z.to_nat NPROC → p_state (procp i (y_kern y)) ≠ RUNNING →
  p_state (procp i k) = RUNNING →
  (∀ j, 0 ≤ j < NPROC → j ≠ i → p_state (procp j k) = p_state (procp j (y_kern y))) →
  sched_inv (commit c k y).
Proof.
  intros Hinv Hnull Hi Hme Hl Hn Hr Hst.
  assert (∀ c', c_proc (y_cpu (commit c k y) c') = if decide (c = c') then i else c_proc (y_cpu y c')) as Hc.
  { intros c'. simpl. case_decide as E; [subst c'; by rewrite fn_lookup_insert|by rewrite fn_lookup_insert_ne]. }
  assert (∀ c', c_proc (y_cpu y c') ≠ i) as Hni.
  { intros c' E. apply Hn, (si_run _ Hinv); [done|]. by exists c'. }
  constructor.
  - done.
  - intros c'. rewrite Hc. case_decide; [by right|apply Hinv].
  - intros j Hj. change (y_kern (commit c k y)) with k. destruct (decide (j = i)) as [->|Hji].
    + split; [|done]. intros _. exists c. rewrite Hc. by rewrite decide_True.
    + rewrite Hst, (si_run _ Hinv) by done. split; intros [c' E]; exists c'.
      * rewrite Hc. rewrite decide_False; [done|]. intros <-. unfold NULLP in *. lia.
      * rewrite Hc in E. case_decide; [lia|done].
  - intros c1 c2. rewrite !Hc. repeat case_decide; subst; try done.
    + intros E. by destruct (Hni c2).
    + intros E. by destruct (Hni c1).
    + apply Hinv.
Qed.

(** The CPU's process stops running and the CPU goes to its scheduler. *)
Lemma inv_leave c k y i :
  sched_inv y → c_proc (y_cpu y c) = i → 0 ≤ i < NPROC → k_me k = NULLP →
  length (k_procs k) = Z.to_nat NPROC → p_state (procp i k) ≠ RUNNING →
  (∀ j, 0 ≤ j < NPROC → j ≠ i → p_state (procp j k) = p_state (procp j (y_kern y))) →
  sched_inv (commit c k y).
Proof.
  intros Hinv Hci Hi Hme Hl Hn Hst.
  assert (∀ c', c_proc (y_cpu (commit c k y) c') = if decide (c = c') then NULLP else c_proc (y_cpu y c')) as Hc.
  { intros c'. simpl. case_decide as E; [subst c'; by rewrite fn_lookup_insert|by rewrite fn_lookup_insert_ne]. }
  constructor.
  - done.
  - intros c'. rewrite Hc. case_decide; [by left|apply Hinv].
  - intros j Hj. change (y_kern (commit c k y)) with k. destruct (decide (j = i)) as [->|Hji].
    + split; [done|]. intros [c' E]. rewrite Hc in E. case_decide as Hd; [unfold NULLP in *; lia|].
      exfalso. apply Hd. apply (si_one _ Hinv); unfold NULLP; [congruence|lia].
    + rewrite Hst, (si_run _ Hinv) by done. split; intros [c' E]; exists c'.
      * rewrite Hc. rewrite decide_False; [done|]. intros <-. lia.
      * rewrite Hc in E. case_decide; [unfold NULLP in *; lia|done].
  - intros c1 c2. rewrite !Hc. repeat case_decide; subst; try done. apply Hinv.
Qed.

Lemma lock_acquire_inv i s t : lock_acquire (lock_of i) s = Ok tt t →
  p_lock (procp i s) = false ∧ t = locked_at i s.
Proof.
  destruct (p_lock (procp i s)) eqn:E.
  - unfold lock_acquire, acquire, mbind, M_bind. simpl. by rewrite E.
  - rewrite lock_acquire_of by done. by intros [= <-].
Qed.

Lemma lock_release_inv i s t : lock_release (lock_of i) s = Ok tt t →
  t = set_k_noff (k_noff s - 1) (upd_proc i (set_p_lock false) s).
Proof.
  destruct (p_lock (procp i s)) eqn:E.
  - rewrite lock_release_of by done. by intros [= <-].
  - unfold lock_release, release, mbind, M_bind. simpl. by rewrite E.
Qed.

(** The state of process [j] after an assignment to process [i]. *)
Lemma state_upd i j f s : 0 ≤ i < NPROC → 0 ≤ j < NPROC → length (k_procs s) = Z.to_nat NPROC →
  p_state (procp j (upd_proc i f s)) = if decide (j = i) then p_state (f (procp i s)) else p_state (procp j s).
Proof.
  intros Hi Hj Hl. case_decide as E; [subst; by rewrite procp_upd_eq|].
  by rewrite procp_upd_ne by lia.
Qed.

(** Leaving the CPU: the process's state is what it was set to, which is not
    RUNNING, and the other processes are as they were. *)
Lemma leave_inv i f g s k :
  (∀ t, k_me (g t) = k_me t) → (∀ t, k_procs (g t) = k_procs (upd_proc i f t)) → (∀ b p, p_state (f (set_p_lock b p)) = p_state (f p)) →
  0 ≤ i < NPROC → length (k_procs s) = Z.to_nat NPROC → k_me s = i →
  (lock_acquire (lock_of i);; modify g;; _ ← sched_switch; sched_out i) s = Ok tt k →
  k_me k = NULLP ∧ length (k_procs k) = Z.to_nat NPROC ∧ p_state (procp i k) ≠ RUNNING ∧
  ∀ j, 0 ≤ j < NPROC → j ≠ i → p_state (procp j k) = p_state (procp j s).
Proof.
  intros Hgm Hgp Hf Hi Hl Hme H.
  apply bind_ok_inv in H as ([] & s1 & [_ ->]%lock_acquire_inv & H).
  apply bind_ok_inv in H as ([] & s2 & [= <-] & H).
  apply bind_ok_inv in H as (n & s3 & Hsw & H).
  assert (k_procs s3 = k_procs (g (locked_at i s)) ∧ p_state (procp i (g (locked_at i s))) ≠ RUNNING) as [Hs3 Hne].
  { unfold sched_switch in Hsw. munfold. unfold myproc, gets in Hsw. rewrite Hgm in Hsw.
    change (k_me (locked_at i s)) with (k_me s) in Hsw. rewrite Hme in Hsw.
    destruct (negb (p_lock _)); [done|]. destruct (negb (_ =? 1)); [done|].
    destruct (decide _) as [|Hne]; [done|]. injection Hsw as <- <-. done. }
  unfold sched_out in H. apply bind_ok_inv in H as ([] & s4 & [= <-] & H%lock_release_inv). subst k.
  assert (length (k_procs (g (locked_at i s))) = Z.to_nat NPROC) as Hlg.
  { rewrite Hgp, upd_proc_len. simpl. by rewrite length_alter. }
  assert (∀ j, procp j s3 = procp j (upd_proc i f (locked_at i s))) as Hp3.
  { intros j. unfold procp. by rewrite Hs3, Hgp. }
  assert (length (k_procs s3) = Z.to_nat NPROC) as Hl3 by (by rewrite Hs3).
  assert (length (k_procs (locked_at i s)) = Z.to_nat NPROC) as Hla by (simpl; by rewrite length_alter).
  assert (∀ j, 0 ≤ j < NPROC → p_state (procp j (upd_proc i (set_p_lock false) s3)) = p_state (procp j s3)) as Hrel.
  { intros j Hj. rewrite state_upd by done. case_decide; [subst; done|done]. }
  split_and!; [done|simpl; by rewrite length_alter| |].
  - rewrite procp_noff. change (procp i (upd_proc i (set_p_lock false) (set_k_me NULLP s3)))
      with (procp i (upd_proc i (set_p_lock false) s3)). rewrite Hrel, Hp3 by done.
    unfold procp in *. by rewrite <- Hgp.
  - intros j Hj Hji. rewrite procp_noff. change (procp j (upd_proc i (set_p_lock false) (set_k_me NULLP s3)))
      with (procp j (upd_proc i (set_p_lock false) s3)). rewrite Hrel, Hp3 by done.
    rewrite state_upd, decide_False by done. unfold locked_at. rewrite procp_noff, state_upd by done.
    by rewrite decide_False.
Qed.

(** An action that starts with a lock that is held does not return. *)
Lemma held_stuck {A} i (kont : unit → M kern A) s a k :
  p_lock (procp i s) = true → (lock_acquire (lock_of i) ≫= kont) s ≠ Ok a k.
Proof.
  intros Hl H. apply bind_ok_inv in H as ([] & t & [Hf _]%lock_acquire_inv & _). congruence.
Qed.

Definition moved (from to : procstate) (p : proc) : proc :=
  if bool_decide (p_state p = from) then set_p_state to p else p.

#[export] Instance set_p_cpu_mask_free m : LockFree (set_p_cpu_mask m).
Proof. done. Qed.

Lemma move_spec i from to s :
  0 ≤ i < NPROC → length (k_procs s) = Z.to_nat NPROC → p_lock (procp i s) = false →
  move i from to s = Ok tt (upd_proc i (moved from to) s).
Proof.
  intros Hi Hl Hlk. unfold move. rewrite (bind_ok _ _ _ _ _ (lock_acquire_of i s Hlk)).
  erewrite bind_ok by reflexivity. fold (locked_at i s). rewrite procp_locked_at by done.
  cbn [p_state set_p_lock]. destruct (decide (p_state (procp i s) = from)) as [E|E].
  - erewrite bind_ok by reflexivity. rewrite unlock_upd by (done || apply _). f_equal.
    apply upd_proc_ext. unfold moved. by rewrite bool_decide_eq_true_2.
  - erewrite bind_ok by reflexivity. rewrite unlock_same by done. rewrite upd_proc_id; [done|].
    unfold moved. by rewrite bool_decide_eq_false_2.
Qed.

(** Changing one process without touching RUNNING keeps the invariant. *)
Lemma inv_upd c i f y :
  sched_inv y → 0 ≤ i < NPROC →
  (p_state (f (procp i (y_kern y))) = RUNNING ↔ p_state (procp i (y_kern y)) = RUNNING) →
  sched_inv (commit c (upd_proc i f (view c y)) y).
Proof.
  intros Hinv Hi Hf. pose proof (si_len _ Hinv) as Hl. apply inv_same; [done|done|by rewrite upd_proc_len|].
  intros j Hj. rewrite state_upd by done. rewrite !procp_view. case_decide; [by subst|done].
Qed.

Lemma inv_noff c d y : sched_inv y → sched_inv (commit c (noff_by d (view c y)) y).
Proof. intros Hinv. apply inv_same; [done|done|apply Hinv|done]. Qed.

(** A process that leaves its CPU. *)
Lemma inv_leaving c f g y k :
  sched_inv y → 0 ≤ c_proc (y_cpu y c) < NPROC →
  (∀ t, k_me (g t) = k_me t) → (∀ t, k_procs (g t) = k_procs (upd_proc (c_proc (y_cpu y c)) f t)) →
  (∀ b p, p_state (f (set_p_lock b p)) = p_state (f p)) →
  (lock_acquire (lock_of (c_proc (y_cpu y c)));; modify g;;
   _ ← sched_switch; sched_out (c_proc (y_cpu y c))) (view c y) = Ok tt k →
  sched_inv (commit c k y).
Proof.
  intros Hinv Hme Hg1 Hg2 Hf Hrun. pose proof (si_len _ Hinv) as Hl.
  destruct (leave_inv _ f g (view c y) k Hg1 Hg2 Hf Hme Hl eq_refl Hrun) as (Hk & Hlk & Hn & Hj).
  by apply (inv_leave c k y (c_proc (y_cpu y c))).
Qed.

Lemma sched_inv_step y y' : sched_inv y → sys_step y y' → sched_inv y'.
Proof.
  intros Hinv Hstep. destruct Hstep as [c a y k Hok Hcall Hrun].
  pose proof (si_len _ Hinv) as Hl. unfold run_act in Hrun. erewrite bind_ok in Hrun by reflexivity.
  change (k_me (view c y)) with (c_proc (y_cpu y c)) in Hrun.
  destruct a as [i| | |ch|st|ch i|pid i|i from to|m| |]; simpl in Hok, Hcall.
  - (* scheduler() *)
    destruct (c_proc (y_cpu y c) =? NULLP) eqn:E; [|done].
    apply bind_ok_inv in Hrun as (b & t & Hv & [= <-]).
    destruct (p_lock (procp i (y_kern y))) eqn:Hlk; [by apply held_stuck in Hv|].
    rewrite sched_visit_spec in Hv by done. rewrite procp_view in Hv.
    destruct (sched_ok _ _) eqn:Es; injection Hv as <- <-.
    + unfold sched_ok in Es. apply andb_true_iff in Es as [Hst%bool_decide_eq_true _].
      unfold sched_in. apply (inv_enter c _ y i); try done; [lia|simpl; by rewrite !length_alter|congruence| |].
      * rewrite procp_me, procp_upd_eq by (done || (simpl; by rewrite length_alter)). done.
      * intros j Hj Hji. rewrite procp_me, procp_upd_ne by lia. unfold locked_at.
        by rewrite procp_noff, procp_upd_ne by lia.
    + by apply inv_same.
  - (* the process switched to starts *)
    apply lock_release_inv in Hrun. subst k.
    apply inv_same; [done|done|simpl; by rewrite length_alter|].
    intros j Hj. rewrite procp_noff, state_upd by done. case_decide; [by subst|done].
  - by apply (inv_leaving c (set_p_state RUNNABLE) (upd_proc (c_proc (y_cpu y c)) (set_p_state RUNNABLE))).
  - by apply (inv_leaving c (λ p, set_p_state SLEEPING (set_p_chan ch p))
      (λ t, upd_proc (c_proc (y_cpu y c)) (λ p, set_p_state SLEEPING (set_p_chan ch p)) (noff_by (-1) t))).
  - by apply (inv_leaving c (λ p, set_p_state ZOMBIE (set_p_xstate st p))
      (upd_proc (c_proc (y_cpu y c)) (λ p, set_p_state ZOMBIE (set_p_xstate st p)))).
  - (* wakeup() *)
    assert (k = upd_proc i (woken (c_proc (y_cpu y c)) ch i) (view c y)) as ->.
    { destruct (decide (i = c_proc (y_cpu y c))) as [Hi|Hi].
      - rewrite wakeup_one_spec in Hrun by done. by injection Hrun as <-.
      - destruct (p_lock (procp i (y_kern y))) eqn:Hlk.
        + unfold wakeup_one in Hrun. erewrite bind_ok in Hrun by reflexivity.
          change (k_me (view c y)) with (c_proc (y_cpu y c)) in Hrun.
          replace (i =? c_proc (y_cpu y c)) with false in Hrun by lia. by apply held_stuck in Hrun.
        + rewrite wakeup_one_spec in Hrun by done. by injection Hrun as <-. }
    apply inv_upd; [done|done|]. unfold woken. destruct (_ && _) eqn:E; [|done].
    apply andb_true_iff in E as [[_ E%bool_decide_eq_true]%andb_true_iff _]. rewrite E. done.
  - (* kill() *)
    apply bind_ok_inv in Hrun as (r & t & Hk & [= <-]).
    destruct (p_lock (procp i (y_kern y))) eqn:Hlk; [by apply held_stuck in Hk|].
    rewrite kill_one_spec in Hk by done. destruct (_ =? pid); injection Hk as <- <-.
    + apply inv_upd; [done|done|]. unfold kill_mark. case_bool_decide as E; [|done]. simpl in *. by rewrite E.
    + by apply inv_same.
  - destruct (may_move from to) eqn:Em; [|done].
    destruct (p_lock (procp i (y_kern y))) eqn:Hlk; [by apply held_stuck in Hrun|].
    rewrite move_spec in Hrun by done. injection Hrun as <-.
    apply inv_upd; [done|done|]. unfold moved. case_bool_decide as E; [|done]. rewrite E.
    by destruct from, to.
  - destruct (p_lock (procp (c_proc (y_cpu y c)) (y_kern y))) eqn:Hlk; [by apply held_stuck in Hrun|].
    rewrite (bind_ok _ _ _ _ _ (lock_acquire_of _ (view c y) Hlk)) in Hrun.
    erewrite bind_ok in Hrun by reflexivity. fold (locked_at (c_proc (y_cpu y c)) (view c y)) in Hrun.
    rewrite unlock_upd in Hrun by (done || apply _). injection Hrun as <-. by apply inv_upd.
  - injection Hrun as <-. by apply inv_noff.
  - injection Hrun as <-. by apply inv_noff.
Qed.

Lemma sys_boot_inv y : sys_boot y → sched_inv y.
Proof.
  intros (Hl & Hc & Hp). constructor; [done| | |].
  - intros c. rewrite Hc. by left.
  - intros i Hi. split; [by intros ?%Hp|]. intros [c E]. rewrite Hc in E. unfold NULLP in E. simpl in E. lia.
  - intros c c' _ Hn. rewrite Hc in Hn. done.
Qed.

(** ** Properties *)

(** C31: however the CPUs interleave scheduling, yielding, sleeping, waking,
    killing, exiting and forking, no process is ever the current process of
    two CPUs, and a process is RUNNING exactly when it is the current process
    of a CPU. *)
Theorem no_process_on_two_cpus (y0 y : sys) :
  sys_boot y0 → sys_reach y0 y →
  (∀ c c' i, c_proc (y_cpu y c) = i → c_proc (y_cpu y c') = i → i ≠ NULLP → c = c') ∧
  (∀ i, 0 ≤ i < NPROC → p_state (procp i (y_kern y)) = RUNNING ↔ ∃ c, c_proc (y_cpu y c) = i).
Proof.
  intros Hb Hr. assert (sched_inv y) as Hinv.
  { induction Hr; [by apply sys_boot_inv|]. by eapply sched_inv_step. }
  split; [|apply Hinv]. intros c c' i H1 H2 Hn. apply (si_one _ Hinv); congruence.
Qed.

(** ** Witnesses: process 3 runnable and bound to CPU 2 *)

Definition proc_bound : proc := Proc false RUNNABLE chan0 0 0 7 2 0 NULLP 0 0 0 0 (0, 0) [] NULLP "sh".
Definition sys2 : sys :=
  Sys (Kern blank (replicate 3 inhabitant ++ proc_bound :: replicate 60 inhabitant)
         0 NULLP 0 8 false false 0 5 false ∅ 0) (λ _, Cpuv NULLP 0).

Lemma sys2_boot : sys_boot sys2.
Proof.
  split_and!; [done|done|]. intros i Hi. unfold procp.
  assert (Forall (λ p, p_state p ≠ RUNNING ∧ p_lock p = false) (k_procs (y_kern sys2))) as Hf
    by (repeat constructor; discriminate).
  rewrite list_lookup_total_alt. destruct (k_procs (y_kern sys2) !! Z.to_nat i) as [p|] eqn:E; [|done].
  by apply (Forall_lookup_1 _ _ _ _ Hf E).
Qed.

(** CPU 2 has switched to process 3. *)
Definition sys2' : sys := commit 2 (sched_in 3 (locked_at 3 (view 2 sys2))) sys2.

Lemma no_process_on_two_cpus_witness :
  c_proc (y_cpu sys2' 2) = 3 ∧ ∀ c, c_proc (y_cpu sys2' c) = 3 → c = 2.
Proof.
  assert (sys_reach sys2 sys2') as Hr.
  { eapply sr_step; [apply sr_init|]. apply (sys_act 2 (AVisit 3)); [unfold act_ok, NPROC; lia|done|].
    vm_compute. reflexivity. }
  split; [done|]. intros c Hc.
  apply (proj1 (no_process_on_two_cpus sys2 sys2' sys2_boot Hr) c 2 3); [done|done|discriminate].
Defined.
