(* ===== verification/Timer.v ===== *)
(** * Clock interrupts, timers and periodic tasks: proj3/kernel and kernel/trap.c

    proj3/kernel/timer.c, periodic_tasks.c and cpu_affinity.c, and clockintr()
    of kernel/trap.c, which drives the timers.  A timer lives in a page of its
    own; the map [k_timers] of the process layer has the timers by page. *)
From stdpp Require Import gmap.
From S2P Require Import Prelude Mem Spinlock Riscv Kalloc Vm Proc.
Open Scope Z_scope.

Definition timer0 : xv6timer := Xv6timer 0 0 NULLP false.

(** The timer a pointer points at, and an assignment to its fields. *)
Definition timer_at (a : Z) (s : kern) : xv6timer := default timer0 (k_timers s !! a).
Definition upd_timer (a : Z) (f : xv6timer → xv6timer) (s : kern) : kern :=
  set_k_timers (<[a := f (timer_at a s)]> (k_timers s)) s.

(** ** timer.c *)

Definition xv6timer_init (ptimer proc : Z) : M kern unit :=
  modify (upd_timer ptimer (λ _, Xv6timer 0 0 proc false)).

Definition xv6timer_forward (ptimer expiry : Z) : M kern unit :=
  modify (λ s, upd_timer ptimer
    (λ t, set_t_next_tick (u32 (k_ticks s + expiry)) (set_t_expiry expiry t)) s).

Definition xv6timer_register_callback (ptimer : Z) (callback : bool) : M kern unit :=
  modify (upd_timer ptimer (set_t_callback callback)).

Definition period_callback (timer : Z) : M kern unit :=
  i ← gets (λ s, t_proc (timer_at timer s));
  lock_acquire (lock_of i);;
  p ← gets (procp i);
  (if decide (p_state p = SLEEPING) then modify (upd_proc i (set_p_state RUNNABLE)) else mret tt);;
  lock_release (lock_of i).

Definition xv6timer_interrupt (ptimer : Z) : M kern unit :=
  t ← gets (timer_at ptimer);
  now ← gets k_ticks;
  if t_callback t && (now >=? t_next_tick t) then
    period_callback ptimer;;
    modify (λ s, upd_timer ptimer (λ t, set_t_next_tick (u32 (k_ticks s + t_expiry t)) t) s)
  else mret tt.

(** ** periodic_tasks.c and cpu_affinity.c; the argument is what argint() read *)

Definition sys_setperiod (period : Z) : M kern Z :=
  if period <? 1 then mret (-1) else
  i ← myproc;
  p ← gets (procp i);
  (if p_timer p =? 0 then
     a ← lift mem_l kalloc;
     modify (upd_proc i (set_p_timer a));;
     if a =? 0 then mret (-1) else
     xv6timer_init a i;;
     xv6timer_register_callback a true;;
     mret 0
   else mret 0) ≫= λ r,
  if r =? -1 then mret (-1) else
  a ← gets (λ s, p_timer (procp i s));
  xv6timer_forward a period;;
  mret 0.

Section view.
Context {S : Type} `{!HasKern S} `{!KernelView S}.

Definition sys_wait_until_next_period : M S Z :=
  i ← kcall myproc;
  p ← kcall (gets (procp i));
  if p_timer p =? 0 then mret (-1) else
  kcall (lock_acquire (lock_of i));;
  kcall (modify (upd_proc i (set_p_state SLEEPING)));;
  sched;;
  kcall (lock_release (lock_of i));;
  mret 0.
End view.

Definition sys_set_cpu_affinity (mask : Z) : M kern Z :=
  i ← myproc;
  lock_acquire (lock_of i);;
  modify (upd_proc i (set_p_cpu_mask mask));;
  lock_release (lock_of i);;
  mret 0.

(** ** clockintr(), on the CPU it runs on; the timer hardware's next deadline
    is not in the state *)

Definition clock_one (i : Z) : M kern (option unit) :=
  p ← gets (procp i);
  if bool_decide (p_state p ≠ UNUSED) && ctrue (p_timer p) then
    t ← gets (timer_at (p_timer p));
    now ← gets k_ticks;
    if now >=? t_next_tick t then
      if t_callback t then
        period_callback (p_timer p);;
        modify (λ s, upd_timer (p_timer p) (λ t, set_t_next_tick (u32 (k_ticks s + t_expiry t)) t) s);;
        mret None
      else mret None
    else mret None
  else mret None.

Definition clockintr : M kern unit :=
  c ← cpuid;
  if c =? 0 then
    lock_acquire tickslock;;
    modify (λ s, set_k_ticks (u32 (k_ticks s + 1)) s);;
    _ ← for_procs clock_one;
    wakeup ChTicks;;
    lock_release tickslock
  else mret tt.

(** ** Lemmas *)

(** A loop over the table that keeps an invariant indexed by the turn. *)
Lemma for_procs_inv {B} (body : Z → M kern (option B)) (I : Z → kern → Prop) s :
  I 0 s → (∀ i t, 0 ≤ i < NPROC → I i t → ∃ t', body i t = Ok None t' ∧ I (i + 1) t') →
  ∃ t, for_procs body s = Ok None t ∧ I NPROC t.
Proof.
  intros H0 Hb. unfold for_procs.
  assert (∀ (n fuel : nat) i t, (n < fuel)%nat → Z.of_nat n + i = NPROC → 0 ≤ i → I i t →
    ∃ t', loop fuel (λ i, if i <? NPROC then r ← body i;
       mret (match r with Some b => inr (Some b) | None => inl (i + 1) end)
       else mret (inr None)) i t = Ok None t' ∧ I NPROC t') as Hloop.
  { induction n as [|n IH]; intros [|fuel] i t Hf Hi Hi0 HI; try lia; cbn [loop].
    - exists t. replace (i <? NPROC) with false by lia. split; [done|]. by replace NPROC with i by lia.
    - replace (i <? NPROC) with true by lia. destruct (Hb i t) as (t1 & Hr & HI1); [lia|done|].
      destruct (IH fuel (i + 1) t1) as (t' & Hl & HI'); try lia; try done. exists t'. split; [|done].
      erewrite bind_ok by (erewrite bind_ok by exact Hr; reflexivity). exact Hl. }
  destruct (Hloop (Z.to_nat NPROC) (S (Z.to_nat NPROC)) 0 s) as (t & ? & ?); [lia|done|done|done|by exists t].
Qed.

Lemma procp_timer i a f s : procp i (upd_timer a f s) = procp i s.
Proof. done. Qed.

Lemma timer_at_upd a b f s :
  timer_at b (upd_timer a f s) = if decide (b = a) then f (timer_at a s) else timer_at b s.
Proof.
  unfold timer_at, upd_timer. simpl. case_decide as E.
  - subst. by rewrite lookup_insert_eq.
  - by rewrite lookup_insert_ne.
Qed.

(** A runnable copy of a sleeping process. *)
Definition roused (p : proc) : proc := if bool_decide (p_state p = SLEEPING) then set_p_state RUNNABLE p else p.

Lemma period_callback_spec a i s :
  t_proc (timer_at a s) = i → 0 ≤ i < NPROC → length (k_procs s) = Z.to_nat NPROC →
  p_lock (procp i s) = false → period_callback a s = Ok tt (upd_proc i roused s).
Proof.
  intros Ht Hi Hl Hlk. unfold period_callback. erewrite bind_ok by reflexivity. rewrite Ht.
  rewrite (bind_ok _ _ _ _ _ (lock_acquire_of i s Hlk)). erewrite bind_ok by reflexivity.
  fold (locked_at i s). rewrite procp_locked_at by done. cbn [p_state set_p_lock].
  destruct (decide (p_state (procp i s) = SLEEPING)) as [E|E].
  - erewrite bind_ok by reflexivity. rewrite unlock_upd by (done || apply _). f_equal.
    apply upd_proc_ext. unfold roused. by rewrite bool_decide_eq_true_2.
  - erewrite bind_ok by reflexivity. rewrite unlock_same by done. rewrite upd_proc_id; [done|].
    unfold roused. by rewrite bool_decide_eq_false_2.
Qed.

(** The timers of the live processes: each belongs to its process, and no two
    processes have the same one. *)
Record timers_ok (s : kern) : Prop := {
  tm_proc : ∀ i, 0 ≤ i < NPROC → p_state (procp i s) ≠ UNUSED → p_timer (procp i s) ≠ 0 →
    t_proc (timer_at (p_timer (procp i s)) s) = i;
}.

(** Process [i]'s timer goes off at tick [now]. *)
Definition expired (now i : Z) (s : kern) : bool :=
  bool_decide (p_state (procp i s) ≠ UNUSED) && ctrue (p_timer (procp i s)) &&
  (now >=? t_next_tick (timer_at (p_timer (procp i s)) s)) && t_callback (timer_at (p_timer (procp i s)) s).

Definition rearmed (now : Z) (t : xv6timer) : xv6timer := set_t_next_tick (u32 (now + t_expiry t)) t.

(** The state after the first [k] turns of clockintr's loop, from [s]. *)
Record clock_at (now : Z) (s : kern) (k : Z) (t : kern) : Prop := {
  ca_rest : t = set_k_timers (k_timers t) (set_k_procs (k_procs t) s);
  ca_len : length (k_procs t) = Z.to_nat NPROC;
  ca_proc : ∀ j, 0 ≤ j < NPROC → procp j t =
    if bool_decide (j < k) && expired now j s then roused (procp j s) else procp j s;
  ca_timer : ∀ j, 0 ≤ j < NPROC → p_state (procp j s) ≠ UNUSED → p_timer (procp j s) ≠ 0 →
    timer_at (p_timer (procp j s)) t =
    if bool_decide (j < k) && expired now j s then rearmed now (timer_at (p_timer (procp j s)) s)
    else timer_at (p_timer (procp j s)) s;
}.

Lemma clock_one_spec now s k t :
  table_ok s → timers_ok s → k_ticks s = now → 0 ≤ k < NPROC → clock_at now s k t →
  ∃ t', clock_one k t = Ok None t' ∧ clock_at now s (k + 1) t'.
Proof.
  intros Hok Htm Hnow Hk Hca.
  assert (procp k t = procp k s) as Hpk by (rewrite (ca_proc _ _ _ _ Hca) by done; by rewrite bool_decide_eq_false_2 by lia).
  assert (k_ticks t = now) as Htk by (rewrite (ca_rest _ _ _ _ Hca); done).
  assert (∀ j, 0 ≤ j < NPROC → j ≠ k → bool_decide (j < k + 1) = bool_decide (j < k)) as Hlt
    by (intros; repeat case_bool_decide; done || lia).
  assert (expired now k s = false → clock_at now s (k + 1) t) as Hno.
  { intros E. constructor; try apply Hca.
    - intros j Hj. rewrite (ca_proc _ _ _ _ Hca) by done. destruct (decide (j = k)) as [->|]; [|by rewrite Hlt].
      by rewrite E, !andb_false_r.
    - intros j Hj H1 H2. rewrite (ca_timer _ _ _ _ Hca) by done. destruct (decide (j = k)) as [->|]; [|by rewrite Hlt].
      by rewrite E, !andb_false_r. }
  unfold clock_one. erewrite bind_ok by reflexivity. rewrite Hpk. unfold expired in Hno.
  destruct (bool_decide (p_state (procp k s) ≠ UNUSED)) eqn:E1; cbn [andb] in *; [|by exists t; split; [|apply Hno]].
  destruct (ctrue (p_timer (procp k s))) eqn:E2; cbn [andb] in *; [|by exists t; split; [|apply Hno]].
  apply bool_decide_eq_true in E1. unfold ctrue in E2. assert (p_timer (procp k s) ≠ 0) as E2' by lia.
  set (a := p_timer (procp k s)) in *.
  assert (timer_at a t = timer_at a s) as Hta.
  { unfold a. rewrite (ca_timer _ _ _ _ Hca) by done. by rewrite bool_decide_eq_false_2 by lia. }
  erewrite bind_ok by reflexivity. erewrite bind_ok by reflexivity. rewrite Hta, Htk.
  destruct (now >=? t_next_tick (timer_at a s)) eqn:E3; cbn [andb] in *; [|by exists t; split; [|apply Hno]].
  destruct (t_callback (timer_at a s)) eqn:E4; [|by exists t; split; [|apply Hno]].
  assert (expired now k s = true) as Hexp.
  { unfold expired. fold a. rewrite bool_decide_eq_true_2, E3, E4 by done. unfold ctrue. by rewrite E2. }
  erewrite bind_ok.
  2:{ apply (period_callback_spec a k); [rewrite Hta; by apply Htm|done|apply Hca|rewrite Hpk; by apply Hok]. }
  erewrite bind_ok by reflexivity. eexists. split; [reflexivity|].
  change (k_ticks (upd_proc k roused t)) with (k_ticks t). rewrite Htk.
  assert (∀ j, 0 ≤ j < NPROC → p_state (procp j s) ≠ UNUSED → p_timer (procp j s) ≠ 0 → j ≠ k →
    p_timer (procp j s) ≠ a) as Hdist.
  { intros j Hj Hs Ht Hjk E. apply Hjk. rewrite <- (tm_proc _ Htm j Hj Hs Ht), <- (tm_proc _ Htm k Hk E1 E2').
    by fold a; rewrite E. }
  constructor.
  - rewrite (ca_rest _ _ _ _ Hca) at 1. by destruct s.
  - simpl. rewrite length_alter. apply Hca.
  - intros j Hj. rewrite procp_timer. destruct (decide (j = k)) as [->|Hjk].
    + rewrite procp_upd_eq, Hpk, Hexp, bool_decide_eq_true_2 by (done || lia || apply Hca). done.
    + rewrite procp_upd_ne, (ca_proc _ _ _ _ Hca), Hlt by (done || lia). done.
  - intros j Hj Hs Ht. rewrite timer_at_upd. destruct (decide (j = k)) as [->|Hjk].
    + fold a. rewrite decide_True, Hexp, bool_decide_eq_true_2 by (done || lia). cbn [andb].
      change (timer_at a (upd_proc k roused t)) with (timer_at a t). by rewrite Hta.
    + rewrite decide_False by (by apply Hdist). rewrite Hlt by done.
      change (timer_at (p_timer (procp j s)) (upd_proc k roused t)) with (timer_at (p_timer (procp j s)) t).
      by rewrite (ca_timer _ _ _ _ Hca).
Qed.

(** A clock interrupt on CPU 0, as a whole. *)
Record clocked (s s' : kern) : Prop := {
  cl_ok : table_ok s';
  cl_ticks : k_ticks s' = u32 (k_ticks s + 1);
  cl_me : k_me s' = k_me s;
  cl_cpuid : k_cpuid s' = k_cpuid s;
  cl_noff : k_noff s' = k_noff s;
  cl_lock : k_tickslock s' = false;
  cl_mem : k_mem s' = k_mem s;
  cl_proc : ∀ i, 0 ≤ i < NPROC → procp i s' = woken (k_me s) ChTicks i
    (if expired (u32 (k_ticks s + 1)) i s then roused (procp i s) else procp i s);
  cl_timer : ∀ i, 0 ≤ i < NPROC → p_state (procp i s) ≠ UNUSED → p_timer (procp i s) ≠ 0 →
    timer_at (p_timer (procp i s)) s' =
    if expired (u32 (k_ticks s + 1)) i s then rearmed (u32 (k_ticks s + 1)) (timer_at (p_timer (procp i s)) s)
    else timer_at (p_timer (procp i s)) s;
}.

Lemma clockintr_spec s :
  table_ok s → timers_ok s → k_cpuid s = 0 → k_tickslock s = false →
  ∃ s', clockintr s = Ok tt s' ∧ clocked s s'.
Proof.
  intros Hok Htm Hc Hlk. set (now := u32 (k_ticks s + 1)).
  set (s1 := set_k_ticks now (noff_by 1 (set_k_tickslock true s))).
  assert (table_ok s1) as Hok1 by (constructor; apply Hok).
  assert (timers_ok s1) as Htm1 by (constructor; apply Htm).
  destruct (for_procs_inv clock_one (clock_at now s1) s1) as (t & Hrun & Hca).
  { constructor; [by destruct s|apply Hok| |].
    - intros j Hj. by rewrite bool_decide_eq_false_2 by lia.
    - intros j Hj _ _. by rewrite bool_decide_eq_false_2 by lia. }
  { intros i t Hi. by apply clock_one_spec. }
  assert (∀ j, expired now j s1 = expired now j s) as Hexp by done.
  assert (table_ok t) as Hokt.
  { constructor; [apply Hca|]. intros j Hj. rewrite (ca_proc _ _ _ _ Hca) by done.
    destruct (_ && _); [unfold roused; case_bool_decide|]; by apply Hok. }
  pose proof (wakeup_spec ChTicks t Hokt) as Hw.
  set (t2 := map_procs (woken (k_me t) ChTicks) t) in *.
  assert (k_me t = k_me s) as Hme by (rewrite (ca_rest _ _ _ _ Hca); done).
  assert (t2 = set_k_timers (k_timers t) (set_k_procs (k_procs t2) s1)) as Ht2.
  { transitivity (set_k_procs (k_procs t2) (set_k_timers (k_timers t) (set_k_procs (k_procs t) s1))); [|done].
    by rewrite <- (ca_rest _ _ _ _ Hca). }
  exists (noff_by (-1) (set_k_tickslock false t2)). split.
  { unfold clockintr. erewrite bind_ok by reflexivity. rewrite Hc. cbn [Z.eqb].
    erewrite bind_ok by (unfold lock_acquire, acquire, mbind, M_bind; simpl; rewrite Hlk; reflexivity).
    erewrite bind_ok by reflexivity.
    change (set_k_ticks _ _) with s1.
    rewrite (bind_ok _ _ _ _ _ Hrun), (bind_ok _ _ _ _ _ Hw).
    assert (k_tickslock t = true) as Hl2 by (rewrite (ca_rest _ _ _ _ Hca); done).
    unfold lock_release, release, mbind, M_bind. simpl lget. by rewrite Hl2. }
  assert (∀ i, 0 ≤ i < NPROC → procp i (noff_by (-1) (set_k_tickslock false t2)) =
    woken (k_me s) ChTicks i (if expired now i s then roused (procp i s) else procp i s)) as Hp.
  { intros i Hi. change (procp i (noff_by (-1) (set_k_tickslock false t2))) with (procp i t2).
    unfold t2. rewrite procp_map by (done || apply Hca). rewrite Hme, (ca_proc _ _ _ _ Hca) by done.
    rewrite bool_decide_eq_true_2 by lia. done. }
  constructor; try (rewrite Ht2; done).
  - constructor; [simpl; rewrite length_imap; apply Hca|]. intros i Hi. rewrite Hp by done.
    unfold woken, roused. repeat case_bool_decide; cbn [andb]; destruct (expired _ _ _); by apply Hok.
  - rewrite Ht2. simpl. lia.
  - intros i Hi H1 H2. rewrite Ht2. change (timer_at (p_timer (procp i s)) (noff_by _ _)) with (timer_at (p_timer (procp i s1)) t).
    rewrite (ca_timer _ _ _ _ Hca) by done. by rewrite bool_decide_eq_true_2 by lia.
Qed.

Lemma clocked_same_timer s s' i : clocked s s' → 0 ≤ i < NPROC → p_timer (procp i s') = p_timer (procp i s) ∧
  (p_state (procp i s') ≠ UNUSED ↔ p_state (procp i s) ≠ UNUSED).
Proof.
  intros Hcl Hi. rewrite (cl_proc _ _ Hcl) by done. unfold woken, roused.
  destruct (expired _ _ _); repeat case_bool_decide; cbn [andb p_timer p_state set_p_state]; split; try done; simpl in *; split; congruence.
Qed.

Lemma clocked_timers_ok s s' : clocked s s' → timers_ok s → timers_ok s'.
Proof.
  intros Hcl Htm. constructor. intros i Hi H1 H2.
  destruct (clocked_same_timer s s' i Hcl Hi) as [Et Es]. rewrite Et in *. apply Es in H1.
  rewrite (cl_timer _ _ Hcl) by done. destruct (expired _ _ _); simpl; by apply Htm.
Qed.

Fixpoint clock_ticks (n : nat) : M kern unit :=
  match n with O => mret tt | S n' => clock_ticks n';; clockintr end.

(** Process [i] has a timer of period [P] that goes off at tick [next]. *)
Record armed (i P next : Z) (s : kern) : Prop := {
  ar_live : p_state (procp i s) ≠ UNUSED;
  ar_timer : p_timer (procp i s) ≠ 0;
  ar_at : timer_at (p_timer (procp i s)) s = Xv6timer P next i true;
}.

Lemma armed_expired i P next now s : armed i P next s → expired now i s = (now >=? next).
Proof.
  intros [Hl Ht Ha]. unfold expired. rewrite bool_decide_eq_true_2, Ha by done. unfold ctrue. simpl.
  replace (p_timer (procp i s) =? 0) with false by lia. simpl. apply andb_true_r.
Qed.

Lemma clocked_armed i P next s s' :
  0 ≤ i < NPROC → clocked s s' → armed i P next s →
  armed i P (if u32 (k_ticks s + 1) >=? next then u32 (u32 (k_ticks s + 1) + P) else next) s'.
Proof.
  intros Hi Hcl Har. destruct (clocked_same_timer s s' i Hcl Hi) as [Et Es]. constructor.
  - apply Es, Har.
  - rewrite Et. apply Har.
  - rewrite Et, (cl_timer _ _ Hcl) by (done || apply Har).
    rewrite (armed_expired _ _ _ _ _ Har), (ar_at _ _ _ _ Har). by destruct (_ >=? next).
Qed.

Lemma next_release t0 n P : 0 < P → 0 ≤ n →
  (if t0 + n + 1 >=? t0 + (n / P + 1) * P then t0 + n + 1 + P else t0 + (n / P + 1) * P) =
  t0 + ((n + 1) / P + 1) * P.
Proof.
  intros HP Hn. pose proof (Z.div_mod n P ltac:(lia)) as Hd. pose proof (Z.mod_pos_bound n P HP) as Hm.
  set (q := n / P) in *. set (r := n mod P) in *.
  destruct (decide (r = P - 1)) as [E|E].
  - replace ((n + 1) / P) with (q + 1) by (apply Z.div_unique with 0; lia).
    replace (_ >=? _) with true by nia. nia.
  - replace ((n + 1) / P) with q by (apply Z.div_unique with (r + 1); lia).
    replace (_ >=? _) with false by nia. done.
Qed.

(** ** A periodic task *)

(** The state is one in which the clock interrupts of CPU 0 run. *)
Record clock_ready (s : kern) : Prop := {
  cr_ok : table_ok s;
  cr_timers : timers_ok s;
  cr_cpuid : k_cpuid s = 0;
  cr_lock : k_tickslock s = false;
}.

Lemma clock_tick s : clock_ready s → ∃ s', clockintr s = Ok tt s' ∧ clocked s s' ∧ clock_ready s'.
Proof.
  intros [Hok Htm Hc Hlk]. destruct (clockintr_spec s Hok Htm Hc Hlk) as (s' & Hr & Hcl). exists s'. split_and!; [done|done|].
  constructor; [apply Hcl|by eapply clocked_timers_ok|by rewrite (cl_cpuid _ _ Hcl)|apply Hcl].
Qed.

(** Process [i] runs outside the kernel, on a CPU it is allowed on. *)
Record running (i : Z) (s : kern) : Prop := {
  rn_me : k_me s = i;
  rn_noff : k_noff s = 0;
  rn_state : p_state (procp i s) = RUNNING;
  rn_chan : p_chan (procp i s) ≠ ChTicks;
  rn_mask : p_cpu_mask (procp i s) = -1 ∨ p_cpu_mask (procp i s) = 0;
}.

Lemma clocked_running i s s' : 0 ≤ i < NPROC → clocked s s' → running i s → running i s' ∧ procp i s' = procp i s.
Proof.
  intros Hi Hcl Hr. assert (procp i s' = procp i s) as E.
  { rewrite (cl_proc _ _ Hcl) by done. rewrite (rn_me _ _ Hr). assert (roused (procp i s) = procp i s) as ->
      by (unfold roused; by rewrite (rn_state _ _ Hr)).
    destruct (expired _ _ _); unfold woken; by rewrite (rn_state _ _ Hr), !andb_false_r || by rewrite (rn_state _ _ Hr). }
  split; [|done]. constructor; rewrite ?E; try apply Hr; [by rewrite (cl_me _ _ Hcl); apply Hr|by rewrite (cl_noff _ _ Hcl); apply Hr].
Qed.

(** The clock ticks [n] times while the task runs, from a release on. *)
Lemma job_ticks (n : nat) s i P :
  clock_ready s → running i s → 0 ≤ i < NPROC → 1 ≤ P → 0 ≤ k_ticks s →
  k_ticks s + Z.of_nat n + P < 2 ^ 32 → armed i P (k_ticks s + P) s →
  ∃ s', clock_ticks n s = Ok tt s' ∧ clock_ready s' ∧ running i s' ∧ k_ticks s' = k_ticks s + Z.of_nat n ∧
    armed i P (k_ticks s + (Z.of_nat n / P + 1) * P) s'.
Proof.
  intros Hcr Hrn Hi HP Ht0 Hmax Har. induction n as [|n IH].
  - exists s. change (Z.of_nat 0) with 0. rewrite Z.div_0_l, Z.add_0_r by lia.
    replace ((0 + 1) * P) with P by lia. done.
  - destruct IH as (s1 & Hr & Hcr1 & Hrn1 & Htk1 & Har1); [lia|]. destruct (clock_tick s1 Hcr1) as (s2 & Hr2 & Hcl & Hcr2).
    pose proof (clocked_armed _ _ _ _ _ Hi Hcl Har1) as Har2.
    assert (u32 (k_ticks s1 + 1) = k_ticks s + Z.of_nat n + 1) as Hu by (rewrite Htk1; apply u32_small; lia).
    rewrite Hu in Har2. rewrite (u32_small (_ + P)) in Har2 by lia.
    rewrite next_release in Har2 by lia. replace (Z.of_nat n + 1) with (Z.of_nat (S n)) in Har2 by lia.
    exists s2. split_and!; [|done|by eapply clocked_running| |done].
    + cbn [clock_ticks]. by rewrite (bind_ok _ _ _ _ _ Hr).
    + rewrite (cl_ticks _ _ Hcl), Hu. lia.
Qed.

(** What happens while task [i] sleeps in a system with nothing else to run: clock
    interrupts, until one of them makes the task runnable; [fuel] bounds them. *)
Fixpoint clock_until (fuel : nat) (i : Z) (s : kern) : option kern :=
  if bool_decide (p_state (procp i s) = SLEEPING) then
    match fuel with
    | O => None
    | S fuel' => match clockintr s with Ok _ s' => clock_until fuel' i s' | _ => None end
    end
  else Some s.
Definition only_clock (fuel : nat) (i : Z) : KernelView kern := λ _ s, clock_until fuel i s.

(** Of the interrupts up to tick [next], it is the last that makes it runnable. *)
Lemma sleep_ticks (m fuel : nat) s i P next :
  clock_ready s → 0 ≤ i < NPROC → k_me s ≠ i → p_state (procp i s) = SLEEPING → p_chan (procp i s) ≠ ChTicks →
  armed i P next s → 1 ≤ P → 0 ≤ k_ticks s → k_ticks s + Z.of_nat (S m) = next → (S m ≤ fuel)%nat → next + P < 2 ^ 32 →
  ∃ s', clock_until fuel i s = Some s' ∧ clock_ready s' ∧ k_ticks s' = next ∧ k_noff s' = k_noff s ∧
    procp i s' = set_p_state RUNNABLE (procp i s) ∧ armed i P (next + P) s'.
Proof.
  revert fuel s. induction m as [|m IH]; intros fuel s Hcr Hi Hme Hst Hch Har HP Ht0 Hnext Hf Hmax; (destruct fuel as [|fuel]; [lia|]);
    cbn [clock_until]; rewrite bool_decide_eq_true_2 by done; destruct (clock_tick s Hcr) as (s1 & Hr & Hcl & Hcr1); rewrite Hr;
    pose proof (clocked_armed _ _ _ _ _ Hi Hcl Har) as Har1;
    (assert (u32 (k_ticks s + 1) = k_ticks s + 1) as Hu by (apply u32_small; lia));
    pose proof (cl_proc _ _ Hcl i Hi) as Hp; rewrite (armed_expired _ _ _ _ _ Har) in Hp; rewrite Hu in *.
  - replace (_ >=? next) with true in * by lia. rewrite u32_small in Har1 by lia. rewrite woken_other in Hp.
    2:{ left. unfold roused. by rewrite bool_decide_eq_true_2. }
    unfold roused in Hp. rewrite bool_decide_eq_true_2 in Hp by done. exists s1.
    assert (clock_until fuel i s1 = Some s1) as -> by (destruct fuel; cbn [clock_until]; rewrite Hp; by rewrite bool_decide_eq_false_2).
    split_and!; [done|done|rewrite (cl_ticks _ _ Hcl); lia|by rewrite (cl_noff _ _ Hcl)|done|].
    by replace (next + P) with (k_ticks s + 1 + P) by lia.
  - replace (_ >=? next) with false in * by lia. rewrite woken_other in Hp by (by right).
    destruct (IH fuel s1) as (s' & Hs' & Hcr' & Htk' & Hn' & Hp' & Har'); try done; try lia.
    + by rewrite (cl_me _ _ Hcl).
    + by rewrite Hp.
    + by rewrite Hp.
    + rewrite (cl_ticks _ _ Hcl). lia.
    + rewrite (cl_ticks _ _ Hcl). lia.
    + exists s'. split_and!; [done|done|done|by rewrite Hn', (cl_noff _ _ Hcl)|by rewrite Hp', Hp|done].
Qed.

(** Process [i] has gone to sleep in wait_until_next_period, and is back. *)
Definition waits (i : Z) (s : kern) : kern :=
  upd_proc i (set_p_state SLEEPING) (set_k_me NULLP (set_k_slept (S (k_slept s)) s)).
Definition resumes (i : Z) (s : kern) : kern := upd_proc i (set_p_state RUNNING) (set_k_me i s).

Lemma kcall_kern {A} (m : M kern A) s : kcall m s = m s.
Proof. unfold kcall, lift. simpl. by destruct (m s). Qed.

Lemma wait_spec `{KV : !KernelView kern} i s s2 :
  table_ok s → running i s → 0 ≤ i < NPROC → p_timer (procp i s) ≠ 0 →
  kv_env (k_slept s) (waits i s) = Some s2 → table_ok s2 → sched_ok (k_cpuid s2) (procp i s2) = true →
  sys_wait_until_next_period s = Ok 0 (resumes i s2).
Proof.
  intros Hok Hrn Hi Ht Henv Hok2 Hso. pose proof (to_len _ Hok) as Hl. pose proof (to_free _ Hok i Hi) as Hlk.
  pose proof (to_len _ Hok2) as Hl2. pose proof (to_free _ Hok2 i Hi) as Hlk2.
  unfold sys_wait_until_next_period. erewrite bind_ok by (by rewrite kcall_kern). rewrite (rn_me _ _ Hrn).
  erewrite bind_ok by (by rewrite kcall_kern). replace (_ =? 0) with false by lia.
  erewrite bind_ok by (rewrite kcall_kern; by apply lock_acquire_of). fold (locked_at i s).
  erewrite bind_ok by (by rewrite kcall_kern). unfold sched. rewrite bind_assoc.
  set (s1 := upd_proc i (set_p_state SLEEPING) (locked_at i s)).
  assert (procp i s1 = set_p_state SLEEPING (set_p_lock true (procp i s))) as Hp1.
  { unfold s1. rewrite procp_upd_eq by (done || (simpl; by rewrite length_alter)). by rewrite procp_locked_at. }
  assert (sched_switch s1 = Ok (k_slept s) (set_k_slept (S (k_slept s)) s1)) as Hsw.
  { unfold sched_switch, myproc. munfold. change (k_me s1) with (k_me s). rewrite (rn_me _ _ Hrn), Hp1. cbn [p_lock p_state set_p_state set_p_lock negb].
    change (k_noff s1) with (k_noff s + 1). by rewrite (rn_noff _ _ Hrn). }
  erewrite bind_ok by (rewrite kcall_kern; exact Hsw). rewrite bind_assoc. erewrite bind_ok by (by rewrite kcall_kern).
  change (k_me (set_k_slept _ s1)) with (k_me s). rewrite (rn_me _ _ Hrn), bind_assoc.
  assert (sched_out i (set_k_slept (S (k_slept s)) s1) = Ok tt (waits i s)) as Hout.
  { unfold sched_out. erewrite bind_ok by reflexivity.
    exact (unlock_upd i (set_p_state SLEEPING) (set_k_me NULLP (set_k_slept (S (k_slept s)) s)) Hi Hl Hlk). }
  erewrite bind_ok by (rewrite kcall_kern; exact Hout). rewrite bind_assoc.
  erewrite bind_ok by (unfold others; by rewrite Henv). rewrite bind_assoc.
  pose proof (sched_visit_spec i s2 Hi Hl2 Hlk2) as Hv. rewrite Hso in Hv.
  erewrite bind_ok by (rewrite kcall_kern; exact Hv). cbv beta iota. erewrite bind_ok by reflexivity.
  erewrite bind_ok; [reflexivity|]. rewrite kcall_kern.
  exact (unlock_upd i (set_p_state RUNNING) (set_k_me i s2) Hi Hl2 Hlk2).
Qed.

(** The task's own program: a job of [d] ticks and a call of wait_until_next_period, for
    each of the jobs; the result is the list of the ticks at which the calls return. *)
Fixpoint task_run `{!KernelView kern} (ds : list nat) : M kern (list Z) :=
  match ds with
  | [] => mret []
  | d :: ds' =>
      clock_ticks d;;
      _ ← sys_wait_until_next_period;
      t ← gets k_ticks;
      l ← task_run ds';
      mret (t :: l)
  end.

(** The ticks at which the task should be released, from one release at [t] on: the
    first multiple of the period after the end of the job. *)
Fixpoint releases (t P : Z) (ds : list nat) : list Z :=
  match ds with
  | [] => []
  | d :: ds' => let r := t + (Z.of_nat d / P + 1) * P in r :: releases r P ds'
  end.

Lemma releases_short t P ds : 1 ≤ P → Forall (λ d, Z.of_nat d < P) ds →
  releases t P ds = (λ k, t + k * P) <$> seqZ 1 (Z.of_nat (length ds)).
Proof.
  intros HP Hd. revert t. induction Hd as [|d ds Hd _ IH]; intros t; [done|]. cbn [releases length]. cbv zeta.
  rewrite Z.div_small by lia. rewrite seqZ_cons by lia. rewrite fmap_cons. f_equal. rewrite IH.
  replace (Z.pred (Z.of_nat (S (length ds)))) with (Z.of_nat (length ds)) by lia.
  rewrite <- (fmap_add_seqZ 1 1), <- list_fmap_compose. apply list_fmap_ext. intros _ k _. simpl. lia.
Qed.

(** One job and one wait. *)
Lemma task_turn (fuel d : nat) s i P :
  clock_ready s → running i s → 0 ≤ i < NPROC → 1 ≤ P → (Z.to_nat P ≤ fuel)%nat → 0 ≤ k_ticks s →
  let r := k_ticks s + (Z.of_nat d / P + 1) * P in
  r + P < 2 ^ 32 → armed i P (k_ticks s + P) s →
  ∃ s1 s', clock_ticks d s = Ok tt s1 ∧ @sys_wait_until_next_period _ _ (only_clock fuel i) s1 = Ok 0 s' ∧
    clock_ready s' ∧ running i s' ∧ k_ticks s' = r ∧ armed i P (r + P) s'.
Proof.
  intros Hcr Hrn Hi HP Hf Ht0 r Hmax Har. pose proof (Z.div_mod (Z.of_nat d) P ltac:(lia)) as Hd.
  pose proof (Z.mod_pos_bound (Z.of_nat d) P ltac:(lia)) as Hm.
  destruct (job_ticks d s i P Hcr Hrn Hi HP Ht0 ltac:(unfold r in Hmax; lia) Har) as (s1 & H1 & Hcr1 & Hrn1 & Htk1 & Har1). fold r in Har1.
  pose proof (to_len _ (cr_ok _ Hcr1)) as Hl1.
  assert (procp i (waits i s1) = set_p_state SLEEPING (procp i s1)) as Hp by (unfold waits; by rewrite procp_upd_eq).
  assert (table_ok (waits i s1)) as Hokw by (apply table_ok_upd; [done|done|apply (table_ok_ext s1); [done|apply Hcr1]]).
  assert (∀ j, 0 ≤ j < NPROC → p_timer (procp j (waits i s1)) = p_timer (procp j s1) ∧
    (p_state (procp j (waits i s1)) ≠ UNUSED → p_state (procp j s1) ≠ UNUSED)) as Hpt.
  { intros j Hj. destruct (decide (j = i)) as [->|Hne]; [rewrite Hp, (rn_state _ _ Hrn1); done|].
    unfold waits. by rewrite procp_upd_ne by (done || lia). }
  destruct (sleep_ticks (Z.to_nat (r - k_ticks s1) - 1) fuel (waits i s1) i P r) as (s2 & Hs2 & Hcr2 & Htk2 & Hn2 & Hp2 & Har2);
    try done; try lia.
  - constructor; [done| |apply Hcr1|apply Hcr1]. constructor. intros j Hj Hs Ht. destruct (Hpt j Hj) as [E Es]. rewrite E in *.
    change (timer_at ?a (waits i s1)) with (timer_at a s1). apply (cr_timers _ Hcr1); auto.
  - change (k_me (waits i s1)) with NULLP. assert (NULLP = -1) by done. lia.
  - by rewrite Hp.
  - rewrite Hp. apply (rn_chan _ _ Hrn1).
  - destruct Har1 as [Hlv Htm Hat]. constructor; rewrite Hp; simpl; [done|done|]. exact Hat.
  - change (k_ticks (waits i s1)) with (k_ticks s1). lia.
  - change (k_ticks (waits i s1)) with (k_ticks s1). unfold r in *. lia.
  - assert (@sys_wait_until_next_period _ _ (only_clock fuel i) s1 = Ok 0 (resumes i s2)) as Hw.
    { apply wait_spec; try done; [apply Hcr1|apply (ar_timer _ _ _ _ Har1)|apply Hcr2|].
      rewrite (cr_cpuid _ Hcr2), Hp2, Hp. unfold sched_ok. simpl. destruct (rn_mask _ _ Hrn1) as [-> | ->]; done. }
    pose proof (to_len _ (cr_ok _ Hcr2)) as Hl2.
    assert (procp i (resumes i s2) = set_p_state RUNNING (procp i s1)) as Hp3.
    { unfold resumes. rewrite procp_upd_eq by done. change (procp i (set_k_me i s2)) with (procp i s2). by rewrite Hp2, Hp. }
    assert (∀ j, 0 ≤ j < NPROC → p_timer (procp j (resumes i s2)) = p_timer (procp j s2) ∧
      (p_state (procp j (resumes i s2)) ≠ UNUSED → p_state (procp j s2) ≠ UNUSED)) as Hpr.
    { intros j Hj. destruct (decide (j = i)) as [->|Hne]; [by rewrite Hp3, Hp2, Hp|]. unfold resumes. by rewrite procp_upd_ne by (done || lia). }
    exists s1, (resumes i s2). split_and!; [done|done| | |done|].
    + constructor; [apply table_ok_upd; [done|done|apply (table_ok_ext s2); [done|apply Hcr2]]| |apply Hcr2|apply Hcr2].
      constructor. intros j Hj Hs Ht. destruct (Hpr j Hj) as [E Es]. rewrite E in *.
      change (timer_at ?a (resumes i s2)) with (timer_at a s2). apply (cr_timers _ Hcr2); auto.
    + constructor; rewrite ?Hp3; try done; [|by apply (rn_chan _ _ Hrn1)|by apply (rn_mask _ _ Hrn1)].
      change (k_noff s2 = 0). rewrite Hn2. apply (rn_noff _ _ Hrn1).
    + destruct Har2 as [Hlv Htm Hat]. rewrite Hp2, Hp in Htm, Hat. constructor; rewrite Hp3; [done|exact Htm|exact Hat].
Qed.

(** ** Properties *)

(** C32: the releases of a periodic task do not drift.  From setperiod(P) at tick [t0]
    on, or from any release on, the task does a job of [d] ticks and calls
    wait_until_next_period, again and again, in a system where nothing else runs.  Each
    call returns at the first tick after the end of the job that is a multiple of [P]
    after [t0]; so with jobs shorter than the period the calls return at t0+P, t0+2P,
    t0+3P, ..., and a job that overruns delays the releases by whole periods.  The timer
    is then armed for the next one. *)
Theorem periodic_release (ds : list nat) (fuel : nat) (s : kern) (i P : Z) :
  clock_ready s → running i s → 0 ≤ i < NPROC → 1 ≤ P → (Z.to_nat P ≤ fuel)%nat → 0 ≤ k_ticks s →
  Forall (λ r, r + P < 2 ^ 32) (releases (k_ticks s) P ds) → armed i P (k_ticks s + P) s →
  ∃ s', @task_run (only_clock fuel i) ds s = Ok (releases (k_ticks s) P ds) s' ∧
    (Forall (λ d, Z.of_nat d < P) ds → releases (k_ticks s) P ds = (λ k, k_ticks s + k * P) <$> seqZ 1 (Z.of_nat (length ds))) ∧
    k_ticks s' = default (k_ticks s) (last (releases (k_ticks s) P ds)) ∧
    clock_ready s' ∧ running i s' ∧ armed i P (k_ticks s' + P) s'.
Proof.
  intros Hcr Hrn Hi HP Hf Ht0 Hmax Har.
  cut (∃ s', @task_run (only_clock fuel i) ds s = Ok (releases (k_ticks s) P ds) s' ∧
    k_ticks s' = default (k_ticks s) (last (releases (k_ticks s) P ds)) ∧ clock_ready s' ∧ running i s' ∧ armed i P (k_ticks s' + P) s').
  { intros (s' & H1 & H2). exists s'. split_and!; try done; try apply H2. by apply releases_short. }
  revert s Hcr Hrn Ht0 Hmax Har. induction ds as [|d ds IH]; intros s Hcr Hrn Ht0 Hmax Har; [by exists s|].
  cbn [releases] in Hmax. cbv zeta in Hmax. inversion Hmax as [|? ? Hr Hrest]; subst.
  destruct (task_turn fuel d s i P Hcr Hrn Hi HP Hf Ht0 Hr Har) as (s1 & s2 & H1 & H2 & Hcr2 & Hrn2 & Htk & Har2).
  assert (0 ≤ Z.of_nat d / P) by (apply Z.div_pos; lia). rewrite <- Htk in Hrest, Har2.
  destruct (IH s2 Hcr2 Hrn2 ltac:(rewrite Htk; nia) Hrest Har2) as (s' & H3 & H4 & H5). exists s'.
  cbn [releases task_run]. cbv zeta. rewrite <- Htk. split_and!; try apply H5.
  - rewrite (bind_ok _ _ _ _ _ H1), (bind_ok _ _ _ _ _ H2). erewrite bind_ok by reflexivity. by rewrite (bind_ok _ _ _ _ _ H3).
  - rewrite H4, last_cons. by destruct (last _).
Qed.

Lemma timer_at_upd_eq a f s : timer_at a (upd_timer a f s) = f (timer_at a s).
Proof. rewrite timer_at_upd. by rewrite decide_True. Qed.

(** Setperiod.  A period below 1 is refused; a first call takes one page
    from the allocator for the timer, or returns -1 when there is none; every
    other call arms the caller's timer to go off [P] ticks from now and every
    [P] ticks after that. *)
Theorem setperiod_arms `{KernelImage} (s : kern) (i P : Z) (l : list Z) :
  k_me s = i → 0 ≤ i < NPROC → length (k_procs s) = Z.to_nat NPROC → p_state (procp i s) ≠ UNUSED →
  kmem_inv (k_mem s) l →
  (P < 1 → sys_setperiod P s = Ok (-1) s) ∧
  (1 ≤ P → p_timer (procp i s) = 0 → l = [] → sys_setperiod P s = Ok (-1) s) ∧
  (1 ≤ P → p_timer (procp i s) = 0 → ∀ a l', l = a :: l' →
     ∃ s', sys_setperiod P s = Ok 0 s' ∧ armed i P (u32 (k_ticks s + P)) s' ∧
       p_timer (procp i s') = a ∧ kmem_inv (k_mem s') l') ∧
  (1 ≤ P → p_timer (procp i s) ≠ 0 → t_proc (timer_at (p_timer (procp i s)) s) = i →
     t_callback (timer_at (p_timer (procp i s)) s) = true →
     ∃ s', sys_setperiod P s = Ok 0 s' ∧ armed i P (u32 (k_ticks s + P)) s' ∧ k_mem s' = k_mem s).
Proof.
  intros Hme Hi Hl Hst Hinv. unfold sys_setperiod, myproc. split_and!.
  - intros HP. by replace (P <? 1) with true by lia.
  - intros HP Ht ->. replace (P <? 1) with false by lia. erewrite bind_ok by reflexivity. rewrite Hme.
    erewrite bind_ok by reflexivity. rewrite Ht. cbn [Z.eqb].
    erewrite bind_ok; [|erewrite bind_ok by (apply lift_ok, kalloc_empty, Hinv); reflexivity].
    replace (lset mem_l (lget mem_l s) s) with s by (by destruct s). by rewrite upd_proc_id by (rewrite <- Ht; by destruct (procp i s)).
  - intros HP Ht a l' ->. replace (P <? 1) with false by lia. erewrite bind_ok by reflexivity. rewrite Hme.
    erewrite bind_ok by reflexivity. rewrite Ht. cbn [Z.eqb].
    destruct (kalloc_cons _ _ _ Hinv) as (Hk & Hki & Hp & _). pose proof (page_ok_nonzero a Hp) as Ha.
    set (s1 := upd_proc i (set_p_timer a) (set_k_mem (kalloced (k_mem s) a) s)).
    set (s2 := upd_timer a (set_t_callback true) (upd_timer a (λ _, Xv6timer 0 0 i false) s1)).
    erewrite (bind_ok _ _ _ 0 s2).
    2:{ erewrite bind_ok by (apply lift_ok, Hk). erewrite bind_ok by reflexivity.
        replace (a =? 0) with false by lia. reflexivity. }
    cbn [Z.eqb]. erewrite bind_ok by reflexivity.
    assert (procp i s2 = set_p_timer a (procp i s)) as Hp2 by (unfold s2; rewrite !procp_timer; unfold s1; by rewrite procp_upd_eq).
    rewrite Hp2. simpl p_timer. eexists. split; [reflexivity|]. split_and!; [|by rewrite procp_timer, Hp2|exact Hki].
    constructor; rewrite ?procp_timer, Hp2; [done|done|]. simpl p_timer. rewrite timer_at_upd_eq.
    unfold s2. by rewrite !timer_at_upd_eq.
  - intros HP Ht Hpr Hcb. replace (P <? 1) with false by lia. erewrite bind_ok by reflexivity. rewrite Hme.
    erewrite bind_ok by reflexivity. replace (p_timer (procp i s) =? 0) with false by lia.
    erewrite bind_ok by reflexivity. cbn [Z.eqb]. erewrite bind_ok by reflexivity.
    eexists. split; [reflexivity|]. split; [|done].
    constructor; rewrite ?procp_timer; [done|done|]. rewrite timer_at_upd_eq.
    destruct (timer_at (p_timer (procp i s)) s); simpl in *. by subst.
Qed.

(** ** Witnesses: process 3 with a timer of period 10 *)

Definition proc_task : proc :=
  Proc false RUNNING chan0 0 0 7 (-1) 4096 NULLP 0 0 0 0 (0, 0) [] NULLP "task".
Definition kern_task : kern :=
  Kern blank (replicate 3 inhabitant ++ proc_task :: replicate 60 inhabitant)
    0 3 0 8 false false 0 100 false {[4096 := Xv6timer 10 110 3 true]} 0.

Lemma kern_task_ok : table_ok kern_task.
Proof.
  constructor; [done|]. intros i Hi. unfold procp.
  assert (Forall (λ p, p_lock p = false) (k_procs kern_task)) as Hf by (repeat constructor).
  rewrite list_lookup_total_alt. destruct (k_procs kern_task !! Z.to_nat i) as [p|] eqn:E; [|done].
  by apply (Forall_lookup_1 _ _ _ _ Hf E).
Qed.

Lemma kern_task_timers : timers_ok kern_task.
Proof.
  constructor. intros i Hi Hs Ht. destruct (decide (i = 3)) as [->|Hi3]; [done|]. exfalso.
  apply Hs. unfold procp, kern_task. cbn [k_procs]. rewrite list_lookup_total_alt.
  destruct (decide (i < 3)).
  - rewrite lookup_app_l by (rewrite length_replicate; lia). rewrite lookup_replicate_2 by lia. done.
  - rewrite lookup_app_r by (rewrite length_replicate; lia). rewrite length_replicate.
    replace (Z.to_nat i - 3)%nat with (S (Z.to_nat i - 4)) by lia. cbn [lookup list_lookup].
    change (default inhabitant (replicate 60 inhabitant !! (Z.to_nat i - 4)%nat)) with
      (default inhabitant (replicate 60 (inhabitant : proc) !! (Z.to_nat i - 4)%nat)).
    unfold NPROC in Hi. rewrite lookup_replicate_2 by lia. done.
Qed.

(** Jobs of 3, 0 and 9 ticks from tick 100 on: released at 110, 120 and 130; a job of 12
    ticks then misses 140 and is released at 150. *)
Lemma periodic_release_witness :
  ∃ s', @task_run (only_clock 10 3) [3; 0; 9; 12]%nat kern_task = Ok [110; 120; 130; 150] s' ∧ armed 3 10 160 s'.
Proof.
  destruct (periodic_release [3; 0; 9; 12]%nat 10 kern_task 3 10) as (s' & H1 & _ & H2 & _ & _ & H3).
  - constructor; [exact kern_task_ok|exact kern_task_timers|reflexivity|reflexivity].
  - constructor; [reflexivity|reflexivity|reflexivity|discriminate|left; reflexivity].
  - unfold NPROC. lia.
  - lia.
  - reflexivity.
  - simpl. lia.
  - repeat constructor.
  - constructor; [discriminate|discriminate|reflexivity].
  - exists s'. split; [exact H1|]. rewrite H2 in H3. exact H3.
Defined.

Definition kern_run : kern :=
  Kern two_free (proc_run :: replicate 63 inhabitant) 0 0 0 8 false false 0 100 false ∅ 0.

Lemma setperiod_arms_witness :
  sys_setperiod 0 kern_run = Ok (-1) kern_run ∧
  ∃ s', sys_setperiod 10 kern_run = Ok 0 s' ∧ armed 0 10 110 s'.
Proof.
  destruct (@setperiod_arms img kern_run 0 0 [page2; page1]) as [H0 _];
    [done|unfold NPROC; lia|done|discriminate|exact two_free_inv|].
  destruct (@setperiod_arms img kern_run 0 10 [page2; page1]) as (_ & _ & H1 & _);
    [done|unfold NPROC; lia|done|discriminate|exact two_free_inv|].
  split; [apply H0; lia|].
  destruct (H1 ltac:(lia) eq_refl page2 [page1] eq_refl) as (s' & Hr & Ha & _). by exists s'.
Defined.
