(* ===== verification/Kstate.v ===== *)
(** * The data of the kernel above the process layer

    The structures of pipes (kernel/pipe.c, proj2/kernel), sleep locks, the
    buffer cache and the disk behind it, the log, the inode and file tables,
    shared memory, the console, the UART and printf, and the state [kst] that has one
    of each beside the process layer.  The components that follow are operations on
    [kst].  Pointers into a static array are indices, with [NULLP] for the null
    pointer; the array is a map from indices, and an element that has not been
    assigned yet is all zeroes, as C initialises it. *)
From stdpp Require Import gmap.
From S2P Require Import Prelude Mem Spinlock Riscv Kalloc Vm Proc.
Open Scope Z_scope.

(** ** Pipes *)

(** struct task_t: its bytes. *)
Definition task_t := list Z.

Record pq_node := Pq_node {
  n_task : task_t;
  n_next : Z;
}.
Definition set_n_next (v : Z) (r : pq_node) : pq_node := Pq_node (n_task r) v.

(** struct pipe_rt *)
Record pipe_rt := Pipe_rt {
  rt_lock : bool;
  rt_head : Z;
  rt_nwrite : Z;
  rt_nread : Z;
  rt_active : Z;
}.
Definition set_rt_lock (v : bool) (r : pipe_rt) : pipe_rt :=
  Pipe_rt v (rt_head r) (rt_nwrite r) (rt_nread r) (rt_active r).
Definition set_rt_head (v : Z) (r : pipe_rt) : pipe_rt :=
  Pipe_rt (rt_lock r) v (rt_nwrite r) (rt_nread r) (rt_active r).
Definition set_rt_nwrite (v : Z) (r : pipe_rt) : pipe_rt :=
  Pipe_rt (rt_lock r) (rt_head r) v (rt_nread r) (rt_active r).
Definition set_rt_nread (v : Z) (r : pipe_rt) : pipe_rt :=
  Pipe_rt (rt_lock r) (rt_head r) (rt_nwrite r) v (rt_active r).
Definition set_rt_active (v : Z) (r : pipe_rt) : pipe_rt :=
  Pipe_rt (rt_lock r) (rt_head r) (rt_nwrite r) (rt_nread r) v.

(** struct pipe; nread and nwrite are uint. *)
Record pipe := Pipe {
  pi_lock : bool;
  pi_data : list Z;
  pi_nread : Z;
  pi_nwrite : Z;
  pi_readopen : Z;
  pi_writeopen : Z;
}.
Definition set_pi_lock (v : bool) (r : pipe) : pipe :=
  Pipe v (pi_data r) (pi_nread r) (pi_nwrite r) (pi_readopen r) (pi_writeopen r).
Definition set_pi_data (v : list Z) (r : pipe) : pipe :=
  Pipe (pi_lock r) v (pi_nread r) (pi_nwrite r) (pi_readopen r) (pi_writeopen r).
Definition set_pi_nread (v : Z) (r : pipe) : pipe :=
  Pipe (pi_lock r) (pi_data r) v (pi_nwrite r) (pi_readopen r) (pi_writeopen r).
Definition set_pi_nwrite (v : Z) (r : pipe) : pipe :=
  Pipe (pi_lock r) (pi_data r) (pi_nread r) v (pi_readopen r) (pi_writeopen r).
Definition set_pi_readopen (v : Z) (r : pipe) : pipe :=
  Pipe (pi_lock r) (pi_data r) (pi_nread r) (pi_nwrite r) v (pi_writeopen r).
Definition set_pi_writeopen (v : Z) (r : pipe) : pipe :=
  Pipe (pi_lock r) (pi_data r) (pi_nread r) (pi_nwrite r) (pi_readopen r) v.

(** ** Sleep locks, buffers, the disk *)

Definition BSIZE : Z := 1024.

(** struct sleeplock; [sl_lk] is the spin lock inside it. *)
Record sleeplock := Sleeplock {
  sl_locked : Z;
  sl_lk : bool;
  sl_pid : Z;
}.
Definition set_sl_locked (v : Z) (r : sleeplock) : sleeplock := Sleeplock v (sl_lk r) (sl_pid r).
Definition set_sl_lk (v : bool) (r : sleeplock) : sleeplock := Sleeplock (sl_locked r) v (sl_pid r).
Definition set_sl_pid (v : Z) (r : sleeplock) : sleeplock := Sleeplock (sl_locked r) (sl_lk r) v.

(** struct buf; its field [disk] is the driver's own. *)
Record buf := Buf {
  b_valid : Z;
  b_dev : Z;
  b_blockno : Z;
  b_lock : sleeplock;
  b_refcnt : Z;
  b_prev : Z;
  b_next : Z;
  b_data : list Z;
}.
Definition set_b_valid (v : Z) (r : buf) : buf :=
  Buf v (b_dev r) (b_blockno r) (b_lock r) (b_refcnt r) (b_prev r) (b_next r) (b_data r).
Definition set_b_dev (v : Z) (r : buf) : buf :=
  Buf (b_valid r) v (b_blockno r) (b_lock r) (b_refcnt r) (b_prev r) (b_next r) (b_data r).
Definition set_b_blockno (v : Z) (r : buf) : buf :=
  Buf (b_valid r) (b_dev r) v (b_lock r) (b_refcnt r) (b_prev r) (b_next r) (b_data r).
Definition set_b_lock (v : sleeplock) (r : buf) : buf :=
  Buf (b_valid r) (b_dev r) (b_blockno r) v (b_refcnt r) (b_prev r) (b_next r) (b_data r).
Definition set_b_refcnt (v : Z) (r : buf) : buf :=
  Buf (b_valid r) (b_dev r) (b_blockno r) (b_lock r) v (b_prev r) (b_next r) (b_data r).
Definition set_b_prev (v : Z) (r : buf) : buf :=
  Buf (b_valid r) (b_dev r) (b_blockno r) (b_lock r) (b_refcnt r) v (b_next r) (b_data r).
Definition set_b_next (v : Z) (r : buf) : buf :=
  Buf (b_valid r) (b_dev r) (b_blockno r) (b_lock r) (b_refcnt r) (b_prev r) v (b_data r).
Definition set_b_data (v : list Z) (r : buf) : buf :=
  Buf (b_valid r) (b_dev r) (b_blockno r) (b_lock r) (b_refcnt r) (b_prev r) (b_next r) v.

(** bcache: the buffers, and at index NBUF the list head. *)
Record bcache := Bcache {
  bc_lock : bool;
  bc_buf : gmap Z buf;
}.
Definition set_bc_lock (v : bool) (r : bcache) : bcache := Bcache v (bc_buf r).
Definition set_bc_buf (v : gmap Z buf) (r : bcache) : bcache := Bcache (bc_lock r) v.

(** The disk: its blocks, and the writes it has carried out since the machine
    started, oldest first. *)
Record disk := Disk {
  d_block : Z → list Z;
  d_trace : list (Z * list Z);
}.
Definition set_d_block (v : Z → list Z) (r : disk) : disk := Disk v (d_trace r).
Definition set_d_trace (v : list (Z * list Z)) (r : disk) : disk := Disk (d_block r) v.

(** ** The log *)

(** struct logheader *)
Record logheader := Logheader {
  lh_n : Z;
  lh_block : list Z;
}.
Definition set_lh_n (v : Z) (r : logheader) : logheader := Logheader v (lh_block r).
Definition set_lh_block (v : list Z) (r : logheader) : logheader := Logheader (lh_n r) v.

(** struct log *)
Record log := Log {
  lg_lock : bool;
  lg_start : Z;
  lg_size : Z;
  lg_outstanding : Z;
  lg_committing : Z;
  lg_dev : Z;
  lg_lh : logheader;
}.
Definition set_lg_lock (v : bool) (r : log) : log :=
  Log v (lg_start r) (lg_size r) (lg_outstanding r) (lg_committing r) (lg_dev r) (lg_lh r).
Definition set_lg_start (v : Z) (r : log) : log :=
  Log (lg_lock r) v (lg_size r) (lg_outstanding r) (lg_committing r) (lg_dev r) (lg_lh r).
Definition set_lg_size (v : Z) (r : log) : log :=
  Log (lg_lock r) (lg_start r) v (lg_outstanding r) (lg_committing r) (lg_dev r) (lg_lh r).
Definition set_lg_outstanding (v : Z) (r : log) : log :=
  Log (lg_lock r) (lg_start r) (lg_size r) v (lg_committing r) (lg_dev r) (lg_lh r).
Definition set_lg_committing (v : Z) (r : log) : log :=
  Log (lg_lock r) (lg_start r) (lg_size r) (lg_outstanding r) v (lg_dev r) (lg_lh r).
Definition set_lg_dev (v : Z) (r : log) : log :=
  Log (lg_lock r) (lg_start r) (lg_size r) (lg_outstanding r) (lg_committing r) v (lg_lh r).
Definition set_lg_lh (v : logheader) (r : log) : log :=
  Log (lg_lock r) (lg_start r) (lg_size r) (lg_outstanding r) (lg_committing r) (lg_dev r) v.

(** ** Files *)

(** struct superblock *)
Record superblock := Superblock {
  sb_magic : Z;
  sb_size : Z;
  sb_nblocks : Z;
  sb_ninodes : Z;
  sb_nlog : Z;
  sb_logstart : Z;
  sb_inodestart : Z;
  sb_bmapstart : Z;
}.

(** struct inode *)
Record inode := Inode {
  i_dev : Z;
  i_inum : Z;
  i_ref : Z;
  i_lock : sleeplock;
  i_valid : Z;
  i_type : Z;
  i_major : Z;
  i_minor : Z;
  i_nlink : Z;
  i_size : Z;
  i_addrs : list Z;
}.
Definition set_i_dev (v : Z) (r : inode) : inode :=
  Inode v (i_inum r) (i_ref r) (i_lock r) (i_valid r) (i_type r) (i_major r) (i_minor r) (i_nlink r) (i_size r) (i_addrs r).
Definition set_i_inum (v : Z) (r : inode) : inode :=
  Inode (i_dev r) v (i_ref r) (i_lock r) (i_valid r) (i_type r) (i_major r) (i_minor r) (i_nlink r) (i_size r) (i_addrs r).
Definition set_i_ref (v : Z) (r : inode) : inode :=
  Inode (i_dev r) (i_inum r) v (i_lock r) (i_valid r) (i_type r) (i_major r) (i_minor r) (i_nlink r) (i_size r) (i_addrs r).
Definition set_i_lock (v : sleeplock) (r : inode) : inode :=
  Inode (i_dev r) (i_inum r) (i_ref r) v (i_valid r) (i_type r) (i_major r) (i_minor r) (i_nlink r) (i_size r) (i_addrs r).
Definition set_i_valid (v : Z) (r : inode) : inode :=
  Inode (i_dev r) (i_inum r) (i_ref r) (i_lock r) v (i_type r) (i_major r) (i_minor r) (i_nlink r) (i_size r) (i_addrs r).
Definition set_i_type (v : Z) (r : inode) : inode :=
  Inode (i_dev r) (i_inum r) (i_ref r) (i_lock r) (i_valid r) v (i_major r) (i_minor r) (i_nlink r) (i_size r) (i_addrs r).
Definition set_i_major (v : Z) (r : inode) : inode :=
  Inode (i_dev r) (i_inum r) (i_ref r) (i_lock r) (i_valid r) (i_type r) v (i_minor r) (i_nlink r) (i_size r) (i_addrs r).
Definition set_i_minor (v : Z) (r : inode) : inode :=
  Inode (i_dev r) (i_inum r) (i_ref r) (i_lock r) (i_valid r) (i_type r) (i_major r) v (i_nlink r) (i_size r) (i_addrs r).
Definition set_i_nlink (v : Z) (r : inode) : inode :=
  Inode (i_dev r) (i_inum r) (i_ref r) (i_lock r) (i_valid r) (i_type r) (i_major r) (i_minor r) v (i_size r) (i_addrs r).
Definition set_i_size (v : Z) (r : inode) : inode :=
  Inode (i_dev r) (i_inum r) (i_ref r) (i_lock r) (i_valid r) (i_type r) (i_major r) (i_minor r) (i_nlink r) v (i_addrs r).
Definition set_i_addrs (v : list Z) (r : inode) : inode :=
  Inode (i_dev r) (i_inum r) (i_ref r) (i_lock r) (i_valid r) (i_type r) (i_major r) (i_minor r) (i_nlink r) (i_size r) v.

Record itable := Itable {
  it_lock : bool;
  it_inode : gmap Z inode;
}.
Definition set_it_lock (v : bool) (r : itable) : itable := Itable v (it_inode r).
Definition set_it_inode (v : gmap Z inode) (r : itable) : itable := Itable (it_lock r) v.

Inductive ftype := FD_NONE | FD_PIPE | FD_PIPE_RT | FD_INODE | FD_DEVICE.
#[export] Instance ftype_eq_dec : EqDecision ftype.
Proof. solve_decision. Defined.

(** struct file; [f_pipe] is the page of the pipe, [f_ip] an index in the inode
    table. *)
Record file := File {
  f_type : ftype;
  f_ref : Z;
  f_readable : Z;
  f_writable : Z;
  f_pipe : Z;
  f_ip : Z;
  f_off : Z;
  f_major : Z;
}.
Definition set_f_type (v : ftype) (r : file) : file :=
  File v (f_ref r) (f_readable r) (f_writable r) (f_pipe r) (f_ip r) (f_off r) (f_major r).
Definition set_f_ref (v : Z) (r : file) : file :=
  File (f_type r) v (f_readable r) (f_writable r) (f_pipe r) (f_ip r) (f_off r) (f_major r).
Definition set_f_readable (v : Z) (r : file) : file :=
  File (f_type r) (f_ref r) v (f_writable r) (f_pipe r) (f_ip r) (f_off r) (f_major r).
Definition set_f_writable (v : Z) (r : file) : file :=
  File (f_type r) (f_ref r) (f_readable r) v (f_pipe r) (f_ip r) (f_off r) (f_major r).
Definition set_f_pipe (v : Z) (r : file) : file :=
  File (f_type r) (f_ref r) (f_readable r) (f_writable r) v (f_ip r) (f_off r) (f_major r).
Definition set_f_ip (v : Z) (r : file) : file :=
  File (f_type r) (f_ref r) (f_readable r) (f_writable r) (f_pipe r) v (f_off r) (f_major r).
Definition set_f_off (v : Z) (r : file) : file :=
  File (f_type r) (f_ref r) (f_readable r) (f_writable r) (f_pipe r) (f_ip r) v (f_major r).
Definition set_f_major (v : Z) (r : file) : file :=
  File (f_type r) (f_ref r) (f_readable r) (f_writable r) (f_pipe r) (f_ip r) (f_off r) v.

Record ftable := Ftable {
  ft_lock : bool;
  ft_file : gmap Z file;
}.
Definition set_ft_lock (v : bool) (r : ftable) : ftable := Ftable v (ft_file r).
Definition set_ft_file (v : gmap Z file) (r : ftable) : ftable := Ftable (ft_lock r) v.

(** The static variables of proj4/kernel/shm.c. *)
Record shm := Shm {
  shm_memory : Z;
  shm_refs : Z;
}.
Definition set_shm_memory (v : Z) (r : shm) : shm := Shm v (shm_refs r).
Definition set_shm_refs (v : Z) (r : shm) : shm := Shm (shm_memory r) v.

(** ** The console *)

(** cons of console.c *)
Record cons := Cons {
  cons_lock : bool;
  cons_buf : list Z;
  cons_r : Z;
  cons_w : Z;
  cons_e : Z;
}.
Definition set_cons_lock (v : bool) (r : cons) : cons :=
  Cons v (cons_buf r) (cons_r r) (cons_w r) (cons_e r).
Definition set_cons_buf (v : list Z) (r : cons) : cons :=
  Cons (cons_lock r) v (cons_r r) (cons_w r) (cons_e r).
Definition set_cons_r (v : Z) (r : cons) : cons :=
  Cons (cons_lock r) (cons_buf r) v (cons_w r) (cons_e r).
Definition set_cons_w (v : Z) (r : cons) : cons :=
  Cons (cons_lock r) (cons_buf r) (cons_r r) v (cons_e r).
Definition set_cons_e (v : Z) (r : cons) : cons :=
  Cons (cons_lock r) (cons_buf r) (cons_r r) (cons_w r) v.

(** The transmit buffer of uart.c, and the device: the values that reads of LSR
    and RHR will give, its other registers, and the bytes sent so far. *)
Record uart := Uart {
  u_lock : bool;
  uart_tx_buf : list Z;
  uart_tx_w : Z;
  uart_tx_r : Z;
  u_lsr : list Z;
  u_rhr : list Z;
  u_regs : gmap Z Z;
  u_out : list Z;
}.
Definition set_u_lock (v : bool) (r : uart) : uart :=
  Uart v (uart_tx_buf r) (uart_tx_w r) (uart_tx_r r) (u_lsr r) (u_rhr r) (u_regs r) (u_out r).
Definition set_uart_tx_buf (v : list Z) (r : uart) : uart :=
  Uart (u_lock r) v (uart_tx_w r) (uart_tx_r r) (u_lsr r) (u_rhr r) (u_regs r) (u_out r).
Definition set_uart_tx_w (v : Z) (r : uart) : uart :=
  Uart (u_lock r) (uart_tx_buf r) v (uart_tx_r r) (u_lsr r) (u_rhr r) (u_regs r) (u_out r).
Definition set_uart_tx_r (v : Z) (r : uart) : uart :=
  Uart (u_lock r) (uart_tx_buf r) (uart_tx_w r) v (u_lsr r) (u_rhr r) (u_regs r) (u_out r).
Definition set_u_lsr (v : list Z) (r : uart) : uart :=
  Uart (u_lock r) (uart_tx_buf r) (uart_tx_w r) (uart_tx_r r) v (u_rhr r) (u_regs r) (u_out r).
Definition set_u_rhr (v : list Z) (r : uart) : uart :=
  Uart (u_lock r) (uart_tx_buf r) (uart_tx_w r) (uart_tx_r r) (u_lsr r) v (u_regs r) (u_out r).
Definition set_u_regs (v : gmap Z Z) (r : uart) : uart :=
  Uart (u_lock r) (uart_tx_buf r) (uart_tx_w r) (uart_tx_r r) (u_lsr r) (u_rhr r) v (u_out r).
Definition set_u_out (v : list Z) (r : uart) : uart :=
  Uart (u_lock r) (uart_tx_buf r) (uart_tx_w r) (uart_tx_r r) (u_lsr r) (u_rhr r) (u_regs r) v.

(** pr and panicked of printf.c *)
Record pr := Pr {
  pr_lock : bool;
  pr_locking : Z;
  panicked : Z;
}.
Definition set_pr_lock (v : bool) (r : pr) : pr := Pr v (pr_locking r) (panicked r).
Definition set_pr_locking (v : Z) (r : pr) : pr := Pr (pr_lock r) v (panicked r).
Definition set_panicked (v : Z) (r : pr) : pr := Pr (pr_lock r) (pr_locking r) v.

(** An entry of devsw: only the console has read and write functions. *)
Inductive devfn := console_fns.

(** ** The whole state *)

Record kst := Kst {
  s_kern : kern;
  s_nodes : gmap Z pq_node;  (* nodes of priority pipes, by page *)
  s_rtpipes : gmap Z pipe_rt;
  s_pipes : gmap Z pipe;
  s_bcache : bcache;
  s_disk : disk;
  s_log : log;
  s_sb : superblock;
  s_itable : itable;
  s_ftable : ftable;
  s_shm : shm;
  s_cons : cons;
  s_uart : uart;
  s_pr : pr;
  s_devsw : gmap Z devfn;
}.
Definition set_s_kern (v : kern) (r : kst) : kst :=
  Kst v (s_nodes r) (s_rtpipes r) (s_pipes r) (s_bcache r) (s_disk r) (s_log r) (s_sb r) (s_itable r) (s_ftable r) (s_shm r) (s_cons r) (s_uart r) (s_pr r) (s_devsw r).
Definition set_s_nodes (v : gmap Z pq_node) (r : kst) : kst :=
  Kst (s_kern r) v (s_rtpipes r) (s_pipes r) (s_bcache r) (s_disk r) (s_log r) (s_sb r) (s_itable r) (s_ftable r) (s_shm r) (s_cons r) (s_uart r) (s_pr r) (s_devsw r).
Definition set_s_rtpipes (v : gmap Z pipe_rt) (r : kst) : kst :=
  Kst (s_kern r) (s_nodes r) v (s_pipes r) (s_bcache r) (s_disk r) (s_log r) (s_sb r) (s_itable r) (s_ftable r) (s_shm r) (s_cons r) (s_uart r) (s_pr r) (s_devsw r).
Definition set_s_pipes (v : gmap Z pipe) (r : kst) : kst :=
  Kst (s_kern r) (s_nodes r) (s_rtpipes r) v (s_bcache r) (s_disk r) (s_log r) (s_sb r) (s_itable r) (s_ftable r) (s_shm r) (s_cons r) (s_uart r) (s_pr r) (s_devsw r).
Definition set_s_bcache (v : bcache) (r : kst) : kst :=
  Kst (s_kern r) (s_nodes r) (s_rtpipes r) (s_pipes r) v (s_disk r) (s_log r) (s_sb r) (s_itable r) (s_ftable r) (s_shm r) (s_cons r) (s_uart r) (s_pr r) (s_devsw r).
Definition set_s_disk (v : disk) (r : kst) : kst :=
  Kst (s_kern r) (s_nodes r) (s_rtpipes r) (s_pipes r) (s_bcache r) v (s_log r) (s_sb r) (s_itable r) (s_ftable r) (s_shm r) (s_cons r) (s_uart r) (s_pr r) (s_devsw r).
Definition set_s_log (v : log) (r : kst) : kst :=
  Kst (s_kern r) (s_nodes r) (s_rtpipes r) (s_pipes r) (s_bcache r) (s_disk r) v (s_sb r) (s_itable r) (s_ftable r) (s_shm r) (s_cons r) (s_uart r) (s_pr r) (s_devsw r).
Definition set_s_sb (v : superblock) (r : kst) : kst :=
  Kst (s_kern r) (s_nodes r) (s_rtpipes r) (s_pipes r) (s_bcache r) (s_disk r) (s_log r) v (s_itable r) (s_ftable r) (s_shm r) (s_cons r) (s_uart r) (s_pr r) (s_devsw r).
Definition set_s_itable (v : itable) (r : kst) : kst :=
  Kst (s_kern r) (s_nodes r) (s_rtpipes r) (s_pipes r) (s_bcache r) (s_disk r) (s_log r) (s_sb r) v (s_ftable r) (s_shm r) (s_cons r) (s_uart r) (s_pr r) (s_devsw r).
Definition set_s_ftable (v : ftable) (r : kst) : kst :=
  Kst (s_kern r) (s_nodes r) (s_rtpipes r) (s_pipes r) (s_bcache r) (s_disk r) (s_log r) (s_sb r) (s_itable r) v (s_shm r) (s_cons r) (s_uart r) (s_pr r) (s_devsw r).
Definition set_s_shm (v : shm) (r : kst) : kst :=
  Kst (s_kern r) (s_nodes r) (s_rtpipes r) (s_pipes r) (s_bcache r) (s_disk r) (s_log r) (s_sb r) (s_itable r) (s_ftable r) v (s_cons r) (s_uart r) (s_pr r) (s_devsw r).
Definition set_s_cons (v : cons) (r : kst) : kst :=
  Kst (s_kern r) (s_nodes r) (s_rtpipes r) (s_pipes r) (s_bcache r) (s_disk r) (s_log r) (s_sb r) (s_itable r) (s_ftable r) (s_shm r) v (s_uart r) (s_pr r) (s_devsw r).
Definition set_s_uart (v : uart) (r : kst) : kst :=
  Kst (s_kern r) (s_nodes r) (s_rtpipes r) (s_pipes r) (s_bcache r) (s_disk r) (s_log r) (s_sb r) (s_itable r) (s_ftable r) (s_shm r) (s_cons r) v (s_pr r) (s_devsw r).
Definition set_s_pr (v : pr) (r : kst) : kst :=
  Kst (s_kern r) (s_nodes r) (s_rtpipes r) (s_pipes r) (s_bcache r) (s_disk r) (s_log r) (s_sb r) (s_itable r) (s_ftable r) (s_shm r) (s_cons r) (s_uart r) v (s_devsw r).
Definition set_s_devsw (v : gmap Z devfn) (r : kst) : kst :=
  Kst (s_kern r) (s_nodes r) (s_rtpipes r) (s_pipes r) (s_bcache r) (s_disk r) (s_log r) (s_sb r) (s_itable r) (s_ftable r) (s_shm r) (s_cons r) (s_uart r) (s_pr r) v.

#[export] Instance kst_has_kern : HasKern kst := Lens s_kern set_s_kern.
#[export] Instance kst_kern_lens : KernLens kst.
Proof. constructor; by intros; destruct s. Qed.

(** Physical memory. *)
Definition kmem_l {S} `{HasKern S} : lens S kmem := lcomp kv mem_l.

(** A bound on how often one wait loop is woken before it gives up; the theorems
    say for which bounds it is enough. *)
Class WaitBound := wait_bound : nat.

(** The static data before initialisation: C zeroes it. *)
Definition sleeplock0 : sleeplock := Sleeplock 0 false 0.
Definition buf0 : buf := Buf 0 0 0 sleeplock0 0 0 0 (replicate (Z.to_nat BSIZE) 0).
Definition inode0 : inode := Inode 0 0 0 sleeplock0 0 0 0 0 0 0 (replicate 13 0).
Definition file0 : file := File FD_NONE 0 0 0 0 NULLP 0 0.

(** Elements of the tables and assignments to them. *)
Definition buf_at (i : Z) (s : kst) : buf := default buf0 (bc_buf (s_bcache s) !! i).
Definition upd_buf (i : Z) (f : buf → buf) (s : kst) : kst :=
  set_s_bcache (set_bc_buf (<[i := f (buf_at i s)]> (bc_buf (s_bcache s))) (s_bcache s)) s.
Definition inode_at (i : Z) (s : kst) : inode := default inode0 (it_inode (s_itable s) !! i).
Definition upd_inode (i : Z) (f : inode → inode) (s : kst) : kst :=
  set_s_itable (set_it_inode (<[i := f (inode_at i s)]> (it_inode (s_itable s))) (s_itable s)) s.
Definition file_at (i : Z) (s : kst) : file := default file0 (ft_file (s_ftable s) !! i).
Definition upd_file (i : Z) (f : file → file) (s : kst) : kst :=
  set_s_ftable (set_ft_file (<[i := f (file_at i s)]> (ft_file (s_ftable s))) (s_ftable s)) s.
Definition upd_log (f : log → log) (s : kst) : kst := set_s_log (f (s_log s)) s.

(** The locks of the tables. *)
Definition bcache_lock : lens kst bool :=
  Lens (λ s, bc_lock (s_bcache s)) (λ b s, set_s_bcache (set_bc_lock b (s_bcache s)) s).
Definition itable_lock : lens kst bool :=
  Lens (λ s, it_lock (s_itable s)) (λ b s, set_s_itable (set_it_lock b (s_itable s)) s).
Definition ftable_lock : lens kst bool :=
  Lens (λ s, ft_lock (s_ftable s)) (λ b s, set_s_ftable (set_ft_lock b (s_ftable s)) s).
Definition cons_lock_l : lens kst bool :=
  Lens (λ s, cons_lock (s_cons s)) (λ b s, set_s_cons (set_cons_lock b (s_cons s)) s).
Definition uart_tx_lock : lens kst bool :=
  Lens (λ s, u_lock (s_uart s)) (λ b s, set_s_uart (set_u_lock b (s_uart s)) s).
Definition pr_lock_l : lens kst bool :=
  Lens (λ s, pr_lock (s_pr s)) (λ b s, set_s_pr (set_pr_lock b (s_pr s)) s).
Definition log_lock : lens kst bool := Lens (λ s, lg_lock (s_log s)) (λ b, upd_log (set_lg_lock b)).

(** A machine with nothing but a process layer and a blank disk. *)
Definition kst_of (k : kern) : kst :=
  Kst k ∅ ∅ ∅ (Bcache false ∅)
    (Disk (λ _, replicate (Z.to_nat BSIZE) 0) [])
    (Log false 0 0 0 0 0 (Logheader 0 (replicate (Z.to_nat LOGSIZE) 0)))
    (Superblock 0 0 0 0 0 0 0 0)
    (Itable false ∅)
    (Ftable false ∅)
    (Shm 0 0)
    (Cons false (replicate 128 0) 0 0 0)
    (Uart false (replicate 32 0) 0 0 [] [] ∅ [])
    (Pr false 0 0) ∅.

(** ** Lemmas *)

Lemma buf_at_upd_eq i f s : buf_at i (upd_buf i f s) = f (buf_at i s).
Proof. unfold buf_at, upd_buf. simpl. by rewrite lookup_insert_eq. Qed.
Lemma buf_at_upd_ne i j f s : i ≠ j → buf_at j (upd_buf i f s) = buf_at j s.
Proof. intros. unfold buf_at, upd_buf. simpl. by rewrite lookup_insert_ne. Qed.
Lemma upd_buf_upd i f g s : upd_buf i f (upd_buf i g s) = upd_buf i (λ b, f (g b)) s.
Proof. unfold upd_buf, buf_at. simpl. rewrite lookup_insert_eq, insert_insert_eq. by destruct s as [???? []]. Qed.

Lemma inode_at_upd_eq i f s : inode_at i (upd_inode i f s) = f (inode_at i s).
Proof. unfold inode_at, upd_inode. simpl. by rewrite lookup_insert_eq. Qed.
Lemma inode_at_upd_ne i j f s : i ≠ j → inode_at j (upd_inode i f s) = inode_at j s.
Proof. intros. unfold inode_at, upd_inode. simpl. by rewrite lookup_insert_ne. Qed.
Lemma upd_inode_upd i f g s : upd_inode i f (upd_inode i g s) = upd_inode i (λ b, f (g b)) s.
Proof.
  unfold upd_inode, inode_at. simpl. rewrite lookup_insert_eq, insert_insert_eq. by destruct s as [???????? []].
Qed.

Lemma file_at_upd_eq i f s : file_at i (upd_file i f s) = f (file_at i s).
Proof. unfold file_at, upd_file. simpl. by rewrite lookup_insert_eq. Qed.
Lemma file_at_upd_ne i j f s : i ≠ j → file_at j (upd_file i f s) = file_at j s.
Proof. intros. unfold file_at, upd_file. simpl. by rewrite lookup_insert_ne. Qed.

#[export] Instance bcache_lock_side : SideLens bcache_lock.
Proof. constructor; by intros; destruct s. Qed.
#[export] Instance itable_lock_side : SideLens itable_lock.
Proof. constructor; by intros; destruct s. Qed.
#[export] Instance ftable_lock_side : SideLens ftable_lock.
Proof. constructor; by intros; destruct s. Qed.
#[export] Instance cons_lock_side : SideLens cons_lock_l.
Proof. constructor; by intros; destruct s. Qed.
#[export] Instance uart_tx_lock_side : SideLens uart_tx_lock.
Proof. constructor; by intros; destruct s. Qed.
#[export] Instance pr_lock_side : SideLens pr_lock_l.
Proof. constructor; by intros; destruct s. Qed.
#[export] Instance log_lock_side : SideLens log_lock.
Proof. constructor; by intros; destruct s. Qed.
