(* ===== verification/Console.v ===== *)
(** * The console: kernel/uart.c, kernel/printf.c and kernel/console.c

    The UART driver with its transmit ring, the formatted output of the kernel,
    and the console's line discipline between the UART and the readers and
    writers of the console device. *)
From stdpp Require Import gmap.
From S2P Require Import Prelude Mem Spinlock Riscv Kalloc Vm Proc Kstate.
Open Scope Z_scope.

(** [for(;;) ;] *)
Definition spin {A} : M kst A := λ _, NoFuel.

(** The bytes of a string literal, without the final zero. *)
Definition str (s : string) : list Z := (λ a, Z.of_N (Ascii.N_of_ascii a)) <$> String.list_ascii_of_string s.

Definition intr_push : M kst unit := kcall (modify (noff_by 1)).
Definition intr_pop : M kst unit := kcall (modify (noff_by (-1))).

(** ** kernel/uart.c *)

Definition RHR : Z := 0.
Definition THR : Z := 0.
Definition IER : Z := 1.
Definition IER_RX_ENABLE : Z := 1.
Definition IER_TX_ENABLE : Z := 2.
Definition FCR : Z := 2.
Definition FCR_FIFO_ENABLE : Z := 1.
Definition FCR_FIFO_CLEAR : Z := Z.shiftl 3 1.
Definition ISR : Z := 2.
Definition LCR : Z := 3.
Definition LCR_EIGHT_BITS : Z := 3.
Definition LCR_BAUD_LATCH : Z := Z.shiftl 1 7.
Definition LSR : Z := 5.
Definition LSR_TX_IDLE : Z := Z.shiftl 1 5.
Definition UART_TX_BUF_SIZE : Z := 32.

Definition upd_uart (f : uart → uart) (s : kst) : kst := set_s_uart (f (s_uart s)) s.

(** The device.  A read of LSR or RHR gives the next value the device has; a
    device with nothing more to say is idle and has no input.  A write of register
    0 sends a byte, except in the mode that sets the baud rate. *)
Definition ReadReg (reg : Z) : M kst Z :=
  u ← gets s_uart;
  if reg =? LSR then
    modify (upd_uart (set_u_lsr (tail (u_lsr u))));;
    mret (hd LSR_TX_IDLE (u_lsr u))
  else if reg =? RHR then
    modify (upd_uart (set_u_rhr (tail (u_rhr u))));;
    mret (hd 0 (u_rhr u))
  else mret (default 0 (u_regs u !! reg)).
Definition WriteReg (reg v : Z) : M kst unit :=
  u ← gets s_uart;
  if (reg =? THR) && (Z.land (default 0 (u_regs u !! LCR)) LCR_BAUD_LATCH =? 0) then
    modify (upd_uart (set_u_out (u_out u ++ [u8 v])))
  else modify (upd_uart (set_u_regs (<[reg := u8 v]> (u_regs u)))).

Definition uartinit : M kst unit :=
  WriteReg IER 0x00;;
  WriteReg LCR LCR_BAUD_LATCH;;
  WriteReg 0 0x03;;
  WriteReg 1 0x00;;
  WriteReg LCR LCR_EIGHT_BITS;;
  WriteReg FCR (Z.lor FCR_FIFO_ENABLE FCR_FIFO_CLEAR);;
  WriteReg IER (Z.lor IER_TX_ENABLE IER_RX_ENABLE);;
  modify (lset uart_tx_lock false).

(** One turn of uartstart's loop. *)
Definition uartstart_turn (_ : unit) : M kst (unit + unit) :=
  u ← gets s_uart;
  if uart_tx_w u =? uart_tx_r u then ReadReg ISR;; mret (inr tt) else
  r ← ReadReg LSR;
  if Z.land r LSR_TX_IDLE =? 0 then mret (inr tt) else
  let c := nth (Z.to_nat (uart_tx_r u mod UART_TX_BUF_SIZE)) (uart_tx_buf u) 0 in
  modify (upd_uart (set_uart_tx_r (u64 (uart_tx_r u + 1))));;
  kcall (wakeup ChUart);;
  WriteReg THR c;;
  mret (inl tt).
(** The ring has at most UART_TX_BUF_SIZE bytes to send. *)
Definition uartstart : M kst unit := loop (S (Z.to_nat UART_TX_BUF_SIZE)) uartstart_turn tt.

(** One turn of [while((ReadReg(LSR) & LSR_TX_IDLE) == 0)]. *)
Definition tx_wait (_ : unit) : M kst (unit + unit) :=
  r ← ReadReg LSR;
  mret (if Z.land r LSR_TX_IDLE =? 0 then inl tt else inr tt).

Definition uartgetc : M kst Z :=
  r ← ReadReg LSR;
  if ctrue (Z.land r 0x01) then ReadReg RHR else mret (-1).

Section view.
Context `{!KernelView kst} `{!WaitBound}.

Definition uartputc_sync (c : Z) : M kst unit :=
  intr_push;;
  p ← gets (λ s, panicked (s_pr s));
  if ctrue p then spin else
  loop wait_bound tx_wait tt;;
  WriteReg THR c;;
  intr_pop.

(** One turn of [while(uart_tx_w == uart_tx_r + UART_TX_BUF_SIZE)]. *)
Definition uartputc_turn (_ : unit) : M kst (unit + unit) :=
  u ← gets s_uart;
  if uart_tx_w u =? u64 (uart_tx_r u + UART_TX_BUF_SIZE) then sleep ChUart uart_tx_lock;; mret (inl tt) else mret (inr tt).

Definition uartputc (c : Z) : M kst unit :=
  lock_acquire uart_tx_lock;;
  p ← gets (λ s, panicked (s_pr s));
  if ctrue p then spin else
  loop wait_bound uartputc_turn tt;;
  modify (upd_uart (λ u,
    set_uart_tx_w (u64 (uart_tx_w u + 1))
      (set_uart_tx_buf (<[Z.to_nat (uart_tx_w u mod UART_TX_BUF_SIZE) := u8 c]> (uart_tx_buf u)) u)));;
  uartstart;;
  lock_release uart_tx_lock.

(** ** consputc *)

Definition BACKSPACE : Z := 0x100.

Definition consputc (c : Z) : M kst unit :=
  if c =? BACKSPACE then uartputc_sync 8;; uartputc_sync 32;; uartputc_sync 8 else uartputc_sync c.

(** ** kernel/printf.c *)

(** An argument of printf: a number, or a pointer to a string. *)
Inductive varg := Num (v : Z) | Str (s : option (list Z)).
Definition va_num (ap : list varg) : Z := match ap with Num v :: _ => v | _ => 0 end.
Definition va_str (ap : list varg) : option (list Z) := match ap with Str s :: _ => s | _ => None end.

Definition digits (d : Z) : Z := nth (Z.to_nat d) (str "0123456789abcdef") 0.

(** The digits of printint's [do] loop, in the order of buf, for x < 2^64. *)
Fixpoint int_digits (fuel : nat) (x base : Z) : list Z :=
  match fuel with
  | O => []
  | S fuel' => digits (x mod base) :: (if x / base =? 0 then [] else int_digits fuel' (x / base) base)
  end.

(** What printint leaves in buf; more than 16 characters do not fit in it. *)
Definition printint_buf (xx base : Z) (sign : bool) : list Z :=
  let neg := sign && (xx <? 0) in
  let x := if neg then u64 (- xx) else u64 xx in
  int_digits 64 x base ++ (if neg then [45] else []).

(** Characters sent one by one. *)
Fixpoint conswrite (cs : list Z) : M kst unit :=
  match cs with
  | [] => mret tt
  | c :: cs' => consputc c;; conswrite cs'
  end.

(** A buffer overflow is undefined behaviour: there is nothing to say after it. *)
Definition printint (xx base : Z) (sign : bool) : M kst unit :=
  let buf := printint_buf xx base sign in
  if (16 <? length buf)%nat then spin else conswrite (reverse buf).

(** The 16 digits of printptr's loop. *)
Fixpoint ptr_digits (n : nat) (x : Z) : list Z :=
  match n with
  | O => []
  | S n' => digits (Z.shiftr x 60) :: ptr_digits n' (u64 (Z.shiftl x 4))
  end.
Definition printptr (x : Z) : M kst unit :=
  consputc 48;; consputc 120;; conswrite (ptr_digits 16 (u64 x)).

(** One turn of printf's loop at fmt[i]: the next position and the remaining
    arguments, or the end. *)
Definition printf_turn (fmt : list Z) '((i, ap) : Z * list varg) : M kst ((Z * list varg) + unit) :=
  let at_ k := nth (Z.to_nat k) fmt 0 in
  let cx := at_ i in
  if cx =? 0 then mret (inr tt) else
  if negb (cx =? 37) then consputc cx;; mret (inl (i + 1, ap)) else
  let i := i + 1 in
  let c0 := at_ i in
  let c1 := if ctrue c0 then at_ (i + 1) else 0 in
  let c2 := if ctrue c1 then at_ (i + 2) else 0 in
  let next k : M kst ((Z * list varg) + unit) := mret (inl (i + k + 1, tail ap)) in
  if c0 =? 100 then printint (s32 (va_num ap)) 10 true;; next 0
  else if (c0 =? 108) && (c1 =? 100) then printint (s64 (va_num ap)) 10 true;; next 1
  else if (c0 =? 108) && (c1 =? 108) && (c2 =? 100) then printint (s64 (va_num ap)) 10 true;; next 2
  else if c0 =? 117 then printint (s32 (va_num ap)) 10 false;; next 0
  else if (c0 =? 108) && (c1 =? 117) then printint (s64 (va_num ap)) 10 false;; next 1
  else if (c0 =? 108) && (c1 =? 108) && (c2 =? 117) then printint (s64 (va_num ap)) 10 false;; next 2
  else if c0 =? 120 then printint (s32 (va_num ap)) 16 false;; next 0
  else if (c0 =? 108) && (c1 =? 120) then printint (s64 (va_num ap)) 16 false;; next 1
  else if (c0 =? 108) && (c1 =? 108) && (c2 =? 120) then printint (s64 (va_num ap)) 16 false;; next 2
  else if c0 =? 112 then printptr (va_num ap);; next 0
  else if c0 =? 115 then conswrite (default (str "(null)") (va_str ap));; next 0
  else if c0 =? 37 then consputc 37;; mret (inl (i + 1, ap))
  else if c0 =? 0 then mret (inr tt)
  else consputc 37;; consputc c0;; mret (inl (i + 1, ap)).

Definition printf (fmt : list Z) (ap : list varg) : M kst Z :=
  locking ← gets (λ s, pr_locking (s_pr s));
  (if ctrue locking then lock_acquire pr_lock_l else mret tt);;
  loop (S (length fmt)) (printf_turn fmt) (0, ap);;
  (if ctrue locking then lock_release pr_lock_l else mret tt);;
  mret 0.

(** The function behind the outcome [Panic]: it prints, freezes the output and
    does not return. *)
Definition panic_c (s : list Z) : M kst unit :=
  modify (λ st, set_s_pr (set_pr_locking 0 (s_pr st)) st);;
  printf (str "panic: ") [];;
  printf (str "%s" ++ [10]) [Str (Some s)];;
  modify (λ st, set_s_pr (set_panicked 1 (s_pr st)) st);;
  spin.

Definition printfinit : M kst unit :=
  modify (lset pr_lock_l false);;
  modify (λ st, set_s_pr (set_pr_locking 1 (s_pr st)) st).

(** ** procdump of kernel/proc.c *)

Definition state_name (st : procstate) : list Z :=
  str match st with
  | UNUSED => "unused"
  | USED => "used"
  | SLEEPING => "sleep "
  | RUNNABLE => "runble"
  | RUNNING => "run   "
  | ZOMBIE => "zombie"
  end.

Definition procdump_turn (i : Z) : M kst (Z + unit) :=
  if i <? NPROC then
    p ← kcall (gets (procp i));
    (if decide (p_state p = UNUSED) then mret tt
     else
       printf (str "%d %s %s") [Num (p_pid p); Str (Some (state_name (p_state p))); Str (Some (str (p_name p)))];;
       printf [10] [];;
       mret tt);;
    mret (inl (i + 1))
  else mret (inr tt).
Definition procdump : M kst unit :=
  printf [10] [];;
  loop (S (Z.to_nat NPROC)) procdump_turn 0.

(** ** kernel/console.c *)

Definition INPUT_BUF_SIZE : Z := 128.
(** C(x): Control-x *)
Definition C_ (x : string) : Z := nth 0 (str x) 0 - 64.

Definition upd_cons (f : cons → cons) (s : kst) : kst := set_s_cons (f (s_cons s)) s.

Definition consolewrite_turn (user_src : bool) (src n i : Z) : M kst (Z + Z) :=
  if i <? n then
    '(r, cs) ← kcall (either_copyin user_src (u64 (src + i)) 1);
    if r =? -1 then mret (inr i) else
    uartputc (nth 0 cs 0);;
    mret (inl (i + 1))
  else mret (inr i).
Definition consolewrite (user_src : bool) (src n : Z) : M kst Z :=
  loop (S (Z.to_nat n)) (consolewrite_turn user_src src n) 0.

(** One turn of the inner loop of consoleread: false when the process is killed. *)
Definition cons_wait (_ : unit) : M kst (unit + bool) :=
  c ← gets s_cons;
  if cons_r c =? cons_w c then
    i ← kcall myproc;
    k ← kcall (killed i);
    if ctrue k then mret (inr false) else
    sleep ChCons cons_lock_l;;
    mret (inl tt)
  else mret (inr true).

(** One turn of the outer loop: [None] when the process is killed, otherwise the
    [n] that is left. *)
Definition consoleread_turn (user_dst : bool) (target : Z) '((dst, n) : Z * Z) : M kst ((Z * Z) + option Z) :=
  if n >? 0 then
    ok ← loop wait_bound cons_wait tt;
    if negb ok then lock_release cons_lock_l;; mret (inr None) else
    c ← gets (λ s, let k := s_cons s in nth (Z.to_nat (cons_r k mod INPUT_BUF_SIZE)) (cons_buf k) 0);
    modify (upd_cons (λ k, set_cons_r (u32 (cons_r k + 1)) k));;
    if c =? C_ "D" then
      (if u32 n <? target then modify (upd_cons (λ k, set_cons_r (u32 (cons_r k - 1)) k)) else mret tt);;
      mret (inr (Some n))
    else
      r ← kcall (either_copyout user_dst dst [c]);
      if r =? -1 then mret (inr (Some n))
      else if c =? 10 then mret (inr (Some (n - 1)))
      else mret (inl (u64 (dst + 1), n - 1))
  else mret (inr (Some n)).

Definition consoleread (user_dst : bool) (dst n : Z) : M kst Z :=
  let target := u32 n in
  lock_acquire cons_lock_l;;
  r ← loop (S (Z.to_nat n)) (consoleread_turn user_dst target) (dst, n);
  match r with
  | None => mret (-1)
  | Some n' => lock_release cons_lock_l;; mret (s32 (target - n'))
  end.

(** One turn of the loop of Control-U. *)
Definition killline_turn (_ : unit) : M kst (unit + unit) :=
  c ← gets s_cons;
  if negb (cons_e c =? cons_w c) &&
     negb (nth (Z.to_nat (u32 (cons_e c - 1) mod INPUT_BUF_SIZE)) (cons_buf c) 0 =? 10)
  then
    modify (upd_cons (λ k, set_cons_e (u32 (cons_e k - 1)) k));;
    consputc BACKSPACE;;
    mret (inl tt)
  else mret (inr tt).

(** The [default:] case. *)
Definition cons_input (c : Z) : M kst unit :=
  k ← gets s_cons;
  if negb (c =? 0) && (u32 (cons_e k - cons_r k) <? INPUT_BUF_SIZE) then
    let c := if c =? 13 then 10 else c in
    consputc c;;
    modify (upd_cons (λ k, set_cons_e (u32 (cons_e k + 1))
      (set_cons_buf (<[Z.to_nat (cons_e k mod INPUT_BUF_SIZE) := u8 c]> (cons_buf k)) k)));;
    k ← gets s_cons;
    if (c =? 10) || (c =? C_ "D") || (u32 (cons_e k - cons_r k) =? INPUT_BUF_SIZE) then
      modify (upd_cons (λ k, set_cons_w (cons_e k) k));;
      kcall (wakeup ChCons)
    else mret tt
  else mret tt.

Definition consoleintr (c : Z) : M kst unit :=
  lock_acquire cons_lock_l;;
  (if c =? C_ "P" then procdump
   else if c =? C_ "U" then loop (S (Z.to_nat INPUT_BUF_SIZE)) killline_turn tt
   else if (c =? C_ "H") || (c =? 0x7f) then
     k ← gets s_cons;
     if negb (cons_e k =? cons_w k) then
       modify (upd_cons (λ k, set_cons_e (u32 (cons_e k - 1)) k));;
       consputc BACKSPACE
     else mret tt
   else cons_input c);;
  lock_release cons_lock_l.

(** One turn of the first loop of uartintr. *)
Definition uartintr_turn (_ : unit) : M kst (unit + unit) :=
  c ← uartgetc;
  if c =? -1 then mret (inr tt) else consoleintr c;; mret (inl tt).
(** The device has at most as many characters as values to say that it has one. *)
Definition uartintr : M kst unit :=
  n ← gets (λ s, length (u_lsr (s_uart s)));
  loop (S n) uartintr_turn tt;;
  lock_acquire uart_tx_lock;;
  uartstart;;
  lock_release uart_tx_lock.
End view.

Definition CONSOLE : Z := 1.

Definition consoleinit : M kst unit :=
  modify (lset cons_lock_l false);;
  uartinit;;
  modify (λ s, set_s_devsw (<[CONSOLE := console_fns]> (s_devsw s)) s).
