(* ===== verification/Printint.v ===== *)
(** * The numbers of printf (kernel/printf.c): what printint prints, and what fits in its buffer *)
From stdpp Require Import list.
From S2P Require Import Prelude Console.
Open Scope Z_scope.

(** The value of a digit, and of digits from the least significant one on. *)
Definition digit_val (c : Z) : Z := if c <? 58 then c - 48 else c - 87.
Fixpoint digits_val (base : Z) (l : list Z) : Z :=
  match l with
  | [] => 0
  | c :: l' => digit_val c + base * digits_val base l'
  end.

Lemma digit_val_digits d : 0 ≤ d < 16 → digit_val (digits d) = d.
Proof.
  intros Hd. assert (forallb (λ d, digit_val (digits d) =? d) (seqZ 0 16) = true) as H by (vm_compute; reflexivity).
  rewrite forallb_forall in H. apply Z.eqb_eq, H, list_elem_of_In, elem_of_seqZ. lia.
Qed.

Lemma int_digits_val fuel x base : 2 ≤ base ≤ 16 → 0 ≤ x < base ^ Z.of_nat fuel → digits_val base (int_digits fuel x base) = x.
Proof.
  intros Hb. revert x. induction fuel as [|fuel IH]; intros x Hx; [simpl in *; lia|]. cbn [int_digits digits_val].
  pose proof (Z.mod_pos_bound x base ltac:(lia)) as Hm. pose proof (Z.div_mod x base ltac:(lia)) as Hdm. rewrite digit_val_digits by lia.
  replace (Z.of_nat (S fuel)) with (Z.of_nat fuel + 1) in Hx by lia. rewrite Z.pow_add_r, Z.pow_1_r in Hx by lia.
  destruct (x / base =? 0) eqn:E; [simpl; lia|]. rewrite IH; [lia|]. split; [apply Z.div_pos; lia|]. apply Z.div_lt_upper_bound; lia.
Qed.

(** How many digits a number has. *)
Lemma int_digits_length fuel x base (k : nat) : 2 ≤ base → 0 ≤ x < base ^ Z.of_nat fuel → (0 < k)%nat →
  (length (int_digits fuel x base) ≤ k)%nat ↔ x < base ^ Z.of_nat k.
Proof.
  intros Hb. revert x k. induction fuel as [|fuel IH]; intros x k Hx Hk.
  { simpl in *. pose proof (Z.pow_pos_nonneg base (Z.of_nat k)). lia. }
  destruct k as [|k]; [lia|]. cbn [int_digits length]. pose proof (Z.div_mod x base ltac:(lia)) as Hdm. pose proof (Z.mod_pos_bound x base ltac:(lia)) as Hm.
  replace (Z.of_nat (S fuel)) with (Z.of_nat fuel + 1) in Hx by lia. rewrite Z.pow_add_r, Z.pow_1_r in Hx by lia.
  replace (Z.of_nat (S k)) with (Z.of_nat k + 1) by lia. rewrite Z.pow_add_r, Z.pow_1_r by lia.
  pose proof (Z.pow_pos_nonneg base (Z.of_nat k) ltac:(lia) ltac:(lia)) as Hp. pose proof (Z.div_pos x base ltac:(lia) ltac:(lia)) as Hq.
  destruct (x / base =? 0) eqn:E; [simpl; nia|].
  assert (x < base ^ Z.of_nat k * base ↔ x / base < base ^ Z.of_nat k) as ->.
  { split; [intros; apply Z.div_lt_upper_bound; lia|nia]. }
  destruct k as [|k].
  - change (Z.of_nat 0) with 0. rewrite Z.pow_0_r. split; [|lia]. destruct fuel as [|fuel]; [|cbn [int_digits length]; lia].
    change (Z.of_nat 0) with 0 in Hx. rewrite Z.pow_0_r in Hx. pose proof (Z.div_small x base). lia.
  - rewrite <- (IH (x / base) (S k)); [lia| |lia]. split; [done|]. apply Z.div_lt_upper_bound; lia.
Qed.

(** The number that printint divides. *)
Definition magnitude (xx : Z) (sign : bool) : Z := if sign && (xx <? 0) then u64 (- xx) else u64 xx.

(** ** Properties *)

(** C21: printint in base 10 and its buffer of 16 characters.  The characters before the sign are the
    digits of the number, the least significant one first; and they fit,
    with the sign, exactly when the number has at most 16 digits, or 15 after a minus:
    a 32-bit signed number always does, a 64-bit one, or one that is printed as
    unsigned after the sign extension of a negative int, need not. *)
Theorem printint_buffer xx sign :
  let x := magnitude xx sign in let neg := sign && (xx <? 0) in
  digits_val 10 (take (length (printint_buf xx 10 sign) - if neg then 1 else 0) (printint_buf xx 10 sign)) = x ∧
  ((length (printint_buf xx 10 sign) ≤ 16)%nat ↔ x < 10 ^ (if neg then 15 else 16)).
Proof.
  intros x neg. assert (0 ≤ x < 10 ^ Z.of_nat 64) as Hx.
  { assert (2 ^ 64 < 10 ^ Z.of_nat 64) by (vm_compute; reflexivity). unfold x, magnitude.
    pose proof (u64_range (- xx)). pose proof (u64_range xx). destruct (_ && _); lia. }
  assert (printint_buf xx 10 sign = int_digits 64 x 10 ++ if neg then [45] else []) as -> by reflexivity.
  pose proof (int_digits_val 64 x 10 ltac:(lia) Hx) as Hv. pose proof (λ k, int_digits_length 64 x 10 k ltac:(lia) Hx) as Hl.
  set (l := int_digits 64 x 10) in *. clearbody l. destruct neg.
  - rewrite length_app. change (length [45]) with 1%nat. rewrite Nat.add_sub, take_app_length. split; [done|].
    change 15 with (Z.of_nat 15). rewrite <- Hl by lia. lia.
  - rewrite app_nil_r, Nat.sub_0_r, firstn_all. split; [done|]. change 16 with (Z.of_nat 16). rewrite <- Hl by lia. lia.
Qed.
