(* ===== verification/Sleeplock.v ===== *)
(** * Sleep locks: kernel/sleeplock.c

    A sleep lock is anywhere in the state, given by a lens, with the channel that
    stands for its address.  The lemmas are about the operations that do not
    have to wait; waiting is sleep() of Proc.v. *)
From stdpp Require Import gmap.
From S2P Require Import Prelude Mem Spinlock Riscv Kalloc Vm Proc Kstate.
Open Scope Z_scope.

(** lk->lk *)
Definition lk_l (l : lens kst sleeplock) : lens kst bool :=
  Lens (λ s, sl_lk (lget l s)) (λ b s, lset l (set_sl_lk b (lget l s)) s).

Definition initsleeplock (l : lens kst sleeplock) : M kst unit :=
  modify (lset l (Sleeplock 0 false 0)).

Definition releasesleep (l : lens kst sleeplock) (c : chan) : M kst unit :=
  lock_acquire (lk_l l);;
  modify (λ s, lset l (set_sl_pid 0 (set_sl_locked 0 (lget l s))) s);;
  kcall (wakeup c);;
  lock_release (lk_l l).

Definition holdingsleep (l : lens kst sleeplock) : M kst bool :=
  lock_acquire (lk_l l);;
  k ← gets (lget l);
  i ← kcall myproc;
  p ← kcall (gets (procp i));
  lock_release (lk_l l);;
  mret (ctrue (sl_locked k) && (sl_pid k =? p_pid p)).

Section view.
Context `{!KernelView kst} `{!WaitBound}.

(** One turn of [while (lk->locked) sleep(lk, &lk->lk)]. *)
Definition sleep_turn (l : lens kst sleeplock) (c : chan) (_ : unit) : M kst (unit + unit) :=
  k ← gets (lget l);
  if ctrue (sl_locked k) then sleep c (lk_l l);; mret (inl tt) else mret (inr tt).

Definition acquiresleep (l : lens kst sleeplock) (c : chan) : M kst unit :=
  lock_acquire (lk_l l);;
  loop wait_bound (sleep_turn l c) tt;;
  i ← kcall myproc;
  p ← kcall (gets (procp i));
  modify (λ s, lset l (set_sl_pid (p_pid p) (set_sl_locked 1 (lget l s))) s);;
  lock_release (lk_l l).
End view.

(** ** Lemmas *)

(** The pid of the running process. *)
Definition mypid (s : kst) : Z := p_pid (procp (k_me (s_kern s)) (s_kern s)).

Section lemmas.
Context (l : lens kst sleeplock) `{!SideLens l}.

#[export] Instance lk_side : SideLens (lk_l l).
Proof.
  constructor; intros; unfold lk_l; cbn [lget lset].
  - by rewrite (sl_get_set (l := l)).
  - by rewrite (sl_get_set (l := l)), (sl_set_set (l := l)).
  - by rewrite (sl_kv (l := l)).
  - by rewrite (kv_sl (l := l)).
  - by rewrite (sl_kv (l := l)), (sl_comm (l := l)).
Qed.

(** The lock with its spin lock held, and the CPU's nesting depth raised. *)
Lemma lk_acquire s : sl_lk (lget l s) = false →
  lock_acquire (lk_l l) s = Ok tt (lset kv (noff_by 1 (s_kern s)) (lset l (set_sl_lk true (lget l s)) s)).
Proof. intros H. by rewrite (lock_acquire_side (lk_l l) s). Qed.

(** Giving it back, from a state in which the process layer is [k] and the lock [x]. *)
Lemma lk_release k x s : sl_lk x = true →
  lock_release (lk_l l) (lset kv k (lset l x s)) =
    Ok tt (lset kv (noff_by (-1) k) (lset l (set_sl_lk false x) s)).
Proof.
  intros H. rewrite (lock_release_side (lk_l l)); unfold lk_l; cbn [lget lset].
  - rewrite (sl_kv (l := l)), (sl_get_set (l := l)). rewrite (sl_comm (l := l)), (sl_set_set (l := l)). by rewrite kv_set_set.
  - by rewrite (sl_kv (l := l)), (sl_get_set (l := l)).
Qed.

Lemma kframe_noff d k k' : kframe (noff_by d k) k' → kframe k (noff_by (-d) k').
Proof.
  intros [E L P]. constructor; [|done|].
  - rewrite E. clear. generalize (k_procs k'). intros ps. destruct k. unfold noff_by, set_k_noff, set_k_procs. cbn.
    f_equal. lia.
  - intros i Hi. destruct (P i Hi) as [H|(H1 & H2 & H3)]; [by left|]. right. done.
Qed.

Lemma releasesleep_spec c s :
  table_ok (s_kern s) → sl_lk (lget l s) = false →
  ∃ k', kframe (s_kern s) k' ∧
    releasesleep l c s = Ok tt (lset kv k' (lset l (Sleeplock 0 false 0) s)).
Proof.
  intros Hok Hlk. unfold releasesleep. rewrite (bind_ok _ _ _ _ _ (lk_acquire s Hlk)).
  erewrite bind_ok by reflexivity. rewrite (sl_kv (l := l)), (sl_get_set (l := l)), (sl_comm (l := l)), (sl_set_set (l := l)).
  destruct (wakeup_frame c (noff_by 1 (s_kern s))) as (k1 & Hw & Hf); [by apply (table_ok_ext (s_kern s))|].
  exists (noff_by (-1) k1). split; [by apply (kframe_noff 1)|].
  erewrite bind_ok by (apply kcall_ok; rewrite kv_get_set; exact Hw). rewrite kv_set_set.
  by rewrite lk_release.
Qed.

Lemma holdingsleep_spec s : sl_lk (lget l s) = false →
  holdingsleep l s = Ok (ctrue (sl_locked (lget l s)) && (sl_pid (lget l s) =? mypid s)) (lset l (lget l s) s).
Proof.
  intros Hlk. unfold holdingsleep. rewrite (bind_ok _ _ _ _ _ (lk_acquire s Hlk)).
  erewrite bind_ok by reflexivity. rewrite (sl_kv (l := l)), (sl_get_set (l := l)).
  erewrite bind_ok by (by apply kcall_ok). rewrite kv_set_get.
  erewrite bind_ok by (by apply kcall_ok). rewrite kv_set_get, kv_get_set.
  erewrite bind_ok by (by apply lk_release).
  rewrite noff_back. unfold mret, M_ret. f_equal.
  replace (set_sl_lk false (set_sl_lk true (lget l s))) with (lget l s)
    by (destruct (lget l s); simpl in Hlk; by subst). change (s_kern s) with (lget kv s).
  rewrite <- (sl_comm (l := l)), kv_set_get. done.
Qed.

Context `{!KernelView kst} `{!WaitBound}.

Lemma acquiresleep_spec c s : (0 < wait_bound)%nat → sl_lk (lget l s) = false → sl_locked (lget l s) = 0 →
  acquiresleep l c s = Ok tt (lset l (Sleeplock 1 false (mypid s)) s).
Proof.
  intros Hb Hlk Hl. unfold acquiresleep. rewrite (bind_ok _ _ _ _ _ (lk_acquire s Hlk)).
  set (s1 := lset kv _ _). assert (loop wait_bound (sleep_turn l c) tt s1 = Ok tt s1) as Hw.
  { destruct wait_bound; [lia|]. cbn [loop]. unfold sleep_turn. rewrite bind_assoc. erewrite bind_ok by reflexivity.
    unfold s1. rewrite (sl_kv (l := l)), (sl_get_set (l := l)). simpl sl_locked. by rewrite Hl. }
  rewrite (bind_ok _ _ _ _ _ Hw). unfold s1. clear Hw s1.
  erewrite bind_ok by (by apply kcall_ok). rewrite kv_set_get.
  erewrite bind_ok by (by apply kcall_ok). rewrite kv_set_get, kv_get_set.
  erewrite bind_ok by reflexivity. rewrite (sl_kv (l := l)), (sl_get_set (l := l)), (sl_comm (l := l)), (sl_set_set (l := l)).
  rewrite lk_release by done. rewrite noff_back. f_equal. change (s_kern s) with (lget kv s).
  rewrite <- (sl_comm (l := l)), kv_set_get. done.
Qed.
End lemmas.
