(* ===== verification/Bio.v ===== *)
(** * The buffer cache: kernel/bio.c

    NBUF buffers in a ring of prev and next pointers through the list head, in
    the order of their last use.  A disk transfer (virtio_disk_rw of
    kernel/virtio_disk.c) is one step here, the atomic transfer that the driver of
    [Virtio] is proved to implement, and no other process runs before the
    transfer is complete.  Each write is recorded in the trace of the disk, so
    that a crash between two writes can be stated. *)
From stdpp Require Import gmap.
From S2P Require Import Prelude Bytes Mem Spinlock Riscv Kalloc Vm Proc Kstate Sleeplock.
Open Scope Z_scope.

(** &bcache.head *)
Definition HEAD : Z := NBUF.

Definition buf_lock_l (i : Z) : lens kst sleeplock :=
  Lens (λ s, b_lock (buf_at i s)) (λ k, upd_buf i (set_b_lock k)).

(** What the driver and the device do for [virtio_disk_rw(b, write)]. *)
Definition virtio_disk_rw (b : Z) (write : bool) : M kst unit :=
  x ← gets (buf_at b);
  if write then
    modify (λ s, set_s_disk (Disk
      (λ n, if n =? b_blockno x then b_data x else d_block (s_disk s) n)
      (d_trace (s_disk s) ++ [(b_blockno x, b_data x)])) s)
  else modify (λ s, upd_buf b (set_b_data (d_block (s_disk s) (b_blockno x))) s).

(** One turn of binit's loop; the last two assignments of the list insertion
    are those of brelse too. *)
Definition binit_turn (b : Z) : M kst (Z + unit) :=
  if b <? NBUF then
    n ← gets (λ s, b_next (buf_at HEAD s));
    modify (upd_buf b (set_b_next n));;
    modify (upd_buf b (set_b_prev HEAD));;
    initsleeplock (buf_lock_l b);;
    n ← gets (λ s, b_next (buf_at HEAD s));
    modify (upd_buf n (set_b_prev b));;
    modify (upd_buf HEAD (set_b_next b));;
    mret (inl (b + 1))
  else mret (inr tt).

Definition binit : M kst unit :=
  modify (lset bcache_lock false);;
  modify (upd_buf HEAD (set_b_prev HEAD));;
  modify (upd_buf HEAD (set_b_next HEAD));;
  loop (S (Z.to_nat NBUF)) binit_turn 0.

(** The two loops of bget, for the buffer the loop stops at; refcnt is a uint. *)
Definition bget_cached (dev blockno b : Z) : M kst (Z + option Z) :=
  if b =? HEAD then mret (inr None) else
  x ← gets (buf_at b);
  if (b_dev x =? dev) && (b_blockno x =? blockno) then
    modify (upd_buf b (λ x, set_b_refcnt (u32 (b_refcnt x + 1)) x));;
    mret (inr (Some b))
  else mret (inl (b_next x)).

Definition bget_recycle (dev blockno b : Z) : M kst (Z + option Z) :=
  if b =? HEAD then mret (inr None) else
  x ← gets (buf_at b);
  if b_refcnt x =? 0 then
    modify (upd_buf b (λ x, set_b_refcnt 1 (set_b_valid 0 (set_b_blockno blockno (set_b_dev dev x)))));;
    mret (inr (Some b))
  else mret (inl (b_prev x)).

(** b->next->prev = b->prev; b->prev->next = b->next; *)
Definition buf_unlink (b : Z) : M kst unit :=
  x ← gets (buf_at b);
  modify (upd_buf (b_next x) (set_b_prev (b_prev x)));;
  x ← gets (buf_at b);
  modify (upd_buf (b_prev x) (set_b_next (b_next x))).

(** b->next = bcache.head.next; b->prev = &bcache.head;
    bcache.head.next->prev = b; bcache.head.next = b; *)
Definition buf_link (b : Z) : M kst unit :=
  n ← gets (λ s, b_next (buf_at HEAD s));
  modify (upd_buf b (set_b_next n));;
  modify (upd_buf b (set_b_prev HEAD));;
  n ← gets (λ s, b_next (buf_at HEAD s));
  modify (upd_buf n (set_b_prev b));;
  modify (upd_buf HEAD (set_b_next b)).

Definition bwrite (b : Z) : M kst unit :=
  h ← holdingsleep (buf_lock_l b);
  if negb h then panic "bwrite" else virtio_disk_rw b true.

Definition brelse (b : Z) : M kst unit :=
  h ← holdingsleep (buf_lock_l b);
  if negb h then panic "brelse" else
  releasesleep (buf_lock_l b) (ChBuf b);;
  lock_acquire bcache_lock;;
  modify (upd_buf b (λ x, set_b_refcnt (u32 (b_refcnt x - 1)) x));;
  x ← gets (buf_at b);
  (if b_refcnt x =? 0 then buf_unlink b;; buf_link b else mret tt);;
  lock_release bcache_lock.

Definition bpin (b : Z) : M kst unit :=
  lock_acquire bcache_lock;;
  modify (upd_buf b (λ x, set_b_refcnt (u32 (b_refcnt x + 1)) x));;
  lock_release bcache_lock.

Definition bunpin (b : Z) : M kst unit :=
  lock_acquire bcache_lock;;
  modify (upd_buf b (λ x, set_b_refcnt (u32 (b_refcnt x - 1)) x));;
  lock_release bcache_lock.

Section view.
Context `{!KernelView kst} `{!WaitBound}.

Definition bget (dev blockno : Z) : M kst Z :=
  lock_acquire bcache_lock;;
  first ← gets (λ s, b_next (buf_at HEAD s));
  r ← loop (S (Z.to_nat NBUF)) (bget_cached dev blockno) first;
  match r with
  | Some b =>
      lock_release bcache_lock;;
      acquiresleep (buf_lock_l b) (ChBuf b);;
      mret b
  | None =>
      last ← gets (λ s, b_prev (buf_at HEAD s));
      r ← loop (S (Z.to_nat NBUF)) (bget_recycle dev blockno) last;
      match r with
      | Some b =>
          lock_release bcache_lock;;
          acquiresleep (buf_lock_l b) (ChBuf b);;
          mret b
      | None => panic "bget: no buffers"
      end
  end.

Definition bread (dev blockno : Z) : M kst Z :=
  b ← bget dev blockno;
  x ← gets (buf_at b);
  if b_valid x =? 0 then
    virtio_disk_rw b false;;
    modify (upd_buf b (set_b_valid 1));;
    mret b
  else mret b.
End view.

(** ** The ring *)

(** [l] are the nodes between [a] and [z], each linked both ways. *)
Fixpoint chain (nx pv : Z → Z) (a : Z) (l : list Z) (z : Z) : Prop :=
  match l with
  | [] => nx a = z ∧ pv z = a
  | x :: l' => nx a = x ∧ pv x = a ∧ chain nx pv x l' z
  end.

Lemma chain_ext nx pv nx' pv' a l z :
  (∀ x, x = a ∨ x ∈ l → nx' x = nx x) → (∀ x, x ∈ l ∨ x = z → pv' x = pv x) →
  chain nx pv a l z → chain nx' pv' a l z.
Proof.
  revert a. induction l as [|x l IH]; intros a Hn Hp; simpl.
  - rewrite Hn, Hp by auto. done.
  - intros (H1 & H2 & H3). rewrite Hn, Hp by set_solver. split_and!; [done|done|].
    apply IH; [intros y Hy; apply Hn; set_solver|intros y Hy; apply Hp; set_solver|done].
Qed.

Lemma chain_app nx pv a l x l' z :
  chain nx pv a (l ++ x :: l') z ↔ chain nx pv a l x ∧ chain nx pv x l' z.
Proof.
  revert a. induction l as [|y l IH]; intros a; simpl.
  - tauto.
  - rewrite IH. tauto.
Qed.

(** The last node before the end is what the end points back at. *)
Lemma chain_snoc nx pv a l x z : chain nx pv a (l ++ [x]) z → pv z = x ∧ chain nx pv a l x.
Proof. intros [H [_ Hp]]%chain_app. done. Qed.

Lemma chain_first nx pv a l z : chain nx pv a l z → nx a = hd z l.
Proof. destruct l; simpl; tauto. Qed.
Lemma chain_last nx pv a l z : chain nx pv a l z → pv z = default a (last l).
Proof.
  destruct l as [|x l _] using rev_ind; [simpl; tauto|]. intros [H _]%chain_snoc. by rewrite last_snoc.
Qed.

(** Taking a node out. *)
Lemma chain_remove nx pv a l1 x l2 z :
  NoDup (l1 ++ x :: l2) → a ∉ l1 ++ x :: l2 → z ∉ l1 ++ x :: l2 → chain nx pv a (l1 ++ x :: l2) z →
  chain (fupd (pv x) (nx x) nx) (fupd (nx x) (pv x) pv) a (l1 ++ l2) z.
Proof.
  intros Hnd Ha Hz [H1 H2]%chain_app.
  assert (pv x = default a (last l1)) as Hpx by (by apply chain_last in H1).
  assert (nx x = hd z l2) as Hnx by (by apply chain_first in H2).
  apply NoDup_app in Hnd as (Hd1 & Hd12 & [Hx2 Hd2]%NoDup_cons).
  destruct l1 as [|p l1 _] using rev_ind.
  - simpl in *. rewrite Hpx. destruct l2 as [|y l2]; simpl in *; rewrite ?Hnx, ?fupd_eq.
    + done.
    + destruct H2 as (_ & _ & H2). split_and!; [done|done|]. apply chain_ext with nx pv; [| |done].
      * intros w Hw. apply fupd_ne. set_solver.
      * intros w Hw. apply fupd_ne. intros ->. apply NoDup_cons in Hd2 as [? _]. set_solver.
  - rewrite last_snoc in Hpx. simpl in Hpx. rewrite <- app_assoc. simpl. apply chain_snoc in H1 as [_ H1].
    rewrite Hpx. apply chain_app. split.
    + apply chain_ext with nx pv; [| |done].
      * intros w Hw. apply fupd_ne. intros ->. destruct Hw as [->|Hw]; [set_solver|].
        apply NoDup_app in Hd1 as (_ & Hd1 & _). set_solver.
      * intros w Hw. apply fupd_ne. rewrite Hnx. destruct l2 as [|y l2]; set_solver.
    + destruct l2 as [|y l2]; simpl in *; rewrite Hnx, ?fupd_eq; [done|].
      destruct H2 as (_ & _ & H2). split_and!; [done|done|]. apply chain_ext with nx pv; [| |done].
      * intros w Hw. apply fupd_ne. set_solver.
      * intros w Hw. apply fupd_ne. intros ->. apply NoDup_cons in Hd2 as [? _]. set_solver.
Qed.

(** Putting a node in front. *)
Lemma chain_cons nx pv a x l z :
  NoDup l → x ∉ l → a ∉ l → z ∉ l → x ≠ a → x ≠ z → chain nx pv a l z →
  chain (fupd a x (fupd x (nx a) nx)) (fupd (nx a) x (fupd x a pv)) a (x :: l) z.
Proof.
  intros Hnd Hx Ha Hz Hxa Hxz Hc. pose proof (chain_first _ _ _ _ _ Hc) as Hn. simpl.
  rewrite fupd_eq. split_and!; [done| |].
  - rewrite fupd_ne by (rewrite Hn; destruct l; set_solver). by rewrite fupd_eq.
  - destruct l as [|y l]; simpl in *; rewrite Hn in *.
    + rewrite fupd_ne by done. by rewrite !fupd_eq.
    + rewrite (fupd_ne a) by done. rewrite !fupd_eq. destruct Hc as (_ & _ & Hc). split_and!; [done|done|].
      apply chain_ext with nx pv; [| |done].
      * intros w Hw. rewrite !fupd_ne by set_solver. done.
      * intros w Hw. apply NoDup_cons in Hnd as [? _]. rewrite !fupd_ne by set_solver. done.
Qed.

(** ** The cache as a set of blocks

    For the blocks of one device: what a block contains as the system sees it,
    how many users its buffer has, its lock, and how many buffers are unused. *)

Section cache.
Variable dev : Z.

Definition holds (s : kst) (i n : Z) : Prop :=
  0 ≤ i < NBUF ∧ b_dev (buf_at i s) = dev ∧ b_blockno (buf_at i s) = n.

Definition cached (s : kst) (n : Z) : option Z :=
  snd <$> list_find (λ i, b_dev (buf_at i s) = dev ∧ b_blockno (buf_at i s) = n) (seqZ 0 NBUF).

(** The contents of a block: in its buffer, or else on the disk. *)
Definition blk (s : kst) (n : Z) : list Z :=
  match cached s n with
  | Some i => if b_valid (buf_at i s) =? 0 then d_block (s_disk s) n else b_data (buf_at i s)
  | None => d_block (s_disk s) n
  end.
Definition ref (s : kst) (n : Z) : Z :=
  match cached s n with Some i => b_refcnt (buf_at i s) | None => 0 end.
(** The pid of the process that holds its buffer, if any. *)
Definition owner (s : kst) (n : Z) : option Z :=
  match cached s n with
  | Some i => let k := b_lock (buf_at i s) in if sl_locked k =? 0 then None else Some (sl_pid k)
  | None => None
  end.
Definition unused (s : kst) : list Z := filter (λ i, b_refcnt (buf_at i s) = 0) (seqZ 0 NBUF).
Definition free (s : kst) : Z := Z.of_nat (length (unused s)).

Definition nxt (s : kst) (i : Z) : Z := b_next (buf_at i s).
Definition prv (s : kst) (i : Z) : Z := b_prev (buf_at i s).

(** The invariant; [l] are the buffers in the order of the ring.  A buffer that
    nobody uses has what the disk has, if it has anything. *)
Record cache_ok (s : kst) (l : list Z) : Prop := {
  co_ring : chain (nxt s) (prv s) HEAD l HEAD;
  co_perm : l ≡ₚ seqZ 0 NBUF;
  co_lock : bc_lock (s_bcache s) = false;
  co_in i : 0 ≤ i ≤ NBUF → is_Some (bc_buf (s_bcache s) !! i);
  co_lk i : 0 ≤ i < NBUF → sl_lk (b_lock (buf_at i s)) = false;
  co_ref i : 0 ≤ i < NBUF → 0 ≤ b_refcnt (buf_at i s) < 2 ^ 31;
  co_held i : 0 ≤ i < NBUF → sl_locked (b_lock (buf_at i s)) ≠ 0 → 0 < b_refcnt (buf_at i s);
  co_uniq i j n : holds s i n → holds s j n → i = j;
  co_clean i n : holds s i n → b_refcnt (buf_at i s) = 0 → b_valid (buf_at i s) ≠ 0 →
    b_data (buf_at i s) = d_block (s_disk s) n;
}.

Lemma cached_holds s n i : cached s n = Some i → holds s i n.
Proof.
  unfold cached. intros Hf. apply fmap_Some in Hf as ([k j] & Hf & ->). simpl.
  apply list_find_Some in Hf as (Hk & [Hd Hb] & _). apply lookup_seqZ in Hk. unfold holds. split_and!; try done; lia.
Qed.

Lemma holds_cached s l n i : cache_ok s l → holds s i n → cached s n = Some i.
Proof.
  intros Hok Hh. destruct (cached s n) as [j|] eqn:E.
  - f_equal. apply (co_uniq _ _ Hok j i n); [by apply cached_holds|done].
  - unfold cached in E. apply fmap_None, list_find_None in E. destruct Hh as (Hi & Hd & Hb).
    rewrite Forall_forall in E. exfalso. apply (E i); [apply elem_of_seqZ; lia|done].
Qed.

Lemma cached_None s l n : cache_ok s l → cached s n = None → ∀ i, ¬ holds s i n.
Proof. intros Hok E i Hh. rewrite (holds_cached s l n i Hok Hh) in E. done. Qed.

(** *** Changes to one buffer *)

Lemma buf_at_upd i j g s : buf_at j (upd_buf i g s) = if decide (j = i) then g (buf_at i s) else buf_at j s.
Proof. case_decide; [subst; apply buf_at_upd_eq|by apply buf_at_upd_ne]. Qed.

(** What the new buffer must satisfy. *)
Record buf_ok (s : kst) (x : buf) : Prop := {
  bo_lk : sl_lk (b_lock x) = false;
  bo_ref : 0 ≤ b_refcnt x < 2 ^ 31;
  bo_held : sl_locked (b_lock x) ≠ 0 → 0 < b_refcnt x;
  bo_clean : b_dev x = dev → b_refcnt x = 0 → b_valid x ≠ 0 → b_data x = d_block (s_disk s) (b_blockno x);
}.

Lemma co_buf s l i : cache_ok s l → 0 ≤ i < NBUF → buf_ok s (buf_at i s).
Proof.
  intros Hok Hi. constructor; [by apply Hok|by apply Hok|by apply Hok|].
  intros Hd. apply Hok. done.
Qed.

(** *** Assigning a buffer *)

Lemma filter_change {A} (P Q : A → Prop) `{∀ x, Decision (P x)} `{∀ x, Decision (Q x)} (i : A) (l : list A) :
  NoDup l → i ∈ l → (∀ j, j ≠ i → P j ↔ Q j) →
  (length (filter Q l) + (if decide (P i) then 1 else 0) =
   length (filter P l) + (if decide (Q i) then 1 else 0))%nat.
Proof.
  intros Hnd Hi Hpq. induction Hnd as [|x l Hx Hnd IH]; [by apply elem_of_nil in Hi|].
  rewrite !filter_cons. apply elem_of_cons in Hi as [<-|Hi].
  - assert (filter Q l = filter P l) as ->.
    { clear IH Hnd. induction l as [|y l IH]; [done|]. apply not_elem_of_cons in Hx as [Hy Hx]. rewrite !filter_cons.
      rewrite IH by done. pose proof (Hpq y (not_eq_sym Hy)). repeat case_decide; tauto || done. }
    repeat case_decide; simpl; lia.
  - assert (x ≠ i) as Hne by (by intros ->). specialize (IH Hi). pose proof (Hpq x Hne).
    repeat case_decide; simpl; try lia; tauto.
Qed.

(** Buffer [i] becomes [x], which holds block [n]; the block it held before, if
    another one, was not in use. *)
Record assigns (s : kst) (i n : Z) (x : buf) : Prop := {
  as_range : 0 ≤ i < NBUF;
  as_next : b_next x = b_next (buf_at i s);
  as_prev : b_prev x = b_prev (buf_at i s);
  as_dev : b_dev x = dev;
  as_blockno : b_blockno x = n;
  as_only j : holds s j n → j = i;
  as_evict m : holds s i m → m ≠ n → b_refcnt (buf_at i s) = 0;
  as_ok : buf_ok s x;
}.

Definition zero (x : Z) : Z := if x =? 0 then 1 else 0.

Lemma assign_holds s i n x j m : assigns s i n x →
  holds (upd_buf i (λ _, x) s) j m ↔ (j = i ∧ m = n) ∨ (j ≠ i ∧ holds s j m).
Proof.
  intros [Hr _ _ Hd Hb _ _ _]. unfold holds. rewrite buf_at_upd. case_decide as E.
  - subst j. rewrite Hd, Hb. naive_solver.
  - naive_solver.
Qed.

Lemma assign_ok s l i n x : cache_ok s l → assigns s i n x → cache_ok (upd_buf i (λ _, x) s) l.
Proof.
  intros Hok Ha. pose proof Ha as [Hr Hnx Hpv Hd Hb Ho He Hx]. constructor.
  - apply chain_ext with (nxt s) (prv s); [..|apply Hok]; intros j _; unfold nxt, prv; rewrite buf_at_upd;
      case_decide; congruence.
  - apply Hok.
  - apply Hok.
  - intros j Hj. simpl. destruct (decide (j = i)) as [->|]; [by rewrite lookup_insert_eq|].
    rewrite lookup_insert_ne by done. by apply Hok.
  - intros j Hj. rewrite buf_at_upd. case_decide; [apply Hx|by apply Hok].
  - intros j Hj. rewrite buf_at_upd. case_decide; [apply Hx|by apply Hok].
  - intros j Hj. rewrite buf_at_upd. case_decide; [apply Hx|by apply Hok].
  - intros j k m Hj%(assign_holds s i n x j m Ha) Hk%(assign_holds s i n x k m Ha).
    destruct Hj as [[-> ->]|[Hj Hhj]], Hk as [[-> ?]|[Hk Hhk]]; try done; subst.
    + symmetry. by apply Ho.
    + by apply Ho.
    + by apply (co_uniq _ _ Hok j k m).
  - intros j m Hj%(assign_holds s i n x j m Ha). rewrite buf_at_upd. case_decide as E.
    + destruct Hj as [[_ ->]|[? _]]; [|done]. rewrite <- Hb. by apply Hx.
    + destruct Hj as [[? _]|[_ Hj]]; [done|]. by apply Hok.
Qed.

Lemma assign_cached s l i n x m : cache_ok s l → assigns s i n x →
  cached (upd_buf i (λ _, x) s) m =
    if decide (m = n) then Some i else if decide (cached s m = Some i) then None else cached s m.
Proof.
  intros Hok Ha. pose proof (assign_ok s l i n x Hok Ha) as Hok'. case_decide as E.
  - subst m. apply (holds_cached _ l _ _ Hok'), (assign_holds s i n x i n Ha). by left.
  - case_decide as Ei.
    + destruct (cached (upd_buf i (λ _, x) s) m) as [j|] eqn:Ej; [|done].
      apply cached_holds, (assign_holds s i n x j m Ha) in Ej as [[_ ?]|[Hne Hh]]; [done|].
      apply (holds_cached s l _ _ Hok) in Hh. congruence.
    + destruct (cached s m) as [j|] eqn:Ej.
      * apply (holds_cached _ l _ _ Hok'), (assign_holds s i n x j m Ha). right. split; [congruence|by apply cached_holds].
      * destruct (cached (upd_buf i (λ _, x) s) m) as [j|] eqn:Ej'; [|done].
        apply cached_holds, (assign_holds s i n x j m Ha) in Ej' as [[_ ?]|[Hne Hh]]; [done|].
        by apply (cached_None s l m Hok Ej) in Hh.
Qed.

(** The assignment in the client's terms. *)
Lemma assign_view s l i n x : cache_ok s l → assigns s i n x →
  let s' := upd_buf i (λ _, x) s in
  blk s' n = (if b_valid x =? 0 then d_block (s_disk s) n else b_data x) ∧ ref s' n = b_refcnt x ∧
  owner s' n = (if sl_locked (b_lock x) =? 0 then None else Some (sl_pid (b_lock x))) ∧
  (∀ m, m ≠ n → blk s' m = blk s m ∧ ref s' m = ref s m ∧ owner s' m = owner s m) ∧
  free s' = free s + zero (b_refcnt x) - zero (b_refcnt (buf_at i s)).
Proof.
  intros Hok Ha s'. assert (∀ m, cached s' m = _) as Hc by (intros m; apply (assign_cached s l i n x m Hok Ha)).
  assert (buf_at i s' = x) as Hbi by apply buf_at_upd_eq.
  unfold blk, ref, owner. rewrite !(Hc n), !decide_True, Hbi by done. split_and!; try done.
  - intros m Hm. rewrite !(Hc m), !(decide_False (P := m = n)) by done. case_decide as Ei.
    + rewrite Ei. apply cached_holds in Ei as Hh. pose proof (as_evict _ _ _ _ Ha m Hh Hm) as Hz.
      rewrite Hz. split_and!; [|done|].
      * destruct (b_valid (buf_at i s) =? 0) eqn:Ev; [done|]. symmetry. apply (co_clean _ _ Hok i m Hh Hz). lia.
      * destruct (_ =? 0) eqn:El; [done|]. pose proof (co_held _ _ Hok i (as_range _ _ _ _ Ha)). lia.
    + destruct (cached s m) as [j|] eqn:Ej; [|done]. unfold s'. rewrite !buf_at_upd_ne by congruence. done.
  - unfold free, unused. pose proof (filter_change (λ j, b_refcnt (buf_at j s) = 0) (λ j, b_refcnt (buf_at j s') = 0)
      i (seqZ 0 NBUF) (NoDup_seqZ _ _)) as Hf.
    cbv beta in Hf. rewrite Hbi in Hf. specialize (Hf ltac:(apply elem_of_seqZ; pose proof (as_range _ _ _ _ Ha); lia)).
    specialize (Hf ltac:(intros j Hj; unfold s'; by rewrite buf_at_upd_ne)).
    unfold zero. destruct (Z.eqb_spec (b_refcnt x) 0), (Z.eqb_spec (b_refcnt (buf_at i s)) 0); repeat case_decide; try done; lia.
Qed.

(** *** The loops of bget *)

Lemma list_find_cons {A} (P : A → Prop) `{∀ x, Decision (P x)} x l :
  list_find P (x :: l) = if decide (P x) then Some (0%nat, x) else prod_map S id <$> list_find P l.
Proof. done. Qed.

Definition is_block (s : kst) (n i : Z) : Prop := b_dev (buf_at i s) = dev ∧ b_blockno (buf_at i s) = n.
#[local] Instance is_block_dec s n i : Decision (is_block s n i) := _.

Lemma cached_turn x s n : x ≠ HEAD → bget_cached dev n x s =
  if decide (is_block s n x) then Ok (inr (Some x)) (upd_buf x (λ x, set_b_refcnt (u32 (b_refcnt x + 1)) x) s)
  else Ok (inl (nxt s x)) s.
Proof.
  intros Hx. unfold bget_cached. replace (x =? HEAD) with false by lia. erewrite bind_ok by reflexivity.
  case_decide as Hm.
  - destruct Hm as [-> ->]. by rewrite !Z.eqb_refl.
  - replace (_ && _) with false; [done|]. unfold is_block in Hm. lia.
Qed.

Lemma recycle_turn x s n : x ≠ HEAD → bget_recycle dev n x s =
  if decide (b_refcnt (buf_at x s) = 0) then Ok (inr (Some x))
    (upd_buf x (λ x, set_b_refcnt 1 (set_b_valid 0 (set_b_blockno n (set_b_dev dev x)))) s)
  else Ok (inl (prv s x)) s.
Proof.
  intros Hx. unfold bget_recycle. replace (x =? HEAD) with false by lia. erewrite bind_ok by reflexivity.
  case_decide as Hm.
  - by rewrite Hm.
  - by replace (_ =? 0) with false by lia.
Qed.

Lemma cached_run fuel a l s n :
  chain (nxt s) (prv s) a l HEAD → HEAD ∉ l → (length l < fuel)%nat →
  loop fuel (bget_cached dev n) (nxt s a) s =
    match list_find (is_block s n) l with
    | Some (_, i) => Ok (Some i) (upd_buf i (λ x, set_b_refcnt (u32 (b_refcnt x + 1)) x) s)
    | None => Ok None s
    end.
Proof.
  revert fuel a. induction l as [|x l IH]; intros [|fuel] a Hc Hh Hf; simpl in Hf; try lia; cbn [loop].
  - destruct Hc as [-> _]. unfold bget_cached. by rewrite Z.eqb_refl.
  - destruct Hc as (-> & _ & Hc). rewrite list_find_cons. apply not_elem_of_cons in Hh as [Hx Hh].
    pose proof (cached_turn x s n (not_eq_sym Hx)) as Ht. case_decide; rewrite (bind_ok _ _ _ _ _ Ht); [done|].
    rewrite IH by (done || lia). by destruct (list_find _ l) as [[? ?]|].
Qed.

Lemma recycle_run fuel l z s n :
  chain (nxt s) (prv s) HEAD l z → HEAD ∉ l → (length l < fuel)%nat →
  loop fuel (bget_recycle dev n) (prv s z) s =
    match list_find (λ i, b_refcnt (buf_at i s) = 0) (reverse l) with
    | Some (_, i) => Ok (Some i)
        (upd_buf i (λ x, set_b_refcnt 1 (set_b_valid 0 (set_b_blockno n (set_b_dev dev x)))) s)
    | None => Ok None s
    end.
Proof.
  revert fuel z. induction l as [|x l IH] using rev_ind; intros [|fuel] z Hc Hh Hf;
    rewrite ?length_app in Hf; simpl in Hf; try lia; cbn [loop].
  - destruct Hc as [_ ->]. unfold bget_recycle. by rewrite Z.eqb_refl.
  - apply chain_snoc in Hc as [-> Hc]. rewrite reverse_snoc, list_find_cons.
    apply not_elem_of_app in Hh as [Hh Hx%not_elem_of_cons]. destruct Hx as [Hx _].
    pose proof (recycle_turn x s n (not_eq_sym Hx)) as Ht. case_decide; rewrite (bind_ok _ _ _ _ _ Ht); [done|].
    rewrite IH by (done || lia). by destruct (list_find _ (reverse l)) as [[? ?]|].
Qed.

(** *** bget and bread *)

(** bcache.lock held, from [s] in which it is free. *)
Definition bc_held (s : kst) : kst := lset kv (noff_by 1 (s_kern s)) (lset bcache_lock true s).

Lemma bc_acquire s : bc_lock (s_bcache s) = false → lock_acquire bcache_lock s = Ok tt (bc_held s).
Proof. exact (lock_acquire_side bcache_lock s). Qed.

Lemma bc_release s : bc_lock (s_bcache s) = false → lock_release bcache_lock (bc_held s) = Ok tt s.
Proof.
  intros Hl. rewrite (lock_release_side bcache_lock (bc_held s)) by done. f_equal. unfold bc_held.
  rewrite (kv_get_set (S := kst)). rewrite sl_comm, kv_set_set, sl_set_set, noff_back.
  destruct s as [? ? ? ? []]. simpl in Hl. by subst.
Qed.

Lemma ring_in s l i : cache_ok s l → i ∈ l ↔ 0 ≤ i < NBUF.
Proof. intros Hok. rewrite (co_perm _ _ Hok), elem_of_seqZ. lia. Qed.
Lemma ring_head s l : cache_ok s l → HEAD ∉ l.
Proof. intros Hok Hi%(ring_in s l HEAD Hok). unfold HEAD in Hi. lia. Qed.
Lemma ring_len s l : cache_ok s l → length l = Z.to_nat NBUF.
Proof. intros Hok. rewrite (co_perm _ _ Hok), length_seqZ. done. Qed.

Lemma find_cached s l n : cache_ok s l → snd <$> list_find (is_block s n) l = cached s n.
Proof.
  intros Hok. destruct (list_find (is_block s n) l) as [[k i]|] eqn:E; simpl.
  - apply list_find_Some in E as (Hk%list_elem_of_lookup_2 & [Hd Hb] & _). apply (ring_in s l i Hok) in Hk.
    symmetry. apply (holds_cached s l n i Hok). done.
  - destruct (cached s n) as [i|] eqn:Ec; [|done]. apply cached_holds in Ec as (Hi & Hb).
    apply list_find_None in E. rewrite Forall_forall in E. exfalso. apply (E i); [by apply (ring_in s l)|done].
Qed.

Lemma in_unused s i : i ∈ unused s ↔ 0 ≤ i < NBUF ∧ b_refcnt (buf_at i s) = 0.
Proof. unfold unused. rewrite list_elem_of_filter, elem_of_seqZ. lia. Qed.

#[export] Instance buf_lock_side i : SideLens (buf_lock_l i).
Proof.
  constructor; try by intros; destruct s.
  - intros b s. simpl. by rewrite buf_at_upd_eq.
  - intros b b' s. simpl. rewrite upd_buf_upd. done.
Qed.

Section view.
Context `{!KernelView kst} `{!WaitBound}.
Hypothesis Hwait : (0 < wait_bound)%nat.

Lemma bget_hit s l n i : cache_ok s l → cached s n = Some i → sl_locked (b_lock (buf_at i s)) = 0 →
  bget dev n s = Ok i
    (upd_buf i (λ x, set_b_lock (Sleeplock 1 false (mypid s)) (set_b_refcnt (b_refcnt x + 1) x)) s).
Proof.
  intros Hok Hc Hl. pose proof (cached_holds _ _ _ Hc) as (Hi & _). unfold bget.
  rewrite (bind_ok _ _ _ _ _ (bc_acquire s (co_lock _ _ Hok))). erewrite bind_ok by reflexivity.
  pose proof (cached_run (S (Z.to_nat NBUF)) HEAD l (bc_held s) n (co_ring _ _ Hok) (ring_head s l Hok)) as Hr.
  rewrite (ring_len s l Hok) in Hr. specialize (Hr ltac:(lia)).
  pose proof (find_cached s l n Hok) as Hf. rewrite Hc in Hf. apply fmap_Some in Hf as ([k j] & Hf & Hj). simpl in Hj. subst j.
  change (list_find (is_block (bc_held s) n) l) with (list_find (is_block s n) l) in Hr. rewrite Hf in Hr.
  rewrite (bind_ok _ _ _ _ _ Hr). clear Hr Hf. pose proof (co_ref _ _ Hok i Hi) as Href.
  set (s1 := upd_buf i (λ x, set_b_refcnt (u32 (b_refcnt x + 1)) x) s).
  assert (buf_at i s1 = set_b_refcnt (u32 (b_refcnt (buf_at i s) + 1)) (buf_at i s)) as Hb1 by (unfold s1; by rewrite buf_at_upd_eq).
  change (upd_buf i _ (bc_held s)) with (bc_held s1).
  rewrite (bind_ok _ _ _ _ _ (bc_release s1 (co_lock _ _ Hok))).
  rewrite (bind_ok _ _ _ _ _ (acquiresleep_spec (buf_lock_l i) (ChBuf i) s1 Hwait
    ltac:(simpl; rewrite Hb1; by apply Hok) ltac:(simpl; by rewrite Hb1))).
  unfold mret, M_ret. f_equal. simpl. unfold s1. rewrite upd_buf_upd.
  unfold upd_buf. do 3 f_equal. rewrite u32_small by lia. done.
Qed.

Lemma bget_miss s l n : cache_ok s l → cached s n = None → unused s ≠ [] →
  ∃ i, i ∈ unused s ∧ bget dev n s = Ok i (upd_buf i (λ x, set_b_lock (Sleeplock 1 false (mypid s))
    (set_b_refcnt 1 (set_b_valid 0 (set_b_blockno n (set_b_dev dev x))))) s).
Proof.
  intros Hok Hc Hu. unfold bget.
  rewrite (bind_ok _ _ _ _ _ (bc_acquire s (co_lock _ _ Hok))). erewrite bind_ok by reflexivity.
  pose proof (cached_run (S (Z.to_nat NBUF)) HEAD l (bc_held s) n (co_ring _ _ Hok) (ring_head s l Hok)) as Hr.
  rewrite (ring_len s l Hok) in Hr. specialize (Hr ltac:(lia)).
  pose proof (find_cached s l n Hok) as Hf. rewrite Hc in Hf. apply fmap_None in Hf.
  change (list_find (is_block (bc_held s) n) l) with (list_find (is_block s n) l) in Hr. rewrite Hf in Hr.
  rewrite (bind_ok _ _ _ _ _ Hr). clear Hr Hf. erewrite bind_ok by reflexivity.
  pose proof (recycle_run (S (Z.to_nat NBUF)) l HEAD (bc_held s) n (co_ring _ _ Hok) (ring_head s l Hok)) as Hr.
  rewrite (ring_len s l Hok) in Hr. specialize (Hr ltac:(lia)).
  destruct (list_find _ (reverse l)) as [[k i]|] eqn:E in Hr.
  2:{ exfalso. apply Hu. apply list_find_None in E. rewrite Forall_forall in E.
      destruct (unused s) as [|j u] eqn:Eu; [done|]. assert (j ∈ unused s) as [Hj Hj0]%in_unused by (rewrite Eu; left).
      exfalso. apply (E j); [|done]. by apply elem_of_reverse, (ring_in s l). }
  apply list_find_Some in E as (Hk%list_elem_of_lookup_2 & Hz & _).
  apply elem_of_reverse, (ring_in s l i Hok) in Hk.
  exists i. split; [by apply in_unused|]. rewrite (bind_ok _ _ _ _ _ Hr). clear Hr.
  set (s1 := upd_buf i (λ x, set_b_refcnt 1 (set_b_valid 0 (set_b_blockno n (set_b_dev dev x)))) s).
  assert (b_lock (buf_at i s1) = b_lock (buf_at i s)) as Hb1 by (unfold s1; by rewrite buf_at_upd_eq).
  change (upd_buf i _ (bc_held s)) with (bc_held s1).
  rewrite (bind_ok _ _ _ _ _ (bc_release s1 (co_lock _ _ Hok))).
  change (b_refcnt (buf_at i s) = 0) in Hz.
  rewrite (bind_ok _ _ _ _ _ (acquiresleep_spec (buf_lock_l i) (ChBuf i) s1 Hwait
    ltac:(simpl; rewrite Hb1; by apply Hok)
    ltac:(simpl; rewrite Hb1; destruct (decide (sl_locked (b_lock (buf_at i s)) = 0)); [done|];
          pose proof (co_held _ _ Hok i Hk ltac:(done)); lia))).
  unfold mret, M_ret. f_equal. simpl. unfold s1. by rewrite upd_buf_upd.
Qed.

Lemma disk_read b s : virtio_disk_rw b false s =
  Ok tt (upd_buf b (set_b_data (d_block (s_disk s) (b_blockno (buf_at b s)))) s).
Proof. done. Qed.

(** bread, for a block whose buffer is not held and with a buffer to spare. *)
Lemma bread_spec s l n :
  cache_ok s l → owner s n = None → 0 < ref s n ∨ 0 < free s → ref s n < 2 ^ 30 →
  ∃ i x, bread dev n s = Ok i (upd_buf i (λ _, x) s) ∧ assigns s i n x ∧ b_valid x ≠ 0 ∧ b_data x = blk s n ∧
    b_refcnt x = ref s n + 1 ∧ b_lock x = Sleeplock 1 false (mypid s) ∧ zero (b_refcnt (buf_at i s)) = zero (ref s n).
Proof.
  intros Hok Ho Hroom Hsm. unfold bread. unfold owner in Ho. unfold ref, blk in *.
  destruct (cached s n) as [i|] eqn:Ec.
  - pose proof (cached_holds _ _ _ Ec) as (Hi & Hd & Hb). pose proof (co_ref _ _ Hok i Hi).
    rewrite (bind_ok _ _ _ _ _ (bget_hit s l n i Hok Ec ltac:(destruct (_ =? 0) eqn:?; [lia|done]))).
    set (g := λ x, set_b_lock (Sleeplock 1 false (mypid s)) (set_b_refcnt (b_refcnt x + 1) x)).
    assert (∀ x, b_next x = b_next (buf_at i s) → b_prev x = b_prev (buf_at i s) → b_dev x = dev → b_blockno x = n →
      b_refcnt x = b_refcnt (buf_at i s) + 1 → b_lock x = Sleeplock 1 false (mypid s) → assigns s i n x) as Has.
    { intros x H1 H2 H3 H4 H5 H6. constructor; try done.
      - intros j Hj. by apply (co_uniq _ _ Hok j i n).
      - intros m (_ & _ & Hm). congruence.
      - constructor; rewrite ?H6; try done; lia. }
    erewrite bind_ok by reflexivity. rewrite buf_at_upd_eq. change (b_valid (g (buf_at i s))) with (b_valid (buf_at i s)).
    destruct (b_valid (buf_at i s) =? 0) eqn:Ev.
    + set (x := set_b_valid 1 (set_b_data (d_block (s_disk s) n) (g (buf_at i s)))).
      exists i, x. split_and!; try done; [|by apply Has].
      cbv iota. rewrite (bind_ok _ _ _ _ _ (disk_read _ _)). erewrite bind_ok by reflexivity. unfold mret, M_ret. f_equal.
      rewrite buf_at_upd_eq.
      rewrite !upd_buf_upd. unfold upd_buf, x. do 4 f_equal. simpl. by rewrite Hb.
    + exists i, (g (buf_at i s)). split_and!; try done; [by apply Has|]. simpl. lia.
  - destruct Hroom as [?|Hf]; [lia|]. assert (unused s ≠ []) as Hu by (intros E; unfold free in Hf; by rewrite E in Hf).
    destruct (bget_miss s l n Hok Ec Hu) as (i & [Hi Hz]%in_unused & Hr). rewrite (bind_ok _ _ _ _ _ Hr). clear Hr.
    erewrite bind_ok by reflexivity. rewrite buf_at_upd_eq.
    match goal with |- context [b_valid ?y =? 0] => change (b_valid y) with 0; set (x := y) end. cbn [Z.eqb].
    exists i, (set_b_valid 1 (set_b_data (d_block (s_disk s) n) x)). split_and!.
    + rewrite (bind_ok _ _ _ _ _ (disk_read _ _)). erewrite bind_ok by reflexivity. rewrite buf_at_upd_eq.
      unfold mret, M_ret. by rewrite !upd_buf_upd.
    + constructor; try done.
      * intros j Hj. by apply (cached_None s l n Hok Ec) in Hj.
    + done.
    + done.
    + done.
    + done.
    + by rewrite Hz.
Qed.
End view.

(** *** Moving a buffer to the front *)

(** A buffer without its links. *)
Definition core (x : buf) : buf := set_b_next 0 (set_b_prev 0 x).

Lemma core_fields x y : core x = core y → b_valid x = b_valid y ∧ b_dev x = b_dev y ∧ b_blockno x = b_blockno y ∧
  b_lock x = b_lock y ∧ b_refcnt x = b_refcnt y ∧ b_data x = b_data y.
Proof. destruct x, y. unfold core, set_b_next, set_b_prev. simpl. by intros [= -> -> -> -> -> ->]. Qed.

(** The same buffers with other links. *)
Record relinked (s s' : kst) : Prop := {
  rl_core j : core (buf_at j s') = core (buf_at j s);
  rl_rest : s' = set_s_bcache (s_bcache s') s;
  rl_lock : bc_lock (s_bcache s') = bc_lock (s_bcache s);
  rl_in j : is_Some (bc_buf (s_bcache s) !! j) → is_Some (bc_buf (s_bcache s') !! j);
}.

Lemma relinked_holds s s' i n : relinked s s' → holds s' i n ↔ holds s i n.
Proof. intros Hr. unfold holds. destruct (core_fields _ _ (rl_core _ _ Hr i)) as (_ & -> & -> & _). done. Qed.

Lemma relinked_view s s' : relinked s s' →
  (∀ n, cached s' n = cached s n ∧ blk s' n = blk s n ∧ ref s' n = ref s n ∧ owner s' n = owner s n) ∧ free s' = free s.
Proof.
  intros Hr. assert (s_disk s' = s_disk s) as Hd by (rewrite (rl_rest _ _ Hr); done).
  assert (∀ n, cached s' n = cached s n) as Hc.
  { intros n. unfold cached. f_equal. apply list_find_ext. intros j.
    destruct (core_fields _ _ (rl_core _ _ Hr j)) as (_ & -> & -> & _). done. }
  split.
  - intros n. unfold blk, ref, owner. rewrite Hc, Hd. destruct (cached s n) as [i|]; [|done].
    destruct (core_fields _ _ (rl_core _ _ Hr i)) as (-> & _ & _ & -> & -> & ->). done.
  - unfold free, unused. do 2 f_equal. apply list_filter_iff. intros j.
    destruct (core_fields _ _ (rl_core _ _ Hr j)) as (_ & _ & _ & _ & -> & _). done.
Qed.

Lemma relinked_ok s s' l l' : cache_ok s l → relinked s s' → chain (nxt s') (prv s') HEAD l' HEAD → l' ≡ₚ l →
  cache_ok s' l'.
Proof.
  intros Hok Hr Hc Hp. assert (s_disk s' = s_disk s) as Hd by (rewrite (rl_rest _ _ Hr); done).
  pose proof (λ j, core_fields _ _ (rl_core _ _ Hr j)) as Hcf. constructor; try done.
  - rewrite Hp. apply Hok.
  - rewrite (rl_lock _ _ Hr). apply Hok.
  - intros j Hj. by apply Hr, Hok.
  - intros j Hj. destruct (Hcf j) as (_ & _ & _ & -> & _). by apply Hok.
  - intros j Hj. destruct (Hcf j) as (_ & _ & _ & _ & -> & _). by apply Hok.
  - intros j Hj. destruct (Hcf j) as (_ & _ & _ & -> & -> & _). by apply Hok.
  - intros j k m. rewrite (relinked_holds s s' j m Hr), (relinked_holds s s' k m Hr). by apply (co_uniq _ _ Hok j k m).
  - intros j m. rewrite relinked_holds, Hd by done. destruct (Hcf j) as (-> & _ & _ & _ & -> & ->). apply Hok.
Qed.

Lemma upd_next_links i v s :
  (∀ j, nxt (upd_buf i (set_b_next v) s) j = fupd i v (nxt s) j) ∧ (∀ j, prv (upd_buf i (set_b_next v) s) j = prv s j) ∧
  relinked s (upd_buf i (set_b_next v) s).
Proof.
  split_and!; [intros j; unfold nxt, prv, fupd; rewrite buf_at_upd; destruct (Z.eqb_spec j i); case_decide; by subst..|].
  constructor; [intros j; rewrite buf_at_upd; by case_decide; subst|done|done|].
  intros j Hj. simpl. destruct (decide (j = i)) as [->|]; [by rewrite lookup_insert_eq|by rewrite lookup_insert_ne].
Qed.
Lemma upd_prev_links i v s :
  (∀ j, nxt (upd_buf i (set_b_prev v) s) j = nxt s j) ∧ (∀ j, prv (upd_buf i (set_b_prev v) s) j = fupd i v (prv s) j) ∧
  relinked s (upd_buf i (set_b_prev v) s).
Proof.
  split_and!; [intros j; unfold nxt, prv, fupd; rewrite buf_at_upd; destruct (Z.eqb_spec j i); case_decide; by subst..|].
  constructor; [intros j; rewrite buf_at_upd; by case_decide; subst|done|done|].
  intros j Hj. simpl. destruct (decide (j = i)) as [->|]; [by rewrite lookup_insert_eq|by rewrite lookup_insert_ne].
Qed.

Lemma relinked_trans s1 s2 s3 : relinked s1 s2 → relinked s2 s3 → relinked s1 s3.
Proof.
  intros [C1 R1 L1 I1] [C2 R2 L2 I2]. constructor.
  - intros j. by rewrite C2, C1.
  - rewrite R2, R1. done.
  - by rewrite L2, L1.
  - auto.
Qed.

Lemma unlink_spec i s l1 l2 :
  chain (nxt s) (prv s) HEAD (l1 ++ i :: l2) HEAD → NoDup (l1 ++ i :: l2) → HEAD ∉ l1 ++ i :: l2 →
  ∃ s', buf_unlink i s = Ok tt s' ∧ relinked s s' ∧ chain (nxt s') (prv s') HEAD (l1 ++ l2) HEAD.
Proof.
  intros Hc Hnd Hh. pose proof (chain_remove _ _ _ _ _ _ _ Hnd Hh Hh Hc) as Hrm.
  set (n := nxt s i) in *. set (p := prv s i) in *. set (s1 := upd_buf n (set_b_prev p) s).
  destruct (upd_prev_links n p s) as (Hn1 & Hp1 & Hr1). fold s1 in Hn1, Hp1, Hr1.
  assert (i ≠ n) as Hin.
  { apply chain_app in Hc as [_ Hc]. apply chain_first in Hc. unfold n. rewrite Hc.
    apply NoDup_app in Hnd as (_ & _ & [Hi _]%NoDup_cons). destruct l2; set_solver. }
  assert (prv s1 i = p) as Hpi by (rewrite Hp1; by apply fupd_ne).
  assert (nxt s1 i = n) as Hni by apply Hn1.
  destruct (upd_next_links p n s1) as (Hn2 & Hp2 & Hr2).
  exists (upd_buf p (set_b_next n) s1). split_and!.
  - unfold buf_unlink. erewrite bind_ok by reflexivity. erewrite bind_ok by reflexivity.
    erewrite bind_ok by reflexivity. unfold modify. do 2 f_equal; [exact Hpi|]. f_equal. exact Hni.
  - by eapply relinked_trans.
  - apply (chain_ext _ _ _ _ _ _ _) with (3 := Hrm); intros x _; [rewrite Hn2|rewrite Hp2, Hp1; done].
    unfold fupd. by rewrite Hn1.
Qed.

Lemma link_spec i s l :
  chain (nxt s) (prv s) HEAD l HEAD → NoDup l → HEAD ∉ l → i ∉ l → i ≠ HEAD →
  ∃ s', buf_link i s = Ok tt s' ∧ relinked s s' ∧ chain (nxt s') (prv s') HEAD (i :: l) HEAD.
Proof.
  intros Hc Hnd Hh Hi Hne. pose proof (chain_cons _ _ _ _ _ _ Hnd Hi Hh Hh Hne Hne Hc) as Hcc.
  set (n := nxt s HEAD) in *. set (s1 := upd_buf i (set_b_next n) s).
  destruct (upd_next_links i n s) as (Hn1 & Hp1 & Hr1). fold s1 in Hn1, Hp1, Hr1.
  set (s2 := upd_buf i (set_b_prev HEAD) s1).
  destruct (upd_prev_links i HEAD s1) as (Hn2 & Hp2 & Hr2). fold s2 in Hn2, Hp2, Hr2.
  assert (nxt s2 HEAD = n) as Hn by (rewrite Hn2, Hn1; by apply fupd_ne).
  set (s3 := upd_buf n (set_b_prev i) s2).
  destruct (upd_prev_links n i s2) as (Hn3 & Hp3 & Hr3). fold s3 in Hn3, Hp3, Hr3.
  destruct (upd_next_links HEAD i s3) as (Hn4 & Hp4 & Hr4).
  exists (upd_buf HEAD (set_b_next i) s3). split_and!.
  - unfold buf_link. do 4 (erewrite bind_ok by reflexivity).
    change (b_next (buf_at HEAD s)) with n. fold s1 s2. change (b_next (buf_at HEAD s2)) with (nxt s2 HEAD). by rewrite Hn.
  - eauto using relinked_trans.
  - apply (chain_ext _ _ _ _ _ _ _) with (3 := Hcc); intros x _.
    + rewrite Hn4. unfold fupd. rewrite Hn3, Hn2, Hn1. done.
    + rewrite Hp4, Hp3. unfold fupd. rewrite Hp2. unfold fupd. by rewrite Hp1.
Qed.

(** *** brelse, bwrite, bpin and bunpin *)

Lemma cache_ok_kern k s l : cache_ok s l → cache_ok (set_s_kern k s) l.
Proof. intros []. by constructor. Qed.

Lemma cache_ok_log f s l : cache_ok s l → cache_ok (upd_log f s) l.
Proof. intros []. by constructor. Qed.

Lemma upd_buf_same i f s : is_Some (bc_buf (s_bcache s) !! i) → f (buf_at i s) = buf_at i s → upd_buf i f s = s.
Proof.
  intros [x Hx] Hf. unfold upd_buf. rewrite Hf. unfold buf_at. rewrite Hx. simpl. rewrite insert_id by done.
  by destruct s as [? ? ? ? []].
Qed.

Lemma bholding_spec s l i : cache_ok s l → 0 ≤ i < NBUF → b_lock (buf_at i s) = Sleeplock 1 false (mypid s) →
  holdingsleep (buf_lock_l i) s = Ok true s.
Proof.
  intros Hok Hi Hl. rewrite (holdingsleep_spec (buf_lock_l i)); simpl; rewrite Hl; [|done]. simpl.
  rewrite Z.eqb_refl. f_equal. apply upd_buf_same; [apply Hok; lia|]. rewrite <- Hl. by destruct (buf_at i s).
Qed.

Lemma filter_id {A} (P : A → Prop) `{∀ x, Decision (P x)} (l : list A) : (∀ x, x ∈ l → P x) → filter P l = l.
Proof.
  intros HP. induction l as [|x l IH]; [done|]. rewrite filter_cons, decide_True by (apply HP; left).
  f_equal. apply IH. intros y Hy. apply HP. by right.
Qed.

(** Both steps of moving a buffer, which always return. *)
Definition moved (i : Z) (s : kst) : kst :=
  match (buf_unlink i;; buf_link i) s with Ok _ s' => s' | _ => s end.

Lemma move_run i s : (buf_unlink i;; buf_link i) s = Ok tt (moved i s).
Proof. done. Qed.

Lemma move_front s l i : cache_ok s l → 0 ≤ i < NBUF →
  relinked s (moved i s) ∧ cache_ok (moved i s) (i :: filter (λ j, j ≠ i) l).
Proof.
  intros Hok Hi. pose proof (ring_head s l Hok) as Hh. apply (ring_in s l i Hok) in Hi as Hin.
  assert (NoDup l) as Hnd by (rewrite (co_perm _ _ Hok); apply NoDup_seqZ).
  apply list_elem_of_split in Hin as (l1 & l2 & ->).
  destruct (unlink_spec i s l1 l2 (co_ring _ _ Hok) Hnd Hh) as (s1 & H1 & R1 & C1).
  assert (NoDup (l1 ++ l2) ∧ i ∉ l1 ++ l2) as [Hnd' Hi'].
  { rewrite <- Permutation_middle in Hnd. by apply NoDup_cons in Hnd as [? ?]. }
  destruct (link_spec i s1 (l1 ++ l2) C1 Hnd') as (s2 & H2 & R2 & C2); [set_solver|done|unfold HEAD; lia|].
  replace (moved i s) with s2 by (unfold moved; by rewrite (bind_ok _ _ _ _ _ H1), H2).
  split; [by eapply relinked_trans|].
  replace (filter (λ j, j ≠ i) (l1 ++ i :: l2)) with (l1 ++ l2).
  - eapply relinked_ok; [done|by eapply relinked_trans|done|]. by rewrite Permutation_middle.
  - rewrite filter_app, filter_cons, decide_False by (intros H; by apply H).
    rewrite !filter_id; [done|..]; intros x Hx ->; set_solver.
Qed.

(** One fewer user of the buffer of block [n]; [unheld] also gives up its lock. *)
Record released (s : kst) (l : list Z) (i n : Z) (unheld : bool) (s' : kst) (l' : list Z) : Prop := {
  re_ok : cache_ok s' l';
  re_kern : kframe (s_kern s) (s_kern s');
  re_rest : s' = set_s_kern (s_kern s') (set_s_bcache (s_bcache s') s);
  re_blk m : blk s' m = blk s m;
  re_ref m : ref s' m = if decide (m = n) then ref s n - 1 else ref s m;
  re_owner m : owner s' m = if decide (m = n) then (if unheld then None else owner s n) else owner s m;
  re_free : free s' = free s + zero (ref s n - 1);
  re_other j : j ≠ i → core (buf_at j s') = core (buf_at j s);
}.

Lemma holds_ref s l i n : cache_ok s l → holds s i n → ref s n = b_refcnt (buf_at i s).
Proof. intros Hok Hh. unfold ref. by rewrite (holds_cached s l n i Hok Hh). Qed.
Lemma holds_blk s l i n : cache_ok s l → holds s i n → b_valid (buf_at i s) ≠ 0 → blk s n = b_data (buf_at i s).
Proof.
  intros Hok Hh Hv. unfold blk. rewrite (holds_cached s l n i Hok Hh). by replace (_ =? 0) with false by lia.
Qed.

Lemma released_relinked s l i n u s1 l1 s2 l2 :
  released s l i n u s1 l1 → relinked s1 s2 → cache_ok s2 l2 → released s l i n u s2 l2.
Proof.
  intros [Hok Hk Hr Hb Hf Ho Hfr Hc] R Hok2. destruct (relinked_view s1 s2 R) as [Hv Hvf].
  assert (s_kern s2 = s_kern s1) as Ek by (rewrite (rl_rest _ _ R); done).
  constructor; try done.
  - by rewrite Ek.
  - rewrite Ek, (rl_rest _ _ R). rewrite Hr at 1. done.
  - intros m. destruct (Hv m) as (_ & -> & _). done.
  - intros m. destruct (Hv m) as (_ & _ & -> & _). done.
  - intros m. destruct (Hv m) as (_ & _ & _ & ->). done.
  - by rewrite Hvf.
  - intros j Hj. rewrite (rl_core _ _ R). by apply Hc.
Qed.

(** The new buffer of brelse and bunpin. *)
Definition dropped (k : sleeplock) (x : buf) : buf := set_b_refcnt (b_refcnt x - 1) (set_b_lock k x).

Lemma dropped_assigns s l i n k : cache_ok s l → holds s i n → 0 < b_refcnt (buf_at i s) →
  sl_lk k = false → (sl_locked k ≠ 0 → 1 < b_refcnt (buf_at i s)) →
  (b_refcnt (buf_at i s) = 1 → b_valid (buf_at i s) ≠ 0 → b_data (buf_at i s) = d_block (s_disk s) n) →
  assigns s i n (dropped k (buf_at i s)).
Proof.
  intros Hok Hh Hr Hk Hl Hc. pose proof Hh as (Hi & Hd & Hb). pose proof (co_ref _ _ Hok i Hi). constructor; try done.
  - intros j Hj. by apply (co_uniq _ _ Hok j i n).
  - intros m (_ & _ & Hm). congruence.
  - constructor; simpl; try done; try lia. intros _ ? ?. rewrite Hb. apply Hc; [lia|done].
Qed.

Lemma brelse_spec s l i n :
  cache_ok s l → table_ok (s_kern s) → holds s i n → b_lock (buf_at i s) = Sleeplock 1 false (mypid s) →
  b_valid (buf_at i s) ≠ 0 → (ref s n = 1 → blk s n = d_block (s_disk s) n) →
  ∃ s' l', brelse i s = Ok tt s' ∧ released s l i n true s' l' ∧
    l' = if ref s n =? 1 then i :: filter (λ j, j ≠ i) l else l.
Proof.
  intros Hok Hkt Hh Hl Hv Hclean. pose proof Hh as (Hi & Hd & Hb). pose proof (co_ref _ _ Hok i Hi) as Href.
  pose proof (co_held _ _ Hok i Hi ltac:(by rewrite Hl)) as Hpos.
  rewrite (holds_ref s l i n Hok Hh), (holds_blk s l i n Hok Hh Hv) in Hclean.
  unfold brelse. rewrite (bind_ok _ _ _ _ _ (bholding_spec s l i Hok Hi Hl)). cbn [negb].
  destruct (releasesleep_spec (buf_lock_l i) (ChBuf i) s Hkt ltac:(simpl; by rewrite Hl)) as (k' & Hkf & Hrs).
  rewrite (bind_ok _ _ _ _ _ Hrs). clear Hrs. set (x := dropped (Sleeplock 0 false 0) (buf_at i s)).
  assert (assigns s i n x) as Ha by (apply (dropped_assigns s l); try done; intros; by apply Hclean).
  pose proof (assign_ok s l i n x Hok Ha) as Hok1. pose proof (assign_view s l i n x Hok Ha) as Hview. cbv zeta in Hview.
  set (s1 := upd_buf i (λ _, x) s) in *. set (s2 := set_s_kern k' s1).
  assert (cache_ok s2 l) as Hok2 by (by apply cache_ok_kern).
  change (lset kv k' _) with (set_s_kern k' (upd_buf i (set_b_lock (Sleeplock 0 false 0)) s)).
  rewrite (bind_ok _ _ _ _ _ (bc_acquire (set_s_kern k' (upd_buf i (set_b_lock (Sleeplock 0 false 0)) s)) (co_lock _ _ Hok))).
  erewrite bind_ok by reflexivity.
  change (upd_buf i ?g (bc_held (set_s_kern k' ?t))) with (bc_held (set_s_kern k' (upd_buf i g t))).
  rewrite upd_buf_upd.
  replace (upd_buf i (λ b, set_b_refcnt (u32 (b_refcnt (set_b_lock (Sleeplock 0 false 0) b) - 1))
    (set_b_lock (Sleeplock 0 false 0) b)) s) with s1
    by (unfold s1, upd_buf, x, dropped; simpl; by rewrite (u32_small (b_refcnt (buf_at i s) - 1)) by lia).
  fold s2. erewrite bind_ok by reflexivity.
  assert (buf_at i (bc_held s2) = x) as -> by exact (buf_at_upd_eq i (λ _, x) s).
  destruct Hview as (Hv1 & Hv2 & Hv3 & Hv4 & Hv5).
  rewrite (holds_ref s l i n Hok Hh).
  assert (released s l i n true s2 l) as Hrel.
  { constructor; try done.
    - intros m. destruct (decide (m = n)) as [->|Hm]; [|by apply Hv4]. change (blk s2 n) with (blk s1 n). rewrite Hv1.
      rewrite (holds_blk s l i n Hok Hh Hv). simpl. by replace (_ =? 0) with false by lia.
    - intros m. case_decide as Em; [subst m|by apply Hv4]. rewrite (holds_ref s l i n Hok Hh). exact Hv2.
    - intros m. case_decide as Em; [subst m; exact Hv3|by apply Hv4].
    - rewrite (holds_ref s l i n Hok Hh). change (free s2) with (free s1). rewrite Hv5. unfold zero at 2.
      replace (_ =? 0) with false by lia. change (b_refcnt x) with (b_refcnt (buf_at i s) - 1). lia.
    - intros j Hj. change (buf_at j s2) with (buf_at j s1). unfold s1. by rewrite buf_at_upd_ne. }
  change (b_refcnt x) with (b_refcnt (buf_at i s) - 1).
  destruct (decide (b_refcnt (buf_at i s) = 1)) as [E1|E1].
  - replace (b_refcnt (buf_at i s) - 1 =? 0) with true by lia. replace (b_refcnt (buf_at i s) =? 1) with true by lia.
    destruct (move_front s2 l i Hok2 Hi) as [R3 Hok3]. rewrite (bind_ok _ _ _ _ _ (move_run i (bc_held s2))).
    change (moved i (bc_held s2)) with (bc_held (moved i s2)).
    rewrite (bc_release _ (co_lock _ _ Hok3)). exists (moved i s2), (i :: filter (λ j, j ≠ i) l).
    split_and!; [done| |done]. by apply (released_relinked s l i n true s2 l).
  - replace (b_refcnt (buf_at i s) - 1 =? 0) with false by lia. replace (b_refcnt (buf_at i s) =? 1) with false by lia.
    erewrite bind_ok by reflexivity. rewrite (bc_release _ (co_lock _ _ Hok2)). by exists s2, l.
Qed.

(** Everything but the process layer, the cache and the disk. *)
Definition rest (s : kst) :=
  (s_log s, s_sb s, s_itable s, s_ftable s, s_pipes s, s_nodes s, s_rtpipes s, s_shm s, s_cons s, s_uart s, s_pr s, s_devsw s).

(** *** The operations as their clients use them

    [grabbed s i n]: the running process has buffer [i], with block [n], from bread. *)
Record grabbed (s : kst) (i n : Z) : Prop := {
  gr_holds : holds s i n;
  gr_valid : b_valid (buf_at i s) ≠ 0;
  gr_lock : b_lock (buf_at i s) = Sleeplock 1 false (mypid s);
}.

(** What bread does. *)
Record took (s : kst) (l : list Z) (i n : Z) (s' : kst) : Prop := {
  tk_ok : cache_ok s' l;
  tk_grab : grabbed s' i n;
  tk_rest : s' = set_s_bcache (s_bcache s') s;
  tk_blk m : blk s' m = blk s m;
  tk_ref m : ref s' m = if decide (m = n) then ref s n + 1 else ref s m;
  tk_owner m : owner s' m = if decide (m = n) then Some (mypid s) else owner s m;
  tk_free : free s' = free s - zero (ref s n);
  tk_other j m : grabbed s j m → m ≠ n → grabbed s' j m;
}.

(** An assignment to the data of a grabbed buffer. *)
Record edited (s : kst) (l : list Z) (i n : Z) (d : list Z) (s' : kst) : Prop := {
  ed_ok : cache_ok s' l;
  ed_rest : s' = set_s_bcache (s_bcache s') s;
  ed_blk m : blk s' m = if decide (m = n) then d else blk s m;
  ed_ref m : ref s' m = ref s m;
  ed_owner m : owner s' m = owner s m;
  ed_free : free s' = free s;
  ed_grab j m : grabbed s j m → grabbed s' j m;
}.

(** What bwrite does. *)
Record wrote (s : kst) (l : list Z) (i n : Z) (s' : kst) : Prop := {
  wr_ok : cache_ok s' l;
  wr_rest : s' = set_s_disk (s_disk s') s;
  wr_disk m : d_block (s_disk s') m = if decide (m = n) then blk s n else d_block (s_disk s) m;
  wr_trace : d_trace (s_disk s') = d_trace (s_disk s) ++ [(n, blk s n)];
  wr_blk m : blk s' m = blk s m;
  wr_ref m : ref s' m = ref s m;
  wr_owner m : owner s' m = owner s m;
  wr_free : free s' = free s;
  wr_grab j m : grabbed s j m → grabbed s' j m;
}.

Lemma grabbed_ref s l i n : cache_ok s l → grabbed s i n → 0 < ref s n ∧ owner s n = Some (mypid s).
Proof.
  intros Hok [Hh Hv Hl]. pose proof Hh as (Hi & _). rewrite (holds_ref s l i n Hok Hh). split.
  - apply (co_held _ _ Hok i Hi). by rewrite Hl.
  - unfold owner. by rewrite (holds_cached s l n i Hok Hh), Hl.
Qed.

Lemma grabbed_ne s i j n m : grabbed s i n → grabbed s j m → n ≠ m → i ≠ j.
Proof. intros [(_ & _ & H1) _ _] [(_ & _ & H2) _ _] Hne ->. congruence. Qed.

Section steps.
Context `{!KernelView kst} `{!WaitBound}.
Hypothesis Hwait : (0 < wait_bound)%nat.

Lemma bread_took s l n :
  cache_ok s l → owner s n = None → 0 < ref s n ∨ 0 < free s → ref s n < 2 ^ 30 →
  ∃ i s', bread dev n s = Ok i s' ∧ took s l i n s'.
Proof.
  intros Hok Ho Hroom Hsm.
  destruct (bread_spec Hwait s l n Hok Ho Hroom Hsm) as (i & x & Hr & Ha & Hv & Hd & Hrf & Hl & Hz).
  exists i, (upd_buf i (λ _, x) s). split; [done|].
  destruct (assign_view s l i n x Hok Ha) as (V1 & V2 & V3 & V4 & V5). cbv zeta in *.
  pose proof (buf_at_upd_eq i (λ _, x) s) as Hb. constructor; try done.
  - by apply (assign_ok s l i n x).
  - constructor; rewrite ?Hb; try done. apply (assign_holds s i n x i n Ha). by left.
  - intros m. destruct (decide (m = n)) as [->|Hm]; [|by apply V4]. rewrite V1, Hd. by replace (_ =? 0) with false by lia.
  - intros m. case_decide as E; [subst m; congruence|by apply V4].
  - intros m. case_decide as E; [subst m|by apply V4]. rewrite V3, Hl. done.
  - rewrite V5, Hz. unfold zero at 1. pose proof (bo_held _ _ (as_ok _ _ _ _ Ha)) as Hp. rewrite Hl in Hp. simpl in Hp.
    replace (b_refcnt x =? 0) with false by (symmetry; apply Z.eqb_neq; specialize (Hp ltac:(done)); lia). lia.
  - intros j m Hg Hm. pose proof Hg as [Hh Hgv Hgl]. assert (j ≠ i) as Hne.
    { intros ->. pose proof (as_evict _ _ _ _ Ha m Hh Hm) as H0. pose proof Hh as (Hi & _).
      pose proof (co_held _ _ Hok i Hi) as Hp. rewrite Hgl in Hp. specialize (Hp ltac:(done)). lia. }
    constructor; rewrite ?buf_at_upd_ne by done; try done. apply (assign_holds s i n x j m Ha). by right.
Qed.
End steps.

Lemma edit_spec s l i n d : cache_ok s l → grabbed s i n → edited s l i n d (upd_buf i (set_b_data d) s).
Proof.
  intros Hok Hg. pose proof Hg as [Hh Hv Hl]. pose proof Hh as (Hi & Hdv & Hbn).
  destruct (grabbed_ref s l i n Hok Hg) as [Hrf _]. rewrite (holds_ref s l i n Hok Hh) in Hrf.
  set (x := set_b_data d (buf_at i s)).
  assert (assigns s i n x) as Ha.
  { constructor; try done.
    - intros j Hj. by apply (co_uniq _ _ Hok j i n).
    - intros m (_ & _ & Hm). congruence.
    - constructor; simpl; [by apply Hok..| |]; [lia|intros ? H0; simpl in H0; lia]. }
  destruct (assign_view s l i n x Hok Ha) as (V1 & V2 & V3 & V4 & V5). cbv zeta in *.
  change (upd_buf i (set_b_data d) s) with (upd_buf i (λ _, x) s).
  constructor; try done.
  - by apply (assign_ok s l i n x).
  - intros m. case_decide as E; [subst m|by apply V4]. rewrite V1. simpl. by replace (_ =? 0) with false by lia.
  - intros m. destruct (decide (m = n)) as [->|]; [|by apply V4]. rewrite V2. by rewrite (holds_ref s l i n Hok Hh).
  - intros m. destruct (decide (m = n)) as [->|]; [|by apply V4]. rewrite V3. unfold owner.
    by rewrite (holds_cached s l n i Hok Hh).
  - rewrite V5. change (b_refcnt x) with (b_refcnt (buf_at i s)). lia.
  - intros j m [Gh Gv Gl]. destruct (decide (j = i)) as [->|Hne].
    + assert (m = n) as -> by (destruct Gh as (_ & _ & ?); congruence).
      constructor; rewrite ?buf_at_upd_eq; try done. apply (assign_holds s i n x i n Ha). by left.
    + constructor; rewrite ?buf_at_upd_ne by done; try done. apply (assign_holds s i n x j m Ha). by right.
Qed.

Lemma bwrite_spec s l i n : cache_ok s l → grabbed s i n → ∃ s', bwrite i s = Ok tt s' ∧ wrote s l i n s'.
Proof.
  intros Hok Hg. pose proof Hg as [Hh Hv Hl]. pose proof Hh as (Hi & Hdv & Hbn).
  destruct (grabbed_ref s l i n Hok Hg) as [Hrf _]. pose proof (holds_ref s l i n Hok Hh) as Er.
  pose proof (holds_blk s l i n Hok Hh Hv) as Hblk.
  eexists. split; [unfold bwrite; by rewrite (bind_ok _ _ _ _ _ (bholding_spec s l i Hok Hi Hl))|].
  rewrite Hbn, <- Hblk. set (s' := set_s_disk _ s).
  assert (∀ m, d_block (s_disk s') m = if decide (m = n) then blk s n else d_block (s_disk s) m) as Hd.
  { intros m. simpl. case_decide; [subst; by rewrite Z.eqb_refl|]. by replace (m =? n) with false by lia. }
  constructor; try done.
  - destruct Hok as [H1 H2 H3 H4 H5 H6 H7 H8 H9]. constructor; try done.
    intros j m Hj Hz Hvj. rewrite Hd. case_decide as E; [subst m|by apply H9].
    assert (j = i) as -> by (by apply (H8 j i n)). change (b_refcnt (buf_at i s) = 0) in Hz. lia.
  - intros m. unfold blk at 1 2. change (cached s' m) with (cached s m).
    destruct (cached s m) as [j|] eqn:Ej.
    + change (buf_at j s') with (buf_at j s). destruct (b_valid (buf_at j s) =? 0) eqn:Ev; [|done].
      rewrite Hd, decide_False; [done|]. intros ->. rewrite (holds_cached s l n i Hok Hh) in Ej. injection Ej as <-. lia.
    + rewrite Hd, decide_False; [done|]. intros ->. by rewrite (holds_cached s l n i Hok Hh) in Ej.
  - intros j m []. by constructor.
Qed.

Lemma brelse_grabbed s l i n :
  cache_ok s l → table_ok (s_kern s) → grabbed s i n → (ref s n = 1 → blk s n = d_block (s_disk s) n) →
  ∃ s' l', brelse i s = Ok tt s' ∧ released s l i n true s' l'.
Proof.
  intros Hok Ht [Hh Hv Hl] Hc. destruct (brelse_spec s l i n Hok Ht Hh Hl Hv Hc) as (s' & l' & Hr & Hrel & _).
  by exists s', l'.
Qed.

Lemma mypid_frame s s' : kframe (s_kern s) (s_kern s') → 0 ≤ k_me (s_kern s) < NPROC → mypid s' = mypid s.
Proof.
  intros Hf Hm. unfold mypid. destruct (kframe_fields _ _ Hf) as (_ & -> & _). by rewrite (kframe_me _ _ Hf Hm).
Qed.

Lemma released_grab s l i n u s' l' j m :
  released s l i n u s' l' → 0 ≤ k_me (s_kern s) < NPROC → j ≠ i → grabbed s j m → grabbed s' j m.
Proof.
  intros Hr Hme Hj [(H1 & H2 & H3) Hv Hl]. destruct (core_fields _ _ (re_other _ _ _ _ _ _ _ Hr j Hj)) as (E1 & E2 & E3 & E4 & _).
  constructor; [unfold holds; by rewrite E2, E3|by rewrite E1|]. by rewrite E4, (mypid_frame s s' (re_kern _ _ _ _ _ _ _ Hr) Hme).
Qed.

(** bunpin of a buffer that is also held, and bpin. *)
Lemma bunpin_spec s l i n : cache_ok s l → grabbed s i n → 1 < ref s n →
  ∃ s', bunpin i s = Ok tt s' ∧ released s l i n false s' l ∧ grabbed s' i n.
Proof.
  intros Hok Hg Hrf. pose proof Hg as [Hh Hv Hl]. pose proof Hh as (Hi & Hd & Hb). pose proof (co_ref _ _ Hok i Hi) as Hrr.
  rewrite (holds_ref s l i n Hok Hh) in Hrf. set (x := dropped (b_lock (buf_at i s)) (buf_at i s)).
  assert (assigns s i n x) as Ha by (apply (dropped_assigns s l); rewrite ?Hl; try done; lia).
  destruct (assign_view s l i n x Hok Ha) as (V1 & V2 & V3 & V4 & V5). cbv zeta in *.
  exists (upd_buf i (λ _, x) s). split_and!.
  - unfold bunpin. rewrite (bind_ok _ _ _ _ _ (bc_acquire s (co_lock _ _ Hok))). erewrite bind_ok by reflexivity.
    change (upd_buf i ?g (bc_held s)) with (bc_held (upd_buf i g s)). rewrite bc_release by apply Hok.
    f_equal. unfold upd_buf, x, dropped. rewrite u32_small by lia. by destruct (buf_at i s).
  - constructor; try done.
    + by apply (assign_ok s l i n x).
    + intros m. destruct (decide (m = n)) as [->|]; [|by apply V4]. rewrite V1, (holds_blk s l i n Hok Hh Hv). simpl.
      by replace (_ =? 0) with false by lia.
    + intros m. case_decide as E; [subst m|by apply V4]. by rewrite V2, (holds_ref s l i n Hok Hh).
    + intros m. case_decide as E; [subst m|by apply V4]. rewrite V3. unfold owner. by rewrite (holds_cached s l n i Hok Hh).
    + rewrite V5, (holds_ref s l i n Hok Hh). unfold zero at 2. replace (b_refcnt (buf_at i s) =? 0) with false by lia.
      change (b_refcnt x) with (b_refcnt (buf_at i s) - 1). lia.
    + intros j Hj. by rewrite buf_at_upd_ne.
  - constructor; rewrite ?buf_at_upd_eq; try done. apply (assign_holds s i n x i n Ha). by left.
Qed.

(** What bpin does to a buffer in hand. *)
Definition pinned_buf (x : buf) : buf := set_b_refcnt (u32 (b_refcnt x + 1)) x.
Record pinned (s : kst) (l : list Z) (n : Z) (s' : kst) : Prop := {
  pn_ok : cache_ok s' l;
  pn_blk m : blk s' m = blk s m;
  pn_ref m : ref s' m = if decide (m = n) then ref s n + 1 else ref s m;
  pn_owner m : owner s' m = owner s m;
  pn_free : free s' = free s;
  pn_grab j m : grabbed s j m → grabbed s' j m;
}.

Lemma bpin_run i s : bc_lock (s_bcache s) = false → bpin i s = Ok tt (upd_buf i pinned_buf s).
Proof.
  intros Hl. unfold bpin. rewrite (bind_ok _ _ _ _ _ (bc_acquire s Hl)). erewrite bind_ok by reflexivity.
  change (upd_buf i ?g (bc_held s)) with (bc_held (upd_buf i g s)). by rewrite bc_release.
Qed.

Lemma pinned_spec s l i n : cache_ok s l → grabbed s i n → ref s n < 2 ^ 30 → pinned s l n (upd_buf i pinned_buf s).
Proof.
  intros Hok Hg Hrf. pose proof Hg as [Hh Hv Hl]. pose proof Hh as (Hi & Hdv & Hbn). pose proof (co_ref _ _ Hok i Hi) as Hrr.
  destruct (grabbed_ref s l i n Hok Hg) as [Hr0 _]. rewrite (holds_ref s l i n Hok Hh) in Hrf, Hr0.
  set (x := pinned_buf (buf_at i s)).
  assert (b_refcnt x = b_refcnt (buf_at i s) + 1) as Ex by (simpl; apply u32_small; lia).
  assert (assigns s i n x) as Ha.
  { constructor; try done.
    - intros j Hj. by apply (co_uniq _ _ Hok j i n).
    - intros m (_ & _ & Hm). congruence.
    - constructor; rewrite ?Ex; [by apply Hok|lia|lia|]. intros _ ? ?. lia. }
  destruct (assign_view s l i n x Hok Ha) as (V1 & V2 & V3 & V4 & V5). cbv zeta in *.
  change (upd_buf i pinned_buf s) with (upd_buf i (λ _, x) s). constructor.
  - by apply (assign_ok s l i n x).
  - intros m. destruct (decide (m = n)) as [->|]; [|by apply V4]. rewrite V1, (holds_blk s l i n Hok Hh Hv). simpl.
    by replace (_ =? 0) with false by lia.
  - intros m. case_decide as E; [subst m|by apply V4]. by rewrite V2, Ex, (holds_ref s l i n Hok Hh).
  - intros m. destruct (decide (m = n)) as [->|]; [|by apply V4]. rewrite V3. unfold owner.
    by rewrite (holds_cached s l n i Hok Hh).
  - rewrite V5, Ex. unfold zero. repeat replace (_ =? 0) with false by lia. lia.
  - intros j m [Gh Gv Gl]. destruct (decide (j = i)) as [->|Hne].
    + assert (m = n) as -> by (destruct Gh as (_ & _ & ?); congruence).
      constructor; rewrite ?buf_at_upd_eq; try done. apply (assign_holds s i n x i n Ha). by left.
    + constructor; rewrite ?buf_at_upd_ne by done; try done. apply (assign_holds s i n x j m Ha). by right.
Qed.

(** A block that nobody uses has what the disk has. *)
Lemma unused_clean s l n : cache_ok s l → ref s n = 0 → blk s n = d_block (s_disk s) n.
Proof.
  intros Hok Hr. unfold blk, ref in *. destruct (cached s n) as [i|] eqn:E; [|done].
  destruct (_ =? 0) eqn:Ev; [done|]. apply (co_clean _ _ Hok i n); [by apply cached_holds|done|lia].
Qed.
End cache.

(** ** Deciding the invariant *)

#[export] Instance chain_dec nx pv a l z : Decision (chain nx pv a l z).
Proof. revert a. induction l as [|x l IH]; intros a; simpl; [apply _|]. pose proof (IH x). apply _. Defined.

(** The invariant of one buffer, and of two. *)
Definition buf_okb (dev : Z) (s : kst) (i : Z) : bool :=
  let x := buf_at i s in
  bool_decide (is_Some (bc_buf (s_bcache s) !! i)) && bool_decide (sl_lk (b_lock x) = false) &&
  bool_decide (0 ≤ b_refcnt x < 2 ^ 31) && bool_decide (sl_locked (b_lock x) ≠ 0 → 0 < b_refcnt x) &&
  bool_decide (b_dev x = dev → b_refcnt x = 0 → b_valid x ≠ 0 → b_data x = d_block (s_disk s) (b_blockno x)) &&
  forallb (λ j, bool_decide (b_dev x = dev → b_dev (buf_at j s) = dev → b_blockno x = b_blockno (buf_at j s) → i = j)) (seqZ 0 NBUF).
Definition cache_okb (dev : Z) (s : kst) (l : list Z) : bool :=
  bool_decide (chain (nxt s) (prv s) HEAD l HEAD) && bool_decide (l ≡ₚ seqZ 0 NBUF) && negb (bc_lock (s_bcache s)) &&
  bool_decide (is_Some (bc_buf (s_bcache s) !! HEAD)) && forallb (buf_okb dev s) (seqZ 0 NBUF).

Lemma buf_okb_sound dev s i : buf_okb dev s i = true →
  let x := buf_at i s in
  is_Some (bc_buf (s_bcache s) !! i) ∧ sl_lk (b_lock x) = false ∧ 0 ≤ b_refcnt x < 2 ^ 31 ∧
  (sl_locked (b_lock x) ≠ 0 → 0 < b_refcnt x) ∧
  (b_dev x = dev → b_refcnt x = 0 → b_valid x ≠ 0 → b_data x = d_block (s_disk s) (b_blockno x)) ∧
  (∀ j, 0 ≤ j < NBUF → b_dev x = dev → b_dev (buf_at j s) = dev → b_blockno x = b_blockno (buf_at j s) → i = j).
Proof.
  unfold buf_okb. rewrite !andb_true_iff, !bool_decide_eq_true, forallb_forall. intros [[[[[H1 H2] H3] H4] H5] H6].
  split_and!; try done; try lia. intros j Hj. assert (j ∈ seqZ 0 NBUF) as Hin by (apply elem_of_seqZ; lia).
  apply list_elem_of_In, H6 in Hin. by rewrite bool_decide_eq_true in Hin.
Qed.

Lemma cache_okb_sound dev s l : cache_okb dev s l = true → cache_ok dev s l.
Proof.
  unfold cache_okb. rewrite !andb_true_iff, !bool_decide_eq_true, negb_true_iff, forallb_forall.
  intros [[[[H1 H2] H3] H4] H5].
  assert (∀ i, 0 ≤ i < NBUF → buf_okb dev s i = true) as Hb.
  { intros i Hi. apply H5, list_elem_of_In, elem_of_seqZ. lia. }
  constructor; try done.
  - intros i Hi. destruct (decide (i = NBUF)) as [->|]; [done|]. apply buf_okb_sound with dev, Hb. lia.
  - intros i Hi. by apply (buf_okb_sound dev), Hb.
  - intros i Hi. by apply (buf_okb_sound dev), Hb.
  - intros i Hi. by apply (buf_okb_sound dev), Hb.
  - intros i j n (Hi & Hdi & Hni) (Hj & Hdj & Hnj). apply (buf_okb_sound dev s i); [by apply Hb|done..|congruence].
  - intros i n (Hi & Hdi & <-). by apply (buf_okb_sound dev s i (Hb i Hi)).
Qed.
