(* ===== verification/Log.v ===== *)
(** * The log: kernel/log.c

    Transactions of system calls, committed by writing the blocks to the log,
    then the header, then the blocks to their places, and replayed from the log
    when the machine starts.  The main theorems are about crashes: whatever
    prefix of the writes of a commit, or of a recovery, has reached the disk, what
    recovery makes of it is the state before or the state after the transaction. *)
From stdpp Require Import gmap.
From S2P Require Import Prelude Bytes Mem Spinlock Riscv Kalloc Vm Proc Kstate Sleeplock Bio.
Open Scope Z_scope.

Definition upd_lh (f : logheader → logheader) : kst → kst := upd_log (λ g, set_lg_lh (f (lg_lh g)) g).

(** log.lh.block[i], as the block number it is passed on as. *)
Definition lh_block_at (i : Z) (s : kst) : Z := u32 (nth (Z.to_nat i) (lh_block (lg_lh (s_log s))) 0).

(** The loops over log.lh.n blocks; there are at most LOGSIZE. *)
Definition log_fuel : nat := S (Z.to_nat LOGSIZE).

(** The header as it is laid out in a block: n, then the block numbers. *)
Definition head_turn (data : list Z) (i : Z) : M kst (Z + unit) :=
  n ← gets (λ s, lh_n (lg_lh (s_log s)));
  if i <? n then
    modify (upd_lh (λ h, set_lh_block (<[Z.to_nat i := s32 (get32 data (4 + 4 * i))]> (lh_block h)) h));;
    mret (inl (i + 1))
  else mret (inr tt).

Definition put_head_turn (buf i : Z) : M kst (Z + unit) :=
  h ← gets (λ s, lg_lh (s_log s));
  if i <? lh_n h then
    modify (upd_buf buf (λ x, set_b_data (put32 (b_data x) (4 + 4 * i) (nth (Z.to_nat i) (lh_block h) 0)) x));;
    mret (inl (i + 1))
  else mret (inr tt).

(** The loop of log_write: the first [i] with block[i] == b->blockno, or n. *)
Definition absorb_turn (blockno i : Z) : M kst (Z + Z) :=
  n ← gets (λ s, lh_n (lg_lh (s_log s)));
  if i <? n then
    k ← gets (lh_block_at i);
    mret (if k =? blockno then inr i else inl (i + 1))
  else mret (inr i).

Definition log_write (b : Z) : M kst unit :=
  lock_acquire log_lock;;
  g ← gets s_log;
  if (lh_n (lg_lh g) >=? LOGSIZE) || (lh_n (lg_lh g) >=? lg_size g - 1) then panic "too big a transaction" else
  if lg_outstanding g <? 1 then panic "log_write outside of trans" else
  x ← gets (buf_at b);
  i ← loop log_fuel (absorb_turn (b_blockno x)) 0;
  modify (upd_lh (λ h, set_lh_block (<[Z.to_nat i := s32 (b_blockno x)]> (lh_block h)) h));;
  n ← gets (λ s, lh_n (lg_lh (s_log s)));
  (if i =? n then
     bpin b;;
     modify (upd_lh (λ h, set_lh_n (lh_n h + 1) h))
   else mret tt);;
  lock_release log_lock.

Section view.
Context `{!KernelView kst} `{!WaitBound}.

Definition read_head : M kst unit :=
  g ← gets s_log;
  buf ← bread (lg_dev g) (u32 (lg_start g));
  x ← gets (buf_at buf);
  modify (upd_lh (set_lh_n (s32 (get32 (b_data x) 0))));;
  loop log_fuel (head_turn (b_data x)) 0;;
  brelse buf.

Definition write_head : M kst unit :=
  g ← gets s_log;
  buf ← bread (lg_dev g) (u32 (lg_start g));
  modify (upd_buf buf (λ x, set_b_data (put32 (b_data x) 0 (lh_n (lg_lh g))) x));;
  loop log_fuel (put_head_turn buf) 0;;
  bwrite buf;;
  brelse buf.

(** memmove(to->data, from->data, BSIZE) *)
Definition copy_data (to from : Z) : M kst unit :=
  x ← gets (buf_at from);
  modify (upd_buf to (set_b_data (b_data x))).

Definition install_turn (recovering : bool) (tail : Z) : M kst (Z + unit) :=
  g ← gets s_log;
  if tail <? lh_n (lg_lh g) then
    lbuf ← bread (lg_dev g) (u32 (lg_start g + tail + 1));
    k ← gets (lh_block_at tail);
    dbuf ← bread (lg_dev g) k;
    copy_data dbuf lbuf;;
    bwrite dbuf;;
    (if recovering then mret tt else bunpin dbuf);;
    brelse lbuf;;
    brelse dbuf;;
    mret (inl (tail + 1))
  else mret (inr tt).
Definition install_trans (recovering : bool) : M kst unit := loop log_fuel (install_turn recovering) 0.

Definition write_log_turn (tail : Z) : M kst (Z + unit) :=
  g ← gets s_log;
  if tail <? lh_n (lg_lh g) then
    to ← bread (lg_dev g) (u32 (lg_start g + tail + 1));
    k ← gets (lh_block_at tail);
    from ← bread (lg_dev g) k;
    copy_data to from;;
    bwrite to;;
    brelse from;;
    brelse to;;
    mret (inl (tail + 1))
  else mret (inr tt).
Definition write_log : M kst unit := loop log_fuel write_log_turn 0.

Definition recover_from_log : M kst unit :=
  read_head;;
  install_trans true;;
  modify (upd_lh (set_lh_n 0));;
  write_head.

Definition initlog (dev : Z) (sb : superblock) : M kst unit :=
  if 4 + 4 * LOGSIZE >=? BSIZE then panic "initlog: too big logheader" else
  modify (lset log_lock false);;
  modify (upd_log (λ g, set_lg_dev dev (set_lg_size (s32 (sb_nlog sb)) (set_lg_start (s32 (sb_logstart sb)) g))));;
  recover_from_log.

Definition commit : M kst unit :=
  n ← gets (λ s, lh_n (lg_lh (s_log s)));
  if n >? 0 then
    write_log;;
    write_head;;
    install_trans false;;
    modify (upd_lh (set_lh_n 0));;
    write_head
  else mret tt.

(** One turn of begin_op's loop. *)
Definition begin_turn (_ : unit) : M kst (unit + unit) :=
  g ← gets s_log;
  if ctrue (lg_committing g) then sleep ChLog log_lock;; mret (inl tt)
  else if lh_n (lg_lh g) + (lg_outstanding g + 1) * MAXOPBLOCKS >? LOGSIZE then
    sleep ChLog log_lock;; mret (inl tt)
  else
    modify (upd_log (λ g, set_lg_outstanding (lg_outstanding g + 1) g));;
    lock_release log_lock;;
    mret (inr tt).
Definition begin_op : M kst unit :=
  lock_acquire log_lock;;
  loop wait_bound begin_turn tt.

Definition end_op : M kst unit :=
  lock_acquire log_lock;;
  modify (upd_log (λ g, set_lg_outstanding (lg_outstanding g - 1) g));;
  g ← gets s_log;
  if ctrue (lg_committing g) then panic "log.committing" else
  (if lg_outstanding g =? 0 then
     modify (upd_log (set_lg_committing 1));; mret true
   else kcall (wakeup ChLog);; mret false) ≫= λ do_commit : bool,
  lock_release log_lock;;
  if do_commit then
    commit;;
    lock_acquire log_lock;;
    modify (upd_log (set_lg_committing 0));;
    kcall (wakeup ChLog);;
    lock_release log_lock
  else mret tt.
End view.

(** ** What a crash leaves *)

(** A disk after some writes. *)
Definition after (D : Z → list Z) (ws : list (Z * list Z)) : Z → list Z :=
  foldl (λ D w n, if n =? w.1 then w.2 else D n) D ws.

(** The header of the log of a disk, the writes it asks for, and the disk as
    recovery will make it. *)
Definition head_n (start : Z) (D : Z → list Z) : Z := s32 (get32 (D start) 0).
Definition head_block (start : Z) (D : Z → list Z) (i : Z) : Z := u32 (s32 (get32 (D start) (4 + 4 * i))).
Definition pending (start : Z) (D : Z → list Z) : list (Z * list Z) :=
  (λ i, (head_block start D i, D (start + i + 1))) <$> seqZ 0 (head_n start D).
Definition logical (start : Z) (D : Z → list Z) : Z → list Z := after D (pending start D).

Lemma after_app D ws ws' : after D (ws ++ ws') = after (after D ws) ws'.
Proof. unfold after. by rewrite foldl_app. Qed.

Lemma after_other D ws n : n ∉ ws.*1 → after D ws n = D n.
Proof.
  revert D. induction ws as [|[a d] ws IH]; intros D Hn; [done|]. cbn [fmap list_fmap fst] in Hn.
  apply not_elem_of_cons in Hn as [Hna Hn]. change (after D ((a, d) :: ws)) with (after (λ n, if n =? a then d else D n) ws).
  rewrite IH by done. by replace (n =? a) with false by lia.
Qed.

Lemma after_ext D D' ws n : D n = D' n → after D ws n = after D' ws n.
Proof.
  revert D D'. induction ws as [|[a d] ws IH]; intros D D' E; [done|].
  change (after ?D ((a, d) :: ws)) with (after (λ n, if n =? a then d else D n) ws). apply IH. by rewrite E.
Qed.

Lemma after_one_eq D a d : after D [(a, d)] a = d.
Proof. simpl. by rewrite Z.eqb_refl. Qed.
Lemma after_one_ne D a d m : m ≠ a → after D [(a, d)] m = D m.
Proof. intros. simpl. by replace (m =? a) with false by lia. Qed.

(** With distinct targets, each target gets its data, whatever was there. *)
Lemma after_in D ws a d : NoDup ws.*1 → (a, d) ∈ ws → after D ws a = d.
Proof.
  revert D. induction ws as [|[b e] ws IH]; intros D Hnd Hin; [by apply elem_of_nil in Hin|].
  cbn [fmap list_fmap fst] in Hnd. apply NoDup_cons in Hnd as [Hb Hnd].
  change (after D ((b, e) :: ws)) with (after (λ n, if n =? b then e else D n) ws).
  apply elem_of_cons in Hin as [[= -> ->]|Hin]; [|by apply IH]. rewrite after_other by done. by rewrite Z.eqb_refl.
Qed.

(** Doing some of the writes before does not matter. *)
Lemma after_idem D ws k n : NoDup ws.*1 → after (after D (take k ws)) ws n = after D ws n.
Proof.
  intros Hnd. destruct (decide (n ∈ ws.*1)) as [Hin|Hout].
  - apply list_elem_of_fmap in Hin as ([a d] & -> & Hin). by rewrite !(after_in _ ws a d).
  - rewrite !(after_other _ ws) by done. apply after_other. intros H. apply Hout.
    rewrite <- (take_drop k ws), fmap_app. apply elem_of_app. by left.
Qed.

Definition outside (start m : Z) : Prop := m < start ∨ start + LOGSIZE ≤ m.
Definition head_blocks (start : Z) (D : Z → list Z) : list Z := head_block start D <$> seqZ 0 (head_n start D).

Lemma pending_targets start D : (pending start D).*1 = head_blocks start D.
Proof. unfold pending, head_blocks. by rewrite <- list_fmap_compose. Qed.

(** What recovery does depends on the log only. *)
Lemma pending_ext start D D' : (∀ i, 0 ≤ i < LOGSIZE → D (start + i) = D' (start + i)) → head_n start D < LOGSIZE →
  pending start D = pending start D'.
Proof.
  intros E Hn. pose proof (E 0) as E0. rewrite Z.add_0_r in E0.
  assert (D start = D' start) as Es by (apply E0; done). unfold pending.
  replace (head_n start D') with (head_n start D) by (unfold head_n; by rewrite Es).
  apply list_fmap_ext. intros _ i Hi%list_elem_of_lookup_2%elem_of_seqZ. f_equal.
  - unfold head_block. by rewrite Es.
  - rewrite <- Z.add_assoc. apply E. lia.
Qed.

(** Recovery can be repeated from any point it was interrupted at. *)
Lemma logical_prefix start D k m :
  head_n start D < LOGSIZE → NoDup (head_blocks start D) → (∀ b, b ∈ head_blocks start D → outside start b) →
  logical start (after D (take k (pending start D))) m = logical start D m.
Proof.
  intros Hn Hnd Hout. unfold logical.
  rewrite <- (pending_ext start D (after D (take k (pending start D)))); [|clear m; intros i Hi|done].
  - apply after_idem. by rewrite pending_targets.
  - symmetry. apply after_other. intros Hin.
    destruct (Hout (start + i)); [|lia|lia]. rewrite <- pending_targets, <- (take_drop k (pending start D)), fmap_app.
    apply elem_of_app. by left.
Qed.

Lemma logical_clean start D m : head_n start D = 0 → logical start D m = D m.
Proof. intros E. unfold logical, pending. by rewrite E. Qed.

(** ** The header in a block *)

(** [d] with the block numbers [l] from position [i] on. *)
Fixpoint put_blocks (d : list Z) (i : Z) (l : list Z) : list Z :=
  match l with
  | [] => d
  | b :: l' => put_blocks (put32 d (4 + 4 * i) b) (i + 1) l'
  end.
Definition header (d : list Z) (n : Z) (l : list Z) : list Z := put_blocks (put32 d 0 n) 0 (take (Z.to_nat n) l).

Lemma length_put_blocks d i l : length (put_blocks d i l) = length d.
Proof. revert d i. induction l as [|b l IH]; intros d i; simpl; [done|]. by rewrite IH, length_put32. Qed.

Lemma put_blocks_before d i l o : 0 ≤ i → 0 ≤ o → o + 4 ≤ 4 + 4 * i → get32 (put_blocks d i l) o = get32 d o.
Proof.
  revert d i. induction l as [|b l IH]; intros d i Hi Ho Hoi; simpl; [done|].
  rewrite IH by lia. apply get32_put32_ne; lia.
Qed.

Lemma get32_put32_mod d o v : 0 ≤ o → o + 4 ≤ Z.of_nat (length d) → get32 (put32 d o v) o = u32 v.
Proof. intros. unfold get32, put32. by rewrite get_put_eq. Qed.

Lemma put_blocks_at d i l k b : 0 ≤ i → 4 + 4 * (i + Z.of_nat (length l)) ≤ Z.of_nat (length d) → l !! k = Some b →
  get32 (put_blocks d i l) (4 + 4 * (i + Z.of_nat k)) = u32 b.
Proof.
  revert d i k. induction l as [|c l IH]; intros d i k Hi Hl Hk; [done|]. simpl in *. destruct k as [|k].
  - injection Hk as ->. rewrite put_blocks_before by lia. rewrite Z.add_0_r. apply get32_put32_mod; lia.
  - replace (i + Z.of_nat (S k)) with (i + 1 + Z.of_nat k) by lia. apply IH; [lia| |done]. rewrite length_put32. lia.
Qed.

Lemma s32_u32 x : - 2 ^ 31 ≤ x < 2 ^ 31 → s32 (u32 x) = x.
Proof.
  intros Hx. unfold s32, u32. rewrite Zdiv.Zplus_mod_idemp_l. rewrite Z.mod_small by lia. lia.
Qed.

(** The header can be read back. *)
Lemma header_n d n l : 4 ≤ Z.of_nat (length d) → - 2 ^ 31 ≤ n < 2 ^ 31 → s32 (get32 (header d n l) 0) = n.
Proof.
  intros Hd Hn. unfold header. rewrite put_blocks_before by lia. rewrite get32_put32_mod by lia. by apply s32_u32.
Qed.
Lemma header_block d n l k b : 4 + 4 * n ≤ Z.of_nat (length d) → Z.of_nat k < n → l !! k = Some b → 0 ≤ b < 2 ^ 31 →
  u32 (s32 (get32 (header d n l) (4 + 4 * Z.of_nat k))) = b.
Proof.
  intros Hd Hk Hl Hb. pose proof (lookup_lt_Some _ _ _ Hl).
  assert (get32 (header d n l) (4 + 4 * (0 + Z.of_nat k)) = u32 b) as E.
  { unfold header. apply put_blocks_at; [lia| |by rewrite lookup_take_lt by lia].
    rewrite length_put32, length_take. lia. }
  rewrite Z.add_0_l in E. rewrite E, (u32_small b), s32_small, u32_small by lia. done.
Qed.

(** ** One turn of the loops *)

Section turns.
Context `{!KernelView kst} `{!WaitBound}.
Hypothesis Hwait : (0 < wait_bound)%nat.
Variable dev : Z.
Abbreviation cache_ok := (cache_ok dev).
Abbreviation blk := (blk dev).
Abbreviation ref := (ref dev).
Abbreviation owner := (owner dev).

(** 1 if the block is in the list. *)
Definition cnt (m : Z) (us : list Z) : Z := if decide (m ∈ us) then 1 else 0.
Lemma cnt_nil m : cnt m [] = 0.
Proof. clear Hwait. done. Qed.
Lemma cnt_one m b : cnt m [b] = if decide (m = b) then 1 else 0.
Proof. clear Hwait.
  unfold cnt. destruct (decide (m = b)) as [->|Hne]; [by rewrite decide_True by (by apply list_elem_of_singleton)|].
  by rewrite decide_False by (by rewrite list_elem_of_singleton).
Qed.
Lemma cnt_range m us : 0 ≤ cnt m us ≤ 1.
Proof. clear Hwait. unfold cnt. case_decide; lia. Qed.

Record ready (s : kst) (l : list Z) : Prop := {
  rd_cache : cache_ok s l;
  rd_table : table_ok (s_kern s);
  rd_me : 0 ≤ k_me (s_kern s) < NPROC;
}.

(** The machine has written [ws] to the disk and unpinned the blocks [us]. *)
Record stepped (s : kst) (ws : list (Z * list Z)) (us : list Z) (s' : kst) : Prop := {
  sp_ready : ∃ l', ready s' l';
  sp_rest : rest s' = rest s;
  sp_kern : kframe (s_kern s) (s_kern s');
  sp_trace : d_trace (s_disk s') = d_trace (s_disk s) ++ ws;
  sp_disk m : d_block (s_disk s') m = after (d_block (s_disk s)) ws m;
  sp_blk m : blk s' m = after (blk s) ws m;
  sp_ref m : ref s' m = ref s m - cnt m us;
  sp_owner m : owner s' m = owner s m;
  sp_free : free s ≤ free s';
}.

Lemma stepped_refl s l : ready s l → stepped s [] [] s.
Proof. clear Hwait. intros Hr. constructor; try done; [by exists l|by rewrite app_nil_r|]. intros m. rewrite cnt_nil. lia. Qed.

Lemma stepped_trans s1 ws us s2 ws' us' s3 :
  (∀ u, u ∈ us → u ∉ us') → stepped s1 ws us s2 → stepped s2 ws' us' s3 → stepped s1 (ws ++ ws') (us ++ us') s3.
Proof. clear Hwait.
  intros Hu [R1 E1 K1 T1 D1 B1 F1 O1 Fr1] [R2 E2 K2 T2 D2 B2 F2 O2 Fr2]. constructor; try done.
  - congruence.
  - by etrans.
  - by rewrite T2, T1, app_assoc.
  - intros m. rewrite D2, after_app. by apply after_ext.
  - intros m. rewrite B2, after_app. by apply after_ext.
  - intros m. rewrite F2, F1. unfold cnt. destruct (decide (m ∈ us)) as [H1|H1], (decide (m ∈ us')) as [H2|H2].
    + by apply Hu in H1.
    + rewrite decide_True by set_solver. lia.
    + rewrite decide_True by set_solver. lia.
    + rewrite decide_False by set_solver. lia.
  - intros m. by rewrite O2, O1.
  - lia.
Qed.

Lemma rest_log s s' : rest s' = rest s → s_log s' = s_log s.
Proof. clear Hwait. unfold rest. by intros [= -> _]. Qed.

Lemma took_rest s l i n s' : took dev s l i n s' → rest s' = rest s ∧ s_kern s' = s_kern s ∧ s_disk s' = s_disk s.
Proof. intros Hx. rewrite (tk_rest _ _ _ _ _ _ Hx). done. Qed.
Lemma edited_rest s l i n d s' : edited dev s l i n d s' → rest s' = rest s ∧ s_kern s' = s_kern s ∧ s_disk s' = s_disk s.
Proof. intros Hx. rewrite (ed_rest _ _ _ _ _ _ _ Hx). done. Qed.
Lemma wrote_rest s l i n s' : wrote dev s l i n s' → rest s' = rest s ∧ s_kern s' = s_kern s.
Proof. intros Hx. rewrite (wr_rest _ _ _ _ _ _ Hx). done. Qed.
Lemma released_rest s l i n u s' l' : released dev s l i n u s' l' → rest s' = rest s ∧ s_disk s' = s_disk s.
Proof. intros Hx. rewrite (re_rest _ _ _ _ _ _ _ _ Hx). done. Qed.

Lemma grabbed_data s l i n : cache_ok s l → grabbed dev s i n → b_data (buf_at i s) = blk s n.
Proof. clear Hwait. intros Hok [Hh Hv _]. by rewrite (holds_blk dev s l i n Hok Hh Hv). Qed.

(** Two blocks in hand, from bread(a) and then bread(b). *)
Lemma bread_two s l a b :
  ready s l → a ≠ b → owner s a = None → owner s b = None → ref s a < 2 ^ 30 → ref s b < 2 ^ 30 →
  2 ≤ free s ∨ (0 < free s ∧ 0 < ref s b) →
  ∃ i s1 j s2, bread dev a s = Ok i s1 ∧ s_log s1 = s_log s ∧ bread dev b s1 = Ok j s2 ∧ ready s2 l ∧
    rest s2 = rest s ∧ s_kern s2 = s_kern s ∧ s_disk s2 = s_disk s ∧ grabbed dev s2 i a ∧ grabbed dev s2 j b ∧ i ≠ j ∧
    (∀ m, blk s2 m = blk s m) ∧
    (∀ m, ref s2 m = ref s m + (if decide (m = a) then 1 else 0) + (if decide (m = b) then 1 else 0)) ∧
    (∀ m, owner s2 m = if decide (m = a ∨ m = b) then Some (mypid s) else owner s m) ∧
    free s2 = free s - zero (ref s a) - zero (ref s b).
Proof.
  intros [Hc Ht Hm] Hab Hoa Hob Hra Hrb Hfree.
  assert (0 ≤ zero (ref s a) ≤ 1) as Hz by (unfold zero; destruct (_ =? 0); lia).
  destruct (bread_took dev Hwait s l a Hc Hoa) as (i & s1 & H1 & T1); [lia|done|].
  destruct (took_rest _ _ _ _ _ T1) as (E1 & K1 & D1).
  assert (ref s1 b = ref s b) as Erb by (rewrite (tk_ref _ _ _ _ _ _ T1), decide_False; done).
  destruct (bread_took dev Hwait s1 l b (tk_ok _ _ _ _ _ _ T1)) as (j & s2 & H2 & T2).
  { by rewrite (tk_owner _ _ _ _ _ _ T1), decide_False. }
  { rewrite Erb, (tk_free _ _ _ _ _ _ T1). lia. }
  { by rewrite Erb. }
  destruct (took_rest _ _ _ _ _ T2) as (E2 & K2 & D2).
  pose proof (tk_other _ _ _ _ _ _ T2 i a (tk_grab _ _ _ _ _ _ T1) Hab) as Gi.
  pose proof (tk_grab _ _ _ _ _ _ T2) as Gj.
  exists i, s1, j, s2. split_and!; try done; try congruence.
  - by apply rest_log.
  - constructor; [apply T2|by rewrite K2, K1|by rewrite K2, K1].
  - by apply (grabbed_ne dev s2 i j a b).
  - intros m. by rewrite (tk_blk _ _ _ _ _ _ T2), (tk_blk _ _ _ _ _ _ T1).
  - intros m. rewrite (tk_ref _ _ _ _ _ _ T2), !(tk_ref _ _ _ _ _ _ T1). repeat case_decide; subst; try done; lia.
  - intros m. rewrite (tk_owner _ _ _ _ _ _ T2), (tk_owner _ _ _ _ _ _ T1). unfold mypid. rewrite K1.
    repeat case_decide; subst; try done; naive_solver.
  - by rewrite (tk_free _ _ _ _ _ _ T2), (tk_free _ _ _ _ _ _ T1), Erb.
Qed.

(** And giving both back, the second one first, in a state that the disk agrees with. *)
Lemma brelse_two s l i a j b :
  ready s l → a ≠ b → grabbed dev s i a → grabbed dev s j b →
  (ref s a = 1 → blk s a = d_block (s_disk s) a) → (ref s b = 1 → blk s b = d_block (s_disk s) b) →
  ∃ s' l', (brelse j;; brelse i) s = Ok tt s' ∧ ready s' l' ∧ rest s' = rest s ∧ kframe (s_kern s) (s_kern s') ∧
    s_disk s' = s_disk s ∧ (∀ m, blk s' m = blk s m) ∧
    (∀ m, ref s' m = ref s m - (if decide (m = a) then 1 else 0) - (if decide (m = b) then 1 else 0)) ∧
    (∀ m, owner s' m = if decide (m = a ∨ m = b) then None else owner s m) ∧
    free s' = free s + zero (ref s a - 1) + zero (ref s b - 1).
Proof.
  intros [Hc Ht Hm] Hab Gi Gj Ha Hb. pose proof (grabbed_ne dev s i j a b Gi Gj Hab) as Hij.
  destruct (brelse_grabbed dev s l j b Hc Ht Gj Hb) as (s1 & l1 & H1 & R1).
  destruct (released_rest _ _ _ _ _ _ _ R1) as [E1 D1].
  pose proof (released_grab dev _ _ _ _ _ _ _ i a R1 Hm Hij Gi) as Gi1.
  assert (ref s1 a = ref s a) as Era by (rewrite (re_ref _ _ _ _ _ _ _ _ R1), decide_False; done).
  destruct (brelse_grabbed dev s1 l1 i a (re_ok _ _ _ _ _ _ _ _ R1) (kframe_ok _ _ (re_kern _ _ _ _ _ _ _ _ R1) Ht) Gi1)
    as (s2 & l2 & H2 & R2).
  { rewrite Era, (re_blk _ _ _ _ _ _ _ _ R1), D1. done. }
  destruct (released_rest _ _ _ _ _ _ _ R2) as [E2 D2].
  exists s2, l2. rewrite (bind_ok _ _ _ _ _ H1). split_and!; try done; try congruence.
  - constructor; [apply R2| |].
    + apply (kframe_ok _ _ (re_kern _ _ _ _ _ _ _ _ R2)), (kframe_ok _ _ (re_kern _ _ _ _ _ _ _ _ R1)), Ht.
    + destruct (kframe_fields _ _ (re_kern _ _ _ _ _ _ _ _ R2)) as (_ & -> & _).
      destruct (kframe_fields _ _ (re_kern _ _ _ _ _ _ _ _ R1)) as (_ & -> & _). done.
  - etrans; [apply (re_kern _ _ _ _ _ _ _ _ R1)|apply (re_kern _ _ _ _ _ _ _ _ R2)].
  - intros m. by rewrite (re_blk _ _ _ _ _ _ _ _ R2), (re_blk _ _ _ _ _ _ _ _ R1).
  - intros m. rewrite (re_ref _ _ _ _ _ _ _ _ R2), !(re_ref _ _ _ _ _ _ _ _ R1). repeat case_decide; subst; try done; lia.
  - intros m. rewrite (re_owner _ _ _ _ _ _ _ _ R2), (re_owner _ _ _ _ _ _ _ _ R1). repeat case_decide; subst; try done; naive_solver.
  - rewrite (re_free _ _ _ _ _ _ _ _ R2), (re_free _ _ _ _ _ _ _ _ R1), Era. lia.
Qed.

(** copy_data and bwrite of the copy. *)
Lemma copy_bwrite s l i a j b :
  ready s l → a ≠ b → grabbed dev s i a → grabbed dev s j b →
  ∃ s', (copy_data i j;; bwrite i) s = Ok tt s' ∧ ready s' l ∧ rest s' = rest s ∧ s_kern s' = s_kern s ∧
    grabbed dev s' i a ∧ grabbed dev s' j b ∧
    d_trace (s_disk s') = d_trace (s_disk s) ++ [(a, blk s b)] ∧
    (∀ m, d_block (s_disk s') m = after (d_block (s_disk s)) [(a, blk s b)] m) ∧
    (∀ m, blk s' m = after (blk s) [(a, blk s b)] m) ∧ (∀ m, ref s' m = ref s m) ∧ (∀ m, owner s' m = owner s m) ∧
    free s' = free s.
Proof.
  intros [Hc Ht Hm] Hab Gi Gj. pose proof (grabbed_data s l j b Hc Gj) as Hd.
  pose proof (edit_spec dev s l i a (blk s b) Hc Gi) as Ed. set (s1 := upd_buf i (set_b_data (blk s b)) s) in *.
  destruct (edited_rest _ _ _ _ _ _ Ed) as (E1 & K1 & D1).
  pose proof (ed_grab _ _ _ _ _ _ _ Ed i a Gi) as Gi1. pose proof (ed_grab _ _ _ _ _ _ _ Ed j b Gj) as Gj1.
  destruct (bwrite_spec dev s1 l i a (ed_ok _ _ _ _ _ _ _ Ed) Gi1) as (s2 & H2 & W).
  destruct (wrote_rest _ _ _ _ _ W) as (E2 & K2).
  assert (blk s1 a = blk s b) as Eb by (by rewrite (ed_blk _ _ _ _ _ _ _ Ed), decide_True).
  exists s2. split_and!; try congruence.
  - unfold copy_data. rewrite bind_assoc. erewrite bind_ok by reflexivity. rewrite Hd.
    erewrite bind_ok by reflexivity. exact H2.
  - constructor; [apply W|by rewrite K2, K1|by rewrite K2, K1].
  - by apply (wr_grab _ _ _ _ _ _ W).
  - by apply (wr_grab _ _ _ _ _ _ W).
  - by rewrite (wr_trace _ _ _ _ _ _ W), D1, Eb.
  - intros m. rewrite (wr_disk _ _ _ _ _ _ W), D1, Eb. simpl. case_decide; [by replace (m =? a) with true by lia|].
    by replace (m =? a) with false by lia.
  - intros m. rewrite (wr_blk _ _ _ _ _ _ W), (ed_blk _ _ _ _ _ _ _ Ed). simpl.
    case_decide; [by replace (m =? a) with true by lia|by replace (m =? a) with false by lia].
  - intros m. by rewrite (wr_ref _ _ _ _ _ _ W), (ed_ref _ _ _ _ _ _ _ Ed).
  - intros m. by rewrite (wr_owner _ _ _ _ _ _ W), (ed_owner _ _ _ _ _ _ _ Ed).
  - by rewrite (wr_free _ _ _ _ _ _ W), (ed_free _ _ _ _ _ _ _ Ed).
Qed.

Lemma zero_range x : 0 ≤ zero x ≤ 1.
Proof. clear Hwait. unfold zero. destruct (x =? 0); lia. Qed.

Lemma write_log_turn_spec s l tail a b :
  ready s l → lg_dev (s_log s) = dev → tail < lh_n (lg_lh (s_log s)) →
  u32 (lg_start (s_log s) + tail + 1) = a → lh_block_at tail s = b → a ≠ b →
  owner s a = None → owner s b = None → ref s a = 0 → 0 < ref s b < 2 ^ 30 → 0 < free s →
  ∃ s', write_log_turn tail s = Ok (inl (tail + 1)) s' ∧ stepped s [(a, blk s b)] [] s'.
Proof.
  intros Hrd Hdev Htl Ha Hb Hab Hoa Hob Hra Hrb Hfree.
  destruct (bread_two s l a b Hrd Hab Hoa Hob) as (i & s1 & j & s2 & H1 & L1 & H2 & Rd2 & E2 & K2 & D2 & Gi & Gj & Hij & B2 & F2 & O2 & Fr2);
    [lia|lia|lia|].
  destruct (copy_bwrite s2 l i a j b Rd2 Hab Gi Gj) as (s3 & H3 & Rd3 & E3 & K3 & Gi3 & Gj3 & T3 & D3 & B3 & F3 & O3 & Fr3).
  pose proof (F2 a) as Fa. rewrite decide_True, decide_False in Fa by done.
  pose proof (F2 b) as Fb. rewrite decide_False, decide_True in Fb by done.
  destruct (brelse_two s3 l i a j b Rd3 Hab Gi3 Gj3) as (s4 & l4 & H4 & Rd4 & E4 & K4 & D4 & B4 & F4 & O4 & Fr4).
  { intros _. by rewrite B3, D3, !after_one_eq. }
  { rewrite F3. lia. }
  exists s4. split.
  - unfold write_log_turn. erewrite bind_ok by reflexivity. replace (tail <? _) with true by lia.
    rewrite Hdev, Ha. rewrite (bind_ok _ _ _ _ _ H1). erewrite bind_ok by reflexivity.
    replace (lh_block_at tail s1) with b by (unfold lh_block_at; by rewrite L1).
    rewrite (bind_ok _ _ _ _ _ H2). rewrite <- (bind_assoc (copy_data i j)). rewrite (bind_ok _ _ _ _ _ H3).
    rewrite <- (bind_assoc (brelse j)). by rewrite (bind_ok _ _ _ _ _ H4).
  - constructor.
    + by exists l4.
    + congruence.
    + by rewrite <- K2, <- K3.
    + rewrite D4, T3, D2, B2. done.
    + intros m. rewrite D4, D3, D2, B2. done.
    + intros m. rewrite B4, B3. rewrite (B2 b). by apply after_ext.
    + intros m. rewrite F4, F3, F2, cnt_nil. lia.
    + intros m. rewrite O4, O3, O2. case_decide as E; [|done]. destruct E as [->| ->]; done.
    + rewrite Fr4, Fr3, Fr2, !F3, Fa, Fb, Hra. change (zero 0) with 1. change (zero (0 + 1 + 0 - 1)) with 1.
      replace (ref s b + 0 + 1 - 1) with (ref s b) by lia. lia.
Qed.

Lemma install_turn_spec (rec : bool) s l tail a b :
  ready s l → lg_dev (s_log s) = dev → tail < lh_n (lg_lh (s_log s)) →
  u32 (lg_start (s_log s) + tail + 1) = a → lh_block_at tail s = b → a ≠ b →
  owner s a = None → owner s b = None → ref s a = 0 → 0 ≤ ref s b < 2 ^ 30 →
  (if rec then 2 ≤ free s else 0 < free s ∧ 0 < ref s b) →
  ∃ s', install_turn rec tail s = Ok (inl (tail + 1)) s' ∧ stepped s [(b, blk s a)] (if rec then [] else [b]) s'.
Proof.
  intros Hrd Hdev Htl Ha Hb Hab Hoa Hob Hra Hrb Hfree.
  destruct (bread_two s l a b Hrd Hab Hoa Hob) as (i & s1 & j & s2 & H1 & L1 & H2 & Rd2 & E2 & K2 & D2 & Gi & Gj & Hij & B2 & F2 & O2 & Fr2);
    [lia|lia|destruct rec; lia|].
  destruct (copy_bwrite s2 l j b i a Rd2 (not_eq_sym Hab) Gj Gi)
    as (s3 & H3 & Rd3 & E3 & K3 & Gj3 & Gi3 & T3 & D3 & B3 & F3 & O3 & Fr3).
  pose proof (F2 a) as Fa. rewrite decide_True, decide_False in Fa by done.
  pose proof (F2 b) as Fb. rewrite decide_False, decide_True in Fb by done.
  assert (∃ s4, (if rec then mret tt else bunpin j) s3 = Ok tt s4 ∧ ready s4 l ∧ rest s4 = rest s3 ∧ kframe (s_kern s3) (s_kern s4) ∧
    s_disk s4 = s_disk s3 ∧ grabbed dev s4 i a ∧ grabbed dev s4 j b ∧ (∀ m, blk s4 m = blk s3 m) ∧
    (∀ m, ref s4 m = ref s3 m - cnt m (if rec then [] else [b])) ∧
    (∀ m, owner s4 m = owner s3 m) ∧ free s4 = free s3) as (s4 & H4 & Rd4 & E4 & K4 & D4 & Gi4 & Gj4 & B4 & F4 & O4 & Fr4).
  { destruct rec.
    - exists s3. split_and!; try done. intros m. rewrite cnt_nil. lia.
    - destruct (bunpin_spec dev s3 l j b (rd_cache _ _ Rd3) Gj3) as (s4 & H4 & R4 & G4); [rewrite F3; lia|].
      destruct (released_rest _ _ _ _ _ _ _ R4) as [E4 D4]. pose proof (re_kern _ _ _ _ _ _ _ _ R4) as K4.
      exists s4. split_and!; try done.
      + destruct Rd3 as [? Ht Hm]. constructor; [apply R4|by apply (kframe_ok _ _ K4)|].
        destruct (kframe_fields _ _ K4) as (_ & -> & _). done.
      + apply (released_grab dev _ _ _ _ _ _ _ i a R4 (rd_me _ _ Rd3)); done.
      + apply R4.
      + intros m. rewrite (re_ref _ _ _ _ _ _ _ _ R4), cnt_one. case_decide; [by subst|lia].
      + intros m. rewrite (re_owner _ _ _ _ _ _ _ _ R4). case_decide; by subst.
      + rewrite (re_free _ _ _ _ _ _ _ _ R4), F3, Fb. unfold zero. replace (_ =? 0) with false by lia. lia. }
  destruct (brelse_two s4 l j b i a Rd4 (not_eq_sym Hab) Gj4 Gi4)
    as (s5 & l5 & H5 & Rd5 & E5 & K5 & D5 & B5 & F5 & O5 & Fr5).
  { intros _. by rewrite B4, B3, D4, D3, !after_one_eq. }
  { intros _. rewrite B4, B3, D4, D3, !after_one_ne by done. rewrite B2, D2. by apply (unused_clean dev s l); [apply Hrd|]. }
  exists s5. split.
  - unfold install_turn. erewrite bind_ok by reflexivity. replace (tail <? _) with true by lia.
    rewrite Hdev, Ha. rewrite (bind_ok _ _ _ _ _ H1). erewrite bind_ok by reflexivity.
    replace (lh_block_at tail s1) with b by (unfold lh_block_at; by rewrite L1).
    rewrite (bind_ok _ _ _ _ _ H2). rewrite <- (bind_assoc (copy_data j i)). rewrite (bind_ok _ _ _ _ _ H3).
    rewrite (bind_ok _ _ _ _ _ H4). rewrite <- (bind_assoc (brelse i)). by rewrite (bind_ok _ _ _ _ _ H5).
  - constructor.
    + by exists l5.
    + congruence.
    + rewrite <- K2, <- K3. by etrans.
    + rewrite D5, D4, T3, D2, B2. done.
    + intros m. rewrite D5, D4, D3, D2, B2. done.
    + intros m. rewrite B5, B4, B3. rewrite (B2 a). by apply after_ext.
    + intros m. rewrite F5, F4, F3, F2. lia.
    + intros m. rewrite O5, O4, O3, O2. repeat case_decide; naive_solver.
    + rewrite Fr5, Fr4, Fr3, Fr2, !F4, !F3, Fa, Fb, Hra. change (zero 0) with 1.
      replace (cnt a (if rec then [] else [b])) with 0 by (destruct rec; [done|]; by rewrite cnt_one, decide_False).
      change (zero (0 + 1 + 0 - 0 - 1)) with 1. destruct rec.
      * rewrite cnt_nil. replace (ref s b + 0 + 1 - 0 - 1) with (ref s b) by lia. lia.
      * pose proof (zero_range (ref s b + 0 + 1 - cnt b [b] - 1)).
        assert (zero (ref s b) = 0) by (unfold zero; by replace (ref s b =? 0) with false by lia). lia.
Qed.

Lemma put_head_loop (k fuel : nat) buf i s :
  let h := lg_lh (s_log s) in
  0 ≤ i → i + Z.of_nat k = lh_n h → (k < fuel)%nat → lh_n h ≤ Z.of_nat (length (lh_block h)) →
  is_Some (bc_buf (s_bcache s) !! buf) →
  loop fuel (put_head_turn buf) i s =
    Ok tt (upd_buf buf (λ x, set_b_data (put_blocks (b_data x) i (drop (Z.to_nat i) (take (Z.to_nat (lh_n h)) (lh_block h)))) x) s).
Proof.
  revert fuel i s. induction k as [|k IH]; intros [|fuel] i s h Hi Hk Hf Hlen Hin; try lia; cbn [loop].
  - rewrite (drop_ge (take _ _)) by (rewrite length_take; lia). simpl put_blocks.
    unfold put_head_turn. unfold mbind, M_bind, gets. fold h. replace (i <? lh_n h) with false by lia.
    unfold mret, M_ret. f_equal. symmetry. apply upd_buf_same; [done|]. by destruct (buf_at buf s).
  - destruct (lookup_lt_is_Some_2 (lh_block h) (Z.to_nat i)) as [b Hb]; [lia|].
    assert (put_head_turn buf i s = Ok (inl (i + 1))
      (upd_buf buf (λ x, set_b_data (put32 (b_data x) (4 + 4 * i) b) x) s)) as Ht.
    { unfold put_head_turn. erewrite bind_ok by reflexivity. fold h. replace (i <? lh_n h) with true by lia.
      by rewrite nth_lookup, Hb. }
    rewrite (bind_ok _ _ _ _ _ Ht). rewrite IH; [|lia|change (lg_lh (s_log (upd_buf _ _ _))) with h; lia|lia|done|simpl; by rewrite lookup_insert_eq].
    change (lg_lh (s_log (upd_buf _ _ _))) with h. rewrite upd_buf_upd.
    rewrite (drop_S _ b (Z.to_nat i)) by (by rewrite lookup_take_lt by lia).
    by replace (S (Z.to_nat i)) with (Z.to_nat (i + 1)) by lia.
Qed.

Lemma write_head_spec s l a :
  let h := lg_lh (s_log s) in
  ready s l → lg_dev (s_log s) = dev → u32 (lg_start (s_log s)) = a → owner s a = None → ref s a = 0 → 0 < free s →
  0 ≤ lh_n h ≤ LOGSIZE → lh_n h ≤ Z.of_nat (length (lh_block h)) →
  ∃ s', write_head s = Ok tt s' ∧ stepped s [(a, header (blk s a) (lh_n h) (lh_block h))] [] s'.
Proof.
  intros h [Hc Ht Hm] Hdev Ha Ho Hr Hfree Hn Hlen.
  destruct (bread_took dev Hwait s l a Hc Ho) as (i & s1 & H1 & T1); [lia|lia|].
  destruct (took_rest _ _ _ _ _ T1) as (E1 & K1 & D1). pose proof (tk_grab _ _ _ _ _ _ T1) as G1.
  assert (s_log s1 = s_log s) as L1 by (by apply rest_log).
  pose proof (grabbed_data s1 l i a (tk_ok _ _ _ _ _ _ T1) G1) as Hd. rewrite (tk_blk _ _ _ _ _ _ T1) in Hd.
  set (d := header (blk s a) (lh_n h) (lh_block h)).
  pose proof (edit_spec dev s1 l i a d (tk_ok _ _ _ _ _ _ T1) G1) as Ed. set (s2 := upd_buf i (set_b_data d) s1) in *.
  destruct (edited_rest _ _ _ _ _ _ Ed) as (E2 & K2 & D2). pose proof (ed_grab _ _ _ _ _ _ _ Ed i a G1) as G2.
  destruct (bwrite_spec dev s2 l i a (ed_ok _ _ _ _ _ _ _ Ed) G2) as (s3 & H3 & W).
  destruct (wrote_rest _ _ _ _ _ W) as (E3 & K3). pose proof (wr_grab _ _ _ _ _ _ W i a G2) as G3.
  assert (blk s2 a = d) as Eb by (by rewrite (ed_blk _ _ _ _ _ _ _ Ed), decide_True).
  destruct (brelse_grabbed dev s3 l i a (wr_ok _ _ _ _ _ _ W)) as (s4 & l4 & H4 & R4); [by rewrite K3, K2, K1|done| |].
  { intros _. by rewrite (wr_blk _ _ _ _ _ _ W), (wr_disk _ _ _ _ _ _ W), decide_True. }
  destruct (released_rest _ _ _ _ _ _ _ R4) as [E4 D4]. pose proof (re_kern _ _ _ _ _ _ _ _ R4) as K4.
  exists s4. split.
  - unfold write_head. erewrite bind_ok by reflexivity. rewrite Hdev, Ha. rewrite (bind_ok _ _ _ _ _ H1).
    erewrite bind_ok by reflexivity. fold h.
    rewrite (bind_ok _ _ _ tt s2); [by rewrite (bind_ok _ _ _ _ _ H3)|].
    rewrite (put_head_loop (Z.to_nat (lh_n h))); change (s_log (upd_buf i ?g s1)) with (s_log s1); rewrite ?L1; fold h; try lia.
    + rewrite upd_buf_upd. rewrite drop_0. unfold s2, upd_buf, d, header. simpl. by rewrite Hd.
    + unfold log_fuel. lia.
    + simpl. by rewrite lookup_insert_eq.
  - constructor.
    + exists l4. constructor; [apply R4|apply (kframe_ok _ _ K4); by rewrite K3, K2, K1|].
      destruct (kframe_fields _ _ K4) as (_ & -> & _). by rewrite K3, K2, K1.
    + congruence.
    + rewrite <- K1, <- K2, <- K3. done.
    + by rewrite D4, (wr_trace _ _ _ _ _ _ W), D2, D1, Eb.
    + intros m. rewrite D4, (wr_disk _ _ _ _ _ _ W), D2, D1, Eb. simpl.
      case_decide; [by replace (m =? a) with true by lia|by replace (m =? a) with false by lia].
    + intros m. rewrite (re_blk _ _ _ _ _ _ _ _ R4), (wr_blk _ _ _ _ _ _ W), (ed_blk _ _ _ _ _ _ _ Ed), (tk_blk _ _ _ _ _ _ T1). simpl.
      case_decide; [by replace (m =? a) with true by lia|by replace (m =? a) with false by lia].
    + intros m. rewrite cnt_nil, (re_ref _ _ _ _ _ _ _ _ R4), !(wr_ref _ _ _ _ _ _ W), !(ed_ref _ _ _ _ _ _ _ Ed), !(tk_ref _ _ _ _ _ _ T1).
      repeat case_decide; subst; try done; lia.
    + intros m. rewrite (re_owner _ _ _ _ _ _ _ _ R4), (wr_owner _ _ _ _ _ _ W), (ed_owner _ _ _ _ _ _ _ Ed), (tk_owner _ _ _ _ _ _ T1).
      repeat case_decide; subst; done.
    + rewrite (re_free _ _ _ _ _ _ _ _ R4), (wr_free _ _ _ _ _ _ W), (ed_free _ _ _ _ _ _ _ Ed), (tk_free _ _ _ _ _ _ T1).
      rewrite (wr_ref _ _ _ _ _ _ W), (ed_ref _ _ _ _ _ _ _ Ed), (tk_ref _ _ _ _ _ _ T1), decide_True, Hr by done.
      change (zero 0) with 1. change (zero (0 + 1 - 1)) with 1. lia.
Qed.

(** ** The loops *)

(** A transaction of the blocks [bs], with the log at [start]. *)
Record area_ok (start : Z) (bs : list Z) : Prop := {
  ao_start : 0 ≤ start ∧ start + LOGSIZE < 2 ^ 31;
  ao_len : Z.of_nat (length bs) < LOGSIZE;
  ao_nodup : NoDup bs;
  ao_range b : b ∈ bs → 0 ≤ b < 2 ^ 31 ∧ (b < start ∨ start + LOGSIZE ≤ b);
}.
Record logs (start : Z) (bs : list Z) (s : kst) : Prop := {
  lo_dev : lg_dev (s_log s) = dev;
  lo_start : lg_start (s_log s) = start;
  lo_n : lh_n (lg_lh (s_log s)) = Z.of_nat (length bs);
  lo_block : take (length bs) (lh_block (lg_lh (s_log s))) = bs;
}.
(** Nobody uses the log's blocks from [i] on. *)
Definition unused_from (start i n : Z) (s : kst) : Prop :=
  ∀ j, i ≤ j < n → owner s (start + j + 1) = None ∧ ref s (start + j + 1) = 0.

Section loops.
Variables (start : Z) (bs : list Z).
Hypothesis Harea : area_ok start bs.
Local Abbreviation n := (Z.of_nat (length bs)).
Definition bs_at (i : Z) : Z := nth (Z.to_nat i) bs 0.

Lemma bs_at_in i : 0 ≤ i < n → bs_at i ∈ bs.
Proof. clear Hwait. intros Hi. unfold bs_at. apply list_elem_of_In, nth_In. lia. Qed.

Lemma bs_at_inj i j : 0 ≤ i < n → 0 ≤ j < n → bs_at i = bs_at j → i = j.
Proof.
  intros Hi Hj E. unfold bs_at in E. apply Z2Nat.inj; [lia|lia|].
  destruct (lookup_lt_is_Some_2 bs (Z.to_nat i)) as [x Hx]; [lia|].
  destruct (lookup_lt_is_Some_2 bs (Z.to_nat j)) as [y Hy]; [lia|].
  rewrite !nth_lookup, Hx, Hy in E. simpl in E. subst y. by apply (NoDup_lookup bs _ _ x); [apply Harea| |].
Qed.

Lemma bs_at_seq : bs_at <$> seqZ 0 n = bs.
Proof.
  apply list_eq. intros i. rewrite list_lookup_fmap. destruct (decide (i < length bs)%nat) as [Hi|Hi].
  - rewrite lookup_seqZ_lt by lia. simpl. unfold bs_at. rewrite Z.add_0_l, Nat2Z.id.
    destruct (lookup_lt_is_Some_2 bs i Hi) as [x Hx]. by rewrite nth_lookup, Hx.
  - rewrite lookup_seqZ_ge by lia. by rewrite lookup_ge_None_2 by lia.
Qed.

Lemma area_at i : 0 ≤ i < LOGSIZE → u32 (start + i + 1) = start + i + 1.
Proof. intros. destruct (ao_start _ _ Harea). apply u32_small. lia. Qed.
Lemma area_ne i b : 0 ≤ i < LOGSIZE → b ∈ bs → start + i ≠ b.
Proof. intros Hi Hb. destruct (ao_range _ _ Harea b Hb). lia. Qed.

Lemma logs_block s i : logs start bs s → 0 ≤ i < n → lh_block_at i s = bs_at i.
Proof. clear Hwait.
  intros Hl Hi. assert (nth (Z.to_nat i) (lh_block (lg_lh (s_log s))) 0 = bs_at i) as E.
  { unfold bs_at. pose proof (lookup_take_lt (lh_block (lg_lh (s_log s))) (length bs) (Z.to_nat i)) as Et.
    rewrite (lo_block _ _ _ Hl) in Et. by rewrite !nth_lookup, Et by lia. }
  unfold lh_block_at. rewrite E. apply u32_small. destruct (ao_range _ _ Harea (bs_at i)); [by apply bs_at_in|lia].
Qed.

Lemma logs_rest s s' : rest s' = rest s → logs start bs s → logs start bs s'.
Proof. intros E [H1 H2 H3 H4]. apply rest_log in E. constructor; by rewrite E. Qed.

Lemma write_log_loop (k fuel : nat) tail s l :
  ready s l → logs start bs s → 0 ≤ tail → tail + Z.of_nat k = n → (k < fuel)%nat →
  unused_from start tail n s → (∀ b, b ∈ bs → owner s b = None ∧ 0 < ref s b < 2 ^ 30) → 0 < free s →
  ∃ s', loop fuel write_log_turn tail s = Ok tt s' ∧
    stepped s ((λ i, (start + i + 1, blk s (bs_at i))) <$> seqZ tail (Z.of_nat k)) [] s'.
Proof.
  pose proof (ao_len _ _ Harea) as Hmax.
  revert fuel tail s l. induction k as [|k IH]; intros [|fuel] tail s l Hrd Hlo Htl Hk Hf Hun Hbs Hfree; try lia; cbn [loop].
  - exists s. split; [|by apply (stepped_refl s l)]. unfold write_log_turn. unfold mbind, M_bind, gets.
    rewrite (lo_n _ _ _ Hlo). by replace (tail <? n) with false by lia.
  - destruct (Hun tail) as [Ho Hr]; [lia|]. destruct (Hbs (bs_at tail)) as [Hob Hrb]; [apply bs_at_in; lia|].
    destruct (write_log_turn_spec s l tail (start + tail + 1) (bs_at tail) Hrd (lo_dev _ _ _ Hlo)) as (s1 & H1 & S1); try done.
    { rewrite (lo_n _ _ _ Hlo). lia. }
    { rewrite (lo_start _ _ _ Hlo). apply area_at. lia. }
    { apply logs_block; [done|lia]. }
    { rewrite <- Z.add_assoc. apply area_ne; [lia|]. apply bs_at_in. lia. }
    destruct (sp_ready _ _ _ _ S1) as [l1 R1].
    destruct (IH fuel (tail + 1) s1 l1 R1) as (s2 & H2 & S2); try lia.
    { apply (logs_rest s); [apply S1|done]. }
    { intros j Hj. rewrite (sp_owner _ _ _ _ S1), (sp_ref _ _ _ _ S1), cnt_nil, Z.sub_0_r. apply Hun. lia. }
    { intros b Hb. rewrite (sp_owner _ _ _ _ S1), (sp_ref _ _ _ _ S1), cnt_nil, Z.sub_0_r. by apply Hbs. }
    { pose proof (sp_free _ _ _ _ S1). lia. }
    exists s2. split; [by rewrite (bind_ok _ _ _ _ _ H1)|]. rewrite seqZ_cons by lia. rewrite fmap_cons.
    replace (Z.succ tail) with (tail + 1) by lia. replace (Z.pred (Z.of_nat (S k))) with (Z.of_nat k) by lia.
    eassert (((λ i, (start + i + 1, blk s (bs_at i))) <$> seqZ (tail + 1) (Z.of_nat k)) = _) as ->.
    2:{ apply (stepped_trans s [_] [] s1 _ [] s2); [intros ? []%elem_of_nil|done|exact S2]. }
    apply list_fmap_ext. intros _ i Hi%list_elem_of_lookup_2%elem_of_seqZ. f_equal.
    rewrite (sp_blk _ _ _ _ S1), after_one_ne; [done|]. rewrite <- Z.add_assoc. apply not_eq_sym, area_ne; [lia|].
    apply bs_at_in. lia.
Qed.

Lemma install_loop (rec : bool) (k fuel : nat) tail s l :
  ready s l → logs start bs s → 0 ≤ tail → tail + Z.of_nat k = n → (k < fuel)%nat →
  unused_from start tail n s →
  (∀ i, tail ≤ i < n → owner s (bs_at i) = None ∧ (if rec then 0 else 1) ≤ ref s (bs_at i) < 2 ^ 30) →
  (if rec then 2 ≤ free s else 0 < free s) →
  ∃ s', loop fuel (install_turn rec) tail s = Ok tt s' ∧
    stepped s ((λ i, (bs_at i, blk s (start + i + 1))) <$> seqZ tail (Z.of_nat k))
      (if rec then [] else bs_at <$> seqZ tail (Z.of_nat k)) s'.
Proof.
  pose proof (ao_len _ _ Harea) as Hmax.
  revert fuel tail s l. induction k as [|k IH]; intros [|fuel] tail s l Hrd Hlo Htl Hk Hf Hun Hbs Hfree; try lia; cbn [loop].
  - exists s. split; [|destruct rec; by apply (stepped_refl s l)]. unfold install_turn. unfold mbind, M_bind, gets.
    rewrite (lo_n _ _ _ Hlo). by replace (tail <? n) with false by lia.
  - destruct (Hun tail) as [Ho Hr]; [lia|]. destruct (Hbs tail) as [Hob Hrb]; [lia|].
    destruct (install_turn_spec rec s l tail (start + tail + 1) (bs_at tail) Hrd (lo_dev _ _ _ Hlo)) as (s1 & H1 & S1); try done.
    { rewrite (lo_n _ _ _ Hlo). lia. }
    { rewrite (lo_start _ _ _ Hlo). apply area_at. lia. }
    { apply logs_block; [done|lia]. }
    { rewrite <- Z.add_assoc. apply area_ne; [lia|]. apply bs_at_in. lia. }
    { destruct rec; lia. }
    { destruct rec; lia. }
    destruct (sp_ready _ _ _ _ S1) as [l1 R1].
    assert (∀ m, m ≠ bs_at tail → ref s1 m = ref s m) as Href.
    { intros m Hm. rewrite (sp_ref _ _ _ _ S1). destruct rec; [rewrite cnt_nil; lia|]. rewrite cnt_one, decide_False by done. lia. }
    destruct (IH fuel (tail + 1) s1 l1 R1) as (s2 & H2 & S2); try lia.
    { apply (logs_rest s); [apply S1|done]. }
    { intros j Hj. rewrite (sp_owner _ _ _ _ S1), Href; [apply Hun; lia|].
      rewrite <- Z.add_assoc. apply area_ne; [lia|]. apply bs_at_in. lia. }
    { intros i Hi. rewrite (sp_owner _ _ _ _ S1), Href; [apply Hbs; lia|]. intros E. apply bs_at_inj in E; lia. }
    { pose proof (sp_free _ _ _ _ S1). destruct rec; lia. }
    exists s2. split; [by rewrite (bind_ok _ _ _ _ _ H1)|]. rewrite seqZ_cons by lia. rewrite !fmap_cons.
    replace (Z.succ tail) with (tail + 1) by lia. replace (Z.pred (Z.of_nat (S k))) with (Z.of_nat k) by lia.
    eassert (((λ i, (bs_at i, blk s (start + i + 1))) <$> seqZ (tail + 1) (Z.of_nat k)) = _) as ->.
    2:{ destruct rec.
        - apply (stepped_trans s [_] [] s1 _ [] s2); [intros ? []%elem_of_nil|done|exact S2].
        - apply (stepped_trans s [_] [bs_at tail] s1 _ _ s2); [|done|exact S2].
          intros u ->%list_elem_of_singleton (i & E & Hi%elem_of_seqZ)%list_elem_of_fmap. apply bs_at_inj in E; lia. }
    apply list_fmap_ext. intros _ i Hi%list_elem_of_lookup_2%elem_of_seqZ. f_equal.
    rewrite (sp_blk _ _ _ _ S1), after_one_ne; [done|]. rewrite <- Z.add_assoc. apply area_ne; [lia|].
    apply bs_at_in. lia.
Qed.

(** ** The disk during a commit *)

(** The three steps of a commit as writes, and the header at the end. *)
Definition log_writes (V : Z → list Z) : list (Z * list Z) := (λ i, (start + i + 1, V (bs_at i))) <$> seqZ 0 n.
Definition home_writes (V : Z → list Z) : list (Z * list Z) := (λ i, (bs_at i, V (bs_at i))) <$> seqZ 0 n.

Lemma home_targets V : (home_writes V).*1 = bs.
Proof. unfold home_writes. rewrite <- list_fmap_compose. apply bs_at_seq. Qed.

Lemma log_targets V m : m ∈ (log_writes V).*1 → start < m ≤ start + n.
Proof.
  unfold log_writes. rewrite <- list_fmap_compose. intros (i & -> & Hi%elem_of_seqZ)%list_elem_of_fmap. simpl. lia.
Qed.

Lemma log_written D V i : 0 ≤ i < n → after D (log_writes V) (start + i + 1) = V (bs_at i).
Proof.
  intros Hi. apply after_in.
  - unfold log_writes. rewrite <- list_fmap_compose. apply NoDup_fmap_2_strong; [|apply NoDup_seqZ]. simpl. lia.
  - apply list_elem_of_fmap. exists i. split; [done|]. apply elem_of_seqZ. lia.
Qed.

Definition new_disk (D V : Z → list Z) (m : Z) : list Z := if decide (m ∈ bs) then V m else D m.

Lemma home_written D V m : after D (home_writes V) m = new_disk D V m.
Proof.
  unfold new_disk. case_decide as Hm.
  - apply after_in; [rewrite home_targets; apply Harea|].
    rewrite <- bs_at_seq in Hm. apply list_elem_of_fmap in Hm as (i & -> & Hi). apply list_elem_of_fmap. by exists i.
  - apply after_other. by rewrite home_targets.
Qed.

Section commit.
Variables (D V : Z → list Z) (h1 h2 : list Z).
Hypothesis Hclean : head_n start D = 0.
Hypothesis Hh1 : s32 (get32 h1 0) = n.
Hypothesis Hh1' : ∀ i, 0 ≤ i < n → u32 (s32 (get32 h1 (4 + 4 * i))) = bs_at i.
Hypothesis Hh2 : s32 (get32 h2 0) = 0.
Definition commit_writes : list (Z * list Z) := log_writes V ++ [(start, h1)] ++ home_writes V ++ [(start, h2)].

Local Abbreviation D2 := (after D (log_writes V ++ [(start, h1)])).

Lemma D2_start : D2 start = h1.
Proof. rewrite after_app. apply after_one_eq. Qed.
Lemma D2_head : head_n start D2 = n.
Proof. unfold head_n. by rewrite D2_start. Qed.
Lemma D2_blocks : head_blocks start D2 = bs.
Proof.
  unfold head_blocks. rewrite D2_head. etrans; [|apply bs_at_seq]. apply list_fmap_ext.
  intros _ i Hi%list_elem_of_lookup_2%elem_of_seqZ. unfold head_block. rewrite D2_start. apply Hh1'. lia.
Qed.
Lemma D2_pending : pending start D2 = home_writes V.
Proof.
  unfold pending. rewrite D2_head. apply list_fmap_ext. intros _ i Hi%list_elem_of_lookup_2%elem_of_seqZ.
  assert (D2 (start + i + 1) = V (bs_at i)) as ->.
  { rewrite after_app, after_one_ne by lia. apply log_written. lia. }
  f_equal.
  unfold head_block. rewrite D2_start. apply Hh1'. lia.
Qed.

Lemma outside_ne m : outside start m → m ≠ start ∧ ¬ (start < m ≤ start + n).
Proof. clear Hwait. intros Hm. pose proof (ao_len _ _ Harea). unfold outside, LOGSIZE, MAXOPBLOCKS in *. lia. Qed.

Lemma D2_outside m : outside start m → D2 m = D m.
Proof.
  intros [Hs Hl]%outside_ne. rewrite after_app, after_one_ne by done. apply after_other. by intros Hin%log_targets.
Qed.

Lemma D2_new m : outside start m → after D2 (home_writes V) m = new_disk D V m.
Proof. intros Hm. rewrite home_written. unfold new_disk. case_decide; [done|]. by apply D2_outside. Qed.

(** A crash before the header is written loses the transaction, a crash after it does not. *)
Lemma commit_prefix k :
  (∀ m, outside start m → logical start (after D (take k commit_writes)) m = D m) ∨
  (∀ m, outside start m → logical start (after D (take k commit_writes)) m = new_disk D V m).
Proof.
  unfold commit_writes. destruct (decide (k ≤ length (log_writes V))%nat) as [Hk|Hk]; [left|right]; intros m Hm.
  - rewrite take_app_le by done. set (ws := take k _). destruct (outside_ne m Hm).
    assert (∀ x, ¬ (start < x ≤ start + n) → after D ws x = D x) as Ho.
    { intros x Hx. apply after_other. intros Hin. apply Hx. apply (log_targets V).
      rewrite <- (take_drop k (log_writes V)), fmap_app. apply elem_of_app. by left. }
    rewrite logical_clean; [by apply Ho|]. unfold head_n. rewrite Ho by lia. exact Hclean.
  - rewrite app_assoc, take_app_ge by (rewrite length_app; simpl; lia). set (k' := (k - _)%nat).
    rewrite after_app. destruct (decide (k' ≤ length (home_writes V))%nat) as [Hk'|Hk'].
    + rewrite take_app_le by done. rewrite <- D2_pending, logical_prefix; rewrite ?D2_head, ?D2_blocks; try apply Harea.
      unfold logical. rewrite D2_pending. by apply D2_new.
    + rewrite take_ge by (rewrite length_app; simpl; lia). rewrite after_app, logical_clean.
      * rewrite after_one_ne by (by apply outside_ne). by apply D2_new.
      * unfold head_n. by rewrite after_one_eq.
Qed.

Lemma commit_final m : outside start m → after D commit_writes m = new_disk D V m.
Proof.
  intros Hm. unfold commit_writes. rewrite app_assoc, after_app, after_app, after_one_ne by (by apply outside_ne). by apply D2_new.
Qed.
Lemma commit_clean : head_n start (after D commit_writes) = 0.
Proof. unfold head_n, commit_writes. by rewrite !app_assoc, after_app, after_one_eq. Qed.
End commit.

(** ** Running commit *)

Record tx_ok (s : kst) (l : list Z) : Prop := {
  tx_ready : ready s l;
  tx_logs : logs start bs s;
  tx_pinned b : b ∈ bs → owner s b = None ∧ 0 < ref s b < 2 ^ 30;
  tx_area : unused_from start (-1) n s;
  tx_free : 0 < free s;
  tx_clean : head_n start (d_block (s_disk s)) = 0;
  tx_len : Z.of_nat (length (d_block (s_disk s) start)) = BSIZE;
}.

Lemma tx_header s h : logs start bs s → h = lg_lh (s_log s) → ∀ d, Z.of_nat (length d) = BSIZE →
  let d' := header d (lh_n h) (lh_block h) in
  s32 (get32 d' 0) = n ∧ (∀ i, 0 ≤ i < n → u32 (s32 (get32 d' (4 + 4 * i))) = bs_at i) ∧ Z.of_nat (length d') = BSIZE.
Proof.
  intros Hlo -> d Hd d'. pose proof (ao_len _ _ Harea) as Hmax. unfold LOGSIZE, MAXOPBLOCKS, BSIZE in *.
  unfold d'. rewrite (lo_n _ _ _ Hlo). split_and!.
  - apply header_n; lia.
  - intros i Hi. destruct (lookup_lt_is_Some_2 bs (Z.to_nat i)) as [b Hb]; [lia|].
    assert (bs_at i = b) as Eb by (unfold bs_at; by rewrite nth_lookup, Hb).
    replace i with (Z.of_nat (Z.to_nat i)) at 1 by lia. rewrite Eb. apply header_block; [lia|lia| |].
    + rewrite <- (lo_block _ _ _ Hlo), lookup_take_lt in Hb by lia. done.
    + subst b. apply Harea. apply bs_at_in. lia.
  - unfold header. by rewrite length_put_blocks, length_put32.
Qed.

Lemma logs_len s : logs start bs s → lh_n (lg_lh (s_log s)) ≤ Z.of_nat (length (lh_block (lg_lh (s_log s)))).
Proof.
  intros Hlo. rewrite (lo_n _ _ _ Hlo). pose proof (f_equal length (lo_block _ _ _ Hlo)) as E. rewrite length_take in E. lia.
Qed.

Lemma stepped_log f s ws us s' : stepped s ws us s' → stepped (upd_log f s) ws us (upd_log f s').
Proof.
  intros [[l' R] E K T Dk B F O Fr]. constructor; try done.
  - exists l'. destruct R. by constructor; [apply cache_ok_log| |].
  - unfold rest in *. injection E. intros. simpl. congruence.
Qed.

Lemma start_out : start ∉ bs.
Proof. intros Hin. destruct (area_ne 0 start); [done|done|lia]. Qed.
Lemma start_u32 : u32 start = start.
Proof. destruct (ao_start _ _ Harea). apply u32_small. assert (0 ≤ LOGSIZE) by done. lia. Qed.

(** Up to the write of the header, which makes the transaction durable. *)
Lemma commit_log s l : tx_ok s l →
  let h1 := header (d_block (s_disk s) start) n (lh_block (lg_lh (s_log s))) in
  ∃ s', (write_log;; write_head) s = Ok tt s' ∧ stepped s (log_writes (blk s) ++ [(start, h1)]) [] s'.
Proof.
  intros [Hrd Hlo Hpin Hun Hfree Hcl Hlen] h1. pose proof (ao_len _ _ Harea) as Hmax.
  destruct (write_log_loop (length bs) log_fuel 0 s l Hrd Hlo) as (s1 & H1 & S1); try lia.
  { unfold log_fuel. lia. }
  { intros j Hj. apply Hun. lia. }
  { done. }
  destruct (sp_ready _ _ _ _ S1) as [l1 R1]. assert (logs start bs s1) as Hlo1 by (apply (logs_rest s); [apply S1|done]).
  destruct (Hun (-1)) as [Ho Hr]; [lia|]. replace (start + -1 + 1) with start in Ho, Hr by lia.
  destruct (write_head_spec s1 l1 start R1 (lo_dev _ _ _ Hlo1)) as (s2 & H2 & S2).
  { rewrite (lo_start _ _ _ Hlo1). apply start_u32. }
  { by rewrite (sp_owner _ _ _ _ S1). }
  { by rewrite (sp_ref _ _ _ _ S1), cnt_nil, Hr. }
  { pose proof (sp_free _ _ _ _ S1). lia. }
  { rewrite (lo_n _ _ _ Hlo1). lia. }
  { by apply logs_len. }
  exists s2. split; [by rewrite (bind_ok _ _ _ _ _ H1)|].
  assert (blk s1 start = d_block (s_disk s) start) as Ehd.
  { rewrite (sp_blk _ _ _ _ S1), after_other; [by apply (unused_clean dev s l); [apply Hrd|]|].
    intros Hin%(log_targets (blk s)). lia. }
  rewrite Ehd, (lo_n _ _ _ Hlo1) in S2. rewrite (rest_log _ _ (sp_rest _ _ _ _ S1)) in S2.
  apply (stepped_trans s _ [] s1 _ [] s2); [intros ? []%elem_of_nil|exact S1|exact S2].
Qed.

(** The rest: the blocks to their places, and the header cleared. *)
Lemma commit_install s l h1 s2 : tx_ok s l → stepped s (log_writes (blk s) ++ [(start, h1)]) [] s2 →
  ∃ s', (install_trans false;; modify (upd_lh (set_lh_n 0));; write_head) s2 = Ok tt s' ∧
    stepped (upd_lh (set_lh_n 0) s) (commit_writes (blk s) h1 (header h1 0 (lh_block (lg_lh (s_log s))))) bs s'.
Proof.
  intros [Hrd Hlo Hpin Hun Hfree Hcl Hlen] S12. pose proof (ao_len _ _ Harea) as Hmax.
  destruct (Hun (-1)) as [Ho Hr]; [lia|]. replace (start + -1 + 1) with start in Ho, Hr by lia.
  destruct (sp_ready _ _ _ _ S12) as [l2 R2]. assert (logs start bs s2) as Hlo2 by (apply (logs_rest s); [apply S12|done]).
  destruct (install_loop false (length bs) log_fuel 0 s2 l2 R2 Hlo2) as (s3 & H3 & S3); try lia.
  { unfold log_fuel. lia. }
  { intros j Hj. rewrite (sp_owner _ _ _ _ S12), (sp_ref _ _ _ _ S12), cnt_nil, Z.sub_0_r. apply Hun. lia. }
  { intros i Hi. rewrite (sp_owner _ _ _ _ S12), (sp_ref _ _ _ _ S12), cnt_nil, Z.sub_0_r.
    destruct (Hpin (bs_at i)); [by apply bs_at_in|]. split; [done|lia]. }
  { pose proof (sp_free _ _ _ _ S12). lia. }
  rewrite bs_at_seq in S3.
  assert (((λ i, (bs_at i, blk s2 (start + i + 1))) <$> seqZ 0 n) = home_writes (blk s)) as E3.
  { apply list_fmap_ext. intros _ i Hi%list_elem_of_lookup_2%elem_of_seqZ. f_equal.
    rewrite (sp_blk _ _ _ _ S12), after_app, after_one_ne by lia. apply log_written. lia. }
  rewrite E3 in S3. assert (s_log s3 = s_log s) as L3 by (rewrite (rest_log _ _ (sp_rest _ _ _ _ S3)); apply rest_log, S12).
  assert (stepped s ((log_writes (blk s) ++ [(start, h1)]) ++ home_writes (blk s)) bs s3) as S123.
  { apply (stepped_trans s _ [] s2 _ bs s3); [intros ? []%elem_of_nil|done|done]. }
  apply (stepped_log (λ g, set_lg_lh (set_lh_n 0 (lg_lh g)) g)) in S123.
  change (upd_log (λ g, set_lg_lh (set_lh_n 0 (lg_lh g)) g)) with (upd_lh (set_lh_n 0)) in S123.
  set (s3' := upd_lh (set_lh_n 0) s3) in *. destruct (sp_ready _ _ _ _ S123) as [l3 R3].
  destruct (write_head_spec s3' l3 start R3) as (s4 & H4 & S4); try (simpl; rewrite L3).
  { apply Hlo. }
  { rewrite (lo_start _ _ _ Hlo). apply start_u32. }
  { by rewrite (sp_owner _ _ _ _ S123). }
  { rewrite (sp_ref _ _ _ _ S123). unfold cnt. rewrite decide_False by apply start_out. rewrite Z.sub_0_r. exact Hr. }
  { pose proof (sp_free _ _ _ _ S123). change (free (upd_lh _ s)) with (free s) in *. lia. }
  { done. }
  { lia. }
  exists s4. split; [by rewrite (bind_ok _ _ _ _ _ H3); erewrite bind_ok by reflexivity|].
  assert (blk s3' start = h1) as Ehd3.
  { rewrite (sp_blk _ _ _ _ S123), after_app. rewrite after_other; [by rewrite after_app, after_one_eq|].
    rewrite home_targets. apply start_out. }
  unfold commit_writes. rewrite (app_assoc (log_writes (blk s))), app_assoc. rewrite <- (app_nil_r bs).
  eapply stepped_trans; [intros ? _ []%elem_of_nil|exact S123|]. rewrite Ehd3 in S4. simpl in S4. by rewrite L3 in S4.
Qed.

Lemma commit_run s l : 0 < n → tx_ok s l →
  ∃ h1 h2 s', commit s = Ok tt s' ∧ s32 (get32 h1 0) = n ∧ (∀ i, 0 ≤ i < n → u32 (s32 (get32 h1 (4 + 4 * i))) = bs_at i) ∧
    s32 (get32 h2 0) = 0 ∧ stepped (upd_lh (set_lh_n 0) s) (commit_writes (blk s) h1 h2) bs s'.
Proof.
  intros Hn Htx. destruct (commit_log s l Htx) as (s2 & H2 & S2). set (h1 := header _ _ _) in *.
  destruct (commit_install s l h1 s2 Htx S2) as (s4 & H4 & S4). pose proof (tx_logs _ _ Htx) as Hlo.
  destruct (tx_header s _ Hlo eq_refl (d_block (s_disk s) start)) as (Hh & Hh' & Hl1); [apply Htx|].
  rewrite (lo_n _ _ _ Hlo) in Hh, Hh', Hl1. exists h1, (header h1 0 (lh_block (lg_lh (s_log s)))), s4.
  split_and!; try done.
  - unfold commit. erewrite bind_ok by reflexivity. rewrite (lo_n _ _ _ Hlo). replace (n >? 0) with true by lia.
    rewrite <- (bind_assoc write_log). by rewrite (bind_ok _ _ _ _ _ H2).
  - apply header_n; [fold h1 in Hl1; by rewrite Hl1|done].
Qed.
End loops.

(** ** Recovery *)

Lemma head_loop data (k fuel : nat) i s :
  let h := lg_lh (s_log s) in
  0 ≤ i → i + Z.of_nat k = lh_n h → (k < fuel)%nat → lh_n h ≤ Z.of_nat (length (lh_block h)) →
  ∃ bl, loop fuel (head_turn data) i s = Ok tt (upd_lh (set_lh_block bl) s) ∧
    (∀ j : nat, Z.of_nat j < i → bl !! j = lh_block h !! j) ∧
    (∀ j : nat, i ≤ Z.of_nat j < lh_n h → bl !! j = Some (s32 (get32 data (4 + 4 * Z.of_nat j)))).
Proof.
  revert fuel i s. induction k as [|k IH]; intros [|fuel] i s h Hi Hk Hf Hlen; try lia; cbn [loop].
  - exists (lh_block h). split_and!; [|done|lia].
    unfold head_turn. unfold mbind, M_bind, gets. fold h. replace (i <? lh_n h) with false by lia.
    unfold mret, M_ret. f_equal. unfold upd_lh, upd_log, h. by destruct s as [? ? ? ? ? ? [? ? ? ? ? ? []] ? ? ? ? ? ? ? ?].
  - set (v := s32 (get32 data (4 + 4 * i))). set (s1 := upd_lh (λ h, set_lh_block (<[Z.to_nat i:=v]> (lh_block h)) h) s).
    assert (head_turn data i s = Ok (inl (i + 1)) s1) as Ht.
    { unfold head_turn. erewrite bind_ok by reflexivity. fold h. by replace (i <? lh_n h) with true by lia. }
    destruct (IH fuel (i + 1) s1) as (bl & H1 & Hlt & Hge); [lia|simpl; fold h; lia|lia|simpl; fold h; by rewrite length_insert|].
    exists bl. rewrite (bind_ok _ _ _ _ _ Ht). split_and!; [exact H1| |].
    + intros j Hj. rewrite Hlt by lia. simpl. rewrite list_lookup_insert_ne by lia. done.
    + intros j Hj. destruct (decide (Z.of_nat j = i)) as [Ej|Ej]; [|apply Hge; simpl; fold h; lia].
      rewrite Hlt by lia. simpl. fold h. replace (Z.to_nat i) with j by lia. rewrite list_lookup_insert_eq by lia.
      unfold v. by rewrite Ej.
Qed.

Lemma s32_of_u32 x b : u32 (s32 x) = b → b < 2 ^ 31 → s32 x = b.
Proof.
  assert (- 2 ^ 31 ≤ s32 x < 2 ^ 31) as Hx by (pose proof (Z.mod_pos_bound (x + 2 ^ 31) (2 ^ 32) eq_refl); unfold s32; lia).
  intros <- Hb. destruct (decide (0 ≤ s32 x)); [by rewrite u32_small by lia|]. revert Hb.
  unfold u32. rewrite <- (Z.mod_add _ 1), Z.mod_small by lia. lia.
Qed.

Lemma read_head_spec s l start :
  let D := d_block (s_disk s) in let bs := head_blocks start D in
  ready s l → lg_dev (s_log s) = dev → lg_start (s_log s) = start → area_ok start bs → owner s start = None → ref s start = 0 →
  0 < free s → 0 ≤ head_n start D ≤ LOGSIZE → Z.of_nat (length (lh_block (lg_lh (s_log s)))) = LOGSIZE →
  ∃ h s', read_head s = Ok tt s' ∧ logs start bs (upd_lh (λ _, h) s) ∧ stepped (upd_lh (λ _, h) s) [] [] s'.
Proof.
  intros D bs [Hc Ht Hm] Hdev Hst Harea Ho Hr Hfree Hn Hlen.
  destruct (bread_took dev Hwait s l start Hc Ho) as (i & s1 & H1 & T1); [lia|lia|].
  destruct (took_rest _ _ _ _ _ T1) as (E1 & K1 & D1). pose proof (tk_grab _ _ _ _ _ _ T1) as G1.
  assert (s_log s1 = s_log s) as L1 by (by apply rest_log).
  pose proof (grabbed_data s1 l i start (tk_ok _ _ _ _ _ _ T1) G1) as Hd.
  rewrite (tk_blk _ _ _ _ _ _ T1), (unused_clean dev s l start Hc Hr) in Hd. fold D in Hd.
  destruct (head_loop (D start) (Z.to_nat (head_n start D)) log_fuel 0 (upd_lh (set_lh_n (head_n start D)) s1))
    as (bl & H2 & _ & Hbl); try (simpl; rewrite ?L1; lia).
  { unfold log_fuel. lia. }
  set (h := Logheader (head_n start D) bl). set (s2 := upd_lh (λ _, h) s1).
  destruct (brelse_grabbed dev s2 l i start (cache_ok_log dev _ _ _ (tk_ok _ _ _ _ _ _ T1))) as (s3 & l3 & H3 & R3).
  { by simpl; rewrite K1. }
  { destruct G1. by constructor. }
  { intros _. change (blk s1 start = d_block (s_disk s1) start). rewrite (tk_blk _ _ _ _ _ _ T1), D1. by apply (unused_clean dev s l). }
  destruct (released_rest _ _ _ _ _ _ _ R3) as [E3 D3]. pose proof (re_kern _ _ _ _ _ _ _ _ R3) as K3. simpl in K3.
  exists h, s3. split_and!.
  - unfold read_head. erewrite bind_ok by reflexivity. rewrite Hdev, Hst.
    replace (u32 start) with start by (symmetry; by apply (start_u32 start bs)). rewrite (bind_ok _ _ _ _ _ H1).
    erewrite bind_ok by reflexivity. rewrite Hd. erewrite bind_ok by reflexivity. fold (head_n start D).
    rewrite (bind_ok _ _ _ _ _ H2). exact H3.
  - constructor; [done|done| |].
    + simpl. unfold bs, head_blocks. rewrite length_fmap, length_seqZ. lia.
    + unfold bs, head_blocks. rewrite length_fmap, length_seqZ. simpl. apply list_eq. intros j.
      destruct (decide (Z.of_nat j < head_n start D)) as [Hj|Hj].
      * rewrite lookup_take_lt by lia. rewrite Hbl by (simpl; lia). rewrite list_lookup_fmap, lookup_seqZ_lt by lia. simpl. f_equal.
        rewrite Z.add_0_l. apply s32_of_u32; [done|]. apply (ao_range _ _ Harea). unfold bs, head_blocks.
        apply list_elem_of_fmap. exists (Z.of_nat j). split; [done|]. apply elem_of_seqZ. lia.
      * rewrite lookup_take_ge by lia. rewrite lookup_ge_None_2; [done|]. rewrite length_fmap, length_seqZ. lia.
  - constructor.
    + exists l3. constructor; [apply R3|apply (kframe_ok _ _ K3); by rewrite K1|].
      destruct (kframe_fields _ _ K3) as (_ & -> & _). by rewrite K1.
    + rewrite E3. unfold rest in *. injection E1. intros. simpl. congruence.
    + change (kframe (s_kern s) (s_kern s3)). by rewrite <- K1.
    + rewrite D3, app_nil_r. simpl. by rewrite D1.
    + intros m. rewrite D3. simpl. by rewrite D1.
    + intros m. rewrite (re_blk _ _ _ _ _ _ _ _ R3). exact (tk_blk _ _ _ _ _ _ T1 m).
    + intros m. rewrite cnt_nil, (re_ref _ _ _ _ _ _ _ _ R3). change (ref s2) with (ref s1). change (ref (upd_lh _ s)) with (ref s).
      rewrite !(tk_ref _ _ _ _ _ _ T1). repeat case_decide; subst; try done; lia.
    + intros m. rewrite (re_owner _ _ _ _ _ _ _ _ R3). change (owner s2) with (owner s1). change (owner (upd_lh _ s)) with (owner s).
      rewrite (tk_owner _ _ _ _ _ _ T1). repeat case_decide; subst; done.
    + rewrite (re_free _ _ _ _ _ _ _ _ R3). change (free s2) with (free s1). change (free (upd_lh _ s)) with (free s).
      change (ref s2) with (ref s1).
      rewrite (tk_free _ _ _ _ _ _ T1), (tk_ref _ _ _ _ _ _ T1), decide_True, Hr by done.
      change (zero 0) with 1. change (zero (0 + 1 - 1)) with 1. lia.
Qed.

Lemma owner_unused s l m : cache_ok s l → ref s m = 0 → owner s m = None.
Proof. clear Hwait.
  intros Hc. unfold Bio.ref, Bio.owner. destruct (cached dev s m) as [i|] eqn:E; [|done]. intros Hr.
  apply cached_holds in E as [Hi _]. case_eq (sl_locked (b_lock (buf_at i s)) =? 0); [done|]. intros Hl.
  pose proof (co_held _ _ _ Hc i Hi). lia.
Qed.

(** The writes of a recovery, and that they happen. *)
Lemma recover_run s l start :
  let D := d_block (s_disk s) in let bs := head_blocks start D in
  ready s l → lg_dev (s_log s) = dev → lg_start (s_log s) = start → area_ok start bs → (∀ m, ref s m = 0) → 2 ≤ free s →
  0 ≤ head_n start D → Z.of_nat (length (lh_block (lg_lh (s_log s)))) = LOGSIZE → Z.of_nat (length (D start)) = BSIZE →
  ∃ h h2 s', recover_from_log s = Ok tt s' ∧ lh_n h = 0 ∧ s32 (get32 h2 0) = 0 ∧
    stepped (upd_lh (λ _, h) s) (pending start D ++ [(start, h2)]) [] s'.
Proof.
  intros D bs Hrd Hdev Hst Harea Hquiet Hfree Hn Hlen Hbsz. pose proof (rd_cache _ _ Hrd) as Hc.
  pose proof (ao_len _ _ Harea) as Hmax. assert (Z.of_nat (length bs) = head_n start D) as Hbl.
  { unfold bs, head_blocks. rewrite length_fmap, length_seqZ. lia. }
  destruct (read_head_spec s l start Hrd Hdev Hst Harea) as (h & s1 & H1 & Hlo & S1); try apply Hquiet; try done; try lia.
  { by apply (owner_unused s l). }
  { fold D. lia. }
  destruct (sp_ready _ _ _ _ S1) as [l1 R1]. assert (logs start bs s1) as Hlo1 by (apply (logs_rest _ _ _ _ (sp_rest _ _ _ _ S1)); done).
  assert (∀ m, ref s1 m = 0) as Hq1 by (intros m; rewrite (sp_ref _ _ _ _ S1), cnt_nil, Z.sub_0_r; apply Hquiet).
  pose proof (sp_free _ _ _ _ S1) as Hf1. change (free (upd_lh _ s)) with (free s) in Hf1.
  destruct (install_loop start bs Harea true (length bs) log_fuel 0 s1 l1 R1 Hlo1) as (s2 & H2 & S2); try lia.
  { unfold log_fuel. lia. }
  { intros j Hj. split; [|done]. by apply (owner_unused s1 l1); [apply R1|]. }
  { intros i Hi. rewrite Hq1. split; [|done]. by apply (owner_unused s1 l1); [apply R1|]. }
  assert (((λ i, (bs_at bs i, blk s1 (start + i + 1))) <$> seqZ 0 (Z.of_nat (length bs))) = pending start D) as E2.
  { unfold pending. rewrite Hbl. apply list_fmap_ext. intros _ i Hi%list_elem_of_lookup_2%elem_of_seqZ. f_equal.
    - unfold bs_at, bs, head_blocks. rewrite nth_lookup, list_lookup_fmap, lookup_seqZ_lt by lia. simpl. f_equal. lia.
    - rewrite (sp_blk _ _ _ _ S1). simpl after. apply (unused_clean dev s l); [done|apply Hquiet]. }
  rewrite E2 in S2. assert (stepped (upd_lh (λ _, h) s) (pending start D) [] s2) as S12.
  { apply (stepped_trans _ [] [] s1 _ [] s2); [intros ? []%elem_of_nil|exact S1|exact S2]. }
  apply (stepped_log (λ g, set_lg_lh (set_lh_n 0 (lg_lh g)) g)) in S12.
  set (s2' := upd_log _ s2) in S12. destruct (sp_ready _ _ _ _ S12) as [l2 R2].
  assert (s_log s2 = s_log s1) as L2 by (apply rest_log, S2).
  destruct (write_head_spec s2' l2 start R2) as (s3 & H3 & S3); try (simpl; rewrite L2).
  { apply Hlo1. }
  { rewrite (lo_start _ _ _ Hlo1). by apply (start_u32 start bs). }
  { rewrite (sp_owner _ _ _ _ S12). by apply (owner_unused s l). }
  { rewrite (sp_ref _ _ _ _ S12), cnt_nil, Z.sub_0_r. apply Hquiet. }
  { pose proof (sp_free _ _ _ _ S12) as Hf2. change (free (upd_log _ (upd_lh _ s))) with (free s) in Hf2. lia. }
  { done. }
  { lia. }
  assert (blk s2' start = D start) as Ed.
  { rewrite (sp_blk _ _ _ _ S12), after_other; [apply (unused_clean dev s l); [done|apply Hquiet]|].
    rewrite pending_targets. by apply (start_out start bs). }
  rewrite Ed in S3. simpl in S3. rewrite L2 in S3.
  exists (set_lh_n 0 h), (header (D start) 0 (lh_block (lg_lh (s_log s1)))), s3. split_and!; [|done| |].
  - unfold recover_from_log. rewrite (bind_ok _ _ _ _ _ H1), (bind_ok _ _ _ _ _ H2). erewrite bind_ok by reflexivity. exact H3.
  - apply header_n; [rewrite Hbsz; done|done].
  - apply (stepped_trans _ _ [] s2' _ [] s3); [intros ? []%elem_of_nil|exact S12|exact S3].
Qed.

(** ** log_write *)

Definition lg_held (s : kst) : kst := lset kv (noff_by 1 (s_kern s)) (lset log_lock true s).
Lemma lg_acquire s : lg_lock (s_log s) = false → lock_acquire log_lock s = Ok tt (lg_held s).
Proof. exact (lock_acquire_side log_lock s). Qed.
Lemma lg_release s : lg_lock (s_log s) = false → lock_release log_lock (lg_held s) = Ok tt s.
Proof. clear Hwait.
  intros Hl. rewrite (lock_release_side log_lock (lg_held s)) by done. f_equal. unfold lg_held.
  rewrite (kv_get_set (S := kst)). rewrite sl_comm, kv_set_set, sl_set_set, noff_back.
  destruct s as [? ? ? ? ? ? [] ? ? ? ? ? ? ? ?]. simpl in Hl. by subst.
Qed.

(** The position of a block in the header, or its length. *)
Definition position (b : Z) (bs : list Z) : nat :=
  match list_find (λ x, x = b) bs with Some (k, _) => k | None => length bs end.

Lemma absorb_loop start bs b (k fuel : nat) i s :
  area_ok start bs → logs start bs s → 0 ≤ i → i + Z.of_nat k = Z.of_nat (length bs) → (k < fuel)%nat →
  loop fuel (absorb_turn b) i s = Ok (i + Z.of_nat (position b (drop (Z.to_nat i) bs))) s.
Proof. clear Hwait.
  intros Harea Hlo. revert fuel i. induction k as [|k IH]; intros [|fuel] i Hi Hk Hf; try lia; cbn [loop];
    unfold absorb_turn; rewrite bind_assoc; erewrite bind_ok by reflexivity; rewrite (lo_n _ _ _ Hlo).
  - replace (i <? _) with false by lia. rewrite drop_ge by lia. erewrite bind_ok by reflexivity. unfold mret, M_ret. f_equal.
    unfold position. simpl. lia.
  - replace (i <? _) with true by lia. rewrite bind_assoc. erewrite bind_ok by reflexivity.
    rewrite (logs_block start bs Harea s i Hlo) by lia. erewrite bind_ok by reflexivity.
    destruct (lookup_lt_is_Some_2 bs (Z.to_nat i)) as [x Hx]; [lia|].
    assert (bs_at bs i = x) as -> by (unfold bs_at; by rewrite nth_lookup, Hx).
    rewrite (drop_S _ _ _ Hx). unfold position. rewrite list_find_cons.
    destruct (Z.eqb_spec x b) as [->|Hne]; [rewrite decide_True by done|rewrite decide_False by done].
    + unfold mret, M_ret. f_equal. lia.
    + rewrite IH by lia. f_equal. replace (Z.to_nat (i + 1)) with (S (Z.to_nat i)) by lia. unfold position.
      destruct (list_find _ (drop _ bs)) as [[j y]|]; simpl; lia.
Qed.

Lemma position_in b bs : b ∈ bs → bs !! position b bs = Some b.
Proof. clear Hwait.
  intros Hin. unfold position. destruct (list_find_elem_of (λ x, x = b) bs b Hin eq_refl) as [[k y] E].
  rewrite E. by apply list_find_Some in E as (? & -> & _).
Qed.
Lemma position_out b bs : b ∉ bs → position b bs = length bs.
Proof. clear Hwait.
  intros Hout. unfold position. destruct (list_find _ bs) as [[k y]|] eqn:E; [|done].
  apply list_find_Some in E as (Hk & -> & _). by apply list_elem_of_lookup_2 in Hk.
Qed.

Lemma pinned_log f s l n s' : pinned dev s l n s' → pinned dev s l n (upd_log f s').
Proof. clear Hwait.
  intros [P1 P2 P3 P4 P5 P6]. constructor; try done; [by apply cache_ok_log|].
  intros j m [G1 G2 G3]%P6. by constructor.
Qed.

(** The header with one more block. *)
Definition appended (b : Z) (n : nat) (h : logheader) : logheader :=
  set_lh_n (lh_n h + 1) (set_lh_block (<[n := s32 b]> (lh_block h)) h).

Lemma logs_pin start bs b s :
  logs start bs s → 0 ≤ b < 2 ^ 31 → Z.of_nat (length bs) < LOGSIZE → Z.of_nat (length (lh_block (lg_lh (s_log s)))) = LOGSIZE →
  logs start (bs ++ [b]) (upd_lh (appended b (length bs)) s).
Proof. clear Hwait.
  intros [H1 H2 H3 H4] Hb Hn Hlen. constructor; [done|done| |].
  - simpl. rewrite H3, length_app. simpl. lia.
  - rewrite length_app. simpl. replace (length bs + 1)%nat with (S (length bs)) by lia.
    rewrite (take_S_r _ _ b).
    + by rewrite take_insert_ge, H4 by lia.
    + rewrite list_lookup_insert_eq by lia. by rewrite s32_small by lia.
Qed.

Lemma log_write_spec start bs s l i b :
  cache_ok s l → area_ok start bs → logs start bs s → grabbed dev s i b → ref s b < 2 ^ 30 → 0 ≤ b < 2 ^ 31 →
  Z.of_nat (length bs) < LOGSIZE → Z.of_nat (length bs) < lg_size (s_log s) - 1 → 1 ≤ lg_outstanding (s_log s) →
  lg_lock (s_log s) = false → Z.of_nat (length (lh_block (lg_lh (s_log s)))) = LOGSIZE →
  if decide (b ∈ bs) then log_write i s = Ok tt s
  else let s' := upd_lh (appended b (length bs)) (upd_buf i pinned_buf s) in
    log_write i s = Ok tt s' ∧ logs start (bs ++ [b]) s' ∧ pinned dev s l b s'.
Proof. clear Hwait.
  intros Hc Harea Hlo Hg Hrf Hb Hn1 Hn2 Hout Hlk Hlen.
  pose proof (gr_holds _ _ _ _ Hg) as (_ & _ & Hbn). pose proof (lo_n _ _ _ Hlo) as Hn.
  assert (logs start bs (lg_held s)) as Hloh by (destruct Hlo; by constructor).
  assert (∀ g, upd_lh g (lg_held s) = lg_held (upd_lh g s)) as Hcomm by done.
  set (k := position b bs). set (s1 := upd_lh (λ h, set_lh_block (<[k := s32 b]> (lh_block h)) h) s).
  assert (log_write i s = (n ← gets (λ s, lh_n (lg_lh (s_log s)));
    (if Z.of_nat k =? n then bpin i;; modify (upd_lh (λ h, set_lh_n (lh_n h + 1) h)) else mret tt);; lock_release log_lock) (lg_held s1)) as ->.
  { unfold log_write. rewrite (bind_ok _ _ _ _ _ (lg_acquire s Hlk)). erewrite bind_ok by reflexivity.
    change (s_log (lg_held s)) with (set_lg_lock true (s_log s)). unfold set_lg_lock. cbn [lg_lh lg_size lg_outstanding]. rewrite Hn.
    replace (_ >=? LOGSIZE) with false by lia. replace (_ >=? _) with false by lia. replace (_ <? 1) with false by lia. cbn [orb].
    erewrite bind_ok by reflexivity. change (buf_at i (lg_held s)) with (buf_at i s). rewrite Hbn.
    rewrite (bind_ok _ _ _ (Z.of_nat k) (lg_held s)).
    2:{ rewrite (absorb_loop start bs b (length bs)); [|done|done|lia|lia|unfold log_fuel; lia]. by rewrite drop_0, Z.add_0_l. }
    erewrite bind_ok by reflexivity. by rewrite Nat2Z.id, Hcomm. }
  erewrite bind_ok by reflexivity. change (lh_n (lg_lh (s_log (lg_held s1)))) with (lh_n (lg_lh (s_log s))). rewrite Hn.
  case_decide as Hin.
  - pose proof (position_in b bs Hin) as Hk. fold k in Hk. pose proof (lookup_lt_Some _ _ _ Hk).
    replace (Z.of_nat k =? _) with false by lia. erewrite bind_ok by reflexivity. rewrite lg_release by done. f_equal.
    assert (lh_block (lg_lh (s_log s)) !! k = Some (s32 b)) as Hbk.
    { rewrite s32_small by lia. rewrite <- (lo_block _ _ _ Hlo), lookup_take_lt in Hk by lia. done. }
    unfold s1, upd_lh, upd_log. rewrite list_insert_id by done. by destruct s as [? ? ? ? ? ? [? ? ? ? ? ? []] ? ? ? ? ? ? ? ?].
  - assert (k = length bs) as Ek by (by apply position_out). replace (Z.of_nat k =? _) with true by lia.
    split_and!; [|by apply logs_pin; [destruct Hlo; by constructor|..]|].
    + rewrite bind_assoc. rewrite (bind_ok _ _ _ tt (lg_held (upd_buf i pinned_buf s1))).
      2:{ rewrite bpin_run by apply Hc. done. }
      erewrite bind_ok by reflexivity. unfold s1. rewrite Ek. by rewrite <- (lg_release (upd_lh _ (upd_buf i pinned_buf s))).
    + apply pinned_log. by apply pinned_spec.
Qed.
End turns.

(** ** Properties *)

(** C1: a commit survives a crash at any point.  After any number [k] of the disk
    writes that commit issues, what recovery will make of the disk is, outside the
    log, either the disk before the transaction or the disk with all of the
    transaction's blocks, and nothing in between.  When commit returns, the disk has
    the blocks, the log is empty, the blocks are unpinned and the contents that the
    rest of the kernel sees have not changed. *)
Theorem commit_crash_atomic `{!KernelView kst} `{!WaitBound} dev start bs s l :
  (0 < wait_bound)%nat → area_ok start bs → tx_ok dev start bs s l →
  let D := d_block (s_disk s) in
  ∃ s' ws, commit s = Ok tt s' ∧ d_trace (s_disk s') = d_trace (s_disk s) ++ ws ∧
    (∀ k, (∀ m, outside start m → logical start (after D (take k ws)) m = D m) ∨
          (∀ m, outside start m → logical start (after D (take k ws)) m = new_disk bs D (blk dev s) m)) ∧
    (∀ m, outside start m → d_block (s_disk s') m = new_disk bs D (blk dev s) m) ∧
    head_n start (d_block (s_disk s')) = 0 ∧ lh_n (lg_lh (s_log s')) = 0 ∧
    (∃ l', cache_ok dev s' l') ∧ (∀ m, outside start m → blk dev s' m = blk dev s m) ∧
    (∀ m, ref dev s' m = ref dev s m - cnt m bs).
Proof.
  intros Hw Harea Htx D. pose proof (tx_clean _ _ _ _ _ Htx) as Hcl. destruct (decide (0 < Z.of_nat (length bs))) as [Hn|Hn].
  - destruct (commit_run Hw dev start bs Harea s l Hn Htx) as (h1 & h2 & s' & Hr & Hh1 & Hh1' & Hh2 & [[l' R] E K T Dk B F O Fr]).
    exists s', (commit_writes start bs (blk dev s) h1 h2). split_and!; try done.
    + intros k. by apply commit_prefix.
    + intros m Hm. rewrite Dk. by apply commit_final.
    + unfold head_n. rewrite Dk. by apply commit_clean.
    + apply rest_log in E. by rewrite E.
    + exists l'. apply R.
    + intros m Hm. rewrite B. etrans; [by apply commit_final|]. unfold new_disk. by case_decide.
  - assert (bs = []) as -> by (destruct bs; [done|simpl in Hn; lia]). exists s, [].
    assert (∀ V m, new_disk [] D V m = D m) as Hnew by done.
    split_and!; try done.
    + unfold commit. erewrite bind_ok by reflexivity. by rewrite (lo_n _ _ _ _ (tx_logs _ _ _ _ _ Htx)).
    + by rewrite app_nil_r.
    + intros k. left. intros m _. rewrite take_nil. by apply logical_clean.
    + apply (lo_n _ _ _ _ (tx_logs _ _ _ _ _ Htx)).
    + exists l. apply Htx.
    + intros m. rewrite cnt_nil. lia.
Qed.

(** C6: recovery after a crash.  When the kernel starts, initlog makes the disk,
    outside the log, what the log says it is, and empties the log.  If the machine
    stops again after any number [k] of the writes, the next recovery makes the same
    of the disk. *)
Theorem initlog_recovers `{!KernelView kst} `{!WaitBound} dev sb s l :
  (0 < wait_bound)%nat →
  let start := s32 (sb_logstart sb) in let D := d_block (s_disk s) in
  ready dev s l → area_ok start (head_blocks start D) → (∀ m, ref dev s m = 0) → 2 ≤ free s →
  0 ≤ head_n start D → Z.of_nat (length (lh_block (lg_lh (s_log s)))) = LOGSIZE → Z.of_nat (length (D start)) = BSIZE →
  ∃ s' ws, initlog dev sb s = Ok tt s' ∧ d_trace (s_disk s') = d_trace (s_disk s) ++ ws ∧
    (∀ k m, outside start m → logical start (after D (take k ws)) m = logical start D m) ∧
    (∀ m, outside start m → d_block (s_disk s') m = logical start D m ∧ blk dev s' m = logical start D m) ∧
    head_n start (d_block (s_disk s')) = 0 ∧ lh_n (lg_lh (s_log s')) = 0 ∧ (∃ l', cache_ok dev s' l').
Proof.
  intros Hw start D Hrd Harea Hq Hfree Hn Hlen Hbsz.
  set (f := λ g, set_lg_dev dev (set_lg_size (s32 (sb_nlog sb)) (set_lg_start start (set_lg_lock false g)))).
  assert (ready dev (upd_log f s) l) as Hrd' by (destruct Hrd; constructor; [by apply cache_ok_log|done|done]).
  destruct (recover_run Hw dev (upd_log f s) l start) as (h & h2 & s' & Hr & Hh & Hh2 & [[l' R] E K T Dk B F O Fr]); try done.
  exists s', (pending start D ++ [(start, h2)]).
  assert (∀ m, outside start m → m ≠ start) as Hne by (intros m Hm; by apply (outside_ne start _ Harea)).
  assert (∀ k m, outside start m → logical start (after D (take k (pending start D ++ [(start, h2)]))) m = logical start D m) as Hpre.
  { intros k m Hm. destruct (decide (k ≤ length (pending start D))%nat) as [Hk|Hk].
    - rewrite take_app_le by done. apply logical_prefix; try apply Harea.
      pose proof (ao_len _ _ Harea) as Hl. unfold head_blocks in Hl. rewrite length_fmap, length_seqZ in Hl. lia.
    - rewrite take_ge by (rewrite length_app; simpl; lia). rewrite after_app, logical_clean by (unfold head_n; by rewrite after_one_eq).
      apply after_one_ne. by apply Hne. }
  split_and!; try done.
  - intros m Hm. rewrite Dk, B, !after_app, !after_one_ne by (by apply Hne). split; [done|].
    apply after_ext. apply (unused_clean dev s l); [apply Hrd|apply Hq].
  - unfold head_n. by rewrite Dk, after_app, after_one_eq.
  - apply rest_log in E. by rewrite E.
  - exists l'. apply R.
Qed.

(** C13: log_write.  A block that the transaction has already is not logged twice,
    and nothing changes; another one is appended to the header and its buffer is
    pinned, so that it stays in the cache until the commit. *)
Theorem log_write_absorbs dev start bs s l i b :
  cache_ok dev s l → area_ok start bs → logs dev start bs s → grabbed dev s i b → ref dev s b < 2 ^ 30 → 0 ≤ b < 2 ^ 31 →
  Z.of_nat (length bs) < LOGSIZE → Z.of_nat (length bs) < lg_size (s_log s) - 1 → 1 ≤ lg_outstanding (s_log s) →
  lg_lock (s_log s) = false → Z.of_nat (length (lh_block (lg_lh (s_log s)))) = LOGSIZE →
  if decide (b ∈ bs) then log_write i s = Ok tt s
  else ∃ s', log_write i s = Ok tt s' ∧ logs dev start (bs ++ [b]) s' ∧ pinned dev s l b s' ∧
    s_kern s' = s_kern s ∧ s_disk s' = s_disk s.
Proof.
  intros. pose proof (log_write_spec dev start bs s l i b) as Hw. case_decide; [by apply Hw|].
  eexists. split_and!; [by apply Hw..|done|done].
Qed.

(** ** Witnesses *)

(** The machine after binit, with the log at block 2; nobody else runs. *)
Definition alone : KernelView kst := λ _ _, None.
Definition turns1 : WaitBound := 1%nat.
Definition result {A} (m : M kst A) (s : kst) : kst := match m s with Ok _ s' => s' | _ => s end.
Definition booted : kst := result binit (kst_of kern3).
Definition boot_order : list Z := reverse (seqZ 0 NBUF).
Definition in_op : kst := upd_log (λ g, set_lg_outstanding 1 (set_lg_dev 1 (set_lg_size 30 (set_lg_start 2 g)))) booted.

(** bread of block 100, filling it with [v]. *)
Definition fill100 (v : Z) : M kst Z :=
  b ← @bread alone turns1 1 100;
  modify (upd_buf b (set_b_data (replicate 1024 v)));;
  mret b.
Definition filled : kst := result (fill100 7) in_op.
Definition tx_state : kst := result (b ← fill100 7; log_write b;; brelse b) in_op.

Lemma cache_ok_of s : cache_okb 1 s boot_order = true → cache_ok 1 s boot_order.
Proof. apply cache_okb_sound. Qed.

Lemma tx_state_ok : tx_ok 1 2 [100] tx_state boot_order.
Proof.
  assert (s_kern tx_state = kern3) as Hk by (vm_compute; reflexivity).
  constructor.
  - constructor; [apply cache_ok_of; vm_compute; reflexivity|rewrite Hk; exact kern3_ok|rewrite Hk; unfold NPROC; simpl; lia].
  - constructor; vm_compute; reflexivity.
  - intros b ->%list_elem_of_singleton. split; [vm_compute; reflexivity|].
    assert (ref 1 tx_state 100 = 1) as -> by (vm_compute; reflexivity). lia.
  - intros j Hj. simpl in Hj. assert (j = -1 ∨ j = 0) as [-> | ->] by lia; split; vm_compute; reflexivity.
  - vm_compute. reflexivity.
  - vm_compute. reflexivity.
  - vm_compute. reflexivity.
Qed.

Lemma area100 : area_ok 2 [100].
Proof.
  constructor; [split; vm_compute; done|vm_compute; done|apply NoDup_singleton|].
  intros b ->%list_elem_of_singleton. unfold LOGSIZE, MAXOPBLOCKS. lia.
Qed.

Lemma commit_crash_atomic_witness : ∃ s', @commit alone turns1 tx_state = Ok tt s' ∧ d_block (s_disk s') 100 = replicate 1024 7.
Proof.
  destruct (@commit_crash_atomic alone turns1 1 2 [100] tx_state boot_order) as (s' & ws & Hr & _ & _ & Hd & _).
  - unfold wait_bound, turns1. lia.
  - exact area100.
  - exact tx_state_ok.
  - exists s'. split; [exact Hr|]. rewrite Hd by (right; vm_compute; discriminate). vm_compute. reflexivity.
Defined.

(** A disk whose log has block 100. *)
Definition crashed : kst :=
  set_s_disk (Disk (λ n, if n =? 2 then put32 (put32 (replicate 1024 0) 0 1) 4 100
                         else if n =? 3 then replicate 1024 7 else replicate 1024 0) []) booted.

Lemma initlog_recovers_witness :
  ∃ s', @initlog alone turns1 1 (Superblock 0x10203040 2000 1900 200 30 2 32 45) crashed = Ok tt s' ∧
    d_block (s_disk s') 100 = replicate 1024 7.
Proof.
  destruct (@initlog_recovers alone turns1 1 (Superblock 0x10203040 2000 1900 200 30 2 32 45) crashed boot_order)
    as (s' & ws & Hr & _ & _ & Hd & _).
  - unfold wait_bound, turns1. lia.
  - constructor; [apply cache_ok_of; vm_compute; reflexivity|exact kern3_ok|unfold NPROC; simpl; lia].
  - exact area100.
  - intros m. unfold Bio.ref. assert (cached 1 crashed m = None) as ->; [|reflexivity].
    destruct (cached 1 crashed m) as [i|] eqn:E; [|reflexivity]. apply cached_holds in E as (Hi & Hdv & _). exfalso.
    assert (Forall (λ i, b_dev (buf_at i crashed) = 0) (seqZ 0 NBUF)) as Hf by (vm_compute; repeat constructor).
    rewrite Forall_forall in Hf. rewrite (Hf i) in Hdv by (apply elem_of_seqZ; lia). discriminate.
  - vm_compute. discriminate.
  - vm_compute. discriminate.
  - reflexivity.
  - vm_compute. reflexivity.
  - exists s'. split; [exact Hr|]. destruct (Hd 100) as [E _]; [right; vm_compute; discriminate|]. rewrite E. vm_compute. reflexivity.
Defined.

Lemma log_write_absorbs_witness : ∃ s', log_write 0 filled = Ok tt s' ∧ logs 1 2 [100] s'.
Proof.
  pose proof (log_write_absorbs 1 2 [] filled boot_order 0 100) as Ht. destruct Ht as (s' & Hr & Hl & _).
  - apply cache_ok_of. vm_compute. reflexivity.
  - constructor; [split; vm_compute; done|vm_compute; done|apply NoDup_nil_2|intros b []%elem_of_nil].
  - constructor; vm_compute; reflexivity.
  - constructor; [split_and!; vm_compute; done|vm_compute; discriminate|vm_compute; reflexivity].
  - vm_compute. reflexivity.
  - lia.
  - vm_compute. reflexivity.
  - vm_compute. reflexivity.
  - vm_compute. discriminate.
  - vm_compute. reflexivity.
  - vm_compute. reflexivity.
  - exists s'. split; [exact Hr|exact Hl].
Defined.
