(* ===== verification/Fs.v ===== *)
(** * The file system: kernel/fs.c

    The block allocator, the inode table and the inodes on the disk, the contents
    of files, directories and path names, on the buffer cache and the log.  A
    pointer into a block's data is an offset; the structures of fs.h are laid out in
    the blocks byte by byte. *)
From stdpp Require Import gmap.
From S2P Require Import Prelude Bytes Mem Spinlock Riscv Kalloc Vm Proc Kstate Console Sleeplock Bio Log.
Open Scope Z_scope.

(** ** kernel/fs.h and kernel/stat.h *)

Definition ROOTINO : Z := 1.
Definition FSMAGIC : Z := 0x10203040.
Definition NDIRECT : Z := 12.
Definition NINDIRECT : Z := BSIZE / 4.
Definition MAXFILE : Z := NDIRECT + NINDIRECT.
Definition DINODE_SIZE : Z := 64.
Definition IPB : Z := BSIZE / DINODE_SIZE.
Definition IBLOCK (i : Z) (sb : superblock) : Z := u32 (i / IPB + sb_inodestart sb).
Definition BPB : Z := BSIZE * 8.
Definition BBLOCK (b : Z) (sb : superblock) : Z := u32 (b / BPB + sb_bmapstart sb).
Definition DIRSIZ : Z := 14.
Definition DIRENT_SIZE : Z := 16.
Definition T_DIR : Z := 1.
Definition T_FILE : Z := 2.
Definition T_DEVICE : Z := 3.

(** struct superblock in its block. *)
Definition superblock_of (d : list Z) : superblock :=
  Superblock (get32 d 0) (get32 d 4) (get32 d 8) (get32 d 12) (get32 d 16) (get32 d 20) (get32 d 24) (get32 d 28).

(** struct dinode at offset [o] of a block: the fields of an inode that are on the
    disk, read into an inode and written from one. *)
Definition dinode_addrs (d : list Z) (o : Z) : list Z := (λ k, get32 d (o + 12 + 4 * k)) <$> seqZ 0 (NDIRECT + 1).
Definition dinode_get (d : list Z) (o : Z) (ip : inode) : inode :=
  set_i_addrs (dinode_addrs d o) (set_i_size (get32 d (o + 8)) (set_i_nlink (gets16 d (o + 6))
    (set_i_minor (gets16 d (o + 4)) (set_i_major (gets16 d (o + 2)) (set_i_type (gets16 d o) ip))))).
Definition dinode_put (ip : inode) (d : list Z) (o : Z) : list Z :=
  let d := put16 d o (i_type ip) in
  let d := put16 d (o + 2) (i_major ip) in
  let d := put16 d (o + 4) (i_minor ip) in
  let d := put16 d (o + 6) (i_nlink ip) in
  let d := put32 d (o + 8) (i_size ip) in
  splice d (o + 12) (concat (le_bytes 4 <$> i_addrs ip)).

Definition inode_lock_l (i : Z) : lens kst sleeplock :=
  Lens (λ s, i_lock (inode_at i s)) (λ k, upd_inode i (set_i_lock k)).

(** Assignment to the data of a buffer. *)
Definition upd_data (b : Z) (f : list Z → list Z) : kst → kst := upd_buf b (λ x, set_b_data (f (b_data x)) x).

(** struct stat *)
Record stat := Stat {
  st_dev : Z;
  st_ino : Z;
  st_type : Z;
  st_nlink : Z;
  st_size : Z;
}.
Definition stati (ip : inode) : stat := Stat (s32 (i_dev ip)) (i_inum ip) (i_type ip) (i_nlink ip) (i_size ip).

(** The other side of readi and writei: an address of the process, an address of
    the kernel, or a local variable of the caller, whose bytes are returned or
    passed. *)
Inductive iodst := ToUser (a : Z) | ToKernel (a : Z) | ToLocal.
Inductive iosrc := FromUser (a : Z) | FromKernel (a : Z) | FromLocal (bs : list Z).

(** either_copyout and either_copyin of [m] bytes after the first [tot]. *)
Definition io_out (dst : iodst) (tot : Z) (bs : list Z) : M kst Z :=
  match dst with
  | ToUser a => kcall (either_copyout true (u64 (a + tot)) bs)
  | ToKernel a => kcall (either_copyout false (u64 (a + tot)) bs)
  | ToLocal => mret 0
  end.
Definition io_in (src : iosrc) (tot m : Z) : M kst (Z * list Z) :=
  match src with
  | FromUser a => kcall (either_copyin true (u64 (a + tot)) m)
  | FromKernel a => kcall (either_copyin false (u64 (a + tot)) m)
  | FromLocal bs => mret (0, sub bs tot m)
  end.

(** ** String functions on local buffers *)

(** strncmp of kernel/string.c on byte lists; a list ends with a zero. *)
Fixpoint strncmp_bytes (p q : list Z) (n : nat) : Z :=
  match n with
  | O => 0
  | S n' =>
      let a := hd 0 p in let b := hd 0 q in
      if negb (a =? 0) && (a =? b) then strncmp_bytes (tail p) (tail q) n' else a - b
  end.
Definition namecmp (s t : list Z) : Z := strncmp_bytes s t (Z.to_nat DIRSIZ).

(** strncpy(s, t, n): the bytes before the zero, padded with zeroes. *)
Fixpoint strncpy_bytes (t : list Z) (n : nat) : list Z :=
  match n with
  | O => []
  | S n' => if hd 0 t =? 0 then replicate n 0 else hd 0 t :: strncpy_bytes (tail t) n'
  end.

(** ** Paths *)

Definition SLASH : Z := 47.

(** Passing over slashes. *)
Fixpoint skip_slashes (path : list Z) : list Z :=
  match path with
  | c :: path' => if c =? SLASH then skip_slashes path' else path
  | [] => []
  end.
(** Passing over an element: the bytes passed, and the rest. *)
Fixpoint take_elem (path : list Z) : list Z * list Z :=
  match path with
  | c :: path' =>
      if negb (c =? SLASH) && negb (c =? 0) then let '(s, r) := take_elem path' in (c :: s, r) else ([], path)
  | [] => ([], [])
  end.

(** The rest of the path and the new contents of [name]; a path ends with a zero
    or with its list. *)
Definition skipelem (path name : list Z) : option (list Z * list Z) :=
  let path := skip_slashes path in
  if hd 0 path =? 0 then None else
  let '(s, path) := take_elem path in
  let len := Z.of_nat (length s) in
  let name := if len >=? DIRSIZ then splice name 0 (take (Z.to_nat DIRSIZ) s) else splice (splice name 0 s) len [0] in
  Some (skip_slashes path, name).

Section view.
Context `{!KernelView kst} `{!WaitBound}.

(** ** The super block *)

Definition readsb (dev : Z) : M kst superblock :=
  bp ← bread (u32 dev) 1;
  x ← gets (buf_at bp);
  brelse bp;;
  mret (superblock_of (b_data x)).

Definition fsinit (dev : Z) : M kst unit :=
  sb ← readsb dev;
  modify (set_s_sb sb);;
  if negb (sb_magic sb =? FSMAGIC) then panic "invalid file system" else
  initlog dev sb.

(** ** Blocks *)

Definition bzero (dev bno : Z) : M kst unit :=
  bp ← bread (u32 dev) (u32 bno);
  modify (upd_data bp (λ _, replicate (Z.to_nat BSIZE) 0));;
  log_write bp;;
  brelse bp.

(** One turn of balloc's inner loop: the block found, or [None] at the end. *)
Definition balloc_bit (dev bp b bi : Z) : M kst (Z + option Z) :=
  sb ← gets s_sb;
  if (bi <? BPB) && (b + bi <? sb_size sb) then
    let m := Z.shiftl 1 (bi mod 8) in
    x ← gets (buf_at bp);
    let v := nth (Z.to_nat (bi / 8)) (b_data x) 0 in
    if Z.land v m =? 0 then
      modify (upd_data bp (<[Z.to_nat (bi / 8) := u8 (Z.lor v m)]>));;
      log_write bp;;
      brelse bp;;
      bzero dev (b + bi);;
      mret (inr (Some (u32 (b + bi))))
    else mret (inl (bi + 1))
  else mret (inr None).

Definition balloc_turn (dev b : Z) : M kst (Z + option Z) :=
  sb ← gets s_sb;
  if b <? sb_size sb then
    bp ← bread dev (BBLOCK b sb);
    r ← loop (S (Z.to_nat BPB)) (balloc_bit dev bp b) 0;
    match r with
    | Some n => mret (inr (Some n))
    | None => brelse bp;; mret (inl (b + BPB))
    end
  else mret (inr None).
Definition balloc (dev : Z) : M kst Z :=
  sb ← gets s_sb;
  r ← loop (Z.to_nat (sb_size sb / BPB + 2)) (balloc_turn dev) 0;
  match r with
  | Some n => mret n
  | None => printf (str "balloc: out of blocks" ++ [10]) [];; mret 0
  end.

Definition bfree (dev b : Z) : M kst unit :=
  sb ← gets s_sb;
  bp ← bread (u32 dev) (BBLOCK b sb);
  let bi := b mod BPB in
  let m := Z.shiftl 1 (bi mod 8) in
  x ← gets (buf_at bp);
  let v := nth (Z.to_nat (bi / 8)) (b_data x) 0 in
  if Z.land v m =? 0 then panic "freeing free block" else
  modify (upd_data bp (<[Z.to_nat (bi / 8) := u8 (Z.land v (Z.lnot m))]>));;
  log_write bp;;
  brelse bp.

(** ** Inodes *)

Definition iinit : M kst unit :=
  modify (lset itable_lock false);;
  loop (S (Z.to_nat NINODE)) (λ i,
    if i <? NINODE then initsleeplock (inode_lock_l i);; mret (inl (i + 1)) else mret (inr tt)) 0.

(** One turn of iget's loop: the entry and whether it has been found. *)
Definition iget_turn (dev inum : Z) '((ip, empty) : Z * Z) : M kst ((Z * Z) + (Z * bool)) :=
  if ip <? NINODE then
    x ← gets (inode_at ip);
    if (i_ref x >? 0) && (i_dev x =? dev) && (i_inum x =? inum) then mret (inr (ip, true))
    else mret (inl (ip + 1, if (empty =? NULLP) && (i_ref x =? 0) then ip else empty))
  else mret (inr (empty, false)).

Definition iget (dev inum : Z) : M kst Z :=
  lock_acquire itable_lock;;
  '(ip, found) ← loop (S (Z.to_nat NINODE)) (iget_turn dev inum) (0, NULLP);
  if found : bool then
    modify (upd_inode ip (λ x, set_i_ref (i_ref x + 1) x));;
    lock_release itable_lock;;
    mret ip
  else if ip =? NULLP then panic "iget: no inodes" else
    modify (upd_inode ip (λ x, set_i_valid 0 (set_i_ref 1 (set_i_inum inum (set_i_dev dev x)))));;
    lock_release itable_lock;;
    mret ip.

Definition ialloc_turn (dev type inum : Z) : M kst (Z + option Z) :=
  sb ← gets s_sb;
  if inum <? sb_ninodes sb then
    bp ← bread dev (IBLOCK inum sb);
    x ← gets (buf_at bp);
    let o := DINODE_SIZE * (inum mod IPB) in
    if gets16 (b_data x) o =? 0 then
      modify (upd_data bp (λ d, put16 (splice d o (replicate (Z.to_nat DINODE_SIZE) 0)) o type));;
      log_write bp;;
      brelse bp;;
      ip ← iget dev inum;
      mret (inr (Some ip))
    else brelse bp;; mret (inl (inum + 1))
  else mret (inr None).
Definition ialloc (dev type : Z) : M kst Z :=
  sb ← gets s_sb;
  r ← loop (S (Z.to_nat (sb_ninodes sb))) (ialloc_turn dev type) 1;
  match r with
  | Some ip => mret ip
  | None => printf (str "ialloc: no inodes" ++ [10]) [];; mret NULLP
  end.

Definition iupdate (ip : Z) : M kst unit :=
  x ← gets (inode_at ip);
  sb ← gets s_sb;
  bp ← bread (i_dev x) (IBLOCK (i_inum x) sb);
  modify (upd_data bp (λ d, dinode_put x d (DINODE_SIZE * (i_inum x mod IPB))));;
  log_write bp;;
  brelse bp.

Definition idup (ip : Z) : M kst Z :=
  lock_acquire itable_lock;;
  modify (upd_inode ip (λ x, set_i_ref (i_ref x + 1) x));;
  lock_release itable_lock;;
  mret ip.

Definition ilock (ip : Z) : M kst unit :=
  x ← gets (inode_at ip);
  if (ip =? NULLP) || (i_ref x <? 1) then panic "ilock" else
  acquiresleep (inode_lock_l ip) (ChInode ip);;
  x ← gets (inode_at ip);
  if i_valid x =? 0 then
    sb ← gets s_sb;
    bp ← bread (i_dev x) (IBLOCK (i_inum x) sb);
    y ← gets (buf_at bp);
    modify (upd_inode ip (dinode_get (b_data y) (DINODE_SIZE * (i_inum x mod IPB))));;
    brelse bp;;
    modify (upd_inode ip (set_i_valid 1));;
    x ← gets (inode_at ip);
    if i_type x =? 0 then panic "ilock: no type" else mret tt
  else mret tt.

Definition iunlock (ip : Z) : M kst unit :=
  if ip =? NULLP then panic "iunlock" else
  h ← holdingsleep (inode_lock_l ip);
  x ← gets (inode_at ip);
  if negb h || (i_ref x <? 1) then panic "iunlock" else
  releasesleep (inode_lock_l ip) (ChInode ip).

(** ** Inode content *)

Definition bmap (ip bn : Z) : M kst Z :=
  x ← gets (inode_at ip);
  if bn <? NDIRECT then
    let addr := nth (Z.to_nat bn) (i_addrs x) 0 in
    if addr =? 0 then
      addr ← balloc (i_dev x);
      if addr =? 0 then mret 0 else
      modify (upd_inode ip (λ x, set_i_addrs (<[Z.to_nat bn := addr]> (i_addrs x)) x));;
      mret addr
    else mret addr
  else
  let bn := bn - NDIRECT in
  if bn <? NINDIRECT then
    let addr := nth (Z.to_nat NDIRECT) (i_addrs x) 0 in
    addr ← (if addr =? 0 then
              addr ← balloc (i_dev x);
              if addr =? 0 then mret 0 else
              modify (upd_inode ip (λ x, set_i_addrs (<[Z.to_nat NDIRECT := addr]> (i_addrs x)) x));;
              mret addr
            else mret addr);
    if addr =? 0 then mret 0 else
    bp ← bread (i_dev x) addr;
    y ← gets (buf_at bp);
    let addr := get32 (b_data y) (4 * bn) in
    addr ← (if addr =? 0 then
              addr ← balloc (i_dev x);
              if ctrue addr then
                modify (upd_data bp (λ d, put32 d (4 * bn) addr));;
                log_write bp;;
                mret addr
              else mret addr
            else mret addr);
    brelse bp;;
    mret addr
  else panic "bmap: out of range".

(** The two loops of itrunc. *)
Definition itrunc_direct (ip i : Z) : M kst (Z + unit) :=
  if i <? NDIRECT then
    x ← gets (inode_at ip);
    let addr := nth (Z.to_nat i) (i_addrs x) 0 in
    (if ctrue addr then
       bfree (i_dev x) addr;;
       modify (upd_inode ip (λ x, set_i_addrs (<[Z.to_nat i := 0]> (i_addrs x)) x))
     else mret tt);;
    mret (inl (i + 1))
  else mret (inr tt).
Definition itrunc_indirect (ip bp j : Z) : M kst (Z + unit) :=
  if j <? NINDIRECT then
    x ← gets (inode_at ip);
    y ← gets (buf_at bp);
    let addr := get32 (b_data y) (4 * j) in
    (if ctrue addr then bfree (i_dev x) addr else mret tt);;
    mret (inl (j + 1))
  else mret (inr tt).

Definition itrunc (ip : Z) : M kst unit :=
  loop (S (Z.to_nat NDIRECT)) (itrunc_direct ip) 0;;
  x ← gets (inode_at ip);
  let addr := nth (Z.to_nat NDIRECT) (i_addrs x) 0 in
  (if ctrue addr then
     bp ← bread (i_dev x) addr;
     loop (S (Z.to_nat NINDIRECT)) (itrunc_indirect ip bp) 0;;
     brelse bp;;
     bfree (i_dev x) addr;;
     modify (upd_inode ip (λ x, set_i_addrs (<[Z.to_nat NDIRECT := 0]> (i_addrs x)) x))
   else mret tt);;
  modify (upd_inode ip (set_i_size 0));;
  iupdate ip.

Definition iput (ip : Z) : M kst unit :=
  lock_acquire itable_lock;;
  x ← gets (inode_at ip);
  (if (i_ref x =? 1) && ctrue (i_valid x) && (i_nlink x =? 0) then
     acquiresleep (inode_lock_l ip) (ChInode ip);;
     lock_release itable_lock;;
     itrunc ip;;
     modify (upd_inode ip (set_i_type 0));;
     iupdate ip;;
     modify (upd_inode ip (set_i_valid 0));;
     releasesleep (inode_lock_l ip) (ChInode ip);;
     lock_acquire itable_lock
   else mret tt);;
  modify (upd_inode ip (λ x, set_i_ref (i_ref x - 1) x));;
  lock_release itable_lock.

Definition iunlockput (ip : Z) : M kst unit := iunlock ip;; iput ip.

(** The number of turns: every turn but the first and the last does a whole block. *)
Definition io_fuel (n : Z) : nat := Z.to_nat (n / BSIZE + 3).

(** One turn of readi's loop; [acc] is what a local destination has got. *)
Definition readi_turn (ip : Z) (dst : iodst) (n : Z) '((tot, off, acc) : Z * Z * list Z)
    : M kst ((Z * Z * list Z) + (Z * list Z)) :=
  if tot <? n then
    addr ← bmap ip (off / BSIZE);
    if addr =? 0 then mret (inr (tot, acc)) else
    x ← gets (inode_at ip);
    bp ← bread (i_dev x) addr;
    let m := Z.min (n - tot) (BSIZE - off mod BSIZE) in
    y ← gets (buf_at bp);
    let bs := sub (b_data y) (off mod BSIZE) m in
    r ← io_out dst tot bs;
    if r =? -1 then brelse bp;; mret (inr (-1, acc)) else
    brelse bp;;
    mret (inl (tot + m, off + m, acc ++ bs))
  else mret (inr (tot, acc)).

(** The result and, for a local destination, the bytes read. *)
Definition readi (ip : Z) (dst : iodst) (off n : Z) : M kst (Z * list Z) :=
  x ← gets (inode_at ip);
  if (off >? i_size x) || (u32 (off + n) <? off) then mret (0, []) else
  let n := if u32 (off + n) >? i_size x then i_size x - off else n in
  '(tot, acc) ← loop (io_fuel n) (readi_turn ip dst n) (0, off, []);
  mret (s32 tot, acc).

(** One turn of writei's loop.  A copy that fails may have changed the buffer. *)
Definition writei_turn (ip : Z) (src : iosrc) (n : Z) '((tot, off) : Z * Z) : M kst ((Z * Z) + (Z * Z)) :=
  if tot <? n then
    addr ← bmap ip (off / BSIZE);
    if addr =? 0 then mret (inr (tot, off)) else
    x ← gets (inode_at ip);
    bp ← bread (i_dev x) addr;
    let m := Z.min (n - tot) (BSIZE - off mod BSIZE) in
    '(r, bs) ← io_in src tot m;
    modify (upd_data bp (λ d, splice d (off mod BSIZE) bs));;
    if r =? -1 then brelse bp;; mret (inr (tot, off)) else
    log_write bp;;
    brelse bp;;
    mret (inl (tot + m, off + m))
  else mret (inr (tot, off)).

Definition writei (ip : Z) (src : iosrc) (off n : Z) : M kst Z :=
  x ← gets (inode_at ip);
  if (off >? i_size x) || (u32 (off + n) <? off) then mret (-1) else
  if u32 (off + n) >? MAXFILE * BSIZE then mret (-1) else
  '(tot, off) ← loop (io_fuel n) (writei_turn ip src n) (0, off);
  modify (upd_inode ip (λ x, if off >? i_size x then set_i_size off x else x));;
  iupdate ip;;
  mret (s32 tot).

(** ** Directories *)

(** struct dirent *)
Definition de_inum (de : list Z) : Z := get16 de 0.
Definition de_name (de : list Z) : list Z := sub de 2 DIRSIZ.

(** One turn of dirlookup's loop: the entry's inode number and offset. *)
Definition dirlookup_turn (dp : Z) (name : list Z) (off : Z) : M kst (Z + option (Z * Z)) :=
  x ← gets (inode_at dp);
  if off <? i_size x then
    '(r, de) ← readi dp ToLocal off DIRENT_SIZE;
    if negb (r =? DIRENT_SIZE) then panic "dirlookup read" else
    if de_inum de =? 0 then mret (inl (u32 (off + DIRENT_SIZE))) else
    if namecmp name (de_name de) =? 0 then mret (inr (Some (de_inum de, off)))
    else mret (inl (u32 (off + DIRENT_SIZE)))
  else mret (inr None).

(** The inode, or NULLP, and what has been assigned to *poff. *)
Definition dirlookup (dp : Z) (name : list Z) : M kst (Z * Z) :=
  x ← gets (inode_at dp);
  if negb (i_type x =? T_DIR) then panic "dirlookup not DIR" else
  r ← loop (Z.to_nat (i_size x / DIRENT_SIZE + 2)) (dirlookup_turn dp name) 0;
  match r with
  | Some (inum, off) => ip ← iget (i_dev x) inum; mret (ip, off)
  | None => mret (NULLP, 0)
  end.

(** One turn of the search for an empty entry. *)
Definition dirlink_turn (dp off : Z) : M kst (Z + Z) :=
  x ← gets (inode_at dp);
  if off <? i_size x then
    '(r, de) ← readi dp ToLocal off DIRENT_SIZE;
    if negb (r =? DIRENT_SIZE) then panic "dirlink read" else
    if de_inum de =? 0 then mret (inr off) else mret (inl (off + DIRENT_SIZE))
  else mret (inr off).

Definition dirlink (dp : Z) (name : list Z) (inum : Z) : M kst Z :=
  '(ip, _) ← dirlookup dp name;
  if negb (ip =? NULLP) then iput ip;; mret (-1) else
  x ← gets (inode_at dp);
  off ← loop (Z.to_nat (i_size x / DIRENT_SIZE + 2)) (dirlink_turn dp) 0;
  let de := le_bytes 2 inum ++ strncpy_bytes name (Z.to_nat DIRSIZ) in
  r ← writei dp (FromLocal de) off DIRENT_SIZE;
  mret (if negb (r =? DIRENT_SIZE) then -1 else 0).

(** ** Path lookup *)

(** One turn of namex's loop; the loop ends with an inode (or NULLP) and the name
    buffer, and whether it ended because there are no more elements. *)
Definition namex_turn (nameiparent : bool) '((path, ip, name) : list Z * Z * list Z)
    : M kst ((list Z * Z * list Z) + (Z * list Z * bool)) :=
  match skipelem path name with
  | None => mret (inr (ip, name, true))
  | Some (path, name) =>
      ilock ip;;
      x ← gets (inode_at ip);
      if negb (i_type x =? T_DIR) then iunlockput ip;; mret (inr (NULLP, name, false)) else
      if nameiparent && (hd 0 path =? 0) then iunlock ip;; mret (inr (ip, name, false)) else
      '(next, _) ← dirlookup ip name;
      if next =? NULLP then iunlockput ip;; mret (inr (NULLP, name, false)) else
      iunlockput ip;;
      mret (inl (path, next, name))
  end.

Definition namex (path : list Z) (nameiparent : bool) (name : list Z) : M kst (Z * list Z) :=
  ip ← (if hd 0 path =? SLASH then iget ROOTDEV ROOTINO
        else i ← kcall myproc; p ← kcall (gets (procp i)); idup (p_cwd p));
  '(ip, name, ended) ← loop (S (length path)) (namex_turn nameiparent) (path, ip, name);
  if ended && nameiparent then iput ip;; mret (NULLP, name) else mret (ip, name).

Definition namei (path : list Z) : M kst Z :=
  '(ip, _) ← namex path false (replicate (Z.to_nat DIRSIZ) 0);
  mret ip.
Definition nameiparent (path name : list Z) : M kst (Z * list Z) := namex path true name.
End view.
