(* ===== verification/Tx.v ===== *)
(** * A process inside a transaction

    The state in which the operations of fs.c run: between begin_op and end_op, with
    some blocks logged and some buffers in hand.  The lemmas give bread, brelse and
    log_write on such a state, in terms of the contents of the blocks. *)
From stdpp Require Import gmap.
From S2P Require Import Prelude Bytes Mem Spinlock Riscv Kalloc Vm Proc Kstate Console Sleeplock Bio Log Fs.
Open Scope Z_scope.

(** Everything but the process layer, the cache, the disk and the log. *)
Definition aside (s : kst) :=
  (s_sb s, s_itable s, s_ftable s, s_pipes s, s_nodes s, s_rtpipes s, s_shm s, s_cons s, s_uart s, s_pr s, s_devsw s).

Record frame (s s' : kst) : Prop := {
  fr_aside : aside s' = aside s;
  fr_kern : kframe (s_kern s) (s_kern s');
}.

Lemma frame_refl s : frame s s.
Proof. by constructor. Qed.
Lemma frame_trans s1 s2 s3 : frame s1 s2 → frame s2 s3 → frame s1 s3.
Proof. intros [H1 H2] [H3 H4]. constructor; [congruence|by etrans]. Qed.

Lemma rest_aside s s' : rest s' = rest s → aside s' = aside s.
Proof. unfold rest, aside. intros E. injection E. intros. congruence. Qed.

Section tx.
Context `{KV : !KernelView kst} `{WB : !WaitBound}.
Hypothesis Hwait : (0 < wait_bound)%nat.
Variables (dev start : Z).
Abbreviation cache_ok := (cache_ok dev).
Abbreviation blk := (blk dev).
Abbreviation ref := (ref dev).
Abbreviation owner := (owner dev).

(** How many blocks are in hand but not logged. *)
Definition only_held (H bs : list Z) : Z := Z.of_nat (length (filter (λ m, m ∉ bs) H)).

(** [bs] are logged, [H] are in hand, in no particular order and without repetition. *)
Record in_tx (s : kst) (H bs : list Z) : Prop := {
  it_cache : ∃ l, cache_ok s l;
  it_table : table_ok (s_kern s);
  it_me : 0 ≤ k_me (s_kern s) < NPROC;
  it_area : area_ok start bs;
  it_logs : logs dev start bs s;
  it_size : lg_size (s_log s) = LOGSIZE;
  it_out : 1 ≤ lg_outstanding (s_log s);
  it_lock : lg_lock (s_log s) = false;
  it_lh : Z.of_nat (length (lh_block (lg_lh (s_log s)))) = LOGSIZE;
  it_held : NoDup H;
  it_ref m : ref s m = cnt m bs + cnt m H;
  it_owner m : m ∉ H → owner s m = None;
  it_free : free s = NBUF - Z.of_nat (length bs) - only_held H bs;
  it_clean m : m ∉ bs → blk s m = d_block (s_disk s) m;
}.

Lemma cnt_cons m a l : a ∉ l → cnt m (a :: l) = cnt m l + (if decide (m = a) then 1 else 0).
Proof. clear Hwait.
  intros Ha. unfold cnt. destruct (decide (m = a)) as [->|Hne].
  - rewrite decide_True by (by left). by rewrite decide_False.
  - destruct (decide (m ∈ l)); [by rewrite decide_True by (by right)|].
    rewrite decide_False; [done|]. by intros [?|?]%elem_of_cons.
Qed.
Lemma cnt_snoc m a l : a ∉ l → cnt m (l ++ [a]) = cnt m l + (if decide (m = a) then 1 else 0).
Proof. clear Hwait.
  intros Ha. rewrite <- cnt_cons by done. unfold cnt. assert (m ∈ l ++ [a] ↔ m ∈ a :: l) as E.
  { clear. set_solver. }
  destruct (decide (m ∈ a :: l)); [by rewrite decide_True by (by apply E)|]. rewrite decide_False; [done|]. by rewrite E.
Qed.
Lemma cnt_in m l : m ∈ l → cnt m l = 1.
Proof. clear Hwait. intros. unfold cnt. by rewrite decide_True. Qed.
Lemma cnt_out m l : m ∉ l → cnt m l = 0.
Proof. clear Hwait. intros. unfold cnt. by rewrite decide_False. Qed.

Lemma only_held_cons n H bs : only_held (n :: H) bs = only_held H bs + (1 - cnt n bs).
Proof. clear Hwait.
  unfold only_held. rewrite filter_cons. destruct (decide (n ∈ bs)) as [Hn|Hn].
  - rewrite decide_False, cnt_in by tauto. lia.
  - rewrite decide_True, cnt_out by done. simpl. lia.
Qed.
Lemma only_held_le H bs : 0 ≤ only_held H bs ≤ Z.of_nat (length H).
Proof. clear Hwait. unfold only_held. pose proof (length_filter (λ m, m ∉ bs) H). lia. Qed.

(** bread: the block's contents, in a buffer that the process now holds. *)
Lemma tx_bread s H bs n : in_tx s H bs → n ∉ H → Z.of_nat (length bs) + Z.of_nat (length H) < NBUF →
  ∃ i s', bread dev n s = Ok i s' ∧ in_tx s' (n :: H) bs ∧ grabbed dev s' i n ∧ b_data (buf_at i s') = blk s n ∧
    (∀ m, blk s' m = blk s m) ∧ (∀ j m, m ∈ H → grabbed dev s j m → grabbed dev s' j m) ∧
    s_disk s' = s_disk s ∧ frame s s' ∧ s_log s' = s_log s.
Proof.
  intros [[l Hc] Ht Hm Har Hlo Hsz Hout Hlk Hlh Hnd Hrf How Hfr Hcl] Hn Hroom.
  destruct (bread_took dev Hwait s l n Hc (How n Hn)) as (i & s' & Hr & T).
  { pose proof (only_held_le H bs). lia. }
  { rewrite Hrf. pose proof (cnt_range n bs). pose proof (cnt_range n H). lia. }
  destruct (took_rest _ _ _ _ _ _ T) as (E & K & D). pose proof (rest_log _ _ E) as L.
  exists i, s'. split_and!; try done.
  - constructor; rewrite ?L, ?K; try done.
    + exists l. apply T.
    + destruct Hlo. constructor; by rewrite L.
    + by apply NoDup_cons.
    + intros m. rewrite (tk_ref _ _ _ _ _ _ T), !Hrf, cnt_cons by done. case_decide; subst; lia.
    + intros m [Hmn HmH]%not_elem_of_cons. rewrite (tk_owner _ _ _ _ _ _ T), decide_False by done. by apply How.
    + rewrite (tk_free _ _ _ _ _ _ T), Hrf, only_held_cons, (cnt_out n H) by done. pose proof (cnt_range n bs).
      unfold zero. destruct (cnt n bs + 0 =? 0) eqn:Ez; lia.
    + intros m Hmb. rewrite (tk_blk _ _ _ _ _ _ T), D. by apply Hcl.
  - apply T.
  - rewrite (grabbed_data dev s' l i n (tk_ok _ _ _ _ _ _ T) (tk_grab _ _ _ _ _ _ T)). apply T.
  - apply T.
  - intros j m HmH Hg. apply (tk_other _ _ _ _ _ _ T); [done|]. by intros ->.
  - constructor; [by apply rest_aside|by rewrite K].
Qed.

(** brelse *)
Lemma tx_brelse s H bs i n : in_tx s (n :: H) bs → grabbed dev s i n →
  ∃ s', brelse i s = Ok tt s' ∧ in_tx s' H bs ∧ (∀ m, blk s' m = blk s m) ∧
    (∀ j m, m ∈ H → grabbed dev s j m → grabbed dev s' j m) ∧
    s_disk s' = s_disk s ∧ frame s s' ∧ s_log s' = s_log s.
Proof. clear Hwait.
  intros [[l Hc] Ht Hm Har Hlo Hsz Hout Hlk Hlh Hnd Hrf How Hfr Hcl] Hg.
  apply NoDup_cons in Hnd as [Hn Hnd].
  destruct (brelse_grabbed dev s l i n Hc Ht Hg) as (s' & l' & Hr & R).
  { intros H1. apply Hcl. intros Hin. rewrite Hrf, cnt_cons, decide_True, (cnt_in n bs) in H1 by done.
    pose proof (cnt_range n H). lia. }
  destruct (released_rest _ _ _ _ _ _ _ _ R) as [E D]. pose proof (rest_log _ _ E) as L.
  pose proof (re_kern _ _ _ _ _ _ _ _ R) as K. destruct (kframe_fields _ _ K) as (_ & Kme & _).
  exists s'. split_and!; try done.
  - constructor; rewrite ?L; try done.
    + exists l'. apply R.
    + by apply (kframe_ok _ _ K).
    + by rewrite Kme.
    + destruct Hlo. constructor; by rewrite L.
    + intros m. rewrite (re_ref _ _ _ _ _ _ _ _ R), !Hrf, !cnt_cons by done. repeat case_decide; subst; try done; lia.
    + intros m HmH. rewrite (re_owner _ _ _ _ _ _ _ _ R). case_decide; [done|]. apply How. by apply not_elem_of_cons.
    + rewrite only_held_cons in Hfr. rewrite (re_free _ _ _ _ _ _ _ _ R), Hrf, cnt_cons, decide_True, (cnt_out n H) by done.
      pose proof (cnt_range n bs). unfold zero. destruct (_ =? 0) eqn:Ez; lia.
    + intros m Hmb. rewrite (re_blk _ _ _ _ _ _ _ _ R), D. by apply Hcl.
  - apply R.
  - intros j m HmH Hgj. apply (released_grab dev _ _ _ _ _ _ _ j m R Hm); [|done].
    apply (grabbed_ne dev s j i m n); [done|done|]. by intros ->.
  - constructor; [by apply rest_aside|done].
Qed.

(** An assignment to the data of a buffer in hand, logged. *)
Definition logged (n : Z) (bs : list Z) : list Z := if decide (n ∈ bs) then bs else bs ++ [n].

Lemma logged_area n bs : area_ok start bs → 0 ≤ n < 2 ^ 31 → outside start n → Z.of_nat (length bs) < LOGSIZE - 1 →
  area_ok start (logged n bs).
Proof.
  clear Hwait. intros [H1 H2 H3 H4] Hn Ho Hl. unfold logged. case_decide as Hin; [by constructor|]. constructor; try done.
  - rewrite length_app. simpl. lia.
  - apply NoDup_app. split_and!; [done| |apply NoDup_singleton]. by intros x Hx ->%list_elem_of_singleton.
  - intros b [Hb| ->%list_elem_of_singleton]%elem_of_app; [by apply H4|done].
Qed.

Lemma only_held_logged n H bs : NoDup H → n ∈ H → n ∉ bs → only_held H (bs ++ [n]) = only_held H bs - 1.
Proof.
  clear Hwait. intros Hnd Hin Hn. unfold only_held.
  pose proof (filter_change (λ m, m ∉ bs) (λ m, m ∉ bs ++ [n]) n H Hnd Hin) as E.
  assert (∀ j, j ≠ n → j ∉ bs ↔ j ∉ bs ++ [n]) as Hj by (clear; set_solver).
  specialize (E Hj). rewrite decide_True, decide_False in E by (clear E; set_solver). lia.
Qed.

Lemma tx_log s H bs i n f :
  in_tx s H bs → n ∈ H → grabbed dev s i n → 0 ≤ n < 2 ^ 31 → outside start n → Z.of_nat (length bs) < LOGSIZE - 1 →
  ∃ s', (modify (upd_data i f);; log_write i) s = Ok tt s' ∧ in_tx s' H (logged n bs) ∧
    (∀ m, blk s' m = if decide (m = n) then f (blk s n) else blk s m) ∧
    (∀ j m, grabbed dev s j m → grabbed dev s' j m) ∧ s_disk s' = s_disk s ∧ frame s s'.
Proof. clear Hwait.
  intros Htx Hin Hg Hn Hout Hroom. pose proof (it_cache _ _ _ Htx) as [l Hc].
  pose proof (grabbed_data dev s l i n Hc Hg) as Hd.
  pose proof (edit_spec dev s l i n (f (blk s n)) Hc Hg) as Ed. set (s1 := upd_buf i (set_b_data (f (blk s n))) s) in *.
  assert (upd_data i f s = s1) as E1 by (unfold upd_data, s1, upd_buf; by rewrite Hd).
  destruct (edited_rest _ _ _ _ _ _ _ Ed) as (_ & K1 & D1).
  assert (logs dev start bs s1) as Hlo1 by (destruct (it_logs _ _ _ Htx); by constructor).
  assert (ref s1 n < 2 ^ 30) as Hrf1.
  { rewrite (ed_ref _ _ _ _ _ _ _ Ed), (it_ref _ _ _ Htx). pose proof (cnt_range n bs). pose proof (cnt_range n H). lia. }
  pose proof (log_write_spec dev start bs s1 l i n (ed_ok _ _ _ _ _ _ _ Ed) (it_area _ _ _ Htx) Hlo1
    (ed_grab _ _ _ _ _ _ _ Ed i n Hg) Hrf1 Hn ltac:(lia)) as Hw.
  change (s_log s1) with (s_log s) in Hw. rewrite (it_size _ _ _ Htx) in Hw.
  specialize (Hw Hroom (it_out _ _ _ Htx) (it_lock _ _ _ Htx) (it_lh _ _ _ Htx)).
  pose proof (logged_area n bs (it_area _ _ _ Htx) Hn Hout ltac:(lia)) as Har.
  unfold logged in *. case_decide as Hb.
  - exists s1. split_and!; [|constructor; try apply Htx; try done| | |done|by constructor].
    + erewrite bind_ok by reflexivity. by rewrite E1.
    + exists l. apply Ed.
    + intros m. rewrite (ed_ref _ _ _ _ _ _ _ Ed). apply Htx.
    + intros m. rewrite (ed_owner _ _ _ _ _ _ _ Ed). apply Htx.
    + rewrite (ed_free _ _ _ _ _ _ _ Ed). apply Htx.
    + intros m Hm. rewrite (ed_blk _ _ _ _ _ _ _ Ed), decide_False by (by intros ->). by apply Htx.
    + intros m. apply Ed.
    + intros j m. apply Ed.
  - destruct Hw as (Hw & Hl' & [P1 P2 P3 P4 P5 P6]). set (s2 := upd_lh _ _) in *.
    exists s2. split_and!; [|constructor; try done| | |done|by constructor].
    + erewrite bind_ok by reflexivity. by rewrite E1.
    + by exists l.
    + apply Htx.
    + apply Htx.
    + apply Htx.
    + apply Htx.
    + apply Htx.
    + simpl. rewrite length_insert. apply Htx.
    + apply Htx.
    + intros m. rewrite P3, !(ed_ref _ _ _ _ _ _ _ Ed), !(it_ref _ _ _ Htx), cnt_snoc by done. case_decide; subst; lia.
    + intros m. rewrite P4, (ed_owner _ _ _ _ _ _ _ Ed). apply Htx.
    + rewrite P5, (ed_free _ _ _ _ _ _ _ Ed), (it_free _ _ _ Htx), only_held_logged, length_app by (done || apply Htx). simpl. lia.
    + intros m [Hm1 Hm2]%not_elem_of_app. rewrite P2, (ed_blk _ _ _ _ _ _ _ Ed), decide_False; [by apply Htx|].
      intros ->. apply Hm2. by apply list_elem_of_singleton.
    + intros m. rewrite P2. apply Ed.
    + intros j m Hj. apply P6. by apply Ed.
Qed.
End tx.
