(* ===== verification/FsBlocks.v ===== *)
(** * Properties of the block allocator of kernel/fs.c

    balloc and bfree on the bitmap of the disk, inside a transaction. *)
From stdpp Require Import gmap.
From S2P Require Import Prelude Bytes Mem Spinlock Riscv Kalloc Vm Proc Kstate Console Sleeplock Bio Log Fs Tx.
Open Scope Z_scope.

(** ** Bits of a byte array *)

Definition bit_at (d : list Z) (k : Z) : bool := Z.testbit (nth (Z.to_nat (k / 8)) d 0) (k mod 8).

Lemma land_mask v k : 0 ≤ k → (Z.land v (Z.shiftl 1 k) =? 0) = negb (Z.testbit v k).
Proof.
  intros Hk. rewrite Z.shiftl_1_l. destruct (Z.testbit v k) eqn:E; simpl.
  - apply Z.eqb_neq. intros H0. assert (Z.testbit (Z.land v (2 ^ k)) k = false) as Hf by (rewrite H0; apply Z.bits_0).
    rewrite Z.land_spec, E, Z.pow2_bits_true in Hf by done. done.
  - apply Z.eqb_eq. apply Z.bits_inj'. intros j Hj. rewrite Z.land_spec, Z.bits_0.
    destruct (decide (j = k)) as [->|Hne]; [by rewrite E|]. rewrite Z.pow2_bits_false by lia. apply andb_false_r.
Qed.

Lemma u8_testbit v k : 0 ≤ k < 8 → Z.testbit (u8 v) k = Z.testbit v k.
Proof. intros Hk. unfold u8. apply Z.mod_pow2_bits_low. lia. Qed.

(** Setting and clearing a bit, as balloc and bfree do. *)
Definition bit_set (d : list Z) (k : Z) : list Z :=
  <[Z.to_nat (k / 8) := u8 (Z.lor (nth (Z.to_nat (k / 8)) d 0) (Z.shiftl 1 (k mod 8)))]> d.
Definition bit_clear (d : list Z) (k : Z) : list Z :=
  <[Z.to_nat (k / 8) := u8 (Z.land (nth (Z.to_nat (k / 8)) d 0) (Z.lnot (Z.shiftl 1 (k mod 8))))]> d.

Lemma nth_insert (d : list Z) i j v : (i < length d)%nat → nth j (<[i := v]> d) 0 = if decide (j = i) then v else nth j d 0.
Proof.
  intros Hi. rewrite !nth_lookup. case_decide as E.
  - subst. by rewrite list_lookup_insert_eq.
  - by rewrite list_lookup_insert_ne.
Qed.

Lemma div_mod_eq j k : j / 8 = k / 8 → j mod 8 = k mod 8 → j = k.
Proof. intros. rewrite (Z.div_mod j 8), (Z.div_mod k 8); lia. Qed.

Lemma bit_at_set d k j : 0 ≤ k < 8 * Z.of_nat (length d) → 0 ≤ j → bit_at (bit_set d k) j = (j =? k) || bit_at d j.
Proof.
  intros Hk Hj. pose proof (Z.mod_pos_bound k 8). pose proof (Z.mod_pos_bound j 8). pose proof (Z.div_pos k 8). pose proof (Z.div_pos j 8).
  unfold bit_at, bit_set. rewrite nth_insert by (pose proof (Z.div_lt_upper_bound k 8 (Z.of_nat (length d))); lia). case_decide as E.
  - assert (j / 8 = k / 8) as Ed by lia. rewrite Ed, u8_testbit, Z.lor_spec, Z.shiftl_1_l by lia.
    destruct (decide (j mod 8 = k mod 8)) as [Em|Em].
    + rewrite Em, Z.pow2_bits_true by lia. replace (j =? k) with true by (pose proof (div_mod_eq j k Ed Em); lia). by rewrite orb_true_r.
    + rewrite Z.pow2_bits_false by lia. replace (j =? k) with false by (symmetry; apply Z.eqb_neq; by intros ->). by rewrite orb_false_r.
  - replace (j =? k) with false; [done|]. symmetry. apply Z.eqb_neq. by intros ->.
Qed.

Lemma bit_at_clear d k j : 0 ≤ k < 8 * Z.of_nat (length d) → 0 ≤ j → bit_at (bit_clear d k) j = negb (j =? k) && bit_at d j.
Proof.
  intros Hk Hj. pose proof (Z.mod_pos_bound k 8). pose proof (Z.mod_pos_bound j 8). pose proof (Z.div_pos k 8). pose proof (Z.div_pos j 8).
  unfold bit_at, bit_clear. rewrite nth_insert by (pose proof (Z.div_lt_upper_bound k 8 (Z.of_nat (length d))); lia). case_decide as E.
  - assert (j / 8 = k / 8) as Ed by lia. rewrite Ed, u8_testbit, Z.land_spec, Z.lnot_spec, Z.shiftl_1_l by lia.
    destruct (decide (j mod 8 = k mod 8)) as [Em|Em].
    + rewrite Em, Z.pow2_bits_true by lia. replace (j =? k) with true by (pose proof (div_mod_eq j k Ed Em); lia). by rewrite andb_false_r.
    + rewrite Z.pow2_bits_false by lia. replace (j =? k) with false by (symmetry; apply Z.eqb_neq; by intros ->). by rewrite andb_true_r.
  - replace (j =? k) with false; [done|]. symmetry. apply Z.eqb_neq. by intros ->.
Qed.

(** ** The layout of the disk *)

(** The bitmap lies after the log, and the first block that may be allocated after the bitmap. *)
Definition data_start (sb : superblock) : Z := sb_bmapstart sb + sb_size sb / BPB + 1.
Record layout (start : Z) (sb : superblock) : Prop := {
  ly_size : 0 < sb_size sb < 2 ^ 31;
  ly_log : 0 ≤ start;
  ly_bmap : start + LOGSIZE ≤ sb_bmapstart sb;
  ly_data : data_start sb < 2 ^ 31;
}.

Lemma bblock_eq start sb b : layout start sb → 0 ≤ b < sb_size sb →
  BBLOCK b sb = b / BPB + sb_bmapstart sb ∧ start + LOGSIZE ≤ BBLOCK b sb < data_start sb ∧ 0 ≤ BBLOCK b sb.
Proof.
  intros [Hs Hl Hb Hd] Hb0. unfold data_start in *. assert (0 ≤ LOGSIZE) by done. assert (0 < BPB) by done.
  pose proof (Z.div_pos b BPB). pose proof (Z.div_le_mono b (sb_size sb) BPB).
  assert (BBLOCK b sb = b / BPB + sb_bmapstart sb) as E by (apply u32_small; lia). rewrite E. lia.
Qed.

Section blocks.
Context `{KV : !KernelView kst} `{WB : !WaitBound}.
Hypothesis Hwait : (0 < wait_bound)%nat.
Variables (dev start : Z) (sb : superblock).
Hypothesis Hlay : layout start sb.
Hypothesis Hdev : u32 dev = dev.
Abbreviation blk := (blk dev).
Abbreviation in_tx := (in_tx dev start).

(** The bit of block [b]. *)
Definition used (s : kst) (b : Z) : bool := bit_at (blk s (BBLOCK b sb)) (b mod BPB).

Record bitmap_ok (s : kst) : Prop := {
  bm_sb : s_sb s = sb;
  bm_len b : 0 ≤ b < sb_size sb → Z.of_nat (length (blk s (BBLOCK b sb))) = BSIZE;
  bm_meta b : 0 ≤ b < data_start sb → used s b = true;
}.

Lemma bzero_spec s H bs n :
  in_tx s H bs → n ∉ H → 0 ≤ n < 2 ^ 31 → outside start n →
  Z.of_nat (length bs) < LOGSIZE - 1 → Z.of_nat (length bs) + Z.of_nat (length H) < NBUF →
  ∃ s', bzero dev n s = Ok tt s' ∧ in_tx s' H (logged n bs) ∧
    (∀ m, blk s' m = if decide (m = n) then replicate (Z.to_nat BSIZE) 0 else blk s m) ∧
    (∀ j m, m ∈ H → grabbed dev s j m → grabbed dev s' j m) ∧ s_disk s' = s_disk s ∧ frame s s'.
Proof.
  intros Htx Hn Hr Ho Hroom Hbuf.
  destruct (tx_bread Hwait dev start s H bs n Htx Hn Hbuf) as (i & s1 & H1 & T1 & G1 & _ & B1 & K1 & D1 & F1 & _).
  destruct (tx_log dev start s1 (n :: H) bs i n (λ _, replicate (Z.to_nat BSIZE) 0) T1) as (s2 & H2 & T2 & B2 & K2 & D2 & F2);
    try done; [by left|].
  destruct (tx_brelse dev start s2 H (logged n bs) i n T2 (K2 _ _ G1)) as (s3 & H3 & T3 & B3 & K3 & D3 & F3 & _).
  exists s3. split_and!; [|done| | |congruence|].
  - unfold bzero. rewrite Hdev, u32_small by lia. rewrite (bind_ok _ _ _ _ _ H1), <- bind_assoc, (bind_ok _ _ _ _ _ H2). exact H3.
  - intros m. rewrite B3, B2. case_decide; [done|apply B1].
  - intros j m Hm Hg. apply K3; [done|]. by apply K2, K1.
  - by apply (frame_trans s s1); [|apply (frame_trans s1 s2)].
Qed.

(** *** The scan of one bitmap block *)

Definition scan_end (b : Z) : Z := Z.min BPB (sb_size sb - b).

Lemma scan_set bp b s : s_sb s = sb → ∀ k, 0 ≤ k < scan_end b → bit_at (b_data (buf_at bp s)) k = true →
  balloc_bit dev bp b k s = Ok (inl (k + 1)) s.
Proof.
  intros Hsb k Hk Hb. unfold balloc_bit. erewrite bind_ok by reflexivity. rewrite Hsb.
  unfold scan_end in Hk. replace (k <? BPB) with true by lia. replace (b + k <? sb_size sb) with true by lia. cbn [andb].
  erewrite bind_ok by reflexivity. rewrite land_mask by (apply Z.mod_pos_bound; lia).
  unfold bit_at in Hb. by rewrite Hb.
Qed.

Lemma scan_skip bp b s (k fuel : nat) : s_sb s = sb → Z.of_nat k ≤ scan_end b →
  (∀ j, 0 ≤ j < Z.of_nat k → bit_at (b_data (buf_at bp s)) j = true) →
  loop (k + fuel) (balloc_bit dev bp b) 0 s = loop fuel (balloc_bit dev bp b) (Z.of_nat k) s.
Proof.
  intros Hsb Hk Hb. apply (loop_skip _ (λ j, Z.of_nat j)). intros j Hj.
  replace (Z.of_nat (S j)) with (Z.of_nat j + 1) by lia. apply scan_set; [done|lia|apply Hb; lia].
Qed.

(** Every block of this part of the bitmap is in use. *)
Lemma scan_full bp b s : s_sb s = sb → 0 ≤ scan_end b →
  (∀ j, 0 ≤ j < scan_end b → bit_at (b_data (buf_at bp s)) j = true) →
  loop (S (Z.to_nat BPB)) (balloc_bit dev bp b) 0 s = Ok None s.
Proof.
  intros Hsb He Hb. replace (S (Z.to_nat BPB)) with (Z.to_nat (scan_end b) + S (Z.to_nat (BPB - scan_end b)))%nat by (unfold scan_end in *; lia).
  rewrite scan_skip; [|done|lia|intros j Hj; apply Hb; lia]. apply loop_end. unfold balloc_bit. erewrite bind_ok by reflexivity.
  rewrite Hsb. replace (_ && _) with false; [done|]. unfold scan_end in *. lia.
Qed.

(** The block at position [k] of this part of the bitmap is the first free one. *)
Lemma scan_found s H bs bp b k :
  in_tx s (BBLOCK b sb :: H) bs → s_sb s = sb → grabbed dev s bp (BBLOCK b sb) → 0 ≤ b → 0 ≤ k < scan_end b →
  Z.of_nat (length (blk s (BBLOCK b sb))) = BSIZE →
  bit_at (blk s (BBLOCK b sb)) k = false → (∀ j, 0 ≤ j < k → bit_at (blk s (BBLOCK b sb)) j = true) →
  outside start (BBLOCK b sb) → 0 ≤ BBLOCK b sb < 2 ^ 31 →
  b + k ∉ H → outside start (b + k) → Z.of_nat (length bs) + 1 < LOGSIZE - 1 → Z.of_nat (length bs) + Z.of_nat (length H) + 1 < NBUF →
  ∃ s', loop (S (Z.to_nat BPB)) (balloc_bit dev bp b) 0 s = Ok (Some (b + k)) s' ∧
    in_tx s' H (logged (b + k) (logged (BBLOCK b sb) bs)) ∧
    (∀ m, blk s' m = if decide (m = b + k) then replicate (Z.to_nat BSIZE) 0
                     else if decide (m = BBLOCK b sb) then bit_set (blk s m) k else blk s m) ∧
    (∀ j m, m ∈ H → grabbed dev s j m → grabbed dev s' j m) ∧ s_disk s' = s_disk s ∧ frame s s'.
Proof.
  intros Htx Hsb Hg Hb0 Hk Hlen Hclr Hset Hob Hrb Hnk Hok Hroom Hbuf. set (n := BBLOCK b sb) in *.
  destruct (it_cache _ _ _ _ _ Htx) as [l Hc]. pose proof (grabbed_data dev s l bp n Hc Hg) as Hd.
  destruct (tx_log dev start s (n :: H) bs bp n (λ d, bit_set d k) Htx) as (s1 & H1 & T1 & B1 & K1 & D1 & F1); try done; [by left|lia|].
  destruct (tx_brelse dev start s1 H (logged n bs) bp n T1 (K1 _ _ Hg)) as (s2 & H2 & T2 & B2 & K2 & D2 & F2 & _).
  assert (Z.of_nat (length (logged n bs)) ≤ Z.of_nat (length bs) + 1) as Hlg.
  { unfold logged. case_decide; [lia|]. rewrite length_app. simpl. lia. }
  pose proof (ly_size _ _ Hlay) as Hsize. assert (k < BPB ∧ b + k < sb_size sb) as [Hk1 Hk2] by (unfold scan_end in Hk; lia).
  destruct (bzero_spec s2 H (logged n bs) (b + k) T2) as (s3 & H3 & T3 & B3 & K3 & D3 & F3); try done; try lia.
  exists s3. split_and!; [|done| | |congruence|].
  - replace (S (Z.to_nat BPB)) with (Z.to_nat k + S (Z.to_nat (BPB - k)))%nat by lia.
    rewrite scan_skip; [|done|lia|rewrite Hd; intros j Hj; apply Hset; lia]. rewrite Z2Nat.id by lia. apply loop_end.
    unfold balloc_bit. erewrite bind_ok by reflexivity. rewrite Hsb.
    replace (k <? BPB) with true by lia. replace (b + k <? sb_size sb) with true by lia. cbn [andb].
    erewrite bind_ok by reflexivity. rewrite Hd, land_mask by (apply Z.mod_pos_bound; lia).
    unfold bit_at in Hclr. rewrite Hclr. cbn [negb].
    assert (upd_data bp (<[Z.to_nat (k / 8):=u8 (Z.lor (nth (Z.to_nat (k / 8)) (blk s n) 0) (Z.shiftl 1 (k mod 8)))]>) s =
            upd_data bp (λ d, bit_set d k) s) as E by (unfold upd_data, upd_buf, bit_set; by rewrite Hd).
    erewrite bind_ok by reflexivity. rewrite E. erewrite (bind_ok (modify _)) in H1 by reflexivity.
    rewrite (bind_ok _ _ _ _ _ H1), (bind_ok _ _ _ _ _ H2), (bind_ok _ _ _ _ _ H3). unfold mret, M_ret. by rewrite u32_small by lia.
  - intros m. rewrite B3. case_decide; [done|]. rewrite B2, B1. case_decide; [by subst|done].
  - intros j m Hm Hj. apply K3; [done|]. apply K2; [done|]. by apply K1.
  - by apply (frame_trans s s1); [|apply (frame_trans s1 s2)].
Qed.

Lemma bblock_part i j : 0 ≤ i → 0 ≤ j < BPB → BBLOCK (BPB * i + j) sb = BBLOCK (BPB * i) sb ∧ (BPB * i + j) mod BPB = j.
Proof.
  clear Hwait.
  intros Hi Hj. assert (0 < BPB) by done. unfold BBLOCK. rewrite (Z.mul_comm BPB). split.
  - by rewrite Z.div_add_l, Z.div_mul, (Z.div_small j), Z.add_0_r by lia.
  - by rewrite Z.add_comm, Z.mod_add, Z.mod_small by lia.
Qed.

Lemma used_part s i j : 0 ≤ i → 0 ≤ j < BPB → used s (BPB * i + j) = bit_at (blk s (BBLOCK (BPB * i) sb)) j.
Proof. clear Hwait. intros Hi Hj. unfold used. destruct (bblock_part i j Hi Hj) as [-> ->]. done. Qed.

(** What an allocation of block [t] does. *)
Record allocated (s : kst) (H bs : list Z) (t : Z) (s' : kst) : Prop := {
  al_tx : in_tx s' H (logged t (logged (BBLOCK t sb) bs));
  al_blk m : blk s' m = if decide (m = t) then replicate (Z.to_nat BSIZE) 0
                        else if decide (m = BBLOCK t sb) then bit_set (blk s m) (t mod BPB) else blk s m;
  al_grab j m : m ∈ H → grabbed dev s j m → grabbed dev s' j m;
  al_disk : s_disk s' = s_disk s;
  al_frame : frame s s';
}.

Lemma frame_sb s s' : frame s s' → s_sb s' = s_sb s.
Proof. intros [E _]. unfold aside in E. congruence. Qed.

Lemma balloc_loop t (k fuel : nat) i s H bs :
  in_tx s H bs → bitmap_ok s → (∀ b, 0 ≤ b < sb_size sb → BBLOCK b sb ∉ H) → t ∉ H →
  0 ≤ t < sb_size sb → used s t = false → (∀ c, 0 ≤ c < t → used s c = true) → 0 ≤ i → i + Z.of_nat k = t / BPB → (k < fuel)%nat →
  Z.of_nat (length bs) + 1 < LOGSIZE - 1 → Z.of_nat (length bs) + Z.of_nat (length H) + 1 < NBUF →
  ∃ s', loop fuel (balloc_turn dev) (BPB * i) s = Ok (Some t) s' ∧ allocated s H bs t s'.
Proof.
  revert fuel i s. induction k as [|k IH]; intros [|fuel] i s Htx Hbm HH HtH Ht Hfree Hused Hi Hk Hf Hroom Hbuf; try lia; cbn [loop];
    assert (0 < BPB) by done; pose proof (Z.mod_pos_bound t BPB ltac:(lia)) as Hmod; pose proof (Z.div_mod t BPB ltac:(lia)) as Hdm;
    assert (0 ≤ BPB * i < sb_size sb) as Hbi by nia;
    destruct (bblock_eq start sb (BPB * i) Hlay Hbi) as (_ & Hr & Hr0);
    destruct (tx_bread Hwait dev start s H bs (BBLOCK (BPB * i) sb) Htx (HH _ Hbi) ltac:(lia)) as (bp & s1 & H1 & T1 & G1 & Hd & B1 & K1 & D1 & F1 & _);
    pose proof (frame_sb _ _ F1) as Esb; rewrite (bm_sb _ Hbm) in Esb;
    pose proof (ly_data _ _ Hlay) as Hdata.
  - assert (BPB * i + t mod BPB = t) as Et by lia. assert (t mod BPB < scan_end (BPB * i)) as Hend by (unfold scan_end; lia).
    assert (data_start sb ≤ t) as Hmeta.
    { destruct (decide (t < data_start sb)); [|lia]. rewrite (bm_meta _ Hbm t) in Hfree by lia. done. }
    destruct (scan_found s1 H bs bp (BPB * i) (t mod BPB) T1 Esb G1) as (s2 & H2 & T2 & B2 & K2 & D2 & F2); try lia; rewrite ?B1, ?Et.
    { by apply Hbm. }
    { by rewrite <- used_part, Et by lia. }
    { intros j Hj. rewrite <- used_part by lia. apply Hused. lia. }
    { right. lia. }
    { done. }
    { right. assert (0 ≤ LOGSIZE) by done. lia. }
    exists s2. rewrite Et in *. destruct (bblock_part i (t mod BPB) Hi Hmod) as [Eb _]. rewrite Et in Eb. split.
    + unfold balloc_turn. rewrite bind_assoc. erewrite bind_ok by reflexivity. rewrite (bm_sb _ Hbm).
      replace (BPB * i <? sb_size sb) with true by lia. rewrite bind_assoc, (bind_ok _ _ _ _ _ H1), bind_assoc, (bind_ok _ _ _ _ _ H2). done.
    + constructor; rewrite ?Eb; [done| | |congruence|by apply (frame_trans s s1)].
      * intros m. rewrite B2. case_decide; [done|]. case_decide; by rewrite B1.
      * intros j m Hm Hj. apply K2; [done|]. by apply K1.
  - assert (BPB * (i + 1) ≤ t) as Hnext by nia.
    assert (loop (S (Z.to_nat BPB)) (balloc_bit dev bp (BPB * i)) 0 s1 = Ok None s1) as H2.
    { apply scan_full; [done|unfold scan_end; lia|]. intros j Hj. unfold scan_end in Hj. rewrite Hd, <- used_part by lia. apply Hused. lia. }
    destruct (tx_brelse dev start s1 H bs bp _ T1 G1) as (s2 & H3 & T2 & B2 & K2 & D2 & F2 & _).
    assert (∀ m, blk s2 m = blk s m) as B by (intros m; by rewrite B2).
    assert (∀ c, used s2 c = used s c) as U by (intros c; unfold used; by rewrite B).
    destruct (IH fuel (i + 1) s2) as (s3 & H4 & A); try done; try lia.
    { constructor; [by rewrite (frame_sb _ _ F2)|intros c Hc; rewrite B; by apply Hbm|intros c Hc; rewrite U; by apply Hbm]. }
    { by rewrite U. }
    { intros c Hc. rewrite U. by apply Hused. }
    exists s3. split.
    + rewrite (bind_ok _ _ _ (inl (BPB * (i + 1))) s2); [done|].
      unfold balloc_turn. erewrite bind_ok by reflexivity. rewrite (bm_sb _ Hbm).
      replace (BPB * i <? sb_size sb) with true by lia. rewrite (bind_ok _ _ _ _ _ H1), (bind_ok _ _ _ _ _ H2).
      rewrite (bind_ok _ _ _ _ _ H3). by replace (BPB * i + BPB) with (BPB * (i + 1)) by lia.
    + destruct A as [A1 A2 A3 A4 A5]. constructor; [done| | |congruence|].
      * intros m. rewrite A2, B. done.
      * intros j m Hm Hj. apply A3; [done|]. apply K2; [done|]. by apply K1.
      * apply (frame_trans s s1); [done|]. by apply (frame_trans s1 s2).
Qed.

(** balloc returns the first block that is not in use. *)
Lemma balloc_spec t s H bs :
  in_tx s H bs → bitmap_ok s → (∀ b, 0 ≤ b < sb_size sb → BBLOCK b sb ∉ H) → t ∉ H →
  0 ≤ t < sb_size sb → used s t = false → (∀ c, 0 ≤ c < t → used s c = true) →
  Z.of_nat (length bs) + 1 < LOGSIZE - 1 → Z.of_nat (length bs) + Z.of_nat (length H) + 1 < NBUF →
  ∃ s', balloc dev s = Ok t s' ∧ allocated s H bs t s'.
Proof.
  intros Htx Hbm HH HtH Ht Hfree Hused Hroom Hbuf. assert (0 < BPB) by done.
  destruct (balloc_loop t (Z.to_nat (t / BPB)) (Z.to_nat (sb_size sb / BPB + 2)) 0 s H bs) as (s' & Hl & A); try done.
  { pose proof (Z.div_pos t BPB). lia. }
  { pose proof (Z.div_le_mono t (sb_size sb) BPB). pose proof (Z.div_pos t BPB). lia. }
  exists s'. split; [|done]. unfold balloc. erewrite bind_ok by reflexivity. rewrite (bm_sb _ Hbm).
  rewrite Z.mul_0_r in Hl. by rewrite (bind_ok _ _ _ _ _ Hl).
Qed.

(** ** The bitmap after allocating and freeing *)

Lemma same_bit b c : 0 ≤ b < sb_size sb → 0 ≤ c < sb_size sb → BBLOCK b sb = BBLOCK c sb → b mod BPB = c mod BPB → b = c.
Proof. clear Hwait.
  intros Hb Hc Hbl Hm. destruct (bblock_eq start sb b Hlay Hb) as [E1 _]. destruct (bblock_eq start sb c Hlay Hc) as [E2 _].
  assert (0 < BPB) by done. rewrite (Z.div_mod b BPB), (Z.div_mod c BPB) by lia. nia.
Qed.

(** A change of one bit, seen block by block. *)
Lemma used_change s s' b (g : list Z → Z → list Z) (h : bool → bool) :
  (∀ c, 0 ≤ c < sb_size sb → Z.of_nat (length (blk s (BBLOCK c sb))) = BSIZE) → 0 ≤ b < sb_size sb →
  (∀ c, 0 ≤ c < sb_size sb → blk s' (BBLOCK c sb) = if decide (BBLOCK c sb = BBLOCK b sb) then g (blk s (BBLOCK b sb)) (b mod BPB) else blk s (BBLOCK c sb)) →
  (∀ d k j, 0 ≤ k < 8 * Z.of_nat (length d) → 0 ≤ j → bit_at (g d k) j = if j =? k then h (bit_at d j) else bit_at d j) →
  ∀ c, 0 ≤ c < sb_size sb → used s' c = if c =? b then h (used s c) else used s c.
Proof.
  clear Hwait.
  intros Hlen Hb Hblk Hg c Hc. assert (0 < BPB) by done. pose proof (Z.mod_pos_bound b BPB). pose proof (Z.mod_pos_bound c BPB).
  unfold used. rewrite Hblk by done. case_decide as E.
  - rewrite Hg; [|rewrite Hlen by done; change (8 * BSIZE) with BPB; lia|lia]. rewrite E.
    destruct (Z.eqb_spec (c mod BPB) (b mod BPB)) as [Em|Em].
    + replace (c =? b) with true; [done|]. symmetry. apply Z.eqb_eq. by apply same_bit.
    + replace (c =? b) with false; [done|]. symmetry. apply Z.eqb_neq. by intros ->.
  - replace (c =? b) with false; [done|]. symmetry. apply Z.eqb_neq. by intros ->.
Qed.

Lemma length_bit_set d k : length (bit_set d k) = length d.
Proof. apply length_insert. Qed.
Lemma length_bit_clear d k : length (bit_clear d k) = length d.
Proof. apply length_insert. Qed.

Lemma allocated_used s H bs t s' : bitmap_ok s → data_start sb ≤ t < sb_size sb → allocated s H bs t s' →
  bitmap_ok s' ∧ ∀ c, 0 ≤ c < sb_size sb → used s' c = (c =? t) || used s c.
Proof.
  clear Hwait.
  intros Hbm Ht A. pose proof (ly_log _ _ Hlay). pose proof (ly_bmap _ _ Hlay). pose proof (ly_size _ _ Hlay).
  assert (0 ≤ t < sb_size sb) as Ht' by (destruct (bblock_eq start sb 0 Hlay) as (_ & ? & ?); lia).
  assert (∀ c, 0 ≤ c < sb_size sb → blk s' (BBLOCK c sb) =
    if decide (BBLOCK c sb = BBLOCK t sb) then bit_set (blk s (BBLOCK t sb)) (t mod BPB) else blk s (BBLOCK c sb)) as Hb.
  { intros c Hc. destruct (bblock_eq start sb c Hlay Hc) as (_ & Hr & _). rewrite (al_blk _ _ _ _ _ A), decide_False by lia.
    case_decide as E; [by rewrite E|done]. }
  assert (∀ c, 0 ≤ c < sb_size sb → used s' c = (c =? t) || used s c) as U.
  { intros c Hc. rewrite (used_change s s' t bit_set (λ _, true)); [by destruct (c =? t)|apply Hbm|done|done| |done].
    intros d k j Hk Hj. rewrite bit_at_set by done. by destruct (j =? k). }
  split; [|done]. constructor.
  - rewrite (frame_sb _ _ (al_frame _ _ _ _ _ A)). apply Hbm.
  - intros c Hc. rewrite Hb by done. case_decide; [rewrite length_bit_set|]; by apply Hbm.
  - intros c Hc. pose proof (bm_meta _ Hbm c Hc) as Hu. rewrite U; [by rewrite Hu, orb_true_r|]. lia.
Qed.

(** ** bfree *)

Record freed (s : kst) (H bs : list Z) (b : Z) (s' : kst) : Prop := {
  fd_tx : in_tx s' H (logged (BBLOCK b sb) bs);
  fd_blk m : blk s' m = if decide (m = BBLOCK b sb) then bit_clear (blk s m) (b mod BPB) else blk s m;
  fd_grab j m : m ∈ H → grabbed dev s j m → grabbed dev s' j m;
  fd_disk : s_disk s' = s_disk s;
  fd_frame : frame s s';
}.

Lemma bfree_spec b s H bs :
  in_tx s H bs → s_sb s = sb → BBLOCK b sb ∉ H → 0 ≤ b < sb_size sb →
  Z.of_nat (length bs) < LOGSIZE - 1 → Z.of_nat (length bs) + Z.of_nat (length H) < NBUF →
  if used s b then ∃ s', bfree dev b s = Ok tt s' ∧ freed s H bs b s' else bfree dev b s = Panic "freeing free block".
Proof.
  intros Htx Hsb HH Hb Hroom Hbuf. destruct (bblock_eq start sb b Hlay Hb) as (_ & Hr & Hr0).
  pose proof (ly_data _ _ Hlay) as Hdata. set (n := BBLOCK b sb) in *.
  destruct (tx_bread Hwait dev start s H bs n Htx HH Hbuf) as (bp & s1 & H1 & T1 & G1 & Hd & B1 & K1 & D1 & F1 & _).
  assert (0 < BPB) as Hbpb by done. pose proof (Z.mod_pos_bound b BPB ltac:(lia)) as Hm.
  destruct (used s b) eqn:Hu; unfold used, bit_at in Hu; fold n in Hu.
  - destruct (tx_log dev start s1 (n :: H) bs bp n (λ d, bit_clear d (b mod BPB)) T1) as (s2 & H2 & T2 & B2 & K2 & D2 & F2);
      try done; [by left|lia|right; lia|].
    destruct (tx_brelse dev start s2 H (logged n bs) bp n T2 (K2 _ _ G1)) as (s3 & H3 & T3 & B3 & K3 & D3 & F3 & _).
    exists s3. split.
    + unfold bfree. erewrite bind_ok by reflexivity. rewrite Hsb, Hdev. fold n. rewrite (bind_ok _ _ _ _ _ H1).
      erewrite bind_ok by reflexivity. rewrite Hd, land_mask, Hu by (apply Z.mod_pos_bound; lia). cbn [negb].
      assert (upd_data bp (<[Z.to_nat (b mod BPB / 8):=u8 (Z.land (nth (Z.to_nat (b mod BPB / 8)) (blk s n) 0) (Z.lnot (Z.shiftl 1 ((b mod BPB) mod 8))))]>) s1 =
            upd_data bp (λ d, bit_clear d (b mod BPB)) s1) as E by (unfold upd_data, upd_buf, bit_clear; by rewrite Hd).
      erewrite bind_ok by reflexivity. rewrite E. erewrite (bind_ok (modify _)) in H2 by reflexivity.
      by rewrite (bind_ok _ _ _ _ _ H2).
    + constructor; fold n; [done| | |congruence|].
      * intros m. rewrite B3, B2. case_decide; [by subst; rewrite B1|apply B1].
      * intros j m HmH Hj. apply K3; [done|]. by apply K2, K1.
      * apply (frame_trans s s1); [done|]. by apply (frame_trans s1 s2).
  - unfold bfree. erewrite bind_ok by reflexivity. rewrite Hsb, Hdev. fold n. rewrite (bind_ok _ _ _ _ _ H1).
    erewrite bind_ok by reflexivity. rewrite Hd, land_mask, Hu by (apply Z.mod_pos_bound; lia). done.
Qed.

Lemma freed_used s H bs b s' : bitmap_ok s → data_start sb ≤ b < sb_size sb → freed s H bs b s' →
  bitmap_ok s' ∧ ∀ c, 0 ≤ c < sb_size sb → used s' c = negb (c =? b) && used s c.
Proof.
  clear Hwait.
  intros Hbm Hb A. pose proof (ly_log _ _ Hlay). pose proof (ly_bmap _ _ Hlay). pose proof (ly_size _ _ Hlay).
  assert (0 ≤ b < sb_size sb) as Hb' by (destruct (bblock_eq start sb 0 Hlay) as (_ & ? & ?); lia).
  assert (∀ c, 0 ≤ c < sb_size sb → blk s' (BBLOCK c sb) =
    if decide (BBLOCK c sb = BBLOCK b sb) then bit_clear (blk s (BBLOCK b sb)) (b mod BPB) else blk s (BBLOCK c sb)) as Hbk.
  { intros c Hc. rewrite (fd_blk _ _ _ _ _ A). case_decide as E; [by rewrite E|done]. }
  assert (∀ c, 0 ≤ c < sb_size sb → used s' c = negb (c =? b) && used s c) as U.
  { intros c Hc. rewrite (used_change s s' b bit_clear (λ _, false)); [by destruct (c =? b)|apply Hbm|done|done| |done].
    intros d k j Hk Hj. rewrite bit_at_clear by done. by destruct (j =? k). }
  split; [|done]. constructor.
  - rewrite (frame_sb _ _ (fd_frame _ _ _ _ _ A)). apply Hbm.
  - intros c Hc. rewrite Hbk by done. case_decide; [rewrite length_bit_clear|]; by apply Hbm.
  - intros c Hc. pose proof (bm_meta _ Hbm c Hc) as Hu. rewrite U by lia. rewrite Hu. by replace (c =? b) with false by lia.
Qed.
End blocks.

(** ** Properties *)

(** C11: balloc returns the first block that the bitmap has free, and bfree undoes it.
    After balloc the block is zero and in use, every other block of the data area is
    as it was, and no other bit has changed; after bfree of that block the bitmap has
    the bits it had before. *)
Theorem balloc_bfree_roundtrip `{!KernelView kst} `{!WaitBound} dev start sb s bs t :
  (0 < wait_bound)%nat → layout start sb → u32 dev = dev → in_tx dev start s [] bs → bitmap_ok dev sb s →
  0 ≤ t < sb_size sb → used dev sb s t = false → (∀ c, 0 ≤ c < t → used dev sb s c = true) →
  Z.of_nat (length bs) + 2 < LOGSIZE - 1 →
  ∃ s1 s2, balloc dev s = Ok t s1 ∧ blk dev s1 t = replicate (Z.to_nat BSIZE) 0 ∧
    (∀ m, data_start sb ≤ m → m ≠ t → blk dev s1 m = blk dev s m) ∧
    (∀ c, 0 ≤ c < sb_size sb → used dev sb s1 c = (c =? t) || used dev sb s c) ∧
    bfree dev t s1 = Ok tt s2 ∧ (∀ c, 0 ≤ c < sb_size sb → used dev sb s2 c = used dev sb s c).
Proof.
  intros Hw Hlay Hdev Htx Hbm Ht Hfree Hused Hroom. assert (LOGSIZE = NBUF) as EN by done.
  assert (data_start sb ≤ t) as Hds.
  { destruct (decide (t < data_start sb)); [|lia]. rewrite (bm_meta _ _ _ Hbm t) in Hfree by lia. done. }
  destruct (balloc_spec Hw dev start sb Hlay Hdev t s [] bs) as (s1 & H1 & A); try done; try lia.
  { intros b _ []%elem_of_nil. } { intros []%elem_of_nil. } { simpl. lia. }
  destruct (allocated_used dev start sb Hlay s [] bs t s1 Hbm ltac:(lia) A) as [Hbm1 U1]. destruct A as [T1 B1 _ D1 F1].
  pose proof (bfree_spec Hw dev start sb Hlay Hdev t s1 [] _ T1 (bm_sb _ _ _ Hbm1)) as Hf. rewrite U1, Z.eqb_refl in Hf by done. simpl orb in Hf.
  assert (length (logged t (logged (BBLOCK t sb) bs)) ≤ 2 + length bs)%nat as Hl.
  { unfold logged. repeat case_decide; rewrite ?length_app; simpl; lia. }
  destruct Hf as (s2 & H2 & A2); [intros []%elem_of_nil|done|lia|simpl; lia|].
  destruct (freed_used dev start sb Hlay s1 [] _ t s2 Hbm1 ltac:(lia) A2) as [_ U2].
  exists s1, s2. split_and!; try done.
  - by rewrite B1, decide_True.
  - intros m Hm Hmt. destruct (bblock_eq start sb t Hlay Ht) as (_ & ? & _). by rewrite B1, !decide_False by lia.
  - intros c Hc. rewrite U2, U1 by done. destruct (c =? t) eqn:E; [|done]. assert (c = t) as -> by lia. by rewrite Hfree.
Qed.

(** Bfree panics on a block that is free already, whatever the bitmap. *)
Theorem bfree_free_block_panics `{!KernelView kst} `{!WaitBound} dev start sb s bs b :
  (0 < wait_bound)%nat → layout start sb → u32 dev = dev → in_tx dev start s [] bs → s_sb s = sb →
  0 ≤ b < sb_size sb → used dev sb s b = false → Z.of_nat (length bs) < LOGSIZE - 1 →
  bfree dev b s = Panic "freeing free block".
Proof.
  intros Hw Hlay Hdev Htx Hsb Hb Hu Hroom. pose proof (bfree_spec Hw dev start sb Hlay Hdev b s [] bs Htx Hsb) as Hf. rewrite Hu in Hf.
  assert (LOGSIZE = NBUF) as EN by done. apply Hf; [intros []%elem_of_nil|done|done|simpl; lia].
Qed.

(** ** A disk as mkfs lays it out, in an operation *)

(** Blocks 0 to 45 are the boot block, the superblock, the log, the inodes and the bitmap. *)
Definition sb1 : superblock := Superblock 0x10203040 2000 1954 200 30 2 32 45.
Definition bitmap1 : list Z := replicate 5 255 ++ [63] ++ replicate 1018 0.
Definition disk1 (n : Z) : list Z := if n =? 45 then bitmap1 else replicate 1024 0.
Definition fs_on (D : Z → list Z) : kst := set_s_sb sb1 (set_s_disk (Disk D []) in_op).
Definition fs_op : kst := fs_on disk1.

Lemma not_cached D m : cached 1 (fs_on D) m = None.
Proof.
  destruct (cached 1 (fs_on D) m) as [i|] eqn:E; [|reflexivity]. apply cached_holds in E as (Hi & Hdv & _). exfalso.
  assert (Forall (λ i, b_dev (buf_at i (fs_on D)) = 0) (seqZ 0 NBUF)) as Hf by (vm_compute; repeat constructor).
  rewrite Forall_forall in Hf. rewrite (Hf i) in Hdv by (apply elem_of_seqZ; lia). discriminate.
Qed.
Lemma blk_fs_on D m : blk 1 (fs_on D) m = D m.
Proof. unfold blk. by rewrite not_cached. Qed.

Lemma layout1 : layout 2 sb1.
Proof. constructor; vm_compute; (done || (split; done)). Qed.

Lemma fs_on_tx D : in_tx 1 2 (fs_on D) [] [].
Proof.
  constructor.
  - exists boot_order. apply cache_ok_of. vm_compute. reflexivity.
  - exact kern3_ok.
  - unfold NPROC. simpl. lia.
  - constructor; [split; vm_compute; done|vm_compute; done|apply NoDup_nil_2|intros b []%elem_of_nil].
  - constructor; vm_compute; reflexivity.
  - vm_compute. reflexivity.
  - vm_compute. discriminate.
  - vm_compute. reflexivity.
  - vm_compute. reflexivity.
  - apply NoDup_nil_2.
  - intros m. unfold ref. rewrite not_cached. reflexivity.
  - intros m _. unfold owner. rewrite not_cached. reflexivity.
  - vm_compute. reflexivity.
  - intros m _. apply blk_fs_on.
Qed.

Lemma bblock1 b : 0 ≤ b < 2000 → BBLOCK b sb1 = 45.
Proof. intros Hb. unfold BBLOCK. change (sb_bmapstart sb1) with 45. rewrite Z.div_small; [reflexivity|]. assert (BPB = 8192) as -> by reflexivity. lia. Qed.

Lemma used1 b : 0 ≤ b < 2000 → used 1 sb1 fs_op b = (b <? 46).
Proof.
  intros Hb. unfold used, fs_op. rewrite bblock1, blk_fs_on by done. rewrite Z.mod_small by (assert (BPB = 8192) as -> by reflexivity; lia).
  change (disk1 45) with bitmap1.
  assert (forallb (λ b, eqb (bit_at bitmap1 b) (b <? 46)) (seqZ 0 2000) = true) as Hf by (vm_compute; reflexivity).
  rewrite forallb_forall in Hf. apply eqb_prop, Hf, list_elem_of_In, elem_of_seqZ. lia.
Qed.

Lemma bitmap_ok1 : bitmap_ok 1 sb1 fs_op.
Proof.
  constructor; [reflexivity| |].
  - intros b Hb. unfold fs_op. rewrite bblock1, blk_fs_on by done. vm_compute. reflexivity.
  - intros b Hb. assert (data_start sb1 = 46) as E by (vm_compute; reflexivity). rewrite used1 by lia. lia.
Qed.

Lemma balloc_bfree_roundtrip_witness :
  ∃ s1 s2, @balloc alone turns1 1 fs_op = Ok 46 s1 ∧ @bfree alone turns1 1 46 s1 = Ok tt s2 ∧ used 1 sb1 s2 46 = false.
Proof.
  destruct (@balloc_bfree_roundtrip alone turns1 1 2 sb1 fs_op [] 46) as (s1 & s2 & H1 & _ & _ & _ & H2 & U).
  - unfold wait_bound, turns1. lia.
  - exact layout1.
  - reflexivity.
  - exact (fs_on_tx disk1).
  - exact bitmap_ok1.
  - simpl. lia.
  - rewrite used1 by lia. reflexivity.
  - intros c Hc. rewrite used1 by lia. lia.
  - vm_compute. reflexivity.
  - exists s1, s2. split_and!; [exact H1|exact H2|]. rewrite U by (simpl; lia). rewrite used1 by lia. reflexivity.
Defined.

Lemma bfree_free_block_panics_witness : @bfree alone turns1 1 1999 fs_op = Panic "freeing free block".
Proof.
  apply (@bfree_free_block_panics alone turns1 1 2 sb1 fs_op []).
  - unfold wait_bound, turns1. lia.
  - exact layout1.
  - reflexivity.
  - exact (fs_on_tx disk1).
  - reflexivity.
  - simpl. lia.
  - rewrite used1 by lia. reflexivity.
  - vm_compute. reflexivity.
Defined.
