(* ===== verification/FsFile.v ===== *)
(** * Properties of the contents of files: bmap, readi and writei of kernel/fs.c

    The map from the blocks of a file to the blocks of the disk, through the direct
    and the indirect addresses, and the bytes of a file. *)
From stdpp Require Import gmap.
From S2P Require Import Prelude Bytes Mem Spinlock Riscv Kalloc Vm Proc Kstate Console Sleeplock Bio Log Fs Tx FsBlocks.
Open Scope Z_scope.

Lemma layout_pos start sb : layout start sb → 0 ≤ start + LOGSIZE < data_start sb.
Proof.
  intros [Hs Hl Hb Hd]. unfold data_start in *. pose proof (Z.div_pos (sb_size sb) BPB). assert (0 < BPB) by done. assert (0 ≤ LOGSIZE) by done. lia.
Qed.

Section file.
Context `{KV : !KernelView kst} `{WB : !WaitBound}.
Hypothesis Hwait : (0 < wait_bound)%nat.
Variables (dev start : Z) (sb : superblock).
Hypothesis Hlay : layout start sb.
Hypothesis Hdev : u32 dev = dev.
Abbreviation blk := (blk dev).
Abbreviation in_tx := (in_tx dev start).
Abbreviation used := (used dev sb).
Abbreviation bitmap_ok := (bitmap_ok dev sb).

(** ** The block map *)

Definition ind (x : inode) : Z := nth (Z.to_nat NDIRECT) (i_addrs x) 0.
(** The disk block of block [k] of the file; 0 when it has none. *)
Definition addr (s : kst) (x : inode) (k : Z) : Z :=
  if k <? NDIRECT then nth (Z.to_nat k) (i_addrs x) 0
  else if ind x =? 0 then 0 else get32 (blk s (ind x)) (4 * (k - NDIRECT)).

(** A block that a file may use. *)
Record data_block (s : kst) (b : Z) : Prop := {
  db_range : data_start sb ≤ b < sb_size sb;
  db_used : used s b = true;
  db_len : Z.of_nat (length (blk s b)) = BSIZE;
}.

Record file_ok (s : kst) (x : inode) : Prop := {
  fo_dev : i_dev x = dev;
  fo_len : Z.of_nat (length (i_addrs x)) = NDIRECT + 1;
  fo_size : 0 ≤ i_size x ≤ MAXFILE * BSIZE;
  fo_map k : 0 ≤ k → k * BSIZE < i_size x → addr s x k ≠ 0;
  fo_data k : 0 ≤ k < MAXFILE → addr s x k ≠ 0 → data_block s (addr s x k);
  fo_inj j k : 0 ≤ j < MAXFILE → 0 ≤ k < MAXFILE → addr s x j = addr s x k → addr s x j ≠ 0 → j = k;
  fo_ind : ind x ≠ 0 → data_block s (ind x);
  fo_ind_ne k : 0 ≤ k < MAXFILE → ind x ≠ 0 → addr s x k ≠ ind x;
}.

(** The inode table entry. *)
Definition has_inode (ip : Z) (x : inode) (s : kst) : Prop := it_inode (s_itable s) !! ip = Some x.
Lemma has_inode_at ip x s : has_inode ip x s → inode_at ip s = x.
Proof. intros H. unfold inode_at. by rewrite H. Qed.
Lemma has_inode_frame ip x s s' : frame s s' → has_inode ip x s → has_inode ip x s'.
Proof. intros [E _] H. unfold has_inode. replace (s_itable s') with (s_itable s); [done|]. unfold aside in E. congruence. Qed.

Lemma data_outside s b : data_block s b → outside start b ∧ 0 ≤ b < 2 ^ 31.
Proof.
  clear Hwait.
  intros [Hr _ _]. pose proof (layout_pos start sb Hlay). pose proof (ly_size _ _ Hlay). assert (0 ≤ LOGSIZE) by done. unfold outside. lia.
Qed.

Lemma data_block_ext s s' b : data_block s b → used s' b = used s b → length (blk s' b) = length (blk s b) → data_block s' b.
Proof. intros [H1 H2 H3] E1 E2. constructor; [done|by rewrite E1|by rewrite E2]. Qed.

(** ** bmap on a block that the file has *)

Lemma bmap_hit ip x k s H bs :
  in_tx s H bs → has_inode ip x s → file_ok s x → 0 ≤ k < MAXFILE → addr s x k ≠ 0 → ind x ∉ H →
  Z.of_nat (length bs) + Z.of_nat (length H) < NBUF →
  ∃ s', bmap ip k s = Ok (addr s x k) s' ∧ in_tx s' H bs ∧ (∀ m, blk s' m = blk s m) ∧
    (∀ j m, m ∈ H → grabbed dev s j m → grabbed dev s' j m) ∧ s_disk s' = s_disk s ∧ frame s s' ∧ s_log s' = s_log s.
Proof.
  intros Htx Hip Hf Hk Ha Hind Hbuf. pose proof (has_inode_at _ _ _ Hip) as Ex. unfold bmap, addr in *.
  destruct (k <? NDIRECT) eqn:Ek.
  - exists s. split_and!; try apply frame_refl; try done. erewrite bind_ok by reflexivity. rewrite Ex.
    by replace (_ =? 0) with false by lia.
  - destruct (ind x =? 0) eqn:Ei; [done|]. pose proof (fo_ind _ _ Hf ltac:(lia)) as Hdb.
    destruct (tx_bread Hwait dev start s H bs (ind x) Htx Hind Hbuf) as (bp & s1 & H1 & T1 & G1 & Hd & B1 & K1 & D1 & F1 & L1).
    destruct (tx_brelse dev start s1 H bs bp _ T1 G1) as (s2 & H2 & T2 & B2 & K2 & D2 & F2 & L2).
    exists s2. split_and!; [|done| | |congruence|by apply (frame_trans s s1)|congruence].
    + erewrite bind_ok by reflexivity. rewrite Ex. replace (k - NDIRECT <? NINDIRECT) with true by (unfold MAXFILE in Hk; lia).
      fold (ind x). rewrite Ei. erewrite bind_ok by reflexivity. rewrite Ei, (fo_dev _ _ Hf), (bind_ok _ _ _ _ _ H1).
      erewrite bind_ok by reflexivity. rewrite Hd. replace (get32 _ _ =? 0) with false by lia.
      erewrite bind_ok by reflexivity. by rewrite (bind_ok _ _ _ _ _ H2).
    + intros m. by rewrite B2.
    + intros j m Hm Hj. apply K2; [done|]. by apply K1.
Qed.

(** ** The bytes of a file *)

Definition byte (s : kst) (x : inode) (o : Z) : Z := nth (Z.to_nat (o mod BSIZE)) (blk s (addr s x (o / BSIZE))) 0.
Definition content (s : kst) (x : inode) (off n : Z) : list Z := (λ i, byte s x (off + i)) <$> seqZ 0 n.

Lemma addr_ext s s' x k : (∀ m, blk s' m = blk s m) → addr s' x k = addr s x k.
Proof. intros E. unfold addr. by rewrite E. Qed.
Lemma byte_ext s s' x o : (∀ m, blk s' m = blk s m) → byte s' x o = byte s x o.
Proof. intros E. unfold byte. by rewrite (addr_ext s s') , E. Qed.
Lemma content_ext s s' x off n : (∀ m, blk s' m = blk s m) → content s' x off n = content s x off n.
Proof. intros E. unfold content. apply list_fmap_ext. intros _ i _. by apply byte_ext. Qed.
Lemma file_ok_ext s s' x : (∀ m, blk s' m = blk s m) → file_ok s x → file_ok s' x.
Proof.
  intros E [F1 F2 F3 F4 F5 F6 F7 F8].
  assert (∀ k, addr s' x k = addr s x k) as Ea by (intros k; by apply addr_ext).
  assert (∀ b, data_block s b → data_block s' b) as Hd.
  { intros b Hb. apply (data_block_ext s); [done|unfold FsBlocks.used; by rewrite E|by rewrite E]. }
  constructor; try done; intros *; rewrite ?Ea.
  - by apply F4.
  - intros. apply Hd. by apply F5.
  - by apply F6.
  - intros. by apply Hd, F7.
  - by apply F8.
Qed.

Lemma content_app s x off m n : 0 ≤ m → 0 ≤ n → content s x off (m + n) = content s x off m ++ content s x (off + m) n.
Proof.
  clear Hwait.
  intros Hm Hn. unfold content. rewrite seqZ_app by done. rewrite fmap_app. f_equal. rewrite Z.add_0_l.
  replace (seqZ m n) with (Z.add m <$> seqZ 0 n) by (rewrite fmap_add_seqZ; f_equal; lia).
  rewrite <- list_fmap_compose. apply list_fmap_ext. intros _ i _. simpl. f_equal. lia.
Qed.
Lemma length_content s x off n : length (content s x off n) = Z.to_nat n.
Proof. unfold content. by rewrite length_fmap, length_seqZ. Qed.

(** The part of a block that a turn of readi copies. *)
Lemma content_block s x off m : Z.of_nat (length (blk s (addr s x (off / BSIZE)))) = BSIZE → 0 ≤ off → 0 ≤ m → off mod BSIZE + m ≤ BSIZE →
  sub (blk s (addr s x (off / BSIZE))) (off mod BSIZE) m = content s x off m.
Proof.
  clear Hwait.
  intros Hl Ho Hm Hb. assert (0 < BSIZE) as HB by done. pose proof (Z.mod_pos_bound off BSIZE HB) as Hmod.
  unfold sub, content. apply list_eq. intros i. rewrite list_lookup_fmap. destruct (decide (Z.of_nat i < m)) as [Hi|Hi].
  - rewrite lookup_take_lt, lookup_drop, lookup_seqZ_lt by lia. simpl. rewrite Z.add_0_l. unfold byte.
    pose proof (Z.div_mod off BSIZE ltac:(lia)) as Hdm.
    assert ((off + Z.of_nat i) / BSIZE = off / BSIZE) as ->.
    { symmetry. apply (Z.div_unique _ _ _ (off mod BSIZE + Z.of_nat i)); lia. }
    assert ((off + Z.of_nat i) mod BSIZE = off mod BSIZE + Z.of_nat i) as ->.
    { symmetry. apply (Z.mod_unique _ _ (off / BSIZE)); lia. }
    replace (Z.to_nat (off mod BSIZE + Z.of_nat i)) with (Z.to_nat (off mod BSIZE) + i)%nat by lia.
    rewrite nth_lookup. destruct (lookup_lt_is_Some_2 (blk s (addr s x (off / BSIZE))) (Z.to_nat (off mod BSIZE) + i)) as [v Hv]; [lia|].
    by rewrite Hv.
  - rewrite lookup_take_ge, lookup_seqZ_ge by lia. done.
Qed.

(** ** readi *)

(** The turn that copies [m] bytes at [off] to a local buffer. *)
Definition turn_bytes (off r : Z) : Z := Z.min r (BSIZE - off mod BSIZE).

Lemma readi_turn_spec ip x n tot off acc s bs :
  in_tx s [] bs → has_inode ip x s → file_ok s x → 0 ≤ tot < n → 0 ≤ off → off + (n - tot) ≤ i_size x →
  Z.of_nat (length bs) + 1 < NBUF →
  let m := turn_bytes off (n - tot) in
  ∃ s', readi_turn ip ToLocal n (tot, off, acc) s = Ok (inl (tot + m, off + m, acc ++ content s x off m)) s' ∧
    in_tx s' [] bs ∧ (∀ b, blk s' b = blk s b) ∧ s_disk s' = s_disk s ∧ frame s s'.
Proof.
  intros Htx Hip Hf Ht Hoff Hsz Hbuf m. assert (0 < BSIZE) as HB by done.
  pose proof (Z.mod_pos_bound off BSIZE HB) as Hmod. pose proof (Z.div_mod off BSIZE ltac:(lia)) as Hdm.
  assert (0 ≤ off / BSIZE < MAXFILE) as Hk.
  { pose proof (fo_size _ _ Hf). split; [apply Z.div_pos; lia|]. apply Z.div_lt_upper_bound; lia. }
  pose proof (fo_map _ _ Hf (off / BSIZE) ltac:(lia) ltac:(lia)) as Ha. pose proof (fo_data _ _ Hf _ Hk Ha) as Hdb.
  destruct (bmap_hit ip x (off / BSIZE) s [] bs Htx Hip Hf Hk Ha) as (s1 & H1 & T1 & B1 & _ & D1 & F1 & _); [by intros ?%elem_of_nil|simpl; lia|].
  destruct (tx_bread Hwait dev start s1 [] bs (addr s x (off / BSIZE)) T1) as (bp & s2 & H2 & T2 & G2 & Hd & B2 & _ & D2 & F2 & _);
    [by intros ?%elem_of_nil|simpl; lia|].
  destruct (tx_brelse dev start s2 [] bs bp _ T2 G2) as (s3 & H3 & T3 & B3 & _ & D3 & F3 & _).
  exists s3. split_and!; [|done| |congruence|].
  - unfold readi_turn. replace (tot <? n) with true by lia. rewrite (bind_ok _ _ _ _ _ H1).
    replace (addr s x (off / BSIZE) =? 0) with false by lia. erewrite bind_ok by reflexivity.
    rewrite (has_inode_at _ _ _ (has_inode_frame _ _ _ _ F1 Hip)), (fo_dev _ _ Hf), (bind_ok _ _ _ _ _ H2).
    erewrite bind_ok by reflexivity. erewrite bind_ok by reflexivity. change (0 =? -1) with false. cbv iota.
    rewrite (bind_ok _ _ _ _ _ H3). unfold mret, M_ret. do 4 f_equal. rewrite Hd, B1.
    unfold m, turn_bytes. apply content_block; [apply Hdb|done|lia|lia].
  - intros b. by rewrite B3, B2, B1.
  - apply (frame_trans s s1); [done|]. by apply (frame_trans s1 s2).
Qed.

Lemma readi_loop ip x n (fuel : nat) tot off acc s bs :
  in_tx s [] bs → has_inode ip x s → file_ok s x → 0 ≤ tot ≤ n → 0 ≤ off → off + (n - tot) ≤ i_size x →
  Z.of_nat (length bs) + 1 < NBUF → (n = tot ∧ (0 < fuel)%nat) ∨ n - tot + off mod BSIZE ≤ (Z.of_nat fuel - 1) * BSIZE →
  ∃ s', loop fuel (readi_turn ip ToLocal n) (tot, off, acc) s = Ok (n, acc ++ content s x off (n - tot)) s' ∧
    in_tx s' [] bs ∧ (∀ b, blk s' b = blk s b) ∧ s_disk s' = s_disk s ∧ frame s s'.
Proof.
  assert (0 < BSIZE) as HB by done.
  revert tot off acc s. induction fuel as [|fuel IH]; intros tot off acc s Htx Hip Hf Ht Hoff Hsz Hbuf Hfuel.
  { pose proof (Z.mod_pos_bound off BSIZE HB). lia. }
  destruct (decide (tot < n)) as [Hlt|Hge].
  - destruct (readi_turn_spec ip x n tot off acc s bs) as (s1 & H1 & T1 & B1 & D1 & F1); try done; try lia.
    set (m := turn_bytes off (n - tot)) in *. pose proof (Z.mod_pos_bound off BSIZE HB) as Hmod.
    assert (0 < m ≤ n - tot) as Hm by (unfold m, turn_bytes; lia).
    destruct (IH (tot + m) (off + m) (acc ++ content s x off m) s1) as (s2 & H2 & T2 & B2 & D2 & F2); try done; try lia.
    { by apply (has_inode_frame ip x s). }
    { by apply (file_ok_ext s). }
    { destruct (decide (m = n - tot)) as [E|E]; [left; split; lia|right].
      assert (m = BSIZE - off mod BSIZE) as Em by (unfold m, turn_bytes in *; lia).
      assert ((off + m) mod BSIZE = 0) as ->; [|lia].
      rewrite (Z.div_mod off BSIZE) by lia. rewrite Em.
      replace (BSIZE * (off / BSIZE) + off mod BSIZE + (BSIZE - off mod BSIZE)) with ((off / BSIZE + 1) * BSIZE) by lia. apply Z.mod_mul. lia. }
    exists s2. split_and!; [|done|intros b; by rewrite B2|congruence|by apply (frame_trans s s1)].
    cbn [loop]. rewrite (bind_ok _ _ _ _ _ H1), H2. f_equal. f_equal. rewrite <- app_assoc. f_equal.
    rewrite (content_ext s s1) by done. rewrite <- content_app by lia. f_equal. lia.
  - assert (tot = n) as -> by lia. exists s. split_and!; [|done|done|done|apply frame_refl]. apply loop_end. unfold readi_turn.
    rewrite Z.ltb_irrefl, Z.sub_diag, app_nil_r. done.
Qed.

Lemma readi_spec ip x off n s bs :
  in_tx s [] bs → has_inode ip x s → file_ok s x → 0 ≤ off < 2 ^ 32 → 0 ≤ n < 2 ^ 31 → Z.of_nat (length bs) + 1 < NBUF →
  let r := if off >? i_size x then 0 else if u32 (off + n) <? off then 0 else Z.min n (i_size x - off) in
  ∃ s', readi ip ToLocal off n s = Ok (r, content s x off r) s' ∧
    in_tx s' [] bs ∧ (∀ b, blk s' b = blk s b) ∧ s_disk s' = s_disk s ∧ frame s s'.
Proof.
  intros Htx Hip Hf Hoff Hn Hbuf r. pose proof (fo_size _ _ Hf) as Hsz. assert (MAXFILE * BSIZE = 274432) as EM by done.
  unfold readi. erewrite bind_ok by reflexivity. rewrite (has_inode_at _ _ _ Hip). fold r.
  destruct (off >? i_size x) eqn:E1; cbn [orb].
  { exists s. by split_and!. }
  destruct (u32 (off + n) <? off) eqn:E2.
  { exists s. by split_and!. }
  set (n' := if u32 (off + n) >? i_size x then i_size x - off else n).
  assert (n' = r) as En.
  { unfold n', r. rewrite u32_small by lia. destruct (off + n >? i_size x) eqn:E3; lia. }
  assert (0 ≤ r ≤ n ∧ off + r ≤ i_size x) as Hr by (unfold r; lia).
  destruct (readi_loop ip x r (io_fuel r) 0 off [] s bs) as (s1 & H1 & T1 & B1 & D1 & F1); try done; try lia.
  { right. assert (0 < BSIZE) as HB by done. pose proof (Z.mod_pos_bound off BSIZE HB). pose proof (Z.div_mod r BSIZE ltac:(lia)).
    pose proof (Z.mod_pos_bound r BSIZE HB). unfold io_fuel. pose proof (Z.div_pos r BSIZE). rewrite Z2Nat.id by lia. lia. }
  exists s1. split_and!; try done. rewrite En, (bind_ok _ _ _ _ _ H1). cbn [app]. rewrite Z.sub_0_r, s32_small by lia. done.
Qed.
End file.
