(* ===== verification/FsInode.v ===== *)
(** * Inodes on the disk: struct dinode, iupdate and the first half of ilock (kernel/fs.c)

    What iupdate stores of an inode is what ilock reads back, and the other inodes of
    the block are not touched. *)
From stdpp Require Import gmap.
From S2P Require Import Prelude Bytes Mem Spinlock Riscv Kalloc Vm Proc Kstate Console Sleeplock Bio Log Fs Tx FsBlocks FsFile.
Open Scope Z_scope.

(** ** Arrays of words *)

Definition words (l : list Z) : list Z := concat (le_bytes 4 <$> l).

Lemma length_words l : Z.of_nat (length (words l)) = 4 * Z.of_nat (length l).
Proof.
  induction l as [|a l IH]; [done|]. change (words (a :: l)) with (le_bytes 4 a ++ words l). rewrite length_app, length_le_bytes, length_cons. lia.
Qed.

Lemma sub_words l (k : nat) a : l !! k = Some a → sub (words l) (4 * Z.of_nat k) 4 = le_bytes 4 a.
Proof.
  unfold words, sub. revert k. induction l as [|b l IH]; intros [|k] H; simplify_eq/=; [done|].
  replace (Z.to_nat (4 * Z.of_nat (S k))) with (4 + Z.to_nat (4 * Z.of_nat k))%nat by lia. simpl. by apply IH.
Qed.

Lemma sub_splice_in d o bs p n : 0 ≤ o → o + Z.of_nat (length bs) ≤ Z.of_nat (length d) → 0 ≤ p → 0 ≤ n → p + n ≤ Z.of_nat (length bs) →
  sub (splice d o bs) (o + p) n = sub bs p n.
Proof.
  intros Ho Hl Hp Hn Hpn. unfold sub, splice. apply list_eq. intros i. destruct (decide (i < Z.to_nat n)%nat) as [Hi|Hi].
  - rewrite !lookup_take_lt, !lookup_drop by done. rewrite list_lookup_inserts by lia. f_equal. lia.
  - by rewrite !lookup_take_ge by lia.
Qed.

Lemma get32_words d o l (k : nat) a : 0 ≤ o → o + 4 * Z.of_nat (length l) ≤ Z.of_nat (length d) → l !! k = Some a → 0 ≤ a < 2 ^ 32 →
  get32 (splice d o (words l)) (o + 4 * Z.of_nat k) = a.
Proof.
  intros Ho Hl Hk Ha. pose proof (lookup_lt_Some _ _ _ Hk). pose proof (length_words l). unfold get32. rewrite get_sub.
  change (Z.of_nat 4) with 4. rewrite sub_splice_in by lia.
  rewrite (sub_words l k a), le_val_le_bytes by done. by apply Z.mod_small.
Qed.

(** ** struct dinode *)

(** The fields fit their types. *)
Definition short (v : Z) : Prop := - 2 ^ 15 ≤ v < 2 ^ 15.
Record inode_fits (x : inode) : Prop := {
  fi_type : short (i_type x);
  fi_major : short (i_major x);
  fi_minor : short (i_minor x);
  fi_nlink : short (i_nlink x);
  fi_size : 0 ≤ i_size x < 2 ^ 32;
  fi_addrs : Z.of_nat (length (i_addrs x)) = NDIRECT + 1;
  fi_addr : Forall (λ a, 0 ≤ a < 2 ^ 32) (i_addrs x);
}.

Lemma gets16_put16 d o v : 0 ≤ o → o + 2 ≤ Z.of_nat (length d) → short v → gets16 (put16 d o v) o = v.
Proof.
  intros Ho Hl Hv. unfold gets16, put16. rewrite get_put_eq by done. unfold short, s16 in *. change (256 ^ Z.of_nat 2) with (2 ^ 16).
  rewrite Z.add_mod_idemp_l, Z.mod_small by lia. lia.
Qed.
Lemma gets16_splice_ne d o bs p : 0 ≤ o → 0 ≤ p → p + 2 ≤ o ∨ o + Z.of_nat (length bs) ≤ p → gets16 (splice d o bs) p = gets16 d p.
Proof. intros. unfold gets16. by rewrite get_splice_ne. Qed.
Lemma get32_splice_ne d o bs p : 0 ≤ o → 0 ≤ p → p + 4 ≤ o ∨ o + Z.of_nat (length bs) ≤ p → get32 (splice d o bs) p = get32 d p.
Proof. intros. by apply get_splice_ne. Qed.

(** The fields on the disk, and the rest of the inode in memory. *)
Definition same_disk (x y : inode) : Prop :=
  i_type y = i_type x ∧ i_major y = i_major x ∧ i_minor y = i_minor x ∧ i_nlink y = i_nlink x ∧ i_size y = i_size x ∧ i_addrs y = i_addrs x.

(** dinode_put writes at [o], [o + 2], ..., so a field is found through the later stores. *)
Ltac dinode_field :=
  unfold dinode_put, put32, put16, put; cbv zeta;
  repeat first [rewrite gets16_splice_ne by (rewrite ?length_le_bytes; lia) | rewrite get32_splice_ne by (rewrite ?length_le_bytes; lia)].
Lemma dinode_roundtrip x d o y : inode_fits x → 0 ≤ o → o + DINODE_SIZE ≤ Z.of_nat (length d) → same_disk x (dinode_get (dinode_put x d o) o y).
Proof.
  intros [F1 F2 F3 F4 F5 F6 F7] Ho Hd. unfold same_disk, dinode_get. simpl. assert (DINODE_SIZE = 64) by done. assert (NDIRECT = 12) by done.
  split_and!.
  - dinode_field. apply gets16_put16; [lia|lia|done].
  - dinode_field. apply gets16_put16; [lia|rewrite !length_splice; lia|done].
  - dinode_field. apply gets16_put16; [lia|rewrite !length_splice; lia|done].
  - dinode_field. apply gets16_put16; [lia|rewrite !length_splice; lia|done].
  - dinode_field. apply get32_put32; [lia|rewrite !length_splice; lia|done].
  - unfold dinode_addrs. apply list_eq. intros k. rewrite list_lookup_fmap. destruct (i_addrs x !! k) as [a|] eqn:E.
    + pose proof (lookup_lt_Some _ _ _ E). rewrite lookup_seqZ_lt by lia. simpl. f_equal. rewrite Z.add_0_l. unfold dinode_put. cbv zeta.
      apply get32_words; [lia|unfold put32, put16, put; rewrite !length_splice; lia|done|]. by apply (Forall_lookup_1 _ _ _ _ F7 E).
    + apply lookup_ge_None in E. rewrite lookup_seqZ_ge by lia. done.
Qed.

(** The other inodes of the block. *)
Lemma dinode_put_ne x d o p n : 0 ≤ o → 0 ≤ p → 0 ≤ n → Z.of_nat (length (i_addrs x)) = NDIRECT + 1 → p + n ≤ o ∨ o + DINODE_SIZE ≤ p →
  sub (dinode_put x d o) p n = sub d p n.
Proof.
  intros Ho Hp Hn Hl Hne. assert (DINODE_SIZE = 64) by done. assert (NDIRECT = 12) by done. pose proof (length_words (i_addrs x)).
  unfold dinode_put. cbv zeta. fold (words (i_addrs x)). unfold put32, put16, put. by rewrite !sub_splice_ne by (rewrite ?length_le_bytes; lia).
Qed.
Lemma length_dinode_put x d o : length (dinode_put x d o) = length d.
Proof. unfold dinode_put, put32, put16, put. by rewrite !length_splice. Qed.

(** ** iupdate *)

Section inodes.
Context `{KV : !KernelView kst} `{WB : !WaitBound}.
Hypothesis Hwait : (0 < wait_bound)%nat.
Variables (dev start : Z) (sb : superblock).
Hypothesis Hlay : layout start sb.
Hypothesis Hdev : u32 dev = dev.
Abbreviation blk := (blk dev).
Abbreviation in_tx := (in_tx dev start).

(** Where the inode is on the disk: between the log and the bitmap. *)
Definition inode_off (x : inode) : Z := DINODE_SIZE * (i_inum x mod IPB).
Record inode_place (s : kst) (x : inode) : Prop := {
  pl_inum : 0 ≤ i_inum x;
  pl_block : start + LOGSIZE ≤ IBLOCK (i_inum x) sb < sb_bmapstart sb;
  pl_len : Z.of_nat (length (blk s (IBLOCK (i_inum x) sb))) = BSIZE;
}.

Lemma inode_off_range x : 0 ≤ inode_off x ∧ inode_off x + DINODE_SIZE ≤ BSIZE.
Proof.
  clear Hwait. unfold inode_off. assert (IPB = 16) as -> by done. assert (BSIZE = 1024) as -> by done. assert (DINODE_SIZE = 64) as -> by done.
  pose proof (Z.mod_pos_bound (i_inum x) 16). lia.
Qed.

Lemma iupdate_spec ip x s bs :
  in_tx s [] bs → has_inode ip x s → i_dev x = dev → s_sb s = sb → inode_place s x → Z.of_nat (length bs) < LOGSIZE - 1 →
  ∃ s', iupdate ip s = Ok tt s' ∧ in_tx s' [] (logged (IBLOCK (i_inum x) sb) bs) ∧
    (∀ m, blk s' m = if decide (m = IBLOCK (i_inum x) sb) then dinode_put x (blk s (IBLOCK (i_inum x) sb)) (inode_off x) else blk s m) ∧
    s_disk s' = s_disk s ∧ frame s s'.
Proof.
  intros Htx Hip Hd Hsb [P1 P2 P3] Hroom. set (b := IBLOCK (i_inum x) sb) in *. assert (LOGSIZE = NBUF) as EN by done.
  destruct (tx_bread Hwait dev start s [] bs b Htx) as (bp & s1 & H1 & T1 & G1 & Hb & B1 & _ & D1 & F1 & _); [by intros ?%elem_of_nil|simpl; lia|].
  destruct (tx_log dev start s1 [b] bs bp b (λ d, dinode_put x d (inode_off x)) T1) as (s2 & H2 & T2 & B2 & K2 & D2 & F2); try done;
    [by left|pose proof (ly_data _ _ Hlay); pose proof (layout_pos _ _ Hlay); unfold data_start in *; pose proof (ly_log _ _ Hlay); assert (0 ≤ LOGSIZE) by done;
      pose proof (Z.div_pos (sb_size sb) BPB); pose proof (ly_size _ _ Hlay); assert (0 < BPB) by done; lia|unfold outside; lia|].
  destruct (tx_brelse dev start s2 [] (logged b bs) bp b T2 (K2 _ _ G1)) as (s3 & H3 & T3 & B3 & _ & D3 & F3 & _).
  exists s3. split_and!; [|done| |congruence|].
  - unfold iupdate. erewrite bind_ok by reflexivity. erewrite bind_ok by reflexivity. rewrite (has_inode_at _ _ _ Hip), Hsb, Hd.
    rewrite (bind_ok _ _ _ _ _ H1). rewrite <- (bind_assoc _ (λ _, log_write bp)). by rewrite (bind_ok _ _ _ _ _ H2).
  - intros m. by rewrite B3, B2, !B1.
  - eapply frame_trans; [done|]. by eapply frame_trans.
Qed.
End inodes.
