(* ===== verification/FsWrite.v ===== *)
(** * Writing files: bmap on a new block, writei and iupdate of kernel/fs.c

    A file grows by blocks from the bitmap; a write changes the bytes it is given and
    no others, and what is written can be read back. *)
From stdpp Require Import gmap.
From S2P Require Import Prelude Bytes Mem Spinlock Riscv Kalloc Vm Proc Kstate Console Sleeplock Bio Log Fs Tx FsBlocks FsFile FsInode.
Open Scope Z_scope.

Lemma nth_splice (d : list Z) o (bs : list Z) i : 0 ≤ o → o + Z.of_nat (length bs) ≤ Z.of_nat (length d) → 0 ≤ i →
  nth (Z.to_nat i) (splice d o bs) 0 = if decide (o ≤ i < o + Z.of_nat (length bs)) then nth (Z.to_nat (i - o)) bs 0 else nth (Z.to_nat i) d 0.
Proof.
  intros Ho Hl Hi. unfold splice. rewrite !nth_lookup. case_decide.
  - rewrite list_lookup_inserts by lia. do 2 f_equal. lia.
  - destruct (decide (i < o)); [rewrite list_lookup_inserts_lt by lia|rewrite list_lookup_inserts_ge by lia]; done.
Qed.

Lemma nth_sub (d : list Z) o n i : 0 ≤ o → 0 ≤ i < n → nth (Z.to_nat i) (sub d o n) 0 = nth (Z.to_nat (o + i)) d 0.
Proof. intros Ho Hi. unfold sub. rewrite !nth_lookup, lookup_take_lt, lookup_drop by lia. do 2 f_equal. lia. Qed.

Lemma get_replicate0 n o k : get n (replicate k 0) o = 0.
Proof.
  rewrite get_sub. unfold sub. rewrite drop_replicate, take_replicate.
  generalize (Z.to_nat (Z.of_nat n) `min` (k - Z.to_nat o))%nat. induction n0 as [|m IH]; simpl; lia.
Qed.

(** Two steps whose effect together is known. *)
Lemma bind_two {S A} (m n : M S unit) (k : M S A) s s' : (m;; n) s = Ok tt s' → (m;; n;; k) s = k s'.
Proof. intros E. by rewrite <- (bind_assoc m (λ _, n)), (bind_ok _ _ _ _ _ E). Qed.

Lemma length_logged n bs : (length (logged n bs) ≤ S (length bs))%nat.
Proof. unfold logged. case_decide; [lia|]. rewrite length_app. simpl. lia. Qed.

Section write.
Context `{KV : !KernelView kst} `{WB : !WaitBound}.
Hypothesis Hwait : (0 < wait_bound)%nat.
Variables (dev start : Z) (sb : superblock).
Hypothesis Hlay : layout start sb.
Hypothesis Hdev : u32 dev = dev.
Abbreviation blk := (blk dev).
Abbreviation in_tx := (in_tx dev start).
Abbreviation used := (used dev sb).
Abbreviation bitmap_ok := (bitmap_ok dev sb).
Abbreviation allocated := (allocated dev start sb).
Abbreviation addr := (addr dev).
Abbreviation data_block := (data_block dev sb).
Abbreviation file_ok := (file_ok dev sb).
Abbreviation byte := (byte dev).

(** ** Free blocks *)

(** At least [n] blocks are free. *)
Definition avail (s : kst) (n : nat) : Prop :=
  ∃ F, NoDup F ∧ (∀ b, b ∈ F → 0 ≤ b < sb_size sb ∧ used s b = false) ∧ (n ≤ length F)%nat.

Lemma avail_le s m n : (m ≤ n)%nat → avail s n → avail s m.
Proof. intros Hm (F & H1 & H2 & H3). exists F. split_and!; [done|done|lia]. Qed.
Lemma avail_ext s s' n : (∀ b, 0 ≤ b < sb_size sb → used s' b = used s b) → avail s n → avail s' n.
Proof.
  intros U (F & H1 & H2 & H3). exists F. split_and!; [done| |done]. intros b Hb. destruct (H2 b Hb). split; [done|]. by rewrite U.
Qed.

Lemma length_filter_ne (t : Z) F : NoDup F → (length F ≤ S (length (filter (λ c, c ≠ t) F)))%nat.
Proof.
  induction 1 as [|b F Hb _ IH]; [simpl; lia|]. rewrite filter_cons. case_decide as E; simpl; [lia|].
  subst b. assert (filter (λ c, c ≠ t) F = F) as ->; [|lia].
  clear IH. induction F as [|c F IH]; [done|]. apply not_elem_of_cons in Hb as [? Hb].
  rewrite filter_cons_True by done. f_equal. by apply IH.
Qed.

Lemma avail_alloc s s' t n : (∀ c, 0 ≤ c < sb_size sb → used s' c = (c =? t) || used s c) → avail s (S n) → avail s' n.
Proof.
  intros U (F & H1 & H2 & H3). exists (filter (λ c, c ≠ t) F). split_and!.
  - by apply NoDup_filter.
  - intros b [Hne Hb]%list_elem_of_filter. destruct (H2 b Hb) as [Hr Hu]. split; [done|]. rewrite U, Hu by done. lia.
  - pose proof (length_filter_ne t F H1). lia.
Qed.

(** The first free block. *)
Lemma avail_first s n : avail s (S n) → ∃ t, 0 ≤ t < sb_size sb ∧ used s t = false ∧ ∀ c, 0 ≤ c < t → used s c = true.
Proof.
  intros (F & _ & H2 & H3). destruct F as [|b F]; [simpl in H3; lia|]. destruct (H2 b ltac:(by left)) as [Hr Hu].
  assert (∀ k : nat, (∃ t, 0 ≤ t < Z.of_nat k ∧ used s t = false) → ∃ t, 0 ≤ t < Z.of_nat k ∧ used s t = false ∧ ∀ c, 0 ≤ c < t → used s c = true) as L.
  { clear -KV. induction k as [|k IH]; intros (t & Ht & Hu); [lia|].
    destruct (decide (Exists (λ c, used s c = false) (seqZ 0 (Z.of_nat k)))) as [(c & Hc & Hcu)%Exists_exists|Hn].
    - destruct IH as (t' & ? & ? & ?); [exists c; apply elem_of_seqZ in Hc; split; [lia|done]|]. exists t'. split_and!; try done; lia.
    - exists t. split_and!; [lia|lia|done|]. intros c Hc. destruct (used s c) eqn:E; [done|]. destruct Hn. apply Exists_exists. exists c. split; [|done].
      apply elem_of_seqZ. lia. }
  destruct (L (S (Z.to_nat b))) as (t & ? & ? & ?); [exists b; split; [lia|done]|]. exists t. split_and!; try done; lia.
Qed.

Definition bitmap_block (m : Z) : Prop := sb_bmapstart sb ≤ m < data_start sb.

Lemma data_not_bitmap s b : data_block s b → ¬ bitmap_block b.
Proof. intros [? _ _]. unfold bitmap_block. lia. Qed.

(** What the operations need to know of an allocation: block [t] was free, and is now in use and zero. *)
Record fresh (s : kst) (H bs : list Z) (n : nat) (t : Z) (s' : kst) (bs' : list Z) : Prop := {
  fh_free : used s t = false;
  fh_data : data_block s' t;
  fh_zero : blk s' t = replicate (Z.to_nat BSIZE) 0;
  fh_blk m : m ≠ t → ¬ bitmap_block m → blk s' m = blk s m;
  fh_used c : 0 ≤ c < sb_size sb → used s' c = (c =? t) || used s c;
  fh_bitmap : bitmap_ok s';
  fh_avail : avail s' n;
  fh_tx : in_tx s' H bs';
  fh_len : (length bs' ≤ 2 + length bs)%nat;
  fh_grab j m : m ∈ H → grabbed dev s j m → grabbed dev s' j m;
  fh_disk : s_disk s' = s_disk s;
  fh_frame : frame s s';
}.

Lemma data_start_nonneg : 0 ≤ data_start sb.
Proof. pose proof (layout_pos start sb Hlay). lia. Qed.

Lemma balloc_fresh s H bs n :
  in_tx s H bs → bitmap_ok s → avail s (S n) → (∀ m, m ∈ H → data_block s m) →
  Z.of_nat (length bs) + 1 < LOGSIZE - 1 → Z.of_nat (length bs) + Z.of_nat (length H) + 1 < NBUF →
  ∃ t s' bs', balloc dev s = Ok t s' ∧ fresh s H bs n t s' bs'.
Proof.
  intros Htx Hbm Hav HH Hroom Hbuf. destruct (avail_first s n Hav) as (t & Ht & Hfree & Hused).
  assert (data_start sb ≤ t) as Hds.
  { destruct (decide (t < data_start sb)); [|lia]. rewrite (bm_meta _ _ _ Hbm t) in Hfree by lia. done. }
  destruct (balloc_spec Hwait dev start sb Hlay Hdev t s H bs) as (s' & Hr & A); try done.
  { intros b Hb Hin. destruct (bblock_eq start sb b Hlay Hb) as (_ & ? & _). pose proof (db_range _ _ _ _ (HH _ Hin)). lia. }
  { intros Hin. pose proof (db_used _ _ _ _ (HH _ Hin)). congruence. }
  destruct (allocated_used dev start sb Hlay s H bs t s' Hbm ltac:(lia) A) as [Hbm' U]. destruct A as [A1 A2 A3 A4 A5].
  assert (blk s' t = replicate (Z.to_nat BSIZE) 0) as Hz by (rewrite A2; by rewrite decide_True).
  destruct (bblock_eq start sb t Hlay Ht) as (Eb & Hb & _).
  exists t, s', (logged t (logged (BBLOCK t sb) bs)). split; [done|]. constructor; try done.
  - constructor; [lia|rewrite U by done; by rewrite Z.eqb_refl|]. rewrite Hz, length_replicate. done.
  - intros m Hm Hnb. rewrite A2, decide_False, decide_False by (try done; unfold bitmap_block in *; pose proof (Z.div_pos t BPB); assert (0 < BPB) by done; lia).
    done.
  - by apply (avail_alloc s s' t).
  - pose proof (length_logged t (logged (BBLOCK t sb) bs)). pose proof (length_logged (BBLOCK t sb) bs). lia.
Qed.

(** An allocation does not touch the files. *)
Lemma fresh_data s H bs n t s' bs' b : fresh s H bs n t s' bs' → data_block s b → b ≠ t ∧ blk s' b = blk s b ∧ data_block s' b.
Proof.
  intros F D. pose proof D as [Hr Hu Hl]. assert (b ≠ t) as Hne by (intros ->; pose proof (fh_free _ _ _ _ _ _ _ F); congruence).
  assert (blk s' b = blk s b) as Hb by (apply (fh_blk _ _ _ _ _ _ _ F); [done|by apply (data_not_bitmap s)]).
  split_and!; [done|done|]. apply (data_block_ext dev sb s); [done| |by rewrite Hb].
  pose proof data_start_nonneg. rewrite (fh_used _ _ _ _ _ _ _ F) by lia. replace (b =? t) with false by lia. done.
Qed.

(** ** Changes of the block map *)

(** The blocks of the file are as they were. *)
Lemma file_ok_keep s s' x : (∀ b, data_block s b → blk s' b = blk s b ∧ data_block s' b) → file_ok s x →
  file_ok s' x ∧ ∀ k, addr s' x k = addr s x k.
Proof.
  intros K [F1 F2 F3 F4 F5 F6 F7 F8].
  assert (∀ k, addr s' x k = addr s x k) as Ea.
  { intros k. unfold FsFile.addr. destruct (k <? NDIRECT); [done|]. destruct (ind x =? 0) eqn:E; [done|].
    destruct (K _ (F7 ltac:(lia))) as [-> _]. done. }
  split; [|done]. constructor; try done; intros *; rewrite ?Ea.
  - by apply F4.
  - intros. by apply K, F5.
  - by apply F6.
  - intros. by apply K, F7.
  - by apply F8.
Qed.

(** Block [t] becomes block [k] of the file: [addr'] is the new map. *)
Lemma file_ok_add s s' x x' k t :
  file_ok s x → data_block s' t → (∀ b, data_block s b → b ≠ t ∧ data_block s' b) →
  i_dev x' = i_dev x → i_size x' = i_size x → length (i_addrs x') = length (i_addrs x) → ind x' = ind x →
  (∀ j, 0 ≤ j < MAXFILE → addr s' x' j = if decide (j = k) then t else addr s x j) → file_ok s' x'.
Proof.
  intros F Dt K Ed Es El Ei Ea. assert (t ≠ 0) as Ht.
  { pose proof (db_range _ _ _ _ Dt). pose proof (layout_pos start sb Hlay). lia. }
  assert (∀ j, 0 ≤ j < MAXFILE → addr s x j ≠ t) as Hne.
  { intros j Hj E. destruct (K t) as [? _]; [|done]. rewrite <- E. apply (fo_data _ _ _ _ F); [done|]. by rewrite E. }
  destruct F as [F1 F2 F3 F4 F5 F6 F7 F8]. constructor.
  - congruence.
  - by rewrite El.
  - by rewrite Es.
  - rewrite Es. intros j Hj Hs. rewrite Ea; [case_decide; [done|by apply F4]|]. split; [done|]. apply (Z.mul_lt_mono_pos_r BSIZE); [done|lia].
  - intros j Hj. rewrite Ea by done. case_decide; [done|]. intros. by apply K, F5.
  - intros i j Hi Hj. rewrite !Ea by done. repeat case_decide; subst; try done; [intros E; by destruct (Hne j)|intros E; by destruct (Hne i)|by apply F6].
  - rewrite Ei. intros. by apply K, F7.
  - intros j Hj. rewrite Ei, Ea by done. intros Hi. case_decide; [|by apply F8]. intros ->. by destruct (K (ind x) (F7 Hi)).
Qed.

(** The indirect block, zero, is given to a file that had none. *)
Lemma file_ok_ind s x x' t : file_ok s x → data_block s t → (∀ j, 0 ≤ j < MAXFILE → addr s x j ≠ t) →
  i_dev x' = i_dev x → i_size x' = i_size x → length (i_addrs x') = length (i_addrs x) → ind x' = t →
  (∀ j, 0 ≤ j < MAXFILE → addr s x' j = addr s x j) → file_ok s x'.
Proof.
  intros [F1 F2 F3 F4 F5 F6 F7 F8] Dt Hne Ed Es El Ei Ea. constructor.
  - congruence.
  - by rewrite El.
  - by rewrite Es.
  - rewrite Es. intros j Hj Hs. rewrite Ea; [by apply F4|]. split; [done|]. apply (Z.mul_lt_mono_pos_r BSIZE); [done|lia].
  - intros j Hj. rewrite Ea by done. by apply F5.
  - intros i j Hi Hj. rewrite !Ea by done. by apply F6.
  - by rewrite Ei.
  - intros j Hj. rewrite Ei, Ea by done. intros _. by apply Hne.
Qed.

(** ** The inode table *)

Lemma in_tx_inode ip f s H bs : in_tx s H bs → in_tx (upd_inode ip f s) H bs.
Proof.
  intros [[l Hc] Ht Hm Har Hlo Hsz Hout Hlk Hlh Hnd Hrf How Hfr Hcl]. constructor; try done.
  - exists l. destruct Hc. by constructor.
  - destruct Hlo. by constructor.
Qed.
Lemma has_inode_upd ip f x s : has_inode ip x s → has_inode ip (f x) (upd_inode ip f s).
Proof. intros Hx. unfold has_inode, upd_inode. simpl. rewrite lookup_insert_eq. by rewrite (has_inode_at _ _ _ Hx). Qed.
Lemma bitmap_ok_inode ip f s : bitmap_ok s → bitmap_ok (upd_inode ip f s).
Proof. intros []. by constructor. Qed.
Lemma data_block_inode ip f s b : data_block s b → data_block (upd_inode ip f s) b.
Proof. intros []. by constructor. Qed.

(** Nothing changes but the inode, the cache, the disk and the log. *)
Definition iframe (ip : Z) (x' : inode) (s s' : kst) : Prop := frame (upd_inode ip (λ _, x') s) s'.

Lemma iframe_frame ip x s s' : has_inode ip x s → frame s s' → iframe ip x s s'.
Proof.
  intros Hx [E K]. constructor; [|done]. rewrite E. unfold aside, upd_inode. simpl. rewrite insert_id by done.
  by destruct (s_itable s).
Qed.
Lemma iframe_upd ip f x s s' : has_inode ip x s → frame s s' → iframe ip (f x) s (upd_inode ip f s').
Proof.
  intros Hx Hf. pose proof (has_inode_at _ _ _ (has_inode_frame _ _ _ _ Hf Hx)) as Ex. destruct Hf as [E K]. constructor; [|done].
  unfold aside, upd_inode in *. simpl. rewrite Ex. congruence.
Qed.
Lemma iframe_trans ip x1 x2 s s1 s2 : iframe ip x1 s s1 → iframe ip x2 s1 s2 → iframe ip x2 s s2.
Proof.
  intros [E1 K1] [E2 K2]. constructor; [|simpl in *; by etrans]. rewrite E2. unfold aside, upd_inode in *. simpl in *.
  injection E1 as -> -> -> -> -> -> -> -> -> -> ->. simpl. by rewrite insert_insert_eq.
Qed.

(** ** bmap on a block that the file does not have *)

(** The end of bmap: an entry of the indirect block [a]. *)
Definition bmap_ind (a bn : Z) : M kst Z :=
  bp ← bread dev a;
  y ← gets (buf_at bp);
  let addr := get32 (b_data y) (4 * bn) in
  addr ← (if addr =? 0 then
            addr ← balloc dev;
            if ctrue addr then
              modify (upd_data bp (λ d, put32 d (4 * bn) addr));;
              log_write bp;;
              mret addr
            else mret addr
          else mret addr);
  brelse bp;;
  mret addr.

(** Block [k] of the file is now block [t], which was free; at most [c] more blocks are
    logged, and at least [n] blocks are still free. *)
Record grown (ip : Z) (s : kst) (x : inode) (bs : list Z) (k t : Z) (c n : nat) (s' : kst) (x' : inode) (bs' : list Z) : Prop := {
  gn_tx : in_tx s' [] bs';
  gn_len : (length bs' ≤ c + length bs)%nat;
  gn_inode : has_inode ip x' s';
  gn_frame : iframe ip x' s s';
  gn_same : ∃ a, x' = set_i_addrs a x;
  gn_file : file_ok s' x';
  gn_addr j : 0 ≤ j < MAXFILE → addr s' x' j = if decide (j = k) then t else addr s x j;
  gn_data : data_block s' t;
  gn_zero : blk s' t = replicate (Z.to_nat BSIZE) 0;
  gn_free : used s t = false;
  gn_bitmap : bitmap_ok s';
  gn_avail : avail s' n;
  gn_blk m : 0 ≤ m < sb_size sb → used s m = true → ¬ bitmap_block m → m ≠ ind x → blk s' m = blk s m;
  gn_used m : 0 ≤ m < sb_size sb → used s m = true → used s' m = true;
  gn_ind : ind x' = ind x ∨ used s (ind x') = false;
  gn_disk : s_disk s' = s_disk s;
}.

Lemma addr_direct s x k : k < NDIRECT → addr s x k = nth (Z.to_nat k) (i_addrs x) 0.
Proof. clear Hwait. intros. unfold FsFile.addr. by replace (k <? NDIRECT) with true by lia. Qed.
Lemma addr_far s x k : NDIRECT ≤ k → addr s x k = if ind x =? 0 then 0 else get32 (blk s (ind x)) (4 * (k - NDIRECT)).
Proof. clear Hwait. intros. unfold FsFile.addr. by replace (k <? NDIRECT) with false by lia. Qed.

Lemma bmap_direct ip x k s bs n :
  in_tx s [] bs → has_inode ip x s → file_ok s x → bitmap_ok s → avail s (S n) → 0 ≤ k < NDIRECT → addr s x k = 0 →
  Z.of_nat (length bs) + 1 < LOGSIZE - 1 →
  ∃ t s' x' bs', bmap ip k s = Ok t s' ∧ grown ip s x bs k t 2 n s' x' bs'.
Proof.
  intros Htx Hip Hf Hbm Hav Hk Ha Hroom. assert (LOGSIZE = NBUF) as EN by done.
  destruct (balloc_fresh s [] bs n) as (t & s1 & bs1 & H1 & F); try done; [intros m Hm; by apply elem_of_nil in Hm|simpl; lia|].
  pose proof (λ b, fresh_data s [] bs n t s1 bs1 b F) as FD. destruct (file_ok_keep s s1 x) as [Hf1 Ea1]; [intros b Hb; by apply FD in Hb as (_ & ? & ?)|done|].
  set (f := λ x, set_i_addrs (<[Z.to_nat k := t]> (i_addrs x)) x). pose proof (fo_len _ _ _ _ Hf) as Hlen. assert (NDIRECT = 12) as EN' by done.
  assert (∀ j, 0 ≤ j < MAXFILE → addr (upd_inode ip f s1) (f x) j = if decide (j = k) then t else addr s x j) as Ea.
  { intros j Hj. rewrite <- Ea1. destruct (decide (j < NDIRECT)) as [Hd|Hd].
    - rewrite !addr_direct by done. unfold f. simpl. rewrite nth_insert by lia. do 2 case_decide; try done; lia.
    - rewrite decide_False by lia. rewrite !addr_far by lia. unfold ind, f. simpl. rewrite nth_insert, decide_False by lia. done. }
  exists t, (upd_inode ip f s1), (f x), bs1. pose proof (fh_data _ _ _ _ _ _ _ F) as Dt. assert (t ≠ 0) as Ht.
  { pose proof (db_range _ _ _ _ Dt). pose proof (layout_pos start sb Hlay). lia. }
  split.
  - unfold bmap. erewrite bind_ok by reflexivity. rewrite (has_inode_at _ _ _ Hip). replace (k <? NDIRECT) with true by lia.
    rewrite addr_direct in Ha by lia. rewrite Ha, (fo_dev _ _ _ _ Hf). change (0 =? 0) with true. cbv iota. rewrite (bind_ok _ _ _ _ _ H1).
    by replace (t =? 0) with false by lia.
  - pose proof F as []. constructor; try done.
    + by apply in_tx_inode.
    + apply has_inode_upd. by apply (has_inode_frame ip x s).
    + by apply (iframe_upd ip f).
    + by eexists.
    + apply (file_ok_add s _ x _ k t); try done.
      * by apply data_block_inode.
      * intros b Hb. apply FD in Hb as (? & ? & ?). split; [done|by apply data_block_inode].
      * unfold f. simpl. by rewrite length_insert.
      * unfold ind, f. simpl. rewrite nth_insert, decide_False by lia. done.
    + by apply data_block_inode.
    + by apply bitmap_ok_inode.
    + intros m Hm Hu Hnb _. apply fh_blk0; [|done]. congruence.
    + intros m Hm Hu. etrans; [by apply fh_used0|]. rewrite Hu. apply orb_true_r.
    + left. unfold ind, f. simpl. rewrite nth_insert, decide_False by lia. done.
Qed.

(** The indirect block [a] of the file gets entry [k] set to [t]. *)
Lemma file_fill s s' x k t :
  file_ok s x → ind x ≠ 0 → NDIRECT ≤ k < MAXFILE → data_block s t → (∀ j, 0 ≤ j < MAXFILE → addr s x j ≠ t) → ind x ≠ t →
  (∀ m, blk s' m = if decide (m = ind x) then put32 (blk s (ind x)) (4 * (k - NDIRECT)) t else blk s m) →
  (∀ j, 0 ≤ j < MAXFILE → addr s' x j = if decide (j = k) then t else addr s x j) ∧ (∀ b, data_block s b → data_block s' b).
Proof.
  clear Hwait. intros Hf Hi Hk Dt Hne Hit B. pose proof (fo_ind _ _ _ _ Hf Hi) as Di. pose proof (db_len _ _ _ _ Di) as Hl. pose proof (ly_size _ _ Hlay) as Hsz.
  pose proof (layout_pos start sb Hlay) as Hp. pose proof (db_range _ _ _ _ Dt) as Hrt. pose proof (db_range _ _ _ _ Di) as Hri.
  assert (MAXFILE = NDIRECT + NINDIRECT) as EM by done. assert (BSIZE = 4 * NINDIRECT) as EB by done. split.
  - intros j Hj. destruct (decide (j < NDIRECT)) as [Hd|Hd].
    + rewrite !addr_direct, decide_False by lia. done.
    + rewrite !addr_far by lia. replace (ind x =? 0) with false by lia. rewrite B, decide_True by done. case_decide as E.
      * subst j. apply get32_put32; lia.
      * apply get32_put32_ne; lia.
  - intros b Hb. pose proof (db_range _ _ _ _ Hb) as Hr. apply (data_block_ext dev sb s); [done| |].
    + unfold FsBlocks.used. rewrite B, decide_False; [done|]. destruct (bblock_eq start sb b Hlay) as (_ & ? & _); lia.
    + rewrite B. case_decide as E; [|done]. by rewrite E, length_put32.
Qed.

(** The steps of [bmap_ind] on an entry that is 0. *)
Lemma bmap_ind_run a bn s bs bs2 bp t s1 s2 s3 s4 :
  bread dev a s = Ok bp s1 → b_data (buf_at bp s1) = blk s a → get32 (blk s a) (4 * bn) = 0 → fresh s1 [a] bs 0 t s2 bs2 →
  balloc dev s1 = Ok t s2 → (modify (upd_data bp (λ d, put32 d (4 * bn) t));; log_write bp) s2 = Ok tt s3 → brelse bp s3 = Ok tt s4 →
  bmap_ind a bn s = Ok t s4.
Proof.
  intros H1 Hd Ha F H2 H3 H4. assert (t ≠ 0) as Ht.
  { pose proof (db_range _ _ _ _ (fh_data _ _ _ _ _ _ _ F)). pose proof (layout_pos start sb Hlay). lia. }
  unfold bmap_ind. rewrite (bind_ok _ _ _ _ _ H1). erewrite bind_ok by reflexivity. rewrite Hd, Ha. change (0 =? 0) with true. cbv iota.
  rewrite (bind_ok _ _ _ t s3); [by rewrite (bind_ok _ _ _ _ _ H4)|]. rewrite (bind_ok _ _ _ _ _ H2).
  replace (ctrue t) with true by (unfold ctrue; lia). by rewrite <- bind_assoc, (bind_ok _ _ _ _ _ H3).
Qed.

Lemma fresh_avail s H bs n t s' bs' : fresh s H bs n t s' bs' → fresh s H bs 0 t s' bs'.
Proof. intros []. constructor; try done. by apply (avail_le s' 0 n); [lia|]. Qed.

Lemma bitmap_ok_keep s s' : frame s s' → (∀ c, 0 ≤ c < sb_size sb → blk s' (BBLOCK c sb) = blk s (BBLOCK c sb)) → data_start sb ≤ sb_size sb →
  bitmap_ok s → bitmap_ok s'.
Proof.
  clear Hwait. intros F B Hs [Q1 Q2 Q3]. constructor; [by rewrite (frame_sb _ _ F)|intros; rewrite B by done; by apply Q2|].
  intros b Hb. unfold FsBlocks.used. rewrite B by lia. by apply Q3.
Qed.

Lemma bmap_fill ip x k s bs n :
  in_tx s [] bs → has_inode ip x s → file_ok s x → bitmap_ok s → avail s (S n) → NDIRECT ≤ k < MAXFILE → ind x ≠ 0 → addr s x k = 0 →
  Z.of_nat (length bs) + 2 < LOGSIZE - 1 →
  ∃ t s' bs', bmap_ind (ind x) (k - NDIRECT) s = Ok t s' ∧ grown ip s x bs k t 3 n s' x bs'.
Proof.
  intros Htx Hip Hf Hbm Hav Hk Hi Ha Hroom. assert (LOGSIZE = NBUF) as EN by done. pose proof (fo_ind _ _ _ _ Hf Hi) as Di.
  pose proof (db_range _ _ _ _ Di) as Ri.
  destruct (tx_bread Hwait dev start s [] bs (ind x) Htx) as (bp & s1 & H1 & T1 & G1 & Hd & B1 & _ & D1 & F1 & _); [by intros ?%elem_of_nil|simpl; lia|].
  assert (∀ c, used s1 c = used s c) as U1 by (intros; unfold FsBlocks.used; by rewrite B1).
  assert (∀ b, data_block s b → data_block s1 b) as K1 by (intros b Hb; apply (data_block_ext dev sb s); [done|by rewrite U1|by rewrite B1]).
  destruct (balloc_fresh s1 [ind x] bs n T1) as (t & s2 & bs2 & H2 & F);
    [apply (bitmap_ok_keep s); [done|by intros; rewrite B1|lia|done]|by apply (avail_ext s)|intros m ->%list_elem_of_singleton; by apply K1|lia|simpl; lia|].
  pose proof (file_ok_ext dev sb s s1 x B1 Hf) as Hf1. pose proof (λ k, addr_ext dev s s1 x k B1) as Ea1.
  pose proof (λ b, fresh_data s1 _ bs n t s2 bs2 b F) as FD. destruct (file_ok_keep s1 s2 x) as [Hf2 Ea2]; [intros b Hb; by apply FD in Hb as (_ & ? & ?)|done|].
  pose proof F as [F2f F2d F2z F2b F2u F2m F2a F2t F2l F2g F2k F2r].
  destruct (data_outside dev start sb Hlay s (ind x) Di) as [Hout Hrng].
  destruct (tx_log dev start s2 [ind x] bs2 bp (ind x) (λ d, put32 d (4 * (k - NDIRECT)) t)) as (s3 & H3 & T3 & B3 & K3 & D3 & F3); try done;
    [by left|apply F2g; [by left|done]|lia|].
  destruct (tx_brelse dev start s3 [] (logged (ind x) bs2) bp (ind x) T3) as (s4 & H4 & T4 & B4 & _ & D4 & F4 & _); [by apply K3, F2g; [left|]|].
  destruct (FD (ind x) (K1 _ Di)) as (Hit & Bi & _).
  assert (∀ j, 0 ≤ j < MAXFILE → addr s2 x j ≠ t) as Hne.
  { intros j Hj E. rewrite Ea2 in E. destruct (FD t) as [? _]; [|done]. rewrite <- E. apply (fo_data _ _ _ _ Hf1); [done|]. rewrite E.
    pose proof (db_range _ _ _ _ F2d). pose proof (layout_pos start sb Hlay). lia. }
  destruct (file_fill s2 s4 x k t Hf2 Hi Hk F2d Hne Hit) as [Ea K4]; [intros m; rewrite B4; apply B3|].
  assert (∀ m, m ≠ ind x → blk s4 m = blk s2 m) as B42 by (intros m Hm; by rewrite B4, B3, decide_False).
  assert (∀ c, 0 ≤ c < sb_size sb → blk s4 (BBLOCK c sb) = blk s2 (BBLOCK c sb)) as U42.
  { intros c Hc. apply B42. destruct (bblock_eq start sb c Hlay Hc) as (_ & ? & _). lia. }
  assert (∀ c, 0 ≤ c < sb_size sb → used s4 c = used s2 c) as U by (intros; unfold FsBlocks.used; by rewrite U42).
  assert (frame s s4) as FR by (eapply frame_trans; [done|]; eapply frame_trans; [done|]; by eapply frame_trans).
  exists t, s4, (logged (ind x) bs2). split.
  { apply (bmap_ind_run _ _ _ bs bs2 bp t s1 s2 s3); try done; [|by apply (fresh_avail _ _ _ n)].
    rewrite addr_far in Ha by lia. by replace (ind x =? 0) with false in Ha by lia. }
  constructor; try done.
  - pose proof (length_logged (ind x) bs2). lia.
  - by apply (has_inode_frame ip x s).
  - by apply iframe_frame.
  - exists (i_addrs x). by destruct x.
  - apply (file_ok_add s1 s4 x x k t); try done; [by apply K4| |].
    + intros b Hb. destruct (FD b Hb) as (? & _ & ?). split; [done|by apply K4].
    + intros j Hj. rewrite Ea by done. case_decide; [done|]. by rewrite Ea2.
  - intros j Hj. rewrite Ea by done. case_decide; [done|]. by rewrite Ea2, Ea1.
  - by apply K4.
  - by rewrite B42.
  - by rewrite <- U1.
  - apply (bitmap_ok_keep s2); [by apply (frame_trans s2 s3)|done|lia|done].
  - by apply (avail_ext s2).
  - intros m Hm Hu Hb Hmi. rewrite B42, F2b, B1; [done| |done|done]. intros ->. rewrite U1 in F2f. congruence.
  - intros m Hm Hu. rewrite U, F2u, U1, Hu by done. apply orb_true_r.
  - by left.
  - congruence.
Qed.

Lemma grown_len ip s x bs k t c c' n n' s' x' bs' : (c ≤ c')%nat → (n' ≤ n)%nat →
  grown ip s x bs k t c n s' x' bs' → grown ip s x bs k t c' n' s' x' bs'.
Proof. intros Hc Hn []. constructor; try done; [lia|by apply (avail_le _ _ n)]. Qed.

Definition with_ind (t : Z) (x : inode) : inode := set_i_addrs (<[Z.to_nat NDIRECT := t]> (i_addrs x)) x.

(** The state after the first allocation of bmap: the file has an indirect block, and the same blocks. *)
Lemma bmap_new_ind ip x s bs n t s1 bs1 :
  has_inode ip x s → file_ok s x → ind x = 0 → fresh s [] bs n t s1 bs1 →
  let s2 := upd_inode ip (with_ind t) s1 in
  has_inode ip (with_ind t x) s2 ∧ iframe ip (with_ind t x) s s2 ∧ file_ok s2 (with_ind t x) ∧ ind (with_ind t x) = t ∧
    ∀ j, 0 ≤ j < MAXFILE → addr s2 (with_ind t x) j = addr s x j.
Proof.
  intros Hip Hf Hi F s2. set (f := with_ind t). pose proof (λ b, fresh_data s [] bs n t s1 bs1 b F) as FD.
  destruct (file_ok_keep s s1 x) as [Hf1 Ea1]; [intros b Hb; by apply FD in Hb as (_ & ? & ?)|done|].
  pose proof (fo_len _ _ _ _ Hf) as Hlen. assert (NDIRECT = 12) as EN by done. pose proof F as [F2f F2d F2z F2b F2u F2m F2a F2t F2l F2g F2k F2r].
  assert (ind (f x) = t) as Ei by (unfold ind, f, with_ind; simpl; rewrite nth_insert, decide_True by lia; done).
  assert (∀ j, 0 ≤ j < MAXFILE → addr s1 (f x) j = addr s1 x j) as Ea.
  { intros j Hj. destruct (decide (j < NDIRECT)).
    - rewrite !addr_direct by done. unfold f, with_ind. simpl. rewrite nth_insert, decide_False by lia. done.
    - rewrite !addr_far by lia. rewrite Ei, Hi, F2z. unfold get32. rewrite get_replicate0. by case_match. }
  split_and!; [|by apply (iframe_upd ip f)| |done|intros j Hj; etrans; [by apply Ea|done]].
  - apply has_inode_upd. by apply (has_inode_frame ip x s).
  - apply (file_ok_ext dev sb s1); [done|]. apply (file_ok_ind s1 x (f x) t); try done.
    + intros j Hj E. rewrite Ea1 in E. destruct (FD t) as [? _]; [|done]. rewrite <- E. apply (fo_data _ _ _ _ Hf); [done|]. rewrite E.
      pose proof (db_range _ _ _ _ F2d). pose proof (layout_pos start sb Hlay). lia.
    + unfold f, with_ind. simpl. by rewrite length_insert.
Qed.

(** bmap on a block that the file does not have. *)
Lemma bmap_new ip x k s bs n :
  in_tx s [] bs → has_inode ip x s → file_ok s x → bitmap_ok s → avail s (S (S n)) → 0 ≤ k < MAXFILE → addr s x k = 0 →
  Z.of_nat (length bs) + 4 < LOGSIZE - 1 →
  ∃ t s' x' bs', bmap ip k s = Ok t s' ∧ grown ip s x bs k t 5 n s' x' bs'.
Proof.
  intros Htx Hip Hf Hbm Hav Hk Ha Hroom. destruct (decide (k < NDIRECT)) as [Hd|Hd].
  { destruct (bmap_direct ip x k s bs (S n)) as (t & s' & x' & bs' & Hr & G); try done; [lia|lia|].
    exists t, s', x', bs'. split; [done|]. by apply (grown_len _ _ _ _ _ _ 2 5 (S n) n); [lia|lia|]. }
  assert (MAXFILE = NDIRECT + NINDIRECT) as EM by done.
  assert (∀ a s1, a ≠ 0 → (if ind x =? 0 then
              addr ← balloc dev;
              if addr =? 0 then mret 0 else
              modify (upd_inode ip (λ x, set_i_addrs (<[Z.to_nat NDIRECT := addr]> (i_addrs x)) x));;
              mret addr
            else mret (ind x)) s = Ok a s1 → bmap ip k s = bmap_ind a (k - NDIRECT) s1) as Hfar.
  { intros a s1 Hna Hr. unfold bmap. erewrite bind_ok by reflexivity. rewrite (has_inode_at _ _ _ Hip).
    replace (k <? NDIRECT) with false by lia. replace (k - NDIRECT <? NINDIRECT) with true by lia. fold (ind x).
    rewrite (fo_dev _ _ _ _ Hf), (bind_ok _ _ _ _ _ Hr). by replace (a =? 0) with false by lia. }
  destruct (decide (ind x = 0)) as [Hi|Hi].
  - destruct (balloc_fresh s [] bs (S n)) as (i & s1 & bs1 & H1 & F); try done; [intros m Hm; by apply elem_of_nil in Hm|lia|assert (LOGSIZE = NBUF) by done; simpl; lia|].
    destruct (bmap_new_ind ip x s bs (S n) i s1 bs1 Hip Hf Hi F) as (Hip2 & FR & Hf2 & Ei & Ea).
    set (f := with_ind i) in *. set (s2 := upd_inode ip f s1) in *.
    pose proof F as [F2f F2d F2z F2b F2u F2m F2a F2t F2l F2g F2k F2r].
    assert (i ≠ 0) as Hi0 by (pose proof (db_range _ _ _ _ F2d); pose proof (layout_pos start sb Hlay); lia).
    destruct (bmap_fill ip (f x) k s2 bs1 n) as (t & s3 & bs3 & H3 & G); try done; [by apply in_tx_inode|by apply bitmap_ok_inode|lia|by rewrite Ei|by rewrite Ea|lia|].
    exists t, s3, (f x), bs3. split.
    + rewrite (Hfar i s2 Hi0); [by rewrite Ei in H3|]. rewrite Hi. change (0 =? 0) with true. cbv iota. rewrite (bind_ok _ _ _ _ _ H1).
      by replace (i =? 0) with false by lia.
    + destruct G as [G1 G2 G3 G4 G5 G6 G7 G8 G9 G10 G11 G12 G13 G14 _ G15]. constructor; try done.
      * lia.
      * by apply (iframe_trans ip (f x) _ s s2).
      * intros j Hj. rewrite G7 by done. case_decide; [done|]. by apply Ea.
      * change (used s1 t = false) in G10. rewrite F2u in G10; [by apply orb_false_iff in G10 as [_ ?]|]. pose proof (db_range _ _ _ _ G8). pose proof data_start_nonneg. lia.
      * intros m Hm Hu Hb Hmi. rewrite G13; [apply F2b; [congruence|done]|done| |done|rewrite Ei; congruence].
        change (used s1 m = true). rewrite F2u, Hu by done. apply orb_true_r.
      * intros m Hm Hu. apply G14; [done|]. change (used s1 m = true). rewrite F2u, Hu by done. apply orb_true_r.
      * right. by rewrite Ei.
      * by rewrite G15.
  - destruct (bmap_fill ip x k s bs (S n)) as (t & s3 & bs3 & H3 & G); try done; [lia|lia|].
    exists t, s3, x, bs3. split; [|by apply (grown_len _ _ _ _ _ _ 3 5 (S n) n); [lia|lia|]].
    rewrite (Hfar (ind x) s Hi); [done|]. by replace (ind x =? 0) with false by lia.
Qed.

(** ** writei *)

(** The blocks of a file. *)
Definition own (s : kst) (x : inode) (b : Z) : Prop := (∃ k, 0 ≤ k < MAXFILE ∧ addr s x k = b) ∨ ind x = b.

Section writei.
Variables (ip : Z) (s0 : kst) (x0 : inode) (off0 : Z) (data : list Z).

(** The bytes of [data] are in the file from [off0] up to [off]; the other bytes of the
    file, and the blocks of the other files, are those of [s0]. *)
Record wrote (s : kst) (x : inode) (off : Z) : Prop := {
  wr_off : off0 ≤ off ≤ MAXFILE * BSIZE;
  wr_inode : has_inode ip x s;
  wr_frame : iframe ip x s0 s;
  wr_same : ∃ a, x = set_i_addrs a x0;
  wr_file : file_ok s x;
  wr_map k : 0 ≤ k → k * BSIZE < off → addr s x k ≠ 0;
  wr_bitmap : bitmap_ok s;
  wr_byte o : 0 ≤ o < Z.max (i_size x0) off →
    byte s x o = if decide (off0 ≤ o < off) then nth (Z.to_nat (o - off0)) data 0 else byte s0 x0 o;
  wr_other m : 0 ≤ m < sb_size sb → used s0 m = true → ¬ bitmap_block m → ¬ own s0 x0 m →
    blk s m = blk s0 m ∧ used s m = true ∧ ¬ own s x m;
}.

Lemma wrote_size s x off : wrote s x off → i_size x = i_size x0 ∧ i_dev x = i_dev x0 ∧ i_inum x = i_inum x0.
Proof. intros W. destruct (wr_same _ _ _ W) as [a ->]. by destruct x0. Qed.

Lemma wrote_mapped s x off o : wrote s x off → 0 ≤ o < Z.max (i_size x0) off → addr s x (o / BSIZE) ≠ 0.
Proof.
  clear Hwait. intros W Ho. destruct (wrote_size s x off W) as [Es _]. assert (0 < BSIZE) as HB by done.
  pose proof (Z.div_pos o BSIZE). pose proof (Z.mul_div_le o BSIZE HB). destruct (decide (o < off)).
  - apply (wr_map _ _ _ W); lia.
  - apply (fo_map _ _ _ _ (wr_file _ _ _ W)); lia.
Qed.

Lemma file_block o : 0 ≤ o < MAXFILE * BSIZE → 0 ≤ o / BSIZE < MAXFILE.
Proof. clear Hwait. assert (0 < BSIZE) by done. split; [apply Z.div_pos; lia|]. apply Z.div_lt_upper_bound; lia. Qed.

Lemma wrote_ext s s' x off : frame s s' → (∀ m, blk s' m = blk s m) → wrote s x off → wrote s' x off.
Proof.
  intros F B [W0 W1 W2 W3 W4 W5 W6 W7 W8]. assert (∀ k, addr s' x k = addr s x k) as Ea by (intros; by apply addr_ext).
  constructor; try done.
  - by apply (has_inode_frame ip x s).
  - apply (iframe_trans ip x x s0 s); [done|]. by apply iframe_frame.
  - by apply (file_ok_ext dev sb s).
  - intros k. rewrite Ea. apply W5.
  - destruct W6 as [Q1 Q2 Q3]. constructor; [by rewrite (frame_sb _ _ F)|intros; rewrite B; by apply Q2|intros; unfold FsBlocks.used; rewrite B; by apply Q3].
  - intros o Ho. rewrite (byte_ext dev s) by done. by apply W7.
  - intros m H1 H2 H3 H4. destruct (W8 m H1 H2 H3 H4) as (E1 & E2 & E3). rewrite B. unfold FsBlocks.used. rewrite B. split_and!; [done|done|].
    intros [(k & Hk & E)|E]; apply E3; [left; exists k; by rewrite <- Ea|by right].
Qed.

(** A new block does not change the bytes of the file. *)
Lemma wrote_grown s x bs k t c n s' x' bs' off : wrote s x off → addr s x k = 0 → grown ip s x bs k t c n s' x' bs' → wrote s' x' off.
Proof.
  clear Hwait. intros W Hk [G1 G2 G3 G4 G5 G6 G7 G8 G9 G10 G11 G12 G13 G14 G15 G16]. pose proof W as [W0 W1 W2 W3 W4 W5 W6 W7 W8].
  destruct (wrote_size s x off W) as [Es _]. assert (0 < BSIZE) as HB by done. pose proof (fo_size _ _ _ _ W4) as Hsz.
  assert (∀ j, 0 ≤ j < MAXFILE → addr s x j ≠ 0 → addr s' x' j = addr s x j) as Ea.
  { intros j Hj Ha. rewrite G7 by done. rewrite decide_False; [done|]. by intros ->. }
  constructor; try done.
  - by apply (iframe_trans ip x x' s0 s).
  - destruct W3 as [a ->], G5 as [a' ->]. exists a'. by destruct x0.
  - intros j Hj Hoff. assert (addr s x j ≠ 0) as Ha by (by apply W5). rewrite Ea; [done| |done].
    split; [done|]. apply (Z.mul_lt_mono_pos_r BSIZE); lia.
  - intros o Ho. rewrite <- W7 by done. pose proof (wrote_mapped s x off o W Ho) as Ha. unfold FsFile.byte.
    assert (0 ≤ o / BSIZE < MAXFILE) as Hr by (apply file_block; lia).
    rewrite Ea by done. destruct (fo_data _ _ _ _ W4 _ Hr Ha) as [D1 D2 D3]. rewrite G13; [done| |done| |].
    + pose proof (layout_pos start sb Hlay). lia.
    + unfold bitmap_block. lia.
    + destruct (decide (ind x = 0)) as [E|E]; [by rewrite E|]. by apply (fo_ind_ne _ _ _ _ W4).
  - intros m H1 H2 H3 H4. destruct (W8 m H1 H2 H3 H4) as (E1 & E2 & E3). split_and!; [rewrite G13; try done; intros ->; apply E3; by right|by apply G14|].
    intros [(j & Hj & E)|E].
    + rewrite G7 in E by done. case_decide; [congruence|]. apply E3. left. by exists j.
    + destruct G15 as [E'|E']; [|congruence]. apply E3. right. congruence.
Qed.

(** The blocks of the file and the bitmap, when one block of the file gets other bytes. *)
Lemma block_write s s' x a f :
  file_ok s x → bitmap_ok s → frame s s' → data_block s a → a ≠ ind x → length (f (blk s a)) = length (blk s a) →
  (∀ m, blk s' m = if decide (m = a) then f (blk s a) else blk s m) →
  file_ok s' x ∧ bitmap_ok s' ∧ (∀ k, addr s' x k = addr s x k) ∧ (∀ c, 0 ≤ c < sb_size sb → used s' c = used s c).
Proof.
  clear Hwait. intros Hf Hbm FR Da Hai Hl B. pose proof (db_range _ _ _ _ Da) as Hr. pose proof (layout_pos start sb Hlay) as Hp.
  assert (∀ c, 0 ≤ c < sb_size sb → blk s' (BBLOCK c sb) = blk s (BBLOCK c sb)) as Bb.
  { intros c Hc. destruct (bblock_eq start sb c Hlay Hc) as (_ & ? & _). rewrite B, decide_False by lia. done. }
  assert (∀ c, 0 ≤ c < sb_size sb → used s' c = used s c) as U by (intros; unfold FsBlocks.used; by rewrite Bb).
  assert (∀ k, addr s' x k = addr s x k) as Ea.
  { intros k. unfold FsFile.addr. by rewrite B, decide_False by done. }
  assert (∀ b, data_block s b → data_block s' b) as K.
  { intros b Hb. pose proof (db_range _ _ _ _ Hb). apply (data_block_ext dev sb s); [done|apply U; lia|]. rewrite B. case_decide; [by subst|done]. }
  split_and!; [|by apply (bitmap_ok_keep s); try done; lia|done|done].
  destruct Hf as [F1 F2 F3 F4 F5 F6 F7 F8]. constructor; try done; intros *; rewrite ?Ea.
  - by apply F4.
  - intros. by apply K, F5.
  - by apply F6.
  - intros. by apply K, F7.
  - by apply F8.
Qed.

(** The bytes of the file after [bs] went into its block at [off]. *)
Lemma block_bytes s s' x off bs o : file_ok s x → 0 ≤ off → off mod BSIZE + Z.of_nat (length bs) ≤ BSIZE → 0 ≤ off / BSIZE < MAXFILE →
  addr s x (off / BSIZE) ≠ 0 → (∀ k, addr s' x k = addr s x k) → 0 ≤ o < MAXFILE * BSIZE →
  (∀ b, blk s' b = if decide (b = addr s x (off / BSIZE)) then splice (blk s (addr s x (off / BSIZE))) (off mod BSIZE) bs else blk s b) →
  byte s' x o = if decide (off ≤ o < off + Z.of_nat (length bs)) then nth (Z.to_nat (o - off)) bs 0 else byte s x o.
Proof.
  clear Hwait. intros Hf Hoff Hl Hk Ha Ea Ho B. assert (0 < BSIZE) as HB by done. unfold FsFile.byte. rewrite Ea, B.
  pose proof (db_len _ _ _ _ (fo_data _ _ _ _ Hf _ Hk Ha)) as Hla. pose proof (Z.mod_pos_bound off BSIZE HB). pose proof (Z.mod_pos_bound o BSIZE HB).
  pose proof (Z.div_mod o BSIZE ltac:(lia)) as Hdo. pose proof (Z.div_mod off BSIZE ltac:(lia)) as Hdf.
  destruct (decide (o / BSIZE = off / BSIZE)) as [E|E].
  - rewrite E, decide_True by done. rewrite nth_splice by lia. rewrite E in Hdo.
    destruct (decide (off ≤ o < _)); [rewrite decide_True by lia|rewrite decide_False by lia; done]. do 2 f_equal. lia.
  - rewrite decide_False; [|intros E'; destruct E; apply (fo_inj _ _ _ _ Hf); [by apply file_block|done|done|by rewrite E']].
    rewrite decide_False; [done|]. intros Hin. apply E. symmetry.
    assert (o / BSIZE ≤ off / BSIZE) by (apply Z.lt_succ_r, Z.div_lt_upper_bound; lia). pose proof (Z.div_le_mono off o BSIZE). lia.
Qed.

(** One block of data goes into the file. *)
Lemma wrote_block s s' x off m :
  wrote s x off → 0 ≤ off0 → 0 < m → off mod BSIZE + m ≤ BSIZE → off + m ≤ MAXFILE * BSIZE →
  off - off0 + m ≤ Z.of_nat (length data) → addr s x (off / BSIZE) ≠ 0 → frame s s' →
  (∀ b, blk s' b = if decide (b = addr s x (off / BSIZE)) then splice (blk s (addr s x (off / BSIZE))) (off mod BSIZE) (sub data (off - off0) m) else blk s b) →
  wrote s' x (off + m).
Proof.
  clear Hwait. intros W Hoff0 Hm Hmod Hmax Hlen Ha FR B. pose proof W as [W0 W1 W2 W3 W4 W5 W6 W7 W8]. assert (0 < BSIZE) as HB by done.
  assert (0 ≤ off / BSIZE < MAXFILE) as Hk by (apply file_block; lia). set (a := addr s x (off / BSIZE)) in *.
  pose proof (fo_data _ _ _ _ W4 _ Hk Ha) as Da. fold a in Da. pose proof (db_len _ _ _ _ Da) as Hla.
  assert (Z.of_nat (length (sub data (off - off0) m)) = m) as Hsub by (unfold sub; rewrite length_take, length_drop; lia).
  assert (a ≠ ind x) as Hai.
  { destruct (decide (ind x = 0)) as [E|E]; [by rewrite E|]. by apply (fo_ind_ne _ _ _ _ W4). }
  destruct (block_write s s' x a (λ d, splice d (off mod BSIZE) (sub data (off - off0) m)) W4 W6 FR Da Hai) as (Hf' & Hb' & Ea & U); [apply length_splice|done|].
  pose proof (Z.mod_pos_bound off BSIZE HB) as Hmb.
  constructor; try done.
  - lia.
  - by apply (has_inode_frame ip x s).
  - apply (iframe_trans ip x x s0 s); [done|]. by apply iframe_frame.
  - intros j Hj Ho. rewrite Ea. destruct (decide (j = off / BSIZE)) as [->|Hne]; [done|]. apply W5; [done|].
    pose proof (Z.div_mod off BSIZE ltac:(lia)). nia.
  - destruct (wrote_size s x off W) as [Es _]. pose proof (fo_size _ _ _ _ W4). intros o Ho.
    rewrite (block_bytes s s' x off (sub data (off - off0) m)) by (rewrite ?Hsub; try done; lia). rewrite Hsub.
    case_decide; [rewrite decide_True by lia; rewrite nth_sub by lia; do 2 f_equal; lia|].
    rewrite W7 by lia. destruct (decide (off0 ≤ o < off)); [by rewrite decide_True by lia|by rewrite decide_False by lia].
  - intros b H1 H2 H3 H4. destruct (W8 b H1 H2 H3 H4) as (E1 & E2 & E3).
    assert (b ≠ a) as Hba by (intros ->; apply E3; left; by exists (off / BSIZE)).
    rewrite B, decide_False, U by done. split_and!; [done|done|].
    intros [(k & Hk' & E)|E]; apply E3; [left; exists k; by rewrite <- Ea|by right].
Qed.

(** bmap, whether or not the file has the block. *)
Lemma bmap_any s x off bs n :
  wrote s x off → in_tx s [] bs → avail s (S (S n)) → 0 ≤ off / BSIZE < MAXFILE → Z.of_nat (length bs) + 5 < LOGSIZE - 1 →
  ∃ s' x' bs', bmap ip (off / BSIZE) s = Ok (addr s' x' (off / BSIZE)) s' ∧ addr s' x' (off / BSIZE) ≠ 0 ∧ wrote s' x' off ∧
    in_tx s' [] bs' ∧ (length bs' ≤ 5 + length bs)%nat ∧ avail s' n ∧ s_disk s' = s_disk s.
Proof.
  intros W Htx Hav Hk Hroom. pose proof (wr_file _ _ _ W) as Hf. destruct (decide (addr s x (off / BSIZE) = 0)) as [Ha|Ha].
  - destruct (bmap_new ip x (off / BSIZE) s bs n Htx (wr_inode _ _ _ W) Hf (wr_bitmap _ _ _ W) Hav Hk Ha ltac:(lia)) as (t & s' & x' & bs' & Hr & G).
    assert (addr s' x' (off / BSIZE) = t) as Et by (rewrite (gn_addr _ _ _ _ _ _ _ _ _ _ _ G), decide_True; done).
    exists s', x', bs'. rewrite Et. split_and!; try apply G; [done| |by apply (wrote_grown s x bs (off / BSIZE) t 5 n s' x' bs')].
    pose proof (db_range _ _ _ _ (gn_data _ _ _ _ _ _ _ _ _ _ _ G)). pose proof (layout_pos start sb Hlay). lia.
  - destruct (bmap_hit Hwait dev start sb ip x (off / BSIZE) s [] bs Htx (wr_inode _ _ _ W) Hf Hk Ha) as (s' & Hr & T & B & _ & D & F & _);
      [by intros ?%elem_of_nil|assert (LOGSIZE = NBUF) by done; simpl; lia|].
    exists s', x, bs. rewrite (addr_ext dev s s' x) by done. split_and!; try done; [by apply (wrote_ext s)|lia|].
    apply (avail_le _ _ (S (S n))); [lia|]. apply (avail_ext s); [intros; unfold FsBlocks.used; by rewrite B|done].
Qed.

Hypothesis Hoff0 : 0 ≤ off0.
Hypothesis Hdata : off0 + Z.of_nat (length data) ≤ MAXFILE * BSIZE.
Abbreviation n := (Z.of_nat (length data)).

Lemma writei_turn_spec s x tot bs c :
  wrote s x (off0 + tot) → in_tx s [] bs → avail s (S (S c)) → 0 ≤ tot < n → Z.of_nat (length bs) + 6 < LOGSIZE - 1 →
  let m := turn_bytes (off0 + tot) (n - tot) in
  ∃ s' x' bs', writei_turn ip (FromLocal data) n (tot, off0 + tot) s = Ok (inl (tot + m, off0 + tot + m)) s' ∧
    wrote s' x' (off0 + (tot + m)) ∧ in_tx s' [] bs' ∧ (length bs' ≤ 6 + length bs)%nat ∧ avail s' c ∧ s_disk s' = s_disk s.
Proof.
  intros W Htx Hav Ht Hroom m. set (off := off0 + tot) in *. assert (0 < BSIZE) as HB by done. pose proof (Z.mod_pos_bound off BSIZE HB) as Hmod.
  assert (0 ≤ off / BSIZE < MAXFILE) as Hk by (apply file_block; lia). assert (LOGSIZE = NBUF) as EN by done.
  destruct (bmap_any s x off bs c W Htx Hav Hk ltac:(lia)) as (s1 & x1 & bs1 & H1 & Ha & W1 & T1 & L1 & A1 & D1).
  set (a := addr s1 x1 (off / BSIZE)) in *. pose proof (fo_data _ _ _ _ (wr_file _ _ _ W1) _ Hk Ha) as Da. fold a in Da.
  destruct (data_outside dev start sb Hlay s1 a Da) as [Hout Hrng].
  destruct (tx_bread Hwait dev start s1 [] bs1 a T1) as (bp & s2 & H2 & T2 & G2 & Hd & B2 & _ & D2 & F2 & _); [by intros ?%elem_of_nil|simpl; lia|].
  destruct (tx_log dev start s2 [a] bs1 bp a (λ d, splice d (off mod BSIZE) (sub data tot m)) T2) as (s3 & H3 & T3 & B3 & K3 & D3 & F3);
    try done; [by left|lia|].
  destruct (tx_brelse dev start s3 [] (logged a bs1) bp a T3 (K3 _ _ G2)) as (s4 & H4 & T4 & B4 & _ & D4 & F4 & _).
  assert (∀ b, blk s4 b = if decide (b = a) then splice (blk s1 a) (off mod BSIZE) (sub data tot m) else blk s1 b) as B.
  { intros b. rewrite B4, B3, !B2. done. }
  assert (0 < m ≤ n - tot ∧ off mod BSIZE + m ≤ BSIZE) as Hm by (unfold m, turn_bytes; lia).
  exists s4, x1, (logged a bs1). split_and!.
  - unfold writei_turn. replace (tot <? n) with true by lia. rewrite (bind_ok _ _ _ _ _ H1). replace (a =? 0) with false by lia.
    erewrite bind_ok by reflexivity. rewrite (has_inode_at _ _ _ (wr_inode _ _ _ W1)), (fo_dev _ _ _ _ (wr_file _ _ _ W1)), (bind_ok _ _ _ _ _ H2).
    erewrite bind_ok by reflexivity. change (0 =? -1) with false. cbv iota.
    change (Z.min (n - tot) (BSIZE - off mod BSIZE)) with m. etrans; [exact (bind_two _ _ _ _ _ H3)|]. by rewrite (bind_ok _ _ _ _ _ H4).
  - rewrite Z.add_assoc. fold off. apply (wrote_block s1 s4 x1 off m); try done; try lia.
    + eapply frame_trans; [done|]. by eapply frame_trans.
    + by replace (off - off0) with tot by lia.
  - done.
  - pose proof (length_logged a bs1). lia.
  - apply (avail_ext s1); [|done]. intros b Hb. unfold FsBlocks.used. rewrite B, decide_False; [done|].
    destruct (bblock_eq start sb b Hlay Hb) as (_ & ? & _). pose proof (db_range _ _ _ _ Da). lia.
  - congruence.
Qed.

Lemma writei_loop (fuel : nat) s x tot bs c :
  wrote s x (off0 + tot) → in_tx s [] bs → 0 ≤ tot ≤ n → (c < fuel)%nat → tot = n ∨ n - tot + (off0 + tot) mod BSIZE ≤ Z.of_nat c * BSIZE →
  avail s (2 * c) → Z.of_nat (length bs) + 6 * Z.of_nat c < LOGSIZE - 1 →
  ∃ s' x' bs', loop fuel (writei_turn ip (FromLocal data) n) (tot, off0 + tot) s = Ok (n, off0 + n) s' ∧
    wrote s' x' (off0 + n) ∧ in_tx s' [] bs' ∧ (length bs' ≤ 6 * c + length bs)%nat ∧ s_disk s' = s_disk s.
Proof.
  assert (0 < BSIZE) as HB by done.
  revert s x tot bs c. induction fuel as [|fuel IH]; intros s x tot bs c W Htx Ht Hfuel Hc Hav Hroom; [lia|].
  destruct (decide (tot = n)) as [->|Hne].
  { exists s, x, bs. split_and!; try done; [|lia]. apply loop_end. unfold writei_turn. by rewrite Z.ltb_irrefl. }
  pose proof (Z.mod_pos_bound (off0 + tot) BSIZE HB) as Hmod. destruct c as [|c]; [lia|].
  destruct (writei_turn_spec s x tot bs (2 * c)) as (s1 & x1 & bs1 & H1 & W1 & T1 & L1 & A1 & D1); try done; [by replace (S (S (2 * c))) with (2 * S c)%nat by lia|lia|lia|].
  set (m := turn_bytes (off0 + tot) (n - tot)) in *. assert (0 < m ≤ n - tot) as Hm by (unfold m, turn_bytes; lia).
  destruct (IH s1 x1 (tot + m) bs1 c) as (s2 & x2 & bs2 & H2 & W2 & T2 & L2 & D2); try done; [lia|lia| |lia|].
  { destruct (decide (m = n - tot)) as [E|E]; [left; lia|right]. destruct Hc as [?|Hc]; [lia|]. unfold m, turn_bytes in *.
    assert (Z.min (n - tot) (BSIZE - (off0 + tot) mod BSIZE) = BSIZE - (off0 + tot) mod BSIZE) as -> by lia.
    assert ((off0 + (tot + (BSIZE - (off0 + tot) mod BSIZE))) mod BSIZE = 0) as ->; [|lia].
    replace (off0 + (tot + (BSIZE - (off0 + tot) mod BSIZE))) with (((off0 + tot) / BSIZE + 1) * BSIZE); [apply Z.mod_mul; lia|].
    pose proof (Z.div_mod (off0 + tot) BSIZE). lia. }
  exists s2, x2, bs2. split_and!; try done; [|lia|congruence]. cbn [loop]. rewrite (bind_ok _ _ _ _ _ H1).
  by replace (off0 + tot + m) with (off0 + (tot + m)) by lia.
Qed.
End writei.

(** What writei leaves. *)
Record written (ip : Z) (s : kst) (x : inode) (off : Z) (data : list Z) (s' : kst) (x' : inode) : Prop := {
  wn_inode : has_inode ip x' s';
  wn_frame : iframe ip x' s s';
  wn_size : i_size x' = Z.max (i_size x) (off + Z.of_nat (length data));
  wn_file : file_ok s' x';
  wn_bitmap : bitmap_ok s';
  wn_byte o : 0 ≤ o < i_size x' →
    byte s' x' o = if decide (off ≤ o < off + Z.of_nat (length data)) then nth (Z.to_nat (o - off)) data 0 else byte s x o;
  wn_stored y : same_disk x' (dinode_get (blk s' (IBLOCK (i_inum x) sb)) (inode_off x) y);
  wn_other m : 0 ≤ m < sb_size sb → used s m = true → ¬ bitmap_block m → m ≠ IBLOCK (i_inum x) sb → ¬ own s x m → blk s' m = blk s m;
}.

(** The size is updated at the end. *)
Definition grow_size (off : Z) (x : inode) : inode := if off >? i_size x then set_i_size off x else x.
Lemma grow_size_fields off x : i_size (grow_size off x) = Z.max (i_size x) off ∧ i_dev (grow_size off x) = i_dev x ∧
  i_addrs (grow_size off x) = i_addrs x ∧ i_inum (grow_size off x) = i_inum x.
Proof. clear Hwait. unfold grow_size. destruct (off >? i_size x) eqn:E; simpl; split_and!; try done; lia. Qed.

Lemma file_fits s x : file_ok s x → short (i_type x) → short (i_major x) → short (i_minor x) → short (i_nlink x) → inode_fits x.
Proof.
  clear Hwait. intros Hf H1 H2 H3 H4. constructor; try done; [pose proof (fo_size _ _ _ _ Hf); assert (MAXFILE * BSIZE = 274432) by done; lia|by apply Hf|].
  apply Forall_lookup_2. intros k a Hk. pose proof (lookup_lt_Some _ _ _ Hk). pose proof (fo_len _ _ _ _ Hf). pose proof (ly_size _ _ Hlay).
  pose proof (layout_pos start sb Hlay). assert (∀ b, data_block s b → 0 ≤ b < 2 ^ 32) as R by (intros b [? _ _]; lia).
  assert (nth k (i_addrs x) 0 = a) as En by (by rewrite nth_lookup, Hk). assert (NDIRECT < MAXFILE) by done.
  destruct (decide (a = 0)); [lia|]. apply R. destruct (decide (Z.of_nat k < NDIRECT)) as [Hd|Hd].
  - rewrite <- En. rewrite <- (Nat2Z.id k), <- (addr_direct s) by done. apply (fo_data _ _ _ _ Hf); [lia|]. rewrite addr_direct, Nat2Z.id by done. congruence.
  - assert (k = Z.to_nat NDIRECT) as -> by lia. fold (ind x) in En. rewrite <- En. apply (fo_ind _ _ _ _ Hf). congruence.
Qed.

Lemma own_data s x m : file_ok s x → own s x m → m = 0 ∨ data_start sb ≤ m.
Proof.
  intros Hf Ho. destruct (decide (m = 0)); [by left|right]. destruct Ho as [(k & Hk & E)|E].
  - assert (addr s x k ≠ 0) as Ha by congruence. pose proof (db_range _ _ _ _ (fo_data _ _ _ _ Hf k Hk Ha)). lia.
  - assert (ind x ≠ 0) as Ha by congruence. pose proof (db_range _ _ _ _ (fo_ind _ _ _ _ Hf Ha)). lia.
Qed.

(** The same file with another size. *)
Lemma file_ok_size ip f s x x' : file_ok s x → i_dev x' = i_dev x → i_addrs x' = i_addrs x → 0 ≤ i_size x' ≤ MAXFILE * BSIZE →
  (∀ k, 0 ≤ k → k * BSIZE < i_size x' → addr s x k ≠ 0) → file_ok (upd_inode ip f s) x'.
Proof.
  intros [F1 F2 F3 F4 F5 F6 F7 F8] Ed Ea Hs Hm. assert (ind x' = ind x) as Ei by (unfold ind; by rewrite Ea).
  assert (∀ k, addr (upd_inode ip f s) x' k = addr s x k) as E by (intros k; unfold FsFile.addr; by rewrite Ei, Ea).
  constructor; try done; intros *; rewrite ?E, ?Ei, ?Ea; try done.
  - congruence.
  - by apply Hm.
  - intros. by apply data_block_inode, F5.
  - by apply F6.
  - intros. by apply data_block_inode, F7.
  - by apply F8.
Qed.

(** A change of a block before the bitmap. *)
Lemma meta_keeps s s' b : frame s s' → bitmap_ok s → b < sb_bmapstart sb → data_start sb ≤ sb_size sb → (∀ m, m ≠ b → blk s' m = blk s m) →
  bitmap_ok s' ∧ ∀ m, data_block s m → blk s' m = blk s m ∧ data_block s' m.
Proof.
  clear Hwait. intros F Hbm Hb Hfit B. pose proof (layout_pos start sb Hlay) as Hp.
  assert (∀ c, 0 ≤ c < sb_size sb → blk s' (BBLOCK c sb) = blk s (BBLOCK c sb)) as Bb.
  { intros c Hc. apply B. destruct (bblock_eq start sb c Hlay Hc) as (-> & _ & _). pose proof (Z.div_pos c BPB). assert (0 < BPB) by done. lia. }
  split; [by apply (bitmap_ok_keep s)|]. intros m Hm. pose proof (db_range _ _ _ _ Hm). destruct (bblock_eq start sb 0 Hlay) as (_ & ? & _); [lia|].
  assert (blk s' m = blk s m) as E.
  { apply B. unfold data_start in *. pose proof (Z.div_pos (sb_size sb) BPB). assert (0 < BPB) by done. lia. }
  split; [done|]. apply (data_block_ext dev sb s); [done|unfold FsBlocks.used; rewrite Bb by lia; done|by rewrite E].
Qed.

(** The last step of writei, on the state that the loop leaves. *)
Lemma writei_end ip s x off data s1 x1 bs1 :
  let e := off + Z.of_nat (length data) in
  wrote ip s x off data s1 x1 e → file_ok s x → bitmap_ok s → in_tx s1 [] bs1 → inode_place dev start sb s x → data_start sb ≤ sb_size sb → 0 ≤ off ≤ i_size x →
  short (i_type x) → short (i_major x) → short (i_minor x) → short (i_nlink x) → Z.of_nat (length bs1) < LOGSIZE - 1 →
  ∃ s', (modify (upd_inode ip (grow_size e));; iupdate ip) s1 = Ok tt s' ∧
    in_tx s' [] (logged (IBLOCK (i_inum x) sb) bs1) ∧ written ip s x off data s' (grow_size e x1) ∧ s_disk s' = s_disk s1.
Proof.
  intros e W Hf Hbm T1 [P1 P2 P3] Hfit Hoff S1 S2 S3 S4 Hroom. pose proof W as [W0 W1 W2 W3 W4 W5 W6 W7 W8].
  set (x2 := grow_size e x1) in *. set (s2 := upd_inode ip (grow_size e) s1) in *. set (b := IBLOCK (i_inum x) sb) in *.
  destruct (grow_size_fields e x1) as (E1 & E2 & E3 & E4). fold x2 in E1, E2, E3, E4.
  destruct (wrote_size ip s x off data s1 x1 e W) as (Q1 & Q2 & Q3). pose proof (ly_log _ _ Hlay) as Hl0. assert (0 ≤ LOGSIZE) as Hl1 by done.
  assert (sb_bmapstart sb < data_start sb) as Hbd by (unfold data_start; pose proof (Z.div_pos (sb_size sb) BPB); pose proof (ly_size _ _ Hlay); assert (0 < BPB) by done; lia).
  assert (blk s1 b = blk s b) as Bb.
  { apply W8; [lia|apply (bm_meta _ _ _ Hbm); lia|unfold bitmap_block; lia|]. intros Ho. apply (own_data s x) in Ho; [lia|done]. }
  assert (∀ k, addr s2 x2 k = addr s1 x1 k) as Ea by (intros k; unfold FsFile.addr, ind; by rewrite E3).
  assert (file_ok s2 x2) as Hf2.
  { apply (file_ok_size ip (grow_size e) s1 x1); try done; [rewrite E1; pose proof (fo_size _ _ _ _ W4); lia|]. intros k Hk Hs. rewrite E1 in Hs.
    destruct (decide (k * BSIZE < e)); [by apply W5|]. apply (fo_map _ _ _ _ W4); lia. }
  destruct (iupdate_spec Hwait dev start sb Hlay ip x2 s2 bs1) as (s3 & H3 & T3 & B3 & D3 & F3).
  { by apply in_tx_inode. } { by apply has_inode_upd. } { apply Hf2. } { apply W6. }
  { constructor; rewrite E4, Q3; [done|done|]. fold b. change (blk s2) with (blk s1). by rewrite Bb. } { done. }
  rewrite E4, Q3 in T3, B3. fold b in T3, B3. change (blk s2) with (blk s1) in B3.
  assert (inode_off x2 = inode_off x) as Eo by (unfold inode_off; by rewrite E4, Q3). rewrite Eo in B3.
  assert (∀ m, m ≠ b → blk s3 m = blk s1 m) as B31 by (intros m Hm; by rewrite B3, decide_False).
  destruct (meta_keeps s2 s3 b F3) as [Hbm3 K]; [by apply bitmap_ok_inode|lia|done|done|].
  destruct (file_ok_keep s2 s3 x2 K Hf2) as [Hf3 Ea3].
  exists s3. split_and!; [|done| |by rewrite D3].
  - rewrite (bind_ok _ _ _ tt s2); done.
  - constructor; try done.
    + apply (has_inode_frame ip x2 s2 s3 F3). by apply has_inode_upd.
    + apply (iframe_trans ip x2 x2 s s2); [|apply iframe_frame; [by apply has_inode_upd|done]].
      apply (iframe_trans ip x1 x2 s s1); [done|]. apply (iframe_upd ip (grow_size e)); [done|apply frame_refl].
    + by rewrite E1, Q1.
    + intros o Ho. rewrite E1, Q1 in Ho. rewrite <- W7 by done. unfold FsFile.byte. rewrite Ea3, Ea.
      pose proof (wrote_mapped ip s x off data s1 x1 e o W Ho) as Ha. destruct (K (addr s1 x1 (o / BSIZE))) as [-> _]; [|done].
      apply data_block_inode. apply (fo_data _ _ _ _ W4); [|done]. apply file_block. pose proof (fo_size _ _ _ _ W4). lia.
    + intros y. fold b. rewrite B3, decide_True by done. pose proof (inode_off_range x) as [? ?].
      apply dinode_roundtrip; [|done|by rewrite Bb, P3].
      apply (file_fits s2 x2 Hf2); (replace x2 with (grow_size e x1) by done); unfold grow_size; destruct W3 as [a ->]; by case_match.
    + intros m H1 H2 H3' H4 H5. rewrite B31 by done. by apply W8.
Qed.

(** The blocks that a transfer of [n] bytes at [off] touches. *)
Definition turns (off n : Z) : nat := Z.to_nat ((n + off mod BSIZE + (BSIZE - 1)) / BSIZE).
Lemma turns_spec off n : 0 ≤ off → 0 ≤ n → n + off mod BSIZE ≤ Z.of_nat (turns off n) * BSIZE ∧ (turns off n < io_fuel n)%nat.
Proof.
  clear Hwait. intros Hoff Hn. unfold turns, io_fuel. assert (BSIZE = 1024) as -> by done. Z.to_euclidean_division_equations. lia.
Qed.

(** writei of bytes of the kernel, on a disk with room for them. *)
Lemma writei_spec ip x off data s bs :
  let c := turns off (Z.of_nat (length data)) in
  in_tx s [] bs → has_inode ip x s → file_ok s x → bitmap_ok s → inode_place dev start sb s x → data_start sb ≤ sb_size sb →
  short (i_type x) → short (i_major x) → short (i_minor x) → short (i_nlink x) →
  0 ≤ off ≤ i_size x → off + Z.of_nat (length data) ≤ MAXFILE * BSIZE →
  avail s (2 * c) → Z.of_nat (length bs) + 6 * Z.of_nat c < LOGSIZE - 1 →
  ∃ s' x' bs', writei ip (FromLocal data) off (Z.of_nat (length data)) s = Ok (Z.of_nat (length data)) s' ∧
    in_tx s' [] bs' ∧ (length bs' ≤ 1 + 6 * c + length bs)%nat ∧ written ip s x off data s' x' ∧ s_disk s' = s_disk s.
Proof.
  intros c Htx Hip Hf Hbm Hpl Hfit S1 S2 S3 S4 Hoff Hmax Hav Hroom. set (n := Z.of_nat (length data)) in *.
  destruct (turns_spec off n) as [Hc Hfuel]; [lia|lia|].
  assert (MAXFILE * BSIZE = 274432) as EM by done. assert (0 < BSIZE) as HB by done. pose proof (fo_size _ _ _ _ Hf).
  assert (wrote ip s x off data s x (off + 0)) as W0.
  { rewrite Z.add_0_r. constructor; try done; [lia|by apply iframe_frame; [|apply frame_refl]|exists (i_addrs x); by destruct x| |].
    - intros k Hk Hko. apply (fo_map _ _ _ _ Hf); lia.
    - intros o Ho. by rewrite decide_False by lia. }
  destruct (writei_loop ip s x off data ltac:(lia) Hmax (io_fuel n) s x 0 bs c W0 Htx) as (s1 & x1 & bs1 & H1 & W1 & T1 & L1 & D1); try done; [lia|right; rewrite Z.sub_0_r, Z.add_0_r; done|].
  destruct (writei_end ip s x off data s1 x1 bs1) as (s2 & H2 & T2 & Wn & D2); try done; [lia|].
  exists s2, (grow_size (off + n) x1), (logged (IBLOCK (i_inum x) sb) bs1). split_and!; [|done| |done|congruence].
  - unfold writei. erewrite bind_ok by reflexivity. rewrite (has_inode_at _ _ _ Hip). rewrite u32_small by lia.
    replace (_ || _) with false by lia. replace (off + n >? MAXFILE * BSIZE) with false by lia. rewrite Z.add_0_r in H1. rewrite (bind_ok _ _ _ _ _ H1).
    etrans; [exact (bind_two _ _ _ _ _ H2)|]. by rewrite s32_small by lia.
  - pose proof (length_logged (IBLOCK (i_inum x) sb) bs1). lia.
Qed.
End write.

(** ** Properties *)

Lemma content_data dev sb ip s x off data s' x' : 0 ≤ off → written dev sb ip s x off data s' x' →
  content dev s' x' off (Z.of_nat (length data)) = data.
Proof.
  intros Hoff W. apply list_eq. intros i. unfold content. rewrite list_lookup_fmap. destruct (data !! i) as [v|] eqn:E.
  - pose proof (lookup_lt_Some _ _ _ E). rewrite lookup_seqZ_lt by lia. simpl. f_equal.
    rewrite (wn_byte _ _ _ _ _ _ _ _ _ W) by (rewrite (wn_size _ _ _ _ _ _ _ _ _ W); lia). rewrite decide_True by lia.
    replace (Z.to_nat (off + (0 + Z.of_nat i) - off)) with i by lia. by rewrite nth_lookup, E.
  - apply lookup_ge_None in E. by rewrite lookup_seqZ_ge by lia.
Qed.

(** C3: what writei writes, readi reads.  On a file whose block map is well formed, in a
    transaction with room and on a disk with enough free blocks, writei of [data] from a
    buffer of the kernel at [off] writes all of it, through direct, indirect and newly allocated blocks; the
    file has the new bytes there and its old bytes elsewhere, its size is the larger
    of the two ends, its inode is stored on the disk, and no block of another file
    changes.  readi of the same range then returns exactly [data]. *)
Theorem writei_readi_roundtrip `{!KernelView kst} `{!WaitBound} dev start sb ip x off data s bs :
  let n := Z.of_nat (length data) in
  (0 < wait_bound)%nat → layout start sb → u32 dev = dev → data_start sb ≤ sb_size sb →
  in_tx dev start s [] bs → bitmap_ok dev sb s →
  has_inode ip x s → file_ok dev sb s x → inode_place dev start sb s x →
  short (i_type x) → short (i_major x) → short (i_minor x) → short (i_nlink x) →
  0 ≤ off ≤ i_size x → off + n ≤ MAXFILE * BSIZE →
  avail dev sb s (2 * turns off n) → Z.of_nat (length bs) + 6 * Z.of_nat (turns off n) < LOGSIZE - 2 →
  ∃ s1 x' s2, writei ip (FromLocal data) off n s = Ok n s1 ∧ written dev sb ip s x off data s1 x' ∧
    readi ip ToLocal off n s1 = Ok (n, data) s2 ∧ (∀ b, blk dev s2 b = blk dev s1 b) ∧ frame s1 s2.
Proof.
  intros n Hw Hlay Hdev Hfit Htx Hbm Hip Hf Hpl S1 S2 S3 S4 Hoff Hmax Hav Hroom.
  destruct (writei_spec Hw dev start sb Hlay Hdev ip x off data s bs) as (s1 & x' & bs' & H1 & T1 & L1 & W & _); try done; [fold n; lia|].
  assert (MAXFILE * BSIZE = 274432) as EM by done. assert (LOGSIZE = NBUF) as EN by done. pose proof (wn_size _ _ _ _ _ _ _ _ _ W) as Hs. fold n in Hs, L1.
  destruct (readi_spec Hw dev start sb ip x' off n s1 bs' T1) as (s2 & H2 & _ & B2 & _ & F2); try apply W; try lia.
  replace (off >? i_size x') with false in H2 by lia. rewrite u32_small in H2 by lia. replace (off + n <? off) with false in H2 by lia.
  replace (Z.min n (i_size x' - off)) with n in H2 by lia. unfold n in H2. rewrite (content_data dev sb ip s x) in H2 by (try done; lia).
  exists s1, x', s2. by split_and!.
Qed.

(** writei refuses a write that starts after the end of the file, wraps around or would
    make the file too large: it returns -1 and does nothing. *)
Theorem writei_refuses `{!KernelView kst} `{!WaitBound} ip src off n s :
  off > i_size (inode_at ip s) ∨ u32 (off + n) < off ∨ u32 (off + n) > MAXFILE * BSIZE → writei ip src off n s = Ok (-1) s.
Proof.
  intros Hbad. unfold writei. erewrite bind_ok by reflexivity. destruct ((off >? i_size (inode_at ip s)) || (u32 (off + n) <? off)) eqn:E; [done|].
  replace (u32 (off + n) >? MAXFILE * BSIZE) with true by lia. done.
Qed.

(** An empty file, inode 5. *)
Definition file1 : inode := Inode 1 5 1 (Sleeplock 1 false 1) 1 2 0 0 1 0 (replicate 13 0).
Definition fs_file : kst := upd_inode 0 (λ _, file1) fs_op.

Lemma addr_file1 k : addr 1 fs_file file1 k = 0.
Proof.
  unfold addr. change (ind file1 =? 0) with true. cbv iota. destruct (k <? NDIRECT); [|reflexivity]. simpl i_addrs.
  generalize (Z.to_nat k). intros j. do 13 (destruct j as [|j]; [reflexivity|]). by destruct j.
Qed.
Lemma blk_inode dev ip f s b : blk dev (upd_inode ip f s) b = blk dev s b.
Proof. reflexivity. Qed.
Lemma used_inode dev sb ip f s b : used dev sb (upd_inode ip f s) b = used dev sb s b.
Proof. reflexivity. Qed.
Lemma file1_ok : file_ok 1 sb1 fs_file file1.
Proof.
  constructor; try reflexivity.
  - vm_compute. by split.
  - intros k Hk Hs. simpl in Hs. assert (BSIZE = 1024) by reflexivity. lia.
  - intros k _ Ha. destruct Ha. apply addr_file1.
  - intros j k _ _ _ Ha. destruct Ha. apply addr_file1.
  - intros Ha. by destruct Ha.
  - intros k _ Ha. by destruct Ha.
Qed.

Lemma writei_readi_roundtrip_witness : ∃ s1 s2,
  @writei alone turns1 0 (FromLocal [104; 105]) 0 2 fs_file = Ok 2 s1 ∧ @readi alone turns1 0 ToLocal 0 2 s1 = Ok (2, [104; 105]) s2.
Proof.
  destruct (@writei_readi_roundtrip alone turns1 1 2 sb1 0 file1 0 [104; 105] fs_file []) as (s1 & x' & s2 & H1 & _ & H2 & _).
  - unfold wait_bound, turns1. lia.
  - exact layout1.
  - reflexivity.
  - vm_compute. discriminate.
  - apply in_tx_inode. exact (fs_on_tx disk1).
  - apply bitmap_ok_inode. exact bitmap_ok1.
  - reflexivity.
  - exact file1_ok.
  - constructor; [vm_compute; discriminate|vm_compute; split; [discriminate|reflexivity]|vm_compute; reflexivity].
  - vm_compute. by split.
  - vm_compute. by split.
  - vm_compute. by split.
  - vm_compute. by split.
  - vm_compute. by split.
  - vm_compute. discriminate.
  - exists [46; 47]. split_and!; [apply NoDup_cons_2; [by intros ?%list_elem_of_singleton|apply NoDup_singleton]| |vm_compute; lia].
    intros b [-> | ->%list_elem_of_singleton]%elem_of_cons; (split; [simpl; lia|]); unfold fs_file; rewrite used_inode, used1 by lia; reflexivity.
  - vm_compute. reflexivity.
  - exists s1, s2. split; [exact H1|exact H2].
Defined.

Lemma writei_refuses_witness : @writei alone turns1 0 (FromLocal [1]) 1 1 fs_file = Ok (-1) fs_file.
Proof. apply writei_refuses. left. vm_compute. reflexivity. Defined.
