(* ===== verification/FsPath.v ===== *)
(** * Path names: skipelem of kernel/fs.c against a splitting of the path

    A path is a string whose elements are separated by slashes.  The walk of namex over
    a path, one skipelem at a time, sees the elements of the path in order, each cut to
    DIRSIZ bytes, and ends. *)
From stdpp Require Import gmap.
From S2P Require Import Prelude Bytes Mem Spinlock Riscv Kalloc Vm Proc Kstate Console Sleeplock Bio Log Fs FsInode.
Open Scope Z_scope.

(** ** The elements of a path *)

(** A C string: the bytes before the first zero. *)
Fixpoint until0 (p : list Z) : list Z :=
  match p with
  | [] => []
  | c :: p' => if c =? 0 then [] else c :: until0 p'
  end.

(** The fields between the slashes, empty ones included. *)
Fixpoint fields (p : list Z) : list (list Z) :=
  match p with
  | [] => [[]]
  | c :: p' =>
      if c =? SLASH then [] :: fields p'
      else match fields p' with f :: fs => (c :: f) :: fs | [] => [[c]] end
  end.
Definition elements (path : list Z) : list (list Z) := filter (λ f, f ≠ []) (fields (until0 path)).

(** The names that repeated calls of skipelem put in the buffer, if they end within [fuel]. *)
Fixpoint walk (fuel : nat) (path name : list Z) : option (list (list Z)) :=
  match fuel with
  | O => None
  | S fuel' =>
      match skipelem path name with
      | None => Some []
      | Some (path', name') => (λ l, name' :: l) <$> walk fuel' path' name'
      end
  end.

(** ** Lemmas *)

Lemma elements_slash c p : c = SLASH → elements (c :: p) = elements p.
Proof. intros ->. reflexivity. Qed.

Lemma elements_skip p : elements (skip_slashes p) = elements p.
Proof.
  induction p as [|c p IH]; [done|]. simpl skip_slashes. destruct (c =? SLASH) eqn:E; [|done].
  by rewrite IH, elements_slash by lia.
Qed.

Lemma fields_ne p : fields p ≠ [].
Proof. destruct p as [|c p]; simpl; [done|]. destruct (c =? SLASH); [done|]. by destruct (fields p). Qed.

(** take_elem passes over the first field. *)
Lemma take_elem_fields p s r : take_elem p = (s, r) → ∃ fs, fields (until0 p) = s :: fs ∧ filter (λ f, f ≠ []) fs = elements r.
Proof.
  revert s r. induction p as [|c p IH]; intros s r H; simpl in H.
  { simplify_eq. by exists []. }
  destruct (negb (c =? SLASH) && negb (c =? 0)) eqn:E.
  - destruct (take_elem p) as [s' r'] eqn:Ep. simplify_eq. destruct (IH s' r eq_refl) as (fs & H1 & H2). exists fs.
    simpl. replace (c =? 0) with false by lia. simpl. replace (c =? SLASH) with false by lia. by rewrite H1.
  - simplify_eq. destruct (decide (c = 0)) as [->|Hc]; [by exists []|]. assert (c = SLASH) as -> by lia.
    exists (fields (until0 p)). done.
Qed.

Lemma take_elem_app p s r : take_elem p = (s, r) → p = s ++ r ∧ Forall (λ c, c ≠ 0) s.
Proof.
  revert s r. induction p as [|c p IH]; intros s r H; simpl in H; [by simplify_eq|].
  destruct (negb (c =? SLASH) && negb (c =? 0)) eqn:E; [|by simplify_eq].
  destruct (take_elem p) as [s' r'] eqn:Ep. simplify_eq. destruct (IH s' r eq_refl) as [-> Hs]. split; [done|]. constructor; [lia|done].
Qed.

Lemma skip_slashes_length p : (length (skip_slashes p) ≤ length p)%nat.
Proof. induction p as [|c p IH]; [done|]. simpl. destruct (c =? SLASH); simpl; lia. Qed.
Lemma skip_slashes_hd p : hd 0 (skip_slashes p) ≠ SLASH.
Proof. induction p as [|c p IH]; [done|]. simpl. destruct (c =? SLASH) eqn:E; [done|]. simpl. lia. Qed.

Lemma until0_app s r : Forall (λ c, c ≠ 0) s → until0 (s ++ r) = s ++ until0 r.
Proof. induction 1 as [|c s Hc _ IH]; [done|]. simpl. replace (c =? 0) with false by lia. by rewrite IH. Qed.

(** The buffer after skipelem, as a string: the element, cut to DIRSIZ bytes. *)
Lemma splice_front (d bs : list Z) : (length bs ≤ length d)%nat → splice d 0 bs = bs ++ drop (length bs) d.
Proof.
  intros Hl. unfold splice. change (Z.to_nat 0) with 0%nat. rewrite <- (take_drop (length bs) d) at 1.
  apply list_inserts_0_r. rewrite length_take. lia.
Qed.

Lemma until0_nonzero s : Forall (λ c, c ≠ 0) s → until0 s = s.
Proof. intros Hs. rewrite <- (app_nil_r s) at 1. rewrite until0_app by done. apply app_nil_r. Qed.

Definition set_name (name s : list Z) : list Z :=
  let len := Z.of_nat (length s) in
  if len >=? DIRSIZ then splice name 0 (take (Z.to_nat DIRSIZ) s) else splice (splice name 0 s) len [0].

Lemma set_name_spec name s : Z.of_nat (length name) = DIRSIZ → Forall (λ c, c ≠ 0) s →
  Z.of_nat (length (set_name name s)) = DIRSIZ ∧ until0 (set_name name s) = take (Z.to_nat DIRSIZ) s.
Proof.
  intros Hn Hs. unfold set_name. destruct (Z.of_nat (length s) >=? DIRSIZ) eqn:E; rewrite ?length_splice; (split; [done|]).
  - rewrite splice_front by (rewrite length_take; lia). rewrite length_take, drop_ge, app_nil_r by lia.
    apply until0_nonzero. by apply Forall_take.
  - rewrite splice_front by lia. unfold splice. rewrite Nat2Z.id. replace (length s) with (length s + 0)%nat at 1 by lia.
    rewrite list_inserts_app_r, until0_app by done. rewrite take_ge by lia. rewrite <- (app_nil_r s) at 3. f_equal.
    destruct (drop (length s) name) as [|c r] eqn:Ed; [|done]. pose proof (length_drop name (length s)) as Hl. rewrite Ed in Hl. simpl in Hl. lia.
Qed.

(** What one skipelem does. *)
Lemma skipelem_spec path name : Z.of_nat (length name) = DIRSIZ →
  match skipelem path name with
  | None => elements path = []
  | Some (path', name') =>
      ∃ e, elements path = e :: elements path' ∧ until0 name' = take (Z.to_nat DIRSIZ) e ∧ Z.of_nat (length name') = DIRSIZ ∧
        (length path' < length path)%nat ∧ hd 0 path' ≠ SLASH
  end.
Proof.
  intros Hn. unfold skipelem. rewrite <- (elements_skip path). pose proof (skip_slashes_length path) as Hlen. pose proof (skip_slashes_hd path) as Hhd.
  set (p := skip_slashes path) in *. clearbody p. destruct (hd 0 p =? 0) eqn:E0.
  { destruct p as [|c p]; [done|]. simpl in E0. unfold elements. simpl. by rewrite E0. }
  destruct (take_elem p) as [e r] eqn:Et. fold (set_name name e). destruct (take_elem_fields p e r Et) as (fs & H1 & H2).
  destruct (take_elem_app p e r Et) as [Ep He]. destruct (set_name_spec name e Hn He) as [Hl Hu].
  assert (e ≠ []) as Hne.
  { intros ->. simpl in Ep. subst r. destruct p as [|c p]; [done|]. simpl in Et, E0, Hhd. replace (_ && _) with true in Et by lia.
    by destruct (take_elem p). }
  exists e. split_and!; [|done|done| |apply skip_slashes_hd].
  - unfold elements at 1. rewrite H1, filter_cons_True by done. by rewrite H2, elements_skip.
  - pose proof (skip_slashes_length r). rewrite Ep, length_app in Hlen. destruct e; [done|]. simpl in Hlen. lia.
Qed.

Lemma walk_spec fuel path name : Z.of_nat (length name) = DIRSIZ → (length path < fuel)%nat →
  ∃ l, walk fuel path name = Some l ∧ until0 <$> l = take (Z.to_nat DIRSIZ) <$> elements path.
Proof.
  revert path name. induction fuel as [|fuel IH]; intros path name Hn Hf; [lia|]. simpl. pose proof (skipelem_spec path name Hn) as Hs.
  destruct (skipelem path name) as [[path' name']|]; [|exists []; by rewrite Hs].
  destruct Hs as (e & -> & Hu & Hl & Hlt & _). destruct (IH path' name') as (l & -> & El); [done|lia|].
  exists (name' :: l). split; [done|]. rewrite !fmap_cons. by rewrite Hu, El.
Qed.

(** ** Properties *)

(** C9: skipelem splits a path the way the reference splitting does.  Repeated calls of
    skipelem, from any path and any contents of the name buffer, end after at most as
    many calls as the path has bytes, and the names they put in the buffer are the
    nonempty fields of the path between slashes, in order, each cut to DIRSIZ bytes. *)
Theorem skipelem_walks_elements path name : Z.of_nat (length name) = DIRSIZ →
  ∃ l, walk (S (length path)) path name = Some l ∧ until0 <$> l = take (Z.to_nat DIRSIZ) <$> elements path.
Proof. intros Hn. by apply walk_spec; [|lia]. Qed.

(** The path of the example of skipelem. *)
Lemma skipelem_walks_elements_witness :
  ∃ l, walk 9 [47; 47; 47; 97; 47; 47; 98; 98] (replicate 14 0) = Some l ∧ until0 <$> l = [[97]; [98; 98]].
Proof. destruct (skipelem_walks_elements [47; 47; 47; 97; 47; 47; 98; 98] (replicate 14 0)) as (l & H1 & H2); [reflexivity|]. exists l. split; [exact H1|exact H2]. Defined.
