(* ===== verification/FsDir.v ===== *)
(** * Directories: namecmp and dirlookup of kernel/fs.c, and the walk of namex

    A directory is a file of entries; dirlookup against the search of a list of entries. *)
From stdpp Require Import gmap.
From S2P Require Import Prelude Bytes Mem Spinlock Riscv Kalloc Vm Proc Kstate Console Sleeplock Bio Log Fs Tx FsBlocks FsFile FsInode FsWrite FsPath.
Open Scope Z_scope.

(** ** Names *)

Definition name_str (l : list Z) : list Z := take (Z.to_nat DIRSIZ) (until0 l).

Lemma until0_cons l : until0 l = if hd 0 l =? 0 then [] else hd 0 l :: until0 (tail l).
Proof. by destruct l. Qed.

(** strncmp is zero exactly on strings with the same first [n] bytes. *)
Lemma strncmp_bytes_eq p q n : strncmp_bytes p q n = 0 ↔ take n (until0 p) = take n (until0 q).
Proof.
  revert p q. induction n as [|n IH]; intros p q; [done|]. cbn [strncmp_bytes]. cbv zeta. rewrite (until0_cons p), (until0_cons q).
  destruct (hd 0 p =? 0) eqn:Ep, (hd 0 q =? 0) eqn:Eq; cbn [negb andb take].
  - split; [done|lia].
  - split; [lia|done].
  - destruct (hd 0 p =? hd 0 q) eqn:E; [lia|]. split; [lia|done].
  - destruct (hd 0 p =? hd 0 q) eqn:E.
    + rewrite IH. assert (hd 0 p = hd 0 q) as -> by lia. split; [by intros ->|by intros [=]].
    + split; [lia|]. intros [=]. lia.
Qed.
Lemma namecmp_eq p q : namecmp p q = 0 ↔ name_str p = name_str q.
Proof. apply strncmp_bytes_eq. Qed.

Section dirs.
Context `{KV : !KernelView kst} `{WB : !WaitBound}.
Hypothesis Hwait : (0 < wait_bound)%nat.
Variables (dev start : Z) (sb : superblock).
Abbreviation blk := (blk dev).
Abbreviation in_tx := (in_tx dev start).
Abbreviation file_ok := (file_ok dev sb).
Abbreviation content := (content dev).

(** The search of [m] entries from number [i] on: the inode number and the offset of the
    first one in use with this name. *)
Fixpoint dir_find (s : kst) (x : inode) (name : list Z) (i : Z) (m : nat) : option (Z * Z) :=
  match m with
  | O => None
  | S m' =>
      let de := content s x (DIRENT_SIZE * i) DIRENT_SIZE in
      if decide (de_inum de ≠ 0 ∧ name_str name = name_str (de_name de)) then Some (de_inum de, DIRENT_SIZE * i)
      else dir_find s x name (i + 1) m'
  end.

Lemma dir_find_ext s s' x name i m : (∀ b, blk s' b = blk s b) → dir_find s' x name i m = dir_find s x name i m.
Proof. intros B. revert i. induction m as [|m IH]; intros i; [done|]. cbn [dir_find]. by rewrite (content_ext dev s s') , IH. Qed.

Lemma dirlookup_loop dp x name (m fuel : nat) i s bs :
  in_tx s [] bs → has_inode dp x s → file_ok s x → Z.of_nat (length bs) + 1 < NBUF →
  0 ≤ i → DIRENT_SIZE * (i + Z.of_nat m) = i_size x → (m < fuel)%nat →
  ∃ s', loop fuel (dirlookup_turn dp name) (DIRENT_SIZE * i) s = Ok (dir_find s x name i m) s' ∧
    in_tx s' [] bs ∧ (∀ b, blk s' b = blk s b) ∧ frame s s'.
Proof.
  revert fuel i s. assert (DIRENT_SIZE = 16) as ED by done. induction m as [|m IH]; intros [|fuel] i s Htx Hip Hf Hbuf Hi Hsz Hlt; try lia.
  - exists s. split_and!; [|done|done|apply frame_refl]. apply loop_end. unfold dirlookup_turn. erewrite bind_ok by reflexivity.
    rewrite (has_inode_at _ _ _ Hip). by replace (_ <? _) with false by lia.
  - pose proof (fo_size _ _ _ _ Hf). assert (MAXFILE * BSIZE = 274432) as EM by done.
    destruct (readi_spec Hwait dev start sb dp x (DIRENT_SIZE * i) DIRENT_SIZE s bs) as (s1 & H1 & T1 & B1 & D1 & F1); try done; try lia.
    replace (DIRENT_SIZE * i >? i_size x) with false in H1 by lia. rewrite u32_small in H1 by lia.
    replace (_ <? _) with false in H1 by lia. replace (Z.min _ _) with DIRENT_SIZE in H1 by lia.
    set (de := content s x (DIRENT_SIZE * i) DIRENT_SIZE) in *.
    destruct (IH fuel (i + 1) s1) as (s2 & H2 & T2 & B2 & F2); try done; try lia; [by apply (has_inode_frame dp x s)|by apply (file_ok_ext dev sb s)|].
    assert (∀ r, (if de_inum de =? 0 then mret (inl (u32 (DIRENT_SIZE * i + DIRENT_SIZE))) else
       if namecmp name (de_name de) =? 0 then mret (inr (Some (de_inum de, DIRENT_SIZE * i)))
       else mret (inl (u32 (DIRENT_SIZE * i + DIRENT_SIZE))) : M kst (Z + option (Z * Z))) s1 = Ok r s1 →
       dirlookup_turn dp name (DIRENT_SIZE * i) s = Ok r s1) as Ht.
    { intros r Hr. unfold dirlookup_turn. erewrite bind_ok by reflexivity. rewrite (has_inode_at _ _ _ Hip).
      replace (_ <? _) with true by lia. rewrite (bind_ok _ _ _ _ _ H1). exact Hr. }
    cbn [dir_find]. fold de. case_decide as Hde.
    + exists s1. split_and!; try done. apply loop_end, Ht. replace (de_inum de =? 0) with false by lia.
      by rewrite (proj2 (namecmp_eq _ _)) by tauto.
    + exists s2. split_and!; [|done|intros b; by rewrite B2|by apply (frame_trans s s1)]. cbn [loop].
      rewrite (bind_ok _ _ _ (inl (DIRENT_SIZE * (i + 1))) s1); [by rewrite H2, (dir_find_ext s s1)|]. apply Ht.
      rewrite u32_small by lia. replace (DIRENT_SIZE * i + DIRENT_SIZE) with (DIRENT_SIZE * (i + 1)) by lia.
      destruct (de_inum de =? 0) eqn:E; [done|]. destruct (namecmp name (de_name de) =? 0) eqn:E'; [|done].
      destruct Hde. split; [lia|]. apply namecmp_eq. lia.
Qed.
End dirs.

Section walks.
Context `{KV : !KernelView kst} `{WB : !WaitBound}.

(** A turn of namex that goes on does so past the first element of the path. *)
Lemma namex_turn_elements np path ip name s path' ip' name' s' : Z.of_nat (length name) = DIRSIZ →
  namex_turn np (path, ip, name) s = Ok (inl (path', ip', name')) s' →
  (∃ e, elements path = e :: elements path' ∧ until0 name' = take (Z.to_nat DIRSIZ) e) ∧
  (length path' < length path)%nat ∧ Z.of_nat (length name') = DIRSIZ.
Proof.
  intros Hn. unfold namex_turn. pose proof (skipelem_spec path name Hn) as Hs. destruct (skipelem path name) as [[p n]|]; [|done].
  destruct Hs as (e & He & Hu & Hl & Hlt & _). intros H.
  apply bind_ok_inv in H as (_ & s1 & _ & H). apply bind_ok_inv in H as (x & s2 & _ & H). destruct (negb (i_type x =? T_DIR)).
  { apply bind_ok_inv in H as (? & ? & _ & H). done. }
  destruct (np && (hd 0 p =? 0)).
  { apply bind_ok_inv in H as (? & ? & _ & H). done. }
  apply bind_ok_inv in H as ([next o] & s3 & _ & H). destruct (next =? NULLP).
  { apply bind_ok_inv in H as (? & ? & _ & H). done. }
  apply bind_ok_inv in H as (? & ? & _ & H). injection H as <- <- <- <-. eauto 10.
Qed.

(** The state of the loop: the rest of the path, the inode reached and the name buffer. *)
Definition walk_at : Type := list Z * Z * list Z.

(** The loop has made [n] turns and goes on after each of them. *)
Inductive walked (np : bool) : nat → walk_at → kst → walk_at → kst → Prop :=
  | walked_0 a s : walked np 0 a s a s
  | walked_S n a s a1 s1 a2 s2 : namex_turn np a s = Ok (inl a1) s1 → walked np n a1 s1 a2 s2 → walked np (S n) a s a2 s2.

Lemma walked_elements np n path ip name s path' ip' name' s' : walked np n (path, ip, name) s (path', ip', name') s' →
  Z.of_nat (length name) = DIRSIZ → elements path' = drop n (elements path) ∧ (n ≤ length (elements path))%nat.
Proof.
  intros H. remember (path, ip, name) as a eqn:Ea. remember (path', ip', name') as a' eqn:Ea'. revert path ip name Ea.
  induction H as [a s|n a s [[p1 i1] n1] s1 a2 s2 Ht _ IH]; intros path ip name -> Hn.
  - injection Ea' as -> -> ->. rewrite drop_0. split; [done|lia].
  - destruct (namex_turn_elements np _ _ _ _ _ _ _ _ Hn Ht) as [(e & He & _) [_ Hn1]].
    destruct (IH Ea' p1 i1 n1 eq_refl Hn1) as [E Hl]. rewrite He. simpl. split; [done|lia].
Qed.

(** With more turns than the path has bytes, the loop gets as far as a turn that does not
    go on, and ends the way that turn does. *)
Lemma namex_last np fuel path ip name s : Z.of_nat (length name) = DIRSIZ → (length path < fuel)%nat →
  ∃ n a s', walked np n (path, ip, name) s a s' ∧
    match namex_turn np a s' with
    | Ok (inl _) _ => False
    | Ok (inr r) s'' => loop fuel (namex_turn np) (path, ip, name) s = Ok r s''
    | Panic m => loop fuel (namex_turn np) (path, ip, name) s = Panic m
    | Asleep c => loop fuel (namex_turn np) (path, ip, name) s = Asleep c
    | NoFuel => loop fuel (namex_turn np) (path, ip, name) s = NoFuel
    end.
Proof.
  revert path ip name s. induction fuel as [|fuel IH]; intros path ip name s Hn Hlt; [lia|]. cbn [loop]. unfold mbind, M_bind.
  destruct (namex_turn np (path, ip, name) s) as [[[[p1 i1] n1]|r] s1|m| |] eqn:Et.
  2-5: exists 0%nat, (path, ip, name), s; rewrite Et; split; [constructor|done].
  destruct (namex_turn_elements np _ _ _ _ _ _ _ _ Hn Et) as [_ [Hl Hn1]]. destruct (IH p1 i1 n1 s1) as (n & a & s' & Hw & Hr); [done|lia|].
  exists (S n), a, s'. split; [by econstructor|exact Hr].
Qed.
End walks.

(** ** Properties *)

(** C7: dirlookup finds what a search of the directory's entries finds.  On a directory
    with a well-formed block map and whole entries, dirlookup reads the entries in
    order, and changes neither a block nor the inode table; if some entry in use has
    the name, compared as strings of at most DIRSIZ bytes, it returns the inode of the
    first such entry and the entry's offset, and otherwise the null pointer. *)
Theorem dirlookup_finds `{!KernelView kst} `{!WaitBound} dev start sb dp x name s bs :
  (0 < wait_bound)%nat → in_tx dev start s [] bs → has_inode dp x s → file_ok dev sb s x → i_type x = T_DIR → i_size x mod DIRENT_SIZE = 0 →
  Z.of_nat (length bs) + 1 < NBUF →
  ∃ s1, (∀ b, blk dev s1 b = blk dev s b) ∧ frame s s1 ∧
    dirlookup dp name s =
      match dir_find dev s x name 0 (Z.to_nat (i_size x / DIRENT_SIZE)) with
      | Some (inum, off) => (ip ← iget dev inum; mret (ip, off)) s1
      | None => Ok (NULLP, 0) s1
      end.
Proof.
  intros Hw Htx Hip Hf Hty Hmod Hbuf. assert (0 < DIRENT_SIZE) as HD by done. pose proof (fo_size _ _ _ _ Hf).
  pose proof (Z.div_mod (i_size x) DIRENT_SIZE ltac:(lia)) as Hdm. pose proof (Z.div_pos (i_size x) DIRENT_SIZE ltac:(lia) HD) as Hp.
  destruct (dirlookup_loop Hw dev start sb dp x name (Z.to_nat (i_size x / DIRENT_SIZE)) (Z.to_nat (i_size x / DIRENT_SIZE + 2)) 0 s bs)
    as (s1 & H1 & _ & B1 & F1); try done; try lia.
  exists s1. split_and!; [done|done|]. unfold dirlookup. erewrite bind_ok by reflexivity. rewrite (has_inode_at _ _ _ Hip), Hty. cbn [negb Z.eqb].
  rewrite Z.mul_0_r in H1. change (negb (T_DIR =? T_DIR)) with false. cbv iota. rewrite (bind_ok _ _ _ _ _ H1), (fo_dev _ _ _ _ Hf). by destruct (dir_find _ _ _ _ _ _) as [[]|].
Qed.

(** The buffer that namex is given for a name: an array of DIRSIZ bytes. *)
Definition name_buffer (name : list Z) : Prop := Z.of_nat (length name) = DIRSIZ.

(** C12: the walk of namex over a path ends.  No run of the loop goes on for more turns
    than the path has elements, and after [n] turns that go on what is left of the path
    are its elements but the first [n].  So the loop of the model, which may make one
    turn more than the path has bytes, reaches a turn that does not go on, and ends with
    that turn's outcome: its result when it returns, and otherwise the panic or the wait
    of the locking, the lookup or the release of the one inode that the turn is at. *)
Theorem namex_walk_ends `{!KernelView kst} `{!WaitBound} np path ip name s : name_buffer name →
  (∀ n path' ip' name' s', walked np n (path, ip, name) s (path', ip', name') s' →
     (n ≤ length (elements path))%nat ∧ elements path' = drop n (elements path)) ∧
  ∃ n a s', walked np n (path, ip, name) s a s' ∧
    match namex_turn np a s' with
    | Ok (inl _) _ => False
    | Ok (inr r) s'' => loop (S (length path)) (namex_turn np) (path, ip, name) s = Ok r s''
    | Panic m => loop (S (length path)) (namex_turn np) (path, ip, name) s = Panic m
    | Asleep c => loop (S (length path)) (namex_turn np) (path, ip, name) s = Asleep c
    | NoFuel => loop (S (length path)) (namex_turn np) (path, ip, name) s = NoFuel
    end.
Proof.
  intros Hn. split; [|apply namex_last; [exact Hn|lia]]. intros n path' ip' name' s' Hk.
  destruct (walked_elements np n _ _ _ _ _ _ _ _ Hk Hn). done.
Qed.

(** Directory 3 with one entry, for inode 9, named a. *)
Definition dir_file : inode := Inode 1 3 1 (Sleeplock 1 false 1) 1 1 0 0 1 16 (50 :: replicate 12 0).
Definition dir_disk (n : Z) : list Z := if n =? 50 then 9 :: 0 :: 97 :: replicate 1021 0 else replicate 1024 255.
Definition fs_dir : kst := upd_inode 0 (λ _, dir_file) (fs_on dir_disk).

Lemma blk_fs_dir m : blk 1 fs_dir m = dir_disk m.
Proof. unfold fs_dir. rewrite blk_inode. apply blk_fs_on. Qed.
Lemma addr_fs_dir k : addr 1 fs_dir dir_file k = if k <=? 0 then 50 else 0.
Proof.
  unfold addr. change (ind dir_file =? 0) with true. cbv iota. destruct (k <? NDIRECT) eqn:E; [|assert (NDIRECT = 12) by done; by replace (k <=? 0) with false by lia].
  destruct (k <=? 0) eqn:E0; [by replace (Z.to_nat k) with 0%nat by lia|]. destruct (Z.to_nat k) as [|j] eqn:Ek; [lia|]. simpl i_addrs. cbn [nth].
  clear. do 12 (destruct j as [|j]; [reflexivity|]). by destruct j.
Qed.
Lemma dir_block : data_block 1 sb1 fs_dir 50.
Proof.
  constructor; [split; vm_compute; [discriminate|reflexivity]| |rewrite blk_fs_dir; vm_compute; reflexivity]. unfold used. rewrite blk_fs_dir. vm_compute. reflexivity.
Qed.
Lemma dir_file_ok : file_ok 1 sb1 fs_dir dir_file.
Proof.
  constructor.
  - reflexivity.
  - reflexivity.
  - split; vm_compute; discriminate.
  - intros k Hk Hs. simpl in Hs. assert (BSIZE = 1024) by reflexivity. rewrite addr_fs_dir. by replace (k <=? 0) with true by lia.
  - intros k Hk. rewrite addr_fs_dir. destruct (k <=? 0); [|done]. intros _. exact dir_block.
  - intros j k Hj Hk. rewrite !addr_fs_dir. destruct (j <=? 0) eqn:E, (k <=? 0) eqn:E'; try done. intros. lia.
  - intros Ha. by destruct Ha.
  - intros k _ Ha. by destruct Ha.
Qed.

Lemma dirlookup_finds_witness : ∃ s1, @dirlookup alone turns1 0 [97; 0] fs_dir = (ip ← iget 1 9; mret (ip, 0)) s1.
Proof.
  destruct (@dirlookup_finds alone turns1 1 2 sb1 0 dir_file [97; 0] fs_dir []) as (s1 & _ & _ & H).
  - unfold wait_bound, turns1. lia.
  - apply in_tx_inode. exact (fs_on_tx dir_disk).
  - reflexivity.
  - exact dir_file_ok.
  - reflexivity.
  - reflexivity.
  - vm_compute. reflexivity.
  - exists s1. rewrite H.
    assert (dir_find 1 fs_dir dir_file [97; 0] 0 (Z.to_nat (i_size dir_file / DIRENT_SIZE)) = Some (9, 0)) as -> by (vm_compute; reflexivity). reflexivity.
Defined.

(** No run over the path a/b goes on for a third turn. *)
Lemma namex_walk_ends_witness : name_buffer (replicate 14 0) ∧
  ∀ n path' ip' name' s', @walked alone turns1 false n ([97; 47; 98], 0, replicate 14 0) fs_dir (path', ip', name') s' → (n ≤ 2)%nat.
Proof.
  split; [reflexivity|]. intros n path' ip' name' s' Hr.
  destruct (@namex_walk_ends alone turns1 false [97; 47; 98] 0 (replicate 14 0) fs_dir) as [Hw _]; [reflexivity|].
  exact (proj1 (Hw n path' ip' name' s' Hr)).
Defined.
