(* ===== verification/Itable.v ===== *)
(** * The inode table of kernel/fs.c: iget, idup and iput

    The table against what it stands for: for every inode of the disk, the number of
    references that the kernel holds to it.  The table never has two entries for the
    same inode, which is what makes the lock of an entry the lock of the inode. *)
From stdpp Require Import gmap.
From S2P Require Import Prelude Bytes Mem Spinlock Riscv Kalloc Vm Proc Kstate Console Sleeplock Bio Log Fs.
Open Scope Z_scope.

(** ** The references to an inode *)

(** Entry [i] is in use for inode [n] of device [d]. *)
Definition entry (s : kst) (d n i : Z) : bool := (i_ref (inode_at i s) >? 0) && (i_dev (inode_at i s) =? d) && (i_inum (inode_at i s) =? n).

Fixpoint sum (f : Z → Z) (l : list Z) : Z :=
  match l with
  | [] => 0
  | i :: l' => f i + sum f l'
  end.
Definition irefs (s : kst) (d n : Z) : Z := sum (λ i, if entry s d n i then i_ref (inode_at i s) else 0) (seqZ 0 NINODE).

Record itable_ok (s : kst) : Prop := {
  io_lock : it_lock (s_itable s) = false;
  io_ref i : 0 ≤ i < NINODE → 0 ≤ i_ref (inode_at i s);
  io_one i j d n : 0 ≤ i < NINODE → 0 ≤ j < NINODE → entry s d n i = true → entry s d n j = true → i = j;
}.

Lemma sum_change f g i l : NoDup l → i ∈ l → (∀ j, j ∈ l → j ≠ i → g j = f j) → sum g l = sum f l - f i + g i.
Proof.
  induction 1 as [|a l Ha Hl IH]; [by intros []%elem_of_nil|]. intros Hi Hg. simpl.
  destruct (decide (a = i)) as [->|Hne].
  - assert (sum g l = sum f l) as ->; [|lia]. clear IH Hi Hl. induction l as [|b l IH]; [done|]. simpl.
    apply not_elem_of_cons in Ha as [? Ha]. rewrite Hg by (try done; by right; left). f_equal. apply IH; [done|].
    intros j Hj Hji. apply Hg; [|done]. apply elem_of_cons in Hj as [->|Hj]; [by left|by right; right].
  - apply elem_of_cons in Hi as [->|Hi]; [done|]. rewrite (Hg a) by (try done; by left). rewrite IH; [lia|done|].
    intros j Hj. apply Hg. by right.
Qed.

Lemma inode_at_upd i f s j : inode_at j (upd_inode i f s) = if decide (j = i) then f (inode_at i s) else inode_at j s.
Proof.
  unfold inode_at, upd_inode. simpl. case_decide as E; [subst; by rewrite lookup_insert_eq|by rewrite lookup_insert_ne].
Qed.

(** Entry [i] changes its count by [c], for inode [n] of device [d]. *)
Lemma irefs_upd s d n i f c : 0 ≤ i < NINODE →
  (∀ d' n', (if entry (upd_inode i f s) d' n' i then i_ref (f (inode_at i s)) else 0) =
            (if entry s d' n' i then i_ref (inode_at i s) else 0) + (if decide (d' = d ∧ n' = n) then c else 0)) →
  ∀ d' n', irefs (upd_inode i f s) d' n' = irefs s d' n' + (if decide (d' = d ∧ n' = n) then c else 0).
Proof.
  intros Hi Hc d' n'. unfold irefs.
  rewrite (sum_change (λ i, if entry s d' n' i then i_ref (inode_at i s) else 0) _ i (seqZ 0 NINODE)); [| |by apply elem_of_seqZ; lia|].
  - cbv beta. rewrite inode_at_upd, decide_True, Hc by done. lia.
  - apply NoDup_seqZ.
  - intros j _ Hj. cbv beta. unfold entry. by rewrite inode_at_upd, decide_False.
Qed.

Lemma entry_upd_ne s d n i j f : j ≠ i → entry (upd_inode i f s) d n j = entry s d n j.
Proof. intros. unfold entry. by rewrite inode_at_upd, decide_False. Qed.

Section table.
Context `{KV : !KernelView kst} `{WB : !WaitBound}.

(** ** The lock *)

Definition it_held (s : kst) : kst := lset kv (noff_by 1 (s_kern s)) (lset itable_lock true s).
Lemma it_acquire s : it_lock (s_itable s) = false → lock_acquire itable_lock s = Ok tt (it_held s).
Proof. exact (lock_acquire_side itable_lock s). Qed.
Lemma it_release s : it_lock (s_itable s) = false → lock_release itable_lock (it_held s) = Ok tt s.
Proof.
  intros Hl. rewrite (lock_release_side itable_lock (it_held s)) by done. f_equal. unfold it_held.
  rewrite (kv_get_set (S := kst)). rewrite sl_comm, kv_set_set, sl_set_set, noff_back.
  destruct s as [? ? ? ? ? ? ? ? [] ? ? ? ? ? ?]. simpl in Hl. by subst.
Qed.

(** An assignment to an entry with the lock held, and the release. *)
Lemma it_update {A} i f (k : M kst A) s : it_lock (s_itable s) = false →
  (modify (upd_inode i f);; lock_release itable_lock;; k) (it_held s) = k (upd_inode i f s).
Proof.
  intros Hl. erewrite bind_ok by reflexivity. change (upd_inode i f (it_held s)) with (it_held (upd_inode i f s)).
  by rewrite (bind_ok _ _ _ _ _ (it_release (upd_inode i f s) Hl)).
Qed.

(** ** The search *)

(** What iget remembers as the empty slot after [j] entries. *)
Fixpoint first_free (s : kst) (j : nat) : Z :=
  match j with
  | O => NULLP
  | S j' => let e := first_free s j' in if (e =? NULLP) && (i_ref (inode_at (Z.of_nat j') s) =? 0) then Z.of_nat j' else e
  end.

Lemma first_free_spec s j : (first_free s j = NULLP ∧ ∀ i, 0 ≤ i < Z.of_nat j → i_ref (inode_at i s) ≠ 0) ∨
  (0 ≤ first_free s j < Z.of_nat j ∧ i_ref (inode_at (first_free s j) s) = 0).
Proof.
  induction j as [|j IH]; [left; split; [done|lia]|]. cbn [first_free]. cbv zeta. assert (NULLP = -1) as EN by done.
  destruct IH as [[E Hn]|[Hr Hz]].
  - rewrite E. change (NULLP =? NULLP) with true. cbn [andb]. destruct (_ =? 0) eqn:Ez; [right; split; [lia|]; apply Z.eqb_eq; exact Ez|left; split; [done|]].
    intros i Hi. destruct (decide (i = Z.of_nat j)) as [->|]; [lia|]. apply Hn. lia.
  - replace (first_free s j =? NULLP) with false by lia. cbn [andb]. right. split; [lia|done].
Qed.

Lemma iget_turn_skip d n s (j : nat) : Z.of_nat j < NINODE → entry s d n (Z.of_nat j) = false →
  iget_turn d n (Z.of_nat j, first_free s j) (it_held s) = Ok (inl (Z.of_nat (S j), first_free s (S j))) (it_held s).
Proof.
  intros Hj He. unfold iget_turn. replace (Z.of_nat j <? NINODE) with true by lia. erewrite bind_ok by reflexivity.
  change (inode_at (Z.of_nat j) (it_held s)) with (inode_at (Z.of_nat j) s). unfold entry in He. rewrite He.
  replace (Z.of_nat (S j)) with (Z.of_nat j + 1) by lia. done.
Qed.

Lemma iget_found d n s i : 0 ≤ i < NINODE → (∀ j, 0 ≤ j < i → entry s d n j = false) → entry s d n i = true →
  loop (S (Z.to_nat NINODE)) (iget_turn d n) (0, NULLP) (it_held s) = Ok (i, true) (it_held s).
Proof.
  intros Hi Hn He. pose (f := λ j, (Z.of_nat j, first_free s j)).
  replace (S (Z.to_nat NINODE)) with (Z.to_nat i + S (Z.to_nat (NINODE - i)))%nat by lia. change (0, NULLP) with (f 0%nat).
  rewrite loop_skip by (intros j Hj; apply iget_turn_skip; [lia|apply Hn; lia]). apply loop_end. unfold iget_turn, f.
  rewrite Z2Nat.id by lia. replace (i <? NINODE) with true by lia. erewrite bind_ok by reflexivity.
  change (inode_at i (it_held s)) with (inode_at i s). unfold entry in He. by rewrite He.
Qed.

Lemma iget_missing d n s : (∀ j, 0 ≤ j < NINODE → entry s d n j = false) →
  loop (S (Z.to_nat NINODE)) (iget_turn d n) (0, NULLP) (it_held s) = Ok (first_free s (Z.to_nat NINODE), false) (it_held s).
Proof.
  intros Hn. pose (f := λ j, (Z.of_nat j, first_free s j)). assert (0 ≤ NINODE) as HN by done.
  replace (S (Z.to_nat NINODE)) with (Z.to_nat NINODE + 1)%nat at 1 by lia. change (0, NULLP) with (f 0%nat).
  rewrite loop_skip by (intros j Hj; apply iget_turn_skip; [lia|apply Hn; lia]). apply loop_end. unfold iget_turn, f.
  rewrite Z2Nat.id by lia. by rewrite Z.ltb_irrefl.
Qed.

(** A change of one entry keeps the table well formed. *)
Lemma itable_ok_upd s i f : itable_ok s → 0 ≤ i < NINODE → 0 ≤ i_ref (f (inode_at i s)) →
  (∀ d n j, 0 ≤ j < NINODE → j ≠ i → entry (upd_inode i f s) d n i = true → entry s d n j = false) → itable_ok (upd_inode i f s).
Proof.
  intros [H1 H2 H3] Hi Hf He. constructor; [done| |].
  - intros j Hj. rewrite inode_at_upd. case_decide; [done|by apply H2].
  - intros j k d n Hj Hk Ej Ek. destruct (decide (j = i)) as [->|Hji], (decide (k = i)) as [->|Hki]; [done| | |].
    + rewrite entry_upd_ne in Ek by done. by rewrite (He d n k) in Ek.
    + rewrite entry_upd_ne in Ej by done. by rewrite (He d n j) in Ej.
    + rewrite entry_upd_ne in Ej, Ek by done. by apply (H3 j k d n).
Qed.

(** The first entry for an inode, if there is one. *)
Lemma entry_dec s d n : (∃ i, 0 ≤ i < NINODE ∧ entry s d n i = true ∧ ∀ j, 0 ≤ j < i → entry s d n j = false) ∨
  (∀ j, 0 ≤ j < NINODE → entry s d n j = false).
Proof.
  cut (∀ m : nat, (∃ i, 0 ≤ i < Z.of_nat m ∧ entry s d n i = true ∧ ∀ j, 0 ≤ j < i → entry s d n j = false) ∨
    (∀ j, 0 ≤ j < Z.of_nat m → entry s d n j = false)).
  { intros H. assert (Z.of_nat (Z.to_nat NINODE) = NINODE) as E by done. destruct (H (Z.to_nat NINODE)); rewrite E in *; auto. }
  induction m as [|m [(i & Hi & H1 & H2)|Hn]]; [right; intros j Hj; simpl in Hj; lia|left; exists i; split_and!; [lia|lia|done|done]|].
  destruct (entry s d n (Z.of_nat m)) eqn:E; [left; exists (Z.of_nat m); split_and!; [lia|lia|done|done]|right].
  intros j Hj. destruct (decide (j = Z.of_nat m)) as [->|]; [done|apply Hn; lia].
Qed.

(** One more reference to an entry in use. *)
Lemma count_up s d n i c : itable_ok s → 0 ≤ i < NINODE → entry s d n i = true → 0 < i_ref (inode_at i s) + c →
  let s' := upd_inode i (λ x, set_i_ref (i_ref x + c) x) s in
  itable_ok s' ∧ entry s' d n i = true ∧ ∀ d' n', irefs s' d' n' = irefs s d' n' + (if decide (d' = d ∧ n' = n) then c else 0).
Proof.
  intros Hok Hi He Hc s'. assert (∀ d' n', entry s' d' n' i = entry s d' n' i) as Ee.
  { intros d' n'. unfold entry in *. unfold s'. rewrite inode_at_upd, decide_True by done. simpl. f_equal. f_equal. lia. }
  split_and!; [|by rewrite Ee|].
  - apply itable_ok_upd; [done|done|simpl; lia|]. intros d' n' j Hj Hji E. fold s' in E. rewrite Ee in E.
    destruct (entry s d' n' j) eqn:Ej; [|done]. destruct Hji. by apply (io_one s Hok j i d' n').
  - apply irefs_upd; [done|]. intros d' n'. fold s'. rewrite Ee. simpl. destruct (decide (d' = d ∧ n' = n)) as [[-> ->]|Hne].
    + rewrite He. lia.
    + destruct (entry s d' n' i) eqn:E; [|lia]. destruct Hne. unfold entry in *. lia.
Qed.

(** A free entry taken for an inode that has none. *)
Lemma count_new s d n i : itable_ok s → 0 ≤ i < NINODE → i_ref (inode_at i s) = 0 → (∀ j, 0 ≤ j < NINODE → entry s d n j = false) →
  let s' := upd_inode i (λ x, set_i_valid 0 (set_i_ref 1 (set_i_inum n (set_i_dev d x)))) s in
  itable_ok s' ∧ entry s' d n i = true ∧ ∀ d' n', irefs s' d' n' = irefs s d' n' + (if decide (d' = d ∧ n' = n) then 1 else 0).
Proof.
  intros Hok Hi Hz Hn s'. assert (∀ d' n', entry s' d' n' i = (d =? d') && (n =? n')) as Ee.
  { intros d' n'. unfold entry, s'. rewrite inode_at_upd, decide_True by done. done. }
  split_and!; [|rewrite Ee; lia|].
  - apply itable_ok_upd; [done|done|simpl; lia|]. intros d' n' j Hj _ E. fold s' in E. rewrite Ee in E.
    assert (d' = d ∧ n' = n) as [-> ->] by lia. by apply Hn.
  - apply irefs_upd; [done|]. intros d' n'. fold s'. rewrite Ee. simpl. unfold entry. rewrite Hz. simpl. case_decide; case_match; lia.
Qed.

Lemma upd_down_up ip s : 0 < i_ref (inode_at ip s) →
  upd_inode ip (λ x, set_i_ref (i_ref x - 1) x) (upd_inode ip (λ x, set_i_ref (i_ref x + 1) x) s) = s.
Proof.
  intros Hr. unfold upd_inode at 1. rewrite inode_at_upd, decide_True by done. unfold upd_inode. simpl. rewrite insert_insert_eq, insert_id.
  - by destruct s as [? ? ? ? ? ? ? ? [] ? ? ? ? ? ?].
  - unfold inode_at in *. destruct (it_inode (s_itable s) !! ip) as [x|]; [|done]. simpl. f_equal. destruct x. unfold set_i_ref. simpl. f_equal. lia.
Qed.
End table.

(** ** Properties *)

(** C10: iget against the reference counts.  On a table that has at most one entry per
    inode, iget adds one reference to the inode it is asked for, and to no other, and
    returns the inode's only entry; the table still has at most one entry per inode.  An
    entry that the inode already has keeps its copy of the inode, and only its count
    changes; an entry taken for the inode is one that was free, has one reference, and
    is marked as not read from the disk yet.  No other entry changes.  iget panics
    exactly when the inode has no entry and no entry is free. *)
Theorem iget_counts d n s : itable_ok s →
  (∃ ip s', iget d n s = Ok ip s' ∧ itable_ok s' ∧ 0 ≤ ip < NINODE ∧ entry s' d n ip = true ∧
     (∀ d' n', irefs s' d' n' = irefs s d' n' + (if decide (d' = d ∧ n' = n) then 1 else 0)) ∧
     (if entry s d n ip then inode_at ip s' = set_i_ref (i_ref (inode_at ip s) + 1) (inode_at ip s)
      else i_ref (inode_at ip s) = 0 ∧ i_ref (inode_at ip s') = 1 ∧ i_valid (inode_at ip s') = 0) ∧
     (∀ j, j ≠ ip → inode_at j s' = inode_at j s)) ∨
  (iget d n s = Panic "iget: no inodes" ∧ ∀ i, 0 ≤ i < NINODE → i_ref (inode_at i s) ≠ 0 ∧ entry s d n i = false).
Proof.
  intros Hok. pose proof (io_lock s Hok) as Hl. unfold iget. rewrite (bind_ok _ _ _ _ _ (it_acquire s Hl)). assert (0 ≤ NINODE) as HN by done.
  destruct (entry_dec s d n) as [(i & Hi & He & Hn)|Hn].
  - left. rewrite (bind_ok _ _ _ _ _ (iget_found d n s i Hi Hn He)). cbn iota beta. rewrite it_update by done.
    destruct (count_up s d n i 1 Hok Hi He) as (H1 & H2 & H3); [unfold entry in He; lia|].
    eexists i, _. split_and!; [reflexivity|done|lia|lia|done|done| |].
    + rewrite He. by rewrite inode_at_upd, decide_True.
    + intros j Hj. by rewrite inode_at_upd, decide_False.
  - rewrite (bind_ok _ _ _ _ _ (iget_missing d n s Hn)). cbn iota beta. destruct (first_free_spec s (Z.to_nat NINODE)) as [[E Hf]|[Hr Hz]].
    + right. rewrite E. split; [done|]. intros i Hi. split; [apply Hf; lia|by apply Hn].
    + left. replace (_ =? NULLP) with false by (assert (NULLP = -1) by done; lia). rewrite it_update by done.
      destruct (count_new s d n (first_free s (Z.to_nat NINODE)) Hok) as (H1 & H2 & H3); [lia|done|done|].
      eexists _, _. split_and!; [reflexivity|done|lia|lia|done|done| |].
      * rewrite Hn by lia. by rewrite inode_at_upd, decide_True.
      * intros j Hj. by rewrite inode_at_upd, decide_False.
Qed.

(** Idup and iput against the reference counts.  idup of an entry in use adds a reference
    to its inode and nothing else; iput of it then brings back the state before, lock
    included. *)
Theorem idup_iput_restores `{!KernelView kst} `{!WaitBound} d n ip s : itable_ok s → 0 ≤ ip < NINODE → entry s d n ip = true →
  ∃ s', idup ip s = Ok ip s' ∧ itable_ok s' ∧
    (∀ d' n', irefs s' d' n' = irefs s d' n' + (if decide (d' = d ∧ n' = n) then 1 else 0)) ∧ iput ip s' = Ok tt s.
Proof.
  intros Hok Hi He. pose proof (io_lock s Hok) as Hl. assert (0 < i_ref (inode_at ip s)) as Hr by (unfold entry in He; lia).
  destruct (count_up s d n ip 1 Hok Hi He) as (H1 & _ & H3); [lia|].
  set (s' := upd_inode ip (λ x, set_i_ref (i_ref x + 1) x) s) in *. exists s'. split_and!; [|done|done|].
  - unfold idup. rewrite (bind_ok _ _ _ _ _ (it_acquire s Hl)). by rewrite it_update.
  - unfold iput. rewrite (bind_ok _ _ _ _ _ (it_acquire s' Hl)). erewrite bind_ok by reflexivity.
    change (inode_at ip (it_held s')) with (inode_at ip s'). unfold s' at 1. rewrite inode_at_upd, decide_True by done. simpl i_ref.
    replace (i_ref (inode_at ip s) + 1 =? 1) with false by lia. cbn [andb]. erewrite bind_ok by reflexivity. erewrite bind_ok by reflexivity.
    change (upd_inode ip (λ x, set_i_ref (i_ref x - 1) x) (it_held s')) with (it_held (upd_inode ip (λ x, set_i_ref (i_ref x - 1) x) s')).
    rewrite it_release by done. f_equal. unfold s'. by apply upd_down_up.
Qed.

(** The state has an inode table with two entries for inode 7, of which one is free. *)
Definition two_inodes : kst :=
  upd_inode 0 (λ x, set_i_ref 2 (set_i_inum 7 (set_i_dev 1 x))) (upd_inode 1 (λ x, set_i_inum 7 (set_i_dev 1 x)) booted).
Lemma two_inodes_ref i : 0 ≤ i < NINODE → i_ref (inode_at i two_inodes) = if i =? 0 then 2 else 0.
Proof.
  intros Hi. assert (forallb (λ i, i_ref (inode_at i two_inodes) =? (if i =? 0 then 2 else 0)) (seqZ 0 NINODE) = true) as Hf by (vm_compute; reflexivity).
  rewrite forallb_forall in Hf. apply Z.eqb_eq, Hf, list_elem_of_In, elem_of_seqZ. lia.
Qed.
Lemma two_inodes_ok : itable_ok two_inodes.
Proof.
  constructor; [reflexivity| |].
  - intros i Hi. rewrite two_inodes_ref by done. case_match; lia.
  - intros i j d n Hi Hj. unfold entry. rewrite !two_inodes_ref by done. destruct (i =? 0) eqn:E, (j =? 0) eqn:E'; simpl; intros; try discriminate. lia.
Qed.

Lemma iget_counts_witness : ∃ ip s', iget 1 7 two_inodes = Ok ip s' ∧ irefs s' 1 7 = 3.
Proof.
  destruct (iget_counts 1 7 two_inodes two_inodes_ok) as [(ip & s' & H1 & _ & _ & _ & H2 & _)|[_ H]].
  - exists ip, s'. split; [exact H1|]. rewrite H2. vm_compute. reflexivity.
  - destruct (H 0) as [_ E]; [split; reflexivity|]. discriminate E.
Defined.

Lemma idup_iput_restores_witness : ∃ s', idup 0 two_inodes = Ok 0 s' ∧ @iput alone turns1 0 s' = Ok tt two_inodes.
Proof.
  destruct (@idup_iput_restores alone turns1 1 7 0 two_inodes two_inodes_ok) as (s' & H1 & _ & _ & H2).
  - split; reflexivity.
  - vm_compute. reflexivity.
  - exists s'. split; [exact H1|exact H2].
Defined.
