(* ===== verification/PipeRt.v ===== *)
(** * Priority pipes: proj2/kernel

    pipe_rt.c, the pipe whose reader gets the task of highest priority first,
    and pqueue.c, the stand-alone priority queue.  Both keep linked lists of
    nodes, one per page from kalloc; the heap of nodes is a map from page
    addresses, and a node leaves the map when its page is freed.  A task is the
    40 bytes of struct task_t, as copyin fills them.  The debugging printf of
    each operation is not modelled. *)
From stdpp Require Import gmap sorting.
From S2P Require Import Prelude Mem Spinlock Riscv Kalloc Vm Proc Kstate.
Open Scope Z_scope.

(** The size of struct task_t, and its int at offset 0. *)
Definition task_size : Z := 40.
Definition priority (t : task_t) : Z :=
  s32 (nth 0 t 0 + 2 ^ 8 * nth 1 t 0 + 2 ^ 16 * nth 2 t 0 + 2 ^ 24 * nth 3 t 0).

(** ** The list of nodes, in whatever state holds the heap of nodes *)

Class HasNodes (S : Type) := nl : lens S (gmap Z pq_node).

(** The node a pointer points at. *)
Definition node_at {S} `{HasNodes S} (a : Z) (s : S) : pq_node := default (Pq_node [] 0) (lget nl s !! a).
Definition set_node {S} `{HasNodes S} (a : Z) (n : pq_node) (s : S) : S := lset nl (<[a := n]> (lget nl s)) s.
Definition free_node {S} `{HasNodes S} (a : Z) (s : S) : S := lset nl (delete a (lget nl s)) s.

(** [while (current->next != 0 && keep (current->next->task.priority))]; the
    list has at most as many nodes as the heap. *)
Definition walk_turn {S} `{HasNodes S} (keep : Z → bool) (current : Z) : M S (Z + Z) :=
  next ← gets (λ s, n_next (node_at current s));
  if negb (next =? 0) then
    n ← gets (node_at next);
    mret (if keep (priority (n_task n)) then inl next else inr current)
  else mret (inr current).
Definition pq_walk {S} `{HasNodes S} (keep : Z → bool) (start : Z) : M S Z :=
  size ← gets (λ s, base.size (lget nl s));
  loop (Datatypes.S size) (walk_turn keep) start.

(** Link the new node: at the head when the list is empty or its head has a
    lower priority, else behind the nodes that [keep] passes over. *)
Definition pq_link {S} `{HasNodes S} (keep : Z → bool) (head : lens S Z) (new : Z) (task : task_t) : M S unit :=
  h ← gets (lget head);
  hn ← gets (node_at h);
  if (h =? 0) || (priority task >? priority (n_task hn)) then
    modify (set_node new (Pq_node task h));;
    modify (lset head new)
  else
    current ← pq_walk keep h;
    c ← gets (node_at current);
    modify (set_node new (Pq_node task (n_next c)));;
    modify (set_node current (set_n_next new c)).

Definition rt_at (p : Z) (s : kst) : pipe_rt := default (Pipe_rt false 0 0 0 0) (s_rtpipes s !! p).
Definition upd_rt (p : Z) (f : pipe_rt → pipe_rt) (s : kst) : kst :=
  set_s_rtpipes (<[p := f (rt_at p s)]> (s_rtpipes s)) s.
Definition rt_lock_l (p : Z) : lens kst bool := Lens (λ s, rt_lock (rt_at p s)) (λ b, upd_rt p (set_rt_lock b)).
Definition rt_head_l (p : Z) : lens kst Z := Lens (λ s, rt_head (rt_at p s)) (λ h, upd_rt p (set_rt_head h)).

(** &p->nread, the channel of the readers: behind the lock (24 bytes), the head
    pointer and nwrite. *)
Definition rt_chan (p : Z) : chan := ChAddr (p + 36).

#[export] Instance kst_has_nodes : HasNodes kst := Lens s_nodes set_s_nodes.

Definition pq_insert (head : lens kst Z) (task : task_t) : M kst unit :=
  new ← lift kmem_l kalloc;
  if new =? 0 then mret tt else
  modify (set_node new (Pq_node task 0));;
  pq_link (λ p, p >? priority task) head new task.

Section prt.
Context `{KernelImage}.

(** The result is the zero task when the list is empty. *)
Definition pq_remove (head : lens kst Z) : M kst task_t :=
  h ← gets (lget head);
  if h =? 0 then mret (replicate (Z.to_nat task_size) 0) else
  n ← gets (node_at h);
  modify (lset head (n_next n));;
  lift kmem_l (kfree h);;
  modify (free_node h);;
  mret (n_task n).

(** ** pipe_rt.c: the pipe *)

(** The first half of pipe_rt_alloc: the structure; 0 without memory. *)
Definition pipe_rt_new : M kst Z :=
  p ← lift kmem_l kalloc;
  if p =? 0 then mret 0 else
  modify (upd_rt p (λ _, Pipe_rt false 0 1 1 1));;
  mret p.

(** [while (p->head) pq_remove(&p->head)] *)
Definition pq_drain (p : Z) : M kst unit :=
  size ← gets (λ s, base.size (s_nodes s));
  loop (S size) (λ _ : unit,
    h ← gets (λ s, rt_head (rt_at p s));
    if ctrue h then pq_remove (rt_head_l p);; mret (inl tt) else mret (inr tt)) tt.

Definition pipe_rt_close (p : Z) (writable : bool) : M kst unit :=
  lock_acquire (rt_lock_l p);;
  (if writable then
     modify (upd_rt p (λ r, set_rt_nwrite (rt_nwrite r - 1) r));;
     kcall (wakeup (rt_chan p))
   else modify (upd_rt p (λ r, set_rt_nread (rt_nread r - 1) r)));;
  r ← gets (rt_at p);
  (if (rt_nwrite r =? 0) && (rt_nread r =? 0) then
     pq_drain p;;
     modify (upd_rt p (set_rt_active 0))
   else mret tt);;
  lock_release (rt_lock_l p).

(** The parameter [n] of read and write is not looked at by the code. *)
Definition pipe_rt_write (p addr : Z) : M kst Z :=
  i ← kcall myproc;
  pr ← kcall (gets (procp i));
  lock_acquire (rt_lock_l p);;
  r ← gets (rt_at p);
  if (rt_active r =? 0) || (rt_nread r <=? 0) then lock_release (rt_lock_l p);; mret (-1) else
  '(rc, task) ← lift kmem_l (copyin (p_pagetable pr) addr task_size);
  if rc <? 0 then lock_release (rt_lock_l p);; mret (-1) else
  pq_insert (rt_head_l p) task;;
  kcall (wakeup (rt_chan p));;
  lock_release (rt_lock_l p);;
  mret task_size.

Section view.
Context `{!KernelView kst}.

(** [while (p->head == 0 && p->active && p->nwrite > 0) sleep(&p->nread)], for
    at most [fuel] wakeups. *)
Definition rt_wait (fuel : nat) (p : Z) : M kst unit :=
  loop fuel (λ _ : unit,
    r ← gets (rt_at p);
    if (rt_head r =? 0) && ctrue (rt_active r) && (rt_nwrite r >? 0)
    then sleep (rt_chan p) (rt_lock_l p);; mret (inl tt)
    else mret (inr tt)) tt.

Definition pipe_rt_read (fuel : nat) (p addr : Z) : M kst Z :=
  i ← kcall myproc;
  pr ← kcall (gets (procp i));
  lock_acquire (rt_lock_l p);;
  rt_wait fuel p;;
  r ← gets (rt_at p);
  if rt_head r =? 0 then lock_release (rt_lock_l p);; mret (-1) else
  task ← pq_remove (rt_head_l p);
  rc ← lift kmem_l (copyout (p_pagetable pr) addr task);
  if rc <? 0 then lock_release (rt_lock_l p);; mret (-1) else
  lock_release (rt_lock_l p);;
  mret task_size.
End view.

(** ** pqueue.c *)

(** struct pqueue and the machine around it; [q_lock] is the lock behind
    pq->lock, [None] when that pointer is null.  Using a null pointer traps to
    kerneltrap(), which panics. *)
Record pqueue := Pqueue {
  q_mem : kmem;
  q_nodes : gmap Z pq_node;
  q_head : Z;
  q_lock : option bool;
}.
Definition set_q_mem (v : kmem) (r : pqueue) : pqueue := Pqueue v (q_nodes r) (q_head r) (q_lock r).
Definition set_q_nodes (v : gmap Z pq_node) (r : pqueue) : pqueue :=
  Pqueue (q_mem r) v (q_head r) (q_lock r).
Definition set_q_head (v : Z) (r : pqueue) : pqueue := Pqueue (q_mem r) (q_nodes r) v (q_lock r).
Definition set_q_lock (v : option bool) (r : pqueue) : pqueue :=
  Pqueue (q_mem r) (q_nodes r) (q_head r) v.

#[local] Instance pqueue_has_nodes : HasNodes pqueue := Lens q_nodes set_q_nodes.
Definition q_mem_l : lens pqueue kmem := Lens q_mem set_q_mem.
Definition q_head_l : lens pqueue Z := Lens q_head set_q_head.

Definition q_acquire : M pqueue unit := λ q,
  match q_lock q with
  | None => Panic "kerneltrap"
  | Some true => Panic "acquire"
  | Some false => Ok tt (set_q_lock (Some true) q)
  end.
Definition q_release : M pqueue unit := λ q,
  match q_lock q with
  | None => Panic "kerneltrap"
  | Some false => Panic "release"
  | Some true => Ok tt (set_q_lock (Some false) q)
  end.

Definition pqueue_init : M pqueue unit :=
  modify (set_q_head 0);;
  modify (set_q_lock None).

Definition pqueue_push (task : task_t) : M pqueue Z :=
  new_node ← lift q_mem_l kalloc;
  if new_node =? 0 then panic "kerneltrap" else
  modify (set_node new_node (Pq_node task 0));;
  q_acquire;;
  pq_link (λ p, p >=? priority task) q_head_l new_node task;;
  q_release;;
  mret 0.

(** The result points into the node just freed. *)
Definition pqueue_pop : M pqueue Z :=
  q_acquire;;
  h ← gets q_head;
  if h =? 0 then q_release;; mret 0 else
  n ← gets (node_at h);
  modify (set_q_head (n_next n));;
  lift q_mem_l (kfree h);;
  modify (free_node h);;
  q_release;;
  mret h.

Definition pqueue_empty : M pqueue Z :=
  q_acquire;;
  h ← gets q_head;
  q_release;;
  mret (if h =? 0 then 1 else 0).
End prt.

(** ** The list as a sequence of tasks *)

(** [l] are the nodes, with their tasks, of the list that starts at [h]. *)
Fixpoint seg (m : gmap Z pq_node) (h : Z) (l : list (Z * task_t)) : Prop :=
  match l with
  | [] => h = 0
  | (a, t) :: l' => h = a ∧ a ≠ 0 ∧ ∃ nx, m !! a = Some (Pq_node t nx) ∧ seg m nx l'
  end.

(** Where the code puts a task: behind the tasks that [keep] passes over, but
    at the front only if its priority is above the first one's. *)
Fixpoint ins_tail (keep : Z → bool) (t : task_t) (l : list task_t) : list task_t :=
  match l with
  | [] => [t]
  | u :: l' => if keep (priority u) then u :: ins_tail keep t l' else t :: l
  end.
Definition ins (keep : Z → bool) (t : task_t) (l : list task_t) : list task_t :=
  match l with
  | [] => [t]
  | u :: l' => if priority t >? priority u then t :: l else u :: ins_tail keep t l'
  end.

Lemma seg_ext m m' h l : (∀ a, a ∈ l.*1 → m' !! a = m !! a) → seg m h l → seg m' h l.
Proof.
  revert h. induction l as [|[a t] l IH]; intros h Hm; [done|]. simpl.
  intros (-> & Ha & nx & Hn & Hs). split_and!; [done|done|]. exists nx. split.
  - rewrite Hm; [done|]. simpl. by left.
  - apply IH; [|done]. intros b Hb. apply Hm. simpl. by right.
Qed.

Lemma seg_lookup m h l a t : seg m h l → (a, t) ∈ l → a ≠ 0 ∧ ∃ nx, m !! a = Some (Pq_node t nx).
Proof.
  revert h. induction l as [|[b u] l IH]; intros h; simpl; [by intros _ ?%elem_of_nil|].
  intros (-> & Hb & nx & Hn & Hs) [[= -> ->]|Hin]%elem_of_cons; [eauto|]. by eapply IH.
Qed.

Lemma seg_size m h l : seg m h l → NoDup l.*1 → (length l ≤ size m)%nat.
Proof.
  intros Hs Hnd. rewrite <- (length_fmap fst). rewrite <- (size_list_to_set (C := gset Z) l.*1 Hnd).
  rewrite <- size_dom. apply subseteq_size. intros a Ha%elem_of_list_to_set.
  apply list_elem_of_fmap in Ha as ([b t] & -> & Hin). apply elem_of_dom.
  destruct (seg_lookup m h l b t Hs Hin) as (_ & nx & Hn). eauto.
Qed.

(** Linking a node behind the node [a] of the list. *)
Lemma seg_insert m h pre a ta post new task :
  seg m h (pre ++ (a, ta) :: post) → NoDup (pre ++ (a, ta) :: post).*1 →
  new ∉ (pre ++ (a, ta) :: post).*1 → new ≠ 0 →
  ∃ nx, m !! a = Some (Pq_node ta nx) ∧
    seg (<[a := Pq_node ta new]> (<[new := Pq_node task nx]> m)) h (pre ++ (a, ta) :: (new, task) :: post).
Proof.
  revert h. induction pre as [|[b u] pre IH]; intros h; simpl.
  - intros (-> & Ha & nx & Hn & Hs) Hnd Hni Hnew. apply NoDup_cons in Hnd as [Hna Hnd].
    apply not_elem_of_cons in Hni as [Hne Hni].
    exists nx. split; [done|]. split_and!; [done|done|]. exists new. rewrite lookup_insert_eq. split; [done|].
    split_and!; [done|done|]. exists nx. rewrite lookup_insert_ne, lookup_insert_eq by done. split; [done|].
    eapply seg_ext; [|exact Hs]. intros c Hc. rewrite !lookup_insert_ne; [done| |]; intros ->; done.
  - intros (-> & Hb & nx & Hn & Hs) Hnd Hni Hnew. apply NoDup_cons in Hnd as [Hnb Hnd].
    apply not_elem_of_cons in Hni as [Hne Hni].
    destruct (IH nx Hs Hnd Hni Hnew) as (nx' & Ha & Hs'). exists nx'. split; [done|].
    split_and!; [done|done|]. exists nx. split; [|done].
    rewrite !lookup_insert_ne; [done| |]; [by intros ->|]. intros ->. apply Hnb.
    rewrite fmap_app. apply elem_of_app. right. by left.
Qed.

(** The laws of the two places the list code touches: the heap of nodes and
    the head pointer. *)
Class ListLens (S : Type) `{HasNodes S} (head : lens S Z) : Prop := {
  nl_get_set m s : lget nl (lset nl m s) = m;
  nl_set_set m m' s : lset nl m (lset nl m' s) = lset nl m s;
  hd_get_set h s : lget head (lset head h s) = h;
  hd_nl m s : lget head (lset nl m s) = lget head s;
  nl_hd h s : lget nl (lset head h s) = lget nl s;
}.

Section list.
Context {S : Type} `{!HasNodes S} (head : lens S Z) `{!ListLens S head}.
Implicit Types (s : S) (m : gmap Z pq_node).

Lemma pq_walk_loop keep task s l c t0 fuel :
  (length l < fuel)%nat → seg (lget nl s) c ((c, t0) :: l) →
  ∃ pre a ta post, (c, t0) :: l = pre ++ (a, ta) :: post ∧
    loop fuel (walk_turn keep) c s = Ok a s ∧
    t0 :: ins_tail keep task l.*2 = pre.*2 ++ ta :: task :: post.*2.
Proof.
  revert c t0 fuel. induction l as [|[b tb] l IH]; intros c t0 [|fuel] Hf Hs; simpl in Hf; try lia;
    cbn [seg] in Hs; destruct Hs as (_ & Hc & nx & Hn & Hs); cbn [loop].
  - simpl in Hs. subst nx. exists [], c, t0, []. split_and!; [done| |done].
    assert (walk_turn keep c s = Ok (inr c) s) as Ht.
    { unfold walk_turn. erewrite bind_ok by reflexivity. unfold node_at. by rewrite Hn. }
    by rewrite (bind_ok _ _ _ _ _ Ht).
  - pose proof Hs as (-> & Hb & nx' & Hnb & Hs').
    assert (walk_turn keep c s = Ok (if keep (priority tb) then inl b else inr c) s) as Ht.
    { assert (node_at c s = Pq_node t0 b) as Ec by (unfold node_at; by rewrite Hn).
      assert (node_at b s = Pq_node tb nx') as Eb by (unfold node_at; by rewrite Hnb).
      unfold walk_turn. erewrite bind_ok by reflexivity. rewrite Ec. cbn [n_next].
      rewrite (proj2 (Z.eqb_neq b 0) Hb). cbn [negb]. erewrite bind_ok by reflexivity. by rewrite Eb. }
    rewrite (bind_ok _ _ _ _ _ Ht). destruct (keep (priority tb)) eqn:Ek.
    + destruct (IH b tb fuel ltac:(lia) Hs) as (pre & a & ta & post & El & Hl & Ei).
      exists ((c, t0) :: pre), a, ta, post. split_and!; [by rewrite El|exact Hl|]. rewrite !fmap_cons. cbn [ins_tail snd]. by rewrite Ek, Ei.
    + exists [], c, t0, ((b, tb) :: l). split_and!; [done|done|]. rewrite fmap_cons. cbn [ins_tail snd]. by rewrite Ek.
Qed.

(** What linking a node does to the list, the heap and the rest. *)
Record pq_linked (keep : Z → bool) (new : Z) (task : task_t) (l : list (Z * task_t)) (s s' : S) : Prop := {
  ln_seg : ∃ l', seg (lget nl s') (lget head s') l' ∧ l'.*2 = ins keep task l.*2 ∧ l'.*1 ≡ₚ new :: l.*1;
  ln_other : ∀ a, a ∉ new :: l.*1 → lget nl s' !! a = lget nl s !! a;
  ln_rest : s' = lset head (lget head s') (lset nl (lget nl s') s) ∨ s' = lset nl (lget nl s') s;
}.

Lemma pq_link_spec keep new task s l :
  seg (lget nl s) (lget head s) l → NoDup l.*1 → new ∉ l.*1 → new ≠ 0 →
  ∃ s', pq_link keep head new task s = Ok tt s' ∧ pq_linked keep new task l s s'.
Proof.
  intros Hs Hnd Hni Hnew. unfold pq_link. erewrite bind_ok by reflexivity. erewrite bind_ok by reflexivity.
  set (front := lset head new (set_node new (Pq_node task (lget head s)) s)).
  assert (lget nl front = <[new := Pq_node task (lget head s)]> (lget nl s)) as Hfn
    by (unfold front, set_node; by rewrite nl_hd, nl_get_set).
  assert (lget head front = new) as Hfh by (unfold front; by rewrite hd_get_set).
  assert (ins keep task l.*2 = task :: l.*2 → pq_linked keep new task l s front) as Hfront.
  { intros Hins. constructor.
    - exists ((new, task) :: l). rewrite Hfn, Hfh, Hins. split_and!; [|done|done]. simpl. split_and!; [done|done|].
      exists (lget head s). rewrite lookup_insert_eq. split; [done|].
      eapply seg_ext; [|exact Hs]. intros a Ha. rewrite lookup_insert_ne; [done|]. by intros ->.
    - intros a [Hne _]%not_elem_of_cons. rewrite Hfn. by rewrite lookup_insert_ne.
    - left. by rewrite Hfn, Hfh. }
  destruct l as [|[h th] l].
  { simpl in Hs. rewrite Hs. cbn [orb Z.eqb]. exists front. split; [|by apply Hfront].
    unfold front. by rewrite Hs. }
  pose proof Hs as (Eh & Hh & nx & Hn & Hs'). rewrite Eh.
  assert (node_at h s = Pq_node th nx) as -> by (unfold node_at; by rewrite Hn). cbn [n_task].
  replace (h =? 0) with false by lia. cbn [orb].
  destruct (priority task >? priority th) eqn:Ep.
  { exists front. split; [unfold front; by rewrite Eh|]. apply Hfront. rewrite fmap_cons. cbn [ins snd]. by rewrite Ep. }
  assert (seg (lget nl s) h ((h, th) :: l)) as Hs2 by (simpl; eauto).
  destruct (pq_walk_loop keep task s l h th (Datatypes.S (base.size (lget nl s)))) as (pre & a & ta & post & El & Hl & Ei).
  { pose proof (seg_size _ _ _ Hs Hnd). simpl in *. lia. }
  { done. }
  assert (pq_walk keep h s = Ok a s) as Hw by (unfold pq_walk; by erewrite bind_ok by reflexivity).
  rewrite (bind_ok _ _ _ _ _ Hw). erewrite bind_ok by reflexivity. erewrite bind_ok by reflexivity.
  rewrite El in *. destruct (seg_insert (lget nl s) h pre a ta post new task) as (nxa & Ha & Hseg); try done.
  assert (node_at a s = Pq_node ta nxa) as -> by (unfold node_at; by rewrite Ha). cbn [n_next].
  eexists. split; [reflexivity|].
  assert (lget nl (set_node a (set_n_next new (Pq_node ta nxa)) (set_node new (Pq_node task nxa) s)) =
    <[a := Pq_node ta new]> (<[new := Pq_node task nxa]> (lget nl s))) as Hm
    by (unfold set_node; by rewrite !nl_get_set).
  assert (lget head (set_node a (set_n_next new (Pq_node ta nxa)) (set_node new (Pq_node task nxa) s)) = h) as Hh2
    by (unfold set_node; by rewrite !hd_nl).
  constructor.
  - exists (pre ++ (a, ta) :: (new, task) :: post). rewrite Hm, Hh2. split_and!; [done| |].
    + rewrite fmap_app, !fmap_cons. cbn [snd]. rewrite <- Ei, <- El, fmap_cons. cbn [ins snd]. by rewrite Ep.
    + rewrite !fmap_app, !fmap_cons. cbn [fst]. solve_Permutation.
  - intros b Hb. rewrite Hm, !lookup_insert_ne; [done| |]; intros ->; apply Hb; [by left|].
    right. rewrite fmap_app. apply elem_of_app. right. by left.
  - right. rewrite Hm. unfold set_node. by rewrite nl_get_set, nl_set_set.
Qed.
End list.

(** *** Order *)

Definition by_priority (t u : task_t) : Prop := priority u ≤ priority t.

Lemma ins_tail_perm keep t l : ins_tail keep t l ≡ₚ t :: l.
Proof.
  induction l as [|u l IH]; [done|]. simpl. destruct (keep _); [|done]. rewrite IH. apply Permutation_swap.
Qed.

Lemma ins_perm keep t l : ins keep t l ≡ₚ t :: l.
Proof.
  destruct l as [|u l]; [done|]. simpl. destruct (_ >? _); [done|]. rewrite ins_tail_perm. apply Permutation_swap.
Qed.

(** The two tests of the code: [>] in pipe_rt.c, [>=] in pqueue.c. *)
Definition keeps_order (keep : Z → bool) (t : task_t) : Prop :=
  (∀ p, priority t < p → keep p = true) ∧ (∀ p, p < priority t → keep p = false).

Lemma ins_tail_sorted keep t u l :
  keeps_order keep t → priority t ≤ priority u → StronglySorted by_priority (u :: l) →
  StronglySorted by_priority (u :: ins_tail keep t l).
Proof.
  intros Hk Htu Hs. revert u Htu Hs. induction l as [|v l IH]; intros u Htu Hs; simpl.
  - repeat constructor; done.
  - apply StronglySorted_inv in Hs as [Hs Hf]. pose proof Hs as [Hs' Hf']%StronglySorted_inv.
    inversion_clear Hf as [|? ? Huv Hf2]. unfold by_priority in Huv. destruct (keep (priority v)) eqn:E.
    + assert (priority t ≤ priority v) as Htv.
      { destruct (decide (priority v < priority t)) as [Hlt|]; [|lia]. by rewrite (proj2 Hk) in E. }
      specialize (IH v Htv Hs). constructor; [done|]. constructor; [done|].
      apply Forall_forall. intros w Hw. rewrite ins_tail_perm in Hw. apply elem_of_cons in Hw as [->|Hw]; [done|].
      rewrite Forall_forall in Hf2. by apply Hf2.
    + assert (priority v ≤ priority t).
      { destruct (decide (priority t < priority v)) as [Hlt|]; [|lia]. by rewrite (proj1 Hk) in E. }
      assert (Forall (by_priority v) l) as Hf3 by done.
      constructor; [|constructor; [done|constructor; done]]. constructor; [done|]. constructor; [done|].
      eapply Forall_impl; [exact Hf3|]. unfold by_priority. intros w ?. lia.
Qed.

Lemma ins_sorted keep t l :
  keeps_order keep t → StronglySorted by_priority l → StronglySorted by_priority (ins keep t l).
Proof.
  intros Hk Hs. destruct l as [|u l]; simpl; [repeat constructor|].
  destruct (priority t >? priority u) eqn:E; [|apply ins_tail_sorted; [done|lia|done]].
  pose proof Hs as [_ Hf]%StronglySorted_inv. constructor; [done|]. unfold by_priority in *. constructor; [lia|].
  eapply Forall_impl; [exact Hf|]. simpl. intros w ?. lia.
Qed.

(** Tasks of one priority, in order. *)
Definition of_priority (p : Z) (l : list task_t) : list task_t := filter (λ t, priority t = p) l.

Lemma filter_none (l : list task_t) p : Forall (λ t, priority t ≠ p) l → of_priority p l = [].
Proof.
  unfold of_priority. induction l as [|u l IH]; intros Hf; [done|]. inversion_clear Hf.
  rewrite filter_cons_False by done. auto.
Qed.

Lemma of_priority_app p l l' : of_priority p (l ++ l') = of_priority p l ++ of_priority p l'.
Proof. apply filter_app. Qed.

Lemma ins_tail_fifo t l p :
  StronglySorted by_priority l →
  of_priority p (ins_tail (λ q, q >=? priority t) t l) = of_priority p l ++ of_priority p [t].
Proof.
  induction l as [|u l IH]; intros Hs; [done|]. cbn [ins_tail].
  pose proof Hs as [Hs' Hf]%StronglySorted_inv. destruct (priority u >=? priority t) eqn:E.
  - change (u :: ins_tail (λ q, q >=? priority t) t l) with ([u] ++ ins_tail (λ q, q >=? priority t) t l).
    change (u :: l) with ([u] ++ l). rewrite !of_priority_app, IH by done. by rewrite app_assoc.
  - change (t :: u :: l) with ([t] ++ (u :: l)). rewrite of_priority_app.
    destruct (decide (priority t = p)) as [Ht|Ht].
    + rewrite (filter_none (u :: l)); [by rewrite app_nil_r|]. constructor; [lia|].
      eapply Forall_impl; [exact Hf|]. unfold by_priority. simpl. intros w ?. lia.
    + rewrite (filter_none [t]) by (by repeat constructor). by rewrite app_nil_r.
Qed.

(** pqueue.c keeps tasks of equal priority in the order they came. *)
Lemma ins_fifo t l p :
  StronglySorted by_priority l →
  of_priority p (ins (λ q, q >=? priority t) t l) = of_priority p l ++ of_priority p [t].
Proof.
  intros Hs. destruct l as [|u l]; [done|]. cbn [ins]. destruct (priority t >? priority u) eqn:E.
  - assert (ins_tail (λ q, q >=? priority t) t (u :: l) = t :: u :: l) as <-.
    { simpl. by replace (priority u >=? priority t) with false by lia. }
    by apply ins_tail_fifo.
  - assert (ins_tail (λ q, q >=? priority t) t (u :: l) = u :: ins_tail (λ q, q >=? priority t) t l) as <-.
    { simpl. by replace (priority u >=? priority t) with true by lia. }
    by apply ins_tail_fifo.
Qed.

(** ** The pipe's list and the allocator *)

#[export] Instance prt_list_lens p : ListLens kst (rt_head_l p).
Proof.
  constructor; try by intros; destruct s. intros h s. simpl. unfold rt_at, upd_rt. simpl.
  by rewrite lookup_insert_eq.
Qed.

Lemma rt_at_upd_eq p f s : rt_at p (upd_rt p f s) = f (rt_at p s).
Proof. unfold rt_at, upd_rt. simpl. by rewrite lookup_insert_eq. Qed.

Section pipe.
Context `{KernelImage}.

(** Pipe [p] holds the tasks [ts], in this order; the pages [fl] are free. *)
Record pipe_holds (p : Z) (ts : list task_t) (fl : list Z) (s : kst) : Prop := {
  ph_list : ∃ l, seg (s_nodes s) (rt_head (rt_at p s)) l ∧ NoDup l.*1 ∧ l.*2 = ts ∧
    ∀ a, a ∈ l.*1 → page_ok a ∧ a ∉ fl;
  ph_mem : kmem_inv (k_mem (s_kern s)) fl;
}.

(** The pipe's fields other than the list, and the process layer other than
    physical memory, stay. *)
Definition list_only (p : Z) (s s' : kst) : Prop :=
  rt_at p s' = set_rt_head (rt_head (rt_at p s')) (rt_at p s) ∧
  s_kern s' = set_k_mem (k_mem (s_kern s')) (s_kern s).

Lemma pq_insert_empty p t ts s : pipe_holds p ts [] s → pq_insert (rt_head_l p) t s = Ok tt s.
Proof.
  intros [_ Hm]. unfold pq_insert. erewrite bind_ok by (apply lift_ok, kalloc_empty, Hm).
  cbn [Z.eqb]. by destruct s as [[] ? ?].
Qed.

Lemma pq_insert_spec p t ts a fl s :
  pipe_holds p ts (a :: fl) s →
  ∃ s', pq_insert (rt_head_l p) t s = Ok tt s' ∧
    pipe_holds p (ins (λ q, q >? priority t) t ts) fl s' ∧ list_only p s s'.
Proof.
  intros [(l & Hs & Hnd & Hts & Hp) Hm].
  destruct (kalloc_cons _ _ _ Hm) as (Hk & Hki & Ha & Hal). pose proof (page_ok_nonzero a Ha) as Ha0.
  unfold pq_insert. erewrite bind_ok by (apply lift_ok, Hk). replace (a =? 0) with false by lia.
  erewrite bind_ok by reflexivity.
  set (s1 := set_node a (Pq_node t 0) (lset kmem_l (kalloced (k_mem (s_kern s)) a) s)).
  assert (a ∉ l.*1) as Hni.
  { intros Hin. destruct (Hp a Hin) as [_ Hf]. apply Hf. by left. }
  destruct (pq_link_spec (rt_head_l p) (λ q, q >? priority t) a t s1 l) as (s' & Hr & Hln); try done.
  { eapply seg_ext; [|exact Hs]. intros b Hb. unfold s1. simpl. rewrite lookup_insert_ne; [done|]. by intros ->. }
  destruct (ln_seg _ _ _ _ _ _ _ Hln) as (l' & Hs' & Hts' & Hperm).
  exists s'. split_and!; [exact Hr| |].
  - constructor.
    + exists l'. split_and!; [done| |by rewrite Hts', Hts|].
      * rewrite Hperm. by constructor.
      * intros b Hb. rewrite Hperm in Hb. apply elem_of_cons in Hb as [->|Hb]; [done|].
        destruct (Hp b Hb) as [? Hf]. split; [done|]. intros ?. apply Hf. by right.
    + destruct (ln_rest _ _ _ _ _ _ _ Hln) as [-> | ->]; exact Hki.
  - destruct (ln_rest _ _ _ _ _ _ _ Hln) as [E | E].
    + split; [|rewrite E; done]. rewrite E at 1. simpl. rewrite rt_at_upd_eq. by destruct (rt_at p s').
    + split; [|rewrite E; done]. replace (rt_at p s') with (rt_at p s) by (rewrite E; done).
      by destruct (rt_at p s).
Qed.

Lemma pq_remove_spec p t ts fl s :
  pipe_holds p (t :: ts) fl s →
  ∃ s' a, pq_remove (rt_head_l p) s = Ok t s' ∧ pipe_holds p ts (a :: fl) s' ∧ list_only p s s' ∧
    s_nodes s' !! a = None ∧ k_mem (s_kern s') = kfreed (k_mem (s_kern s)) (rt_head (rt_at p s)).
Proof.
  intros [(l & Hs & Hnd & Hts & Hp) Hm]. destruct l as [|[a u] l]; [done|]. injection Hts as -> <-.
  destruct Hs as (Hh & Ha0 & nx & Hn & Hs). apply NoDup_cons in Hnd as [Hna Hnd].
  destruct (Hp a) as [Hpa Hfa]; [by left|]. destruct (kfree_ok _ a fl Hm Hpa Hfa) as [Hk Hki].
  set (s1 := lset (rt_head_l p) nx s).
  set (s2 := free_node a (lset kmem_l (kfreed (k_mem (s_kern s)) a) s1)).
  assert (rt_at p s2 = set_rt_head nx (rt_at p s)) as Hrt by (unfold s2, s1; simpl; apply rt_at_upd_eq).
  exists s2, a. split_and!.
  - unfold pq_remove. erewrite bind_ok by reflexivity.
    change (lget (rt_head_l p) s) with (rt_head (rt_at p s)). rewrite Hh.
    replace (a =? 0) with false by lia. erewrite bind_ok by reflexivity.
    assert (node_at a s = Pq_node t nx) as -> by (unfold node_at; simpl; by rewrite Hn).
    erewrite bind_ok by reflexivity. erewrite bind_ok by (apply lift_ok, Hk). done.
  - constructor; [|exact Hki]. exists l.
    rewrite Hrt. split_and!; [|done|done|].
    + eapply seg_ext; [|exact Hs]. intros b Hb. unfold s2. simpl. rewrite lookup_delete_ne; [done|]. by intros ->.
    + intros b Hb. destruct (Hp b) as [? Hf]; [by right|]. split; [done|].
      intros [->|?]%elem_of_cons; [by apply Hna|by apply Hf].
  - split; [by rewrite Hrt|done].
  - unfold s2. simpl. apply lookup_delete_eq.
  - by rewrite Hh.
Qed.

(** Reading all of a pipe, and writing a list of tasks into it. *)
Fixpoint insert_all (p : Z) (ts : list task_t) : M kst unit :=
  match ts with [] => mret tt | t :: ts' => pq_insert (rt_head_l p) t;; insert_all p ts' end.
Fixpoint remove_all (p : Z) (n : nat) : M kst (list task_t) :=
  match n with
  | O => mret []
  | S n' => t ← pq_remove (rt_head_l p); ts ← remove_all p n'; mret (t :: ts)
  end.

Lemma gt_keeps_order t : keeps_order (λ q, q >? priority t) t.
Proof. split; intros; lia. Qed.
Lemma ge_keeps_order t : keeps_order (λ q, q >=? priority t) t.
Proof. split; intros; lia. Qed.

Lemma insert_all_spec p ts us fl s :
  pipe_holds p us fl s → StronglySorted by_priority us → (length ts ≤ length fl)%nat →
  ∃ s' us' fl', insert_all p ts s = Ok tt s' ∧ pipe_holds p us' fl' s' ∧
    StronglySorted by_priority us' ∧ us' ≡ₚ ts ++ us.
Proof.
  revert us fl s. induction ts as [|t ts IH]; intros us fl s Hp Hs Hl; [by exists s, us, fl|].
  destruct fl as [|a fl]; [simpl in Hl; lia|].
  destruct (pq_insert_spec p t us a fl s Hp) as (s1 & Hr & Hp1 & _).
  destruct (IH _ _ _ Hp1) as (s' & us' & fl' & Hr' & Hp' & Hs' & Hperm).
  { apply ins_sorted; [apply gt_keeps_order|done]. }
  { simpl in Hl. lia. }
  exists s', us', fl'. split_and!; [|done|done|].
  - cbn [insert_all]. by rewrite (bind_ok _ _ _ _ _ Hr).
  - rewrite Hperm, ins_perm. simpl. by rewrite Permutation_middle.
Qed.

Lemma remove_all_spec p us fl s :
  pipe_holds p us fl s →
  ∃ s' fl', remove_all p (length us) s = Ok us s' ∧ pipe_holds p [] fl' s'.
Proof.
  revert fl s. induction us as [|u us IH]; intros fl s Hp; [by exists s, fl|].
  destruct (pq_remove_spec p u us fl s Hp) as (s1 & a & Hr & Hp1 & _).
  destruct (IH _ _ Hp1) as (s' & fl' & Hr' & Hp'). exists s', fl'. split; [|done].
  cbn [remove_all length]. rewrite (bind_ok _ _ _ _ _ Hr). by rewrite (bind_ok _ _ _ _ _ Hr').
Qed.
End pipe.

#[export] Instance rt_lock_side p : SideLens (rt_lock_l p).
Proof.
  constructor; try by intros; destruct s.
  - intros b s. simpl. by rewrite rt_at_upd_eq.
  - intros b b' s. simpl. unfold upd_rt, rt_at. simpl. rewrite lookup_insert_eq, insert_insert_eq. by destruct s.
Qed.

Section ops.
Context `{KernelImage}.

Lemma pipe_holds_ext p ts fl s s' :
  s_nodes s' = s_nodes s → rt_head (rt_at p s') = rt_head (rt_at p s) →
  k_mem (s_kern s') = k_mem (s_kern s) → pipe_holds p ts fl s → pipe_holds p ts fl s'.
Proof. intros E1 E2 E3 [Hl Hm]. constructor; [by rewrite E1, E2|by rewrite E3]. Qed.

(** The state after p->lock is taken and after it is given back. *)
Definition rt_locked (p : Z) (s : kst) : kst :=
  lset kv (noff_by 1 (s_kern s)) (upd_rt p (set_rt_lock true) s).
Definition rt_unlocked (p : Z) (s : kst) : kst :=
  lset kv (noff_by (-1) (s_kern s)) (upd_rt p (set_rt_lock false) s).

Lemma rt_acquire p s : rt_lock (rt_at p s) = false →
  lock_acquire (rt_lock_l p) s = Ok tt (rt_locked p s).
Proof. intros Hl. by rewrite (lock_acquire_side (rt_lock_l p)). Qed.
Lemma rt_release p s : rt_lock (rt_at p s) = true →
  lock_release (rt_lock_l p) s = Ok tt (rt_unlocked p s).
Proof. intros Hl. by rewrite (lock_release_side (rt_lock_l p)). Qed.

Lemma rt_at_locked p s : rt_at p (rt_locked p s) = set_rt_lock true (rt_at p s).
Proof. apply (rt_at_upd_eq p (set_rt_lock true) s). Qed.
Lemma rt_at_unlocked p s : rt_at p (rt_unlocked p s) = set_rt_lock false (rt_at p s).
Proof. apply (rt_at_upd_eq p (set_rt_lock false) s). Qed.

(** What a write returns and leaves behind. *)
Definition write_result (p : Z) (task : task_t) (rc : Z) (ts : list task_t) (fl : list Z) (s s' : kst) (r : Z) : Prop :=
  if (rt_active (rt_at p s) =? 0) || (rt_nread (rt_at p s) <=? 0) || (rc <? 0)
  then r = -1 ∧ pipe_holds p ts fl s' ∧ s_kern s' = s_kern s
  else r = task_size ∧
    (∀ i, 0 ≤ i < NPROC → procp i (s_kern s') = woken (k_me (s_kern s)) (rt_chan p) i (procp i (s_kern s))) ∧
    match fl with
    | [] => pipe_holds p ts [] s'
    | a :: fl' => pipe_holds p (ins (λ q, q >? priority task) task ts) fl' s'
    end.

Lemma pipe_rt_write_spec p addr s ts fl rc task :
  table_ok (s_kern s) → rt_lock (rt_at p s) = false → pipe_holds p ts fl s →
  copyin (p_pagetable (procp (k_me (s_kern s)) (s_kern s))) addr task_size (k_mem (s_kern s)) =
    Ok (rc, task) (k_mem (s_kern s)) →
  ∃ r s', pipe_rt_write p addr s = Ok r s' ∧ rt_lock (rt_at p s') = false ∧ write_result p task rc ts fl s s' r.
Proof.
  intros Hok Hlk Hp Hc. unfold pipe_rt_write, write_result.
  erewrite bind_ok by (by apply kcall_ok). rewrite kv_set_get.
  erewrite bind_ok by (by apply kcall_ok). rewrite kv_set_get.
  rewrite (bind_ok _ _ _ _ _ (rt_acquire p s Hlk)). erewrite bind_ok by reflexivity.
  rewrite rt_at_locked. cbn [rt_active rt_nread set_rt_lock].
  set (s1 := rt_locked p s).
  assert (rt_lock (rt_at p s1) = true) as Hl1 by (unfold s1; by rewrite rt_at_locked).
  assert (pipe_holds p ts fl s1) as Hp1.
  { apply (pipe_holds_ext p ts fl s); try done. unfold s1. by rewrite rt_at_locked. }
  assert (∃ s', (lock_release (rt_lock_l p);; mret (-1)) s1 = Ok (-1) s' ∧ rt_lock (rt_at p s') = false ∧
    pipe_holds p ts fl s' ∧ s_kern s' = s_kern s) as (sf & Hfail & Hlf & Hpf & Hkf).
  { exists (rt_unlocked p s1). split_and!.
    - by rewrite (bind_ok _ _ _ _ _ (rt_release p s1 Hl1)).
    - by rewrite rt_at_unlocked.
    - apply (pipe_holds_ext p ts fl s1); try done. by rewrite rt_at_unlocked.
    - apply noff_back. }
  destruct ((rt_active (rt_at p s) =? 0) || (rt_nread (rt_at p s) <=? 0)); [by exists (-1), sf|].
  erewrite bind_ok by (apply lift_ok, Hc). cbn [orb].
  replace (lset kmem_l (k_mem (s_kern s)) s1) with s1 by (unfold s1; by destruct s as [[] ? ?]).
  destruct (rc <? 0); [by exists (-1), sf|].
  assert (∃ s2, pq_insert (rt_head_l p) task s1 = Ok tt s2 ∧ list_only p s1 s2 ∧
    match fl with [] => pipe_holds p ts [] s2
    | a :: fl' => pipe_holds p (ins (λ q, q >? priority task) task ts) fl' s2 end) as (s2 & Hr2 & [Hrt2 Hk2] & Hp2).
  { destruct fl as [|a fl].
    - exists s1. split_and!; [by eapply pq_insert_empty| |done]. split; [by destruct (rt_at p s1)|by destruct (s_kern s1)].
    - destruct (pq_insert_spec p task ts a fl s1 Hp1) as (s2 & ? & ? & ?). by exists s2. }
  rewrite (bind_ok _ _ _ _ _ Hr2).
  assert (table_ok (s_kern s2)) as Hok2 by (rewrite Hk2; constructor; apply Hok).
  erewrite bind_ok by (apply kcall_ok, wakeup_spec, Hok2).
  set (s3 := lset kv _ s2).
  assert (rt_lock (rt_at p s3) = true) as Hl3 by (change (rt_at p s3) with (rt_at p s2); rewrite Hrt2; done).
  rewrite (bind_ok _ _ _ _ _ (rt_release p s3 Hl3)). exists task_size, (rt_unlocked p s3).
  split_and!; [done|by rewrite rt_at_unlocked|done| |].
  - intros i Hi. change (procp i (s_kern (rt_unlocked p s3))) with (procp i (map_procs (woken (k_me (s_kern s2)) (rt_chan p)) (s_kern s2))).
    rewrite procp_map by (done || apply Hok2). rewrite Hk2. done.
  - destruct fl; (eapply pipe_holds_ext; [| | |exact Hp2]); try done; by rewrite rt_at_unlocked.
Qed.

(** The tasks in pipe [p], whatever the state of the allocator. *)
Definition rt_tasks (p : Z) (ts : list task_t) (s : kst) : Prop :=
  ∃ l, seg (s_nodes s) (rt_head (rt_at p s)) l ∧ NoDup l.*1 ∧ l.*2 = ts.

Lemma rt_tasks_ext p ts s s' :
  s_nodes s' = s_nodes s → rt_head (rt_at p s') = rt_head (rt_at p s) → rt_tasks p ts s → rt_tasks p ts s'.
Proof. intros E1 E2 (l & Hs & Hl). exists l. by rewrite E1, E2. Qed.

Lemma pipe_rt_read_spec `{!KernelView kst} fuel p addr s t ts fl :
  rt_lock (rt_at p s) = false → pipe_holds p (t :: ts) fl s →
  ∀ rc m, copyout (p_pagetable (procp (k_me (s_kern s)) (s_kern s))) addr t
      (kfreed (k_mem (s_kern s)) (rt_head (rt_at p s))) = Ok rc m →
  ∃ s', pipe_rt_read (S fuel) p addr s = Ok (if rc <? 0 then -1 else task_size) s' ∧
    rt_lock (rt_at p s') = false ∧ rt_tasks p ts s' ∧ s_kern s' = set_k_mem m (s_kern s).
Proof.
  intros Hlk Hp rc m Hc. unfold pipe_rt_read.
  erewrite bind_ok by (by apply kcall_ok). rewrite kv_set_get.
  erewrite bind_ok by (by apply kcall_ok). rewrite kv_set_get.
  rewrite (bind_ok _ _ _ _ _ (rt_acquire p s Hlk)). set (s1 := rt_locked p s).
  assert (pipe_holds p (t :: ts) fl s1) as Hp1.
  { apply (pipe_holds_ext p (t :: ts) fl s); try done. unfold s1. by rewrite rt_at_locked. }
  assert (rt_head (rt_at p s1) = rt_head (rt_at p s)) as Hh1 by (unfold s1; by rewrite rt_at_locked).
  assert (rt_head (rt_at p s1) ≠ 0) as Hne.
  { destruct Hp1 as [(l & Hs & _ & Hts & _) _]. destruct l as [|[a u] l]; [done|]. by destruct Hs as (-> & ? & _). }
  assert (rt_wait (S fuel) p s1 = Ok tt s1) as Hw.
  { unfold rt_wait. cbn [loop]. erewrite bind_ok; [|erewrite bind_ok by reflexivity].
    2:{ replace (rt_head (rt_at p s1) =? 0) with false by lia. reflexivity. }
    done. }
  rewrite (bind_ok _ _ _ _ _ Hw). erewrite bind_ok by reflexivity.
  replace (rt_head (rt_at p s1) =? 0) with false by lia.
  destruct (pq_remove_spec p t ts fl s1 Hp1) as (s2 & a & Hr & Hp2 & [Hrt2 Hk2] & _ & Hm2).
  rewrite (bind_ok _ _ _ _ _ Hr). rewrite Hh1 in Hm2. change (k_mem (s_kern s1)) with (k_mem (s_kern s)) in Hm2.
  rewrite <- Hm2 in Hc. erewrite bind_ok by (apply lift_ok, Hc).
  set (s3 := lset kmem_l m s2).
  assert (rt_lock (rt_at p s3) = true) as Hl3 by (change (rt_at p s3) with (rt_at p s2); rewrite Hrt2; unfold s1; by rewrite rt_at_locked).
  exists (rt_unlocked p s3). split_and!.
  - destruct (rc <? 0); by rewrite (bind_ok _ _ _ _ _ (rt_release p s3 Hl3)).
  - by rewrite rt_at_unlocked.
  - destruct Hp2 as [(l & Hs & Hnd & Hts & _) _]. exists l. by rewrite rt_at_unlocked.
  - change (noff_by (-1) (set_k_mem m (s_kern s2)) = set_k_mem m (s_kern s)). rewrite Hk2.
    change (s_kern s1) with (noff_by 1 (s_kern s)). destruct (s_kern s).
    unfold noff_by, set_k_noff, set_k_mem. simpl. f_equal. lia.
Qed.
End ops.

(** ** The stand-alone queue *)

#[local] Existing Instance pqueue_has_nodes.

#[local] Instance pqueue_list_lens : ListLens pqueue q_head_l.
Proof. constructor; by intros; destruct s. Qed.

Section queue.
Context `{KernelImage}.

(** The queue holds the tasks [ts] in this order; its lock exists and is free. *)
Record queue_holds (ts : list task_t) (fl : list Z) (q : pqueue) : Prop := {
  qh_list : ∃ l, seg (q_nodes q) (q_head q) l ∧ NoDup l.*1 ∧ l.*2 = ts ∧ ∀ a, a ∈ l.*1 → page_ok a ∧ a ∉ fl;
  qh_mem : kmem_inv (q_mem q) fl;
  qh_lock : q_lock q = Some false;
}.

Lemma pqueue_push_spec t ts a fl q :
  queue_holds ts (a :: fl) q →
  ∃ q', pqueue_push t q = Ok 0 q' ∧ queue_holds (ins (λ p, p >=? priority t) t ts) fl q'.
Proof.
  intros [(l & Hs & Hnd & Hts & Hp) Hm Hlk].
  destruct (kalloc_cons _ _ _ Hm) as (Hk & Hki & Ha & Hal). pose proof (page_ok_nonzero a Ha) as Ha0.
  unfold pqueue_push. erewrite bind_ok by (apply lift_ok, Hk). replace (a =? 0) with false by lia.
  erewrite bind_ok by reflexivity.
  set (q1 := set_node a (Pq_node t 0) (lset q_mem_l (kalloced (q_mem q) a) q)).
  assert (q_acquire q1 = Ok tt (set_q_lock (Some true) q1)) as Hacq.
  { unfold q_acquire. change (q_lock q1) with (q_lock q). by rewrite Hlk. }
  rewrite (bind_ok _ _ _ _ _ Hacq).
  assert (a ∉ l.*1) as Hni.
  { intros Hin. destruct (Hp a Hin) as [_ Hf]. apply Hf. by left. }
  destruct (pq_link_spec q_head_l (λ p, p >=? priority t) a t (set_q_lock (Some true) q1) l) as (q2 & Hr & Hln); try done.
  { eapply seg_ext; [|exact Hs]. intros b Hb. unfold q1. simpl. rewrite lookup_insert_ne; [done|]. by intros ->. }
  rewrite (bind_ok _ _ _ _ _ Hr).
  assert (q_lock q2 = Some true ∧ q_mem q2 = kalloced (q_mem q) a) as [Hl2 Hm2]
    by (destruct (ln_rest _ _ _ _ _ _ _ Hln) as [-> | ->]; done).
  assert (q_release q2 = Ok tt (set_q_lock (Some false) q2)) as Hrel by (unfold q_release; by rewrite Hl2).
  rewrite (bind_ok _ _ _ _ _ Hrel). destruct (ln_seg _ _ _ _ _ _ _ Hln) as (l' & Hs' & Hts' & Hperm).
  exists (set_q_lock (Some false) q2). split; [done|]. constructor; [|simpl; by rewrite Hm2|done].
  exists l'. split_and!; [done| |by rewrite Hts', Hts|].
  - rewrite Hperm. by constructor.
  - intros b Hb. rewrite Hperm in Hb. apply elem_of_cons in Hb as [->|Hb]; [done|].
    destruct (Hp b Hb) as [? Hf]. split; [done|]. intros ?. apply Hf. by right.
Qed.

Lemma pqueue_pop_spec t ts fl q :
  queue_holds (t :: ts) fl q →
  let a := q_head q in
  ∃ q', pqueue_pop q = Ok a q' ∧ queue_holds ts (a :: fl) q' ∧ q_nodes q !! a = Some (Pq_node t (q_head q')) ∧
    q_nodes q' !! a = None ∧ q_mem q' = kfreed (q_mem q) a.
Proof.
  intros [(l & Hs & Hnd & Hts & Hp) Hm Hlk]. destruct l as [|[a u] l]; [done|]. injection Hts as -> <-.
  destruct Hs as (Hh & Ha0 & nx & Hn & Hs). apply NoDup_cons in Hnd as [Hna Hnd].
  destruct (Hp a) as [Hpa Hfa]; [by left|]. destruct (kfree_ok _ a fl Hm Hpa Hfa) as [Hk Hki].
  cbv zeta. rewrite Hh.
  assert (q_acquire q = Ok tt (set_q_lock (Some true) q)) as Hacq by (unfold q_acquire; by rewrite Hlk).
  exists (Pqueue (kfreed (q_mem q) a) (delete a (q_nodes q)) nx (Some false)). split_and!.
  - unfold pqueue_pop. rewrite (bind_ok _ _ _ _ _ Hacq). erewrite bind_ok by reflexivity.
    change (q_head (set_q_lock (Some true) q)) with (q_head q). rewrite Hh. replace (a =? 0) with false by lia.
    erewrite bind_ok by reflexivity.
    assert (node_at a (set_q_lock (Some true) q) = Pq_node t nx) as -> by (unfold node_at; simpl; by rewrite Hn).
    erewrite bind_ok by reflexivity. erewrite bind_ok by (apply lift_ok, Hk). reflexivity.
  - constructor; [|done|done]. exists l. split_and!; [|done|done|].
    + eapply seg_ext; [|exact Hs]. intros b Hb. simpl. rewrite lookup_delete_ne; [done|]. by intros ->.
    + intros b Hb. destruct (Hp b) as [? Hf]; [by right|]. split; [done|].
      intros [->|?]%elem_of_cons; [by apply Hna|by apply Hf].
  - done.
  - apply lookup_delete_eq.
  - done.
Qed.
End queue.

(** ** Properties *)

Section props.
Context `{KernelImage}.

(** C33: a priority pipe delivers by priority.  Whatever tasks are put into an
    empty pipe, taking as many out gives all of them, each once, in
    non-increasing order of priority. *)
Theorem pipe_rt_priority_order (p : Z) (ts : list task_t) (fl : list Z) (s : kst) :
  pipe_holds p [] fl s → (length ts ≤ length fl)%nat →
  ∃ s1 s2 us, insert_all p ts s = Ok tt s1 ∧ remove_all p (length ts) s1 = Ok us s2 ∧
    us ≡ₚ ts ∧ StronglySorted by_priority us.
Proof.
  intros Hp Hl. destruct (insert_all_spec p ts [] fl s Hp) as (s1 & us & fl' & Hr & Hp1 & Hs & Hperm); [constructor|done|].
  destruct (remove_all_spec p us fl' s1 Hp1) as (s2 & fl2 & Hr2 & _). rewrite app_nil_r in Hperm.
  exists s1, s2, us. rewrite <- (Permutation_length Hperm). split_and!; done.
Qed.

(** C34: pipe_rt_write.  A closed pipe, a pipe with no reader, or a task that
    cannot be copied in gives -1 and changes nothing; otherwise the write
    returns the size of a task and wakes the readers.  The task is in the
    queue then only if a page was free: without one the call reports success
    and the task is gone. *)
Theorem pipe_rt_write_correct (p addr : Z) (s : kst) (ts : list task_t) (fl : list Z) (rc : Z) (task : task_t) :
  table_ok (s_kern s) → rt_lock (rt_at p s) = false → pipe_holds p ts fl s →
  copyin (p_pagetable (procp (k_me (s_kern s)) (s_kern s))) addr task_size (k_mem (s_kern s)) =
    Ok (rc, task) (k_mem (s_kern s)) →
  ∃ r s', pipe_rt_write p addr s = Ok r s' ∧ rt_lock (rt_at p s') = false ∧ write_result p task rc ts fl s s' r.
Proof. apply pipe_rt_write_spec. Qed.

(** C35: pipe_rt_read on a pipe with tasks does not sleep: it takes the first
    task out, frees its page, and returns the size of a task once the bytes
    are in user memory.  If they cannot be copied out it returns -1 and the
    task is lost. *)
Theorem pipe_rt_read_correct `{!KernelView kst} (fuel : nat) (p addr : Z) (s : kst) (t : task_t)
    (ts : list task_t) (fl : list Z) (rc : Z) (m : kmem) :
  rt_lock (rt_at p s) = false → pipe_holds p (t :: ts) fl s →
  copyout (p_pagetable (procp (k_me (s_kern s)) (s_kern s))) addr t
      (kfreed (k_mem (s_kern s)) (rt_head (rt_at p s))) = Ok rc m →
  ∃ s', pipe_rt_read (S fuel) p addr s = Ok (if rc <? 0 then -1 else task_size) s' ∧
    rt_lock (rt_at p s') = false ∧ rt_tasks p ts s' ∧ s_kern s' = set_k_mem m (s_kern s).
Proof. intros Hlk Hp Hc. by eapply pipe_rt_read_spec. Qed.

(** C36: pqueue_push, with a page free and a lock that somebody has given the queue
    (pqueue_init leaves it null): the queue stays ordered by priority, it
    holds the old tasks and the new one, and tasks of equal priority stay in
    the order they were pushed (here pqueue.c and pipe_rt.c differ). *)
Theorem pqueue_push_correct (t : task_t) (ts : list task_t) (a : Z) (fl : list Z) (q : pqueue) :
  queue_holds ts (a :: fl) q → StronglySorted by_priority ts →
  ∃ q' ts', pqueue_push t q = Ok 0 q' ∧ queue_holds ts' fl q' ∧ ts' ≡ₚ t :: ts ∧
    StronglySorted by_priority ts' ∧ ∀ p, of_priority p ts' = of_priority p ts ++ of_priority p [t].
Proof.
  intros Hq Hs. destruct (pqueue_push_spec t ts a fl q Hq) as (q' & Hr & Hq').
  exists q', (ins (λ p, p >=? priority t) t ts). split_and!; [done|done|apply ins_perm| |].
  - apply ins_sorted; [apply ge_keeps_order|done].
  - intros p. by apply ins_fifo.
Qed.

(** C37: pqueue_pop takes the first task out of the queue, but the pointer it
    returns is to a node that is no longer there: its page is back with the
    allocator, at the head of the free list and overwritten. *)
Theorem pqueue_pop_dangling (t : task_t) (ts : list task_t) (fl : list Z) (q : pqueue) :
  queue_holds (t :: ts) fl q →
  ∃ r q', pqueue_pop q = Ok r q' ∧ queue_holds ts (r :: fl) q' ∧ n_task <$> q_nodes q !! r = Some t ∧
    q_nodes q' !! r = None ∧ freelist (q_mem q') = r ∧ ∀ x, r + 8 ≤ x < r + PGSIZE → kram (q_mem q') x = 1.
Proof.
  intros Hq. destruct (pqueue_pop_spec t ts fl q Hq) as (q' & Hr & Hq' & Hn & Hn' & Hm).
  exists (q_head q), q'. split_and!; [done|done|by rewrite Hn|done|by rewrite Hm|].
  intros x Hx. rewrite Hm. simpl. rewrite store64_other by lia. by rewrite memset_in by (unfold in_page; lia).
Qed.

(** A queue set up by pqueue_init cannot be used: its lock pointer is null,
    and every other operation dereferences it. *)
Theorem pqueue_init_unusable (q : pqueue) :
  ∃ q', pqueue_init q = Ok tt q' ∧ pqueue_pop q' = Panic "kerneltrap" ∧ pqueue_empty q' = Panic "kerneltrap" ∧
    ∀ t fl, kmem_inv (q_mem q) fl → pqueue_push t q' = Panic "kerneltrap".
Proof.
  eexists. split_and!; [reflexivity|done|done|]. intros t [|a fl] Hm; unfold pqueue_push.
  - erewrite bind_ok by (apply lift_ok, kalloc_empty, Hm). done.
  - destruct (kalloc_cons _ _ _ Hm) as (Hk & _ & Ha%page_ok_nonzero & _).
    erewrite bind_ok by (apply lift_ok, Hk). by replace (a =? 0) with false by lia.
Qed.
End props.

(** ** Witnesses: pipes on the machine with seven free pages *)

(** A task of priority [p], told apart by its pid. *)
Definition task_of (p pid : Z) : task_t := [p; 0; 0; 0; pid; 0; 0; 0] ++ replicate 32 0.

Definition user_proc : proc :=
  Proc false RUNNING chan0 0 0 1 (-1) 0 NULLP 0 8192 root8 0 (0, 0) [] NULLP "user".
Definition kern_on (m : kmem) : kern :=
  Kern m (user_proc :: replicate 63 inhabitant) 0 0 0 8 false false 0 100 false ∅ 0.
Definition prt_on (m : kmem) : kst :=
  set_s_rtpipes {[5 := Pipe_rt false 0 1 1 1]} (kst_of (kern_on m)).

Lemma kern_on_ok m : table_ok (kern_on m).
Proof.
  constructor; [done|]. intros i Hi. unfold procp.
  assert (Forall (λ p, p_lock p = false) (k_procs (kern_on m))) as Hf by (repeat constructor).
  rewrite list_lookup_total_alt. destruct (k_procs (kern_on m) !! Z.to_nat i) as [p|] eqn:E; [|done].
  by apply (Forall_lookup_1 _ _ _ _ Hf E).
Qed.

Lemma prt_on_holds `{KernelImage} m fl : kmem_inv m fl → pipe_holds 5 [] fl (prt_on m).
Proof.
  intros Hm. constructor; [|done]. exists []. split_and!; [done|constructor|done|by intros a ?%elem_of_nil].
Qed.

Lemma pipe_rt_priority_order_witness :
  ∃ s1 s2 us, insert_all 5 [task_of 3 1; task_of 9 2; task_of 5 3] (prt_on machine8) = Ok tt s1 ∧
    @remove_all img8 5 3 s1 = Ok us s2 ∧ StronglySorted by_priority us.
Proof.
  destruct (@pipe_rt_priority_order img8 5 [task_of 3 1; task_of 9 2; task_of 5 3] pages8 (prt_on machine8))
    as (s1 & s2 & us & H1 & H2 & _ & H3).
  - apply prt_on_holds, machine8_inv.
  - simpl. lia.
  - exists s1, s2, us. split_and!; [exact H1|exact H2|exact H3].
Defined.

(** Three tasks of equal priority come out in the order first, third, second. *)
Theorem pipe_rt_equal_priorities_not_fifo :
  match insert_all 5 [task_of 4 1; task_of 4 2; task_of 4 3] (prt_on machine8) with
  | Ok _ s => match @remove_all img8 5 3 s with Ok us _ => us | _ => [] end
  | _ => []
  end = [task_of 4 1; task_of 4 3; task_of 4 2].
Proof. vm_compute. reflexivity. Qed.

Lemma pipe_rt_write_correct_witness :
  ∃ s', pipe_rt_write 5 100 (prt_on grown8) = Ok task_size s'.
Proof.
  destruct grown8_space as (l & Hs & _).
  destruct (@copyin_loop img8 (copy_fuel task_size) grown8 l root8 2 100 task_size []) as (rc & bs & Hc & Hres);
    [exact Hs|exact grown8_kernel_only|lia|vm_compute; discriminate|vm_compute; reflexivity|apply copy_fuel_enough; vm_compute; discriminate|].
  assert (rc = 0) as ->.
  { assert (match copyin root8 100 task_size grown8 with Ok (r, _) _ => r | _ => -1 end = 0) as E
      by (vm_compute; reflexivity). unfold copyin in E. rewrite Hc in E. exact E. }
  destruct (@pipe_rt_write_correct img8 5 100 (prt_on grown8) [] l 0 bs) as (r & s' & Hr & _ & Hw).
  - apply kern_on_ok.
  - reflexivity.
  - apply prt_on_holds. apply Hs.
  - exact Hc.
  - exists s'. rewrite Hr. destruct Hw as [-> _]. reflexivity.
Defined.

(** The pipe after one task has been written. *)
Definition prt_one : kst :=
  match pq_insert (rt_head_l 5) (task_of 7 1) (prt_on grown8) with Ok _ s => s | _ => prt_on grown8 end.

Lemma prt_one_holds : ∃ fl, @pipe_holds img8 5 [task_of 7 1] fl prt_one ∧ rt_lock (rt_at 5 prt_one) = false ∧
  p_pagetable (procp (k_me (s_kern prt_one)) (s_kern prt_one)) = root8.
Proof.
  destruct grown8_space as (l & Hs & _). destruct Hs as (_ & Hu & _).
  pose proof (us_inv _ _ _ _ Hu) as Hm. destruct l as [|a l].
  { exfalso. assert (match kalloc grown8 with Ok r _ => r | _ => 0 end ≠ 0) as E by (vm_compute; discriminate).
    rewrite (@kalloc_empty img8 grown8 Hm) in E. by apply E. }
  destruct (@pq_insert_spec img8 5 (task_of 7 1) [] a l (prt_on grown8) (prt_on_holds _ _ Hm))
    as (s' & Hr & Hp & [Hrt Hk]).
  unfold prt_one. rewrite Hr. exists l. split_and!; [exact Hp|by rewrite Hrt|by rewrite Hk].
Qed.

Lemma pipe_rt_read_correct_witness :
  ∃ s', @pipe_rt_read img8 (λ _ _, None) 1 5 200 prt_one = Ok task_size s' ∧ rt_tasks 5 [] s'.
Proof.
  destruct prt_one_holds as (fl & Hp & Hl & Hroot).
  destruct (copyout root8 200 (task_of 7 1) (kfreed (k_mem (s_kern prt_one)) (rt_head (rt_at 5 prt_one))))
    as [rc m|?|?|] eqn:Hc.
  2-4: exfalso; assert (match copyout root8 200 (task_of 7 1) (kfreed (k_mem (s_kern prt_one)) (rt_head (rt_at 5 prt_one)))
    with Ok r _ => r | _ => -2 end = 0) as E by (vm_compute; reflexivity); rewrite Hc in E; discriminate.
  assert (rc = 0) as ->.
  { assert (match copyout root8 200 (task_of 7 1) (kfreed (k_mem (s_kern prt_one)) (rt_head (rt_at 5 prt_one)))
    with Ok r _ => r | _ => -2 end = 0) as E by (vm_compute; reflexivity). rewrite Hc in E. exact E. }
  destruct (@pipe_rt_read_correct img8 (λ _ _, None) 0 5 200 prt_one (task_of 7 1) [] fl 0 m)
    as (s' & Hr & _ & Ht & _).
  - exact Hl.
  - exact Hp.
  - rewrite Hroot. exact Hc.
  - exists s'. split; [exact Hr|exact Ht].
Defined.

Definition pqueue8 : pqueue := Pqueue machine8 ∅ 0 (Some false).

Lemma pqueue8_holds : @queue_holds img8 [] pages8 pqueue8.
Proof.
  constructor; [|apply machine8_inv|done]. exists [].
  split_and!; [done|constructor|done|by intros a ?%elem_of_nil].
Qed.

Lemma pqueue_push_correct_witness :
  ∃ q' ts', pqueue_push (task_of 4 1) pqueue8 = Ok 0 q' ∧ ts' ≡ₚ [task_of 4 1] ∧
    @queue_holds img8 ts' (tail pages8) q'.
Proof.
  destruct (@pqueue_push_correct img8 (task_of 4 1) [] (PHYSTOP - 2 * PGSIZE) (tail pages8) pqueue8)
    as (q' & ts' & Hr & Hq & Hp & _).
  - exact pqueue8_holds.
  - constructor.
  - exists q', ts'. split_and!; [exact Hr|exact Hp|exact Hq].
Defined.

Lemma pqueue_pop_dangling_witness :
  ∃ q r q', pqueue_push (task_of 4 1) pqueue8 = Ok 0 q ∧ @pqueue_pop img8 q = Ok r q' ∧ q_nodes q' !! r = None.
Proof.
  destruct (@pqueue_push_spec img8 (task_of 4 1) [] (PHYSTOP - 2 * PGSIZE) (tail pages8) pqueue8 pqueue8_holds)
    as (q & Hr & Hq).
  destruct (@pqueue_pop_dangling img8 (task_of 4 1) [] (tail pages8) q Hq) as (r & q' & Hp & _ & _ & Hn & _).
  exists q, r, q'. split_and!; [exact Hr|exact Hp|exact Hn].
Defined.
