(* ===== verification/Pipe.v ===== *)
(** * Pipes: kernel/pipe.c

    The structures live in kalloc'd pages; the state has them in a map from
    page addresses.  pipealloc's calls into the file table are in a later file;
    here is the part that sets up the structure. *)
From stdpp Require Import gmap.
From S2P Require Import Prelude Mem Spinlock Riscv Kalloc Vm Proc Kstate PipeRt.
Open Scope Z_scope.

Definition PIPESIZE : Z := 512.

Definition pipe0 : pipe := Pipe false (replicate (Z.to_nat PIPESIZE) 0) 0 0 0 0.
Definition pi_at (p : Z) (s : kst) : pipe := default pipe0 (s_pipes s !! p).
Definition upd_pi (p : Z) (f : pipe → pipe) (s : kst) : kst := set_s_pipes (<[p := f (pi_at p s)]> (s_pipes s)) s.
Definition pi_lock_l (p : Z) : lens kst bool := Lens (λ s, pi_lock (pi_at p s)) (λ b, upd_pi p (set_pi_lock b)).

(** &pi->nread and &pi->nwrite, behind the lock (24 bytes) and the data. *)
Definition nread_chan (p : Z) : chan := ChAddr (p + 536).
Definition nwrite_chan (p : Z) : chan := ChAddr (p + 540).

Section pipe.
Context `{KernelImage}.

(** The part of pipealloc that makes the structure; 0 without memory. *)
Definition pipe_new : M kst Z :=
  pi ← lift kmem_l kalloc;
  if pi =? 0 then mret 0 else
  modify (upd_pi pi (λ p, set_pi_lock false (set_pi_nread 0 (set_pi_nwrite 0
    (set_pi_writeopen 1 (set_pi_readopen 1 p))))));;
  mret pi.

Definition pipeclose (pi : Z) (writable : bool) : M kst unit :=
  lock_acquire (pi_lock_l pi);;
  (if writable then
     modify (upd_pi pi (set_pi_writeopen 0));;
     kcall (wakeup (nread_chan pi))
   else
     modify (upd_pi pi (set_pi_readopen 0));;
     kcall (wakeup (nwrite_chan pi)));;
  p ← gets (pi_at pi);
  if (pi_readopen p =? 0) && (pi_writeopen p =? 0) then
    lock_release (pi_lock_l pi);;
    lift kmem_l (kfree pi);;
    modify (λ s, set_s_pipes (delete pi (s_pipes s)) s)
  else lock_release (pi_lock_l pi).

(** [pi->data[pi->nwrite++ % PIPESIZE] = ch] and its inverse. *)
Definition pipe_put (ch : Z) (p : pipe) : pipe :=
  set_pi_nwrite (u32 (pi_nwrite p + 1))
    (set_pi_data (<[Z.to_nat (pi_nwrite p mod PIPESIZE) := ch]> (pi_data p)) p).
Definition pipe_front (p : pipe) : Z := nth (Z.to_nat (pi_nread p mod PIPESIZE)) (pi_data p) 0.
Definition pipe_get (p : pipe) : pipe := set_pi_nread (u32 (pi_nread p + 1)) p.
Definition pipe_full (p : pipe) : bool := pi_nwrite p =? u32 (pi_nread p + PIPESIZE).

Section view.
Context `{!KernelView kst}.

(** One turn of pipewrite's loop, with [i] bytes done: [inl] goes on, [inr (Some
    r)] returns [r] at once, [inr None] leaves the loop. *)
Definition write_turn (me pi addr n : Z) (i : Z) : M kst (Z + (option Z * Z)) :=
  if i <? n then
    p ← gets (pi_at pi);
    k ← (if pi_readopen p =? 0 then mret 1 else kcall (killed me));
    if ctrue k then lock_release (pi_lock_l pi);; mret (inr (Some (-1), i)) else
    if pipe_full p then
      kcall (wakeup (nread_chan pi));;
      sleep (nwrite_chan pi) (pi_lock_l pi);;
      mret (inl i)
    else
      pr ← kcall (gets (procp me));
      '(rc, bs) ← lift kmem_l (copyin (p_pagetable pr) (u64 (addr + i)) 1);
      if rc =? -1 then mret (inr (None, i)) else
      modify (upd_pi pi (pipe_put (nth 0 bs 0)));;
      mret (inl (i + 1))
  else mret (inr (None, i)).

(** [fuel] bounds the turns of the loop. *)
Definition pipewrite (fuel : nat) (pi addr n : Z) : M kst Z :=
  me ← kcall myproc;
  lock_acquire (pi_lock_l pi);;
  '(early, i) ← loop fuel (write_turn me pi addr n) 0;
  match early with
  | Some r => mret r
  | None =>
      kcall (wakeup (nread_chan pi));;
      lock_release (pi_lock_l pi);;
      mret i
  end.

(** The loop of piperead that waits for data: [Some r] when piperead returns [r]. *)
Definition read_wait_turn (me pi : Z) (_ : unit) : M kst (unit + option Z) :=
  p ← gets (pi_at pi);
  if (pi_nread p =? pi_nwrite p) && ctrue (pi_writeopen p) then
    k ← kcall (killed me);
    if ctrue k then lock_release (pi_lock_l pi);; mret (inr (Some (-1)))
    else sleep (nread_chan pi) (pi_lock_l pi);; mret (inl tt)
  else mret (inr None).

Definition read_turn (me pi addr n : Z) (i : Z) : M kst (Z + Z) :=
  if i <? n then
    p ← gets (pi_at pi);
    if pi_nread p =? pi_nwrite p then mret (inr i) else
    modify (upd_pi pi pipe_get);;
    pr ← kcall (gets (procp me));
    rc ← lift kmem_l (copyout (p_pagetable pr) (u64 (addr + i)) [pipe_front p]);
    if rc =? -1 then mret (inr i) else mret (inl (i + 1))
  else mret (inr i).

Definition piperead (fuel : nat) (pi addr n : Z) : M kst Z :=
  me ← kcall myproc;
  lock_acquire (pi_lock_l pi);;
  early ← loop fuel (read_wait_turn me pi) tt;
  match early with
  | Some r => mret r
  | None =>
      i ← loop (S (Z.to_nat n)) (read_turn me pi addr n) 0;
      kcall (wakeup (nwrite_chan pi));;
      lock_release (pi_lock_l pi);;
      mret i
  end.
End view.
End pipe.

(** ** The pipe as a queue of bytes *)

(** The bytes in the pipe, oldest first. *)
Definition pi_count (p : pipe) : Z := u32 (pi_nwrite p - pi_nread p).
Definition contents (p : pipe) : list Z :=
  (λ k, nth (Z.to_nat ((pi_nread p + k) mod PIPESIZE)) (pi_data p) 0) <$> seqZ 0 (pi_count p).

Record pipe_inv (p : pipe) : Prop := {
  pv_data : length (pi_data p) = Z.to_nat PIPESIZE;
  pv_nread : 0 ≤ pi_nread p < 2 ^ 32;
  pv_nwrite : 0 ≤ pi_nwrite p < 2 ^ 32;
  pv_count : pi_count p ≤ PIPESIZE;
}.

(** *** Counters that wrap *)

Lemma u32_mod x : u32 x mod PIPESIZE = x mod PIPESIZE.
Proof.
  unfold u32, PIPESIZE. pose proof (Z.div_mod x (2 ^ 32) ltac:(done)) as Hd. rewrite Hd at 2.
  replace (2 ^ 32 * (x / 2 ^ 32) + x mod 2 ^ 32) with (x mod 2 ^ 32 + (2 ^ 23 * (x / 2 ^ 32)) * 512) by lia.
  by rewrite Z.mod_add.
Qed.

Lemma u32_add_l x y : u32 (u32 x + y) = u32 (x + y).
Proof. unfold u32. apply Z.add_mod_idemp_l. done. Qed.
Lemma u32_sub_r x y : u32 (x - u32 y) = u32 (x - y).
Proof. unfold u32. apply Zdiv.Zminus_mod_idemp_r. Qed.
Lemma u32_sub_l x y : u32 (u32 x - y) = u32 (x - y).
Proof. unfold u32. apply Zdiv.Zminus_mod_idemp_l. Qed.

Lemma pipe_full_count p : pipe_inv p → pipe_full p = (pi_count p =? PIPESIZE).
Proof.
  intros [_ Hr Hw Hc]. unfold pipe_full, pi_count in *. apply eq_bool_prop_intro. split; intros H%Is_true_eq_true.
  - assert (pi_nwrite p = u32 (pi_nread p + PIPESIZE)) as -> by lia. rewrite u32_sub_l.
    replace (pi_nread p + PIPESIZE - pi_nread p) with PIPESIZE by lia. done.
  - apply Z.eqb_eq in H. replace (u32 (pi_nread p + PIPESIZE)) with (pi_nwrite p); [by rewrite Z.eqb_refl|].
    rewrite <- H, Z.add_comm, u32_add_l. rewrite u32_small; lia.
Qed.

Lemma pipe_empty_count p : pipe_inv p → (pi_nread p =? pi_nwrite p) = (pi_count p =? 0).
Proof.
  intros [_ Hr Hw Hc]. unfold pi_count, u32 in *.
  destruct (decide (pi_nread p ≤ pi_nwrite p)).
  - rewrite Z.mod_small in * by lia. lia.
  - replace ((pi_nwrite p - pi_nread p) mod 2 ^ 32) with (pi_nwrite p - pi_nread p + 2 ^ 32)
      by (apply Z.mod_unique with (-1); lia). lia.
Qed.

Lemma pi_count_range p : 0 ≤ pi_count p.
Proof. unfold pi_count. apply u32_range. Qed.

Lemma length_contents p : Z.of_nat (length (contents p)) = pi_count p.
Proof. unfold contents. rewrite length_fmap, length_seqZ. pose proof (pi_count_range p). lia. Qed.

Lemma pipe_put_count p ch : pipe_inv p → pi_count p < PIPESIZE → pi_count (pipe_put ch p) = pi_count p + 1.
Proof.
  intros Hv Hc. unfold pi_count in *. simpl. rewrite u32_sub_l.
  replace (pi_nwrite p + 1 - pi_nread p) with ((pi_nwrite p - pi_nread p) + 1) by lia.
  rewrite <- u32_add_l. apply u32_small. pose proof (u32_range (pi_nwrite p - pi_nread p)). unfold PIPESIZE in *. lia.
Qed.

Lemma pipe_put_inv p ch : pipe_inv p → pi_count p < PIPESIZE → pipe_inv (pipe_put ch p).
Proof.
  intros Hv Hc. constructor; simpl.
  - rewrite length_insert. apply Hv.
  - apply Hv.
  - apply u32_range.
  - rewrite pipe_put_count by done. lia.
Qed.

Lemma pipe_inv_lock b p : pipe_inv p → pipe_inv (set_pi_lock b p).
Proof. intros []. by constructor. Qed.

Lemma mod_PIPESIZE x : 0 ≤ x mod PIPESIZE < PIPESIZE.
Proof. by apply Z.mod_pos_bound. Qed.

(** Writing goes to the back: the slot of nwrite is the one behind the last
    byte, and no byte of the pipe is in it. *)
Lemma contents_put p ch : pipe_inv p → pi_count p < PIPESIZE → contents (pipe_put ch p) = contents p ++ [ch].
Proof.
  intros Hv Hc. pose proof (pi_count_range p) as Hc0. pose proof (pv_data _ Hv) as Hd.
  assert (pi_nwrite p mod PIPESIZE = (pi_nread p + pi_count p) mod PIPESIZE) as Hw.
  { rewrite <- (u32_mod (pi_nread p + pi_count p)). unfold pi_count. rewrite Z.add_comm, u32_add_l.
    replace (pi_nwrite p - pi_nread p + pi_nread p) with (pi_nwrite p) by lia.
    rewrite u32_small; [done|apply Hv]. }
  unfold contents at 1. rewrite pipe_put_count by done. rewrite seqZ_app, fmap_app by lia. f_equal.
  - apply list_fmap_ext. intros i k Hk. apply lookup_seqZ in Hk as [-> Hi]. simpl.
    rewrite nth_lookup, list_lookup_insert_ne, <- nth_lookup; [done|].
    pose proof (mod_PIPESIZE (pi_nread p + (0 + Z.of_nat i))). pose proof (mod_PIPESIZE (pi_nwrite p)).
    intros E. assert ((pi_nread p + (0 + Z.of_nat i)) mod PIPESIZE = (pi_nread p + pi_count p) mod PIPESIZE) as E2 by lia.
    apply (f_equal (λ x, (x - pi_nread p) mod PIPESIZE)) in E2.
    rewrite !Zdiv.Zminus_mod_idemp_l in E2.
    replace (pi_nread p + (0 + Z.of_nat i) - pi_nread p) with (Z.of_nat i) in E2 by lia.
    replace (pi_nread p + pi_count p - pi_nread p) with (pi_count p) in E2 by lia.
    rewrite !Z.mod_small in E2 by (unfold PIPESIZE in *; lia). lia.
  - rewrite Z.add_0_l. rewrite seqZ_cons by lia. change (seqZ _ (Z.pred 1)) with (@nil Z). rewrite fmap_cons. f_equal.
    change (nth (Z.to_nat ((pi_nread p + pi_count p) mod PIPESIZE))
              (<[Z.to_nat (pi_nwrite p mod PIPESIZE) := ch]> (pi_data p)) 0 = ch).
    rewrite <- Hw, nth_lookup, list_lookup_insert_eq; [done|].
    pose proof (mod_PIPESIZE (pi_nwrite p)). rewrite Hd. lia.
Qed.

(** Reading takes from the front. *)
Lemma contents_get p : pipe_inv p → 0 < pi_count p →
  contents p = pipe_front p :: contents (pipe_get p) ∧ pipe_inv (pipe_get p).
Proof.
  intros Hv Hc. pose proof (pv_count _ Hv) as Hc2.
  assert (pi_count (pipe_get p) = pi_count p - 1) as Hcg.
  { unfold pi_count in *. simpl. rewrite u32_sub_r.
    replace (pi_nwrite p - (pi_nread p + 1)) with ((pi_nwrite p - pi_nread p) + -1) by lia.
    rewrite <- u32_add_l. apply u32_small. pose proof (u32_range (pi_nwrite p - pi_nread p)). lia. }
  split.
  - unfold contents. rewrite Hcg. replace (pi_count p) with (1 + (pi_count p - 1)) at 1 by lia.
    rewrite seqZ_app, fmap_app by lia. change (seqZ 0 1) with [0]. simpl. f_equal.
    + unfold pipe_front. by rewrite Z.add_0_r.
    + rewrite <- (fmap_add_seqZ 1 0), <- list_fmap_compose. apply list_fmap_ext. intros i k _. simpl.
      f_equal. f_equal. rewrite <- (Zdiv.Zplus_mod_idemp_l (u32 _)), u32_mod, Zdiv.Zplus_mod_idemp_l. f_equal. lia.
  - constructor; simpl; [apply Hv|apply u32_range|apply Hv|]. lia.
Qed.

(** ** The operations *)

Lemma pi_at_upd_eq p f s : pi_at p (upd_pi p f s) = f (pi_at p s).
Proof. unfold pi_at, upd_pi. simpl. by rewrite lookup_insert_eq. Qed.

#[export] Instance pi_lock_side p : SideLens (pi_lock_l p).
Proof.
  constructor; try by intros; destruct s.
  - intros b s. simpl. by rewrite pi_at_upd_eq.
  - intros b b' s. simpl. unfold upd_pi, pi_at. simpl. rewrite lookup_insert_eq, insert_insert_eq. by destruct s.
Qed.

Section busy.
Context `{!KernelView kst}.
Variables (pi me root : Z) (Q : kmem → Prop).

(** No one holds pi->lock or a lock of the process table; memory satisfies [Q]
    and the page table of process [me] is at [root]. *)
Record idle (s : kst) : Prop := {
  id_ok : table_ok (s_kern s);
  id_lock : pi_lock (pi_at pi s) = false;
  id_pipe : pipe_inv (pi_at pi s);
  id_mem : Q (k_mem (s_kern s));
  id_root : p_pagetable (procp me (s_kern s)) = root;
}.

(** Process [me] runs in the kernel and holds pi->lock. *)
Record busy (s : kst) : Prop := {
  bz_ok : table_ok (s_kern s);
  bz_me : k_me (s_kern s) = me;
  bz_noff : k_noff (s_kern s) = 1;
  bz_lock : pi_lock (pi_at pi s) = true;
  bz_pipe : pipe_inv (pi_at pi s);
  bz_mem : Q (k_mem (s_kern s));
  bz_root : p_pagetable (procp me (s_kern s)) = root;
}.

(** What the others do while [me] is switched away: they leave the locks free
    and the pipe well formed, change the state as [R] allows, and a scheduler
    with no lock held finds [me] runnable. *)
Definition rely (R : kst → kst → Prop) : Prop := ∀ j s1 s2,
  idle s1 → kv_env j s1 = Some s2 →
  idle s2 ∧ k_noff (s_kern s2) = 0 ∧ sched_ok (k_cpuid (s_kern s2)) (procp me (s_kern s2)) = true ∧ R s1 s2.

(** A record that the others keep of the bytes they have taken from the pipe: an
    observation of the state which depends neither on the process table and memory nor
    on the pipes, such as what they have printed.  [drained]: bytes are only taken from
    the front of the pipe, and go to the end of the record. *)
Definition history (eaten : kst → list Z) : Prop := ∀ s k m,
  eaten (set_s_kern k s) = eaten s ∧ eaten (set_s_pipes m s) = eaten s.
Definition drained (eaten : kst → list Z) (s s' : kst) : Prop :=
  ∃ c, contents (pi_at pi s) = c ++ contents (pi_at pi s') ∧ eaten s' = eaten s ++ c.

(** The others take at least a byte of a full pipe before the writer runs again. *)
Definition progress : Prop := ∀ j s1 s2, idle s1 → kv_env j s1 = Some s2 → pi_count (pi_at pi s2) < PIPESIZE.

Hypothesis Hme : 0 ≤ me < NPROC.

Lemma pi_at_kern k s : pi_at pi (set_s_kern k s) = pi_at pi s.
Proof. done. Qed.

(** wakeup keeps everything [busy] says. *)
Definition pi_woken (c : chan) (s : kst) : kst :=
  set_s_kern (map_procs (woken (k_me (s_kern s)) c) (s_kern s)) s.

Lemma pi_wakeup c s : table_ok (s_kern s) → kcall (wakeup c) s = Ok tt (pi_woken c s).
Proof. intros Hok. by erewrite kcall_ok by (by apply wakeup_spec). Qed.

Lemma busy_woken c s : busy s → busy (pi_woken c s).
Proof.
  intros Hb. pose proof (to_len _ (bz_ok _ Hb)) as Hl. constructor; try apply Hb.
  - constructor; [simpl; rewrite length_imap; apply Hl|]. intros i Hi. simpl. rewrite procp_map by done.
    destruct (woken_fields (k_me (s_kern s)) c i (procp i (s_kern s))) as (-> & _ & _). by apply Hb.
  - simpl. rewrite procp_map by done.
    destruct (woken_fields (k_me (s_kern s)) c me (procp me (s_kern s))) as (_ & _ & ->). apply Hb.
Qed.

Variable eaten : kst → list Z.
Hypothesis Heaten : history eaten.

(** What the others have taken and what is in the pipe. *)
Definition stream (s : kst) : list Z := eaten s ++ contents (pi_at pi s).

Lemma eaten_pi f s : eaten (upd_pi pi f s) = eaten s.
Proof. apply (Heaten s (s_kern s)). Qed.
Lemma eaten_kern k s : eaten (set_s_kern k s) = eaten s.
Proof. apply (Heaten s k (s_pipes s)). Qed.
Lemma drained_stream s s' : drained eaten s s' → stream s' = stream s.
Proof. intros (c & Hc & He). unfold stream. rewrite Hc, He. by rewrite <- app_assoc. Qed.

(** sleep with the pipe's lock: the others see an idle pipe with the same
    bytes, and [me] comes back to a busy one, after taking bytes from the front. *)
Lemma sleep_busy c s : rely (drained eaten) → busy s →
  match sleep c (pi_lock_l pi) s with
  | Ok _ s' => busy s' ∧ stream s' = stream s ∧ (progress → pi_count (pi_at pi s') < PIPESIZE)
  | Asleep s' => pi_at pi s' = set_pi_lock false (pi_at pi s) ∧ stream s' = stream s
  | _ => False
  end.
Proof.
  intros HR Hb. pose proof (bz_ok _ Hb) as Hok. pose proof (to_len _ Hok) as Hl.
  pose proof (sleep_spec (pi_lock_l pi) c s me (bz_me _ Hb) Hme Hl (to_free _ Hok me Hme)
    (bz_noff _ Hb) (bz_lock _ Hb)) as Hs. cbv zeta in Hs.
  set (s1 := lset kv (away me c (lget kv s)) (lset (pi_lock_l pi) false s)) in *.
  assert (pi_at pi s1 = set_pi_lock false (pi_at pi s)) as Hp1 by (unfold s1; simpl; apply pi_at_upd_eq).
  assert (stream s1 = stream s) as Hs1.
  { unfold stream. rewrite Hp1. f_equal. unfold s1. simpl. by rewrite eaten_kern, eaten_pi. }
  destruct (kv_env (k_slept (lget kv s)) s1) as [s2|] eqn:Env.
  2:{ rewrite Hs. done. }
  assert (idle s1) as Hi1.
  { constructor.
    + by apply (table_ok_ext (upd_proc me (λ p, set_p_state SLEEPING (set_p_chan c p)) (s_kern s))), table_ok_upd.
    + by rewrite Hp1.
    + rewrite Hp1. apply pipe_inv_lock, Hb.
    + apply Hb.
    + change (p_pagetable (procp me (upd_proc me (λ p, set_p_state SLEEPING (set_p_chan c p)) (s_kern s))) = root).
      rewrite procp_upd_eq by done. apply Hb. }
  destruct (HR _ _ _ Hi1 Env) as (Hi2 & Hn2 & Hso & Hr%drained_stream).
  pose proof (id_ok _ Hi2) as Hok2. rewrite Hs; [|apply Hok2|by apply Hok2|apply Hi2|exact Hso].
  set (k2 := lget kv s2). rewrite sl_comm. set (s3 := lset kv (resumed me k2) (lset (pi_lock_l pi) true s2)).
  assert (pi_at pi s3 = set_pi_lock true (pi_at pi s2)) as Hp2 by (unfold s3; simpl; rewrite pi_at_kern; apply pi_at_upd_eq).
  split_and!.
  - constructor; try done.
    + by apply (table_ok_ext (upd_proc me (λ p, set_p_chan chan0 (set_p_state RUNNING p)) k2)), table_ok_upd.
    + change (k_noff (s_kern s2) + 1 = 1). lia.
    + by rewrite Hp2.
    + rewrite Hp2. apply pipe_inv_lock, Hi2.
    + apply Hi2.
    + change (p_pagetable (procp me (upd_proc me (λ p, set_p_chan chan0 (set_p_state RUNNING p)) k2)) = root).
      rewrite procp_upd_eq by (done || apply Hok2). apply Hi2.
  - rewrite <- Hs1, <- Hr. unfold stream. rewrite Hp2. f_equal. unfold s3. simpl. by rewrite eaten_kern, eaten_pi.
  - intros Hpr. rewrite Hp2. exact (Hpr _ _ _ Hi1 Env).
Qed.
End busy.

Section write.
Context `{KernelImage} `{!KernelView kst}.
Variables (pi me addr n root : Z) (bs : list Z).

(** The bytes to write are in user memory. *)
Definition src_ok (m : kmem) : Prop :=
  ∀ i b, bs !! i = Some b → copyin root (addr + Z.of_nat i) 1 m = Ok (0, [b]) m.
Abbreviation wbusy := (busy pi me root src_ok).

Hypothesis Hme : 0 ≤ me < NPROC.
Hypothesis Hn : Z.of_nat (length bs) = n.
Hypothesis Haddr : 0 ≤ addr ∧ addr + n < 2 ^ 64.

(** It is so when the process can read the bytes there. *)
Lemma src_ok_of m l np :
  space m l root np → kernel_only (kram m) root →
  (∀ i b, bs !! i = Some b → ureadable (kram m) root (addr + Z.of_nat i) = true ∧
     ubyte (kram m) root (addr + Z.of_nat i) = b) → src_ok m.
Proof.
  intros Hs Hko Hall i b Hi. destruct (Hall i b Hi) as [Hr Hb]. pose proof (lookup_lt_Some _ _ _ Hi) as Hlt.
  destruct (copyin_loop (copy_fuel 1) m l root np (addr + Z.of_nat i) 1 []) as (r & bs' & Hrun & Hres); try done; try lia.
  { apply copy_fuel_enough; lia. }
  unfold copyin. rewrite Hrun. destruct Hres as [(-> & _ & ->)|(-> & a & Ha & Hna)].
  - unfold ubytes. change (seqZ 0 1) with [0]. cbn. by rewrite Z.add_0_r, Hb.
  - replace a with (addr + Z.of_nat i) in Hna by (unfold range in Ha; lia). congruence.
Qed.

(** The turn that copies byte [i]. *)
Lemma write_turn_put (i : nat) b s :
  wbusy s → bs !! i = Some b → pi_readopen (pi_at pi s) ≠ 0 → p_killed (procp me (s_kern s)) = 0 →
  pi_count (pi_at pi s) < PIPESIZE →
  write_turn me pi addr n (Z.of_nat i) s = Ok (inl (Z.of_nat (S i))) (upd_pi pi (pipe_put b) s).
Proof.
  intros Hb Hi Hro Hk Hc. pose proof (lookup_lt_Some _ _ _ Hi) as Hlt.
  unfold write_turn. replace (_ <? n) with true by lia. erewrite bind_ok by reflexivity.
  replace (pi_readopen (pi_at pi s) =? 0) with false by lia.
  erewrite bind_ok by (apply kcall_ok, killed_spec; [done|apply Hb]).
  rewrite kv_set_get. change (lget kv s) with (s_kern s). rewrite Hk. cbn [ctrue Z.eqb negb].
  rewrite pipe_full_count by apply Hb. replace (pi_count _ =? PIPESIZE) with false by lia.
  erewrite bind_ok by (by apply kcall_ok). rewrite kv_set_get. change (lget kv s) with (s_kern s).
  rewrite (bz_root _ _ _ _ _ Hb). rewrite u64_small by lia. erewrite bind_ok.
  2:{ apply lift_ok. change (lget kmem_l s) with (k_mem (s_kern s)). by apply (bz_mem _ _ _ _ _ Hb). }
  cbn [Z.eqb]. replace (lset kmem_l (k_mem (s_kern s)) s) with s.
  - erewrite bind_ok by reflexivity. unfold mret, M_ret. f_equal. f_equal. lia.
  - by destruct s as [[] ?].
Qed.

Lemma busy_put b s : wbusy s → pi_count (pi_at pi s) < PIPESIZE → wbusy (upd_pi pi (pipe_put b) s).
Proof.
  intros Hb Hc. constructor; try apply Hb.
  - rewrite pi_at_upd_eq. apply Hb.
  - rewrite pi_at_upd_eq. by apply pipe_put_inv; [apply Hb|].
Qed.

(** With room for all of it, the loop copies everything and does not sleep. *)
Lemma write_loop_room (k i fuel : nat) s :
  wbusy s → (i + k)%nat = length bs → (k < fuel)%nat → pi_readopen (pi_at pi s) ≠ 0 →
  p_killed (procp me (s_kern s)) = 0 → pi_count (pi_at pi s) + Z.of_nat k ≤ PIPESIZE →
  ∃ s', loop fuel (write_turn me pi addr n) (Z.of_nat i) s = Ok (None, n) s' ∧ wbusy s' ∧
    contents (pi_at pi s') = contents (pi_at pi s) ++ drop i bs ∧ s_kern s' = s_kern s ∧
    pi_readopen (pi_at pi s') = pi_readopen (pi_at pi s) ∧ pi_writeopen (pi_at pi s') = pi_writeopen (pi_at pi s).
Proof.
  revert i fuel s. induction k as [|k IH]; intros i [|fuel] s Hb Hik Hf Hro Hk Hc; try lia; cbn [loop].
  - exists s. split_and!; try done.
    + unfold write_turn. replace (Z.of_nat i <? n) with false by lia. unfold mbind, M_bind, mret, M_ret.
      do 2 f_equal. lia.
    + rewrite drop_ge by lia. by rewrite app_nil_r.
  - destruct (lookup_lt_is_Some_2 bs i) as [b Hi]; [lia|].
    rewrite (bind_ok _ _ _ _ _ (write_turn_put i b s Hb Hi Hro Hk ltac:(lia))).
    destruct (IH (S i) fuel (upd_pi pi (pipe_put b) s)) as (s' & Hr & Hb' & Hct & Hks & Hr1 & Hr2); try lia; try done.
    + apply busy_put; [done|lia].
    + by rewrite pi_at_upd_eq.
    + rewrite pi_at_upd_eq, pipe_put_count by (apply Hb || lia). lia.
    + exists s'. rewrite pi_at_upd_eq in Hct, Hr1, Hr2. split_and!; try done.
      rewrite Hct, contents_put by (apply Hb || lia). rewrite (drop_S bs b i Hi). by rewrite <- app_assoc.
Qed.

Variable eaten : kst → list Z.
Hypothesis Heaten : history eaten.
Abbreviation flow := (stream pi eaten).

(** The outcome of the loop from byte [i] on, where [cs] has been taken from the pipe or
    is in it, within [fuel] turns.  A byte takes a turn, and one more if the writer has
    to sleep first; [e] is 1 if it is known that it does not have to. *)
Definition write_outcome (cs : list Z) (i fuel e : nat) (o : outcome kst (option Z * Z)) : Prop :=
  match o with
  | Ok (None, j) s' => j = n ∧ wbusy s' ∧ flow s' = cs ++ drop i bs
  | Ok (Some r, j) s' => r = -1 ∧ pi_lock (pi_at pi s') = false ∧ k_noff (s_kern s') = 0 ∧
      (pi_readopen (pi_at pi s') = 0 ∨ p_killed (procp me (s_kern s')) ≠ 0) ∧
      ∃ k, (i + k < length bs)%nat ∧ flow s' = cs ++ take k (drop i bs)
  | Asleep s' => pi_count (pi_at pi s') = PIPESIZE ∧ pi_lock (pi_at pi s') = false ∧
      ∃ k, (i + k < length bs)%nat ∧ flow s' = cs ++ take k (drop i bs)
  | NoFuel => progress pi me root src_ok → (fuel + e ≤ 2 * (length bs - i))%nat
  | Panic _ => False
  end.

Lemma write_outcome_put cs i fuel e b o : bs !! i = Some b → (e ≤ 1)%nat →
  write_outcome (cs ++ [b]) (S i) fuel 0 o → write_outcome cs i (S fuel) e o.
Proof.
  intros Hi He. assert (drop i bs = [b] ++ drop (S i) bs) as E by apply (drop_S bs b i Hi).
  pose proof (lookup_lt_Some _ _ _ Hi) as Hlt. destruct o as [[[r|] j] s'|?|s'|]; simpl; try done.
  - intros (? & ? & ? & ? & k & ? & Hk). split_and!; try done. exists (S k). split; [lia|]. rewrite E. simpl. by rewrite <- app_assoc in Hk.
  - intros (? & ? & Hk). split_and!; try done. rewrite E. by rewrite <- app_assoc in Hk.
  - intros (? & ? & k & ? & Hk). split_and!; try done. exists (S k). split; [lia|]. rewrite E. simpl. by rewrite <- app_assoc in Hk.
  - intros Hf Hp. specialize (Hf Hp). lia.
Qed.

(** The turn that finds the pipe full. *)
Lemma write_turn_full (i : nat) s :
  wbusy s → (i < length bs)%nat → pi_readopen (pi_at pi s) ≠ 0 → p_killed (procp me (s_kern s)) = 0 →
  pi_count (pi_at pi s) = PIPESIZE →
  write_turn me pi addr n (Z.of_nat i) s =
    (sleep (nwrite_chan pi) (pi_lock_l pi);; mret (inl (Z.of_nat i))) (pi_woken (nread_chan pi) s).
Proof.
  intros Hb Hi Hro Hk Hc. unfold write_turn. replace (_ <? n) with true by lia. erewrite bind_ok by reflexivity.
  replace (pi_readopen (pi_at pi s) =? 0) with false by lia.
  erewrite bind_ok by (apply kcall_ok, killed_spec; [done|apply Hb]).
  rewrite kv_set_get. change (lget kv s) with (s_kern s). rewrite Hk. cbn [ctrue Z.eqb negb].
  rewrite pipe_full_count by apply Hb. replace (pi_count _ =? PIPESIZE) with true by lia.
  by rewrite (bind_ok _ _ _ _ _ (pi_wakeup _ _ (bz_ok _ _ _ _ _ Hb))).
Qed.

(** The turn that gives up. *)
Lemma write_turn_stop (i : nat) s :
  wbusy s → (i < length bs)%nat → pi_readopen (pi_at pi s) = 0 ∨ p_killed (procp me (s_kern s)) ≠ 0 →
  ∃ s', write_turn me pi addr n (Z.of_nat i) s = Ok (inr (Some (-1), Z.of_nat i)) s' ∧
    pi_at pi s' = set_pi_lock false (pi_at pi s) ∧ k_noff (s_kern s') = 0 ∧
    procp me (s_kern s') = procp me (s_kern s) ∧ eaten s' = eaten s.
Proof.
  intros Hb Hi Hs. eexists. split.
  - unfold write_turn. replace (_ <? n) with true by lia. erewrite bind_ok by reflexivity.
    assert ((if pi_readopen (pi_at pi s) =? 0 then mret 1 else kcall (killed me)) s =
      Ok (if pi_readopen (pi_at pi s) =? 0 then 1 else p_killed (procp me (s_kern s))) s) as Hk.
    { destruct (_ =? 0); [done|]. erewrite kcall_ok by (apply killed_spec; [done|apply Hb]). by rewrite kv_set_get. }
    rewrite (bind_ok _ _ _ _ _ Hk).
    replace (ctrue _) with true by (unfold ctrue; destruct (pi_readopen (pi_at pi s) =? 0) eqn:E; lia).
    by rewrite (bind_ok _ _ _ _ _ (lock_release_side (pi_lock_l pi) s (bz_lock _ _ _ _ _ Hb))).
  - split; [simpl; apply pi_at_upd_eq|]. split; [simpl; rewrite (bz_noff _ _ _ _ _ Hb); done|]. split; [done|].
    simpl. by rewrite eaten_kern, eaten_pi.
Qed.

Lemma write_loop_any (fuel e i : nat) s :
  rely pi me root src_ok (drained pi eaten) → wbusy s → (i ≤ length bs)%nat → (e ≤ 1)%nat →
  (progress pi me root src_ok → e = 1%nat → pi_count (pi_at pi s) < PIPESIZE ∧ (i < length bs)%nat) →
  write_outcome (flow s) i fuel e (loop fuel (write_turn me pi addr n) (Z.of_nat i) s).
Proof.
  intros HR. revert e i s. induction fuel as [|fuel IH]; intros e i s Hb Hi He Hroom; [simpl; intros Hp; specialize (Hroom Hp); lia|].
  cbn [loop]. destruct (decide (i = length bs)) as [Hend|].
  { unfold write_turn. replace (Z.of_nat i <? n) with false by lia. unfold mbind, M_bind, mret, M_ret. simpl.
    split_and!; [lia|done|]. rewrite drop_ge, app_nil_r by lia. done. }
  destruct (decide (pi_readopen (pi_at pi s) = 0 ∨ p_killed (procp me (s_kern s)) ≠ 0)) as [Hstop|Hgo].
  { destruct (write_turn_stop i s Hb ltac:(lia) Hstop) as (s' & Hr & Hp & Hn' & Hpr & He').
    rewrite (bind_ok _ _ _ _ _ Hr). simpl. rewrite Hp, Hpr. split_and!; try done. exists 0%nat. split; [lia|].
    rewrite app_nil_r. unfold stream. by rewrite Hp, He'. }
  apply Decidable.not_or in Hgo as [Hro Hk]. apply dec_stable in Hk.
  destruct (decide (pi_count (pi_at pi s) = PIPESIZE)) as [Hfull|Hnot].
  - unfold mbind at 1, M_bind at 1. rewrite write_turn_full by (done || lia).
    pose proof (sleep_busy pi me root src_ok Hme eaten Heaten (nwrite_chan pi) (pi_woken (nread_chan pi) s) HR
      (busy_woken _ _ _ _ Hme _ _ Hb)) as Hsl.
    assert (flow (pi_woken (nread_chan pi) s) = flow s) as Ef by (unfold stream, pi_woken; by rewrite eaten_kern).
    unfold mbind, M_bind. destruct (sleep _ _ _) as [[] s'|?|s'|]; try done.
    + destruct Hsl as (Hb' & Hd & Hpr). rewrite Ef in Hd. rewrite <- Hd.
      assert (write_outcome (flow s') i fuel 1 (loop fuel (write_turn me pi addr n) (Z.of_nat i) s')) as IH'.
      { apply IH; [done|done|lia|]. intros Hp _. split; [by apply Hpr|lia]. }
      unfold mret, M_ret. destruct (loop _ _ _ _) as [[[r|] j] s2|?|s2|]; try exact IH'.
      simpl in *. intros Hp. specialize (IH' Hp). specialize (Hroom Hp). lia.
    + destruct Hsl as [Hc Hd]. simpl. rewrite Hc, Hd, Ef. split_and!; try done. exists 0%nat. split; [lia|]. by rewrite app_nil_r.
  - pose proof (pv_count _ (bz_pipe _ _ _ _ _ Hb)). destruct (lookup_lt_is_Some_2 bs i) as [b Hib]; [lia|].
    rewrite (bind_ok _ _ _ _ _ (write_turn_put i b s Hb Hib Hro Hk ltac:(lia))).
    apply (write_outcome_put _ _ _ _ b _ Hib He).
    replace (flow s ++ [b]) with (flow (upd_pi pi (pipe_put b) s)).
    + apply IH; [|lia|lia|lia]. apply busy_put; [done|lia].
    + unfold stream. rewrite eaten_pi, pi_at_upd_eq, contents_put by (done || apply Hb || lia). by rewrite app_assoc.
Qed.
End write.

Section read.
Context `{KernelImage} `{!KernelView kst}.
Variables (pi me addr n root np : Z).

(** The reader's memory. *)
Definition dst_ok (m : kmem) : Prop := ∃ l, space m l root np ∧ kernel_only (kram m) root.
Abbreviation rbusy := (busy pi me root dst_ok).
Abbreviation ram_of s := (kram (k_mem (s_kern s))).

Hypothesis Hme : 0 ≤ me < NPROC.
Hypothesis Hn : 0 ≤ n.
Hypothesis Haddr : 0 ≤ addr ∧ addr + n < 2 ^ 64.

(** What the copying loop has done from position [i] on: the bytes in memory,
    those lost because memory could not be written, and those still in the pipe
    are what was in the pipe. *)
Record read_done (i : Z) (s : kst) (r : Z) (s' : kst) : Prop := {
  rd_range : i ≤ r ≤ n;
  rd_busy : rbusy s';
  rd_open : pi_writeopen (pi_at pi s') = pi_writeopen (pi_at pi s);
  rd_bytes : ∃ lost, contents (pi_at pi s) =
      ubytes (ram_of s') root (addr + i) (r - i) ++ lost ++ contents (pi_at pi s') ∧
    ((lost = [] ∧ (r = n ∨ contents (pi_at pi s') = [])) ∨
     (∃ b, lost = [b] ∧ r < n ∧ uwritable (ram_of s) root (addr + r) = false));
  rd_pte a : pte_at (ram_of s') root a = pte_at (ram_of s) root a;
  rd_frame a : upages np (a / PGSIZE) → ¬ range (addr + i) (n - i) a →
    ubyte (ram_of s') root a = ubyte (ram_of s) root a;
}.

Definition got (m : kmem) (s : kst) : kst :=
  set_s_kern (set_k_mem m (s_kern s)) (upd_pi pi pipe_get s).

Lemma busy_got m s : rbusy s → dst_ok m → 0 < pi_count (pi_at pi s) → rbusy (got m s).
Proof.
  intros Hb Hm Hc. assert (pi_at pi (got m s) = pipe_get (pi_at pi s)) as Hp by apply pi_at_upd_eq.
  constructor; try (rewrite Hp); try apply Hb; try done.
  - apply (table_ok_ext (s_kern s)); [done|apply Hb].
  - apply contents_get; [apply Hb|done].
Qed.

(** One turn with a byte in the pipe. *)
Lemma read_turn_get i s m rc :
  rbusy s → 0 ≤ i < n → 0 < pi_count (pi_at pi s) →
  copyout root (addr + i) [pipe_front (pi_at pi s)] (k_mem (s_kern s)) = Ok rc m →
  read_turn me pi addr n i s = Ok (if rc =? -1 then inr i else inl (i + 1)) (got m s).
Proof.
  intros Hb Hi Hc Hcp. unfold read_turn. replace (i <? n) with true by lia. erewrite bind_ok by reflexivity.
  rewrite pipe_empty_count by apply Hb. replace (pi_count _ =? 0) with false by lia.
  erewrite bind_ok by reflexivity. erewrite bind_ok by (by apply kcall_ok). rewrite kv_set_get.
  change (lget kv (upd_pi pi pipe_get s)) with (s_kern s).
  rewrite (bz_root _ _ _ _ _ Hb), u64_small by lia.
  erewrite bind_ok by (apply lift_ok, Hcp). by destruct (rc =? -1).
Qed.

Lemma read_turn_empty i s : rbusy s → i < n → pi_count (pi_at pi s) = 0 →
  read_turn me pi addr n i s = Ok (inr i) s.
Proof.
  intros Hb Hi Hz. unfold read_turn. replace (i <? n) with true by lia. erewrite bind_ok by reflexivity.
  rewrite pipe_empty_count by apply Hb. by rewrite Hz.
Qed.

Lemma ubytes_cons m va k : 0 ≤ k → ubytes m root va (k + 1) = ubyte m root va :: ubytes m root (va + 1) k.
Proof.
  intros Hk. rewrite Z.add_comm, ubytes_app by lia. unfold ubytes at 1. change (seqZ 0 1) with [0]. simpl.
  by rewrite Z.add_0_r.
Qed.

Lemma read_loop (k : nat) i s :
  rbusy s → 0 ≤ i → i + Z.of_nat k = n → Forall (λ b, 0 ≤ b < 256) (contents (pi_at pi s)) →
  ∃ r s', loop (S k) (read_turn me pi addr n) i s = Ok r s' ∧ read_done i s r s'.
Proof.
  revert i s. induction k as [|k IH]; intros i s Hb Hi Hik Hby.
  { exists i, s. split.
    - cbn [loop]. unfold read_turn. by replace (i <? n) with false by lia.
    - constructor; try done; [lia|]. exists []. split; [by rewrite Z.sub_diag|]. left. split; [done|left; lia]. }
  destruct (decide (pi_count (pi_at pi s) = 0)) as [Hz|Hz].
  { exists i, s. assert (contents (pi_at pi s) = []) as He by (apply length_zero_iff_nil; pose proof (length_contents (pi_at pi s)); lia).
    split.
    - cbn [loop]. by rewrite (bind_ok _ _ _ _ _ (read_turn_empty i s Hb ltac:(lia) Hz)).
    - constructor; try done; [lia|]. exists []. rewrite Z.sub_diag, He. split; [done|]. left. split; [done|by right]. }
  assert (0 < pi_count (pi_at pi s)) as Hc by (pose proof (pi_count_range (pi_at pi s)); lia).
  destruct (contents_get (pi_at pi s) (bz_pipe _ _ _ _ _ Hb) Hc) as [Hct _].
  destruct (bz_mem _ _ _ _ _ Hb) as (l & Hs & Hko). set (b := pipe_front (pi_at pi s)) in *.
  rewrite Hct in Hby. apply Forall_cons in Hby as [Hb0 Hby].
  destruct (copyout_loop (copy_fuel 1) (k_mem (s_kern s)) l root np (addr + i) [b])
    as (rc & m & Hrun & Hs' & Hpt & Hfr & Hres); try done; [lia|simpl; lia|by constructor|by apply copy_fuel_enough; lia|].
  assert (dst_ok m) as Hm by (exists l; split; [done|]; intros a; rewrite Hpt; apply Hko).
  assert (pi_at pi (got m s) = pipe_get (pi_at pi s)) as Hpg by apply pi_at_upd_eq.
  pose proof (busy_got m s Hb Hm Hc) as Hbg. simpl length in *.
  pose proof (read_turn_get i s m rc Hb ltac:(lia) Hc Hrun) as Ht.
  destruct Hres as [[-> Hall]|[-> (a & Ha & Hw)]].
  - destruct (IH (i + 1) (got m s)) as (r & s' & Hl & [Hr Hb' Hwo (lost & Hcs & Hlost) Hp2 Hf2]);
      [done|lia|lia|by rewrite Hpg|].
    exists r, s'. split.
    { cbn [loop] in *. by rewrite (bind_ok _ _ _ _ _ Ht). }
    destruct (Hall (addr + i)) as [Hw Hby1]; [unfold range; lia|].
    assert (upages np ((addr + i) / PGSIZE)) as Hup.
    { apply (readable_upage (k_mem (s_kern s)) l root np); try done; [lia|]. by apply andb_true_iff in Hw as [? _]. }
    constructor; [lia|done|by rewrite Hwo, Hpg| |by intros a; rewrite Hp2; apply Hpt|].
    + exists lost. rewrite Hct, <- Hpg, Hcs. replace (r - i) with ((r - (i + 1)) + 1) by lia.
      rewrite ubytes_cons by lia. rewrite Hf2 by (done || (unfold range; lia)).
      replace (ubyte (ram_of (got m s)) root (addr + i)) with b by (rewrite Z.sub_diag in Hby1; symmetry; exact Hby1).
      replace (addr + (i + 1)) with (addr + i + 1) by lia. split; [done|].
      destruct Hlost as [?|(b' & ? & ? & Hw')]; [by left|right]. exists b'. split_and!; try done.
      unfold uwritable, ureadable in *. by rewrite <- Hpt.
    + intros a Hpa Hra. rewrite Hf2 by (done || (unfold range in *; lia)). apply Hfr; [done|]. unfold range in *. lia.
  - exists i, (got m s). assert (a = addr + i) as -> by (unfold range in Ha; lia). split.
    { cbn [loop]. by rewrite (bind_ok _ _ _ _ _ Ht). }
    constructor; try done; [lia|by rewrite Hpg| |].
    + exists [b]. rewrite Z.sub_diag, Hpg. split; [exact Hct|]. right. exists b. split_and!; [done|lia|done].
    + intros x Hx Hrx. apply Hfr; [done|]. unfold range in *. lia.
Qed.
End read.

(** *** Taking and leaving the lock *)

Section lock.
Context `{!KernelView kst}.
Variables (pi me root : Z) (Q : kmem → Prop).

Definition pi_locked (s : kst) : kst := set_s_kern (noff_by 1 (s_kern s)) (upd_pi pi (set_pi_lock true) s).
Definition pi_unlocked (s : kst) : kst := set_s_kern (noff_by (-1) (s_kern s)) (upd_pi pi (set_pi_lock false) s).

Lemma pi_at_locked s : pi_at pi (pi_locked s) = set_pi_lock true (pi_at pi s).
Proof. apply pi_at_upd_eq. Qed.
Lemma pi_at_unlocked s : pi_at pi (pi_unlocked s) = set_pi_lock false (pi_at pi s).
Proof. apply pi_at_upd_eq. Qed.

(** The start of pipewrite and piperead. *)
Lemma pi_enter {A} s (K : Z → M kst A) :
  idle pi me root Q s → k_me (s_kern s) = me →
  (me ← kcall myproc; lock_acquire (pi_lock_l pi);; K me) s = K me (pi_locked s).
Proof.
  intros Hi <-. erewrite bind_ok by (by apply kcall_ok). rewrite kv_set_get.
  by rewrite (bind_ok _ _ _ _ _ (lock_acquire_side (pi_lock_l pi) s (id_lock _ _ _ _ _ Hi))).
Qed.

Lemma busy_locked s : idle pi me root Q s → k_me (s_kern s) = me → k_noff (s_kern s) = 0 →
  busy pi me root Q (pi_locked s).
Proof.
  intros Hi Hm Hn. constructor; try (rewrite pi_at_locked); try done; try apply Hi.
  - apply (table_ok_ext (s_kern s)); [done|apply Hi].
  - simpl. lia.
  - apply pipe_inv_lock, Hi.
Qed.

(** Their end: wakeup, release, return. *)
Definition pi_left (c : chan) (s : kst) : kst := pi_unlocked (pi_woken c s).

Lemma pi_leave (c : chan) (r : Z) s : busy pi me root Q s →
  (kcall (wakeup c);; lock_release (pi_lock_l pi);; mret r) s = Ok r (pi_left c s).
Proof.
  intros Hb. rewrite (bind_ok _ _ _ _ _ (pi_wakeup c s (bz_ok _ _ _ _ _ Hb))).
  by rewrite (bind_ok _ _ _ _ _ (lock_release_side (pi_lock_l pi) (pi_woken c s) (bz_lock _ _ _ _ _ Hb))).
Qed.

Lemma left_idle c s : 0 ≤ me < NPROC → busy pi me root Q s →
  idle pi me root Q (pi_left c s) ∧ k_me (s_kern (pi_left c s)) = me ∧ k_noff (s_kern (pi_left c s)) = 0.
Proof.
  intros Hme Hb%(busy_woken _ _ _ _ Hme c). split_and!.
  - constructor; unfold pi_left; try (rewrite pi_at_unlocked); try done; try apply Hb.
    + apply (table_ok_ext (s_kern (pi_woken c s))); [done|apply Hb].
    + apply pipe_inv_lock, Hb.
  - apply Hb.
  - change (k_noff (s_kern (pi_woken c s)) + -1 = 0). rewrite (bz_noff _ _ _ _ _ Hb). done.
Qed.

Lemma left_pipe c s : pi_at pi (pi_left c s) = set_pi_lock false (pi_at pi s).
Proof. apply (pi_at_unlocked (pi_woken c s)). Qed.
End lock.

(** ** Properties *)

Section props.
Context `{KernelImage} `{!KernelView kst}.

(** Pipewrite into a pipe with room for all [n] bytes, by a process that is
    not killed and with a reader, returns [n] without sleeping, and the pipe
    holds what it held followed by the bytes from user memory; the counters
    may wrap around at 2^32. *)
Theorem pipewrite_correct (fuel : nat) (pi me addr n root : Z) (bs : list Z) (s : kst) :
  0 ≤ me < NPROC → Z.of_nat (length bs) = n → 0 ≤ addr → addr + n < 2 ^ 64 →
  idle pi me root (src_ok addr root bs) s → k_me (s_kern s) = me → k_noff (s_kern s) = 0 →
  pi_readopen (pi_at pi s) ≠ 0 → p_killed (procp me (s_kern s)) = 0 →
  pi_count (pi_at pi s) + n ≤ PIPESIZE → (length bs < fuel)%nat →
  ∃ s', pipewrite fuel pi addr n s = Ok n s' ∧
    contents (pi_at pi s') = contents (pi_at pi s) ++ bs ∧
    idle pi me root (src_ok addr root bs) s' ∧ k_me (s_kern s') = me ∧ k_noff (s_kern s') = 0.
Proof.
  intros Hme Hn Ha Hmax Hi Hm Hnoff Hro Hk Hc Hf. unfold pipewrite. rewrite (pi_enter pi me root _ s _ Hi Hm).
  pose proof (busy_locked _ _ _ _ s Hi Hm Hnoff) as Hb. pose proof (pi_at_locked pi s) as Hp.
  destruct (write_loop_room pi me addr n root bs Hme Hn (conj Ha Hmax) (length bs) 0 fuel (pi_locked pi s))
    as (s' & Hl & Hb' & Hct & _); try done; try (rewrite Hp); try done.
  - change (pi_count (set_pi_lock true (pi_at pi s))) with (pi_count (pi_at pi s)). lia.
  - exists (pi_left pi (nread_chan pi) s'). rewrite (bind_ok _ _ _ _ _ Hl). split_and!.
    + by eapply pi_leave.
    + rewrite left_pipe. change (contents (set_pi_lock false ?p)) with (contents p). by rewrite Hct, Hp.
    + by apply left_idle.
    + by eapply left_idle.
    + by eapply left_idle.
Qed.


(** C39: piperead of a pipe that is not empty or has no writer returns without
    sleeping: the first [r] bytes of the pipe are in the buffer and the rest
    is still in the pipe, with [r] the smaller of [n] and the number of bytes;
    only when the buffer is not writable at [addr + r] does it stop there,
    and the byte for that place is gone.  Other memory of the process is as
    it was. *)
Theorem piperead_correct (fuel : nat) (pi me addr n root np : Z) (s : kst) :
  0 ≤ me < NPROC → 0 ≤ n → 0 ≤ addr → addr + n < 2 ^ 64 →
  idle pi me root (dst_ok root np) s → k_me (s_kern s) = me → k_noff (s_kern s) = 0 →
  Forall (λ b, 0 ≤ b < 256) (contents (pi_at pi s)) →
  contents (pi_at pi s) ≠ [] ∨ pi_writeopen (pi_at pi s) = 0 →
  ∃ r s' lost, piperead (S fuel) pi addr n s = Ok r s' ∧ 0 ≤ r ≤ n ∧
    contents (pi_at pi s) = ubytes (kram (k_mem (s_kern s'))) root addr r ++ lost ++ contents (pi_at pi s') ∧
    ((lost = [] ∧ (r = n ∨ contents (pi_at pi s') = [])) ∨
     (∃ b, lost = [b] ∧ r < n ∧ uwritable (kram (k_mem (s_kern s))) root (addr + r) = false)) ∧
    (∀ a, upages np (a / PGSIZE) → ¬ range addr n a →
       ubyte (kram (k_mem (s_kern s'))) root a = ubyte (kram (k_mem (s_kern s))) root a) ∧
    idle pi me root (dst_ok root np) s' ∧ k_me (s_kern s') = me ∧ k_noff (s_kern s') = 0.
Proof.
  intros Hme Hn Ha Hmax Hi Hm Hnoff Hby Hdata. unfold piperead. rewrite (pi_enter pi me root _ s _ Hi Hm).
  pose proof (busy_locked _ _ _ _ s Hi Hm Hnoff) as Hb. pose proof (pi_at_locked pi s) as Hp.
  assert (loop (S fuel) (read_wait_turn me pi) tt (pi_locked pi s) = Ok None (pi_locked pi s)) as Hw.
  { cbn [loop]. unfold read_wait_turn. rewrite bind_assoc. erewrite bind_ok by reflexivity.
    rewrite pipe_empty_count, Hp by apply Hb. change (pi_count (set_pi_lock true ?p)) with (pi_count p).
    change (pi_writeopen (set_pi_lock true ?p)) with (pi_writeopen p). rewrite <- length_contents.
    destruct Hdata as [Hd| ->]; [|by rewrite andb_false_r].
    destruct (contents (pi_at pi s)); [done|]. simpl length. by replace (_ =? 0) with false by lia. }
  rewrite (bind_ok _ _ _ _ _ Hw).
  destruct (read_loop pi me addr n root np (conj Ha Hmax) (Z.to_nat n) 0 (pi_locked pi s))
    as (r & s' & Hl & [Hr Hb' _ (lost & Hcs & Hlost) Hpt Hfr]); try done; [lia|by rewrite Hp|].
  rewrite Hp, Z.add_0_r, !Z.sub_0_r in *.
  destruct (left_idle pi me root _ (nwrite_chan pi) s' Hme Hb') as (Hid & Hme' & Hno).
  exists r, (pi_left pi (nwrite_chan pi) s'), lost. rewrite (bind_ok _ _ _ _ _ Hl), (pi_leave _ _ _ _ _ _ _ Hb'), left_pipe.
  split_and!; try done; lia.
Qed.
End props.

(** ** Witnesses *)

(** hello is in user memory at 4094; the pipe at 5 has [p]. *)
Definition pst_on (p : pipe) : kst := set_s_pipes {[5 := p]} (kst_of (kern_on poked8)).

(** An empty pipe whose counters are about to wrap, and a full one. *)
Definition pipe_wrap : pipe := Pipe false (replicate 512 0) (2 ^ 32 - 2) (2 ^ 32 - 2) 1 1.
Definition pipe_filled : pipe := Pipe false (replicate 512 7) (2 ^ 32 - 2) 510 1 1.

(** What copyout has written can be read. *)
Lemma copied_readable `{KernelImage} s s' l root n va src :
  space s l root n → kernel_only (kram s) root → 0 ≤ va → va + Z.of_nat (length src) < 2 ^ 64 →
  Forall (λ b, 0 ≤ b < 256) src → copyout root va src s = Ok 0 s' →
  space s' l root n ∧ kernel_only (kram s') root ∧
  ∀ i b, src !! i = Some b → ureadable (kram s') root (va + Z.of_nat i) = true ∧
    ubyte (kram s') root (va + Z.of_nat i) = b.
Proof.
  intros Hs Hko Hva Hmax Hb Hc.
  destruct (copyout_loop (copy_fuel (Z.of_nat (length src))) s l root n va src)
    as (r & s2 & Hr & Hs2 & Hpt & _ & Hres); try done; [apply copy_fuel_enough; lia|].
  unfold copyout in Hc. rewrite Hr in Hc. injection Hc as -> ->. destruct Hres as [[_ Hall]|[? _]]; [|done].
  split_and!; [done|intros a; rewrite Hpt; apply Hko|]. intros i b Hi. pose proof (lookup_lt_Some _ _ _ Hi).
  destruct (Hall (va + Z.of_nat i)) as [Hw Hub]; [unfold range; lia|]. split.
  - unfold uwritable, ureadable in *. rewrite Hpt. by apply andb_true_iff in Hw as [? _].
  - rewrite Hub. replace (va + Z.of_nat i - va) with (Z.of_nat i) by lia. by rewrite Nat2Z.id, nth_lookup, Hi.
Qed.

Lemma poked8_copied : copyout root8 4094 hello grown8 = Ok 0 poked8.
Proof.
  assert (match copyout root8 4094 hello grown8 with Ok r _ => r | _ => -1 end = 0) as E by (vm_compute; reflexivity).
  unfold poked8. destruct (copyout root8 4094 hello grown8); try discriminate. by rewrite E.
Qed.

Lemma poked8_space : ∃ l, @space img8 poked8 l root8 2 ∧ kernel_only (kram poked8) root8 ∧
  ∀ i b, hello !! i = Some b → ureadable (kram poked8) root8 (4094 + Z.of_nat i) = true ∧
    ubyte (kram poked8) root8 (4094 + Z.of_nat i) = b.
Proof.
  destruct grown8_space as (l & Hs & _). exists l.
  apply (@copied_readable img8 grown8 poked8 l root8 2 4094 hello Hs grown8_kernel_only);
    [lia|vm_compute; reflexivity|apply hello_bytes|exact poked8_copied].
Qed.

Lemma poked8_src : src_ok 4094 root8 hello poked8.
Proof.
  destruct poked8_space as (l & Hs & Hko & Hall).
  apply (@src_ok_of img8 4094 5 root8 hello) with l 2; [reflexivity|lia|exact Hs|exact Hko|exact Hall].
Qed.

Lemma pst_on_idle p Q : pi_lock p = false → pipe_inv p → Q poked8 → idle 5 0 root8 Q (pst_on p).
Proof. intros Hl Hp HQ. constructor; [apply kern_on_ok|exact Hl|exact Hp|exact HQ|reflexivity]. Qed.

Lemma pipe_wrap_inv : pipe_inv pipe_wrap.
Proof. constructor; [reflexivity|simpl; lia|simpl; lia|vm_compute; discriminate]. Qed.
Lemma pipe_filled_inv : pipe_inv pipe_filled.
Proof. constructor; [reflexivity|simpl; lia|simpl; lia|vm_compute; discriminate]. Qed.

Lemma pipewrite_correct_witness :
  ∃ s', @pipewrite (λ _ _, None) 6 5 4094 5 (pst_on pipe_wrap) = Ok 5 s' ∧ contents (pi_at 5 s') = hello.
Proof.
  destruct (@pipewrite_correct (λ _ _, None) 6 5 0 4094 5 root8 hello (pst_on pipe_wrap)) as (s' & Hr & Hc & _).
  - unfold NPROC. lia.
  - reflexivity.
  - lia.
  - lia.
  - apply pst_on_idle; [reflexivity|exact pipe_wrap_inv|exact poked8_src].
  - reflexivity.
  - reflexivity.
  - discriminate.
  - reflexivity.
  - vm_compute. discriminate.
  - simpl. lia.
  - exists s'. split; [exact Hr|]. rewrite Hc. reflexivity.
Defined.

(** A reader that takes everything whenever the writer sleeps, and prints it. *)
Definition printed (s : kst) : list Z := u_out (s_uart s).
Definition reader : KernelView kst := λ _ s,
  Some (set_s_kern (set_k_noff 0 (upd_proc 0 (λ p, set_p_state RUNNABLE (set_p_cpu_mask (-1) p)) (s_kern s)))
    (set_s_uart (set_u_out (printed s ++ contents (pi_at 5 s)) (s_uart s)) (upd_pi 5 (λ p, set_pi_nread (pi_nwrite p) p) s))).

Lemma reader_rely Q : @rely reader 5 0 root8 Q (drained 5 printed) ∧ @progress reader 5 0 root8 Q.
Proof.
  assert (∀ j s1 s2, idle 5 0 root8 Q s1 → reader j s1 = Some s2 →
    pi_at 5 s2 = set_pi_nread (pi_nwrite (pi_at 5 s1)) (pi_at 5 s1) ∧ contents (pi_at 5 s2) = [] ∧ pi_count (pi_at 5 s2) = 0) as Hr.
  { intros j s1 s2 Hi E. injection E as <-. match goal with |- pi_at 5 ?x = _ ∧ _ => set (s2 := x) end.
    assert (pi_at 5 s2 = set_pi_nread (pi_nwrite (pi_at 5 s1)) (pi_at 5 s1)) as Hpi
      by (change (pi_at 5 s2) with (pi_at 5 (upd_pi 5 (λ p, set_pi_nread (pi_nwrite p) p) s1)); apply (pi_at_upd_eq 5 (λ p, set_pi_nread (pi_nwrite p) p))).
    assert (pi_count (pi_at 5 s2) = 0) as Hc by (rewrite Hpi; unfold pi_count; simpl; by rewrite Z.sub_diag).
    split_and!; [done| |done]. unfold contents. by rewrite Hc. }
  split.
  2:{ intros j s1 s2 Hi E. destruct (Hr j s1 s2 Hi E) as (_ & _ & ->). done. }
  intros j s1 s2 Hi E. destruct (Hr j s1 s2 Hi E) as (Hpi & Hc & Hz). injection E as <-.
  pose proof (id_ok _ _ _ _ _ Hi) as Hok. pose proof (to_len _ Hok) as Hl.
  set (f := λ p, set_p_state RUNNABLE (set_p_cpu_mask (-1) p)) in *. set (k := upd_proc 0 f (s_kern s1)) in *.
  assert (0 ≤ 0 < NPROC) as H0 by done.
  assert (procp 0 k = f (procp 0 (s_kern s1))) as Hp by (by apply procp_upd_eq).
  pose proof (id_pipe _ _ _ _ _ Hi) as [Hd Hrd Hw _]. split_and!.
  - constructor; try (rewrite Hpi).
    + apply (table_ok_ext k); [done|]. by apply table_ok_upd.
    + apply Hi.
    + rewrite Hpi in Hz. constructor; try done. by rewrite Hz.
    + apply Hi.
    + change (p_pagetable (procp 0 k) = root8). rewrite Hp. apply Hi.
  - done.
  - change (sched_ok (k_cpuid k) (procp 0 k) = true). by rewrite Hp.
  - exists (contents (pi_at 5 s1)). rewrite Hc, app_nil_r. done.
Qed.


Lemma piperead_correct_witness :
  ∃ r s' lost, @piperead (λ _ _, None) 1 5 100 3 (pst_on pipe_filled) = Ok r s' ∧
    replicate 512 7 = ubytes (kram (k_mem (s_kern s'))) root8 100 r ++ lost ++ contents (pi_at 5 s').
Proof.
  destruct poked8_space as (l & Hs & Hko & _).
  destruct (@piperead_correct img8 (λ _ _, None) 0 5 0 100 3 root8 2 (pst_on pipe_filled))
    as (r & s' & lost & Hr & _ & Hc & _).
  - unfold NPROC. lia.
  - lia.
  - lia.
  - lia.
  - apply pst_on_idle; [reflexivity|exact pipe_filled_inv|]. exists l. split; [exact Hs|exact Hko].
  - reflexivity.
  - reflexivity.
  - refine (bool_decide_unpack _ _). vm_compute. exact I.
  - left. vm_compute. discriminate.
  - exists r, s', lost. split; [exact Hr|]. etrans; [|exact Hc]. vm_compute. reflexivity.
Defined.
