(* ===== verification/File.v ===== *)
(** * Open files: kernel/file.c, and the parts of the pipes that allocate files

    The table of open files with its reference counts, and the dispatch of read,
    write, close and fstat on the kind of file. *)
From stdpp Require Import gmap.
From S2P Require Import Prelude Bytes Mem Spinlock Riscv Kalloc Vm Proc Kstate Console Sleeplock Bio Log Fs PipeRt Pipe.
Open Scope Z_scope.

(** kernel/fcntl.h *)
Definition O_RDONLY : Z := 0x000.
Definition O_WRONLY : Z := 0x001.
Definition O_RDWR : Z := 0x002.
Definition O_CREATE : Z := 0x100.
Definition O_TRUNC : Z := 0x200.
Definition O_APPEND : Z := 0x400.

(** p->ofile[fd], and assignment to it. *)
Definition ofile_at (fd : Z) (p : proc) : Z := default NULLP (p_ofile p !! Z.to_nat fd).
Definition set_ofile (fd f : Z) (p : proc) : proc :=
  set_p_ofile (<[Z.to_nat fd := f]> (resize (Z.to_nat NOFILE) NULLP (p_ofile p))) p.

(** The running process. *)
Definition curproc : M kst proc := i ← kcall myproc; kcall (gets (procp i)).
Definition upd_curproc (f : proc → proc) : M kst unit := i ← kcall myproc; kcall (modify (upd_proc i f)).

Definition fileinit : M kst unit := modify (lset ftable_lock false).

Definition fdalloc_turn (f fd : Z) : M kst (Z + Z) :=
  if fd <? NOFILE then
    p ← curproc;
    if ofile_at fd p =? NULLP then upd_curproc (set_ofile fd f);; mret (inr fd)
    else mret (inl (fd + 1))
  else mret (inr (-1)).
Definition fdalloc (f : Z) : M kst Z := loop (S (Z.to_nat NOFILE)) (fdalloc_turn f) 0.

Definition filealloc_turn (f : Z) : M kst (Z + Z) :=
  if f <? NFILE then
    x ← gets (file_at f);
    if f_ref x =? 0 then modify (upd_file f (set_f_ref 1));; mret (inr f) else mret (inl (f + 1))
  else mret (inr NULLP).
Definition filealloc : M kst Z :=
  lock_acquire ftable_lock;;
  f ← loop (S (Z.to_nat NFILE)) filealloc_turn 0;
  lock_release ftable_lock;;
  mret f.

Definition filedup (f : Z) : M kst Z :=
  lock_acquire ftable_lock;;
  x ← gets (file_at f);
  if f_ref x <? 1 then panic "filedup" else
  modify (upd_file f (λ x, set_f_ref (f_ref x + 1) x));;
  lock_release ftable_lock;;
  mret f.

(** What the stack has in the padding of a struct stat. *)
Class Padding := padding : list Z.
(** struct stat as it is laid out in memory. *)
Definition stat_bytes `{Padding} (st : stat) : list Z :=
  le_bytes 4 (st_dev st) ++ le_bytes 4 (st_ino st) ++ le_bytes 2 (st_type st) ++ le_bytes 2 (st_nlink st) ++
  take 4 (padding ++ replicate 4 0) ++ le_bytes 8 (st_size st).

Section view.
Context `{!KernelImage} `{!KernelView kst} `{!WaitBound} `{!Padding}.

Definition fileclose (f : Z) : M kst unit :=
  lock_acquire ftable_lock;;
  x ← gets (file_at f);
  if f_ref x <? 1 then panic "fileclose" else
  modify (upd_file f (λ x, set_f_ref (f_ref x - 1) x));;
  ff ← gets (file_at f);
  if f_ref ff >? 0 then lock_release ftable_lock else
  modify (upd_file f (λ x, set_f_type FD_NONE (set_f_ref 0 x)));;
  lock_release ftable_lock;;
  match f_type ff with
  | FD_PIPE => pipeclose (f_pipe ff) (ctrue (f_writable ff))
  | FD_PIPE_RT => pipe_rt_close (f_pipe ff) (ctrue (f_writable ff))
  | FD_INODE | FD_DEVICE => begin_op;; iput (f_ip ff);; end_op
  | FD_NONE => mret tt
  end.

Definition filestat (f addr : Z) : M kst Z :=
  p ← curproc;
  x ← gets (file_at f);
  match f_type x with
  | FD_INODE | FD_DEVICE =>
      ilock (f_ip x);;
      ip ← gets (inode_at (f_ip x));
      let st := stati ip in
      iunlock (f_ip x);;
      r ← lift kmem_l (copyout (p_pagetable p) addr (stat_bytes st));
      mret (if r <? 0 then -1 else 0)
  | _ => mret (-1)
  end.

(** Is there a device with functions at that number? *)
Definition dev_at (major : Z) (s : kst) : option devfn :=
  if (major <? 0) || (major >=? NDEV) then None else s_devsw s !! major.

Definition fileread (f addr n : Z) : M kst Z :=
  x ← gets (file_at f);
  if f_readable x =? 0 then mret (-1) else
  match f_type x with
  | FD_PIPE => piperead wait_bound (f_pipe x) addr n
  | FD_PIPE_RT => pipe_rt_read wait_bound (f_pipe x) addr
  | FD_INODE =>
      ilock (f_ip x);;
      '(r, _) ← readi (f_ip x) (ToUser addr) (f_off x) (u32 n);
      (if r >? 0 then modify (upd_file f (λ x, set_f_off (u32 (f_off x + r)) x)) else mret tt);;
      iunlock (f_ip x);;
      mret r
  | FD_DEVICE =>
      d ← gets (dev_at (f_major x));
      match d with
      | Some console_fns => consoleread true addr n
      | None => mret (-1)
      end
  | FD_NONE => panic "fileread"
  end.

(** The number of bytes of one writei: int max. *)
Definition write_max : Z := (MAXOPBLOCKS - 1 - 1 - 2) / 2 * BSIZE.

(** One turn of the loop over the pieces of a write. *)
Definition filewrite_turn (f ip addr n : Z) (i : Z) : M kst (Z + Z) :=
  if i <? n then
    let n1 := if n - i >? write_max then write_max else n - i in
    x ← gets (file_at f);
    r ← writei ip (FromUser (u64 (addr + i))) (f_off x) n1;
    (if r >? 0 then modify (upd_file f (λ x, set_f_off (u32 (f_off x + r)) x)) else mret tt);;
    mret (if r <? 0 then inr i else inl (i + r))
  else mret (inr i).

(** The loop runs for at most [n] turns if every turn writes something; a turn that
    writes nothing is repeated for ever. *)
Definition filewrite (f addr n : Z) : M kst Z :=
  x ← gets (file_at f);
  if f_writable x =? 0 then mret (-1) else
  match f_type x with
  | FD_PIPE => pipewrite wait_bound (f_pipe x) addr n
  | FD_PIPE_RT => pipe_rt_write (f_pipe x) addr
  | FD_INODE =>
      begin_op;;
      ilock (f_ip x);;
      (if ctrue (Z.land (f_writable x) O_APPEND) then
         ip ← gets (inode_at (f_ip x));
         modify (upd_file f (set_f_off (i_size ip)))
       else mret tt);;
      i ← loop (S (Z.to_nat n)) (filewrite_turn f (f_ip x) addr n) 0;
      iunlock (f_ip x);;
      end_op;;
      mret (if i =? n then n else -1)
  | FD_DEVICE =>
      d ← gets (dev_at (f_major x));
      match d with
      | Some console_fns => consolewrite true addr n
      | None => mret (-1)
      end
  | FD_NONE => mret (-1)
  end.

(** ** pipealloc and pipe_rt_alloc *)

(** The end of a pipe. *)
Definition pipe_end (type : ftype) (readable writable pi : Z) (x : file) : file :=
  set_f_pipe pi (set_f_writable writable (set_f_readable readable (set_f_type type x))).
Definition close_if (f : Z) : M kst unit := if negb (f =? NULLP) then fileclose f else mret tt.

(** The files, or [None] for -1. *)
Definition pipealloc : M kst (option (Z * Z)) :=
  f0 ← filealloc;
  f1 ← (if f0 =? NULLP then mret NULLP else filealloc);
  pi ← (if f1 =? NULLP then mret 0 else pipe_new);
  if pi =? 0 then close_if f0;; close_if f1;; mret None else
  modify (upd_file f0 (pipe_end FD_PIPE 1 0 pi));;
  modify (upd_file f1 (pipe_end FD_PIPE 0 1 pi));;
  mret (Some (f0, f1)).

Definition pipe_rt_alloc : M kst (option (Z * Z)) :=
  p ← pipe_rt_new;
  f0 ← (if p =? 0 then mret NULLP else filealloc);
  f1 ← (if f0 =? NULLP then mret NULLP else filealloc);
  if f1 =? NULLP then
    (if ctrue p then lift kmem_l (kfree p);; modify (λ s, set_s_rtpipes (delete p (s_rtpipes s)) s) else mret tt);;
    close_if f0;; close_if f1;;
    mret None
  else
  modify (upd_file f0 (pipe_end FD_PIPE_RT 1 0 p));;
  modify (upd_file f1 (pipe_end FD_PIPE_RT 0 1 p));;
  mret (Some (f0, f1)).
End view.
