(* ===== verification/Args.v ===== *)
(** * System-call arguments: the first half of kernel/syscall.c

    The arguments are in the registers that the trap frame of the process has;
    strings and words that they point at are copied from user memory. *)
From stdpp Require Import gmap.
From S2P Require Import Prelude Bytes Mem Spinlock Riscv Kalloc Vm Proc Kstate Fs File.
Open Scope Z_scope.

(** Offsets in struct trapframe. *)
Definition TF_epc : Z := 24.
Definition TF_sp : Z := 48.
Definition TF_a0 : Z := 112.
Definition TF_a1 : Z := 120.
Definition TF_a7 : Z := 168.
Definition TF_SIZE : Z := 288.

(** A register of the running process, and assignment to one. *)
Definition tf_get (o : Z) : M kst Z := p ← curproc; lift kmem_l (ldram (p_trapframe p + o)).
Definition tf_set (o v : Z) : M kst unit := p ← curproc; lift kmem_l (stram (p_trapframe p + o) (u64 v)).

(** The bytes of a C string: those before the first zero. *)
Fixpoint c_string (bs : list Z) : list Z :=
  match bs with
  | b :: bs' => if b =? 0 then [] else b :: c_string bs'
  | [] => []
  end.

(** The word, or [None] for -1. *)
Definition fetchaddr (addr : Z) : M kst (option Z) :=
  p ← curproc;
  if (addr >=? p_sz p) || (u64 (addr + 8) >? p_sz p) then mret None else
  '(r, bs) ← lift kmem_l (copyin (p_pagetable p) addr 8);
  mret (if negb (r =? 0) then None else Some (le_val bs)).

(** The string, whose length is the result of the function, or [None] for -1. *)
Definition fetchstr (addr max : Z) : M kst (option (list Z)) :=
  p ← curproc;
  '(r, bs) ← lift kmem_l (copyinstr (p_pagetable p) addr max);
  mret (if r <? 0 then None else Some (c_string bs)).

(** a0 to a5 are adjacent. *)
Definition argraw (n : Z) : M kst Z :=
  if (0 <=? n) && (n <=? 5) then tf_get (TF_a0 + 8 * n) else panic "argraw".

Definition argint (n : Z) : M kst Z := v ← argraw n; mret (s32 v).
Definition argaddr (n : Z) : M kst Z := argraw n.
Definition argstr (n max : Z) : M kst (option (list Z)) := addr ← argaddr n; fetchstr addr max.
