(* ===== verification/Sysfile.v ===== *)
(** * File system calls: kernel/sysfile.c, and proj5/kernel/getfilesize.c

    The results are those of the C functions, as signed integers; syscall() stores
    them in a0 as 64-bit words.  exec() is in Exec.v. *)
From stdpp Require Import gmap.
From S2P Require Import Prelude Bytes Mem Spinlock Riscv Kalloc Vm Proc Kstate Console Sleeplock Bio Log Fs PipeRt Pipe File Args.
Open Scope Z_scope.

(** The descriptor and the file, or [None] for -1. *)
Definition argfd (n : Z) : M kst (option (Z * Z)) :=
  fd ← argint n;
  if (fd <? 0) || (fd >=? NOFILE) then mret None else
  p ← curproc;
  let f := ofile_at fd p in
  mret (if f =? NULLP then None else Some (fd, f)).

(** char name[DIRSIZ], before it is assigned. *)
Definition name0 : list Z := replicate (Z.to_nat DIRSIZ) 0.

(** Increment and decrement of a link count, a short. *)
Definition add_nlink (d : Z) (x : inode) : inode := set_i_nlink (s16 (i_nlink x + d)) x.

Section view.
Context `{!KernelImage} `{!KernelView kst} `{!WaitBound} `{!Padding}.

Definition sys_dup : M kst Z :=
  r ← argfd 0;
  match r with
  | None => mret (-1)
  | Some (_, f) =>
      fd ← fdalloc f;
      if fd <? 0 then mret (-1) else
      filedup f;;
      mret fd
  end.

Definition sys_read : M kst Z :=
  p ← argaddr 1;
  n ← argint 2;
  r ← argfd 0;
  match r with
  | None => mret (-1)
  | Some (_, f) => fileread f p n
  end.

Definition sys_write : M kst Z :=
  p ← argaddr 1;
  n ← argint 2;
  r ← argfd 0;
  match r with
  | None => mret (-1)
  | Some (_, f) =>
      x ← gets (file_at f);
      if f_writable x =? 0 then mret (-1) else filewrite f p n
  end.

Definition sys_close : M kst Z :=
  r ← argfd 0;
  match r with
  | None => mret (-1)
  | Some (fd, f) =>
      upd_curproc (set_ofile fd NULLP);;
      fileclose f;;
      mret 0
  end.

Definition sys_fstat : M kst Z :=
  st ← argaddr 1;
  r ← argfd 0;
  match r with
  | None => mret (-1)
  | Some (_, f) => filestat f st
  end.

(** The end of sys_link after [bad:]. *)
Definition link_bad (ip : Z) : M kst Z :=
  ilock ip;;
  modify (upd_inode ip (add_nlink (-1)));;
  iupdate ip;;
  iunlockput ip;;
  end_op;;
  mret (-1).

Definition do_link (old new : list Z) : M kst Z :=
  begin_op;;
  ip ← namei old;
  if ip =? NULLP then end_op;; mret (-1) else
  ilock ip;;
  x ← gets (inode_at ip);
  if i_type x =? T_DIR then iunlockput ip;; end_op;; mret (-1) else
  modify (upd_inode ip (add_nlink 1));;
  iupdate ip;;
  iunlock ip;;
  '(dp, name) ← nameiparent new name0;
  if dp =? NULLP then link_bad ip else
  ilock dp;;
  d ← gets (inode_at dp);
  x ← gets (inode_at ip);
  r ← (if negb (i_dev d =? i_dev x) then mret (-1) else dirlink dp name (i_inum x));
  if r <? 0 then iunlockput dp;; link_bad ip else
  iunlockput dp;;
  iput ip;;
  end_op;;
  mret 0.
Definition sys_link : M kst Z :=
  old ← argstr 0 MAXPATH;
  match old with
  | None => mret (-1)
  | Some old =>
      new ← argstr 1 MAXPATH;
      match new with
      | None => mret (-1)
      | Some new => do_link old new
      end
  end.

Definition isdirempty_turn (dp off : Z) : M kst (Z + bool) :=
  x ← gets (inode_at dp);
  if off <? i_size x then
    '(r, de) ← readi dp ToLocal off DIRENT_SIZE;
    if negb (r =? DIRENT_SIZE) then panic "isdirempty: readi" else
    if negb (de_inum de =? 0) then mret (inr false) else mret (inl (off + DIRENT_SIZE))
  else mret (inr true).
Definition isdirempty (dp : Z) : M kst bool :=
  x ← gets (inode_at dp);
  loop (Z.to_nat (i_size x / DIRENT_SIZE + 2)) (isdirempty_turn dp) (2 * DIRENT_SIZE).

(** The end of sys_unlink after [bad:]. *)
Definition unlink_bad (dp : Z) : M kst Z := iunlockput dp;; end_op;; mret (-1).

Definition do_unlink (path : list Z) : M kst Z :=
  begin_op;;
  '(dp, name) ← nameiparent path name0;
  if dp =? NULLP then end_op;; mret (-1) else
  ilock dp;;
  if (namecmp name (str ".") =? 0) || (namecmp name (str "..") =? 0) then unlink_bad dp else
  '(ip, off) ← dirlookup dp name;
  if ip =? NULLP then unlink_bad dp else
  ilock ip;;
  x ← gets (inode_at ip);
  if i_nlink x <? 1 then panic "unlink: nlink < 1" else
  empty ← (if i_type x =? T_DIR then isdirempty ip else mret true);
  if negb empty then iunlockput ip;; unlink_bad dp else
  r ← writei dp (FromLocal (replicate (Z.to_nat DIRENT_SIZE) 0)) off DIRENT_SIZE;
  if negb (r =? DIRENT_SIZE) then panic "unlink: writei" else
  x ← gets (inode_at ip);
  (if i_type x =? T_DIR then modify (upd_inode dp (add_nlink (-1)));; iupdate dp else mret tt);;
  iunlockput dp;;
  modify (upd_inode ip (add_nlink (-1)));;
  iupdate ip;;
  iunlockput ip;;
  end_op;;
  mret 0.
Definition sys_unlink : M kst Z :=
  path ← argstr 0 MAXPATH;
  match path with
  | None => mret (-1)
  | Some path => do_unlink path
  end.

(** The end of create after [fail:]. *)
Definition create_fail (ip dp : Z) : M kst Z :=
  modify (upd_inode ip (set_i_nlink 0));;
  iupdate ip;;
  iunlockput ip;;
  iunlockput dp;;
  mret NULLP.

(** The inode, locked, or NULLP; the device numbers are shorts. *)
Definition create (path : list Z) (type major minor : Z) : M kst Z :=
  '(dp, name) ← nameiparent path name0;
  if dp =? NULLP then mret NULLP else
  ilock dp;;
  '(ip, _) ← dirlookup dp name;
  if negb (ip =? NULLP) then
    iunlockput dp;;
    ilock ip;;
    x ← gets (inode_at ip);
    if (type =? T_FILE) && ((i_type x =? T_FILE) || (i_type x =? T_DEVICE)) then mret ip else
    iunlockput ip;;
    mret NULLP
  else
  d ← gets (inode_at dp);
  ip ← ialloc (i_dev d) type;
  if ip =? NULLP then iunlockput dp;; mret NULLP else
  ilock ip;;
  modify (upd_inode ip (λ x, set_i_nlink 1 (set_i_minor minor (set_i_major major x))));;
  iupdate ip;;
  x ← gets (inode_at ip);
  r ← (if type =? T_DIR then
         r ← dirlink ip (str ".") (i_inum x);
         if r <? 0 then mret r else dirlink ip (str "..") (i_inum d)
       else mret 0);
  if r <? 0 then create_fail ip dp else
  r ← dirlink dp name (i_inum x);
  if r <? 0 then create_fail ip dp else
  (if type =? T_DIR then modify (upd_inode dp (add_nlink 1));; iupdate dp else mret tt);;
  iunlockput dp;;
  mret ip.

(** The inode of open, locked, or NULLP. *)
Definition open_inode (path : list Z) (omode : Z) : M kst Z :=
  if ctrue (Z.land omode O_CREATE) then create path T_FILE 0 0
  else
    ip ← namei path;
    if ip =? NULLP then mret NULLP else
    ilock ip;;
    x ← gets (inode_at ip);
    if (i_type x =? T_DIR) && negb (omode =? O_RDONLY) then iunlockput ip;; mret NULLP else mret ip.

(** The fields of the new file. *)
Definition open_file (ip omode : Z) (x : inode) (f : file) : file :=
  let f := if i_type x =? T_DEVICE then set_f_major (i_major x) (set_f_type FD_DEVICE f)
           else set_f_off (if ctrue (Z.land omode O_APPEND) then i_size x else 0) (set_f_type FD_INODE f) in
  set_f_writable (Z.land omode (Z.lor O_WRONLY O_RDWR))
    (set_f_readable (if Z.land omode O_WRONLY =? 0 then 1 else 0) (set_f_ip ip f)).

Definition do_open (path : list Z) (omode : Z) : M kst Z :=
  begin_op;;
  ip ← open_inode path omode;
  if ip =? NULLP then end_op;; mret (-1) else
  x ← gets (inode_at ip);
  if (i_type x =? T_DEVICE) && ((i_major x <? 0) || (i_major x >=? NDEV)) then iunlockput ip;; end_op;; mret (-1) else
  f ← filealloc;
  fd ← (if f =? NULLP then mret (-1) else fdalloc f);
  if fd <? 0 then close_if f;; iunlockput ip;; end_op;; mret (-1) else
  modify (upd_file f (open_file ip omode x));;
  (if ctrue (Z.land omode O_TRUNC) && (i_type x =? T_FILE) then itrunc ip else mret tt);;
  iunlock ip;;
  end_op;;
  mret fd.
Definition sys_open : M kst Z :=
  omode ← argint 1;
  path ← argstr 0 MAXPATH;
  match path with
  | None => mret (-1)
  | Some path => do_open path omode
  end.

Definition sys_mkdir : M kst Z :=
  begin_op;;
  path ← argstr 0 MAXPATH;
  ip ← match path with None => mret NULLP | Some path => create path T_DIR 0 0 end;
  if ip =? NULLP then end_op;; mret (-1) else
  iunlockput ip;;
  end_op;;
  mret 0.

Definition sys_mknod : M kst Z :=
  begin_op;;
  major ← argint 1;
  minor ← argint 2;
  path ← argstr 0 MAXPATH;
  ip ← match path with None => mret NULLP | Some path => create path T_DEVICE (s16 major) (s16 minor) end;
  if ip =? NULLP then end_op;; mret (-1) else
  iunlockput ip;;
  end_op;;
  mret 0.

Definition sys_chdir : M kst Z :=
  p ← curproc;
  begin_op;;
  path ← argstr 0 MAXPATH;
  ip ← match path with None => mret NULLP | Some path => namei path end;
  if ip =? NULLP then end_op;; mret (-1) else
  ilock ip;;
  x ← gets (inode_at ip);
  if negb (i_type x =? T_DIR) then iunlockput ip;; end_op;; mret (-1) else
  iunlock ip;;
  iput (p_cwd p);;
  end_op;;
  upd_curproc (set_p_cwd ip);;
  mret 0.

(** What sys_pipe and sys_pipe_rt do with the two files. *)
Definition pipe_fds (fdarray rf wf : Z) : M kst Z :=
  p ← curproc;
  fd0 ← fdalloc rf;
  fd1 ← (if fd0 <? 0 then mret (-1) else fdalloc wf);
  if fd1 <? 0 then
    (if fd0 >=? 0 then upd_curproc (set_ofile fd0 NULLP) else mret tt);;
    fileclose rf;;
    fileclose wf;;
    mret (-1)
  else
  r ← lift kmem_l (copyout (p_pagetable p) fdarray (le_bytes 4 fd0));
  r ← (if r <? 0 then mret r else lift kmem_l (copyout (p_pagetable p) (u64 (fdarray + 4)) (le_bytes 4 fd1)));
  if r <? 0 then
    upd_curproc (set_ofile fd0 NULLP);;
    upd_curproc (set_ofile fd1 NULLP);;
    fileclose rf;;
    fileclose wf;;
    mret (-1)
  else mret 0.

Definition sys_pipe : M kst Z :=
  fdarray ← argaddr 0;
  r ← pipealloc;
  match r with
  | None => mret (-1)
  | Some (rf, wf) => pipe_fds fdarray rf wf
  end.

(** ** proj2/kernel/pipe_rt.c *)

Definition sys_pipe_rt : M kst Z :=
  fdarray ← argaddr 0;
  r ← pipe_rt_alloc;
  match r with
  | None => mret (-1)
  | Some (rf, wf) => pipe_fds fdarray rf wf
  end.

(** ** proj5/kernel/getfilesize.c *)

(** The pointer is fetched as an int. *)
Definition sys_getfilesize : M kst Z :=
  path ← argstr 1 MAXPATH;
  match path with
  | None => mret (-1)
  | Some path =>
      size_ptr ← argint 0;
      ip ← namei path;
      if ip =? NULLP then mret (-1) else
      ilock ip;;
      x ← gets (inode_at ip);
      if negb (i_type x =? T_FILE) then iunlockput ip;; mret (-1) else
      p ← curproc;
      r ← lift kmem_l (copyout (p_pagetable p) (u64 size_ptr) (le_bytes 4 (i_size x)));
      iunlockput ip;;
      mret (if r <? 0 then -1 else 0)
  end.
End view.
