(* ===== verification/Shm.v ===== *)
(** * Shared memory and the listing of mappings: proj4/kernel

    One page that processes map at SHM_VA, counted by a static counter that fork
    and exit change, and the system call that prints the mapped regions. *)
From stdpp Require Import gmap.
From S2P Require Import Prelude Bytes Mem Spinlock Riscv Kalloc Vm Proc Kstate Console Fs File Args.
Open Scope Z_scope.

Definition SHM_VA : Z := MAXVA - 15 * PGSIZE.

Definition upd_shm (f : shm → shm) (s : kst) : kst := set_s_shm (f (s_shm s)) s.

Section shm.
Context `{!KernelImage}.

(** The page, allocated by the first call; 0 without memory. *)
Definition shm_page : M kst Z :=
  m ← gets (λ s, shm_memory (s_shm s));
  if m =? 0 then
    m ← lift kmem_l kalloc;
    modify (upd_shm (set_shm_memory m));;
    if m =? 0 then mret 0 else
    lift kmem_l (modify (set_ram (λ r, memset r m 0 PGSIZE)));;
    mret m
  else mret m.

Definition sys_shmget : M kst Z :=
  p ← curproc;
  key ← argint 0;
  size ← argaddr 1;
  if negb (key =? 0) || negb (size =? 4096) then mret (-1) else
  m ← shm_page;
  if m =? 0 then mret (-1) else
  r ← lift kmem_l (mappages (p_pagetable p) SHM_VA PGSIZE m (Z.lor (Z.lor PTE_R PTE_W) PTE_U));
  if r <? 0 then mret (-1) else mret SHM_VA.

(** [pte && ( *pte & PTE_V)] *)
Definition shm_mapped (pagetable : Z) : M kst bool :=
  pte ← lift kmem_l (walk pagetable SHM_VA false);
  if pte =? 0 then mret false else
  v ← lift kmem_l (ldram pte);
  mret (ctrue (Z.land v PTE_V)).

Definition shmem_fork (old new : Z) : M kst Z :=
  mapped ← shm_mapped old;
  if mapped : bool then
    m ← gets (λ s, shm_memory (s_shm s));
    r ← lift kmem_l (mappages new SHM_VA PGSIZE m (Z.lor (Z.lor (Z.lor PTE_R PTE_W) PTE_U) PTE_V));
    if r <? 0 then mret (-1) else
    modify (upd_shm (λ x, set_shm_refs (s32 (shm_refs x + 1)) x));;
    mret 0
  else mret 0.

Definition shmem_exit : M kst unit :=
  p ← curproc;
  mapped ← shm_mapped (p_pagetable p);
  if mapped : bool then
    lift kmem_l (uvmunmap (p_pagetable p) SHM_VA 1 false);;
    modify (upd_shm (λ x, set_shm_refs (s32 (shm_refs x - 1)) x));;
    x ← gets s_shm;
    if (shm_refs x =? 0) && ctrue (shm_memory x) then
      lift kmem_l (kfree (shm_memory x));;
      modify (upd_shm (set_shm_memory 0))
    else mret tt
  else mret tt.
End shm.

(** ** proj4/kernel/show_vm.c *)

Section view.
Context `{!KernelImage} `{!KernelView kst} `{!WaitBound}.

(** One turn of the loop over the pages; the region being built is its first
    address and its number of pages. *)
Definition show_turn (pt : Z) '((va, prev_va, pages) : Z * Z * Z) : M kst ((Z * Z * Z) + unit) :=
  if va <? MAXVA then
    pte ← lift kmem_l (walk pt va false);
    v ← (if pte =? 0 then mret 0 else lift kmem_l (ldram pte));
    if ctrue (Z.land v PTE_V) then
      mret (inl (va + PGSIZE, if pages =? 0 then va else prev_va, if pages =? 0 then 1 else pages + 1))
    else if pages >? 0 then
      printf (str "Region: 0x%lx - 0x%lx: %d" ++ [10]) [Num prev_va; Num va; Num pages];;
      mret (inl (va + PGSIZE, prev_va, 0))
    else mret (inl (va + PGSIZE, prev_va, pages))
  else mret (inr tt).
Definition sys_show_vm_areas : M kst Z :=
  p ← curproc;
  printf (str "[Memory-mapped areas for process %d:]" ++ [10]) [Num (p_pid p)];;
  loop (S (Z.to_nat (MAXVA / PGSIZE))) (show_turn (p_pagetable p)) (0, 0, 0);;
  mret 0.
End view.
