(* ===== verification/Exec.v ===== *)
(** * exec: kernel/exec.c, and sys_exec of kernel/sysfile.c

    The ELF headers are byte lists of the file; the new address space is built in
    full before the old one is given up. *)
From stdpp Require Import gmap.
From S2P Require Import Prelude Bytes Mem Spinlock Riscv Kalloc Vm Proc Kstate Console Sleeplock Bio Log Fs File Args Sysfile.
Open Scope Z_scope.

(** The address of the code in trampoline.S, and of forkret(). *)
Class KernelText := { trampoline : Z; forkret_addr : Z }.

(** kernel/elf.h *)
Definition ELF_MAGIC : Z := 0x464C457F.
Definition ELF_PROG_LOAD : Z := 1.
Definition ELFHDR_SIZE : Z := 64.
Definition PROGHDR_SIZE : Z := 56.
Definition get64 (d : list Z) (o : Z) : Z := get 8 d o.
Definition elf_magic (d : list Z) : Z := get32 d 0.
Definition elf_entry (d : list Z) : Z := get64 d 24.
Definition elf_phoff (d : list Z) : Z := get64 d 32.
Definition elf_phnum (d : list Z) : Z := get16 d 56.

(** struct proghdr *)
Record proghdr := Proghdr {
  ph_type : Z;
  ph_flags : Z;
  ph_off : Z;
  ph_vaddr : Z;
  ph_paddr : Z;
  ph_filesz : Z;
  ph_memsz : Z;
  ph_align : Z;
}.
Definition proghdr_of (d : list Z) : proghdr :=
  Proghdr (get32 d 0) (get32 d 4) (get64 d 8) (get64 d 16) (get64 d 24) (get64 d 32) (get64 d 40) (get64 d 48).

Definition flags2perm (flags : Z) : Z :=
  let perm := if ctrue (Z.land flags 1) then PTE_X else 0 in
  if ctrue (Z.land flags 2) then Z.lor perm PTE_W else perm.

(** A string in a page of the kernel. *)
Definition kstr (a : Z) : M kst (list Z) := lift kmem_l (gets (λ k, c_string (load_bytes (kram k) a (Z.to_nat PGSIZE)))).

(** The part of a path after its last slash. *)
Fixpoint last_elem (last s : list Z) : list Z :=
  match s with
  | [] => last
  | c :: s' => if c =? 0 then last else last_elem (if c =? SLASH then s' else last) s'
  end.
(** safestrcpy(p->name, s, sizeof(p->name)) *)
Definition name_of (s : list Z) : string :=
  String.string_of_list_ascii ((λ b, Ascii.ascii_of_N (Z.to_N b)) <$> take 15 (c_string s)).

Section view.
Context `{!KernelImage} `{!KernelView kst} `{!WaitBound} `{!Padding} `{!KernelText}.

Definition loadseg_turn (pagetable va ip offset sz i : Z) : M kst (Z + Z) :=
  if i <? sz then
    pa ← lift kmem_l (walkaddr pagetable (u64 (va + i)));
    if pa =? 0 then panic "loadseg: address should exist" else
    let n := if u32 (sz - i) <? PGSIZE then u32 (sz - i) else PGSIZE in
    '(r, _) ← readi ip (ToKernel pa) (u32 (offset + i)) n;
    if negb (u32 r =? n) then mret (inr (-1)) else mret (inl (u32 (i + PGSIZE)))
  else mret (inr 0).
Definition loadseg (pagetable va ip offset sz : Z) : M kst Z :=
  loop (Z.to_nat (sz / PGSIZE + 2)) (loadseg_turn pagetable va ip offset sz) 0.

(** One turn of the loop over the program headers.  [inr (ok, sz)] ends it, where
    [ok] is false for [goto bad]. *)
Definition exec_segment (pagetable ip phnum : Z) '((i, off, sz) : Z * Z * Z) : M kst ((Z * Z * Z) + (bool * Z)) :=
  if i <? phnum then
    '(r, d) ← readi ip ToLocal (u32 off) PROGHDR_SIZE;
    if negb (r =? PROGHDR_SIZE) then mret (inr (false, sz)) else
    let ph := proghdr_of d in
    let next sz : M kst ((Z * Z * Z) + (bool * Z)) := mret (inl (i + 1, s32 (off + PROGHDR_SIZE), sz)) in
    if negb (ph_type ph =? ELF_PROG_LOAD) then next sz else
    if ph_memsz ph <? ph_filesz ph then mret (inr (false, sz)) else
    if u64 (ph_vaddr ph + ph_memsz ph) <? ph_vaddr ph then mret (inr (false, sz)) else
    if negb (ph_vaddr ph mod PGSIZE =? 0) then mret (inr (false, sz)) else
    sz1 ← lift kmem_l (uvmalloc pagetable sz (u64 (ph_vaddr ph + ph_memsz ph)) (flags2perm (ph_flags ph)));
    if sz1 =? 0 then mret (inr (false, sz)) else
    r ← loadseg pagetable (ph_vaddr ph) ip (u32 (ph_off ph)) (u32 (ph_filesz ph));
    if r <? 0 then mret (inr (false, sz1)) else next sz1
  else mret (inr (true, sz)).

(** One turn of the loop that pushes the argument strings; [None] is [goto bad]. *)
Definition exec_arg (pagetable stackbase : Z) (argv : list Z) '((argc, sp, ustack) : Z * Z * list Z)
    : M kst ((Z * Z * list Z) + option (Z * Z * list Z)) :=
  let a := nth (Z.to_nat argc) argv 0 in
  if negb (a =? 0) then
    if argc >=? MAXARG then mret (inr None) else
    arg ← kstr a;
    let len := Z.of_nat (length arg) in
    let sp := u64 (sp - (len + 1)) in
    let sp := sp - sp mod 16 in
    if sp <? stackbase then mret (inr None) else
    r ← lift kmem_l (copyout pagetable sp (arg ++ [0]));
    if r <? 0 then mret (inr None) else
    mret (inl (argc + 1, sp, ustack ++ [sp]))
  else mret (inr (Some (argc, sp, ustack))).

(** [bad:] when the inode has been given up already. *)
Definition exec_bad (pagetable sz : Z) : M kst Z := kcall (proc_freepagetable pagetable sz);; mret (-1).
(** [bad:] with the inode still locked; [pagetable] is 0 before there is one. *)
Definition exec_bad_ip (pagetable sz ip : Z) : M kst Z :=
  (if ctrue pagetable then kcall (proc_freepagetable pagetable sz) else mret tt);;
  iunlockput ip;;
  end_op;;
  mret (-1).

(** The user stack: the stack pointer and the arguments, or [None] for [goto bad]. *)
Definition exec_stack (pagetable sz : Z) (argv : list Z) : M kst (option (Z * Z)) :=
  let stackbase := sz - USERSTACK * PGSIZE in
  r ← loop (S (S (Z.to_nat MAXARG))) (exec_arg pagetable stackbase argv) (0, sz, []);
  match r with
  | None => mret None
  | Some (argc, sp, ustack) =>
      let sp := u64 (sp - (argc + 1) * 8) in
      let sp := sp - sp mod 16 in
      if sp <? stackbase then mret None else
      r ← lift kmem_l (copyout pagetable sp (concat (le_bytes 8 <$> (ustack ++ [0]))));
      if r <? 0 then mret None else mret (Some (argc, sp))
  end.

(** The new image is complete: switch to it. *)
Definition exec_commit (path : list Z) (pagetable sz entry argc sp oldsz : Z) : M kst Z :=
  p ← curproc;
  tf_set TF_a1 sp;;
  upd_curproc (set_p_name (name_of (last_elem path path)));;
  upd_curproc (λ p, set_p_sz sz (set_p_pagetable pagetable p));;
  tf_set TF_epc entry;;
  tf_set TF_sp sp;;
  kcall (proc_freepagetable (p_pagetable p) oldsz);;
  mret (s32 argc).

Definition exec (path : list Z) (argv : list Z) : M kst Z :=
  begin_op;;
  ip ← namei path;
  if ip =? NULLP then end_op;; mret (-1) else
  ilock ip;;
  '(r, elf) ← readi ip ToLocal 0 ELFHDR_SIZE;
  if negb (r =? ELFHDR_SIZE) then exec_bad_ip 0 0 ip else
  if negb (elf_magic elf =? ELF_MAGIC) then exec_bad_ip 0 0 ip else
  i ← kcall myproc;
  pagetable ← kcall (proc_pagetable trampoline i);
  if pagetable =? 0 then exec_bad_ip 0 0 ip else
  '(ok, sz) ← loop (S (Z.to_nat (elf_phnum elf))) (exec_segment pagetable ip (elf_phnum elf)) (0, s32 (elf_phoff elf), 0);
  if negb ok then exec_bad_ip pagetable sz ip else
  iunlockput ip;;
  end_op;;
  p ← curproc;
  let oldsz := p_sz p in
  let sz := PGROUNDUP sz in
  sz1 ← lift kmem_l (uvmalloc pagetable sz (u64 (sz + (USERSTACK + 1) * PGSIZE)) PTE_W);
  if sz1 =? 0 then exec_bad pagetable sz else
  let sz := sz1 in
  lift kmem_l (uvmclear pagetable (sz - (USERSTACK + 1) * PGSIZE));;
  r ← exec_stack pagetable sz argv;
  match r with
  | None => exec_bad pagetable sz
  | Some (argc, sp) => exec_commit path pagetable sz (elf_entry elf) argc sp oldsz
  end.

(** ** sys_exec *)

(** One turn of the loop that fetches the arguments; [argv] are the pages so far, and
    the result says whether the loop ended without an error. *)
Definition sys_exec_turn (uargv : Z) (argv : list Z) : M kst (list Z + (list Z * bool)) :=
  let i := Z.of_nat (length argv) in
  if i >=? MAXARG then mret (inr (argv, false)) else
  r ← fetchaddr (u64 (uargv + 8 * i));
  match r with
  | None => mret (inr (argv, false))
  | Some uarg =>
      if uarg =? 0 then mret (inr (argv, true)) else
      a ← lift kmem_l kalloc;
      if a =? 0 then mret (inr (argv, false)) else
      r ← fetchstr uarg PGSIZE;
      match r with
      | None => mret (inr (argv ++ [a], false))
      | Some bs => lift kmem_l (modify (set_ram (λ m, store_bytes m a (bs ++ [0]))));; mret (inl (argv ++ [a]))
      end
  end.

Fixpoint free_argv (argv : list Z) : M kst unit :=
  match argv with
  | [] => mret tt
  | a :: argv' => lift kmem_l (kfree a);; free_argv argv'
  end.

Definition sys_exec : M kst Z :=
  uargv ← argaddr 1;
  path ← argstr 0 MAXPATH;
  match path with
  | None => mret (-1)
  | Some path =>
      '(argv, ok) ← loop (S (S (Z.to_nat MAXARG))) (sys_exec_turn uargv) [];
      if negb ok then free_argv argv;; mret (-1) else
      ret ← exec path argv;
      free_argv argv;;
      mret ret
  end.
End view.
