(* ===== verification/Fork.v ===== *)
(** * Processes and their files: userinit, fork and exit of kernel/proc.c

    The operations of proc.c that need the file system and shared memory. *)
From stdpp Require Import gmap.
From S2P Require Import Prelude Bytes Mem Spinlock Riscv Kalloc Vm Proc Kstate Console Sleeplock Bio Log Fs PipeRt Pipe File Args Sysfile Shm Exec.
Open Scope Z_scope.

Definition initcode : list Z :=
  [0x17; 0x05; 0x00; 0x00; 0x13; 0x05; 0x45; 0x02;
   0x97; 0x05; 0x00; 0x00; 0x93; 0x85; 0x35; 0x02;
   0x93; 0x08; 0x70; 0x00; 0x73; 0x00; 0x00; 0x00;
   0x93; 0x08; 0x20; 0x00; 0x73; 0x00; 0x00; 0x00;
   0xef; 0xf0; 0x9f; 0xff; 0x2f; 0x69; 0x6e; 0x69;
   0x74; 0x00; 0x00; 0x24; 0x00; 0x00; 0x00; 0x00;
   0x00; 0x00; 0x00; 0x00].

(** A 64-bit word of the trap frame of process [i]. *)
Definition tf_store (i o v : Z) : M kst unit :=
  p ← kcall (gets (procp i));
  lift kmem_l (stram (p_trapframe p + o) v).

Section view.
Context `{!KernelImage} `{!KernelView kst} `{!WaitBound} `{!Padding} `{!KernelText}.

Definition userinit : M kst unit :=
  i ← kcall (allocproc trampoline forkret_addr);
  kcall (modify (set_k_initproc i));;
  p ← kcall (gets (procp i));
  lift kmem_l (uvmfirst (p_pagetable p) initcode (Z.of_nat (length initcode)));;
  kcall (modify (upd_proc i (set_p_sz PGSIZE)));;
  tf_store i TF_epc 0;;
  tf_store i TF_sp PGSIZE;;
  kcall (modify (upd_proc i (set_p_name "initcode")));;
  cwd ← namei (str "/");
  kcall (modify (upd_proc i (set_p_cwd cwd)));;
  kcall (modify (upd_proc i (set_p_state RUNNABLE)));;
  kcall (lock_release (lock_of i)).

(** freeproc(np), release(&np->lock), return -1 *)
Definition fork_bad (np : Z) : M kst Z :=
  kcall (freeproc np);;
  kcall (lock_release (lock_of np));;
  mret (-1).

(** One turn of the loop over the open files. *)
Definition fork_file (np : Z) (i : Z) : M kst (Z + unit) :=
  if i <? NOFILE then
    p ← curproc;
    (if negb (ofile_at i p =? NULLP) then
       f ← filedup (ofile_at i p);
       kcall (modify (upd_proc np (set_ofile i f)))
     else mret tt);;
    mret (inl (i + 1))
  else mret (inr tt).

Definition fork : M kst Z :=
  me ← kcall myproc;
  p ← curproc;
  np ← kcall (allocproc trampoline forkret_addr);
  if np =? NULLP then mret (-1) else
  n ← kcall (gets (procp np));
  r ← lift kmem_l (uvmcopy (p_pagetable p) (p_pagetable n) (p_sz p));
  if r <? 0 then fork_bad np else
  kcall (modify (upd_proc np (set_p_sz (p_sz p))));;
  r ← shmem_fork (p_pagetable p) (p_pagetable n);
  if r <? 0 then fork_bad np else
  lift kmem_l (modify (set_ram (λ m, store_bytes m (p_trapframe n) (load_bytes m (p_trapframe p) (Z.to_nat TF_SIZE)))));;
  tf_store np TF_a0 0;;
  loop (S (Z.to_nat NOFILE)) (fork_file np) 0;;
  cwd ← idup (p_cwd p);
  kcall (modify (upd_proc np (set_p_cwd cwd)));;
  kcall (modify (upd_proc np (set_p_name (p_name p))));;
  let pid := p_pid n in
  kcall (lock_release (lock_of np));;
  kcall (lock_acquire wait_lock);;
  kcall (modify (upd_proc np (set_p_parent me)));;
  kcall (lock_release wait_lock);;
  kcall (lock_acquire (lock_of np));;
  kcall (modify (upd_proc np (set_p_state RUNNABLE)));;
  kcall (lock_release (lock_of np));;
  mret pid.

(** One turn of the loop that closes the files. *)
Definition exit_file (fd : Z) : M kst (Z + unit) :=
  if fd <? NOFILE then
    p ← curproc;
    (if negb (ofile_at fd p =? NULLP) then
       fileclose (ofile_at fd p);;
       upd_curproc (set_ofile fd NULLP)
     else mret tt);;
    mret (inl (fd + 1))
  else mret (inr tt).

Definition exit (status : Z) : M kst unit :=
  i ← kcall myproc;
  init ← kcall (gets k_initproc);
  if i =? init then panic "init exiting" else
  loop (S (Z.to_nat NOFILE)) exit_file 0;;
  shmem_exit;;
  begin_op;;
  p ← curproc;
  iput (p_cwd p);;
  end_op;;
  upd_curproc (set_p_cwd NULLP);;
  kcall (lock_acquire wait_lock);;
  kcall (reparent i);;
  p ← curproc;
  kcall (wakeup (chan_proc (p_parent p)));;
  kcall (lock_acquire (lock_of i));;
  upd_curproc (λ p, set_p_state ZOMBIE (set_p_xstate status p));;
  kcall (lock_release wait_lock);;
  sched;;
  panic "zombie exit".
End view.
