(* ===== verification/Syscall.v ===== *)
(** * System calls and traps: kernel/sysproc.c, the dispatch of kernel/syscall.c and kernel/trap.c *)
From stdpp Require Import gmap.
From S2P Require Import Prelude Bytes Mem Spinlock Riscv Kalloc Vm Proc Sched Timer Kstate Console Sleeplock Bio Log Fs PipeRt Pipe File Args Sysfile Shm Exec Fork.
Open Scope Z_scope.

Section view.
Context `{!KernelImage} `{!KernelView kst} `{!WaitBound} `{!Padding} `{!KernelText}.

(** ** kernel/sysproc.c *)

Definition sys_exit : M kst Z := n ← argint 0; exit n;; mret 0.
Definition sys_getpid : M kst Z := p ← curproc; mret (p_pid p).
Definition sys_fork : M kst Z := fork.
Definition sys_wait : M kst Z := p ← argaddr 0; wait wait_bound p.

Definition sys_sbrk : M kst Z :=
  n ← argint 0;
  p ← curproc;
  r ← kcall (growproc n);
  if r <? 0 then mret (-1) else mret (p_sz p).

(** One turn of sys_sleep's loop; ticks is a uint. *)
Definition sys_sleep_turn (ticks0 n : Z) (_ : unit) : M kst (unit + Z) :=
  now ← kcall (gets k_ticks);
  if u32 (now - ticks0) <? n then
    i ← kcall myproc;
    k ← kcall (killed i);
    if ctrue k then kcall (lock_release tickslock);; mret (inr (-1)) else
    sleep ChTicks (lcomp kv tickslock);;
    mret (inl tt)
  else kcall (lock_release tickslock);; mret (inr 0).
Definition sys_sleep : M kst Z :=
  n ← argint 0;
  let n := if n <? 0 then 0 else n in
  kcall (lock_acquire tickslock);;
  ticks0 ← kcall (gets k_ticks);
  loop wait_bound (sys_sleep_turn ticks0 n) tt.

Definition sys_kill : M kst Z := pid ← argint 0; kcall (kill pid).

Definition sys_uptime : M kst Z :=
  kcall (lock_acquire tickslock);;
  xticks ← kcall (gets k_ticks);
  kcall (lock_release tickslock);;
  mret xticks.

(** ** kernel/syscall.c *)

(** The table, by the numbers of syscall.h. *)
Definition syscalls (num : Z) : option (M kst Z) :=
  match num with
  | 1 => Some sys_fork
  | 2 => Some sys_exit
  | 3 => Some sys_wait
  | 4 => Some sys_pipe
  | 5 => Some sys_read
  | 6 => Some sys_kill
  | 7 => Some sys_exec
  | 8 => Some sys_fstat
  | 9 => Some sys_chdir
  | 10 => Some sys_dup
  | 11 => Some sys_getpid
  | 12 => Some sys_sbrk
  | 13 => Some sys_sleep
  | 14 => Some sys_uptime
  | 15 => Some sys_open
  | 16 => Some sys_write
  | 17 => Some sys_mknod
  | 18 => Some sys_unlink
  | 19 => Some sys_link
  | 20 => Some sys_mkdir
  | 21 => Some sys_close
  | 22 => Some sys_pipe_rt
  | 23 => Some (mask ← argint 0; kcall (sys_set_cpu_affinity mask))
  | 24 => Some (period ← argint 0; kcall (sys_setperiod period))
  | 25 => Some sys_wait_until_next_period
  | 26 => Some sys_show_vm_areas
  | 27 => Some sys_getfilesize
  | 28 => Some sys_shmget
  | _ => None
  end.

Definition syscall : M kst unit :=
  v ← tf_get TF_a7;
  let num := s32 v in
  match syscalls num with
  | Some f => r ← f; tf_set TF_a0 r
  | None =>
      p ← curproc;
      printf (str "%d %s: unknown sys call %d" ++ [10]) [Num (p_pid p); Str (Some (str (p_name p))); Num num];;
      tf_set TF_a0 (-1)
  end.
End view.

(** ** kernel/trap.c *)

Definition SSTATUS_SPP : Z := Z.shiftl 1 8.
Definition SSTATUS_SPIE : Z := Z.shiftl 1 5.
Definition SATP_SV39 : Z := Z.shiftl 8 60.
Definition MAKE_SATP (pagetable : Z) : Z := Z.lor SATP_SV39 (Z.shiftr pagetable 12).
Definition UART0_IRQ : Z := 10.
Definition VIRTIO0_IRQ : Z := 1.

(** The control registers when a trap is taken, and the interrupt that the PLIC
    has for this CPU. *)
Record csrs := Csrs {
  r_sstatus : Z;
  r_sepc : Z;
  r_scause : Z;
  r_stval : Z;
  r_satp : Z;
  plic_irq : Z;
}.
(** What sret returns to: the registers that usertrapret has set, and the page
    table passed to userret. *)
Record uret := Uret {
  w_stvec : Z;
  w_sstatus : Z;
  w_sepc : Z;
  w_satp : Z;
}.

(** Addresses in the kernel's text. *)
Class TrapText := { usertrap_addr : Z; uservec_addr : Z }.

Section trap.
Context `{!KernelImage} `{!KernelView kst} `{!WaitBound} `{!Padding} `{!KernelText} `{!TrapText}.
(** virtio_disk_intr: the driver is not modelled. *)
Variable virtio_disk_intr : M kst unit.

Definition devintr (c : csrs) : M kst Z :=
  if r_scause c =? 0x8000000000000009 then
    let irq := plic_irq c in
    (if irq =? UART0_IRQ then uartintr
     else if irq =? VIRTIO0_IRQ then virtio_disk_intr
     else if ctrue irq then printf (str "unexpected interrupt irq=%d" ++ [10]) [Num irq];; mret tt
     else mret tt);;
    mret 1
  else if r_scause c =? 0x8000000000000005 then kcall clockintr;; mret 2
  else mret 0.

(** [sstatus] is the register's value when the trap handler ends. *)
Definition usertrapret (c : csrs) (sstatus : Z) : M kst uret :=
  p ← curproc;
  tf_set 0 (r_satp c);;
  tf_set 8 (p_kstack p + PGSIZE);;
  tf_set 16 usertrap_addr;;
  hart ← kcall cpuid;
  tf_set 32 hart;;
  epc ← tf_get TF_epc;
  mret (Uret (TRAMPOLINE + (uservec_addr - trampoline))
    (Z.lor (Z.land sstatus (Z.lnot SSTATUS_SPP)) SSTATUS_SPIE) epc (MAKE_SATP (p_pagetable p))).

(** [first] is the static variable. *)
Definition forkret (first : bool) (c : csrs) (sstatus : Z) : M kst uret :=
  i ← kcall myproc;
  kcall (lock_release (lock_of i));;
  (if first then fsinit ROOTDEV else mret tt);;
  usertrapret c sstatus.

Definition usertrap (c : csrs) (sstatus : Z) : M kst uret :=
  if negb (Z.land (r_sstatus c) SSTATUS_SPP =? 0) then panic "usertrap: not from user mode" else
  i ← kcall myproc;
  tf_set TF_epc (r_sepc c);;
  which_dev ←
    (if r_scause c =? 8 then
       k ← kcall (killed i);
       (if ctrue k then exit (-1) else mret tt);;
       epc ← tf_get TF_epc;
       tf_set TF_epc (epc + 4);;
       syscall;;
       mret 0
     else
       d ← devintr c;
       (if d =? 0 then
          p ← curproc;
          printf (str "usertrap(): unexpected scause 0x%lx pid=%d" ++ [10]) [Num (r_scause c); Num (p_pid p)];;
          printf (str "            sepc=0x%lx stval=0x%lx" ++ [10]) [Num (r_sepc c); Num (r_stval c)];;
          kcall (setkilled i)
        else mret tt);;
       mret d);
  k ← kcall (killed i);
  (if ctrue k then exit (-1) else mret tt);;
  (if which_dev =? 2 then yield else mret tt);;
  usertrapret c sstatus.

(** The interrupt is taken with interrupts off; [sie] is their state.  The registers
    that are restored are those that were saved. *)
Definition kerneltrap (c : csrs) (sie : bool) : M kst (Z * Z) :=
  if Z.land (r_sstatus c) SSTATUS_SPP =? 0 then panic "kerneltrap: not from supervisor mode" else
  if sie then panic "kerneltrap: interrupts enabled" else
  d ← devintr c;
  if d =? 0 then
    printf (str "scause=0x%lx sepc=0x%lx stval=0x%lx" ++ [10]) [Num (r_scause c); Num (r_sepc c); Num (r_stval c)];;
    panic "kerneltrap"
  else
  i ← kcall myproc;
  (if (d =? 2) && negb (i =? NULLP) then yield else mret tt);;
  mret (r_sepc c, r_sstatus c).
End trap.
