(* ===== verification/Grep.v ===== *)
(** * The grep of the user programs (user/grep.c)

    The matcher of regular expressions with the operators ^ . * and $, against the
    language of the expression, and the loop that reads a file in pieces and prints
    the lines that match.  Strings are lists of bytes without the zero that ends them. *)
From stdpp Require Import list.
From S2P Require Import Prelude.
Open Scope Z_scope.

Definition CARET : Z := 94.
Definition DOT : Z := 46.
Definition STAR : Z := 42.
Definition DOLLAR : Z := 36.
Definition NL : Z := 10.

(** ** The matcher *)

(** matchstar(c, re, text), given matchhere(re, _): zero or more instances of [c]. *)
Definition matchstar (here : list Z → bool) (c : Z) : list Z → bool :=
  fix star (text : list Z) : bool :=
    if here text then true else
    match text with
    | t :: text' => if (t =? c) || (c =? DOT) then star text' else false
    | [] => false
    end.

Fixpoint matchhere (re text : list Z) : bool :=
  match re with
  | [] => true
  | c :: re1 =>
      match re1 with
      | [] =>
          if c =? DOLLAR then (match text with [] => true | _ => false end)
          else match text with t :: text' => if (c =? DOT) || (c =? t) then matchhere re1 text' else false | [] => false end
      | s :: re2 =>
          if s =? STAR then matchstar (matchhere re2) c text
          else match text with t :: text' => if (c =? DOT) || (c =? t) then matchhere re1 text' else false | [] => false end
      end
  end.

(** The do loop of match: every suffix of the text, the empty one included. *)
Fixpoint match_any (re text : list Z) : bool :=
  if matchhere re text then true else
  match text with
  | _ :: text' => match_any re text'
  | [] => false
  end.
Definition match_ (re text : list Z) : bool :=
  match re with
  | c :: re' => if c =? CARET then matchhere re' text else match_any re text
  | [] => match_any re text
  end.

(** ** The language of an expression *)

Inductive atom := Lit (c : Z) | Any.
Inductive item := One (a : atom) | Star (a : atom) | End.

Definition atom_of (c : Z) : atom := if c =? DOT then Any else Lit c.
Definition is_atom (a : atom) (t : Z) : Prop := match a with Lit c => t = c | Any => True end.

(** The items of an expression: a star makes an item of the byte before it, and a dollar
    stands for the end of the text only at the end of the expression. *)
Fixpoint items (re : list Z) : list item :=
  match re with
  | [] => []
  | c :: re1 =>
      match re1 with
      | [] => [if c =? DOLLAR then End else One (atom_of c)]
      | s :: re2 => if s =? STAR then Star (atom_of c) :: items re2 else One (atom_of c) :: items re1
      end
  end.

(** Texts that start with a match. *)
Inductive matches : list item → list Z → Prop :=
  | matches_nil text : matches [] text
  | matches_end : matches [End] []
  | matches_one a l t text : is_atom a t → matches l text → matches (One a :: l) (t :: text)
  | matches_star a l u text : Forall (is_atom a) u → matches l text → matches (Star a :: l) (u ++ text).

Lemma atom_star c t : (t =? c) || (c =? DOT) = true ↔ is_atom (atom_of c) t.
Proof. unfold atom_of. destruct (c =? DOT) eqn:E; simpl; [by rewrite orb_true_r|]. rewrite orb_false_r. lia. Qed.
Lemma atom_one c t : (c =? DOT) || (c =? t) = true ↔ is_atom (atom_of c) t.
Proof. unfold atom_of. destruct (c =? DOT) eqn:E; simpl; [done|]. lia. Qed.

Lemma matchstar_spec here c l text : (∀ text, here text = true ↔ matches l text) →
  matchstar here c text = true ↔ matches (Star (atom_of c) :: l) text.
Proof.
  intros Hh. split.
  - induction text as [|t text IH]; simpl; destruct (here _) eqn:E.
    + intros _. apply (matches_star _ _ []); [done|]. by apply Hh.
    + done.
    + intros _. apply (matches_star _ _ []); [done|]. by apply Hh.
    + destruct ((t =? c) || (c =? DOT)) eqn:Et; [|done]. intros H. apply IH in H. inversion H; subst.
      apply (matches_star _ _ (t :: u)); [|done]. constructor; [by apply atom_star|done].
  - intros H. inversion H as [| | |? ? u text' Hu Hm]; subst. clear H. induction Hu as [|t u Ht Hu IH].
    + apply Hh in Hm. destruct text'; simpl in *; by rewrite Hm.
    + simpl. destruct (here _); [done|]. apply atom_star in Ht. by rewrite Ht.
Qed.

Lemma matchhere_spec re text : matchhere re text = true ↔ matches (items re) text.
Proof.
  revert text. induction re as [re IH] using (induction_ltof1 _ length). unfold ltof in IH. intros text.
  destruct re as [|c [|s re2]].
  - split; [intros _; constructor|done].
  - simpl. destruct (c =? DOLLAR) eqn:E.
    + destruct text; split; try done; [intros _; constructor|intros H; inversion H].
    + destruct text as [|t text]; [split; [done|intros H; inversion H]|]. destruct (_ || _) eqn:Et.
      * split; [intros _; constructor; [by apply atom_one|constructor]|done].
      * split; [done|]. intros H. inversion H; subst. apply atom_one in H3. congruence.
  - change (matchhere (c :: s :: re2) text) with
      (if s =? STAR then matchstar (matchhere re2) c text
       else match text with t :: text' => if (c =? DOT) || (c =? t) then matchhere (s :: re2) text' else false | [] => false end).
    change (items (c :: s :: re2)) with (if s =? STAR then Star (atom_of c) :: items re2 else One (atom_of c) :: items (s :: re2)).
    destruct (s =? STAR) eqn:Es.
    + apply matchstar_spec. intros u. apply IH. simpl. lia.
    + destruct text as [|t text]; [split; [done|intros H; inversion H]|]. destruct (_ || _) eqn:Et.
      * rewrite (IH (s :: re2)) by (simpl; lia). split; [intros H; constructor; [by apply atom_one|done]|intros H; by inversion H].
      * split; [done|]. intros H. inversion H as [| |? ? ? ? Ha|]; subst. apply atom_one in Ha. congruence.
Qed.

Lemma match_any_spec re text : match_any re text = true ↔ ∃ u v, text = u ++ v ∧ matches (items re) v.
Proof.
  induction text as [|t text IH]; simpl; destruct (matchhere re _) eqn:E.
  - split; [intros _; exists [], []; split; [done|by apply matchhere_spec]|done].
  - split; [done|]. intros (u & v & Huv & Hm). symmetry in Huv. apply app_eq_nil in Huv as [-> ->]. apply matchhere_spec in Hm. congruence.
  - split; [intros _; exists [], (t :: text); split; [done|by apply matchhere_spec]|done].
  - rewrite IH. split.
    + intros (u & v & -> & Hm). by exists (t :: u), v.
    + intros ([|t' u] & v & Huv & Hm); simpl in Huv; [subst v; apply matchhere_spec in Hm; congruence|]. injection Huv as -> ->. by exists u, v.
Qed.

(** ** The loop over the file *)

Definition BUFSIZE : Z := 1024.

(** strchr(s, c) of user/ulib.c: what is before the byte and what is after it; the string
    ends at a zero. *)
Fixpoint strchr (s : list Z) (c : Z) : option (list Z * list Z) :=
  match s with
  | [] => None
  | b :: s' =>
      if b =? 0 then None else
      if b =? c then Some ([], s') else
      match strchr s' c with Some (u, v) => Some (b :: u, v) | None => None end
  end.

(** The inner loop of grep: the lines in the buffer; what is left of it, and the output. *)
Fixpoint grep_lines (fuel : nat) (pattern p out : list Z) : option (list Z * list Z) :=
  match fuel with
  | O => None
  | S fuel' =>
      match strchr p NL with
      | Some (line, rest) => grep_lines fuel' pattern rest (if match_ pattern line then out ++ line ++ [NL] else out)
      | None => Some (p, out)
      end
  end.

Section grep.
(** The number of bytes that read delivers of the rest of the file, into [n] bytes. *)
Variable chunk : list Z → Z → Z.

(** [buf] is the first m bytes of the buffer. *)
Fixpoint grep (fuel : nat) (pattern buf input out : list Z) : option (list Z) :=
  match fuel with
  | O => None
  | S fuel' =>
      let n := chunk input (BUFSIZE - Z.of_nat (length buf) - 1) in
      if n >? 0 then
        let buf := buf ++ take (Z.to_nat n) input in
        match grep_lines (S (length buf)) pattern buf out with
        | Some (p, out) => grep fuel' pattern p (drop (Z.to_nat n) input) out
        | None => None
        end
      else Some out
  end.

(** ** What it should print *)

(** The lines of a text, and what follows the last newline. *)
Fixpoint split_nl (l : list Z) : list (list Z) * list Z :=
  match l with
  | [] => ([], [])
  | c :: l' =>
      let '(ls, r) := split_nl l' in
      if c =? NL then ([] :: ls, r) else
      match ls with
      | line :: ls' => ((c :: line) :: ls', r)
      | [] => ([], c :: r)
      end
  end.
Definition printed (pattern : list Z) (ls : list (list Z)) : list Z :=
  concat ((λ line, line ++ [NL]) <$> filter (λ line, match_ pattern line = true) ls).

Lemma split_nl_strchr p : Forall (λ c, c ≠ 0) p →
  split_nl p = match strchr p NL with
               | Some (line, rest) => let '(ls, r) := split_nl rest in (line :: ls, r)
               | None => ([], p)
               end.
Proof.
  induction 1 as [|c p Hc Hp IH]; [done|]. cbn [split_nl strchr]. replace (c =? 0) with false by lia. 
  destruct (c =? NL) eqn:E; [done|]. rewrite IH.
  destruct (strchr p NL) as [[u v]|]; [|done]. by destruct (split_nl v).
Qed.

Lemma strchr_length p c u v : strchr p c = Some (u, v) → (length v < length p)%nat ∧ p = u ++ c :: v.
Proof.
  revert u. induction p as [|b p IH]; intros u H; simpl in H; [done|]. destruct (b =? 0); [done|]. destruct (b =? c) eqn:E.
  - injection H as <- <-. split; [simpl; lia|]. simpl. f_equal. lia.
  - destruct (strchr p c) as [[u' v']|] eqn:Es; [|done]. injection H as <- <-. destruct (IH u' eq_refl) as [? ->]. split; [simpl in *; lia|done].
Qed.

Lemma split_nl_rest p : NL ∉ (split_nl p).2.
Proof.
  induction p as [|c p IH]; simpl; [by apply not_elem_of_nil|]. destruct (split_nl p) as [ls r]. destruct (c =? NL) eqn:E; [done|].
  destruct ls as [|line ls]; simpl in *; [|done]. apply not_elem_of_cons. split; [lia|done].
Qed.

Lemma split_nl_app a b : split_nl (a ++ b) = let '(ls, r) := split_nl a in let '(ls', r') := split_nl (r ++ b) in (ls ++ ls', r').
Proof.
  induction a as [|c a IH]; simpl; [by destruct (split_nl b)|]. rewrite IH. destruct (split_nl a) as [ls r] eqn:Ea.
  destruct (c =? NL) eqn:E; [by destruct (split_nl (r ++ b))|]. destruct ls as [|line ls].
  - simpl. destruct (split_nl (r ++ b)) as [[|l1 ls'] r'] eqn:Er; rewrite E; done.
  - by destruct (split_nl (r ++ b)) as [ls' r'].
Qed.

Lemma printed_app pattern a b : printed pattern (a ++ b) = printed pattern a ++ printed pattern b.
Proof. unfold printed. by rewrite filter_app, fmap_app, concat_app. Qed.

Lemma printed_one pattern u : printed pattern [u] = if match_ pattern u then u ++ [NL] else [].
Proof.
  unfold printed. destruct (match_ pattern u) eqn:E; [rewrite filter_cons_True by done|rewrite filter_cons_False by congruence]; [|done].
  simpl. by rewrite app_nil_r.
Qed.

(** The inner loop splits the buffer. *)
Lemma grep_lines_spec fuel pattern p out : Forall (λ c, c ≠ 0) p → (length p < fuel)%nat →
  grep_lines fuel pattern p out = Some ((split_nl p).2, out ++ printed pattern (split_nl p).1).
Proof.
  revert p out. induction fuel as [|fuel IH]; intros p out Hp Hf; [lia|]. simpl. rewrite (split_nl_strchr p) by done.
  destruct (strchr p NL) as [[u v]|] eqn:E; [|simpl; unfold printed; simpl; by rewrite app_nil_r].
  destruct (strchr_length p NL u v E) as [Hl ->]. apply Forall_app in Hp as [_ Hv]. apply Forall_cons in Hv as [_ Hv].
  rewrite IH by (done || lia). destruct (split_nl v) as [ls r]. simpl. f_equal. f_equal.
  change (u :: ls) with ([u] ++ ls). rewrite printed_app, printed_one. destruct (match_ pattern u); [by rewrite !app_assoc|done].
Qed.

(** Every line is shorter than the buffer. *)
Definition short_lines (l : list Z) : Prop :=
  Forall (λ line, Z.of_nat (length line) < BUFSIZE - 1) (split_nl l).1 ∧ Z.of_nat (length (split_nl l).2) < BUFSIZE - 1.

(** What read promises: at least one byte, if there is one and room for it, and no more
    than there are and than there is room for. *)
Definition reads_ok : Prop :=
  ∀ input n, if decide (input = [] ∨ n ≤ 0) then chunk input n = 0 else 0 < chunk input n ≤ n ∧ chunk input n ≤ Z.of_nat (length input).

Lemma split_nl_whole p : NL ∉ p → split_nl p = ([], p).
Proof.
  induction p as [|c p IH]; [done|]. intros [Hc Hp]%not_elem_of_cons. simpl. rewrite IH by done. by replace (c =? NL) with false by lia.
Qed.

Lemma split_nl_prefix p l : NL ∉ p →
  split_nl (p ++ l) = match split_nl l with (line :: ls, r) => ((p ++ line) :: ls, r) | ([], r) => ([], p ++ r) end.
Proof.
  intros Hp. induction p as [|c p IH]; [simpl; by destruct (split_nl l) as [[] ?]|]. apply not_elem_of_cons in Hp as [Hc Hp]. simpl.
  rewrite IH by done. replace (c =? NL) with false by lia. by destruct (split_nl l) as [[] ?].
Qed.
Lemma split_nl_suffix a : ((split_nl a).1 = [] → a = (split_nl a).2) ∧ ∃ u, a = u ++ (split_nl a).2.
Proof.
  induction a as [|c a [IH [u IHu]]]; [by split; [|exists []]|]. simpl. destruct (split_nl a) as [ls r]. simpl in *.
  destruct (c =? NL); [split; [done|]; exists (c :: u); simpl; by rewrite <- IHu|].
  destruct ls as [|line ls]; simpl; [rewrite <- IH by done; split; [done|by exists []]|].
  split; [done|]. exists (c :: u). simpl. by rewrite <- IHu.
Qed.

(** The buffer has room while the lines are short. *)
Lemma short_room buf l : NL ∉ buf → short_lines (buf ++ l) → Z.of_nat (length buf) < BUFSIZE - 1.
Proof.
  intros Hn [H1 H2]. rewrite split_nl_prefix in H1, H2 by done. destruct (split_nl l) as [[|line ls] r]; simpl in *.
  - rewrite length_app in H2. lia.
  - apply Forall_cons in H1 as [H1 _]. rewrite length_app in H1. lia.
Qed.

Lemma grep_spec fuel pattern buf input out : reads_ok → Forall (λ c, c ≠ 0) (buf ++ input) → NL ∉ buf → short_lines (buf ++ input) →
  (length input < fuel)%nat → grep fuel pattern buf input out = Some (out ++ printed pattern (split_nl (buf ++ input)).1).
Proof.
  intros Hr. revert buf input out. induction fuel as [|fuel IH]; intros buf input out Hz Hn Hs Hf; [lia|]. cbn [grep]. cbv zeta.
  pose proof (short_room buf input Hn Hs) as Hroom. set (n := chunk input (BUFSIZE - Z.of_nat (length buf) - 1)).
  pose proof (Hr input (BUFSIZE - Z.of_nat (length buf) - 1)) as Hc. fold n in Hc. case_decide as Hd.
  - rewrite Hc. change (0 >? 0) with false. cbv iota. assert (input = []) as -> by (destruct Hd as [?|?]; [assumption|lia]).
    rewrite app_nil_r, split_nl_whole by done. unfold printed. simpl. by rewrite app_nil_r.
  - replace (n >? 0) with true by lia. set (buf' := buf ++ take (Z.to_nat n) input). set (rest := drop (Z.to_nat n) input).
    assert (buf ++ input = buf' ++ rest) as E by (unfold buf', rest; by rewrite <- app_assoc, take_drop). rewrite E in *.
    apply Forall_app in Hz as [Hz1 Hz2]. rewrite grep_lines_spec by (done || lia). rewrite split_nl_app.
    destruct (split_nl_suffix buf') as [_ [u Eu]]. pose proof (split_nl_rest buf') as Hnl. pose proof (split_nl_app buf' rest) as Es.
    unfold short_lines in Hs. rewrite Es in Hs. destruct (split_nl buf') as [ls r]. simpl in *. rewrite IH.
    + destruct (split_nl (r ++ rest)) as [ls' r']. simpl. by rewrite printed_app, app_assoc.
    + rewrite Eu in Hz1. apply Forall_app in Hz1 as [_ Hz1]. by apply Forall_app.
    + done.
    + unfold short_lines. destruct (split_nl (r ++ rest)) as [ls' r']. simpl in *. destruct Hs as [[_ Hs]%Forall_app ?]. done.
    + unfold rest. rewrite length_drop. lia.
Qed.
End grep.

(** ** Properties *)

(** C16: the matcher decides the language of the expression.  match finds a match exactly
    when the text, or with ^ at the front the whole of it, has a place where the items
    of the expression match one after the other: a byte or a dot matches one byte, a
    starred one any number of them, and $ the end of the text. *)
Theorem match_correct re text :
  match_ re text = true ↔
    match re with
    | c :: re' => if c =? CARET then matches (items re') text else ∃ u v, text = u ++ v ∧ matches (items re) v
    | [] => ∃ u v, text = u ++ v ∧ matches (items re) v
    end.
Proof.
  destruct re as [|c re]; simpl; [apply match_any_spec|]. destruct (c =? CARET); [apply matchhere_spec|]. apply (match_any_spec (c :: re)).
Qed.

(** C17: grep prints the lines that match.  However read divides the file, if the file has
    no zero byte and every line of it is shorter than the buffer, grep ends and has
    printed exactly the lines that match, each with its newline, in order; what follows
    the last newline is not a line. *)
Theorem grep_prints_matching_lines chunk pattern input : reads_ok chunk → Forall (λ c, c ≠ 0) input → short_lines input →
  grep chunk (S (length input)) pattern [] input [] = Some (printed pattern (split_nl input).1).
Proof. intros Hr Hz Hs. rewrite grep_spec; try done; [apply not_elem_of_nil|lia]. Qed.

(** read that delivers up to three bytes. *)
Definition by_three (input : list Z) (n : Z) : Z := Z.max 0 (Z.min 3 (Z.min n (Z.of_nat (length input)))).

Lemma grep_prints_matching_lines_witness :
  grep by_three 8 [97; 42; 98] [] [99; 10; 97; 98; 10; 98; 10] [] = Some [97; 98; 10; 98; 10].
Proof.
  apply (grep_prints_matching_lines by_three [97; 42; 98] [99; 10; 97; 98; 10; 98; 10]).
  - intros input n. unfold by_three. case_decide as H; [destruct H as [->|H]; simpl; lia|]. destruct input; [tauto|]. simpl length. lia.
  - repeat constructor; discriminate.
  - split; vm_compute; repeat constructor.
Defined.
