(* ===== verification/Sh.v ===== *)
(** * The parser of the shell (user/sh.c)

    The line is a list of bytes, without the zero that ends it; the pointer s of the
    parser is the rest of the line from it on, and a pointer that is kept (the start or
    the end of a word) is its offset.  The shell's panic, which prints a message and
    exits, is a panic here.  malloc is taken to succeed. *)
From stdpp Require Import list.
From S2P Require Import Prelude Mem Kstate Console FsPath File.
Open Scope Z_scope.

Definition MAXARGS : Z := 10.

(** Commands over a type [W] of words: the shell's are pairs of the start and the end of
    the word in the line. *)
Inductive cmd (W : Type) :=
| EXEC (argv : list W)
| REDIR (subcmd : cmd W) (file : W) (mode fd : Z)
| PIPE (left right : cmd W)
| LIST (left right : cmd W)
| BACK (subcmd : cmd W).
Arguments EXEC {W}.
Arguments REDIR {W}.
Arguments PIPE {W}.
Arguments LIST {W}.
Arguments BACK {W}.

(** ** Tokens *)

Definition whitespace : list Z := [32; 9; 13; 10; 11].
Definition symbols : list Z := str "<|>&;()".
(** strchr(l, c) is not null. *)
Definition among (l : list Z) (c : Z) : bool := existsb (Z.eqb c) l.
#[global] Arguments among : simpl never.
Definition wordchar (c : Z) : bool := negb (among whitespace c) && negb (among symbols c).

(** [while(s < es && strchr(whitespace, *s)) s++], and the loop over a word. *)
Fixpoint skip_space (s : list Z) : list Z :=
  match s with
  | c :: s' => if among whitespace c then skip_space s' else s
  | [] => []
  end.
Fixpoint skip_word (s : list Z) : list Z :=
  match s with
  | c :: s' => if wordchar c then skip_word s' else s
  | [] => []
  end.

(** The kind of token and what is left after it. *)
Definition token (s : list Z) : Z * list Z :=
  let c := hd 0 s in
  if c =? 0 then (0, s)
  else if among (str "|();&<") c then (c, tail s)
  else if c =? 62 then (if hd 0 (tail s) =? 62 then (43, tail (tail s)) else (62, tail s))
  else (97, skip_word s).

Section parser.
(** The end of the line. *)
Variable es : Z.
Definition at_ (s : list Z) : Z := es - Z.of_nat (length s).

(** The token, its start and its end. *)
Definition gettoken : M (list Z) (Z * (Z * Z)) := λ s,
  let q := skip_space s in
  let '(ret, eq) := token q in
  Ok (ret, (at_ q, at_ eq)) (skip_space eq).

Definition peek (toks : list Z) : M (list Z) bool := λ s,
  let s := skip_space s in
  Ok (negb (hd 0 s =? 0) && among toks (hd 0 s)) s.

(** ** The grammar *)

Definition ptr : Type := Z * Z.

Definition parseredirs_turn (c : cmd ptr) : M (list Z) (cmd ptr + cmd ptr) :=
  b ← peek (str "<>");
  if b : bool then
    '(tok, _) ← gettoken;
    '(tok', file) ← gettoken;
    if negb (tok' =? 97) then panic "missing file for redirection" else
    mret (inl (if tok =? 60 then REDIR c file O_RDONLY 0
               else if tok =? 62 then REDIR c file (Z.lor (Z.lor O_WRONLY O_CREATE) O_TRUNC) 1
               else if tok =? 43 then REDIR c file (Z.lor O_WRONLY O_CREATE) 1
               else c))
  else mret (inr c).
(** Every turn takes at least a byte of the line. *)
Definition parseredirs (c : cmd ptr) : M (list Z) (cmd ptr) :=
  n ← gets length;
  loop (S n) parseredirs_turn c.

(** [cmd->argv[argc] = q], where [ret] is the execcmd with the redirections so far around it. *)
Fixpoint add_arg (w : ptr) (ret : cmd ptr) : cmd ptr :=
  match ret with
  | EXEC argv => EXEC (argv ++ [w])
  | REDIR c file mode fd => REDIR (add_arg w c) file mode fd
  | c => c
  end.

Definition parseexec_turn '((argc, ret) : Z * cmd ptr) : M (list Z) ((Z * cmd ptr) + cmd ptr) :=
  b ← peek (str "|)&;");
  if b : bool then mret (inr ret) else
  '(tok, w) ← gettoken;
  if tok =? 0 then mret (inr ret) else
  if negb (tok =? 97) then panic "syntax" else
  let ret := add_arg w ret in
  let argc := argc + 1 in
  if argc >=? MAXARGS then panic "too many args" else
  ret ← parseredirs ret;
  mret (inl (argc, ret)).

(** The loop of parseline over the ampersands. *)
Definition back_turn (c : cmd ptr) : M (list Z) (cmd ptr + cmd ptr) :=
  b ← peek (str "&");
  if b : bool then gettoken;; mret (inl (BACK c)) else mret (inr c).

(** The calls of the grammar are counted by [n]. *)
Fixpoint parseline (n : nat) : M (list Z) (cmd ptr) :=
  match n with
  | O => λ _, NoFuel
  | S n =>
      c ← parsepipe n;
      k ← gets length;
      c ← loop (S k) back_turn c;
      b ← peek (str ";");
      if b : bool then gettoken;; r ← parseline n; mret (LIST c r) else mret c
  end
with parsepipe (n : nat) : M (list Z) (cmd ptr) :=
  match n with
  | O => λ _, NoFuel
  | S n =>
      c ← parseexec n;
      b ← peek (str "|");
      if b : bool then gettoken;; r ← parsepipe n; mret (PIPE c r) else mret c
  end
with parseexec (n : nat) : M (list Z) (cmd ptr) :=
  match n with
  | O => λ _, NoFuel
  | S n =>
      b ← peek (str "(");
      if b : bool then parseblock n else
      ret ← parseredirs (EXEC []);
      k ← gets length;
      loop (S k) parseexec_turn (0, ret)
  end
with parseblock (n : nat) : M (list Z) (cmd ptr) :=
  match n with
  | O => λ _, NoFuel
  | S n =>
      b ← peek (str "(");
      if negb b then panic "parseblock" else
      gettoken;;
      c ← parseline n;
      b ← peek (str ")");
      if negb b then panic "syntax - missing )" else
      gettoken;;
      parseredirs c
  end.
End parser.

(** [*ecmd->eargv[i] = 0] and [*rcmd->efile = 0], on the line with its terminating zero. *)
Fixpoint nulterminate (c : cmd ptr) (line : list Z) : list Z :=
  match c with
  | EXEC argv => foldl (λ l '(_, eq), <[Z.to_nat eq := 0]> l) line argv
  | REDIR c (_, efile) _ _ => <[Z.to_nat efile := 0]> (nulterminate c line)
  | PIPE l r | LIST l r => nulterminate r (nulterminate l line)
  | BACK c => nulterminate c line
  end.

(** The command and the line as it leaves it; [line] has no zero.  Four calls for every
    byte of the line are enough. *)
Definition parsecmd (line : list Z) : M (list Z) (cmd ptr * list Z) :=
  let es := Z.of_nat (length line) in
  modify (λ _, line);;
  c ← parseline es (4 * length line + 4);
  peek [];;
  s ← gets id;
  if (0 <? length s)%nat then panic "syntax" else
  mret (c, nulterminate c (line ++ [0])).

(** ** Postconditions of the parser *)

(** The computation returns, and with a result in [Q], or it panics. *)
Definition ensures {S A} (m : M S A) (s : S) (Q : A → S → Prop) : Prop :=
  match m s with
  | Ok a s' => Q a s'
  | Panic _ => True
  | _ => False
  end.

Lemma ensures_bind {S A B} (m : M S A) (k : A → M S B) s (P : A → S → Prop) Q :
  ensures m s P → (∀ a s', P a s' → ensures (k a) s' Q) → ensures (m ≫= k) s Q.
Proof. unfold ensures, mbind, M_bind. destruct (m s); try done. intros H1 H2. by apply H2. Qed.

(** The same, for the first two steps together. *)
Lemma ensures_bind2 {S A B C} (m : M S A) (f : A → M S B) (k : B → M S C) s (P : B → S → Prop) Q :
  ensures (m ≫= f) s P → (∀ b s', P b s' → ensures (k b) s' Q) → ensures (a ← m; b ← f a; k b) s Q.
Proof. unfold ensures, mbind, M_bind. destruct (m s) as [a s'| | |]; try done. destruct (f a s'); try done. intros H1 H2. by apply H2. Qed.

Lemma ensures_weaken {S A} (m : M S A) s (P Q : A → S → Prop) : ensures m s P → (∀ a s', P a s' → Q a s') → ensures m s Q.
Proof. unfold ensures. destruct (m s); try done. auto. Qed.

Lemma ensures_ret {S A} (a : A) (s : S) (Q : A → S → Prop) : Q a s → ensures (mret a) s Q.
Proof. done. Qed.
Lemma ensures_panic {S A} msg (s : S) (Q : A → S → Prop) : ensures (panic msg) s Q.
Proof. done. Qed.

(** A loop whose turns shorten the rest of the line. *)
Lemma ensures_loop {A B X} (fuel : nat) (body : A → M (list X) (A + B)) (I : A → list X → Prop) Q a s :
  (∀ a s, I a s → ensures (body a) s (λ r s', match r with inl a' => I a' s' ∧ (length s' < length s)%nat | inr b => Q b s' end)) →
  I a s → (length s < fuel)%nat → ensures (loop fuel body a) s Q.
Proof.
  intros Hb. revert a s. induction fuel as [|fuel IH]; intros a s Ha Hf; [lia|]. cbn [loop].
  eapply ensures_bind; [by apply Hb|]. intros [a'|b] s' H; simpl in H; [|done]. destruct H. apply IH; [done|lia].
Qed.

Create HintDb sh.
#[export] Hint Resolve ensures_ret ensures_panic : sh.

(** ** Words *)

Section wf.
Variable line : list Z.
Hypothesis Hline : Forall (λ c, c ≠ 0) line.
Abbreviation es := (Z.of_nat (length line)).

(** A word of the line: a longest run of bytes that are neither space nor symbol. *)
Record tok_ok (w : ptr) : Prop := {
  tk_range : 0 ≤ w.1 < w.2 ∧ w.2 ≤ es;
  tk_in i : w.1 ≤ i < w.2 → wordchar (nth (Z.to_nat i) line 0) = true;
  tk_end : w.2 = es ∨ wordchar (nth (Z.to_nat w.2) line 0) = false;
}.

(** The rest of the line at some point of it. *)
Definition rest (s : list Z) : Prop := s `suffix_of` line.

Lemma rest_tail c s : rest (c :: s) → rest s.
Proof. intros [pre E]. exists (pre ++ [c]). by rewrite E, <- app_assoc. Qed.
Lemma rest_space s : rest s → rest (skip_space s).
Proof. induction s as [|c s IH]; [done|]. simpl. intros H. destruct (among whitespace c); [|done]. apply IH. by eapply rest_tail. Qed.
Lemma rest_word s : rest s → rest (skip_word s).
Proof. induction s as [|c s IH]; [done|]. simpl. intros H. destruct (wordchar c); [|done]. apply IH. by eapply rest_tail. Qed.
Lemma rest_tl s : rest s → rest (tail s).
Proof. destruct s; [done|]. apply rest_tail. Qed.
Lemma space_length s : (length (skip_space s) ≤ length s)%nat.
Proof. induction s as [|c s IH]; [done|]. simpl. destruct (among whitespace c); simpl; lia. Qed.
Lemma word_length s : (length (skip_word s) ≤ length s)%nat.
Proof. induction s as [|c s IH]; [done|]. simpl. destruct (wordchar c); simpl; lia. Qed.
Lemma space_space s : skip_space (skip_space s) = skip_space s.
Proof. induction s as [|c s IH]; [done|]. simpl. destruct (among whitespace c) eqn:E; [done|]. simpl. by rewrite E. Qed.
Lemma space_hd s : among whitespace (hd 0 (skip_space s)) = false.
Proof. induction s as [|c s IH]; [done|]. simpl. by destruct (among whitespace c) eqn:E. Qed.

Lemma rest_nth s i : rest s → 0 ≤ i → i < Z.of_nat (length s) → nth (Z.to_nat (at_ es s + i)) line 0 = nth (Z.to_nat i) s 0.
Proof.
  intros [pre E] Hi Hl. unfold at_. rewrite E, length_app. rewrite app_nth2 by lia. f_equal. lia.
Qed.

Lemma word_chars s i : 0 ≤ i < Z.of_nat (length s) - Z.of_nat (length (skip_word s)) → wordchar (nth (Z.to_nat i) s 0) = true.
Proof.
  revert i. induction s as [|c s IH]; intros i Hi; simpl in *; [lia|]. destruct (wordchar c) eqn:E; [|simpl in Hi; lia].
  destruct (Z.to_nat i) as [|k] eqn:Ek; [done|]. replace k with (Z.to_nat (i - 1)) by lia. apply IH. lia.
Qed.
Lemma word_end s : skip_word s = [] ∨ wordchar (hd 0 (skip_word s)) = false.
Proof. induction s as [|c s IH]; [by left|]. simpl. destruct (wordchar c) eqn:E; [done|]. by right. Qed.

Lemma word_tok s : rest s → hd 0 s ≠ 0 → wordchar (hd 0 s) = true → tok_ok (at_ es s, at_ es (skip_word s)).
Proof.
  intros Hr H0 Hw. pose proof (word_length s) as Hl. pose proof (suffix_length _ _ Hr) as Hls.
  assert (length (skip_word s) < length s)%nat as Hlt.
  { destruct s as [|c s]; [done|]. simpl in *. rewrite Hw. pose proof (word_length s). lia. }
  constructor; simpl.
  - unfold at_. lia.
  - intros i Hi. assert (0 ≤ i - at_ es s < Z.of_nat (length s) - Z.of_nat (length (skip_word s))) as Hi' by (unfold at_ in *; lia).
    replace i with (at_ es s + (i - at_ es s)) by lia. rewrite rest_nth by (done || lia). by apply word_chars.
  - destruct (word_end s) as [E|E]; [left; rewrite E; unfold at_; simpl; lia|].
    destruct (decide (skip_word s = [])) as [E'|E']; [left; rewrite E'; unfold at_; simpl; lia|right].
    replace (at_ es (skip_word s)) with (at_ es (skip_word s) + 0) by lia. rewrite rest_nth; [|by apply rest_word|lia|].
    + by destruct (skip_word s).
    + destruct (skip_word s); [done|]. simpl. lia.
Qed.

(** ** Well-formed commands *)

(** Every word is a word of the line, an execcmd has room for its arguments and the
    null pointer after them, and a redirection opens descriptor 0 or 1. *)
Fixpoint wf (c : cmd ptr) : Prop :=
  match c with
  | EXEC argv => Forall tok_ok argv ∧ Z.of_nat (length argv) < MAXARGS
  | REDIR c file mode fd =>
      wf c ∧ tok_ok file ∧
      ((fd = 0 ∧ mode = O_RDONLY) ∨ (fd = 1 ∧ (mode = Z.lor (Z.lor O_WRONLY O_CREATE) O_TRUNC ∨ mode = Z.lor O_WRONLY O_CREATE)))
  | PIPE l r | LIST l r => wf l ∧ wf r
  | BACK c => wf c
  end.

(** The execcmd inside its redirections, with [argc] arguments. *)
Fixpoint simple (argc : Z) (c : cmd ptr) : Prop :=
  match c with
  | EXEC argv => Z.of_nat (length argv) = argc
  | REDIR c _ _ _ => simple argc c
  | _ => False
  end.

(** What is left is part of what there was. *)
Definition shorter (s s' : list Z) : Prop := rest s' ∧ (length s' ≤ length s)%nat.

Lemma token_spec s : rest s → among whitespace (hd 0 s) = false →
  let '(ret, eq) := token s in
  shorter s eq ∧ (ret = 97 → tok_ok (at_ es s, at_ es eq)) ∧ (hd 0 s ≠ 0 → (length eq < length s)%nat) ∧ (ret = 0 → hd 0 s = 0).
Proof.
  intros Hr Hw. unfold token, shorter. destruct (hd 0 s =? 0) eqn:E0; [split_and!; try done; lia|].
  assert (length (tail s) < length s)%nat as Hlt by (destruct s; [done|]; simpl; lia). pose proof (rest_tl s Hr) as Ht.
  destruct (among (str "|();&<") (hd 0 s)) eqn:Es.
  { split_and!; try done; [lia|]. intros E. by rewrite E in Es. }
  destruct (hd 0 s =? 62) eqn:E1.
  { assert (length (tail (tail s)) ≤ length (tail s))%nat by (destruct (tail s); simpl; lia). pose proof (rest_tl _ Ht).
    destruct (hd 0 (tail s) =? 62); split_and!; done || lia. }
  assert (wordchar (hd 0 s) = true) as Hc.
  { unfold wordchar. rewrite Hw. unfold among in *. simpl in *. lia. }
  split_and!; try done; [by apply rest_word|apply word_length|intros _; apply word_tok; try done; lia|].
  intros _. destruct s as [|c s]; [done|]. simpl in *. rewrite Hc. pose proof (word_length s). lia.
Qed.

Lemma shorter_trans s1 s2 s3 : shorter s1 s2 → shorter s2 s3 → shorter s1 s3.
Proof. intros [? ?] [? ?]. split; [done|lia]. Qed.
Lemma shorter_space s s' : shorter s s' → shorter s (skip_space s').
Proof. intros [H1 H2]. pose proof (space_length s'). split; [by apply rest_space|lia]. Qed.

Lemma gettoken_ok s : rest s → ensures (gettoken es) s (λ '(tok, w) s',
  shorter s s' ∧ (tok = 97 → tok_ok w) ∧ (tok ≠ 0 ∨ hd 0 (skip_space s) ≠ 0 → (length s' < length s)%nat)).
Proof.
  intros Hr. unfold ensures, gettoken. pose proof (token_spec (skip_space s) (rest_space s Hr) (space_hd s)) as Ht.
  destruct (token (skip_space s)) as [ret eq] eqn:Et. destruct Ht as ([H1 H1'] & H2 & H3 & H4). pose proof (space_length s). pose proof (space_length eq).
  split_and!; [apply shorter_space; split; [done|lia]|done|]. intros H5.
  assert (hd 0 (skip_space s) ≠ 0) as H6.
  { destruct H5 as [H5|H5]; [|done]. intros E. unfold token in Et. rewrite E in Et. simpl in Et. congruence. }
  specialize (H3 H6). lia.
Qed.

Lemma peek_ok toks s : rest s → ensures (peek toks) s (λ b s', shorter s s' ∧ (b = true → hd 0 (skip_space s') ≠ 0)).
Proof.
  intros Hr. unfold ensures, peek. split; [apply shorter_space; by split|]. rewrite space_space. intros E. lia.
Qed.

Lemma wf_redir c w tok : wf c → tok_ok w →
  wf (if tok =? 60 then REDIR c w O_RDONLY 0
      else if tok =? 62 then REDIR c w (Z.lor (Z.lor O_WRONLY O_CREATE) O_TRUNC) 1
      else if tok =? 43 then REDIR c w (Z.lor O_WRONLY O_CREATE) 1 else c).
Proof. intros Hc Hw. destruct (tok =? 60); [simpl; tauto|]. destruct (tok =? 62); [simpl; tauto|]. destruct (tok =? 43); [simpl; tauto|done]. Qed.

Lemma parseredirs_ok c s (P : cmd ptr → Prop) : rest s → wf c → P c → (∀ c f m d, P c → P (REDIR c f m d)) →
  ensures (parseredirs es c) s (λ c' s', shorter s s' ∧ wf c' ∧ P c').
Proof.
  intros Hr Hc HP HPr. unfold parseredirs. eapply ensures_bind; [by apply (ensures_ret (length s) s (λ n s', n = length s ∧ s' = s))|].
  intros n s' [-> ->]. apply (ensures_loop _ _ (λ c' s', shorter s s' ∧ wf c' ∧ P c')); [|split_and!; try done; by split|lia].
  clear c Hc HP. intros c s1 ([Hr1 Hl1] & Hc & HP). unfold parseredirs_turn. eapply ensures_bind; [by apply (peek_ok (str "<>") s1)|].
  intros [|] s2 [Hs2 Hb]; [|apply ensures_ret; split_and!; try done; by eapply shorter_trans].
  eapply ensures_bind; [apply gettoken_ok, Hs2|]. intros [tok w] s3 (Hs3 & _ & Hlt).
  eapply ensures_bind; [apply gettoken_ok, Hs3|]. intros [tok' w'] s4 (Hs4 & Hw & _).
  destruct (negb (tok' =? 97)) eqn:E; [apply ensures_panic|]. apply ensures_ret.
  destruct Hs2 as [Hr2 Hl2], Hs3 as [Hr3 Hl3], Hs4 as [Hr4 Hl4]. specialize (Hlt (or_intror (Hb eq_refl))).
  split_and!; [split; [done|lia]|apply wf_redir; [done|apply Hw; lia]| |lia]. repeat case_match; auto.
Qed.

Lemma add_arg_ok w c argc : tok_ok w → wf c → simple argc c → argc + 1 < MAXARGS → wf (add_arg w c) ∧ simple (argc + 1) (add_arg w c).
Proof.
  intros Hw. induction c as [argv|c IH f m d| | |]; simpl; try done.
  - intros [H1 H2] <- Hlt. rewrite length_app. simpl. split_and!; [by apply Forall_app; split; [|constructor]|lia|lia].
  - intros (H1 & H2 & H3) Hs Hlt. destruct (IH H1 Hs Hlt). tauto.
Qed.

Lemma parseexec_ok s c : rest s → wf c → simple 0 c →
  ensures (k ← gets length; loop (S k) (parseexec_turn es) (0, c)) s (λ c' s', shorter s s' ∧ wf c').
Proof.
  intros Hr Hc Hs. eapply ensures_bind; [by apply (ensures_ret (length s) s (λ n s', n = length s ∧ s' = s))|].
  intros n s' [-> ->]. apply (ensures_loop _ _ (λ '(argc, c') s', shorter s s' ∧ wf c' ∧ simple argc c')); [|split_and!; try done; by split|lia].
  clear c Hc Hs. intros [argc c] s1 ([Hr1 Hl1] & Hc & Hs). unfold parseexec_turn. eapply ensures_bind; [by apply (peek_ok (str "|)&;") s1)|].
  intros [|] s2 [Hs2 _]; [apply ensures_ret; split; [by eapply shorter_trans|done]|].
  eapply ensures_bind; [apply gettoken_ok, Hs2|]. intros [tok w] s3 (Hs3 & Hw & Hlt).
  destruct (tok =? 0) eqn:E0; [apply ensures_ret; split; [|done]; eapply shorter_trans; [by split|]; by eapply shorter_trans|].
  destruct (negb (tok =? 97)) eqn:E; [apply ensures_panic|]. cbv zeta. destruct (argc + 1 >=? MAXARGS) eqn:E1; [apply ensures_panic|].
  destruct (add_arg_ok w c argc) as [Hw' Hs']; try done; [apply Hw; lia|lia|].
  eapply ensures_bind; [apply (parseredirs_ok _ s3 (simple (argc + 1))); [apply Hs3|done|done|done]|]. intros c' s4 (Hs4 & Hc4 & Hp4). apply ensures_ret.
  destruct Hs2 as [Hr2 Hl2], Hs3 as [Hr3 Hl3], Hs4 as [Hr4 Hl4]. assert (length s3 < length s2)%nat by (apply Hlt; left; lia).
  split_and!; [split; [done|lia]|done|done|lia].
Qed.

Lemma back_ok s c : rest s → wf c → ensures (k ← gets length; loop (S k) (back_turn es) c) s (λ c' s', shorter s s' ∧ wf c').
Proof.
  intros Hr Hc. eapply ensures_bind; [by apply (ensures_ret (length s) s (λ n s', n = length s ∧ s' = s))|].
  intros n s' [-> ->]. apply (ensures_loop _ _ (λ c' s', shorter s s' ∧ wf c')); [|split; [by split|done]|lia].
  clear c Hc. intros c s1 ([Hr1 Hl1] & Hc). unfold back_turn. eapply ensures_bind; [by apply (peek_ok (str "&") s1)|].
  intros [|] s2 [[Hr2 Hl2] Hb]; [|apply ensures_ret; split; [split; [done|lia]|done]].
  eapply ensures_bind; [by apply gettoken_ok|]. intros [tok w] s3 ([Hr3 Hl3] & _ & Hlt). apply ensures_ret.
  specialize (Hlt (or_intror (Hb eq_refl))). split_and!; [split; [done|lia]|done|lia].
Qed.

(** A token that peek has seen, and the rest of the line after it. *)
Lemma seen_ok {A} toks s (k : M (list Z) A) (k' : M (list Z) A) Q :
  rest s → (∀ s', rest s' → (length s' < length s)%nat → ensures k s' Q) → (∀ s', shorter s s' → ensures k' s' Q) →
  ensures (b ← peek toks; if b : bool then gettoken es;; k else k') s Q.
Proof.
  intros Hr Hk Hk'. eapply ensures_bind; [by apply (peek_ok toks s)|]. intros [|] s2 [[Hr2 Hl2] Hb]; [|by apply Hk'].
  eapply ensures_bind; [by apply gettoken_ok|]. intros [tok w] s3 ([Hr3 Hl3] & _ & Hlt). specialize (Hlt (or_intror (Hb eq_refl))). apply Hk; [done|lia].
Qed.

(** The grammar: with enough calls, every function returns a well-formed command or panics. *)
Definition parses (m : M (list Z) (cmd ptr)) (s : list Z) : Prop := ensures m s (λ c s', shorter s s' ∧ wf c).

Lemma grammar_ok n s : rest s →
  ((4 * length s + 4 ≤ n)%nat → parses (parseline es n) s) ∧ ((4 * length s + 3 ≤ n)%nat → parses (parsepipe es n) s) ∧
  ((4 * length s + 2 ≤ n)%nat → parses (parseexec es n) s) ∧ ((4 * length s + 1 ≤ n)%nat → parses (parseblock es n) s).
Proof.
  revert s. induction n as [|n IH]; intros s Hr; [split_and!; lia|].
  split_and!; intros Hn; cbn [parseline parsepipe parseexec parseblock]; unfold parses.
  - eapply ensures_bind; [apply (IH s Hr); lia|]. intros c s1 [[Hr1 Hl1] Hc].
    eapply ensures_bind2; [by apply (back_ok s1 c)|]. intros c2 s2 [[Hr2 Hl2] Hc2].
    apply seen_ok; [done| |intros s3 [Hr3 Hl3]; apply ensures_ret; split; [split; [done|lia]|done]].
    intros s3 Hr3 Hl3. eapply ensures_bind; [apply (IH s3 Hr3); lia|]. intros c4 s4 [[Hr4 Hl4] Hc4]. apply ensures_ret. split; [split; [done|lia]|done].
  - eapply ensures_bind; [apply (IH s Hr); lia|]. intros c s1 [[Hr1 Hl1] Hc].
    apply seen_ok; [done| |intros s3 [Hr3 Hl3]; apply ensures_ret; split; [split; [done|lia]|done]].
    intros s3 Hr3 Hl3. eapply ensures_bind; [apply (IH s3 Hr3); lia|]. intros c4 s4 [[Hr4 Hl4] Hc4]. apply ensures_ret. split; [split; [done|lia]|done].
  - eapply ensures_bind; [by apply (peek_ok (str "(") s)|]. intros [|] s1 [[Hr1 Hl1] _].
    + eapply ensures_weaken; [apply (IH s1 Hr1); lia|]. intros c s2 [[Hr2 Hl2] Hc]. split; [split; [done|lia]|done].
    + eapply ensures_bind; [apply (parseredirs_ok (EXEC []) s1 (simple 0)); [done|split; [constructor|done]|done|done]|].
      intros c s2 ([Hr2 Hl2] & Hc & Hs). eapply ensures_weaken; [by apply parseexec_ok|]. intros c' s3 [[Hr3 Hl3] Hc']. split; [split; [done|lia]|done].
  - eapply ensures_bind; [by apply (peek_ok (str "(") s)|]. intros b s1 [[Hr1 Hl1] Hb]. destruct b; [|apply ensures_panic]. cbn [negb].
    eapply ensures_bind; [by apply gettoken_ok|]. intros [tok w] s2 ([Hr2 Hl2] & _ & Hlt). specialize (Hlt (or_intror (Hb eq_refl))).
    eapply ensures_bind; [apply (IH s2 Hr2); lia|]. intros c s3 [[Hr3 Hl3] Hc].
    eapply ensures_bind; [by apply (peek_ok (str ")") s3)|]. intros b s4 [[Hr4 Hl4] Hb4]. destruct b; [|apply ensures_panic]. cbn [negb].
    eapply ensures_bind; [by apply gettoken_ok|]. intros [tok' w'] s5 ([Hr5 Hl5] & _ & _).
    eapply ensures_weaken; [by apply (parseredirs_ok c s5 (λ _, True))|]. intros c' s6 ([Hr6 Hl6] & Hc' & _). split; [split; [done|lia]|done].
Qed.

(** ** The strings of a command *)

Fixpoint words {W} (c : cmd W) : list W :=
  match c with
  | EXEC argv => argv
  | REDIR c file _ _ => words c ++ [file]
  | PIPE l r | LIST l r => words l ++ words r
  | BACK c => words c
  end.
Fixpoint cmd_map {V W} (f : V → W) (c : cmd V) : cmd W :=
  match c with
  | EXEC argv => EXEC (f <$> argv)
  | REDIR c file mode fd => REDIR (cmd_map f c) (f file) mode fd
  | PIPE l r => PIPE (cmd_map f l) (cmd_map f r)
  | LIST l r => LIST (cmd_map f l) (cmd_map f r)
  | BACK c => BACK (cmd_map f c)
  end.

(** The bytes of a word, and the C string that a pointer to its start gives. *)
Definition lexeme (l : list Z) (w : ptr) : list Z := take (Z.to_nat (w.2 - w.1)) (drop (Z.to_nat w.1) l).
Definition string_of (l : list Z) (w : ptr) : list Z := until0 (drop (Z.to_nat w.1) l).

Definition cut (ws : list ptr) (l : list Z) : list Z := foldl (λ l '(_, eq), <[Z.to_nat eq := 0]> l) l ws.

Lemma nulterminate_cut c l : nulterminate c l = cut (words c) l.
Proof.
  revert l. induction c as [argv|c IH [q eq] m d|c1 IH1 c2 IH2|c1 IH1 c2 IH2|c IH]; intros l; simpl; [done| | | |done].
  - unfold cut. rewrite foldl_app. simpl. f_equal. apply IH.
  - rewrite IH1, IH2. unfold cut. by rewrite foldl_app.
  - rewrite IH1, IH2. unfold cut. by rewrite foldl_app.
Qed.

Lemma cut_lookup ws l i : (i < length l)%nat →
  cut ws l !! i = if decide (Exists (λ w, Z.to_nat w.2 = i) ws) then Some 0 else l !! i.
Proof.
  revert l. induction ws as [|[q eq] ws IH]; intros l Hi; [done|]. unfold cut in *. simpl. rewrite IH by (rewrite length_insert; lia).
  assert (Exists (λ w : ptr, Z.to_nat w.2 = i) ((q, eq) :: ws) ↔ Z.to_nat eq = i ∨ Exists (λ w : ptr, Z.to_nat w.2 = i) ws) as E by apply Exists_cons.
  case_decide as H; [rewrite decide_True by (apply E; by right); done|]. destruct (decide (Z.to_nat eq = i)) as [<-|Hne].
  - rewrite list_lookup_insert_eq by lia. rewrite decide_True by (apply E; by left). done.
  - rewrite list_lookup_insert_ne by done. rewrite decide_False; [done|]. by intros [?|?]%E.
Qed.

Lemma wf_words c : wf c → Forall tok_ok (words c).
Proof.
  induction c as [argv|c IH f m d|c1 IH1 c2 IH2|c1 IH1 c2 IH2|c IH]; simpl; [tauto| | | |done].
  - intros (H1 & H2 & _). apply Forall_app. split; [by apply IH|by constructor].
  - intros [H1 H2]. apply Forall_app. split; [by apply IH1|by apply IH2].
  - intros [H1 H2]. apply Forall_app. split; [by apply IH1|by apply IH2].
Qed.

(** No word ends inside another, so the zeroes leave every word as it was. *)
Lemma cut_string ws w : Forall tok_ok ws → w ∈ ws → string_of (cut ws (line ++ [0])) w = lexeme line w.
Proof.
  intros Hws Hw. pose proof (proj1 (Forall_forall _ _) Hws w Hw) as [Hr Hin _]. set (b := cut ws (line ++ [0])).
  assert (∀ i, (i < length line)%nat → Z.of_nat i < w.2 → w.1 ≤ Z.of_nat i → b !! i = line !! i) as Hb.
  { intros i Hi Hi2 Hi1. unfold b. rewrite cut_lookup by (rewrite length_app; lia). rewrite decide_False; [by apply lookup_app_l|].
    intros ([q eq] & Hq & He)%Exists_exists. pose proof (proj1 (Forall_forall _ _) Hws _ Hq) as [Hr' _ [E|E]]; simpl in *; [lia|].
    specialize (Hin eq ltac:(lia)). congruence. }
  assert (b !! Z.to_nat w.2 = Some 0) as He.
  { unfold b. rewrite cut_lookup by (rewrite length_app; simpl; lia). rewrite decide_True; [done|]. apply Exists_exists. by exists w. }
  unfold string_of. assert (drop (Z.to_nat w.1) b = lexeme line w ++ drop (Z.to_nat w.2) b) as ->.
  { rewrite <- (take_drop (Z.to_nat (w.2 - w.1)) (drop (Z.to_nat w.1) b)). rewrite drop_drop.
    replace (Z.to_nat w.1 + Z.to_nat (w.2 - w.1))%nat with (Z.to_nat w.2) by lia. f_equal. unfold lexeme. apply list_eq. intros i.
    destruct (decide (i < Z.to_nat (w.2 - w.1))%nat).
    - rewrite !lookup_take_lt, !lookup_drop by done. apply Hb; lia.
    - by rewrite !lookup_take_ge by lia. }
  rewrite until0_app by (unfold lexeme; by apply Forall_take, Forall_drop). rewrite (drop_S _ 0 _ He). simpl. apply app_nil_r.
Qed.

Lemma cmd_map_ext {V W} (f g : V → W) c : Forall (λ w, f w = g w) (words c) → cmd_map f c = cmd_map g c.
Proof.
  induction c as [argv|c IH w m d|c1 IH1 c2 IH2|c1 IH1 c2 IH2|c IH]; simpl; rewrite ?Forall_app, ?Forall_singleton.
  - intros H. f_equal. apply list_fmap_ext. intros i w Hw. by apply (Forall_lookup_1 _ _ _ _ H Hw).
  - intros [H1 H2]. by rewrite IH, H2.
  - intros [H1 H2]. by rewrite IH1, IH2.
  - intros [H1 H2]. by rewrite IH1, IH2.
  - intros H. by rewrite IH.
Qed.
End wf.

(** ** The command of a line *)

Lemma parsecmd_ensures line s : Forall (λ c, c ≠ 0) line →
  ensures (parsecmd line) s (λ '(c, line') _, wf line c ∧ line' = nulterminate c (line ++ [0])).
Proof.
  intros Hline. unfold parsecmd. eapply (ensures_bind _ _ _ (λ _ s', s' = line)); [done|]. intros _ ? ->.
  assert (rest line line) as Hr by (by exists []).
  eapply ensures_bind; [apply (grammar_ok line _ line Hr); lia|]. intros c s1 [[Hr1 _] Hc].
  eapply ensures_bind; [apply (peek_ok line [] s1 Hr1)|]. intros b s2 _.
  eapply (ensures_bind _ _ _ (λ _ _, True)); [done|]. intros s3 s4 _. destruct (0 <? length s3)%nat; [done|]. by apply ensures_ret.
Qed.

(** Parsing a line always terminates, and with a well-formed command or a panic for a
    syntax error: every word is a longest run of word bytes inside the line, no command has
    MAXARGS arguments or more, and every redirection has a mode and a descriptor of the
    three that the grammar knows.  After nulterminate the C strings of the command, which
    start at its pointers, are exactly the words of the line as it was typed: no zero that
    ends one word falls inside another. *)
Theorem parsecmd_well_formed line s : Forall (λ c, c ≠ 0) line →
  ensures (parsecmd line) s (λ '(c, line') _, wf line c ∧ cmd_map (string_of line') c = cmd_map (lexeme line) c).
Proof.
  intros Hline. eapply ensures_weaken; [by apply parsecmd_ensures|]. intros [c line'] _ [Hc ->]. split; [done|].
  apply cmd_map_ext. rewrite nulterminate_cut. pose proof (wf_words line c Hc) as Hws. apply Forall_forall. intros w Hw. by apply cut_string.
Qed.
