(* ===== verification/ShGrammar.v ===== *)
(** * The language of the shell's command lines: user/sh.c against a grammar

    A reference lexer and a grammar, both independent of the parser: the tokens of a line,
    and the commands that the tokens stand for.  The parser accepts the lines of the
    grammar and no others, and builds the command of the grammar. *)
From stdpp Require Import list.
From S2P Require Import Prelude Mem Kstate Console FsPath File Sh.
Open Scope Z_scope.

(** ** Tokens *)

(** A word, one of the symbols, or the two bytes of an appending redirection. *)
Inductive tok :=
| Word (w : list Z)
| Sym (c : Z)
| Append.

(** The tokens of a line, byte by byte: spaces separate, a symbol stands for itself, and
    word bytes next to each other are one word. *)
Fixpoint lex (s : list Z) : list tok :=
  match s with
  | [] => []
  | c :: s' =>
      if among whitespace c then lex s'
      else if c =? 62 then
        match s' with
        | d :: s'' => if d =? 62 then Append :: lex s'' else Sym 62 :: lex s'
        | [] => [Sym 62]
        end
      else if among symbols c then Sym c :: lex s'
      else if match s' with d :: _ => wordchar d | [] => false end then
        match lex s' with Word w :: ts => Word (c :: w) :: ts | ts => Word [c] :: ts end
      else Word [c] :: lex s'
  end.

(** ** The grammar *)

Inductive rop := RIn | ROut | RApp.
Definition redir (op : rop) (f : list Z) (c : cmd (list Z)) : cmd (list Z) :=
  match op with
  | RIn => REDIR c f O_RDONLY 0
  | ROut => REDIR c f (Z.lor (Z.lor O_WRONLY O_CREATE) O_TRUNC) 1
  | RApp => REDIR c f (Z.lor O_WRONLY O_CREATE) 1
  end.
Definition rtok (op : rop) : tok := match op with RIn => Sym 60 | ROut => Sym 62 | RApp => Append end.

(** A simple command is a sequence of arguments and redirections, in any order; the first
    redirection is the innermost. *)
Definition item : Type := list Z + rop * list Z.
Definition item_toks (i : item) : list tok := match i with inl w => [Word w] | inr (op, f) => [rtok op; Word f] end.
Definition itoks (l : list item) : list tok := l ≫= item_toks.
Definition item_args (l : list item) : list (list Z) := omap (λ i, match i with inl w => Some w | inr _ => None end) l.
Definition item_redirs (l : list item) : list (rop * list Z) := omap (λ i, match i with inl _ => None | inr r => Some r end) l.
Definition wraps (rs : list (rop * list Z)) (c : cmd (list Z)) : cmd (list Z) := foldl (λ c '(op, f), redir op f c) c rs.
Definition simple_cmd (l : list item) : cmd (list Z) := wraps (item_redirs l) (EXEC (item_args l)).

(** line ::= pipe &* | pipe &* ; line      pipe ::= exec | exec '|' pipe
    exec ::= (arg | redir)* | '(' line ')' redir*, with fewer than MAXARGS arguments. *)
Inductive gline : list tok → cmd (list Z) → Prop :=
| g_line ts c k : gpipe ts c → gline (ts ++ replicate k (Sym 38)) (Nat.iter k BACK c)
| g_list ts c k ts' c' : gpipe ts c → gline ts' c' → gline (ts ++ replicate k (Sym 38) ++ Sym 59 :: ts') (LIST (Nat.iter k BACK c) c')
with gpipe : list tok → cmd (list Z) → Prop :=
| g_pipe1 ts c : gexec ts c → gpipe ts c
| g_pipe ts c ts' c' : gexec ts c → gpipe ts' c' → gpipe (ts ++ Sym 124 :: ts') (PIPE c c')
with gexec : list tok → cmd (list Z) → Prop :=
| g_simple l : Z.of_nat (length (item_args l)) < MAXARGS → gexec (itoks l) (simple_cmd l)
| g_block ts c rs : gline ts c → gexec (Sym 40 :: ts ++ Sym 41 :: itoks (inr <$> rs)) (wraps rs c).

Scheme gline_mut := Induction for gline Sort Prop
with gpipe_mut := Induction for gpipe Sort Prop
with gexec_mut := Induction for gexec Sort Prop.
Combined Scheme grammar_mut from gline_mut, gpipe_mut, gexec_mut.

(** The command that a line stands for. *)
Definition command_of (line : list Z) (c : cmd (list Z)) : Prop := gline (lex line) c.

(** ** Lemmas on the lexer *)

(** The byte that peek sees at a token, and what gettoken returns for it. *)
Definition first (t : tok) : Z := match t with Word _ => 97 | Sym c => c | Append => 62 end.
Definition kind (t : tok) : Z := match t with Word _ => 97 | Sym c => c | Append => 43 end.
Definition starts (toks : list Z) (ts : list tok) : bool := match ts with t :: _ => among toks (first t) | [] => false end.

Fixpoint take_word (s : list Z) : list Z :=
  match s with
  | c :: s' => if wordchar c then c :: take_word s' else []
  | [] => []
  end.
Lemma take_skip_word s : take_word s ++ skip_word s = s.
Proof. induction s as [|c s IH]; [done|]. simpl. destruct (wordchar c); [|done]. simpl. by rewrite IH. Qed.

Lemma wordchar_split c : wordchar c = true → among whitespace c = false ∧ (c =? 62) = false ∧ among symbols c = false.
Proof. unfold wordchar. intros H. apply andb_true_iff in H as [H1 H2]. split_and!; [by destruct (among whitespace c)| |by destruct (among symbols c)].
  destruct (c =? 62) eqn:E; [|done]. apply Z.eqb_eq in E. subst. discriminate. Qed.

Lemma lex_word c s : wordchar c = true → lex (c :: s) = Word (c :: take_word s) :: lex (skip_word s).
Proof.
  revert c. induction s as [|d s IH]; intros c Hc; destruct (wordchar_split c Hc) as (H1 & H2 & H3).
  - simpl. by rewrite H1, H2, H3.
  - cbn [lex]. rewrite H1, H2, H3. cbn [take_word skip_word]. destruct (wordchar d) eqn:Ed; [|done].
    pose proof (IH d Ed) as E. cbn [lex] in E. by rewrite E.
Qed.

Lemma lex_space s : lex (skip_space s) = lex s.
Proof. induction s as [|c s IH]; [done|]. simpl. destruct (among whitespace c) eqn:E; [done|]. simpl. by rewrite E. Qed.

(** Only symbols are symbols. *)
Lemma lex_syms s : Forall (λ t, match t with Sym c => among symbols c = true | _ => True end) (lex s).
Proof.
  cut (∀ n s, (length s ≤ n)%nat → Forall (λ t, match t with Sym c => among symbols c = true | _ => True end) (lex s)); [by eauto|].
  induction n as [|n IH]; intros [|c s'] Hl; try (simpl in Hl; lia); try constructor. simpl in Hl. cbn [lex]. destruct (among whitespace c); [apply IH; lia|].
  destruct (c =? 62). { destruct s' as [|d s'']; [by constructor|]. destruct (d =? 62); constructor; try done; apply IH; simpl in *; lia. }
  destruct (among symbols c) eqn:E; [constructor; [done|apply IH; lia]|]. pose proof (IH s' ltac:(lia)) as H.
  destruct (match s' with d :: _ => wordchar d | [] => false end); [|by constructor].
  destruct (lex s') as [|[w|x|] ts]; constructor; try done. by inversion H.
Qed.
Lemma lex_word_kind s t ts : lex s = t :: ts → kind t = 97 → ∃ w, t = Word w.
Proof.
  intros E Hk. pose proof (lex_syms s) as H. rewrite E in H. inversion H as [|? ? Ht _]; subst. destruct t as [w|c|]; [by eauto| |done].
  simpl in Hk. subst. discriminate.
Qed.

Section line.
Variable line : list Z.
Hypothesis Hline : Forall (λ c, c ≠ 0) line.
Abbreviation es := (Z.of_nat (length line)).
Abbreviation rest := (rest line).

Lemma rest_nonzero c s : rest (c :: s) → c ≠ 0.
Proof. intros [pre E]. rewrite E in Hline. apply Forall_app in Hline as [_ H]. by inversion H. Qed.

(** The first token at a byte that is not a space. *)
Lemma lex_head c s : among whitespace c = false → ∃ t ts, lex (c :: s) = t :: ts ∧
  (if among symbols c then first t = c else ∃ w, t = Word w).
Proof.
  intros Hc. destruct (wordchar c) eqn:Ew.
  - rewrite lex_word by done. destruct (wordchar_split c Ew) as (_ & _ & ->). by eauto.
  - assert (among symbols c = true) as Hs by (unfold wordchar in Ew; rewrite Hc in Ew; by destruct (among symbols c)).
    cbn [lex]. rewrite Hc, Hs. destruct (c =? 62) eqn:E; [|by eauto]. apply Z.eqb_eq in E. subst.
    destruct s as [|d s]; [by eauto|]. destruct (d =? 62); by eauto.
Qed.

Definition symbolic (toks : list Z) : Prop := ∀ c, among toks c = true → among symbols c = true.

Lemma peek_lex toks s : rest s → symbolic toks →
  peek toks s = Ok (starts toks (lex s)) (skip_space s) ∧ lex (skip_space s) = lex s ∧ rest (skip_space s).
Proof.
  intros Hr Ht. pose proof (rest_space line s Hr) as Hr'. split_and!; [|apply lex_space|done]. unfold peek. f_equal.
  rewrite <- (lex_space s). pose proof (space_hd s) as Hw. destruct (skip_space s) as [|c q] eqn:E; [done|]. simpl hd in *.
  pose proof (rest_nonzero c q Hr') as H0. replace (c =? 0) with false by lia. cbn [negb andb].
  destruct (lex_head c q Hw) as (t & ts & -> & Hf). cbn [starts]. destruct (among symbols c) eqn:Es; [by rewrite Hf|].
  destruct Hf as [w ->]. cbn [first]. destruct (among toks c) eqn:E1; [by rewrite Ht in Es|].
  destruct (among toks 97) eqn:E2; [|done]. by apply Ht in E2.
Qed.

Definition kinds (ts : list tok) : Z := match ts with t :: _ => kind t | [] => 0 end.

Lemma lexeme_word q : rest q → lexeme line (at_ es q, at_ es (skip_word q)) = take_word q.
Proof.
  intros [pre E]. unfold lexeme, at_. simpl. pose proof (take_skip_word q) as Hq. apply (f_equal length) in Hq as Hl. rewrite length_app in Hl.
  assert (drop (Z.to_nat (es - Z.of_nat (length q))) line = q) as -> by (rewrite E, length_app; rewrite drop_app_length'; [done|lia]).
  assert (length q ≤ length line)%nat by (rewrite E, length_app; lia).
  replace (Z.to_nat _) with (length (take_word q)) by lia. rewrite <- Hq at 2. by apply take_app_length'.
Qed.

Lemma gettoken_lex s : rest s → ∃ w s', gettoken es s = Ok (kinds (lex s), w) s' ∧ rest s' ∧ lex s' = tail (lex s) ∧
  (∀ x ts, lex s = Word x :: ts → lexeme line w = x).
Proof.
  intros Hr. unfold gettoken. rewrite <- (lex_space s). pose proof (rest_space line s Hr) as Hr'. pose proof (space_hd s) as Hw.
  set (q := skip_space s) in *. clearbody q. destruct q as [|c q]; [by eexists _, []|]. simpl hd in Hw.
  pose proof (rest_nonzero c q Hr') as H0. pose proof (rest_tail line c q Hr') as Hq. unfold token. simpl hd. replace (c =? 0) with false by lia.
  assert (∀ s', rest s' → lex (skip_space s') = lex s' ∧ rest (skip_space s')) as Hsp by (intros; split; [apply lex_space|by apply rest_space]).
  destruct (among (str "|();&<") c) eqn:Es.
  { assert (lex (c :: q) = Sym c :: lex q) as ->.
    { cbn [lex]. rewrite Hw. replace (c =? 62) with false by (unfold among in Es; simpl in Es; lia).
      by replace (among symbols c) with true by (unfold among in *; simpl in *; lia). }
    eexists _, _. split; [reflexivity|]. destruct (Hsp q Hq) as [E1 E2]. split_and!; [exact E2|exact E1|done]. }
  destruct (c =? 62) eqn:Eg.
  { apply Z.eqb_eq in Eg. subst c. cbn [tail]. cbn [lex]. rewrite Hw. cbn [Z.eqb Pos.eqb]. destruct q as [|d q].
    - eexists _, _. split; [reflexivity|]. by split_and!.
    - simpl hd. destruct (d =? 62) eqn:Ed.
      + eexists _, _. split; [reflexivity|]. destruct (Hsp q (rest_tail line d q Hq)) as [E1 E2]. split_and!; [exact E2|exact E1|done].
      + eexists _, _. split; [reflexivity|]. destruct (Hsp (d :: q) Hq) as [E1 E2]. split_and!; [exact E2|exact E1|done]. }
  assert (wordchar c = true) as Hc.
  { unfold wordchar. rewrite Hw. unfold among in *. simpl in *. lia. }
  rewrite lex_word by done. eexists _, _. split; [reflexivity|].
  destruct (Hsp (skip_word (c :: q)) (rest_word line _ Hr')) as [E1 E2]. split_and!; [exact E2|rewrite E1; cbn [skip_word tail]; by rewrite Hc|].
  intros x ts [= <- _]. pose proof (lexeme_word (c :: q) Hr') as E. cbn [take_word] in E. rewrite Hc in E. exact E.
Qed.

(** ** Redirections *)

Abbreviation cm := (cmd_map (lexeme line)).

Lemma wraps_snoc rs op f c : wraps (rs ++ [(op, f)]) c = redir op f (wraps rs c).
Proof. unfold wraps. by rewrite foldl_app. Qed.

Lemma rtok_starts op ts : starts (str "<>") (rtok op :: ts) = true.
Proof. by destruct op. Qed.
Lemma starts_rtok t ts : starts (str "<>") (t :: ts) = true → t = Append ∨ t = Sym 60 ∨ t = Sym 62.
Proof.
  destruct t as [w|c|]; [done| |by left]. unfold starts, first, among. simpl. intros H. right. assert (c = 60 ∨ c = 62) as [-> | ->] by lia; auto.
Qed.

(** A turn of parseredirs, by the tokens ahead. *)
Lemma redirs_turn_none c s : rest s → starts (str "<>") (lex s) = false →
  parseredirs_turn es c s = Ok (inr c) (skip_space s) ∧ lex (skip_space s) = lex s ∧ rest (skip_space s).
Proof.
  intros Hr Hs. destruct (peek_lex (str "<>") s Hr) as (Hp & Hl & Hr'); [intros x; unfold among; simpl; lia|].
  split_and!; [|done|done]. unfold parseredirs_turn. rewrite (bind_ok _ _ _ _ _ Hp), Hs. done.
Qed.

Lemma redirs_turn_some op c s x ts : rest s → lex s = rtok op :: Word x :: ts →
  ∃ c' s', parseredirs_turn es c s = Ok (inl c') s' ∧ rest s' ∧ lex s' = ts ∧ cm c' = redir op x (cm c).
Proof.
  intros Hr Hs. destruct (peek_lex (str "<>") s Hr) as (Hp & Hl & Hr1); [intros y; unfold among; simpl; lia|].
  destruct (gettoken_lex (skip_space s) Hr1) as (w1 & s1 & H1 & Hr2 & Hl2 & _). rewrite Hl, Hs in H1, Hl2. simpl in Hl2.
  destruct (gettoken_lex s1 Hr2) as (w & s2 & H2 & Hr3 & Hl3 & Hw). rewrite Hl2 in H2, Hl3, Hw. simpl in Hl3.
  eexists _, s2. split.
  - unfold parseredirs_turn. rewrite (bind_ok _ _ _ _ _ Hp), Hs, rtok_starts. rewrite (bind_ok _ _ _ _ _ H1). cbv beta iota.
    rewrite (bind_ok _ _ _ _ _ H2). reflexivity.
  - split_and!; [done|done|]. pose proof (Hw x ts eq_refl) as E. destruct op; simpl; by rewrite E.
Qed.

Lemma redirs_turn_inv c s r s' : rest s → parseredirs_turn es c s = Ok r s' →
  rest s' ∧ ((r = inr c ∧ lex s' = lex s ∧ starts (str "<>") (lex s) = false) ∨
    ∃ op x c', lex s = rtok op :: Word x :: lex s' ∧ r = inl c' ∧ cm c' = redir op x (cm c)).
Proof.
  intros Hr Ht. destruct (starts (str "<>") (lex s)) eqn:Hst.
  2:{ destruct (redirs_turn_none c s Hr Hst) as (H1 & H2 & H3). rewrite H1 in Ht. injection Ht as <- <-. auto. }
  destruct (lex s) as [|t ts] eqn:El; [done|].
  assert (∃ op, t = rtok op) as [op ->] by (destruct (starts_rtok t ts Hst) as [-> |[-> | ->]]; [by exists RApp|by exists RIn|by exists ROut]).
  assert (∃ x ts', ts = Word x :: ts') as (x & ts' & ->).
  { destruct (peek_lex (str "<>") s Hr) as (Hp & Hl & Hr1); [intros y; unfold among; simpl; lia|].
    destruct (gettoken_lex (skip_space s) Hr1) as (w1 & s1 & H1 & Hr2 & Hl2 & _). rewrite Hl, El in H1, Hl2. simpl in Hl2.
    destruct (gettoken_lex s1 Hr2) as (w & s2 & H2 & _). rewrite Hl2 in H2. unfold parseredirs_turn in Ht.
    rewrite (bind_ok _ _ _ _ _ Hp), El, Hst, (bind_ok _ _ _ _ _ H1) in Ht. cbv beta iota in Ht. rewrite (bind_ok _ _ _ _ _ H2) in Ht. cbv beta iota in Ht.
    destruct (kinds ts =? 97) eqn:Ek; [|discriminate Ht]. destruct ts as [|t ts]; [discriminate Ek|].
    destruct (lex_word_kind s1 t ts Hl2) as [x ->]; [simpl in Ek; lia|]. by eauto. }
  destruct (redirs_turn_some op c s x ts' Hr El) as (c' & s2 & H1 & H2 & H3 & H4). rewrite H1 in Ht. injection Ht as <- <-. rewrite H3.
  split; [done|right]. by exists op, x, c'.
Qed.

Lemma redirs_sound fuel c s c' s' : rest s → loop fuel (parseredirs_turn es) c s = Ok c' s' →
  ∃ rs, lex s = itoks (inr <$> rs) ++ lex s' ∧ rest s' ∧ cm c' = wraps rs (cm c) ∧ starts (str "<>") (lex s') = false.
Proof.
  revert c s. induction fuel as [|fuel IH]; intros c s Hr H; [done|]. cbn [loop] in H. apply bind_ok_inv in H as (r & s1 & H1 & H).
  destruct (redirs_turn_inv c s r s1 Hr H1) as [Hr1 [(-> & Hl & Hs)|(op & x & c1 & Hl & -> & Hc)]].
  - injection H as <- <-. exists []. rewrite Hl. by split_and!.
  - destruct (IH c1 s1 Hr1 H) as (rs & H2 & H3 & H4 & H5). exists ((op, x) :: rs). rewrite Hl, H2. split_and!; [done|done| |done].
    rewrite H4, Hc. done.
Qed.

(** The loop does what is asked of it, if it does not run out of turns. *)
Definition does {A} (o : outcome (list Z) A) (Q : A → list Z → Prop) : Prop :=
  match o with Ok a s => rest s ∧ Q a s | NoFuel => True | _ => False end.

Lemma does_bind {A B} (m : M (list Z) A) (k : A → M (list Z) B) s Q P :
  does (m s) P → (∀ a s', rest s' → P a s' → does (k a s') Q) → does ((m ≫= k) s) Q.
Proof. unfold mbind, M_bind. destruct (m s); simpl; try done. intros [H1 H2] Hk. by apply Hk. Qed.

Lemma redirs_complete fuel c s rs ts : rest s → lex s = itoks (inr <$> rs) ++ ts → starts (str "<>") ts = false →
  does (loop fuel (parseredirs_turn es) c s) (λ c' s', lex s' = ts ∧ cm c' = wraps rs (cm c)).
Proof.
  revert fuel c s. induction rs as [|[op x] rs IH]; intros fuel c s Hr Hl Hs; (destruct fuel as [|fuel]; [done|]); cbn [loop].
  - simpl in Hl. rewrite <- Hl in Hs. destruct (redirs_turn_none c s Hr Hs) as (H1 & H2 & H3). rewrite (bind_ok _ _ _ _ _ H1). simpl.
    split; [done|]. by rewrite H2.
  - destruct (redirs_turn_some op c s x _ Hr Hl) as (c' & s' & H1 & H2 & H3 & H4).
    rewrite (bind_ok _ _ _ _ _ H1). specialize (IH fuel c' s' H2 H3 Hs). rewrite H4 in IH. exact IH.
Qed.

(** ** Simple commands *)

Lemma itoks_app l1 l2 : itoks (l1 ++ l2) = itoks l1 ++ itoks l2.
Proof. apply bind_app. Qed.
Lemma item_args_app l1 l2 : item_args (l1 ++ l2) = item_args l1 ++ item_args l2.
Proof. apply omap_app. Qed.
Lemma item_redirs_app l1 l2 : item_redirs (l1 ++ l2) = item_redirs l1 ++ item_redirs l2.
Proof. apply omap_app. Qed.
Lemma item_args_redirs rs : item_args (inr <$> rs) = [].
Proof. by induction rs. Qed.
Lemma item_redirs_redirs rs : item_redirs (inr <$> rs) = rs.
Proof. induction rs as [|r rs IH]; [done|]. rewrite fmap_cons. change (r :: item_redirs (inr <$> rs) = r :: rs). by rewrite IH. Qed.

Lemma simple_redirs l rs : simple_cmd (l ++ (inr <$> rs)) = wraps rs (simple_cmd l).
Proof. unfold simple_cmd. rewrite item_redirs_app, item_args_app, item_args_redirs, item_redirs_redirs, app_nil_r. unfold wraps. by rewrite foldl_app. Qed.

Lemma add_arg_wraps w ret rs a : cm ret = wraps rs (EXEC a) → cm (add_arg w ret) = wraps rs (EXEC (a ++ [lexeme line w])).
Proof.
  revert ret. induction rs as [|[op x] rs IH] using rev_ind; intros ret H.
  - destruct ret; simpl in *; try done. injection H as <-. by rewrite fmap_app.
  - rewrite wraps_snoc in *. destruct ret as [|c f m d| | |], op; simpl in *; try done; injection H as H <- <- <-; by rewrite (IH _ H).
Qed.

Lemma add_arg_simple w ret l : cm ret = simple_cmd l → cm (add_arg w ret) = simple_cmd (l ++ [inl (lexeme line w)]).
Proof.
  intros H. unfold simple_cmd. rewrite item_redirs_app, item_args_app, app_nil_r. by apply add_arg_wraps.
Qed.

(** What may follow a simple command: nothing, or one of four symbols. *)
Definition ends (ts : list tok) : Prop := ts = [] ∨ starts (str "|)&;") ts = true.
Abbreviation nargs l := (Z.of_nat (length (item_args l))).

Lemma exec_symbolic : symbolic (str "|)&;").
Proof. intros x. unfold among. simpl. lia. Qed.

(** A turn of parseexec's loop at the end of the command, and at an argument. *)
Lemma exec_turn_end argc ret s : rest s → ends (lex s) →
  ∃ s', parseexec_turn es (argc, ret) s = Ok (inr ret) s' ∧ rest s' ∧ lex s' = lex s.
Proof.
  intros Hr He. destruct (peek_lex (str "|)&;") s Hr exec_symbolic) as (Hp & Hl & Hr1). unfold parseexec_turn. rewrite (bind_ok _ _ _ _ _ Hp).
  destruct He as [E|E]; [|rewrite E; by eexists]. rewrite E. cbn [starts].
  destruct (gettoken_lex (skip_space s) Hr1) as (w & s1 & H1 & Hr2 & Hl2 & _). rewrite Hl, E in H1, Hl2.
  rewrite (bind_ok _ _ _ _ _ H1). exists s1. by split_and!.
Qed.

Lemma exec_turn_word argc ret s x ts : rest s → lex s = Word x :: ts →
  ∃ w s1, rest s1 ∧ lex s1 = ts ∧ lexeme line w = x ∧
    parseexec_turn es (argc, ret) s =
      (if argc + 1 >=? MAXARGS then panic "too many args" else ret ← parseredirs es (add_arg w ret); mret (inl (argc + 1, ret))) s1.
Proof.
  intros Hr El. destruct (peek_lex (str "|)&;") s Hr exec_symbolic) as (Hp & Hl & Hr1).
  destruct (gettoken_lex (skip_space s) Hr1) as (w & s1 & H1 & Hr2 & Hl2 & Hw). rewrite Hl, El in H1, Hl2, Hw.
  exists w, s1. split_and!; [done|done|by eapply Hw|]. unfold parseexec_turn. rewrite (bind_ok _ _ _ _ _ Hp), El. cbn [starts first].
  change (among (str "|)&;") 97) with false. cbv iota. by rewrite (bind_ok _ _ _ _ _ H1).
Qed.

Lemma exec_turn_inv argc ret s r s' : rest s → parseexec_turn es (argc, ret) s = Ok r s' → ends (lex s) ∨ ∃ x ts, lex s = Word x :: ts.
Proof.
  intros Hr Ht. destruct (peek_lex (str "|)&;") s Hr exec_symbolic) as (Hp & Hl & Hr1).
  destruct (gettoken_lex (skip_space s) Hr1) as (w & s1 & H1 & _). rewrite Hl in H1. unfold parseexec_turn in Ht.
  rewrite (bind_ok _ _ _ _ _ Hp) in Ht. destruct (starts (str "|)&;") (lex s)) eqn:Es; [left; by right|].
  rewrite (bind_ok _ _ _ _ _ H1) in Ht. cbv beta iota in Ht. destruct (lex s) as [|t ts] eqn:El; [left; by left|right].
  destruct (kinds (t :: ts) =? 0) eqn:E0.
  { exfalso. pose proof (lex_syms s) as H. rewrite El in H. inversion H as [|? ? Hs _]; subst. destruct t as [|c|]; simpl in *; try lia.
    assert (c = 0) as -> by lia. discriminate. }
  destruct (kinds (t :: ts) =? 97) eqn:Ek; [|discriminate Ht]. destruct (lex_word_kind s t ts El) as [x ->]; [simpl in Ek; lia|]. by eauto.
Qed.

Lemma parseredirs_sound c s c' s' : rest s → parseredirs es c s = Ok c' s' →
  ∃ rs, lex s = itoks (inr <$> rs) ++ lex s' ∧ rest s' ∧ cm c' = wraps rs (cm c) ∧ starts (str "<>") (lex s') = false.
Proof. intros Hr H. unfold parseredirs in H. apply bind_ok_inv in H as (n & s1 & [= <- <-] & H). by apply (redirs_sound (S (length s)) c s). Qed.
Lemma parseredirs_complete c s rs ts : rest s → lex s = itoks (inr <$> rs) ++ ts → starts (str "<>") ts = false →
  does (parseredirs es c s) (λ c' s', lex s' = ts ∧ cm c' = wraps rs (cm c)).
Proof. intros Hr Hl Hs. unfold parseredirs. erewrite bind_ok by reflexivity. by apply redirs_complete. Qed.

Lemma exec_sound fuel argc ret s c' s' l : rest s → cm ret = simple_cmd l → argc = nargs l → argc < MAXARGS →
  loop fuel (parseexec_turn es) (argc, ret) s = Ok c' s' →
  ∃ l', lex s = itoks l' ++ lex s' ∧ rest s' ∧ cm c' = simple_cmd (l ++ l') ∧ nargs (l ++ l') < MAXARGS.
Proof.
  revert argc ret s l. induction fuel as [|fuel IH]; intros argc ret s l Hr Hc Hn Hm H; [done|]. cbn [loop] in H.
  apply bind_ok_inv in H as (r & s1 & H1 & H). destruct (exec_turn_inv argc ret s r s1 Hr H1) as [He|(x & ts & El)].
  - destruct (exec_turn_end argc ret s Hr He) as (s2 & H2 & Hr2 & Hl2). rewrite H2 in H1. injection H1 as <- <-. injection H as <- <-.
    exists []. rewrite app_nil_r, Hl2. split_and!; try done. lia.
  - destruct (exec_turn_word argc ret s x ts Hr El) as (w & s2 & Hr2 & Hl2 & Hw & Et). rewrite Et in H1.
    destruct (argc + 1 >=? MAXARGS) eqn:Em; [discriminate H1|]. apply bind_ok_inv in H1 as (ret' & s3 & H2 & [= <- <-]).
    destruct (parseredirs_sound _ _ _ _ Hr2 H2) as (rs & Hl3 & Hr3 & Hc3 & _). rewrite (add_arg_simple w ret l Hc) in Hc3.
    rewrite <- simple_redirs, <- app_assoc in Hc3.
    destruct (IH (argc + 1) ret' s3 _ Hr3 Hc3) as (l' & H4 & H5 & H6 & H7); [|lia|done|].
    { rewrite !item_args_app, item_args_redirs, app_nil_r, length_app. simpl. lia. }
    exists (inl x :: (inr <$> rs) ++ l'). rewrite El, <- Hl2, Hl3, H4. rewrite Hw in H6, H7.
    replace (l ++ inl x :: (inr <$> rs) ++ l') with ((l ++ [inl x] ++ (inr <$> rs)) ++ l') by (by rewrite <- !app_assoc).
    split_and!; [|done|done|done]. change (itoks (inl x :: (inr <$> rs) ++ l')) with (Word x :: itoks ((inr <$> rs) ++ l')).
    rewrite itoks_app. simpl. by rewrite <- app_assoc.
Qed.

(** The redirections at the start of a sequence of items. *)
Lemma items_split (l : list item) : ∃ rs (l' : list item), l = (inr <$> rs) ++ l' ∧ (l' = [] ∨ ∃ w l2, l' = inl w :: l2).
Proof.
  induction l as [|[w|r] l (rs & l' & -> & H)]; [exists [], []; auto|eexists [], _; eauto|]. exists (r :: rs), l'. auto.
Qed.

Lemma ends_redirs ts : ends ts → starts (str "<>") ts = false.
Proof.
  intros [->|H]; [done|]. destruct ts as [|t ts]; [done|]. simpl in *. unfold among in *. simpl in *. lia.
Qed.
Lemma items_redirs (l : list item) ts : ends ts → (l = [] ∨ ∃ w l2, l = inl w :: l2) → starts (str "<>") (itoks l ++ ts) = false.
Proof. intros He [->|(w & l2 & ->)]; [by apply ends_redirs|done]. Qed.

Lemma exec_complete fuel argc ret s l l' ts : rest s → cm ret = simple_cmd l → argc = nargs l → nargs (l ++ l') < MAXARGS →
  lex s = itoks l' ++ ts → ends ts → (l' = [] ∨ ∃ w l2, l' = inl w :: l2) →
  does (loop fuel (parseexec_turn es) (argc, ret) s) (λ c' s', lex s' = ts ∧ cm c' = simple_cmd (l ++ l')).
Proof.
  revert argc ret s l l'. induction fuel as [|fuel IH]; intros argc ret s l l' Hr Hc Hn Hm El He Hl'; [done|]. cbn [loop].
  destruct Hl' as [->|(x & l2 & ->)].
  - simpl in El. rewrite <- El in He. destruct (exec_turn_end argc ret s Hr He) as (s2 & H2 & Hr2 & Hl2). rewrite (bind_ok _ _ _ _ _ H2).
    simpl. rewrite app_nil_r, Hl2. by split_and!.
  - change (itoks (inl x :: l2) ++ ts) with (Word x :: itoks l2 ++ ts) in El.
    destruct (exec_turn_word argc ret s x _ Hr El) as (w & s2 & Hr2 & Hl2 & Hw & Et).
    destruct (items_split l2) as (rs & l3 & -> & Hl3). rewrite item_args_app in Hm. cbn in Hm. rewrite length_app in Hm. simpl in Hm.
    replace (argc + 1 >=? MAXARGS) with false in Et by lia.
    eapply (does_bind _ _ _ _ (λ r s', lex s' = itoks l3 ++ ts ∧ ∃ ret', r = inl (argc + 1, ret') ∧ cm ret' = simple_cmd (l ++ inl x :: (inr <$> rs)))).
    + rewrite Et. eapply does_bind.
      * apply (parseredirs_complete _ s2 rs (itoks l3 ++ ts) Hr2); [by rewrite Hl2, itoks_app, <- app_assoc|by apply items_redirs].
      * intros ret' s' Hr' [H1 H2]. simpl. split_and!; [done|done|]. exists ret'. split; [done|]. rewrite H2, (add_arg_simple w ret l Hc), Hw.
        rewrite <- simple_redirs. by rewrite <- app_assoc.
    + intros r s' Hr' (H1 & ret' & -> & H2).
      replace (l ++ inl x :: (inr <$> rs) ++ l3) with ((l ++ inl x :: (inr <$> rs)) ++ l3) by (by rewrite <- app_assoc).
      apply IH; try done.
      * rewrite item_args_app. cbn. rewrite length_app. simpl. fold (item_args (inr <$> rs)). rewrite item_args_redirs. simpl. lia.
      * rewrite <- app_assoc. simpl. rewrite item_args_app. cbn. rewrite length_app. simpl. lia.
Qed.

(** ** The grammar *)

(** A symbol that peek looks for, and the gettoken after it. *)
Lemma peek_sym c s : rest s → among symbols c = true →
  ∃ s1, peek [c] s = Ok (starts [c] (lex s)) s1 ∧ rest s1 ∧ lex s1 = lex s ∧
    (starts [c] (lex s) = true → ∃ w s2, gettoken es s1 = Ok w s2 ∧ rest s2 ∧ lex s2 = tail (lex s)).
Proof.
  intros Hr Hc. destruct (peek_lex [c] s Hr) as (Hp & Hl & Hr1); [intros x; unfold among at 1; simpl; intros H; by assert (x = c) as -> by lia|].
  exists (skip_space s). split_and!; [done|done|done|]. intros _. destruct (gettoken_lex (skip_space s) Hr1) as (w & s2 & H1 & H2 & H3 & _).
  rewrite Hl in H3. by eauto.
Qed.
Lemma starts_sym c ts : c ≠ 97 → c ≠ 62 → starts [c] ts = true → ∃ ts', ts = Sym c :: ts'.
Proof.
  intros H1 H2 H. destruct ts as [|[w|d|] ts]; [done|..]; unfold starts, first, among, existsb in H; try lia. assert (d = c) as -> by lia. by eauto.
Qed.

Lemma back_turn_run c s : rest s → ∃ s', rest s' ∧
  ((∃ ts, lex s = Sym 38 :: ts ∧ lex s' = ts ∧ back_turn es c s = Ok (inl (BACK c)) s') ∨
   (starts [38] (lex s) = false ∧ lex s' = lex s ∧ back_turn es c s = Ok (inr c) s')).
Proof.
  intros Hr. destruct (peek_sym 38 s Hr eq_refl) as (s1 & H1 & Hr1 & Hl1 & H2). unfold back_turn. change (str "&") with [38].
  rewrite (bind_ok _ _ _ _ _ H1). destruct (starts [38] (lex s)) eqn:E.
  - destruct (H2 eq_refl) as (w & s2 & H3 & Hr2 & Hl2). destruct (starts_sym 38 (lex s)) as [ts Ets]; [done..|]. exists s2. split; [done|left].
    exists ts. rewrite Ets in Hl2. split_and!; [done|done|]. by rewrite (bind_ok _ _ _ _ _ H3).
  - exists s1. split; [done|right]. by split_and!.
Qed.

Lemma back_sound fuel c s c' s' : rest s → loop fuel (back_turn es) c s = Ok c' s' →
  ∃ k, lex s = replicate k (Sym 38) ++ lex s' ∧ rest s' ∧ cm c' = Nat.iter k BACK (cm c).
Proof.
  revert c s. induction fuel as [|fuel IH]; intros c s Hr H; [done|]. cbn [loop] in H. apply bind_ok_inv in H as (r & s1 & H1 & H).
  destruct (back_turn_run c s Hr) as (s2 & Hr2 & [(ts & E1 & E2 & E3)|(E1 & E2 & E3)]); rewrite E3 in H1; injection H1 as <- <-.
  - destruct (IH (BACK c) s2 Hr2 H) as (k & H2 & H3 & H4). exists (S k). rewrite E1, <- E2, H2. split_and!; [done|done|]. rewrite H4. simpl cm. by rewrite <- Nat.iter_succ_r.
  - injection H as <- <-. exists 0%nat. by rewrite E2.
Qed.

Lemma back_complete fuel c s k ts : rest s → lex s = replicate k (Sym 38) ++ ts → starts [38] ts = false →
  does (loop fuel (back_turn es) c s) (λ c' s', lex s' = ts ∧ cm c' = Nat.iter k BACK (cm c)).
Proof.
  revert fuel c s. induction k as [|k IH]; intros fuel c s Hr Hl Hs; (destruct fuel as [|fuel]; [done|]); cbn [loop];
    destruct (back_turn_run c s Hr) as (s2 & Hr2 & [(ts' & E1 & E2 & E3)|(E1 & E2 & E3)]); rewrite (bind_ok _ _ _ _ _ E3); rewrite Hl in *; try done.
  - simpl in E1. by rewrite E1 in Hs.
  - injection E1 as <-. rewrite Nat.iter_succ_r. by apply IH.
Qed.

Lemma grammar_sound n s c s' : rest s →
  (parseline es n s = Ok c s' → ∃ ts, lex s = ts ++ lex s' ∧ rest s' ∧ gline ts (cm c)) ∧
  (parsepipe es n s = Ok c s' → ∃ ts, lex s = ts ++ lex s' ∧ rest s' ∧ gpipe ts (cm c)) ∧
  (parseexec es n s = Ok c s' → ∃ ts, lex s = ts ++ lex s' ∧ rest s' ∧ gexec ts (cm c)) ∧
  (parseblock es n s = Ok c s' → ∃ ts, lex s = ts ++ lex s' ∧ rest s' ∧ gexec ts (cm c)).
Proof.
  revert s c s'. induction n as [|n IH]; intros s c s' Hr; [by split_and!|]. split_and!; cbn [parseline parsepipe parseexec parseblock]; intros H.
  - apply bind_ok_inv in H as (c1 & s1 & H1 & H). destruct (proj1 (proj2 (IH s c1 s1 Hr)) H1) as (ts1 & E1 & Hr1 & G1).
    apply bind_ok_inv in H as (k & s2 & [= <- <-] & H). apply bind_ok_inv in H as (c2 & s2 & H2 & H).
    destruct (back_sound _ c1 s1 c2 s2 Hr1 H2) as (k & E2 & Hr2 & C2). change (str ";") with [59] in H.
    destruct (peek_sym 59 s2 Hr2 eq_refl) as (s3 & H3 & Hr3 & E3 & H4). rewrite (bind_ok _ _ _ _ _ H3) in H. destruct (starts [59] (lex s2)) eqn:Es.
    + destruct (H4 eq_refl) as (w & s4 & H5 & Hr4 & E4). rewrite (bind_ok _ _ _ _ _ H5) in H. apply bind_ok_inv in H as (c3 & s5 & H6 & [= <- <-]).
      destruct (proj1 (IH s4 c3 s5 Hr4) H6) as (ts2 & E5 & Hr5 & G2). destruct (starts_sym 59 (lex s2)) as [ts' E6]; [done..|].
      rewrite E6 in E4. simpl in E4. subst ts'. exists (ts1 ++ replicate k (Sym 38) ++ Sym 59 :: ts2). split_and!; [|done|simpl; rewrite C2; by constructor].
      rewrite E1, E2, E6, E5. rewrite <- !app_assoc. done.
    + injection H as <- <-. exists (ts1 ++ replicate k (Sym 38)). rewrite E1, E2, E3, C2, <- app_assoc. split_and!; [done|done|by constructor].
  - apply bind_ok_inv in H as (c1 & s1 & H1 & H). destruct (proj1 (proj2 (proj2 (IH s c1 s1 Hr))) H1) as (ts1 & E1 & Hr1 & G1).
    change (str "|") with [124] in H. destruct (peek_sym 124 s1 Hr1 eq_refl) as (s3 & H3 & Hr3 & E3 & H4). rewrite (bind_ok _ _ _ _ _ H3) in H.
    destruct (starts [124] (lex s1)) eqn:Es.
    + destruct (H4 eq_refl) as (w & s4 & H5 & Hr4 & E4). rewrite (bind_ok _ _ _ _ _ H5) in H. apply bind_ok_inv in H as (c3 & s5 & H6 & [= <- <-]).
      destruct (proj1 (proj2 (IH s4 c3 s5 Hr4)) H6) as (ts2 & E5 & Hr5 & G2). destruct (starts_sym 124 (lex s1)) as [ts' E6]; [done..|].
      rewrite E6 in E4. simpl in E4. subst ts'. exists (ts1 ++ Sym 124 :: ts2). split_and!; [|done|by constructor].
      rewrite E1, E6, E5. by rewrite <- !app_assoc.
    + injection H as <- <-. exists ts1. rewrite E1, E3. split_and!; [done|done|by constructor].
  - change (str "(") with [40] in H. destruct (peek_sym 40 s Hr eq_refl) as (s1 & H1 & Hr1 & E1 & _). rewrite (bind_ok _ _ _ _ _ H1) in H.
    destruct (starts [40] (lex s)) eqn:Es; [rewrite <- E1; by apply (IH s1)|]. apply bind_ok_inv in H as (c1 & s2 & H2 & H).
    destruct (parseredirs_sound _ _ _ _ Hr1 H2) as (rs & E2 & Hr2 & C2 & _). apply bind_ok_inv in H as (k & s3 & [= <- <-] & H).
    assert (cm c1 = simple_cmd (inr <$> rs)) as C3 by (unfold simple_cmd; by rewrite item_args_redirs, item_redirs_redirs).
    destruct (exec_sound (S (length s2)) 0 c1 s2 c s' (inr <$> rs) Hr2 C3) as (l' & E3 & Hr3 & C4 & Hn); [by rewrite item_args_redirs|done|done|].
    exists (itoks ((inr <$> rs) ++ l')). rewrite C4, itoks_app, <- app_assoc, <- E3, <- E2. split_and!; [done|done|]. rewrite <- itoks_app. by constructor.
  - change (str "(") with [40] in H. change (str ")") with [41] in H. destruct (peek_sym 40 s Hr eq_refl) as (s1 & H1 & Hr1 & E1 & H2).
    rewrite (bind_ok _ _ _ _ _ H1) in H. destruct (starts [40] (lex s)) eqn:Es; [|discriminate H]. cbn [negb] in H.
    destruct (H2 eq_refl) as (w & s2 & H3 & Hr2 & E2). rewrite (bind_ok _ _ _ _ _ H3) in H. apply bind_ok_inv in H as (c1 & s3 & H4 & H).
    destruct (proj1 (IH s2 c1 s3 Hr2) H4) as (ts & E3 & Hr3 & G). destruct (peek_sym 41 s3 Hr3 eq_refl) as (s4 & H5 & Hr4 & E4 & H6).
    rewrite (bind_ok _ _ _ _ _ H5) in H. destruct (starts [41] (lex s3)) eqn:Es3; [|discriminate H]. cbn [negb] in H.
    destruct (H6 eq_refl) as (w2 & s5 & H7 & Hr5 & E5). rewrite (bind_ok _ _ _ _ _ H7) in H.
    destruct (parseredirs_sound _ _ _ _ Hr5 H) as (rs & E6 & Hr6 & C6 & _). destruct (starts_sym 40 (lex s)) as [t1 F1]; [done..|].
    destruct (starts_sym 41 (lex s3)) as [t2 F2]; [done..|]. rewrite F1 in E2. rewrite F2 in E5. simpl in E2, E5. subst t1 t2.
    exists (Sym 40 :: ts ++ Sym 41 :: itoks (inr <$> rs)). rewrite F1, E3, F2, E6, C6. split_and!; [|done|by constructor].
    simpl. by rewrite <- app_assoc.
Qed.

(** What may follow a pipeline and a line. *)
Definition pipe_ends (ts : list tok) : Prop := ts = [] ∨ starts (str ")&;") ts = true.
Definition line_ends (ts : list tok) : Prop := ts = [] ∨ starts (str ")") ts = true.

(** No symbol of [toks] at a place where one of [toks'] or nothing follows. *)
Lemma not_starts toks toks' ts : (∀ c, among toks c = true → among toks' c = false) → ts = [] ∨ starts toks' ts = true → starts toks ts = false.
Proof.
  intros H [->|E]; [done|]. destruct ts as [|t ts]; [done|]. cbn [starts] in *. destruct (among toks (first t)) eqn:F; [|done]. by rewrite H in E.
Qed.
Lemma starts_mono toks toks' ts : (∀ c, among toks c = true → among toks' c = true) → ts = [] ∨ starts toks ts = true → ts = [] ∨ starts toks' ts = true.
Proof. intros H [->|E]; [by left|right]. destruct ts as [|t ts]; [done|]. cbn [starts] in *. auto. Qed.

Lemma amps_starts toks k ts : among toks 38 = true → ts = [] ∨ starts toks ts = true →
  replicate k (Sym 38) ++ ts = [] ∨ starts toks (replicate k (Sym 38) ++ ts) = true.
Proof. intros Ha H. destruct k as [|k]; [done|]. by right. Qed.

Lemma items_no_paren (l : list item) ts : ends ts → starts [40] (itoks l ++ ts) = false.
Proof.
  intros He. destruct l as [|[w|[[] f]] l]; try done. apply (not_starts _ (str "|)&;")); [|done]. intros c. unfold among. simpl. lia.
Qed.

(** A symbol ahead: peek sees it and gettoken takes it. *)
Lemma does_sym {A} c s ts (k k' : M (list Z) A) Q : rest s → among symbols c = true → lex s = Sym c :: ts →
  (∀ s', rest s' → lex s' = ts → does (k s') Q) → does ((b ← peek [c]; if b : bool then gettoken es;; k else k') s) Q.
Proof.
  intros Hr Hc El Hk. destruct (peek_sym c s Hr Hc) as (s1 & H1 & Hr1 & E1 & H2). rewrite (bind_ok _ _ _ _ _ H1).
  assert (starts [c] (lex s) = true) as Es by (rewrite El; unfold starts, first, among, existsb; lia). rewrite Es.
  destruct (H2 Es) as (w & s2 & H3 & Hr2 & E2). rewrite (bind_ok _ _ _ _ _ H3). apply Hk; [done|]. by rewrite E2, El.
Qed.
Lemma does_no_sym {A} c s (k : bool → M (list Z) A) Q : rest s → among symbols c = true → starts [c] (lex s) = false →
  (∀ s', rest s' → lex s' = lex s → does (k false s') Q) → does ((b ← peek [c]; k b) s) Q.
Proof.
  intros Hr Hc Es Hk. destruct (peek_sym c s Hr Hc) as (s1 & H1 & Hr1 & E1 & _). rewrite (bind_ok _ _ _ _ _ H1), Es. by apply Hk.
Qed.

Definition parses_to (m : M (list Z) (cmd ptr)) (ends : list tok → Prop) (ts : list tok) (C : cmd (list Z)) : Prop :=
  ∀ s ts', rest s → lex s = ts ++ ts' → ends ts' → does (m s) (λ c s', lex s' = ts' ∧ cm c = C).

Lemma line_complete n ts C k : (∀ n, parses_to (parsepipe es n) pipe_ends ts C) →
  parses_to (parseline es n) line_ends (ts ++ replicate k (Sym 38)) (Nat.iter k BACK C) ∧
  ∀ ts2 C2, (∀ n, parses_to (parseline es n) line_ends ts2 C2) →
    parses_to (parseline es n) line_ends (ts ++ replicate k (Sym 38) ++ Sym 59 :: ts2) (LIST (Nat.iter k BACK C) C2).
Proof.
  intros Hp. assert (∀ ts', line_ends ts' → starts [38] ts' = false ∧ starts [59] ts' = false) as Hno.
  { intros ts' He. split; apply (not_starts _ (str ")")); try done; intros x; unfold among; simpl; lia. }
  split; [intros s ts' Hr El He|intros ts2 C2 H2 s ts' Hr El He]; (destruct n as [|n]; [done|]); cbn [parseline];
    rewrite <- !app_assoc in El; destruct (Hno ts' He) as [N1 N2].
  - eapply does_bind; [apply (Hp n s _ Hr El)|].
    { apply amps_starts; [done|]. apply (starts_mono (str ")")); [|done]. intros x. unfold among. simpl. lia. }
    intros c s1 Hr1 [E1 C1]. erewrite bind_ok by reflexivity. eapply does_bind; [by apply (back_complete _ c s1 k ts')|].
    intros c2 s2 Hr2 [E2 C2]. change (str ";") with [59]. apply does_no_sym; [done|done|by rewrite E2|]. intros s3 Hr3 E3. simpl. rewrite E3, E2, C2, C1. by split_and!.
  - eapply does_bind; [apply (Hp n s _ Hr El)|]. { apply amps_starts; [done|]. by right. }
    intros c s1 Hr1 [E1 C1]. erewrite bind_ok by reflexivity. eapply does_bind; [by apply (back_complete _ c s1 k (Sym 59 :: ts2 ++ ts'))|].
    intros c2 s2 Hr2 [E2 C2']. change (str ";") with [59]. apply (does_sym 59 s2 (ts2 ++ ts')); [done|done|done|]. intros s3 Hr3 E3.
    eapply does_bind; [apply (H2 n s3 ts' Hr3 E3 He)|]. intros c4 s4 Hr4 [E4 C4]. simpl. rewrite C4, C2', C1. by split_and!.
Qed.

Lemma pipe_complete n ts C : (∀ n, parses_to (parseexec es n) ends ts C) →
  parses_to (parsepipe es n) pipe_ends ts C ∧
  ∀ ts2 C2, (∀ n, parses_to (parsepipe es n) pipe_ends ts2 C2) → parses_to (parsepipe es n) pipe_ends (ts ++ Sym 124 :: ts2) (PIPE C C2).
Proof.
  intros Hp. split; [intros s ts' Hr El He|intros ts2 C2 H2 s ts' Hr El He]; (destruct n as [|n]; [done|]); cbn [parsepipe]; change (str "|") with [124].
  - eapply does_bind; [apply (Hp n s _ Hr El)|].
    { apply (starts_mono (str ")&;")); [|done]. intros x. unfold among. simpl. lia. }
    intros c s1 Hr1 [E1 C1]. apply does_no_sym; [done|done|rewrite E1; apply (not_starts _ (str ")&;")); [|done]; intros x; unfold among; simpl; lia|].
    intros s3 Hr3 E3. simpl. rewrite E3, E1, C1. by split_and!.
  - rewrite <- app_assoc in El. eapply does_bind; [apply (Hp n s _ Hr El); by right|]. intros c s1 Hr1 [E1 C1].
    apply (does_sym 124 s1 (ts2 ++ ts')); [done|done|done|]. intros s3 Hr3 E3.
    eapply does_bind; [apply (H2 n s3 ts' Hr3 E3 He)|]. intros c4 s4 Hr4 [E4 C4]. simpl. rewrite C4, C1. by split_and!.
Qed.

Lemma simple_complete n l : nargs l < MAXARGS → parses_to (parseexec es n) ends (itoks l) (simple_cmd l).
Proof.
  intros Hn s ts' Hr El He. destruct n as [|n]; [done|]. cbn [parseexec]. change (str "(") with [40].
  apply does_no_sym; [done|done|by rewrite El; apply items_no_paren|]. intros s1 Hr1 E1. rewrite El in E1.
  destruct (items_split l) as (rs & l' & -> & Hl). rewrite itoks_app, <- app_assoc in E1.
  eapply does_bind; [apply (parseredirs_complete (EXEC []) s1 rs _ Hr1 E1); by apply items_redirs|]. intros c s2 Hr2 [E2 C2].
  erewrite bind_ok by reflexivity.
  apply (exec_complete _ 0 c s2 (inr <$> rs) l' ts'); try done; [|by rewrite item_args_redirs].
  unfold simple_cmd. by rewrite item_args_redirs, item_redirs_redirs.
Qed.

Lemma block_complete n ts C rs : (∀ n, parses_to (parseline es n) line_ends ts C) →
  parses_to (parseexec es n) ends (Sym 40 :: ts ++ Sym 41 :: itoks (inr <$> rs)) (wraps rs C).
Proof.
  intros Hp s ts' Hr El He. destruct n as [|n]; [done|]. cbn [parseexec]. change (str "(") with [40].
  simpl in El. rewrite <- app_assoc in El. simpl in El.
  destruct (peek_sym 40 s Hr eq_refl) as (s1 & H1 & Hr1 & E1 & _). rewrite (bind_ok _ _ _ _ _ H1), El. change (starts [40] (Sym 40 :: _)) with true. cbv iota.
  rewrite El in E1. destruct n as [|n]; [done|]. cbn [parseblock]. change (str "(") with [40]. change (str ")") with [41].
  destruct (peek_sym 40 s1 Hr1 eq_refl) as (s2 & H2 & Hr2 & E2 & H3). rewrite E1 in H2, E2, H3. rewrite (bind_ok _ _ _ _ _ H2). change (starts [40] (Sym 40 :: _)) with true. cbn [negb].
  destruct (H3 eq_refl) as (w & s3 & H4 & Hr3 & E3). rewrite (bind_ok _ _ _ _ _ H4). simpl in E3.
  eapply does_bind; [apply (Hp n s3 _ Hr3 E3); by right|]. intros c s4 Hr4 [E4 C4].
  destruct (peek_sym 41 s4 Hr4 eq_refl) as (s5 & H5 & Hr5 & E5 & H6). rewrite E4 in H5, E5, H6. rewrite (bind_ok _ _ _ _ _ H5). change (starts [41] (Sym 41 :: _)) with true. cbn [negb].
  destruct (H6 eq_refl) as (w2 & s6 & H7 & Hr6 & E6). rewrite (bind_ok _ _ _ _ _ H7). simpl in E6. rewrite <- C4.
  apply (parseredirs_complete c s6 rs ts' Hr6 E6). by apply ends_redirs.
Qed.

Lemma grammar_complete :
  (∀ ts C, gline ts C → ∀ n, parses_to (parseline es n) line_ends ts C) ∧
  (∀ ts C, gpipe ts C → ∀ n, parses_to (parsepipe es n) pipe_ends ts C) ∧
  (∀ ts C, gexec ts C → ∀ n, parses_to (parseexec es n) ends ts C).
Proof.
  apply grammar_mut.
  - intros ts c k _ IH n. by apply line_complete.
  - intros ts c k ts' c' _ IH _ IH' n. by apply line_complete.
  - intros ts c _ IH n. by apply pipe_complete.
  - intros ts c ts' c' _ IH _ IH' n. by apply pipe_complete.
  - intros l Hn n. by apply simple_complete.
  - intros ts c rs _ IH n. by apply block_complete.
Qed.
End line.

(** The end of parsecmd. *)
Lemma parsecmd_end line s : parsecmd line s =
  match parseline (Z.of_nat (length line)) (4 * length line + 4) line with
  | Ok c s1 => if (0 <? length (skip_space s1))%nat then Panic "syntax" else Ok (c, nulterminate c (line ++ [0])) (skip_space s1)
  | Panic m => Panic m
  | Asleep t => Asleep t
  | NoFuel => NoFuel
  end.
Proof.
  unfold parsecmd. erewrite bind_ok by reflexivity. unfold mbind at 1, M_bind at 1. destruct (parseline _ _ line) as [c s1| | |]; try done.
  unfold peek. erewrite bind_ok by reflexivity. erewrite bind_ok by reflexivity. unfold id. by destruct (0 <? _)%nat.
Qed.

Lemma lex_nil s : lex s = [] ↔ skip_space s = [].
Proof.
  rewrite <- (lex_space s). pose proof (space_hd s) as Hw. destruct (skip_space s) as [|c q] eqn:E; [done|]. simpl hd in Hw.
  destruct (lex_head c q Hw) as (t & ts & -> & _). done.
Qed.

(** ** Properties *)

(** C14: the parser accepts exactly the lines of the grammar, and builds their commands.
    parsecmd on a line either returns or panics with a syntax error, always after a finite
    number of steps.  It returns exactly when the line's tokens are derivable from the
    grammar; the command it builds, read through its pointers as C strings after
    nulterminate, is the command that the grammar gives the line.  So a line stands for at
    most one command, with its words as they were typed. *)
Theorem parsecmd_correct line s : Forall (λ c, c ≠ 0) line →
  ((∃ c line' s', parsecmd line s = Ok (c, line') s') ∨ (∃ msg, parsecmd line s = Panic msg)) ∧
  (∀ C, command_of line C ↔ ∃ c line' s', parsecmd line s = Ok (c, line') s' ∧ cmd_map (string_of line') c = C).
Proof.
  intros Hline. pose proof (parsecmd_well_formed line s Hline) as Hw. unfold ensures in Hw. assert (rest line line) as Hr by (by exists []).
  split; [destruct (parsecmd line s) as [[c l] s'| | |]; [left|right|..]; by eauto|]. intros C. split.
  - intros Hg. pose proof (proj1 (grammar_complete line Hline) _ _ Hg (4 * length line + 4)%nat line [] Hr) as Hd.
    rewrite app_nil_r in Hd. specialize (Hd eq_refl ltac:(by left)). rewrite parsecmd_end in *. unfold does in Hd.
    destruct (parseline _ _ line) as [c s1| | |]; try done. destruct Hd as (_ & E1%lex_nil & C1). rewrite E1 in *. cbn [length Nat.ltb Nat.leb] in *.
    eexists _, _, _. split; [reflexivity|]. destruct Hw as [_ ->]. exact C1.
  - intros (c & l & s' & E & <-). rewrite E in Hw. destruct Hw as [_ ->]. rewrite parsecmd_end in E.
    destruct (parseline _ _ line) as [c1 s1| | |] eqn:El; try done. destruct (0 <? length (skip_space s1))%nat eqn:E0; [done|]. injection E as -> _ _.
    destruct (proj1 (grammar_sound line Hline _ line c s1 Hr) El) as (ts & E2 & _ & G). unfold command_of. rewrite E2.
    assert (lex s1 = []) as -> by (apply lex_nil; destruct (skip_space s1); [done|discriminate E0]). by rewrite app_nil_r.
Qed.

(** A pipeline in the background, its left end with a redirection; and a line that is not
    derivable. *)
Lemma parsecmd_correct_witness :
  command_of (str "cat <in x|(wc;ls)&") (BACK (PIPE (REDIR (EXEC [str "cat"; str "x"]) (str "in") O_RDONLY 0) (LIST (EXEC [str "wc"]) (EXEC [str "ls"])))) ∧
  ∀ C, ¬ command_of (str "ls | > )") C.
Proof.
  assert (∀ l, forallb (λ c, negb (c =? 0)) l = true → Forall (λ c, c ≠ 0) l) as Hz.
  { intros l H. rewrite forallb_forall in H. apply Forall_forall. intros c Hc. apply list_elem_of_In, H in Hc. lia. }
  split.
  - apply (proj2 (parsecmd_correct (str "cat <in x|(wc;ls)&") [] (Hz (str "cat <in x|(wc;ls)&") eq_refl))). eexists _, _, _. split; [vm_compute; reflexivity|vm_compute; reflexivity].
  - intros C H. apply (proj2 (parsecmd_correct (str "ls | > )") [] (Hz (str "ls | > )") eq_refl))) in H as (c & l & s' & E & _). vm_compute in E. discriminate E.
Defined.
