(* ===== verification/Virtio.v ===== *)
(** * The disk driver: kernel/virtio_disk.c and virtio.h

    The driver and the device share a table of NUM descriptors and two rings.  A request
    is a chain of three descriptors; its head goes into the avail ring, the device
    carries it out and puts the head into the used ring, and the interrupt handler marks
    the buffer.  Several requests are in flight at a time and the device may finish
    them in any order.

    The state is the driver's structure, the buffers that it is given, the sectors of the
    disk and the process layer.  An address that the driver gives to the device is the
    object it points at ([loc]).  The device is not part of the sources: what it may do is
    the relation [dev_allowed], after the specification of virtio that the code cites, and
    the registers read as the class [Mmio] says.

    This file has the driver, the device, the invariant of the requests in flight, and that
    every critical section and every step of the device keep it; the file that follows
    interleaves them. *)
From stdpp Require Import sets.
From S2P Require Import Prelude Mem Spinlock Riscv Kalloc Vm Proc Kstate.
Open Scope Z_scope.

(** ** virtio.h *)

Definition VIRTIO_MMIO_MAGIC_VALUE : Z := 0x000.
Definition VIRTIO_MMIO_VERSION : Z := 0x004.
Definition VIRTIO_MMIO_DEVICE_ID : Z := 0x008.
Definition VIRTIO_MMIO_VENDOR_ID : Z := 0x00c.
Definition VIRTIO_MMIO_DEVICE_FEATURES : Z := 0x010.
Definition VIRTIO_MMIO_DRIVER_FEATURES : Z := 0x020.
Definition VIRTIO_MMIO_QUEUE_SEL : Z := 0x030.
Definition VIRTIO_MMIO_QUEUE_NUM_MAX : Z := 0x034.
Definition VIRTIO_MMIO_QUEUE_NUM : Z := 0x038.
Definition VIRTIO_MMIO_QUEUE_READY : Z := 0x044.
Definition VIRTIO_MMIO_QUEUE_NOTIFY : Z := 0x050.
Definition VIRTIO_MMIO_INTERRUPT_STATUS : Z := 0x060.
Definition VIRTIO_MMIO_INTERRUPT_ACK : Z := 0x064.
Definition VIRTIO_MMIO_STATUS : Z := 0x070.
Definition VIRTIO_MMIO_QUEUE_DESC_LOW : Z := 0x080.
Definition VIRTIO_MMIO_QUEUE_DESC_HIGH : Z := 0x084.
Definition VIRTIO_MMIO_DRIVER_DESC_LOW : Z := 0x090.
Definition VIRTIO_MMIO_DRIVER_DESC_HIGH : Z := 0x094.
Definition VIRTIO_MMIO_DEVICE_DESC_LOW : Z := 0x0a0.
Definition VIRTIO_MMIO_DEVICE_DESC_HIGH : Z := 0x0a4.
Definition VIRTIO_CONFIG_S_ACKNOWLEDGE : Z := 1.
Definition VIRTIO_CONFIG_S_DRIVER : Z := 2.
Definition VIRTIO_CONFIG_S_DRIVER_OK : Z := 4.
Definition VIRTIO_CONFIG_S_FEATURES_OK : Z := 8.
Definition VIRTIO_BLK_F_RO : Z := 5.
Definition VIRTIO_BLK_F_SCSI : Z := 7.
Definition VIRTIO_BLK_F_CONFIG_WCE : Z := 11.
Definition VIRTIO_BLK_F_MQ : Z := 12.
Definition VIRTIO_F_ANY_LAYOUT : Z := 27.
Definition VIRTIO_RING_F_INDIRECT_DESC : Z := 28.
Definition VIRTIO_RING_F_EVENT_IDX : Z := 29.
Definition NUM : Z := 8.
Definition VRING_DESC_F_NEXT : Z := 1.
Definition VRING_DESC_F_WRITE : Z := 2.
Definition VIRTIO_BLK_T_IN : Z := 0.
Definition VIRTIO_BLK_T_OUT : Z := 1.

(** What an address of the driver points at: disk.ops[i], b->data, disk.info[i].status. *)
Inductive loc := LNull | LOps (i : Z) | LData (b : Z) | LStatus (i : Z).

(** struct virtq_desc *)
Record virtq_desc := Virtq_desc {
  d_addr : loc;
  d_len : Z;
  d_flags : Z;
  d_next : Z;
}.
Definition set_d_addr (v : loc) (r : virtq_desc) : virtq_desc :=
  Virtq_desc v (d_len r) (d_flags r) (d_next r).
Definition set_d_len (v : Z) (r : virtq_desc) : virtq_desc :=
  Virtq_desc (d_addr r) v (d_flags r) (d_next r).
Definition set_d_flags (v : Z) (r : virtq_desc) : virtq_desc :=
  Virtq_desc (d_addr r) (d_len r) v (d_next r).
Definition set_d_next (v : Z) (r : virtq_desc) : virtq_desc :=
  Virtq_desc (d_addr r) (d_len r) (d_flags r) v.
Definition desc0 : virtq_desc := Virtq_desc LNull 0 0 0.

(** struct virtq_avail, struct virtq_used_elem, struct virtq_used; the idx fields are uint16. *)
Record virtq_avail := Virtq_avail {
  av_idx : Z;
  av_ring : Z → Z;
}.
Definition set_av_idx (v : Z) (r : virtq_avail) : virtq_avail := Virtq_avail v (av_ring r).
Definition set_av_ring (v : Z → Z) (r : virtq_avail) : virtq_avail := Virtq_avail (av_idx r) v.
Record virtq_used_elem := Virtq_used_elem {
  ue_id : Z;
  ue_len : Z;
}.
Record virtq_used := Virtq_used {
  us_idx : Z;
  us_ring : Z → virtq_used_elem;
}.

(** struct virtio_blk_req *)
Record virtio_blk_req := Virtio_blk_req {
  rq_type : Z;
  rq_reserved : Z;
  rq_sector : Z;
}.
Definition set_rq_type (v : Z) (r : virtio_blk_req) : virtio_blk_req :=
  Virtio_blk_req v (rq_reserved r) (rq_sector r).
Definition set_rq_reserved (v : Z) (r : virtio_blk_req) : virtio_blk_req :=
  Virtio_blk_req (rq_type r) v (rq_sector r).
Definition set_rq_sector (v : Z) (r : virtio_blk_req) : virtio_blk_req :=
  Virtio_blk_req (rq_type r) (rq_reserved r) v.

(** The elements of disk.info. *)
Record vinfo := Vinfo {
  in_b : Z;
  in_status : Z;
}.
Definition set_in_b (v : Z) (r : vinfo) : vinfo := Vinfo v (in_status r).
Definition set_in_status (v : Z) (r : vinfo) : vinfo := Vinfo (in_b r) v.

(** struct disk *)
Record vdisk := Vdisk {
  vd_desc : Z → virtq_desc;
  vd_avail : virtq_avail;
  vd_used : virtq_used;
  vd_free : Z → Z;
  vd_used_idx : Z;
  vd_info : Z → vinfo;
  vd_ops : Z → virtio_blk_req;
  vd_lock : bool;
}.
Definition set_vd_desc (v : Z → virtq_desc) (r : vdisk) : vdisk :=
  Vdisk v (vd_avail r) (vd_used r) (vd_free r) (vd_used_idx r) (vd_info r) (vd_ops r) (vd_lock r).
Definition set_vd_avail (v : virtq_avail) (r : vdisk) : vdisk :=
  Vdisk (vd_desc r) v (vd_used r) (vd_free r) (vd_used_idx r) (vd_info r) (vd_ops r) (vd_lock r).
Definition set_vd_used (v : virtq_used) (r : vdisk) : vdisk :=
  Vdisk (vd_desc r) (vd_avail r) v (vd_free r) (vd_used_idx r) (vd_info r) (vd_ops r) (vd_lock r).
Definition set_vd_free (v : Z → Z) (r : vdisk) : vdisk :=
  Vdisk (vd_desc r) (vd_avail r) (vd_used r) v (vd_used_idx r) (vd_info r) (vd_ops r) (vd_lock r).
Definition set_vd_used_idx (v : Z) (r : vdisk) : vdisk :=
  Vdisk (vd_desc r) (vd_avail r) (vd_used r) (vd_free r) v (vd_info r) (vd_ops r) (vd_lock r).
Definition set_vd_info (v : Z → vinfo) (r : vdisk) : vdisk :=
  Vdisk (vd_desc r) (vd_avail r) (vd_used r) (vd_free r) (vd_used_idx r) v (vd_ops r) (vd_lock r).
Definition set_vd_ops (v : Z → virtio_blk_req) (r : vdisk) : vdisk :=
  Vdisk (vd_desc r) (vd_avail r) (vd_used r) (vd_free r) (vd_used_idx r) (vd_info r) v (vd_lock r).
Definition set_vd_lock (v : bool) (r : vdisk) : vdisk :=
  Vdisk (vd_desc r) (vd_avail r) (vd_used r) (vd_free r) (vd_used_idx r) (vd_info r) (vd_ops r) v.

(** The fields of struct buf that the driver uses. *)
Record vbuf := Vbuf {
  vb_blockno : Z;
  vb_data : list Z;
  vb_disk : Z;
}.
Definition set_vb_blockno (v : Z) (r : vbuf) : vbuf := Vbuf v (vb_data r) (vb_disk r).
Definition set_vb_data (v : list Z) (r : vbuf) : vbuf := Vbuf (vb_blockno r) v (vb_disk r).
Definition set_vb_disk (v : Z) (r : vbuf) : vbuf := Vbuf (vb_blockno r) (vb_data r) v.

(** The driver, the buffers, the sectors of the disk, and the writes to the registers. *)
Record vst := Vst {
  v_kern : kern;
  v_d : vdisk;
  v_buf : Z → vbuf;
  v_sect : Z → list Z;
  v_mmio : list (Z * Z);
}.
Definition set_v_kern (v : kern) (r : vst) : vst := Vst v (v_d r) (v_buf r) (v_sect r) (v_mmio r).
Definition set_v_d (v : vdisk) (r : vst) : vst := Vst (v_kern r) v (v_buf r) (v_sect r) (v_mmio r).
Definition set_v_buf (v : Z → vbuf) (r : vst) : vst :=
  Vst (v_kern r) (v_d r) v (v_sect r) (v_mmio r).
Definition set_v_sect (v : Z → list Z) (r : vst) : vst :=
  Vst (v_kern r) (v_d r) (v_buf r) v (v_mmio r).
Definition set_v_mmio (v : list (Z * Z)) (r : vst) : vst :=
  Vst (v_kern r) (v_d r) (v_buf r) (v_sect r) v.

#[export] Instance vst_has_kern : HasKern vst := Lens v_kern set_v_kern.
#[export] Instance vst_kern_lens : KernLens vst.
Proof. constructor; by intros; destruct s. Qed.

Definition vdisk_lock : lens vst bool := Lens (λ s, vd_lock (v_d s)) (λ b s, set_v_d (set_vd_lock b (v_d s)) s).
#[export] Instance vdisk_lock_side : SideLens vdisk_lock.
Proof. constructor; by intros; destruct s. Qed.

(** Assignments to the elements of the arrays. *)
Definition upd_d (f : vdisk → vdisk) (s : vst) : vst := set_v_d (f (v_d s)) s.
Definition upd_desc (i : Z) (f : virtq_desc → virtq_desc) : vst → vst :=
  upd_d (λ d, set_vd_desc (fupd i (f (vd_desc d i)) (vd_desc d)) d).
Definition put_free (i v : Z) : vst → vst := upd_d (λ d, set_vd_free (fupd i v (vd_free d)) d).
Definition upd_info (i : Z) (f : vinfo → vinfo) : vst → vst :=
  upd_d (λ d, set_vd_info (fupd i (f (vd_info d i)) (vd_info d)) d).
Definition upd_ops (i : Z) (f : virtio_blk_req → virtio_blk_req) : vst → vst :=
  upd_d (λ d, set_vd_ops (fupd i (f (vd_ops d i)) (vd_ops d)) d).
Definition upd_vbuf (b : Z) (f : vbuf → vbuf) (s : vst) : vst := set_v_buf (fupd b (f (v_buf s b)) (v_buf s)) s.

(** [mmio_read ws r]: the register [r] after the writes [ws] to the registers. *)
Class Mmio := mmio_read : list (Z * Z) → Z → Z.
Definition mmio_get `{Mmio} (r : Z) : M vst Z := gets (λ s, u32 (mmio_read (v_mmio s) r)).
Definition mmio_put (r v : Z) : M vst unit := modify (λ s, set_v_mmio (v_mmio s ++ [(r, u32 v)]) s).

(** ** Descriptors *)

Definition alloc_desc : M vst Z :=
  loop (S (Z.to_nat NUM)) (λ i,
    if i <? NUM then
      f ← gets (λ s, vd_free (v_d s) i);
      if ctrue f then modify (put_free i 0);; mret (inr i) else mret (inl (i + 1))
    else mret (inr (-1))) 0.

Definition free_desc (i : Z) : M vst unit :=
  if i >=? NUM then panic "free_desc 1" else
  f ← gets (λ s, vd_free (v_d s) i);
  if ctrue f then panic "free_desc 2" else
  modify (upd_desc i (set_d_addr LNull));;
  modify (upd_desc i (set_d_len 0));;
  modify (upd_desc i (set_d_flags 0));;
  modify (upd_desc i (set_d_next 0));;
  modify (put_free i 1);;
  kcall (wakeup ChDisk).

(** A descriptor is not freed twice, so the loop has at most NUM turns. *)
Definition free_chain_turn (i : Z) : M vst (Z + unit) :=
  flag ← gets (λ s, d_flags (vd_desc (v_d s) i));
  nxt ← gets (λ s, d_next (vd_desc (v_d s) i));
  free_desc i;;
  if ctrue (Z.land flag VRING_DESC_F_NEXT) then mret (inl nxt) else mret (inr tt).
Definition free_chain (i : Z) : M vst unit := loop (S (Z.to_nat NUM)) free_chain_turn i.

(** [for(int j = 0; j < i; j++) free_desc(idx[j])] *)
Fixpoint free_descs (idx : list Z) : M vst unit :=
  match idx with
  | [] => mret tt
  | i :: idx => free_desc i;; free_descs idx
  end.

(** The result and the array [idx]. *)
Definition alloc3_desc : M vst (Z * list Z) :=
  loop 4 (λ '(i, idx),
    if i <? 3 then
      d ← alloc_desc;
      if d <? 0 then free_descs idx;; mret (inr (-1, idx ++ [d]))
      else mret (inl (i + 1, idx ++ [d]))
    else mret (inr (0, idx))) (0, []).

(** ** Requests *)

(** The three descriptors of a request, and its place in the avail ring. *)
Definition rw_format (b : Z) (write : bool) (sector i0 i1 i2 : Z) : M vst unit :=
  modify (upd_ops i0 (set_rq_type (if write then VIRTIO_BLK_T_OUT else VIRTIO_BLK_T_IN)));;
  modify (upd_ops i0 (set_rq_reserved 0));;
  modify (upd_ops i0 (set_rq_sector sector));;
  modify (upd_desc i0 (set_d_addr (LOps i0)));;
  modify (upd_desc i0 (set_d_len 16));;
  modify (upd_desc i0 (set_d_flags VRING_DESC_F_NEXT));;
  modify (upd_desc i0 (set_d_next i1));;
  modify (upd_desc i1 (set_d_addr (LData b)));;
  modify (upd_desc i1 (set_d_len BSIZE));;
  modify (upd_desc i1 (set_d_flags (if write then 0 else VRING_DESC_F_WRITE)));;
  modify (upd_desc i1 (λ d, set_d_flags (Z.lor (d_flags d) VRING_DESC_F_NEXT) d));;
  modify (upd_desc i1 (set_d_next i2));;
  modify (upd_info i0 (set_in_status 0xff));;
  modify (upd_desc i2 (set_d_addr (LStatus i0)));;
  modify (upd_desc i2 (set_d_len 1));;
  modify (upd_desc i2 (set_d_flags VRING_DESC_F_WRITE));;
  modify (upd_desc i2 (set_d_next 0));;
  modify (upd_vbuf b (set_vb_disk 1));;
  modify (upd_info i0 (set_in_b b)).
Definition rw_notify (i0 : Z) : M vst unit :=
  modify (upd_d (λ d, set_vd_avail (set_av_ring (fupd (av_idx (vd_avail d) mod NUM) i0 (av_ring (vd_avail d))) (vd_avail d)) d));;
  modify (upd_d (λ d, set_vd_avail (set_av_idx (u16 (av_idx (vd_avail d) + 1)) (vd_avail d)) d));;
  mmio_put VIRTIO_MMIO_QUEUE_NOTIFY 0.
Definition rw_done (i0 : Z) : M vst unit :=
  modify (upd_info i0 (set_in_b NULLP));;
  free_chain i0.

(** b->blockno is a uint and so is the product. *)
Definition sector_of (b : Z) (s : vst) : Z := u32 (vb_blockno (v_buf s b) * (BSIZE / 512)).

(** One turn of each of the two loops in which the call sleeps. *)
Definition get_turn `{!KernelView vst} : M vst (unit + list Z) :=
  '(r, idx) ← alloc3_desc;
  if r =? 0 then mret (inr idx) else sleep ChDisk vdisk_lock;; mret (inl tt).
Definition done_turn `{!KernelView vst} (b : Z) : M vst (unit + unit) :=
  d ← gets (λ s, vb_disk (v_buf s b));
  if d =? 1 then sleep (ChBuf b) vdisk_lock;; mret (inl tt) else mret (inr tt).

Definition virtio_disk_rw `{!KernelView vst} `{!WaitBound} (b : Z) (write : bool) : M vst unit :=
  sector ← gets (sector_of b);
  lock_acquire vdisk_lock;;
  idx ← loop wait_bound (λ _, get_turn) tt;
  let i0 := nth 0 idx 0 in
  rw_format b write sector i0 (nth 1 idx 0) (nth 2 idx 0);;
  rw_notify i0;;
  loop wait_bound (λ _, done_turn b) tt;;
  rw_done i0;;
  lock_release vdisk_lock.

(** ** Completion *)

Definition intr_turn : M vst (unit + unit) :=
  d ← gets v_d;
  if vd_used_idx d =? us_idx (vd_used d) then mret (inr tt) else
  let id := ue_id (us_ring (vd_used d) (vd_used_idx d mod NUM)) in
  if ctrue (in_status (vd_info d id)) then panic "virtio_disk_intr status" else
  let b := in_b (vd_info d id) in
  modify (upd_vbuf b (set_vb_disk 0));;
  kcall (wakeup (ChBuf b));;
  modify (upd_d (λ d, set_vd_used_idx (u16 (vd_used_idx d + 1)) d));;
  mret (inl tt).
(** The indices are 16 bits wide. *)
Definition virtio_disk_intr `{!Mmio} : M vst unit :=
  lock_acquire vdisk_lock;;
  st ← mmio_get VIRTIO_MMIO_INTERRUPT_STATUS;
  mmio_put VIRTIO_MMIO_INTERRUPT_ACK (Z.land st 0x3);;
  loop (Z.to_nat (2 ^ 16)) (λ _, intr_turn) tt;;
  lock_release vdisk_lock.

(** ** Initialisation *)

Definition check_reg `{!Mmio} (r v : Z) : M vst bool := x ← mmio_get r; mret (x =? v).

(** The bits that the driver does not accept, cleared one by one; [~(1 << n)] is an int that
    is extended to 64 bits. *)
Definition clear_bits (features : Z) : Z :=
  foldl (λ f n, Z.land f (u64 (Z.lnot (Z.shiftl 1 n)))) features
    [VIRTIO_BLK_F_RO; VIRTIO_BLK_F_SCSI; VIRTIO_BLK_F_CONFIG_WCE; VIRTIO_BLK_F_MQ; VIRTIO_F_ANY_LAYOUT;
     VIRTIO_RING_F_EVENT_IDX; VIRTIO_RING_F_INDIRECT_DESC].

(** The status bits, the features, and the size of queue 0. *)
Definition init_device `{!Mmio} : M vst Z :=
  ok1 ← check_reg VIRTIO_MMIO_MAGIC_VALUE 0x74726976;
  ok2 ← check_reg VIRTIO_MMIO_VERSION 2;
  ok3 ← check_reg VIRTIO_MMIO_DEVICE_ID 2;
  ok4 ← check_reg VIRTIO_MMIO_VENDOR_ID 0x554d4551;
  if negb (ok1 && ok2 && ok3 && ok4) then panic "could not find virtio disk" else
  mmio_put VIRTIO_MMIO_STATUS 0;;
  let status := Z.lor 0 VIRTIO_CONFIG_S_ACKNOWLEDGE in
  mmio_put VIRTIO_MMIO_STATUS status;;
  let status := Z.lor status VIRTIO_CONFIG_S_DRIVER in
  mmio_put VIRTIO_MMIO_STATUS status;;
  features ← mmio_get VIRTIO_MMIO_DEVICE_FEATURES;
  mmio_put VIRTIO_MMIO_DRIVER_FEATURES (clear_bits features);;
  mmio_put VIRTIO_MMIO_STATUS (Z.lor status VIRTIO_CONFIG_S_FEATURES_OK);;
  status ← mmio_get VIRTIO_MMIO_STATUS;
  if negb (ctrue (Z.land status VIRTIO_CONFIG_S_FEATURES_OK)) then panic "virtio disk FEATURES_OK unset" else
  mmio_put VIRTIO_MMIO_QUEUE_SEL 0;;
  ready ← mmio_get VIRTIO_MMIO_QUEUE_READY;
  if ctrue ready then panic "virtio disk should not be ready" else
  max ← mmio_get VIRTIO_MMIO_QUEUE_NUM_MAX;
  if max =? 0 then panic "virtio disk has no queue 0" else
  if max <? NUM then panic "virtio disk max queue too short" else
  mret status.

(** The pages of the descriptors and of the two rings. *)
Definition tell_queue (desc avail used : Z) : M vst unit :=
  mmio_put VIRTIO_MMIO_QUEUE_NUM NUM;;
  mmio_put VIRTIO_MMIO_QUEUE_DESC_LOW desc;;
  mmio_put VIRTIO_MMIO_QUEUE_DESC_HIGH (Z.shiftr desc 32);;
  mmio_put VIRTIO_MMIO_DRIVER_DESC_LOW avail;;
  mmio_put VIRTIO_MMIO_DRIVER_DESC_HIGH (Z.shiftr avail 32);;
  mmio_put VIRTIO_MMIO_DEVICE_DESC_LOW used;;
  mmio_put VIRTIO_MMIO_DEVICE_DESC_HIGH (Z.shiftr used 32);;
  mmio_put VIRTIO_MMIO_QUEUE_READY 1.
Definition init_queue `{!KernelImage} : M vst unit :=
  desc ← lift kmem_l kalloc;
  avail ← lift kmem_l kalloc;
  used ← lift kmem_l kalloc;
  if negb (ctrue desc) || negb (ctrue avail) || negb (ctrue used) then panic "virtio disk kalloc" else
  lift kmem_l (modify (set_ram (λ m, memset m desc 0 PGSIZE)));;
  lift kmem_l (modify (set_ram (λ m, memset m avail 0 PGSIZE)));;
  lift kmem_l (modify (set_ram (λ m, memset m used 0 PGSIZE)));;
  modify (upd_d (λ d, set_vd_desc (λ _, desc0) (set_vd_avail (Virtq_avail 0 (λ _, 0))
    (set_vd_used (Virtq_used 0 (λ _, Virtq_used_elem 0 0)) d))));;
  tell_queue desc avail used.

Definition virtio_disk_init `{!KernelImage} `{!Mmio} : M vst unit :=
  modify (lset vdisk_lock false);;
  status ← init_device;
  init_queue;;
  loop (S (Z.to_nat NUM)) (λ i, if i <? NUM then modify (put_free i 1);; mret (inl (i + 1)) else mret (inr tt)) 0;;
  mmio_put VIRTIO_MMIO_STATUS (Z.lor status VIRTIO_CONFIG_S_DRIVER_OK).

(** ** What the device may do

    The device has looked at the avail ring up to the index [dv_seen] and works on the
    requests whose heads are [dv_taken]. *)
Record dview := Dview {
  dv_seen : Z;
  dv_taken : list Z;
}.

(** The sectors of a transfer of [len] bytes. *)
Definition sect_read (sect : Z → list Z) (sec len : Z) : list Z := concat (map sect (seqZ sec (len / 512))).
Definition sect_write (sect : Z → list Z) (sec len : Z) (data : list Z) : Z → list Z := λ n,
  if (sec <=? n) && (n <? sec + len / 512) then take 512 (drop (Z.to_nat (512 * (n - sec))) data) else sect n.

(** The request of the chain with the head [h], as section 5.2.6 of the virtio specification lays
    it out: a header that the device reads, the data, which it writes for a request to read
    from the disk and reads for a request to write, and a status byte that it writes; each
    but the last has a next one.  The addresses and the length of the data, if the chain
    has that form. *)
Definition has_next (d : virtq_desc) : bool := ctrue (Z.land (d_flags d) VRING_DESC_F_NEXT).
Definition dev_writes (d : virtq_desc) : bool := ctrue (Z.land (d_flags d) VRING_DESC_F_WRITE).
Definition dev_request (h : Z) (s : vst) : option (Z * Z * Z * Z) :=
  let d0 := vd_desc (v_d s) h in
  let d1 := vd_desc (v_d s) (d_next d0) in
  let d2 := vd_desc (v_d s) (d_next d1) in
  match d_addr d0, d_addr d1, d_addr d2 with
  | LOps o, LData b, LStatus k =>
    let t := rq_type (vd_ops (v_d s) o) in
    if has_next d0 && negb (dev_writes d0) && (d_len d0 =? 16) &&
       has_next d1 && (d_len d1 mod 512 =? 0) &&
       ((t =? VIRTIO_BLK_T_IN) && dev_writes d1 || (t =? VIRTIO_BLK_T_OUT) && negb (dev_writes d1)) &&
       negb (has_next d2) && dev_writes d2 && (d_len d2 =? 1)
    then Some (o, b, d_len d1, k) else None
  | _, _, _ => None
  end.

(** The device moves [x], writes the status [st], and puts the head of the chain into the
    used ring with the number [n] of the bytes that it wrote. *)
Definition dev_finish (h o b len k st n : Z) (x : list Z) (s : vst) : vst :=
  let r := vd_ops (v_d s) o in
  let s := if rq_type r =? VIRTIO_BLK_T_OUT
    then set_v_sect (sect_write (v_sect s) (rq_sector r) len x) s
    else upd_vbuf b (set_vb_data x) s in
  let s := upd_info k (set_in_status st) s in
  upd_d (λ d, set_vd_used (Virtq_used (u16 (us_idx (vd_used d) + 1))
    (fupd (us_idx (vd_used d) mod NUM) (Virtq_used_elem h n) (us_ring (vd_used d)))) d) s.

(** What the request asks for. *)
Definition dev_data (o b len : Z) (s : vst) : list Z :=
  let r := vd_ops (v_d s) o in
  if rq_type r =? VIRTIO_BLK_T_OUT then vb_data (v_buf s b) else sect_read (v_sect s) (rq_sector r) len.

(** A device may fail: then the status is an error and it may have moved anything. *)
Definition VIRTIO_BLK_S_OK : Z := 0.
Definition VIRTIO_BLK_S_IOERR : Z := 1.
Definition VIRTIO_BLK_S_UNSUPP : Z := 2.
Definition dev_outcome (h o b len k : Z) (s s' : vst) : Prop :=
  ∃ st n x, s' = dev_finish h o b len k st n x s ∧
    ((st = VIRTIO_BLK_S_OK ∧ x = dev_data o b len s) ∨
     ((st = VIRTIO_BLK_S_IOERR ∨ st = VIRTIO_BLK_S_UNSUPP) ∧ Z.of_nat (length x) = len)).

(** The device waits, takes the next request, or ends one of those that it has taken; what it
    does with a chain that is not a request is not known. *)
Inductive dev_allowed : dview → vst → dview → vst → Prop :=
| dev_idle v s : dev_allowed v s v s
| dev_take v s : dv_seen v ≠ av_idx (vd_avail (v_d s)) →
    dev_allowed v s (Dview (u16 (dv_seen v + 1)) (dv_taken v ++ [av_ring (vd_avail (v_d s)) (dv_seen v mod NUM)])) s
| dev_complete v s l1 h l2 s' : dv_taken v = l1 ++ h :: l2 →
    (∀ o b len k, dev_request h s = Some (o, b, len, k) → dev_outcome h o b len k s s') →
    dev_allowed v s (Dview (dv_seen v) (l1 ++ l2)) s'.

(** A device: its state, its steps, and that they are allowed. *)
Class VirtioDevice := {
  dev : Type;
  dev_view : dev → dview;
  dev_step : dev → vst → dev → vst → Prop;
  dev_step_allowed d s d' s' : dev_step d s d' s' → dev_allowed (dev_view d) s (dev_view d') s';
}.

(** ** Lemmas: rings *)

(** The entries of a ring from the index [lo] up to [hi]; the indices wrap at 16 bits. *)
Definition window (ring : Z → Z) (lo hi : Z) : list Z := map (λ k, ring (u16 (lo + k) mod NUM)) (seqZ 0 (u16 (hi - lo))).

Lemma window_ext f g lo hi : (∀ i, f i = g i) → window f lo hi = window g lo hi.
Proof. intros E. apply map_ext. intros k. apply E. Qed.
Lemma window_nil ring lo : window ring lo lo = [].
Proof. unfold window. by rewrite Z.sub_diag. Qed.
Lemma window_length ring lo hi : Z.of_nat (length (window ring lo hi)) = u16 (hi - lo).
Proof.
  unfold window. rewrite length_map, length_seqZ. unfold u16. pose proof (Z.mod_pos_bound (hi - lo) (2 ^ 16)). lia.
Qed.
Lemma window_pop ring lo hi : 0 ≤ lo < 2 ^ 16 → 0 ≤ hi < 2 ^ 16 → lo ≠ hi →
  window ring lo hi = ring (lo mod NUM) :: window ring (u16 (lo + 1)) hi.
Proof.
  intros Hlo Hhi Hne. unfold window, u16.
  assert ((hi - lo) mod 2 ^ 16 = (hi - (lo + 1) mod 2 ^ 16) mod 2 ^ 16 + 1) as ->.
  { Z.to_euclidean_division_equations. lia. }
  set (n := (hi - _) mod _). assert (0 ≤ n) as Hn by (unfold n; apply Z.mod_pos_bound; lia).
  rewrite seqZ_cons by lia. simpl. f_equal; [by rewrite Z.add_0_r, (Z.mod_small lo) by lia|].
  replace (Z.pred (n + 1)) with n by lia. change (Z.succ 0) with (1 + 0). rewrite <- fmap_add_seqZ.
  change (Z.add 1 <$> seqZ 0 n) with (map (Z.add 1) (seqZ 0 n)). rewrite map_map. apply map_ext. intros k.
  f_equal. f_equal. rewrite Zplus_mod_idemp_l. f_equal. lia.
Qed.
Lemma window_push ring lo hi v : 0 ≤ lo < 2 ^ 16 → 0 ≤ hi < 2 ^ 16 → u16 (hi - lo) < NUM →
  window (fupd (hi mod NUM) v ring) lo (u16 (hi + 1)) = window ring lo hi ++ [v].
Proof.
  intros Hlo Hhi Hn. unfold window, u16, NUM in *.
  assert (((hi + 1) mod 2 ^ 16 - lo) mod 2 ^ 16 = (hi - lo) mod 2 ^ 16 + 1) as -> by (Z.to_euclidean_division_equations; lia).
  set (n := (hi - lo) mod _) in *. assert (0 ≤ n) as Hn0 by (unfold n; apply Z.mod_pos_bound; lia).
  rewrite seqZ_app by lia. rewrite map_app. f_equal.
  - apply map_ext_in. intros k Hk. apply list_elem_of_In, elem_of_seqZ in Hk. rewrite fupd_ne; [done|].
    assert (0 ≤ k < n) as Hk' by lia. unfold n in *. clear -Hk' Hn Hlo Hhi. Z.to_euclidean_division_equations. lia.
  - change (seqZ (0 + n) 1) with [0 + n]. simpl. f_equal.
    replace ((lo + (0 + n)) mod 2 ^ 16) with hi by (unfold n; clear -Hlo Hhi; Z.to_euclidean_division_equations; lia). apply fupd_eq.
Qed.

(** ** Lemmas: descriptors *)

Abbreviation desc_at s := (vd_desc (v_d s)).
Abbreviation free_at s := (vd_free (v_d s)).
Abbreviation info_at s := (vd_info (v_d s)).
Definition is_index (i : Z) : Prop := 0 ≤ i < NUM.

(** Everything but the process layer, the descriptors and which of them are free. *)
Definition core_of (s : vst) :=
  (v_buf s, v_sect s, (vd_avail (v_d s), vd_used (v_d s), vd_used_idx (v_d s), vd_info (v_d s), vd_ops (v_d s))).
Definition rest_of (s : vst) := (core_of s, v_mmio s, vd_lock (v_d s)).

Lemma alloc_desc_spec s :
  (∃ i, is_index i ∧ free_at s i ≠ 0 ∧ alloc_desc s = Ok i (put_free i 0 s)) ∨
  ((∀ i, is_index i → free_at s i = 0) ∧ alloc_desc s = Ok (-1) s).
Proof.
  assert (∀ n k, (n + k = 8)%nat → (∀ i, 0 ≤ i < Z.of_nat k → free_at s i = 0) →
    let m := loop (S n) (λ i, if i <? NUM then
        f ← gets (λ s, free_at s i);
        if ctrue f then modify (put_free i 0);; mret (inr i) else mret (inl (i + 1))
      else mret (inr (-1))) (Z.of_nat k) in
    (∃ i, is_index i ∧ free_at s i ≠ 0 ∧ m s = Ok i (put_free i 0 s)) ∨ ((∀ i, is_index i → free_at s i = 0) ∧ m s = Ok (-1) s)) as H.
  { unfold is_index, NUM. induction n as [|n IH]; intros k Hk Hz.
    - right. split; [intros i Hi; apply Hz; lia|]. cbn [loop]. by replace (Z.of_nat k <? 8) with false by lia.
    - cbn [loop]. replace (Z.of_nat k <? 8) with true by lia. munfold. unfold ctrue.
      destruct (free_at s (Z.of_nat k) =? 0) eqn:E; simpl.
      + replace (Z.of_nat k + 1) with (Z.of_nat (S k)) by lia. apply (IH (S k)); [lia|]. intros i Hi.
        destruct (decide (i = Z.of_nat k)) as [->|]; [lia|]. apply Hz. lia.
      + left. exists (Z.of_nat k). split_and!; [lia|lia|lia|done]. }
  apply (H 8%nat 0%nat); [done|]. intros i Hi. lia.
Qed.

(** The processes after wakeups of the channels [cs]. *)
Definition rouse (me j : Z) (cs : list chan) (p : proc) : proc := foldl (λ p c, woken me c j p) p cs.
Definition rouses (cs : list chan) (k k' : kern) : Prop :=
  k_me k' = k_me k ∧ ∀ j, 0 ≤ j < NPROC → procp j k' = rouse (k_me k) j cs (procp j k).

Lemma rouses_nil k k' : k_me k' = k_me k → k_procs k' = k_procs k → rouses [] k k'.
Proof. intros Hm Hp. split; [done|]. intros j _. unfold procp. by rewrite Hp. Qed.
Lemma rouses_app cs cs' k k1 k2 : rouses cs k k1 → rouses cs' k1 k2 → rouses (cs ++ cs') k k2.
Proof.
  intros [M1 P1] [M2 P2]. split; [congruence|]. intros j Hj. rewrite P2, P1, M1 by done. unfold rouse. by rewrite foldl_app.
Qed.
Lemma rouses_ext cs k1 k1' k2 k2' : rouses cs k1 k2 → k_me k1' = k_me k1 → k_procs k1' = k_procs k1 → k_me k2' = k_me k2 →
  k_procs k2' = k_procs k2 → rouses cs k1' k2'.
Proof. intros [M P] A1 B1 A2 B2. split; [congruence|]. intros j Hj. unfold procp in *. rewrite B1, B2, A1. by apply P. Qed.
Lemma wakeup_rouses c k : table_ok k → ∃ k', wakeup c k = Ok tt k' ∧ kframe k k' ∧ rouses [c] k k'.
Proof.
  intros Hk. destruct (wakeup_frame c k Hk) as (k' & Hw & Hf). exists k'. split_and!; [done|done|]. rewrite (wakeup_spec c k Hk) in Hw.
  apply ok_inj in Hw as [_ <-]. split; [done|]. intros j Hj. by rewrite procp_map by (done || apply Hk).
Qed.

Lemma rouse_chan me j cs p : p_chan (rouse me j cs p) = p_chan p.
Proof.
  unfold rouse. revert p. induction cs as [|c cs IH]; intros p; [done|]. simpl. rewrite IH. unfold woken. by destruct (_ && _).
Qed.
(** A process sleeps on if none of the channels is its own, and else it does not. *)
Lemma rouse_state me j cs p : j ≠ me → p_state p = SLEEPING →
  p_state (rouse me j cs p) = if decide (p_chan p ∈ cs) then RUNNABLE else SLEEPING.
Proof.
  intros Hj. unfold rouse. revert p.
  assert (∀ l p, p_state p = RUNNABLE → p_state (foldl (λ p c, woken me c j p) p l) = RUNNABLE) as Hrun.
  { intros l. induction l as [|c l IH]; intros p Hp; [done|]. simpl. apply IH. rewrite woken_other; [done|]. left. by rewrite Hp. }
  induction cs as [|c cs IH]; intros p Hp; [done|]. simpl. destruct (decide (p_chan p = c)) as [Hc|Hc].
  - rewrite decide_True by (rewrite Hc; by left). apply Hrun. unfold woken. by rewrite !bool_decide_eq_true_2.
  - rewrite woken_other by (by right). rewrite IH by done. apply decide_ext. split; [by right|]. by intros [?|?]%elem_of_cons.
Qed.
Lemma rouse_awake me j cs p : p_state p ≠ SLEEPING → rouse me j cs p = p.
Proof.
  intros Hp. unfold rouse. induction cs as [|c cs IH]; [done|]. simpl. rewrite woken_other by (by left). done.
Qed.

(** The descriptors [l] are freed. *)
Record freed (l : list Z) (s s' : vst) : Prop := {
  fr_kern : kframe (v_kern s) (v_kern s');
  fr_desc i : desc_at s' i = if decide (i ∈ l) then desc0 else desc_at s i;
  fr_free i : free_at s' i = if decide (i ∈ l) then 1 else free_at s i;
  fr_rest : rest_of s' = rest_of s;
  fr_rouse : rouses (replicate (length l) ChDisk) (v_kern s) (v_kern s');
}.

Lemma freed_nil s : freed [] s s.
Proof. by constructor. Qed.
Lemma freed_cons i l s s1 s' : freed [i] s s1 → freed l s1 s' → freed (i :: l) s s'.
Proof.
  intros [K1 D1 F1 R1 W1] [K2 D2 F2 R2 W2]. constructor; [by etrans| | |congruence|exact (rouses_app _ _ _ _ _ W1 W2)].
  - intros j. rewrite D2, D1. repeat case_decide; set_solver.
  - intros j. rewrite F2, F1. repeat case_decide; set_solver.
Qed.

Lemma free_desc_spec i s : is_index i → free_at s i = 0 → table_ok (v_kern s) → ∃ s', free_desc i s = Ok tt s' ∧ freed [i] s s'.
Proof.
  intros Hi Hf Hk. destruct (wakeup_rouses ChDisk (v_kern s) Hk) as (k' & Hw & Hfr & Hro). unfold is_index in Hi.
  unfold free_desc. replace (i >=? NUM) with false by lia. erewrite bind_ok by reflexivity. rewrite Hf. cbn [ctrue Z.eqb negb].
  do 5 (erewrite bind_ok by reflexivity). erewrite kcall_ok by exact Hw. eexists. split; [reflexivity|].
  constructor; [done| | |done|done]; intros j; simpl; destruct (decide (j ∈ [i])) as [->%list_elem_of_singleton|Hn]; rewrite ?fupd_eq; try done.
  - rewrite !fupd_ne by set_solver. done.
  - rewrite !fupd_ne by set_solver. done.
Qed.

Lemma free_descs_spec l s : NoDup l → Forall (λ i, is_index i ∧ free_at s i = 0) l → table_ok (v_kern s) →
  ∃ s', free_descs l s = Ok tt s' ∧ freed l s s'.
Proof.
  intros Hnd. revert s. induction Hnd as [|i l Hi Hnd IH]; intros s Hl Hk; [exists s; split; [done|apply freed_nil]|].
  apply Forall_cons in Hl as [[Hr Hf] Hl]. destruct (free_desc_spec i s Hr Hf Hk) as (s1 & E1 & H1).
  destruct (IH s1) as (s2 & E2 & H2).
  - apply Forall_forall. intros j Hj. destruct (proj1 (Forall_forall _ _) Hl j Hj) as [? Hz]. split; [done|].
    rewrite (fr_free _ _ _ H1), decide_False; [done|]. intros ->%list_elem_of_singleton. done.
  - apply (kframe_ok _ _ (fr_kern _ _ _ H1) Hk).
  - exists s2. split; [|by eapply freed_cons]. cbn [free_descs]. by rewrite (bind_ok _ _ _ _ _ E1).
Qed.

Lemma free_desc_other i t t' j : free_desc i t = Ok tt t' → j ≠ i → desc_at t' j = desc_at t j.
Proof.
  intros Ht Hj. revert Ht. unfold free_desc. destruct (i >=? NUM); [done|]. erewrite bind_ok by reflexivity.
  destruct (ctrue _); [done|]. do 5 (erewrite bind_ok by reflexivity). unfold kcall, lift. destruct (wakeup _ _); try done.
  intros [_ <-]%ok_inj. simpl. by rewrite !fupd_ne.
Qed.

Lemma free_chain_turn_spec i t t' : free_desc i t = Ok tt t' →
  free_chain_turn i t = Ok (if Z.land (d_flags (desc_at t i)) VRING_DESC_F_NEXT =? 0 then inr tt else inl (d_next (desc_at t i))) t'.
Proof.
  intros H. unfold free_chain_turn. do 2 (erewrite bind_ok by reflexivity). erewrite bind_ok by exact H. unfold ctrue. by destruct (_ =? 0).
Qed.

(** The chain of a request: two descriptors that have a next one, and one that has not. *)
Lemma free_chain_spec i0 i1 i2 s : NoDup [i0; i1; i2] → Forall (λ i, is_index i ∧ free_at s i = 0) [i0; i1; i2] → table_ok (v_kern s) →
  (Z.land (d_flags (desc_at s i0)) VRING_DESC_F_NEXT ≠ 0 ∧ d_next (desc_at s i0) = i1) →
  (Z.land (d_flags (desc_at s i1)) VRING_DESC_F_NEXT ≠ 0 ∧ d_next (desc_at s i1) = i2) →
  Z.land (d_flags (desc_at s i2)) VRING_DESC_F_NEXT = 0 →
  ∃ s', free_chain i0 s = Ok tt s' ∧ freed [i0; i1; i2] s s'.
Proof.
  intros Hnd Hl Hk [F0 N0] [F1 N1] F2. apply (free_descs_spec _ _ Hnd Hl) in Hk as (s' & E & Hfr).
  exists s'. split; [|done]. cbn [free_descs] in E. apply bind_ok_inv in E as ([] & s1 & E1 & E).
  apply bind_ok_inv in E as ([] & s2 & E2 & E). apply bind_ok_inv in E as ([] & s3 & E3 & E). apply ok_inj in E as [_ <-].
  apply NoDup_cons in Hnd as [? [? _]%NoDup_cons].
  unfold free_chain. change (S (Z.to_nat NUM)) with 9%nat. cbn [loop].
  rewrite (bind_ok _ _ _ _ _ (free_chain_turn_spec _ _ _ E1)), (proj2 (Z.eqb_neq _ _) F0), N0.
  rewrite (bind_ok _ _ _ _ _ (free_chain_turn_spec _ _ _ E2)), (free_desc_other _ _ _ i1 E1) by set_solver.
  rewrite (proj2 (Z.eqb_neq _ _) F1), N1.
  rewrite (bind_ok _ _ _ _ _ (free_chain_turn_spec _ _ _ E3)), (free_desc_other _ _ _ i2 E2) by set_solver.
  rewrite (free_desc_other _ _ _ i2 E1) by set_solver. by rewrite F2.
Qed.

Definition three_free (s : vst) : Prop :=
  ∃ l, NoDup l ∧ length l = 3%nat ∧ Forall (λ i, is_index i ∧ free_at s i ≠ 0) l.

(** Three descriptors, or none: those taken on the way are given back. *)
Lemma alloc3_desc_spec s : table_ok (v_kern s) → (∀ i, is_index i → free_at s i = 0 ∨ free_at s i = 1) →
  (∃ i0 i1 i2, NoDup [i0; i1; i2] ∧ Forall (λ i, is_index i ∧ free_at s i = 1) [i0; i1; i2] ∧
     alloc3_desc s = Ok (0, [i0; i1; i2]) (put_free i2 0 (put_free i1 0 (put_free i0 0 s)))) ∨
  (∃ idx s', alloc3_desc s = Ok (-1, idx) s' ∧ kframe (v_kern s) (v_kern s') ∧ rest_of s' = rest_of s ∧
     (∀ i, free_at s' i = free_at s i) ∧ (∀ i, free_at s i = 0 → desc_at s' i = desc_at s i) ∧
     (∃ n, rouses (replicate n ChDisk) (v_kern s) (v_kern s')) ∧ ¬ three_free s).
Proof.
  intros Hk Hf. set (body := λ '((i, idx) : Z * list Z), if i <? 3 then
      d ← alloc_desc;
      if d <? 0 then free_descs idx;; mret (inr (-1, idx ++ [d])) else mret (inl (i + 1, idx ++ [d]))
    else mret (M := M vst) (inr (0, idx))).
  assert (∀ idx t, NoDup idx → Forall (λ i, is_index i ∧ free_at s i = 1) idx → rest_of t = rest_of s → v_kern t = v_kern s →
     (∀ i, desc_at t i = desc_at s i) → (∀ i, free_at t i = if decide (i ∈ idx) then 0 else free_at s i) → (length idx < 3)%nat →
     (∃ d, (d ∉ idx) ∧ is_index d ∧ free_at s d = 1 ∧ body (Z.of_nat (length idx), idx) t = Ok (inl (Z.of_nat (length idx) + 1, idx ++ [d])) (put_free d 0 t)) ∨
     (∃ idx' s', body (Z.of_nat (length idx), idx) t = Ok (inr (-1, idx')) s' ∧ kframe (v_kern s) (v_kern s') ∧ rest_of s' = rest_of s ∧
       (∀ i, free_at s' i = free_at s i) ∧ (∀ i, free_at s i = 0 → desc_at s' i = desc_at s i) ∧
       (∃ n, rouses (replicate n ChDisk) (v_kern s) (v_kern s')) ∧ ¬ three_free s)) as Hstep.
  { intros idx t Hnd Hidx Hrest Hkt Hde Hft Hlen. unfold body. replace (Z.of_nat (length idx) <? 3) with true by lia.
    destruct (alloc_desc_spec t) as [(d & Hd & Hfd & E)|[Hall E]].
    - left. exists d. rewrite (bind_ok _ _ _ _ _ E). unfold is_index in *. replace (d <? 0) with false by lia.
      rewrite Hft in Hfd. case_decide; [done|]. destruct (Hf d Hd); [lia|]. done.
    - right. destruct (free_descs_spec idx t Hnd) as (s' & E' & [K D F R W]).
      + apply Forall_forall. intros i Hi. split; [by apply (proj1 (Forall_forall _ _) Hidx i Hi)|]. rewrite Hft. by rewrite decide_True.
      + by rewrite Hkt.
      + exists (idx ++ [-1]), s'. rewrite (bind_ok _ _ _ _ _ E). simpl. rewrite (bind_ok _ _ _ _ _ E'). rewrite Hkt in K, W.
        split_and!; [done|done|congruence|intros i|intros i|by eexists|].
        * rewrite F, Hft. case_decide as Hi; [|done]. symmetry. by apply (proj1 (Forall_forall _ _) Hidx i Hi).
        * intros Hz. rewrite D, Hde. case_decide as Hi; [|done]. destruct (proj1 (Forall_forall _ _) Hidx i Hi) as [_ ?]. lia.
        * intros (l & Hndl & Hl3 & Hl). assert (l ⊆ idx) as Hsub%(NoDup_submseteq _ _ Hndl)%submseteq_length; [|lia].
          intros i Hi. destruct (proj1 (Forall_forall _ _) Hl i Hi) as [Hr Hn]. specialize (Hall i Hr). rewrite Hft in Hall. by case_decide. }
  unfold alloc3_desc. fold body. cbn [loop].
  destruct (Hstep [] s) as [(i0 & _ & R0 & Z0 & E0)|(idx & s' & E & Hs)]; [by constructor|done|done|done|done|done|simpl; lia| |].
  2:{ right. exists idx, s'. by rewrite (bind_ok _ _ _ _ _ E). }
  rewrite (bind_ok _ _ _ _ _ E0). simpl in E0 |- *.
  destruct (Hstep [i0] (put_free i0 0 s)) as [(i1 & N1 & R1 & Z1 & E1)|(idx & s' & E & Hs)]; try done.
  { apply NoDup_singleton. } { by apply Forall_singleton. } { intros i. simpl. unfold fupd. destruct (Z.eqb_spec i i0); case_decide; set_solver. } { simpl. lia. }
  2:{ right. exists idx, s'. by rewrite (bind_ok _ _ _ _ _ E). }
  rewrite (bind_ok _ _ _ _ _ E1). simpl.
  destruct (Hstep [i0; i1] (put_free i1 0 (put_free i0 0 s))) as [(i2 & N2 & R2 & Z2 & E2)|(idx & s' & E & Hs)]; try done.
  { apply NoDup_cons. split; [set_solver|apply NoDup_singleton]. } { by rewrite !Forall_cons, Forall_nil. }
  { intros i. simpl. unfold fupd. destruct (Z.eqb_spec i i0), (Z.eqb_spec i i1); case_decide; set_solver. } { simpl. lia. }
  2:{ right. exists idx, s'. by rewrite (bind_ok _ _ _ _ _ E). }
  rewrite (bind_ok _ _ _ _ _ E2). simpl. left. exists i0, i1, i2. split_and!; [|by rewrite !Forall_cons, Forall_nil|done].
  apply NoDup_cons. split; [set_solver|]. apply NoDup_cons. split; [set_solver|apply NoDup_singleton].
Qed.

(** ** Requests in flight *)

(** How far the call of virtio_disk_rw for a buffer has got; the buffer's sleep lock keeps
    other processes away from it. *)
Inductive phase :=
| PIdle                                   (* no call *)
| PWait (write : bool)                    (* no descriptors yet *)
| PFly (write : bool) (i0 i1 i2 : Z).     (* the chain is with the device, or the call has not seen that it is not *)

Definition idx_of (p : phase) : list Z := match p with PFly _ i0 i1 i2 => [i0; i1; i2] | _ => [] end.

Record request_ok (s : vst) (b : Z) (w : bool) (i0 i1 i2 : Z) : Prop := {
  ro_range : Forall is_index [i0; i1; i2];
  ro_nodup : NoDup [i0; i1; i2];
  ro_d0 : desc_at s i0 = Virtq_desc (LOps i0) 16 VRING_DESC_F_NEXT i1;
  ro_d1 : desc_at s i1 = Virtq_desc (LData b) BSIZE (Z.lor (if w then 0 else VRING_DESC_F_WRITE) VRING_DESC_F_NEXT) i2;
  ro_d2 : desc_at s i2 = Virtq_desc (LStatus i0) 1 VRING_DESC_F_WRITE 0;
  ro_op : vd_ops (v_d s) i0 = Virtio_blk_req (if w then VIRTIO_BLK_T_OUT else VIRTIO_BLK_T_IN) 0 (sector_of b s);
  ro_b : in_b (info_at s i0) = b;
}.

(** The heads that the device has still to carry out, and those that it has carried out and
    the interrupt handler has not seen. *)
Definition todo (s : vst) (v : dview) : list Z :=
  window (av_ring (vd_avail (v_d s))) (dv_seen v) (av_idx (vd_avail (v_d s))) ++ dv_taken v.
Definition finished (s : vst) : list Z :=
  window (λ i, ue_id (us_ring (vd_used (v_d s)) i)) (vd_used_idx (v_d s)) (us_idx (vd_used (v_d s))).

Definition is_u16 (x : Z) : Prop := 0 ≤ x < 2 ^ 16.

Record vinv (s : vst) (ph : Z → phase) (v : dview) : Prop := {
  vi_kern : table_ok (v_kern s);
  vi_free i : is_index i → (free_at s i = 1 ∧ ∀ b, i ∉ idx_of (ph b)) ∨ (free_at s i = 0 ∧ ∃ b, i ∈ idx_of (ph b));
  vi_disj b b' i : i ∈ idx_of (ph b) → i ∈ idx_of (ph b') → b = b';
  vi_req b w i0 i1 i2 : ph b = PFly w i0 i1 i2 → request_ok s b w i0 i1 i2;
  vi_todo h : h ∈ todo s v → ∃ b w i1 i2, ph b = PFly w h i1 i2 ∧ vb_disk (v_buf s b) = 1 ∧ in_status (info_at s h) = 0xff;
  vi_fin h : h ∈ finished s → ∃ b w i1 i2, ph b = PFly w h i1 i2 ∧ vb_disk (v_buf s b) = 1 ∧ in_status (info_at s h) ≠ 0xff;
  vi_fly b w i0 i1 i2 : ph b = PFly w i0 i1 i2 →
    i0 ∈ todo s v ∨ i0 ∈ finished s ∨ (vb_disk (v_buf s b) = 0 ∧ in_status (info_at s i0) = 0);
  vi_nodup : NoDup (todo s v ++ finished s);
  vi_idx : is_u16 (dv_seen v) ∧ is_u16 (av_idx (vd_avail (v_d s))) ∧ is_u16 (us_idx (vd_used (v_d s))) ∧ is_u16 (vd_used_idx (v_d s));
  vi_buf b : 0 ≤ vb_blockno (v_buf s b) < 2 ^ 31 ∧ length (vb_data (v_buf s b)) = Z.to_nat BSIZE;
  vi_sect n : length (v_sect s n) = 512%nat;
}.

(** The descriptors of a request are not free. *)
Lemma vi_busy s ph v b i : vinv s ph v → i ∈ idx_of (ph b) → is_index i → free_at s i = 0.
Proof. intros H Hb Hi. destruct (vi_free _ _ _ H i Hi) as [[_ Hn]|[? _]]; [by destruct (Hn b)|done]. Qed.

(** A head belongs to one request. *)
Lemma vi_head s ph v b b' w w' h i1 i2 j1 j2 : vinv s ph v → ph b = PFly w h i1 i2 → ph b' = PFly w' h j1 j2 → b = b'.
Proof. intros H E E'. apply (vi_disj _ _ _ H b b' h); [rewrite E|rewrite E']; set_solver. Qed.

(** At most NUM heads are under way. *)
Lemma vi_heads s ph v h : vinv s ph v → h ∈ todo s v ++ finished s → is_index h.
Proof.
  intros H [Hi|Hi]%elem_of_app; [destruct (vi_todo _ _ _ H h Hi) as (b & w & i1 & i2 & E & _)|destruct (vi_fin _ _ _ H h Hi) as (b & w & i1 & i2 & E & _)];
    by pose proof (ro_range _ _ _ _ _ _ (vi_req _ _ _ H _ _ _ _ _ E)) as [? _]%Forall_cons.
Qed.
Lemma indices_bound l : NoDup l → (∀ i, i ∈ l → is_index i) → Z.of_nat (length l) ≤ NUM.
Proof.
  intros Hnd Hl. assert (l ⊆ seqZ 0 NUM) as Hsub by (intros i Hi; apply elem_of_seqZ; by apply Hl).
  apply (NoDup_submseteq _ _ Hnd), submseteq_length in Hsub. change (length (seqZ 0 NUM)) with 8%nat in Hsub. unfold NUM. lia.
Qed.
Lemma vi_len s ph v : vinv s ph v → Z.of_nat (length (todo s v ++ finished s)) ≤ NUM.
Proof. intros H. apply indices_bound; [apply H|]. intros i. by eapply vi_heads. Qed.
Lemma vi_bound s ph v h : vinv s ph v → is_index h → h ∉ todo s v ++ finished s → Z.of_nat (length (todo s v ++ finished s)) < NUM.
Proof.
  intros H Hh Hn. assert (Z.of_nat (length (h :: todo s v ++ finished s)) ≤ NUM) as Hl.
  { apply indices_bound; [constructor; [done|apply H]|]. intros i [->|Hi]%elem_of_cons; [done|]. by eapply vi_heads. }
  simpl in Hl. lia.
Qed.

(** The invariant is about the busy descriptors, and not about the lock and the registers. *)
Lemma vinv_ext s s' ph v : vinv s ph v → table_ok (v_kern s') → (∀ i, free_at s' i = free_at s i) →
  (∀ i, free_at s i = 0 → desc_at s' i = desc_at s i) → core_of s' = core_of s → vinv s' ph v.
Proof.
  intros H Hk Hf Hd Hc. unfold core_of in Hc. injection Hc as Hbuf Hsect Hav Hus Hui Hin Hop.
  assert (todo s' v = todo s v) as Ht by (unfold todo; by rewrite Hav).
  assert (finished s' = finished s) as Hfi by (unfold finished; by rewrite Hus, Hui).
  constructor; rewrite ?Ht, ?Hfi, ?Hbuf, ?Hsect, ?Hav, ?Hus, ?Hui, ?Hin; try apply H; [done|..].
  - intros i Hi. rewrite Hf. by apply H.
  - intros b w i0 i1 i2 E. destruct (vi_req _ _ _ H _ _ _ _ _ E) as [R N D0 D1 D2 O B]. 
    assert (∀ i, i ∈ [i0; i1; i2] → desc_at s' i = desc_at s i) as Hsame.
    { intros i Hi. apply Hd. apply (vi_busy s ph v b); [done|by rewrite E|]. by apply (proj1 (Forall_forall _ _) R). }
    constructor; [done|done|..]; rewrite ?Hsame by set_solver; try done.
    + rewrite Hop, O. unfold sector_of. by rewrite Hbuf.
    + by rewrite Hin.
Qed.

(** A new request. *)
Record flown (b : Z) (w : bool) (i0 i1 i2 : Z) (s s' : vst) : Prop := {
  fl_kern : v_kern s' = v_kern s;
  fl_free i : free_at s' i = if decide (i ∈ [i0; i1; i2]) then 0 else free_at s i;
  fl_desc i : i ∉ [i0; i1; i2] → desc_at s' i = desc_at s i;
  fl_req : request_ok s' b w i0 i1 i2;
  fl_ops i : i ≠ i0 → vd_ops (v_d s') i = vd_ops (v_d s) i;
  fl_info i : info_at s' i = if decide (i = i0) then Vinfo b 0xff else info_at s i;
  fl_buf c : v_buf s' c = if decide (c = b) then set_vb_disk 1 (v_buf s b) else v_buf s c;
  fl_sect : v_sect s' = v_sect s;
  fl_avail : vd_avail (v_d s') = Virtq_avail (u16 (av_idx (vd_avail (v_d s)) + 1))
    (fupd (av_idx (vd_avail (v_d s)) mod NUM) i0 (av_ring (vd_avail (v_d s))));
  fl_used : vd_used (v_d s') = vd_used (v_d s) ∧ vd_used_idx (v_d s') = vd_used_idx (v_d s);
  fl_lock : vd_lock (v_d s') = vd_lock (v_d s);
}.

Lemma fly_run b w i0 i1 i2 s : NoDup [i0; i1; i2] → Forall is_index [i0; i1; i2] →
  ∃ s', (rw_format b w (sector_of b s) i0 i1 i2;; rw_notify i0) (put_free i2 0 (put_free i1 0 (put_free i0 0 s))) = Ok tt s' ∧
    flown b w i0 i1 i2 s s'.
Proof.
  intros Hnd Hr. pose proof Hnd as [H0 [H1 _]%NoDup_cons]%NoDup_cons.
  assert (i0 ≠ i1 ∧ i0 ≠ i2 ∧ i1 ≠ i2 ∧ i1 ≠ i0 ∧ i2 ≠ i0 ∧ i2 ≠ i1) as (N01 & N02 & N12 & N10 & N20 & N21) by set_solver. clear H0 H1.
  eexists. split; [unfold rw_format, rw_notify, mmio_put, modify; reflexivity|].
  constructor; simpl; try done.
  - intros i. unfold fupd. destruct (Z.eqb_spec i i2), (Z.eqb_spec i i1), (Z.eqb_spec i i0); case_decide; set_solver.
  - intros i Hi. rewrite !fupd_ne by set_solver. done.
  - constructor; simpl; try done; repeat (rewrite fupd_eq || rewrite fupd_ne by done); try done.
    unfold sector_of. simpl. by rewrite fupd_eq.
  - intros i Hi. by rewrite !fupd_ne.
  - intros i. case_decide as E; [subst; by rewrite !fupd_eq|]. by rewrite !fupd_ne.
  - intros c. case_decide as E; [subst; by rewrite fupd_eq|]. by rewrite fupd_ne.
Qed.

(** A request keeps its descriptors when those of others and the buffers' marks change. *)
Lemma request_ok_ext s s' b w i0 i1 i2 : request_ok s b w i0 i1 i2 → (∀ i, i ∈ [i0; i1; i2] → desc_at s' i = desc_at s i) →
  vd_ops (v_d s') i0 = vd_ops (v_d s) i0 → vb_blockno (v_buf s' b) = vb_blockno (v_buf s b) →
  in_b (info_at s' i0) = in_b (info_at s i0) → request_ok s' b w i0 i1 i2.
Proof.
  intros [R N D0 D1 D2 O B] Hd Ho Hb Hi. constructor; [done|done|..]; rewrite ?Hd by set_solver; try done; [|congruence].
  rewrite Ho, O. unfold sector_of. by rewrite Hb.
Qed.

Lemma ph_upd (ph : Z → phase) b p c w i0 i1 i2 : fupd b p ph c = PFly w i0 i1 i2 →
  (c = b ∧ p = PFly w i0 i1 i2) ∨ (c ≠ b ∧ ph c = PFly w i0 i1 i2).
Proof. unfold fupd. destruct (Z.eqb_spec c b); auto. Qed.

Lemma vinv_fly s s' ph v b w i0 i1 i2 : vinv s ph v → idx_of (ph b) = [] → Forall (λ i, is_index i ∧ free_at s i = 1) [i0; i1; i2] →
  flown b w i0 i1 i2 s s' → vinv s' (fupd b (PFly w i0 i1 i2) ph) v.
Proof.
  intros H Hb Hf [Fk Ffree Fdesc Freq Fops Finfo Fbuf Fsect Fav [Fus Fui] _].
  assert (∀ i, i ∈ [i0; i1; i2] → is_index i ∧ free_at s i = 1) as Hf' by (by apply Forall_forall). clear Hf.
  assert (∀ c i, i ∈ idx_of (ph c) → i ∉ [i0; i1; i2]) as Hnew.
  { intros c i Hc Hi. destruct (Hf' i Hi) as [Hr H1]. pose proof (vi_busy _ _ _ c i H Hc Hr). lia. }
  assert (∀ c u h j1 j2, ph c = PFly u h j1 j2 → h ≠ i0 ∧ c ≠ b) as Hold.
  { intros c u h j1 j2 E. split; [intros ->; apply (Hnew c i0); rewrite ?E; set_solver|]. intros ->. by rewrite E in Hb. }
  destruct (vi_idx _ _ _ H) as (Hs & Ha & Hu & Hui).
  assert (i0 ∉ todo s v ++ finished s) as Hi0.
  { intros [Hi|Hi]%elem_of_app; [destruct (vi_todo _ _ _ H _ Hi) as (c & u & j1 & j2 & E & _)|destruct (vi_fin _ _ _ H _ Hi) as (c & u & j1 & j2 & E & _)];
      by destruct (Hold _ _ _ _ _ E). }
  assert (todo s' v = window (av_ring (vd_avail (v_d s))) (dv_seen v) (av_idx (vd_avail (v_d s))) ++ i0 :: dv_taken v) as Ht.
  { unfold todo. rewrite Fav. simpl. rewrite window_push; [by rewrite <- app_assoc|done|done|].
    rewrite <- (window_length (av_ring (vd_avail (v_d s)))). pose proof (vi_bound _ _ _ i0 H ltac:(apply Hf'; set_solver) Hi0) as Hl.
    unfold todo in Hl. rewrite !length_app in Hl. lia. }
  assert (finished s' = finished s) as Hfi by (unfold finished; by rewrite Fus, Fui).
  assert (∀ h, h ∈ todo s' v ↔ h = i0 ∨ h ∈ todo s v) as Hin by (intros h; rewrite Ht; unfold todo; set_solver).
  constructor.
  - rewrite Fk. apply H.
  - intros i Hi. rewrite Ffree. case_decide as Hd.
    + right. split; [done|]. exists b. by rewrite fupd_eq.
    + destruct (vi_free _ _ _ H i Hi) as [[E Hn]|[E (c & Hc)]]; [left|right]; (split; [done|]).
      * intros c. unfold fupd. by destruct (c =? b).
      * exists c. rewrite fupd_ne; [done|]. intros ->. rewrite Hb in Hc. set_solver.
  - intros c c' i. unfold fupd. destruct (Z.eqb_spec c b), (Z.eqb_spec c' b); subst; simpl; try done.
    + intros Hi Hc. by destruct (Hnew _ _ Hc).
    + intros Hc Hi. by destruct (Hnew _ _ Hc).
    + apply (vi_disj _ _ _ H).
  - intros c u j0 j1 j2 [[-> [= <- <- <- <-]]|[Hne E]]%ph_upd; [done|]. eapply request_ok_ext; [by eapply (vi_req _ _ _ H)|..].
    + intros i Hi. apply Fdesc. apply (Hnew c). by rewrite E.
    + apply Fops. by apply Hold in E as [? _].
    + rewrite Fbuf. by rewrite decide_False.
    + rewrite Finfo. apply Hold in E as [? _]. by rewrite decide_False.
  - intros h [->|Hh]%Hin.
    + exists b, w, i1, i2. rewrite fupd_eq, Fbuf, Finfo, !decide_True; done.
    + destruct (vi_todo _ _ _ H _ Hh) as (c & u & j1 & j2 & E & E1 & E2). exists c, u, j1, j2. destruct (Hold _ _ _ _ _ E).
      rewrite fupd_ne, Fbuf, Finfo, !decide_False; done.
  - rewrite Hfi. intros h Hh. destruct (vi_fin _ _ _ H _ Hh) as (c & u & j1 & j2 & E & E1 & E2). exists c, u, j1, j2. destruct (Hold _ _ _ _ _ E).
    rewrite fupd_ne, Fbuf, Finfo, !decide_False; done.
  - intros c u j0 j1 j2 [[-> [= <- <- <- <-]]|[Hne E]]%ph_upd; [left; apply Hin; by left|]. destruct (Hold _ _ _ _ _ E).
    rewrite Hfi, Fbuf, Finfo, !decide_False by done. destruct (vi_fly _ _ _ H _ _ _ _ _ E) as [?|?]; [left; apply Hin; by right|by right].
  - rewrite Hfi, Ht, <- app_assoc. simpl. pose proof (vi_nodup _ _ _ H) as Hnd. unfold todo in Hnd, Hi0. rewrite <- app_assoc in Hnd, Hi0.
    rewrite <- Permutation_middle. by constructor.
  - rewrite Fav, Fus, Fui. split_and!; try done. simpl. unfold is_u16, u16. apply Z.mod_pos_bound. lia.
  - intros c. rewrite Fbuf. case_decide; subst; apply (vi_buf _ _ _ H).
  - rewrite Fsect. apply (vi_sect _ _ _ H).
Qed.

(** The end of a request. *)
Lemma rw_done_run s ph v b w i0 i1 i2 : vinv s ph v → ph b = PFly w i0 i1 i2 →
  ∃ s', rw_done i0 s = Ok tt s' ∧ freed [i0; i1; i2] (upd_info i0 (set_in_b NULLP) s) s'.
Proof.
  intros H E. destruct (vi_req _ _ _ H _ _ _ _ _ E) as [R N D0 D1 D2 O B].
  unfold rw_done. erewrite bind_ok by reflexivity. apply free_chain_spec; simpl; rewrite ?D0, ?D1, ?D2; try done.
  - apply Forall_forall. intros i Hi. pose proof (proj1 (Forall_forall _ _) R i Hi). split; [done|].
    apply (vi_busy _ _ _ b i H); [by rewrite E|done].
  - apply H.
  - by destruct w.
Qed.

Lemma vinv_done s s' ph v b w i0 i1 i2 : vinv s ph v → ph b = PFly w i0 i1 i2 → vb_disk (v_buf s b) ≠ 1 →
  freed [i0; i1; i2] (upd_info i0 (set_in_b NULLP) s) s' → vinv s' (fupd b PIdle ph) v.
Proof.
  intros H E Hdisk [Fk Fdesc Ffree Frest _]. unfold rest_of, core_of in Frest. injection Frest as Hbuf Hsect Hav Hus Hui Hin Hop _ _.
  assert (todo s' v = todo s v) as Ht by (unfold todo; by rewrite Hav).
  assert (finished s' = finished s) as Hfi by (unfold finished; by rewrite Hus, Hui). simpl in *.
  assert (∀ c u j0 j1 j2 i, c ≠ b → ph c = PFly u j0 j1 j2 → i ∈ [j0; j1; j2] → i ∉ [i0; i1; i2]) as Hother.
  { intros c u j0 j1 j2 i Hne Ec Hi Hb. apply Hne. apply (vi_disj _ _ _ H c b i); [by rewrite Ec|by rewrite E]. }
  assert (∀ i, i ≠ i0 → info_at s' i = info_at s i) as Hinfo by (intros i Hi; rewrite Hin; by apply fupd_ne).
  assert (∀ c u h j1 j2, ph c = PFly u h j1 j2 → vb_disk (v_buf s c) = 1 → c ≠ b ∧ h ≠ i0) as Hheads.
  { intros c u h j1 j2 Ec Hc. assert (c ≠ b) as Hne by (by intros ->). split; [done|]. intros ->.
    apply (Hother c u i0 j1 j2 i0); [done|done|set_solver|set_solver]. }
  constructor; rewrite ?Ht, ?Hfi, ?Hbuf, ?Hsect, ?Hav, ?Hus, ?Hui; try apply H.
  - apply (kframe_ok _ _ Fk), H.
  - intros i Hi. rewrite Ffree. case_decide as Hd.
    + left. split; [done|]. intros c. unfold fupd. destruct (Z.eqb_spec c b); [set_solver|]. intros Hc.
      assert (c = b) by (apply (vi_disj _ _ _ H c b i); [done|by rewrite E]). done.
    + destruct (vi_free _ _ _ H i Hi) as [[E1 Hn]|[E1 (c & Hc)]]; [left|right]; (split; [done|]).
      * intros c. unfold fupd. destruct (c =? b); [set_solver|done].
      * exists c. rewrite fupd_ne; [done|]. intros ->. by rewrite E in Hc.
  - intros c c' i. unfold fupd. destruct (Z.eqb_spec c b), (Z.eqb_spec c' b); simpl; [congruence|by intros ?%elem_of_nil|by intros _ ?%elem_of_nil|apply (vi_disj _ _ _ H)].
  - intros c u j0 j1 j2 [[_ [=]]|[Hne Ec]]%ph_upd. eapply request_ok_ext; [by eapply (vi_req _ _ _ H)|..]; rewrite ?Hop, ?Hbuf; try done.
    + intros i Hi. rewrite Fdesc. rewrite decide_False; [done|]. by eapply Hother.
    + rewrite Hinfo; [done|]. intros ->. apply (Hother c u i0 j1 j2 i0); [done|done|set_solver|set_solver].
  - intros h Hh. destruct (vi_todo _ _ _ H _ Hh) as (c & u & j1 & j2 & Ec & E1 & E2). destruct (Hheads _ _ _ _ _ Ec E1).
    exists c, u, j1, j2. by rewrite fupd_ne, Hinfo.
  - intros h Hh. destruct (vi_fin _ _ _ H _ Hh) as (c & u & j1 & j2 & Ec & E1 & E2). destruct (Hheads _ _ _ _ _ Ec E1).
    exists c, u, j1, j2. by rewrite fupd_ne, Hinfo.
  - intros c u j0 j1 j2 [[_ [=]]|[Hne Ec]]%ph_upd. rewrite Hinfo; [by apply (vi_fly _ _ _ H _ _ _ _ _ Ec)|].
    intros ->. apply (Hother c u i0 j1 j2 i0); [done|done|set_solver|set_solver].
Qed.

(** One turn of the interrupt handler. *)
Record seen_by_intr (b : Z) (s s' : vst) : Prop := {
  sb_kern : kframe (v_kern s) (v_kern s');
  sb_buf c : v_buf s' c = if decide (c = b) then set_vb_disk 0 (v_buf s b) else v_buf s c;
  sb_d : v_d s' = set_vd_used_idx (u16 (vd_used_idx (v_d s) + 1)) (v_d s);
  sb_rest : v_sect s' = v_sect s ∧ v_mmio s' = v_mmio s;
  sb_rouse : rouses [ChBuf b] (v_kern s) (v_kern s');
}.

Lemma intr_turn_run s ph v : vinv s ph v → vd_used_idx (v_d s) ≠ us_idx (vd_used (v_d s)) →
  ∃ b w h i1 i2 l, finished s = h :: l ∧ ph b = PFly w h i1 i2 ∧ in_b (info_at s h) = b ∧
    (in_status (info_at s h) ≠ 0 → intr_turn s = Panic "virtio_disk_intr status") ∧
    (in_status (info_at s h) = 0 → ∃ s', intr_turn s = Ok (inl tt) s' ∧ finished s' = l ∧ seen_by_intr b s s').
Proof.
  intros H Hne. destruct (vi_idx _ _ _ H) as (Hs & Ha & Hu & Hui).
  pose proof (window_pop (λ i, ue_id (us_ring (vd_used (v_d s)) i)) _ _ Hui Hu Hne) as Hw. fold (finished s) in Hw. cbv beta in Hw.
  set (h := ue_id _) in Hw. destruct (vi_fin _ _ _ H h) as (b & w & i1 & i2 & E & Hdisk & _); [rewrite Hw; set_solver|].
  assert (in_b (info_at s h) = b) as Hb by apply (ro_b _ _ _ _ _ _ (vi_req _ _ _ H _ _ _ _ _ E)).
  destruct (wakeup_rouses (ChBuf b) (v_kern s) (vi_kern _ _ _ H)) as (k' & Hwk & Hfr & Hro).
  exists b, w, h, i1, i2. eexists. split_and!; [exact Hw|done|done| |]; intros Hst.
  - unfold intr_turn. erewrite bind_ok by reflexivity. rewrite (proj2 (Z.eqb_neq _ _) Hne). fold h. unfold ctrue.
    by rewrite (proj2 (Z.eqb_neq _ _) Hst).
  - eexists. split_and!.
    + unfold intr_turn. erewrite bind_ok by reflexivity. rewrite (proj2 (Z.eqb_neq _ _) Hne). fold h. rewrite Hst, Hb. cbn [ctrue Z.eqb negb].
      erewrite bind_ok by reflexivity. erewrite bind_ok by (apply kcall_ok; exact Hwk). erewrite bind_ok by reflexivity. reflexivity.
    + done.
    + constructor; try done. intros c. simpl. case_decide; [subst; by rewrite fupd_eq|by rewrite fupd_ne].
Qed.

Lemma vinv_seen s s' ph v b w h i1 i2 l : vinv s ph v → finished s = h :: l → ph b = PFly w h i1 i2 → finished s' = l →
  in_status (info_at s h) = 0 → seen_by_intr b s s' → vinv s' ph v.
Proof.
  intros H Hf E Hf' Hst [Fk Fbuf Fd [Fsect _] _].
  assert (todo s' v = todo s v) as Ht by (unfold todo; by rewrite Fd).
  pose proof (vi_nodup _ _ _ H) as Hnd. rewrite Hf in Hnd.
  assert ((h ∉ todo s v) ∧ (h ∉ l)) as [Hnt Hnl].
  { apply NoDup_app in Hnd as (_ & Hx & [? _]%NoDup_cons). split; [|done]. intros Hh. by apply (Hx h Hh); left. }
  assert (∀ c u g j1 j2, ph c = PFly u g j1 j2 → g ≠ h → c ≠ b) as Hother.
  { intros c u g j1 j2 Ec Hg ->. rewrite E in Ec. by injection Ec as _ -> _ _. }
  constructor; rewrite ?Ht, ?Hf', ?Fsect, ?Fd; simpl; try apply H.
  - apply (kframe_ok _ _ Fk), H.
  - intros c u j0 j1 j2 Ec. eapply request_ok_ext; [by eapply (vi_req _ _ _ H)|..]; rewrite ?Fd; try done. rewrite Fbuf. by case_decide; subst.
  - intros g Hg. destruct (vi_todo _ _ _ H _ Hg) as (c & u & j1 & j2 & Ec & E1 & E2). exists c, u, j1, j2.
    rewrite Fbuf, decide_False; [done|]. apply (Hother _ _ _ _ _ Ec). by intros ->.
  - intros g Hg. destruct (vi_fin _ _ _ H g) as (c & u & j1 & j2 & Ec & E1 & E2); [rewrite Hf; by right|]. exists c, u, j1, j2.
    rewrite Fbuf, decide_False; [done|]. apply (Hother _ _ _ _ _ Ec). by intros ->.
  - intros c u j0 j1 j2 Ec. rewrite Fbuf. destruct (decide (c = b)) as [->|Hne].
    + right. right. split; [done|]. rewrite E in Ec. by injection Ec as -> -> -> ->.
    + destruct (vi_fly _ _ _ H _ _ _ _ _ Ec) as [?|[Hg|?]]; [by left| |by right; right]. right. left. rewrite Hf in Hg.
      apply elem_of_cons in Hg as [->|?]; [|done]. by destruct (vi_head _ _ _ _ _ _ _ _ _ _ _ _ H Ec E).
  - apply NoDup_app in Hnd as (? & Hx & [_ ?]%NoDup_cons). apply NoDup_app. split_and!; [done| |done]. intros g Hg Hl. apply (Hx g Hg). by right.
  - destruct (vi_idx _ _ _ H) as (? & ? & ? & ?). split_and!; try done. unfold is_u16, u16. apply Z.mod_pos_bound. lia.
  - intros c. rewrite Fbuf. case_decide; subst; apply (vi_buf _ _ _ H).
Qed.

(** The handler marks the buffers of all the requests that it finds and nothing else; the
    buffers' blocks and data are as they were. *)
Definition same_io (s s' : vst) : Prop :=
  v_sect s' = v_sect s ∧ (∀ b, vb_blockno (v_buf s' b) = vb_blockno (v_buf s b) ∧ vb_data (v_buf s' b) = vb_data (v_buf s b)).

(** The buffers of the requests in the used ring. *)
Definition bufs_of (s : vst) : list Z := map (λ h, in_b (info_at s h)) (finished s).

Lemma bufs_of_elem s ph v b w i0 i1 i2 : vinv s ph v → ph b = PFly w i0 i1 i2 → b ∈ bufs_of s ↔ i0 ∈ finished s.
Proof.
  intros H E. pose proof (ro_b _ _ _ _ _ _ (vi_req _ _ _ H _ _ _ _ _ E)) as Hb. unfold bufs_of. split.
  - intros (h & -> & Hh)%list_elem_of_fmap. destruct (vi_fin _ _ _ H h Hh) as (c & u & j1 & j2 & Ec & _).
    rewrite (ro_b _ _ _ _ _ _ (vi_req _ _ _ H _ _ _ _ _ Ec)) in E. rewrite Ec in E. by injection E as _ <- _ _.
  - intros Hi. apply list_elem_of_fmap. by exists i0.
Qed.

Lemma intr_end s : vd_used_idx (v_d s) = us_idx (vd_used (v_d s)) → intr_turn s = Ok (inr tt) s ∧ finished s = [].
Proof.
  intros E. split; [unfold intr_turn; erewrite bind_ok by reflexivity; by rewrite (proj2 (Z.eqb_eq _ _) E)|].
  unfold finished. rewrite E. apply window_nil.
Qed.

Lemma intr_loop n s ph v : vinv s ph v → (length (finished s) < n)%nat → (∀ h, h ∈ finished s → in_status (info_at s h) = 0) →
  ∃ s', loop n (λ _, intr_turn) tt s = Ok tt s' ∧ vinv s' ph v ∧ same_io s s' ∧ info_at s' = info_at s ∧
    vd_lock (v_d s') = vd_lock (v_d s) ∧ finished s' = [] ∧ free_at s' = free_at s ∧ rouses (map ChBuf (bufs_of s)) (v_kern s) (v_kern s') ∧
    (∀ c, vb_disk (v_buf s' c) = if decide (c ∈ bufs_of s) then 0 else vb_disk (v_buf s c)).
Proof.
  revert s. induction n as [|n IH]; intros s H Hn Hok; [lia|]. cbn [loop].
  destruct (decide (vd_used_idx (v_d s) = us_idx (vd_used (v_d s)))) as [E|Hne].
  - destruct (intr_end s E) as [Hend Hfin]. exists s. rewrite (bind_ok _ _ _ _ _ Hend).
    assert (bufs_of s = []) as -> by (unfold bufs_of; by rewrite Hfin). by split_and!.
  - destruct (intr_turn_run _ _ _ H Hne) as (b & w & h & i1 & i2 & l & Hf & Eb & Hin & _ & Hgo).
    assert (in_status (info_at s h) = 0) as Hst by (apply Hok; rewrite Hf; by left). destruct (Hgo Hst) as (s1 & Ht & Hf1 & Hs). clear Hgo.
    rewrite (bind_ok _ _ _ _ _ Ht). pose proof (vinv_seen _ _ _ _ _ _ _ _ _ _ H Hf Eb Hf1 Hst Hs) as H1.
    destruct Hs as [_ Fbuf Fd [Fsect _] Fro].
    destruct (IH s1 H1) as (s2 & E2 & H2 & [S1 S2] & I2 & L2 & F2 & Fr2 & R2 & D2).
    { rewrite Hf1. rewrite Hf in Hn. simpl in Hn. lia. } { intros g Hg. rewrite Fd. apply Hok. rewrite Hf. rewrite Hf1 in Hg. by right. }
    assert (bufs_of s = b :: bufs_of s1) as Hbufs by (unfold bufs_of; by rewrite Hf, Hf1, Fd, <- Hin).
    exists s2. split_and!; try done; rewrite ?I2, ?L2, ?Fr2, ?Fd; try done.
    + split; [by rewrite S1|]. intros c. destruct (S2 c) as [-> ->]. rewrite Fbuf. by case_decide; subst.
    + rewrite Hbufs. apply (rouses_app [ChBuf b] _ _ _ _ Fro R2).
    + intros c. rewrite D2, Hbufs, Fbuf. destruct (decide (c = b)) as [->|Hc].
      * rewrite (decide_True (P := b ∈ b :: _)) by (by left). by case_decide.
      * destruct (decide (c ∈ bufs_of s1)); [rewrite decide_True by (by right); done|].
        rewrite decide_False by (by intros [?|?]%elem_of_cons). done.
Qed.

(** A status that is an error stops the kernel. *)
Lemma intr_fails n s ph v h : vinv s ph v → (length (finished s) ≤ n)%nat → h ∈ finished s → in_status (info_at s h) ≠ 0 →
  loop n (λ _, intr_turn) tt s = Panic "virtio_disk_intr status".
Proof.
  revert s. induction n as [|n IH]; intros s H Hn Hh Hst; [destruct (finished s); [by apply elem_of_nil in Hh|simpl in Hn; lia]|]. cbn [loop].
  destruct (decide (vd_used_idx (v_d s) = us_idx (vd_used (v_d s)))) as [E|Hne].
  { destruct (intr_end s E) as [_ Hfin]. rewrite Hfin in Hh. by apply elem_of_nil in Hh. }
  destruct (intr_turn_run _ _ _ H Hne) as (b & w & g & i1 & i2 & l & Hf & Eb & _ & Hbad & Hgo).
  destruct (decide (in_status (info_at s g) = 0)) as [Hz|Hz]; [|unfold mbind, M_bind; by rewrite (Hbad Hz)].
  destruct (Hgo Hz) as (s1 & Ht & Hf1 & Hs). rewrite (bind_ok _ _ _ _ _ Ht).
  rewrite Hf in Hh, Hn. simpl in Hn. apply elem_of_cons in Hh as [->|Hh]; [done|].
  apply IH; [by eapply vinv_seen|rewrite Hf1; lia|by rewrite Hf1|by rewrite (sb_d _ _ _ Hs)].
Qed.

(** ** The steps of the device *)

Lemma vinv_perm s ph v v' : vinv s ph v → todo s v' ≡ₚ todo s v → is_u16 (dv_seen v') → vinv s ph v'.
Proof.
  intros H Hp Hs. constructor; try apply H.
  - intros h Hh. rewrite Hp in Hh. by apply H.
  - intros b w i0 i1 i2 E. rewrite Hp. by eapply (vi_fly _ _ _ H).
  - rewrite Hp. apply H.
  - split; [done|apply H].
Qed.

Lemma vinv_take s ph v : vinv s ph v → dv_seen v ≠ av_idx (vd_avail (v_d s)) →
  vinv s ph (Dview (u16 (dv_seen v + 1)) (dv_taken v ++ [av_ring (vd_avail (v_d s)) (dv_seen v mod NUM)])).
Proof.
  intros H Hne. destruct (vi_idx _ _ _ H) as (Hs & Ha & _ & _). eapply vinv_perm; [done| |].
  - unfold todo. simpl. rewrite (window_pop _ _ _ Hs Ha Hne). simpl. rewrite Permutation_app_comm, <- app_assoc. simpl.
    rewrite <- Permutation_middle. by rewrite (Permutation_app_comm (dv_taken v)).
  - simpl. unfold is_u16, u16. apply Z.mod_pos_bound. lia.
Qed.

(** The transfer of the block [x], or of anything if the device fails. *)
Definition asked (b : Z) (w : bool) (s : vst) : list Z :=
  if w then vb_data (v_buf s b) else sect_read (v_sect s) (sector_of b s) BSIZE.
Record carried (b : Z) (w : bool) (h st : Z) (x : list Z) (s s' : vst) : Prop := {
  ca_kern : v_kern s' = v_kern s;
  ca_status : (st = 0 ∧ x = asked b w s) ∨ ((st = 1 ∨ st = 2) ∧ length x = Z.to_nat BSIZE);
  ca_sect n : v_sect s' n = if w then sect_write (v_sect s) (sector_of b s) BSIZE x n else v_sect s n;
  ca_buf c : v_buf s' c = if decide (c = b) then (if w then v_buf s b else set_vb_data x (v_buf s b)) else v_buf s c;
  ca_info i : info_at s' i = if decide (i = h) then set_in_status st (info_at s h) else info_at s i;
  ca_used : ∃ n, vd_used (v_d s') = Virtq_used (u16 (us_idx (vd_used (v_d s)) + 1))
    (fupd (us_idx (vd_used (v_d s)) mod NUM) (Virtq_used_elem h n) (us_ring (vd_used (v_d s))));
  ca_rest : vd_desc (v_d s') = vd_desc (v_d s) ∧ vd_free (v_d s') = vd_free (v_d s) ∧ vd_avail (v_d s') = vd_avail (v_d s) ∧
    vd_used_idx (v_d s') = vd_used_idx (v_d s) ∧ vd_ops (v_d s') = vd_ops (v_d s) ∧ vd_lock (v_d s') = vd_lock (v_d s);
}.

(** The driver's chain is a request. *)
Lemma request_form s b w i0 i1 i2 : request_ok s b w i0 i1 i2 → dev_request i0 s = Some (i0, b, BSIZE, i0).
Proof. intros [_ _ D0 D1 D2 O _]. unfold dev_request. rewrite D0. simpl. rewrite D1. simpl. rewrite D2. simpl. rewrite O. by destruct w. Qed.
Lemma dev_data_asked s b w i0 i1 i2 : request_ok s b w i0 i1 i2 → dev_data i0 b BSIZE s = asked b w s.
Proof. intros [_ _ _ _ _ O _]. unfold dev_data. rewrite O. by destruct w. Qed.
Lemma dev_finish_carried s b w i0 i1 i2 st n x : request_ok s b w i0 i1 i2 →
  (st = 0 ∧ x = asked b w s) ∨ ((st = 1 ∨ st = 2) ∧ length x = Z.to_nat BSIZE) →
  carried b w i0 st x s (dev_finish i0 i0 b BSIZE i0 st n x s).
Proof.
  intros [_ _ _ _ _ O _] Hst. unfold dev_finish. rewrite O. destruct w; cbn [rq_type rq_sector]; constructor; try done; try (by exists n);
    intros c; simpl; case_decide; subst; rewrite ?fupd_eq, ?fupd_ne; done.
Qed.
Lemma dev_outcome_carried s s' b w i0 i1 i2 : request_ok s b w i0 i1 i2 → dev_outcome i0 i0 b BSIZE i0 s s' →
  ∃ st x, carried b w i0 st x s s'.
Proof.
  intros Hr (st & n & x & -> & Hst). exists st, x. apply (dev_finish_carried _ _ _ _ _ _ _ _ _ Hr).
  destruct Hst as [[-> ->]|[Hst Hlen]]; [left; split; [done|by eapply dev_data_asked]|right]. split; [done|]. unfold BSIZE in *. lia.
Qed.

Lemma sect_read_length sect sec : (∀ n, length (sect n) = 512%nat) → length (sect_read sect sec BSIZE) = Z.to_nat BSIZE.
Proof. intros H. unfold sect_read. change (BSIZE / 512) with 2. simpl. by rewrite !length_app, !H. Qed.
Lemma sect_write_length sect sec data n : (∀ n, length (sect n) = 512%nat) → length data = Z.to_nat BSIZE →
  length (sect_write sect sec BSIZE data n) = 512%nat.
Proof.
  intros H Hd. unfold sect_write. change (BSIZE / 512) with 2. unfold BSIZE in Hd. destruct (_ && _) eqn:E; [|done]. rewrite length_take, length_drop, Hd. lia.
Qed.

Lemma vinv_carried s s' ph v l1 h l2 b w i1 i2 st x : vinv s ph v → dv_taken v = l1 ++ h :: l2 → ph b = PFly w h i1 i2 → carried b w h st x s s' →
  vinv s' ph (Dview (dv_seen v) (l1 ++ l2)).
Proof.
  intros H Hl E [Fk Fst Fsect Fbuf Finfo (len & Fused) (Fdesc & Ffree & Fav & Fui & Fops & _)].
  destruct (vi_idx _ _ _ H) as (Hs & Ha & Hu & Hui). set (v' := Dview _ _).
  assert (todo s v ≡ₚ h :: todo s' v') as Hp.
  { unfold todo, v'. rewrite Fav, Hl. simpl. by rewrite !app_assoc, <- Permutation_middle. }
  assert (finished s' = finished s ++ [h]) as Hf.
  { unfold finished. rewrite Fused, Fui. simpl. rewrite (window_ext _ (fupd (us_idx (vd_used (v_d s)) mod NUM) h (λ i, ue_id (us_ring (vd_used (v_d s)) i)))).
    - apply window_push; [done|done|]. rewrite <- (window_length (λ i, ue_id (us_ring (vd_used (v_d s)) i))). pose proof (vi_len _ _ _ H) as Hlen.
      rewrite length_app, Hp in Hlen. simpl in Hlen. unfold finished in Hlen. lia.
    - intros i. unfold fupd. by destruct (_ =? _). }
  pose proof (vi_nodup _ _ _ H) as Hnd. rewrite Hp in Hnd. simpl in Hnd. apply NoDup_cons in Hnd as [Hh Hnd].
  assert (h ∈ todo s v) as Hht by (rewrite Hp; by left).
  destruct (vi_todo _ _ _ H h Hht) as (b' & w' & j1 & j2 & E' & Hdisk & Hst). assert (b' = b) as -> by (by eapply (vi_head _ _ _ _ _ _ _ _ _ _ _ _ H)).
  assert (∀ c, vb_disk (v_buf s' c) = vb_disk (v_buf s c) ∧ vb_blockno (v_buf s' c) = vb_blockno (v_buf s c)) as Hb.
  { intros c. rewrite Fbuf. case_decide; [subst; by destruct w|done]. }
  assert (length x = Z.to_nat BSIZE) as Hx.
  { destruct Fst as [[_ ->]|[_ ?]]; [|done]. destruct w; [apply H|apply sect_read_length, H]. }
  constructor; rewrite ?Ffree, ?Fav, ?Fui; simpl; try apply H.
  - rewrite Fk. apply H.
  - intros c u j0 k1 k2 Ec. eapply request_ok_ext; [by eapply (vi_req _ _ _ H)|..]; rewrite ?Fdesc, ?Fops; try done; [apply Hb|].
    rewrite Finfo. by case_decide; subst.
  - intros g Hg. destruct (vi_todo _ _ _ H g) as (c & u & k1 & k2 & Ec & E1 & E2); [rewrite Hp; by right|]. exists c, u, k1, k2.
    destruct (Hb c) as [-> _]. rewrite Finfo, decide_False; [done|]. intros ->. apply Hh, elem_of_app. by left.
  - rewrite Hf. intros g [Hg|Hg]%elem_of_app.
    + destruct (vi_fin _ _ _ H g Hg) as (c & u & k1 & k2 & Ec & E1 & E2). exists c, u, k1, k2. destruct (Hb c) as [-> _].
      rewrite Finfo, decide_False; [done|]. intros ->. apply Hh, elem_of_app. by right.
    + apply list_elem_of_singleton in Hg as ->. exists b, w, i1, i2. destruct (Hb b) as [-> _]. rewrite Finfo, decide_True by done. split_and!; [done|done|]. simpl. destruct Fst as [[-> _]|[[-> | ->] _]]; done.
  - intros c u j0 k1 k2 Ec. rewrite Hf. destruct (Hb c) as [-> _]. destruct (vi_fly _ _ _ H _ _ _ _ _ Ec) as [Hg|[Hg|[E1 E2]]].
    + rewrite Hp in Hg. apply elem_of_cons in Hg as [->|?]; [right; left; apply elem_of_app; right; by left|by left].
    + right. left. apply elem_of_app. by left.
    + right. right. split; [done|]. rewrite Finfo, decide_False; [done|]. intros ->. congruence.
  - rewrite Hf, app_assoc. apply NoDup_app. split_and!; [done| |apply NoDup_singleton]. by intros g Hg ->%list_elem_of_singleton.
  - split_and!; try done. rewrite Fused. unfold is_u16, u16. apply Z.mod_pos_bound. lia.
  - intros c. destruct (Hb c) as [_ ->]. split; [apply H|]. rewrite Fbuf. case_decide; [|apply H]. subst. destruct w; [apply H|done].
  - intros n. rewrite Fsect. destruct w; [|apply H]. apply sect_write_length; [apply H|done].
Qed.

(** ** Critical sections

    A call of virtio_disk_rw runs under vdisk_lock but for the two places where it sleeps:
    up to the first sleep it is [try_section], whether it finds descriptors or not, and
    after a sleep on the buffer it is [wake_section]. *)
Definition try_section (b : Z) (write : bool) : M vst (option (Z * Z * Z)) :=
  sector ← gets (sector_of b);
  lock_acquire vdisk_lock;;
  '(r, idx) ← alloc3_desc;
  if r =? 0 then
    let i0 := nth 0 idx 0 in
    (rw_format b write sector i0 (nth 1 idx 0) (nth 2 idx 0);; rw_notify i0);;
    lock_release vdisk_lock;;
    mret (Some (i0, nth 1 idx 0, nth 2 idx 0))
  else lock_release vdisk_lock;; mret None.

Definition wake_section (b i0 : Z) : M vst bool :=
  lock_acquire vdisk_lock;;
  d ← gets (λ s, vb_disk (v_buf s b));
  if d =? 1 then lock_release vdisk_lock;; mret false
  else rw_done i0;; lock_release vdisk_lock;; mret true.

(** The lock is the process layer's business and the lock bit's. *)
Definition locked (s : vst) : vst := lset kv (noff_by 1 (lget kv s)) (lset vdisk_lock true s).
Definition unlocked (s : vst) : vst := lset kv (noff_by (-1) (lget kv s)) (lset vdisk_lock false s).

Lemma vinv_locked s ph v : vinv s ph v → vinv (locked s) ph v.
Proof. intros H. apply (vinv_ext s); try done. apply (table_ok_ext (v_kern s)); [done|apply H]. Qed.
Lemma vinv_unlocked s ph v : vinv s ph v → vinv (unlocked s) ph v.
Proof. intros H. apply (vinv_ext s); try done. apply (table_ok_ext (v_kern s)); [done|apply H]. Qed.

(** What a section leaves of the requests that it is not about. *)
Definition keeps (b : Z) (ph : Z → phase) (s s' : vst) : Prop :=
  same_io s s' ∧ vd_lock (v_d s') = false ∧
  (∀ c w i0 i1 i2, c ≠ b → ph c = PFly w i0 i1 i2 → in_status (info_at s' i0) = in_status (info_at s i0)).

Lemma try_section_run s ph v b w : vinv s ph v → vd_lock (v_d s) = false → ph b = PWait w →
  (∃ s', try_section b w s = Ok None s' ∧ vinv s' ph v ∧ keeps b ph s s' ∧ ¬ three_free s ∧
     (∀ i, free_at s' i = free_at s i) ∧ v_buf s' = v_buf s ∧ ∃ n, rouses (replicate n ChDisk) (v_kern s) (v_kern s')) ∨
  (∃ i0 i1 i2 s', try_section b w s = Ok (Some (i0, i1, i2)) s' ∧ vinv s' (fupd b (PFly w i0 i1 i2) ph) v ∧ keeps b ph s s' ∧
     in_status (info_at s' i0) = 0xff ∧
     (∀ i, free_at s' i ≠ 0 → free_at s i ≠ 0) ∧ (∀ c, c ≠ b → v_buf s' c = v_buf s c) ∧ rouses [] (v_kern s) (v_kern s')).
Proof.
  intros H Hl E. pose proof (vinv_locked _ _ _ H) as H1. assert (idx_of (ph b) = []) as Eb by (by rewrite E).
  unfold try_section. erewrite bind_ok by reflexivity. rewrite (bind_ok _ _ _ _ _ (lock_acquire_side vdisk_lock s Hl)). fold (locked s).
  destruct (alloc3_desc_spec (locked s)) as [(i0 & i1 & i2 & Hnd & Hf & Ea)|(idx & s' & Ea & Hk & Hrest & Hfree & Hdesc & (n & Hro) & Hno)].
  - apply H1.
  - intros i Hi. destruct (vi_free _ _ _ H1 i Hi) as [[? _]|[? _]]; auto.
  - right. exists i0, i1, i2. rewrite (bind_ok _ _ _ _ _ Ea). cbn [nth Z.eqb].
    assert (Forall is_index [i0; i1; i2]) as Hr by (eapply Forall_impl; [exact Hf|]; by intros ? [? _]).
    destruct (fly_run b w i0 i1 i2 (locked s) Hnd Hr) as (s' & Er & Hfl).
    rewrite (bind_ok _ _ _ _ _ Er). pose proof Hfl as [Fk Ffree _ _ _ Finfo Fbuf Fsect _ _ Flock].
    rewrite (bind_ok _ _ _ _ _ (lock_release_side vdisk_lock s' Flock)). fold (unlocked s'). exists (unlocked s').
    split_and!; [done|by apply vinv_unlocked; eapply vinv_fly| |simpl; by rewrite Finfo, decide_True| | |].
    2:{ intros j. simpl. rewrite Ffree. by case_decide. }
    2:{ intros c Hc. simpl. by rewrite Fbuf, decide_False. }
    2:{ apply rouses_nil; simpl; by rewrite Fk. }
    split_and!; [|done|].
    + split; [simpl; by rewrite Fsect|]. intros c. simpl. rewrite Fbuf. by case_decide; subst.
    + intros c u j0 j1 j2 Hne Ec. simpl. rewrite Finfo, decide_False; [done|]. intros ->.
      destruct (proj1 (Forall_cons _ _ _) Hf) as [[Hi Hz] _]. assert (i0 ∈ idx_of (ph c)) as Hc by (rewrite Ec; by left).
      pose proof (vi_busy _ _ _ _ _ H1 Hc Hi). lia.
  - left. rewrite (bind_ok _ _ _ _ _ Ea). cbn [Z.eqb]. pose proof (f_equal (λ x, x.1.1) Hrest) as Hcore. simpl in Hcore. unfold rest_of, core_of in Hrest. injection Hrest as Hbuf Hsect Hav Hus Hui Hin Hop _ Hlk.
    rewrite (bind_ok _ _ _ _ _ (lock_release_side vdisk_lock s' Hlk)). fold (unlocked s'). exists (unlocked s').
    split_and!; [done| | |done|done|done|exists n; by apply (rouses_ext _ _ _ _ _ Hro)].
    + apply vinv_unlocked, (vinv_ext (locked s)); try done. apply (kframe_ok _ _ Hk), H1.
    + split_and!; [|done|]; [split; [done|]; intros c; simpl; by rewrite Hbuf|]. intros c u j0 j1 j2 _ _. simpl. by rewrite Hin.
Qed.

Lemma wake_section_run s ph v b w i0 i1 i2 : vinv s ph v → vd_lock (v_d s) = false → ph b = PFly w i0 i1 i2 →
  (wake_section b i0 s = Ok false s ∧ vb_disk (v_buf s b) = 1) ∨
  (∃ s', wake_section b i0 s = Ok true s' ∧ vinv s' (fupd b PIdle ph) v ∧ keeps b ph s s' ∧ in_status (info_at s i0) = 0 ∧
     v_buf s' = v_buf s ∧ rouses (replicate 3 ChDisk) (v_kern s) (v_kern s')).
Proof.
  intros H Hl E. pose proof (vinv_locked _ _ _ H) as H1.
  unfold wake_section. rewrite (bind_ok _ _ _ _ _ (lock_acquire_side vdisk_lock s Hl)). fold (locked s). erewrite bind_ok by reflexivity.
  change (v_buf (locked s)) with (v_buf s). destruct (vb_disk (v_buf s b) =? 1) eqn:Ed.
  - left. split; [|lia]. rewrite (bind_ok _ _ _ _ _ (lock_release_side vdisk_lock (locked s) eq_refl)). unfold locked. simpl.
    unfold mret, M_ret. f_equal. destruct s as [k d ? ? ?], d. simpl in *. subst. unfold set_v_kern, set_v_d. simpl. by rewrite noff_back.
  - right. destruct (rw_done_run _ _ _ _ _ _ _ _ H1 E) as (s' & Er & Hfr). rewrite (bind_ok _ _ _ _ _ Er).
    assert (vb_disk (v_buf (locked s) b) ≠ 1) as Hd by (change (v_buf (locked s)) with (v_buf s); lia).
    pose proof (vinv_done _ _ _ _ _ _ _ _ _ H1 E Hd Hfr) as H2. pose proof (fr_rest _ _ _ Hfr) as Hrest.
    unfold rest_of, core_of in Hrest. injection Hrest as Hbuf Hsect Hav Hus Hui Hin Hop _ Hlk. simpl in *.
    rewrite (bind_ok _ _ _ _ _ (lock_release_side vdisk_lock s' Hlk)). fold (unlocked s'). exists (unlocked s').
    split_and!; [done|by apply vinv_unlocked| | |done|by apply (rouses_ext _ _ _ _ _ (fr_rouse _ _ _ Hfr))].
    + split_and!; [|done|]; [split; [done|]; intros c; simpl; by rewrite Hbuf|]. intros c u j0 j1 j2 Hne Ec. simpl. rewrite Hin.
      rewrite fupd_ne; [done|]. intros ->. destruct (Hne (vi_head _ _ _ _ _ _ _ _ _ _ _ _ H Ec E)).
    + destruct (vi_fly _ _ _ H _ _ _ _ _ E) as [Hg|[Hg|[_ ?]]]; [| |done]; exfalso.
      * destruct (vi_todo _ _ _ H _ Hg) as (c & u & ? & ? & Ec & E1 & _). by rewrite (vi_head _ _ _ _ _ _ _ _ _ _ _ _ H Ec E) in E1.
      * destruct (vi_fin _ _ _ H _ Hg) as (c & u & ? & ? & Ec & E1 & _). by rewrite (vi_head _ _ _ _ _ _ _ _ _ _ _ _ H Ec E) in E1.
Qed.

(** The handler, up to its loop. *)
Definition intr_entered `{!Mmio} (s : vst) : vst :=
  set_v_mmio (v_mmio s ++ [(VIRTIO_MMIO_INTERRUPT_ACK, u32 (Z.land (u32 (mmio_read (v_mmio s) VIRTIO_MMIO_INTERRUPT_STATUS)) 0x3))]) (locked s).
Lemma intr_enters `{!Mmio} s ph v : vinv s ph v → vd_lock (v_d s) = false →
  vinv (intr_entered s) ph v ∧ (length (finished s) < Z.to_nat (2 ^ 16))%nat ∧
  virtio_disk_intr s = (loop (Z.to_nat (2 ^ 16)) (λ _, intr_turn) tt;; lock_release vdisk_lock) (intr_entered s).
Proof.
  intros Hv Hl. split_and!.
  - apply (vinv_ext (locked s)); try done; [by apply vinv_locked|apply (vinv_locked _ _ _ Hv)].
  - pose proof (vi_len _ _ _ Hv) as Hlen. rewrite length_app in Hlen. unfold NUM in Hlen. lia.
  - unfold virtio_disk_intr. rewrite (bind_ok _ _ _ _ _ (lock_acquire_side vdisk_lock s Hl)). fold (locked s).
    erewrite bind_ok by reflexivity. by erewrite bind_ok by reflexivity.
Qed.

Lemma intr_run `{!Mmio} s ph v : vinv s ph v → vd_lock (v_d s) = false → (∀ h, h ∈ finished s → in_status (info_at s h) = 0) →
  ∃ s', virtio_disk_intr s = Ok tt s' ∧ vinv s' ph v ∧ same_io s s' ∧ vd_lock (v_d s') = false ∧ info_at s' = info_at s ∧ finished s' = [] ∧
    free_at s' = free_at s ∧ rouses (map ChBuf (bufs_of s)) (v_kern s) (v_kern s') ∧
    (∀ c, vb_disk (v_buf s' c) = if decide (c ∈ bufs_of s) then 0 else vb_disk (v_buf s c)).
Proof.
  intros Hv Hl Hok. destruct (intr_enters s ph v Hv Hl) as (Ht & Hlen & ->).
  destruct (intr_loop (Z.to_nat (2 ^ 16)) (intr_entered s) ph v Ht Hlen Hok) as (s' & E & H' & Hio & Hin & Hlk & Hf & Hfr & Hro & Hd).
  rewrite (bind_ok _ _ _ _ _ E), (lock_release_side vdisk_lock s' Hlk). exists (unlocked s').
  split_and!; [done|by apply vinv_unlocked|done..].
Qed.
Lemma intr_panics `{!Mmio} s ph v h : vinv s ph v → vd_lock (v_d s) = false → h ∈ finished s → in_status (info_at s h) ≠ 0 →
  virtio_disk_intr s = Panic "virtio_disk_intr status".
Proof.
  intros Hv Hl Hh Hst. destruct (intr_enters s ph v Hv Hl) as (Ht & Hlen & ->). unfold mbind, M_bind.
  rewrite (intr_fails _ (intr_entered s) ph v h Ht); [done|change (finished (intr_entered s)) with (finished s); lia|done|done].
Qed.
