(* ===== verification/VirtioMachine.v ===== *)
(** * The disk driver among its users

    Any number of processes call virtio_disk_rw of kernel/virtio_disk.c, each with a buffer
    of its own, interleaved at the critical sections of vdisk_lock with the interrupt
    handler and with the device.  The driver panics only when the device reports an error,
    each call is one atomic transfer of its block, which is how the buffer cache uses
    it, and no call sleeps on when it could go on. *)
From stdpp Require Import sets relations.
From S2P Require Import Prelude Mem Spinlock Riscv Kalloc Vm Proc Kstate Virtio.
Open Scope Z_scope.

(** ** Processes, interrupts and the device interleaved *)

Section machine.
Context `{!Mmio} `{!VirtioDevice}.

Record vsys := Vsys {
  y_st : vst;
  y_ph : Z → phase;
  y_dev : dev;
}.

(** A buffer that no call is about belongs to its process, which may change it. *)
Inductive dstep : vsys → vsys → Prop :=
| st_call b w s ph d : ph b = PIdle → dstep (Vsys s ph d) (Vsys s (fupd b (PWait w) ph) d)
| st_full b w s ph d s' : ph b = PWait w → try_section b w s = Ok None s' → dstep (Vsys s ph d) (Vsys s' ph d)
| st_send b w s ph d i0 i1 i2 s' : ph b = PWait w → try_section b w s = Ok (Some (i0, i1, i2)) s' →
    dstep (Vsys s ph d) (Vsys s' (fupd b (PFly w i0 i1 i2) ph) d)
| st_again b w i0 i1 i2 s ph d s' : ph b = PFly w i0 i1 i2 → wake_section b i0 s = Ok false s' → dstep (Vsys s ph d) (Vsys s' ph d)
| st_return b w i0 i1 i2 s ph d s' : ph b = PFly w i0 i1 i2 → wake_section b i0 s = Ok true s' →
    dstep (Vsys s ph d) (Vsys s' (fupd b PIdle ph) d)
| st_intr s ph d s' : virtio_disk_intr s = Ok tt s' → dstep (Vsys s ph d) (Vsys s' ph d)
| st_dev s ph d d' s' : dev_step d s d' s' → dstep (Vsys s ph d) (Vsys s' ph d')
| st_own b x s ph d : ph b = PIdle → 0 ≤ vb_blockno x < 2 ^ 31 → length (vb_data x) = Z.to_nat BSIZE →
    dstep (Vsys s ph d) (Vsys (set_v_buf (fupd b x (v_buf s)) s) ph d).

(** The process layer changes by itself. *)
Inductive vstep : vsys → vsys → Prop :=
| st_drv y y' : dstep y y' → vstep y y'
| st_kern k s ph d : table_ok k → vstep (Vsys s ph d) (Vsys (set_v_kern k s) ph d).

(** How far a call has got: a request has had its transfer when the device has written its
    status, which the driver sets to 0xff beforehand. *)
Inductive aphase := AIdle | AAsked (write : bool) | ADone | AFailed.
#[local] Instance aphase_eq_dec : EqDecision aphase.
Proof. solve_decision. Defined.
Definition aphase_of (s : vst) (p : phase) : aphase :=
  match p with
  | PIdle => AIdle
  | PWait w => AAsked w
  | PFly w i0 _ _ => let st := in_status (info_at s i0) in if st =? 0xff then AAsked w else if st =? 0 then ADone else AFailed
  end.
(** The device has reported no error. *)
Definition healthy (y : vsys) : Prop := ∀ b, aphase_of (y_st y) (y_ph y b) ≠ AFailed.

(** No section panics, deadlocks or fails to end, but that the interrupt handler panics if
    the device has reported an error. *)
Definition vsafe (y : vsys) : Prop :=
  (∀ b w, y_ph y b = PWait w → ∃ r s', try_section b w (y_st y) = Ok r s') ∧
  (∀ b w i0 i1 i2, y_ph y b = PFly w i0 i1 i2 → ∃ r s', wake_section b i0 (y_st y) = Ok r s') ∧
  (healthy y → ∃ s', virtio_disk_intr (y_st y) = Ok tt s') ∧
  (∀ b, aphase_of (y_st y) (y_ph y b) = AFailed → virtio_disk_intr (y_st y) = Panic "virtio_disk_intr status").

(** The driver as virtio_disk_init leaves it, before any call. *)
Record vstart (y : vsys) : Prop := {
  vs_ph b : y_ph y b = PIdle;
  vs_kern : table_ok (v_kern (y_st y));
  vs_free i : is_index i → free_at (y_st y) i = 1;
  vs_rings : av_idx (vd_avail (v_d (y_st y))) = 0 ∧ us_idx (vd_used (v_d (y_st y))) = 0 ∧ vd_used_idx (v_d (y_st y)) = 0;
  vs_lock : vd_lock (v_d (y_st y)) = false;
  vs_dev : dev_view (y_dev y) = Dview 0 [];
  vs_buf b : 0 ≤ vb_blockno (v_buf (y_st y) b) < 2 ^ 31 ∧ length (vb_data (v_buf (y_st y) b)) = Z.to_nat BSIZE;
  vs_sect n : length (v_sect (y_st y) n) = 512%nat;
}.

Definition yinv (y : vsys) : Prop := vinv (y_st y) (y_ph y) (dev_view (y_dev y)) ∧ vd_lock (v_d (y_st y)) = false.

Lemma vstart_inv y : vstart y → yinv y.
Proof.
  intros [Hp Hk Hf (Ra & Ru & Ri) Hl Hd Hb Hs]. split; [|done].
  assert (todo (y_st y) (dev_view (y_dev y)) = []) as Ht by (unfold todo; rewrite Hd, Ra; done).
  assert (finished (y_st y) = []) as Hfi by (unfold finished; rewrite Ru, Ri; done).
  constructor; rewrite ?Ht, ?Hfi, ?Hd, ?Ra, ?Ru, ?Ri; try done.
  - intros i Hi. left. split; [by apply Hf|]. intros b. rewrite Hp. apply not_elem_of_nil.
  - intros b b' i Hi. rewrite Hp in Hi. by apply elem_of_nil in Hi.
  - intros b w i0 i1 i2 E. by rewrite Hp in E.
  - by intros h ?%elem_of_nil.
  - by intros h ?%elem_of_nil.
  - intros b w i0 i1 i2 E. by rewrite Hp in E.
  - constructor.
Qed.

(** A request fails in the used ring. *)
Lemma failed_finished s ph v b : vinv s ph v → aphase_of s (ph b) = AFailed →
  ∃ w i0 i1 i2, ph b = PFly w i0 i1 i2 ∧ i0 ∈ finished s ∧ in_status (info_at s i0) ≠ 0.
Proof.
  intros Hv Ha. destruct (ph b) as [| |w i0 i1 i2] eqn:E; try done. exists w, i0, i1, i2. simpl in Ha.
  destruct (in_status (info_at s i0) =? 0xff) eqn:E1; [done|]. destruct (in_status (info_at s i0) =? 0) eqn:E2; [done|].
  destruct (vi_fly _ _ _ Hv _ _ _ _ _ E) as [Hi|[?|[_ ?]]]; [|split_and!; [done|done|lia]|lia].
  destruct (vi_todo _ _ _ Hv _ Hi) as (? & ? & ? & ? & _ & _ & ?). lia.
Qed.
Lemma healthy_finished s ph d : yinv (Vsys s ph d) → healthy (Vsys s ph d) → ∀ h, h ∈ finished s → in_status (info_at s h) = 0.
Proof.
  intros [Hv _] Hh h Hi. destruct (vi_fin _ _ _ Hv h Hi) as (b & w & i1 & i2 & E & _ & Hst). specialize (Hh b). simpl in *. rewrite E in Hh. simpl in Hh.
  rewrite (proj2 (Z.eqb_neq _ _) Hst) in Hh. destruct (in_status (info_at s h) =? 0) eqn:E0; [lia|done].
Qed.

Lemma yinv_safe y : yinv y → vsafe y.
Proof.
  intros Hy. pose proof Hy as [Hv Hl]. split_and!.
  - intros b w E. destruct (try_section_run _ _ _ _ _ Hv Hl E) as [(s' & ? & _)|(? & ? & ? & s' & ? & _)]; by eexists _, _.
  - intros b w i0 i1 i2 E. destruct (wake_section_run _ _ _ _ _ _ _ _ Hv Hl E) as [[? _]|(s' & ? & _)]; by eexists _, _.
  - intros Hh. destruct y as [s ph d]. destruct (intr_run _ _ _ Hv Hl (healthy_finished _ _ _ Hy Hh)) as (s' & ? & _). by exists s'.
  - intros b Hb. destruct (failed_finished _ _ _ _ Hv Hb) as (w & i0 & i1 & i2 & _ & Hi & Hst). by eapply intr_panics.
Qed.

(** ** The disk as its users see it

    Blocks and buffers; a call is a request and then one transfer, which is
    virtio_disk_rw of the buffer cache.  A request that fails may leave anything in the
    block or in the buffer that it would have changed, and does not return. *)
Record adisk := Adisk {
  a_block : Z → list Z;
  a_buf : Z → Z * list Z;
  a_ph : Z → aphase;
}.
Definition moves (b : Z) (w : bool) (x : list Z) (p : aphase) (a : adisk) : adisk :=
  let n := (a_buf a b).1 in
  if w then Adisk (fupd n x (a_block a)) (a_buf a) (fupd b p (a_ph a))
  else Adisk (a_block a) (fupd b (n, x) (a_buf a)) (fupd b p (a_ph a)).
Definition transfer (b : Z) (w : bool) (a : adisk) : adisk :=
  let '(n, data) := a_buf a b in moves b w (if w then data else a_block a n) ADone a.
Inductive astep : adisk → adisk → Prop :=
| as_call b w a : a_ph a b = AIdle → astep a (Adisk (a_block a) (a_buf a) (fupd b (AAsked w) (a_ph a)))
| as_transfer b w a : a_ph a b = AAsked w → astep a (transfer b w a)
| as_fail b w x a : a_ph a b = AAsked w → length x = Z.to_nat BSIZE → astep a (moves b w x AFailed a)
| as_return b a : a_ph a b = ADone → astep a (Adisk (a_block a) (a_buf a) (fupd b AIdle (a_ph a)))
| as_own b x a : a_ph a b = AIdle → astep a (Adisk (a_block a) (fupd b x (a_buf a)) (a_ph a)).

(** A block is two sectors. *)
Record abs (y : vsys) (a : adisk) : Prop := {
  ab_block n : a_block a n = v_sect (y_st y) (2 * n) ++ v_sect (y_st y) (2 * n + 1);
  ab_buf b : a_buf a b = (vb_blockno (v_buf (y_st y) b), vb_data (v_buf (y_st y) b));
  ab_ph b : a_ph a b = aphase_of (y_st y) (y_ph y b);
}.

(** A section about [b] that moves no data. *)
Lemma abs_keeps b s s' ph ph' d d' a f : keeps b ph s s' → abs (Vsys s ph d) a → (∀ c, c ≠ b → ph' c = ph c) →
  f b = aphase_of s' (ph' b) → (∀ c, c ≠ b → f c = a_ph a c) → abs (Vsys s' ph' d') (Adisk (a_block a) (a_buf a) f).
Proof.
  intros ([Hs Hb] & _ & Hst) [Ab Au Ap] Hph Hf Hfc. simpl in *. constructor; simpl.
  - intros n. by rewrite Ab, Hs.
  - intros c. rewrite Au. by destruct (Hb c) as [-> ->].
  - intros c. destruct (decide (c = b)) as [->|Hne]; [done|]. rewrite Hfc, Ap, Hph by done. unfold aphase_of.
    destruct (ph c) eqn:E; try done. by rewrite (Hst _ _ _ _ _ Hne E).
Qed.

Lemma sector_twice s b : 0 ≤ vb_blockno (v_buf s b) < 2 ^ 31 → sector_of b s = 2 * vb_blockno (v_buf s b).
Proof. intros Hb. unfold sector_of. change (BSIZE / 512) with 2. rewrite u32_small; lia. Qed.

Lemma block_read sect n : sect_read sect (2 * n) BSIZE = sect (2 * n) ++ sect (2 * n + 1).
Proof.
  unfold sect_read. change (BSIZE / 512) with 2. rewrite !seqZ_cons by lia. simpl. rewrite app_nil_r.
  by replace (Z.succ (2 * n)) with (2 * n + 1) by lia.
Qed.
Lemma sector_block_write sect n data m : length data = Z.to_nat BSIZE →
  sect_write sect (2 * n) BSIZE data (2 * m) ++ sect_write sect (2 * n) BSIZE data (2 * m + 1) =
    if m =? n then data else sect (2 * m) ++ sect (2 * m + 1).
Proof.
  intros Hd. unfold sect_write. change (BSIZE / 512) with 2. unfold BSIZE in Hd. destruct (Z.eqb_spec m n) as [->|Hne].
  - replace (2 * n <=? 2 * n) with true by lia. replace (2 * n <? 2 * n + 2) with true by lia.
    replace (2 * n <=? 2 * n + 1) with true by lia. replace (2 * n + 1 <? 2 * n + 2) with true by lia. cbn [andb].
    replace (Z.to_nat (512 * (2 * n - 2 * n))) with 0%nat by lia. replace (Z.to_nat (512 * (2 * n + 1 - 2 * n))) with 512%nat by lia.
    rewrite drop_0, (take_ge (drop 512 data)) by (rewrite length_drop; lia). apply take_drop.
  - replace ((2 * n <=? 2 * m) && (2 * m <? 2 * n + 2)) with false by lia.
    by replace ((2 * n <=? 2 * m + 1) && (2 * m + 1 <? 2 * n + 2)) with false by lia.
Qed.

(** The device's transfer is the atomic one. *)
Lemma abs_moves b w h i1 i2 st x s s' ph v d d' a p : vinv s ph v → ph b = PFly w h i1 i2 → carried b w h st x s s' → length x = Z.to_nat BSIZE →
  aphase_of s' (ph b) = p → abs (Vsys s ph d) a → abs (Vsys s' ph d') (moves b w x p a).
Proof.
  intros Hv E [Fk _ Fsect Fbuf Finfo _ _] Hx Hp [Ab Au Ap]. simpl in *.
  assert (∀ c, fupd b p (a_ph a) c = aphase_of s' (ph c)) as Hph.
  { intros c. unfold fupd. destruct (Z.eqb_spec c b) as [->|Hne]; [done|]. rewrite Ap. unfold aphase_of.
    destruct (ph c) as [| |u j0 j1 j2] eqn:Ec; try done. rewrite Finfo, decide_False; [done|]. intros ->.
    apply Hne. by eapply (vi_head _ _ _ _ _ _ _ _ _ _ _ _ Hv). }
  destruct (vi_buf _ _ _ Hv b) as [Hbn Hlen]. rewrite (sector_twice _ _ Hbn) in *. unfold moves. rewrite Au. destruct w; constructor; simpl; try done.
  - intros n. rewrite !Fsect, sector_block_write by done. unfold fupd. by destruct (n =? _).
  - intros c. rewrite Au, Fbuf. by case_decide; subst.
  - intros n. by rewrite !Fsect, Ab.
  - intros c. rewrite Fbuf. unfold fupd. destruct (Z.eqb_spec c b) as [->|Hne]; [by rewrite decide_True|by rewrite Au, decide_False].
Qed.
Lemma asked_length s ph v b w : vinv s ph v → length (asked b w s) = Z.to_nat BSIZE.
Proof. intros Hv. destruct w; [apply Hv|apply sect_read_length, Hv]. Qed.
Lemma abs_carried b w h i1 i2 st x s s' ph v d d' a : vinv s ph v → ph b = PFly w h i1 i2 → in_status (info_at s h) = 0xff →
  carried b w h st x s s' → abs (Vsys s ph d) a → ∃ a', astep a a' ∧ abs (Vsys s' ph d') a'.
Proof.
  intros Hv E Hst Hc Ha. assert (a_ph a b = AAsked w) as Hask by (rewrite (ab_ph _ _ Ha); simpl; rewrite E; simpl; by rewrite Hst).
  assert (in_status (info_at s' h) = st) as Hst' by (by rewrite (ca_info _ _ _ _ _ _ _ Hc), decide_True).
  destruct (ca_status _ _ _ _ _ _ _ Hc) as [[-> ->]|[Hbad Hx]].
  - exists (transfer b w a). split; [by apply as_transfer|]. unfold transfer. rewrite (ab_buf _ _ Ha). simpl.
    assert ((if w then vb_data (v_buf s b) else a_block a (vb_blockno (v_buf s b))) = asked b w s) as ->.
    { destruct w; [done|]. simpl. rewrite (sector_twice _ _ (proj1 (vi_buf _ _ _ Hv b))), block_read. by rewrite (ab_block _ _ Ha). }
    apply (abs_moves _ _ _ _ _ _ _ _ _ _ _ d d' _ _ Hv E Hc); [by eapply asked_length| |done]. rewrite E. simpl. by rewrite Hst'.
  - exists (moves b w x AFailed a). split; [by apply as_fail|].
    apply (abs_moves _ _ _ _ _ _ _ _ _ _ _ d d' _ _ Hv E Hc); [done| |done]. rewrite E. simpl. rewrite Hst'. by destruct Hbad as [-> | ->].
Qed.

(** What the device does to a state that satisfies the invariant: nothing that the driver
    sees, or the end of a request. *)
Lemma dev_effect s ph v v' s' : vinv s ph v → dev_allowed v s v' s' →
  (s' = s ∧ vinv s ph v') ∨
  (∃ b w h i1 i2 st x, ph b = PFly w h i1 i2 ∧ in_status (info_at s h) = 0xff ∧ carried b w h st x s s' ∧ vinv s' ph v').
Proof.
  intros Hv Hd. destruct Hd as [v s|v s Hne|v s l1 h l2 s' Hl Hs']; [by left|left; split; [done|by apply vinv_take]|right].
  assert (h ∈ todo s v) as Hh by (unfold todo; rewrite Hl; set_solver).
  destruct (vi_todo _ _ _ Hv h Hh) as (b & w & i1 & i2 & E & _ & Hst). pose proof (vi_req _ _ _ Hv _ _ _ _ _ E) as Hr.
  destruct (dev_outcome_carried _ _ _ _ _ _ _ Hr (Hs' _ _ _ _ (request_form _ _ _ _ _ _ Hr))) as (st & x & Hc).
  exists b, w, h, i1, i2, st, x. split_and!; [done|done|done|by eapply vinv_carried].
Qed.
Lemma dev_run s ph v v' s' d d' a : vinv s ph v → dev_allowed v s v' s' → abs (Vsys s ph d) a →
  vinv s' ph v' ∧ vd_lock (v_d s') = vd_lock (v_d s) ∧ ∃ a', rtc astep a a' ∧ abs (Vsys s' ph d') a'.
Proof.
  intros Hv Hd Ha. destruct (dev_effect _ _ _ _ _ Hv Hd) as [[-> Hv']|(b & w & h & i1 & i2 & st & x & E & Hst & Hc & Hv')].
  - split_and!; [done|done|]. exists a. split; [done|]. by destruct Ha.
  - split_and!; [done|by apply Hc|]. destruct (abs_carried _ _ _ _ _ _ _ _ _ _ _ d d' a Hv E Hst Hc Ha) as (a' & Hst' & Ha').
    exists a'. split; [by apply rtc_once|done].
Qed.

(** Buffers that no request is about. *)
Lemma vinv_idle s ph v b p : vinv s ph v → idx_of (ph b) = [] → idx_of p = [] → vinv s (fupd b p ph) v.
Proof.
  intros Hv Hb Hp. assert (∀ c, idx_of (fupd b p ph c) = idx_of (ph c)) as Hidx.
  { intros c. unfold fupd. destruct (Z.eqb_spec c b); [by subst; rewrite Hb|done]. }
  assert (∀ c u i0 i1 i2, fupd b p ph c = PFly u i0 i1 i2 ↔ ph c = PFly u i0 i1 i2) as Hfly.
  { intros c u i0 i1 i2. unfold fupd. destruct (Z.eqb_spec c b) as [->|]; [|done]. split; intros E; [by rewrite E in Hp|by rewrite E in Hb]. }
  constructor; try apply Hv.
  - intros i Hi. destruct (vi_free _ _ _ Hv i Hi) as [[? Hn]|[? (c & Hc)]]; [left|right]; (split; [done|]).
    + intros c. by rewrite Hidx.
    + exists c. by rewrite Hidx.
  - intros c c' i. rewrite !Hidx. apply (vi_disj _ _ _ Hv).
  - intros c u i0 i1 i2 E. rewrite Hfly in E. by eapply (vi_req _ _ _ Hv).
  - intros h Hh. destruct (vi_todo _ _ _ Hv h Hh) as (c & u & i1 & i2 & E & ?). exists c, u, i1, i2. by rewrite Hfly.
  - intros h Hh. destruct (vi_fin _ _ _ Hv h Hh) as (c & u & i1 & i2 & E & ?). exists c, u, i1, i2. by rewrite Hfly.
  - intros c u i0 i1 i2 E. rewrite Hfly in E. by eapply (vi_fly _ _ _ Hv).
Qed.

Lemma vinv_own s ph v b x : vinv s ph v → ph b = PIdle → 0 ≤ vb_blockno x < 2 ^ 31 → length (vb_data x) = Z.to_nat BSIZE →
  vinv (set_v_buf (fupd b x (v_buf s)) s) ph v.
Proof.
  intros Hv Hb Hx Hlen. assert (∀ c u i0 i1 i2, ph c = PFly u i0 i1 i2 → fupd b x (v_buf s) c = v_buf s c) as Hsame.
  { intros c u i0 i1 i2 E. apply fupd_ne. intros ->. by rewrite Hb in E. }
  constructor; simpl; try apply Hv.
  - intros c u i0 i1 i2 E. eapply request_ok_ext; [by eapply (vi_req _ _ _ Hv)|..]; try done. simpl. by erewrite Hsame.
  - intros h Hh. destruct (vi_todo _ _ _ Hv h Hh) as (c & u & i1 & i2 & E & ?). exists c, u, i1, i2. by erewrite Hsame.
  - intros h Hh. destruct (vi_fin _ _ _ Hv h Hh) as (c & u & i1 & i2 & E & ?). exists c, u, i1, i2. by erewrite Hsame.
  - intros c u i0 i1 i2 E. erewrite Hsame by done. by eapply (vi_fly _ _ _ Hv).
  - intros c. unfold fupd. destruct (c =? b); [done|apply Hv].
Qed.

Lemma keeps_weaken b s s' ph : same_io s s' → vd_lock (v_d s') = false → info_at s' = info_at s → keeps b ph s s'.
Proof. intros H1 H2 H3. split_and!; [done|done|]. intros. by rewrite H3. Qed.

(** A call's own steps. *)
Lemma try_sim b w s ph d r s' a : ph b = PWait w → try_section b w s = Ok r s' → yinv (Vsys s ph d) → abs (Vsys s ph d) a →
  let ph' := match r with Some (i0, i1, i2) => fupd b (PFly w i0 i1 i2) ph | None => ph end in
  yinv (Vsys s' ph' d) ∧ abs (Vsys s' ph' d) a.
Proof.
  intros E Er [Hv Hl] Ha. simpl in *. assert (a = Adisk (a_block a) (a_buf a) (a_ph a)) as Ea by (by destruct a).
  assert (a_ph a b = AAsked w) as Hask by (rewrite (ab_ph _ _ Ha); simpl; by rewrite E).
  destruct (try_section_run _ _ _ _ _ Hv Hl E) as [(t & Et & Hv' & Hk & _)|(i0 & i1 & i2 & t & Et & Hv' & Hk & Hst & _)];
    rewrite Et in Er; apply ok_inj in Er as [<- <-].
  - split; [by split; [|apply Hk]|]. rewrite Ea. eapply (abs_keeps b); [done|done|done| |done]. by rewrite Hask, E.
  - split; [by split; [|apply Hk]|]. rewrite Ea. eapply (abs_keeps b); [done|done| | |done].
    + intros c Hc. by apply fupd_ne.
    + rewrite fupd_eq. simpl. by rewrite Hst, Hask.
Qed.

Lemma wake_sim b w i0 i1 i2 s ph d (r : bool) s' a : ph b = PFly w i0 i1 i2 → wake_section b i0 s = Ok r s' → yinv (Vsys s ph d) →
  abs (Vsys s ph d) a → let ph' := if r then fupd b PIdle ph else ph in
  yinv (Vsys s' ph' d) ∧ ∃ a', rtc astep a a' ∧ abs (Vsys s' ph' d) a'.
Proof.
  intros E Er [Hv Hl] Ha. simpl in *.
  destruct (wake_section_run _ _ _ _ _ _ _ _ Hv Hl E) as [[Et _]|(t & Et & Hv' & Hk & Hst & _)]; rewrite Et in Er; apply ok_inj in Er as [<- <-].
  - split; [done|]. by exists a.
  - split; [by split; [|apply Hk]|]. eexists. split.
    + apply rtc_once, (as_return b). rewrite (ab_ph _ _ Ha). simpl. rewrite E. simpl. by rewrite Hst.
    + eapply (abs_keeps b); [done|done| | |].
      * intros c Hc. by apply fupd_ne.
      * by rewrite !fupd_eq.
      * intros c Hc. by apply fupd_ne.
Qed.

(** The handler returns only if it finds no error. *)
Lemma intr_healthy s ph d s' : yinv (Vsys s ph d) → virtio_disk_intr s = Ok tt s' → ∀ h, h ∈ finished s → in_status (info_at s h) = 0.
Proof.
  intros [Hv Hl] Er h Hh. destruct (decide (in_status (info_at s h) = 0)) as [|Hne]; [done|]. simpl in *.
  by rewrite (intr_panics _ _ _ _ Hv Hl Hh Hne) in Er.
Qed.

Lemma dstep_sim y y' a : dstep y y' → yinv y → abs y a → yinv y' ∧ ∃ a', rtc astep a a' ∧ abs y' a'.
Proof.
  intros Hst Hy Ha. destruct Hst as [b w s ph d E|b w s ph d s' E Er|b w s ph d i0 i1 i2 s' E Er|b w i0 i1 i2 s ph d s' E Er|
    b w i0 i1 i2 s ph d s' E Er|s ph d s' Er|s ph d d' s' Er|b x s ph d E Hx Hlen].
  - destruct Hy as [Hv Hl]. simpl in *. split; [split; [|done]; apply vinv_idle; [done|by rewrite E|done]|].
    eexists. split; [apply rtc_once, (as_call b w); rewrite (ab_ph _ _ Ha); simpl; by rewrite E|].
    destruct Ha as [Ab Au Ap]. constructor; simpl in *; [done|done|]. intros c. unfold fupd. by destruct (c =? b).
  - destruct (try_sim _ _ _ _ _ _ _ _ E Er Hy Ha). split; [done|]. by exists a.
  - destruct (try_sim _ _ _ _ _ _ _ _ E Er Hy Ha). split; [done|]. by exists a.
  - by apply (wake_sim _ _ _ _ _ _ _ _ _ _ _ E Er Hy Ha).
  - by apply (wake_sim _ _ _ _ _ _ _ _ _ _ _ E Er Hy Ha).
  - pose proof Hy as [Hv Hl]. destruct (intr_run _ _ _ Hv Hl (intr_healthy _ _ _ _ Hy Er)) as (t & Et & Hv' & Hio & Hl' & Hi & _). simpl in *.
    rewrite Et in Er. apply ok_inj in Er as [_ <-]. split; [done|]. exists (Adisk (a_block a) (a_buf a) (a_ph a)). split; [by destruct a|].
    eapply (abs_keeps 0); [by apply keeps_weaken|done|done| |done]. rewrite (ab_ph _ _ Ha). simpl. unfold aphase_of. by rewrite Hi.
  - destruct Hy as [Hv Hl]. apply dev_step_allowed in Er. destruct (dev_run _ _ _ _ _ d d' a Hv Er Ha) as (Hv' & Hl' & Hs). split; [|done].
    split; [done|]. simpl in *. congruence.
  - destruct Hy as [Hv Hl]. split; [split; [by apply vinv_own|done]|]. eexists. split.
    + apply rtc_once, (as_own b (vb_blockno x, vb_data x)). rewrite (ab_ph _ _ Ha). simpl. by rewrite E.
    + destruct Ha as [Ab Au Ap]. constructor; simpl in *; [done| |done]. intros c. unfold fupd. by destruct (c =? b).
Qed.

Lemma vstep_sim y y' a : vstep y y' → yinv y → abs y a → yinv y' ∧ ∃ a', rtc astep a a' ∧ abs y' a'.
Proof.
  intros [y1 y1' Hst|k s ph d Hk] Hy Ha; [by eapply dstep_sim|]. destruct Hy as [Hv Hl]. split; [split; [by apply (vinv_ext s)|done]|].
  exists a. split; [done|]. by destruct Ha.
Qed.

Lemma path_sim y y' a : rtc vstep y y' → yinv y → abs y a → yinv y' ∧ ∃ a', rtc astep a a' ∧ abs y' a'.
Proof.
  intros Hr. revert a. induction Hr as [y|y y1 y2 Hst _ IH]; intros a Hy Ha; [split; [done|by exists a]|].
  destruct (vstep_sim _ _ _ Hst Hy Ha) as (Hy1 & a1 & Ha1 & Hab). destruct (IH a1 Hy1 Hab) as (Hy2 & a2 & Ha2 & Hab2).
  split; [done|]. exists a2. split; [by etrans|done].
Qed.

(** Every state of the machine has an abstraction. *)
Definition abs_of (y : vsys) : adisk :=
  Adisk (λ n, v_sect (y_st y) (2 * n) ++ v_sect (y_st y) (2 * n + 1))
    (λ c, (vb_blockno (v_buf (y_st y) c), vb_data (v_buf (y_st y) c))) (λ c, aphase_of (y_st y) (y_ph y c)).
Lemma abs_of_ok y : abs y (abs_of y).
Proof. by constructor. Qed.
Lemma yinv_path y y' : rtc vstep y y' → yinv y → yinv y'.
Proof. intros Hr Hy. by apply (path_sim _ _ _ Hr Hy (abs_of_ok y)). Qed.

(** ** No wakeup is lost

    What a call waits for and where it sleeps: for three descriptors on &disk.free[0], and
    then for the end of its request on the buffer. *)
Definition ready (c : Z) (s : vst) (p : phase) : Prop :=
  match p with
  | PWait _ => three_free s
  | _ => vb_disk (v_buf s c) ≠ 1
  end.
Definition sleeps_on (c : Z) (p : phase) : chan := match p with PWait _ => ChDisk | _ => ChBuf c end.

Lemma three_free_mono s s' : (∀ j, free_at s' j ≠ 0 → free_at s j ≠ 0) → three_free s' → three_free s.
Proof. intros Hm (l & Hnd & Hl & Hf). exists l. split_and!; [done|done|]. eapply Forall_impl; [exact Hf|]. intros j [? ?]. split; [done|by apply Hm]. Qed.
Lemma none_busy s ph v : vinv s ph v → (∀ c, idx_of (ph c) = []) → three_free s.
Proof.
  intros Hv Ho. exists [0; 1; 2]. split_and!; [repeat constructor; set_solver|done|]. apply Forall_forall. intros j Hj.
  assert (is_index j) as Hx by (unfold is_index, NUM; set_solver by lia). split; [done|].
  destruct (vi_free _ _ _ Hv j Hx) as [[-> _]|[_ (c & Hc)]]; [done|]. rewrite Ho in Hc. by apply elem_of_nil in Hc.
Qed.

Section sleeper.
(** The process [i] sleeps in a call for the buffer [b]; [strict]: nobody wakes it for nothing. *)
Variables (b i : Z) (strict : Prop).
Hypothesis Hi : 0 ≤ i < NPROC.

(** Steps of the others.  They leave the call where it is, and the device reports no error.
    The process layer changes without touching the process [i], which is not running, but
    that it may make it runnable, as kill() does. *)
Definition kern_other (k k' : kern) : Prop :=
  table_ok k' ∧ k_me k' ≠ i ∧
  ((p_state (procp i k') = p_state (procp i k) ∧ p_chan (procp i k') = p_chan (procp i k)) ∨
   (¬ strict ∧ p_state (procp i k') = RUNNABLE)).
Definition other (y y' : vsys) : Prop :=
  y_ph y' b = y_ph y b ∧ healthy y' ∧
  (dstep y y' ∨ ∃ k, kern_other (v_kern (y_st y)) k ∧ y' = Vsys (set_v_kern k (y_st y)) (y_ph y) (y_dev y)).

(** Nothing is left to do for the others: the device has carried out all the requests, the
    interrupt handler has seen them, and no other call can go on. *)
Definition stuck (y : vsys) : Prop :=
  todo (y_st y) (dev_view (y_dev y)) = [] ∧ finished (y_st y) = [] ∧
  ∀ c, c ≠ b → y_ph y c = PIdle ∨ ¬ ready c (y_st y) (y_ph y c).

(** The process does not run, and it does not sleep when the call could go on. *)
Record waiting (y : vsys) : Prop := {
  wa_me : k_me (v_kern (y_st y)) ≠ i;
  wa_asleep : p_state (procp i (v_kern (y_st y))) = SLEEPING →
    p_chan (procp i (v_kern (y_st y))) = sleeps_on b (y_ph y b) ∧ ¬ ready b (y_st y) (y_ph y b);
  wa_awake : strict → p_state (procp i (v_kern (y_st y))) ≠ SLEEPING → ∀ u i0 i1 i2, y_ph y b = PFly u i0 i1 i2 → vb_disk (v_buf (y_st y) b) ≠ 1;
}.

Lemma waiting_rouses cs s s' ph ph' d d' : waiting (Vsys s ph d) → rouses cs (v_kern s) (v_kern s') → ph' b = ph b →
  (sleeps_on b (ph b) ∉ cs → ready b s' (ph b) → ready b s (ph b)) →
  (∀ u i0 i1 i2, ph b = PFly u i0 i1 i2 → vb_disk (v_buf s b) ≠ 1 ∨ ChBuf b ∈ cs → vb_disk (v_buf s' b) ≠ 1) →
  waiting (Vsys s' ph' d').
Proof.
  intros [Wm Ws Wa] [Hm Hp] Hph Hrdy Hdisk. simpl in *. specialize (Hp i Hi). constructor; simpl; rewrite ?Hph, ?Hp; [congruence| |].
  - destruct (decide (p_state (procp i (v_kern s)) = SLEEPING)) as [Hs|Hs]; [|by rewrite (rouse_awake _ _ _ _ Hs)].
    rewrite (rouse_state _ _ cs _ (not_eq_sym Wm) Hs), rouse_chan. destruct (Ws Hs) as [Hc Hn]. case_decide as Hin; [done|]. intros _. split; [done|].
    rewrite Hc in Hin. auto.
  - intros Hst Hs' u i0 i1 i2 E. apply (Hdisk _ _ _ _ E). destruct (decide (p_state (procp i (v_kern s)) = SLEEPING)) as [Hs|Hs].
    + right. rewrite (rouse_state _ _ cs _ (not_eq_sym Wm) Hs) in Hs'. destruct (Ws Hs) as [Hc _]. rewrite E in Hc. simpl in Hc. rewrite <- Hc. by case_decide.
    + left. by eapply Wa.
Qed.
(** Wakeups of the waiters for descriptors do not concern those for the buffer. *)
Lemma chbuf_not_chdisk n : ChBuf b ∉ replicate n ChDisk.
Proof. by intros [? _]%elem_of_replicate. Qed.

Lemma waiting_dstep y y' : yinv y → dstep y y' → y_ph y' b = y_ph y b → y_ph y b ≠ PIdle → waiting y →
  waiting y' ∧ vb_blockno (v_buf (y_st y') b) = vb_blockno (v_buf (y_st y) b).
Proof.
  intros [Hv Hl] Hst Hph Hne W. destruct Hst as [c u s ph d E|c u s ph d s' E Er|c u s ph d i0 i1 i2 s' E Er|c u i0 i1 i2 s ph d s' E Er|
    c u i0 i1 i2 s ph d s' E Er|s ph d s' Er|s ph d d' s' Er|c x s ph d E Hx Hlen]; simpl in *.
  - split; [|done]. apply (waiting_rouses [] s s ph _ d d W); [by apply rouses_nil|done|done|]. intros ? ? ? ? _ [?|[]%elem_of_nil]; done.
  - destruct (try_section_run _ _ _ _ _ Hv Hl E) as [(t & Et & _ & [Hk _] & _ & Hf & Hb & n & Hro)|(? & ? & ? & t & Et & _)];
      rewrite Et in Er; [|done]. apply ok_inj in Er as [_ <-]. split; [|apply Hk]. apply (waiting_rouses _ s t ph ph d d W Hro); [done| |].
    + intros _. unfold ready. destruct (ph b); rewrite ?Hb; try done. apply three_free_mono. intros j. by rewrite Hf.
    + rewrite Hb. intros ? ? ? ? _ [?|[]%chbuf_not_chdisk]. done.
  - destruct (try_section_run _ _ _ _ _ Hv Hl E) as [(t & Et & _)|(j0 & j1 & j2 & t & Et & _ & [Hk _] & _ & Hf & Hb & Hro)];
      rewrite Et in Er; [done|]. apply ok_inj in Er as [_ <-]. split; [|apply Hk].
    assert (b ≠ c) as Hbc by (intros ->; rewrite fupd_eq in Hph; congruence). apply (waiting_rouses _ s t ph _ d d W Hro); [done| |].
    + intros _. unfold ready. destruct (ph b); rewrite ?Hb by done; try done. by apply three_free_mono.
    + rewrite Hb by done. intros ? ? ? ? _ [?|[]%elem_of_nil]. done.
  - destruct (wake_section_run _ _ _ _ _ _ _ _ Hv Hl E) as [[Et _]|(t & Et & _)]; rewrite Et in Er; [|done]. apply ok_inj in Er as [_ <-].
    split; [|done]. by destruct W.
  - destruct (wake_section_run _ _ _ _ _ _ _ _ Hv Hl E) as [[Et _]|(t & Et & _ & [Hk _] & _ & Hb & Hro)]; rewrite Et in Er; [done|].
    apply ok_inj in Er as [_ <-]. split; [|apply Hk]. apply (waiting_rouses _ s t ph _ d d W Hro); [done| |].
    + unfold ready. destruct (ph b); rewrite ?Hb; try done. intros []. apply elem_of_replicate. split; [done|lia].
    + rewrite Hb. intros ? ? ? ? _ [?|[]%chbuf_not_chdisk]. done.
  - destruct (intr_run _ _ _ Hv Hl (intr_healthy _ _ _ _ (conj Hv Hl) Er)) as (t & Et & _ & [_ Hio] & _ & _ & _ & Hf & Hro & Hd).
    rewrite Et in Er. apply ok_inj in Er as [_ <-]. split; [|apply Hio]. apply (waiting_rouses _ s t ph _ d d W Hro); [done| |].
    + unfold ready. destruct (ph b) as [|u|u i0 i1 i2] eqn:E; simpl; [done|intros _; apply three_free_mono; intros j; by rewrite Hf|].
      rewrite Hd. intros Hn. rewrite decide_False; [done|]. intros Hb. apply Hn. apply list_elem_of_fmap. by exists b.
    + intros u i0 i1 i2 E Hor. rewrite Hd. case_decide as Hb; [done|]. destruct Hor as [?|(c & [= <-] & Hc)%list_elem_of_fmap]; done.
  - apply dev_step_allowed in Er. destruct (dev_effect _ _ _ _ _ Hv Er) as [[-> _]|(c & u & h & i1 & i2 & st & x & E & _ & Hc & _)]; [split; [by destruct W|done]|].
    assert (vb_disk (v_buf s' b) = vb_disk (v_buf s b) ∧ vb_blockno (v_buf s' b) = vb_blockno (v_buf s b)) as [Hd Hbn].
    { rewrite (ca_buf _ _ _ _ _ _ _ Hc). case_decide as Hcb; [subst|done]. by destruct u. }
    split; [|done]. apply (waiting_rouses [] s s' ph ph d d' W); [by apply rouses_nil; rewrite (ca_kern _ _ _ _ _ _ _ Hc)|done| |].
    + intros _. unfold ready. destruct (ph b); rewrite ?Hd; try done. apply three_free_mono. intros j.
      destruct (ca_rest _ _ _ _ _ _ _ Hc) as (_ & -> & _). done.
    + rewrite Hd. intros ? ? ? ? _ [?|[]%elem_of_nil]. done.
  - assert (b ≠ c) as Hbc by (by intros ->). rewrite fupd_ne by done. split; [|done].
    apply (waiting_rouses [] s _ ph ph d d W); [by apply rouses_nil|done| |].
    + intros _. unfold ready. destruct (ph b); simpl; rewrite ?fupd_ne by done; done.
    + simpl. rewrite fupd_ne by done. intros ? ? ? ? _ [?|[]%elem_of_nil]. done.
Qed.

Lemma waiting_kern s ph d k : kern_other (v_kern s) k → waiting (Vsys s ph d) → waiting (Vsys (set_v_kern k s) ph d).
Proof.
  intros (_ & Hme & Hk) [Wm Ws Wa]. simpl in *. constructor; simpl; [done| |].
  - intros Hs. destruct Hk as [[Es Ec]|[_ Er]]; [|congruence]. rewrite Ec. rewrite Es in Hs. destruct (Ws Hs) as [? Hn]. split; [done|].
    by destruct (ph b).
  - intros Hst Hs. destruct Hk as [[Es Ec]|[? _]]; [|done]. rewrite Es in Hs. by apply Wa.
Qed.

Lemma other_vstep y y' : other y y' → vstep y y'.
Proof. intros (_ & _ & [?|(k & (Hk & _) & ->)]); [by apply st_drv|]. destruct y. by apply st_kern. Qed.

Lemma waiting_other y y' : rtc other y y' → yinv y → y_ph y b ≠ PIdle → waiting y → healthy y →
  rtc vstep y y' ∧ yinv y' ∧ waiting y' ∧ healthy y' ∧ y_ph y' b = y_ph y b ∧ vb_blockno (v_buf (y_st y') b) = vb_blockno (v_buf (y_st y) b).
Proof.
  induction 1 as [y|y y1 y2 Ho _ IH]; intros Hy Hp W Hh; [done|]. pose proof (other_vstep _ _ Ho) as Hv.
  pose proof (yinv_path _ _ (rtc_once _ _ Hv) Hy) as Hy1. destruct Ho as (Hph & Hh1 & Ho).
  assert (waiting y1 ∧ vb_blockno (v_buf (y_st y1) b) = vb_blockno (v_buf (y_st y) b)) as [W1 Hb1].
  { destruct Ho as [Hd|(k & Hk & ->)]; [by apply waiting_dstep|]. split; [|done]. destruct y. by apply waiting_kern. }
  destruct (IH Hy1) as (Hr & Hy2 & W2 & Hh2 & Hp2 & Hb2); [congruence|done|done|]. split_and!; [by eapply rtc_l|done|done|done|congruence|congruence].
Qed.

(** When nothing is left to do for the others the call can go on. *)
Lemma stuck_ready y : yinv y → stuck y → y_ph y b ≠ PIdle → ready b (y_st y) (y_ph y b).
Proof.
  intros [Hv _] (Ht & Hf & Hc) Hne. assert (∀ c u i0 i1 i2, y_ph y c = PFly u i0 i1 i2 → vb_disk (v_buf (y_st y) c) = 0) as Hfly.
  { intros c u i0 i1 i2 E. destruct (vi_fly _ _ _ Hv _ _ _ _ _ E) as [Hx|[Hx|[? _]]]; [| |done]; rewrite ?Ht, ?Hf in Hx; by apply elem_of_nil in Hx. }
  unfold ready. destruct (y_ph y b) as [|u|u i0 i1 i2] eqn:E; [done| |by rewrite (Hfly _ _ _ _ _ E)].
  eapply none_busy; [exact Hv|]. intros c. destruct (decide (c = b)) as [->|Hcb]; [by rewrite E|].
  destruct (y_ph y c) as [| |u' j0 j1 j2] eqn:Ec; try done. destruct (Hc c Hcb) as [Hx|Hx]; rewrite Ec in Hx; [done|].
  destruct Hx. simpl. by rewrite (Hfly _ _ _ _ _ Ec).
Qed.

Lemma waiting_stuck y : yinv y → waiting y → stuck y → y_ph y b ≠ PIdle → p_state (procp i (v_kern (y_st y))) ≠ SLEEPING.
Proof. intros Hy W Hs Hne Hsl. destruct (wa_asleep _ W Hsl) as [_ Hn]. by apply Hn, stuck_ready. Qed.
End sleeper.

(** ** A whole call

    virtio_disk_rw is its critical sections with sleeps between. *)
Section call.
Context `{!KernelView vst} `{!WaitBound}.
Variables (b : Z) (w : bool) (i : Z) (N0 : nat).
(** What else is under way. *)
Variable P : (Z → phase) → Prop.
Hypothesis HP : ∀ ph p, P ph → P (fupd b p ph).

(** The others while the process [i] sleeps in the call.  They take steps until it can be
    scheduled, and give up only when it still sleeps and nothing is left to do for them.
    In the first [N0] sleeps the process may be woken for nothing; after those the
    descriptors that it is woken for are still there when it runs. *)
Definition others_ok : Prop := ∀ s ph d k, P ph → yinv (Vsys s ph d) → healthy (Vsys s ph d) → v_kern s = away i (sleeps_on b (ph b)) k →
  ph b ≠ PIdle → ¬ ready b s (ph b) →
  let strict := (N0 ≤ k_slept k)%nat in
  match kv_env (k_slept k) s with
  | Some s' => ∃ ph' d', P ph' ∧ rtc (other b i strict) (Vsys s ph d) (Vsys s' ph' d') ∧
      sched_ok (k_cpuid (v_kern s')) (procp i (v_kern s')) = true ∧ k_noff (v_kern s') = 0 ∧ k_slept (v_kern s') = S (k_slept k) ∧
      (strict → ∀ u, ph b = PWait u → three_free s')
  | None => ∃ y', rtc (other b i strict) (Vsys s ph d) y' ∧ stuck b y' ∧ p_state (procp i (v_kern (y_st y'))) = SLEEPING
  end.

(** Inside a critical section of the call. *)
Record held (t : vst) (ph : Z → phase) (d : dev) : Prop := {
  he_P : P ph;
  he_inv : yinv (Vsys (unlocked t) ph d);
  he_healthy : healthy (Vsys (unlocked t) ph d);
  he_lock : vd_lock (v_d t) = true;
  he_me : k_me (v_kern t) = i ∧ 0 ≤ i < NPROC ∧ k_noff (v_kern t) = 1;
}.

Lemma relock t : vd_lock (v_d t) = true → locked (unlocked t) = t.
Proof.
  intros Hl. destruct t as [k [] ? ? ?]. simpl in *. subst. unfold locked, unlocked. simpl. unfold set_v_kern, set_v_d. simpl. f_equal.
  destruct k. unfold noff_by, set_k_noff. simpl. f_equal. lia.
Qed.

Lemma table_ok_away c k : 0 ≤ i < NPROC → table_ok k → table_ok (away i c k).
Proof.
  intros Hi Hk. apply (table_ok_ext (upd_proc i (λ p, set_p_state SLEEPING (set_p_chan c p)) k)); [done|]. by apply table_ok_upd.
Qed.
Lemma table_ok_resumed k : 0 ≤ i < NPROC → table_ok k → table_ok (noff_by (-1) (resumed i k)).
Proof.
  intros Hi Hk. apply (table_ok_ext (upd_proc i (λ p, set_p_chan chan0 (set_p_state RUNNING p)) k)); [done|]. by apply table_ok_upd.
Qed.

(** A sleep in the middle of a call, from the end of one section to the start of the next. *)
Lemma sched_ok_awake c p : sched_ok c p = true → p_state p ≠ SLEEPING.
Proof. unfold sched_ok. intros Hs E. by rewrite E in Hs. Qed.
Lemma waiting_away s ph d k : 0 ≤ i < NPROC → length (k_procs k) = Z.to_nat NPROC → v_kern s = away i (sleeps_on b (ph b)) k → ¬ ready b s (ph b) → ∀ strict,
  waiting b i strict (Vsys s ph d).
Proof.
  intros Hi Hk Es Hn strict. assert (procp i (v_kern s) = set_p_state SLEEPING (set_p_chan (sleeps_on b (ph b)) (procp i k))) as Hp.
  { rewrite Es. change (procp i (away i ?c k)) with (procp i (upd_proc i (λ p, set_p_state SLEEPING (set_p_chan c p)) k)).
    by rewrite procp_upd_eq. }
  constructor; simpl; rewrite ?Hp; [rewrite Es; simpl; unfold NULLP; lia|done|done].
Qed.

Lemma call_sleeps t ph d : others_ok → held t ph d → ph b ≠ PIdle → ¬ ready b t (ph b) →
  ∃ t' ph' d', sleep (sleeps_on b (ph b)) vdisk_lock t = Ok tt t' ∧ held t' ph' d' ∧ rtc vstep (Vsys (unlocked t) ph d) (Vsys (unlocked t') ph' d') ∧
    ph' b = ph b ∧ vb_blockno (v_buf t' b) = vb_blockno (v_buf t b) ∧ k_slept (v_kern t') = S (k_slept (v_kern t)) ∧
    (N0 ≤ k_slept (v_kern t) → ready b t' (ph b))%nat.
Proof.
  intros Henv [HPh Hy Hh Hl (Hme & Hi & Hn)] Hp Hnr. set (k := v_kern t) in *. set (c := sleeps_on b (ph b)).
  assert (table_ok k) as Hk by (apply (table_ok_ext (v_kern (unlocked t))); [done|apply Hy]).
  set (s1 := lset kv (away i c k) (lset vdisk_lock false t)).
  assert (vstep (Vsys (unlocked t) ph d) (Vsys s1 ph d)) as Hs1.
  { assert (s1 = set_v_kern (away i c k) (unlocked t)) as -> by done. apply st_kern. by apply table_ok_away. }
  pose proof (yinv_path _ _ (rtc_once _ _ Hs1) Hy) as Hy1. assert (healthy (Vsys s1 ph d)) as Hh1 by exact Hh.
  assert (¬ ready b s1 (ph b)) as Hnr1 by (by destruct (ph b)).
  pose proof (waiting_away s1 ph d k Hi (to_len _ Hk) eq_refl Hnr1 (N0 ≤ k_slept k)%nat) as W1.
  pose proof (Henv s1 ph d k HPh Hy1 Hh1 eq_refl Hp Hnr1) as Hoth. cbv zeta in Hoth.
  pose proof (sleep_spec vdisk_lock c t i Hme Hi (to_len _ Hk)) as Hsp. cbv zeta in Hsp.
  specialize (Hsp ltac:(by apply Hk) Hn Hl). change (lget kv t) with k in Hsp. fold s1 in Hsp. destruct (kv_env (k_slept k) s1) as [s2|].
  2:{ destruct Hoth as (y' & Hr & Hst & Hsl). destruct (waiting_other b i _ Hi _ _ Hr Hy1 Hp W1 Hh1) as (_ & Hy2 & W2 & _ & Hp2 & _).
      destruct (waiting_stuck b i _ y' Hy2 W2 Hst); [by rewrite Hp2|done]. }
  destruct Hoth as (ph' & d' & HP' & Hr & Hok & Hn2 & Hsl & Hrdy).
  destruct (waiting_other b i _ Hi _ _ Hr Hy1 Hp W1 Hh1) as (Hr' & [Hv2 Hl2] & W2 & Hh2 & Hph & Hbn). simpl in Hv2, Hl2, Hph, Hbn.
  pose proof (vi_kern _ _ _ Hv2) as Hk2. specialize (Hsp (to_len _ Hk2) ltac:(by apply Hk2) Hl2 Hok).
  set (t' := lset vdisk_lock true (lset kv (resumed i (lget kv s2)) s2)) in *.
  assert (unlocked t' = set_v_kern (noff_by (-1) (resumed i (v_kern s2))) s2) as Hu.
  { unfold t', unlocked. destruct s2 as [? [] ? ? ?]. simpl in *. by subst. }
  assert (vstep (Vsys s2 ph' d') (Vsys (unlocked t') ph' d')) as Hs2.
  { rewrite Hu. apply st_kern. by apply table_ok_resumed. }
  exists t', ph', d'. split_and!; [done| | |done|done|by simpl|].
  - constructor; [done|by apply (yinv_path _ _ (rtc_once _ _ Hs2))|rewrite Hu; exact Hh2|done|]. split_and!; [done|lia|lia|]. simpl. lia.
  - eapply rtc_l; [done|]. eapply rtc_r; [done|]. done.
  - intros HN. assert (p_state (procp i (v_kern s2)) ≠ SLEEPING) as Haw by (by apply sched_ok_awake in Hok).
    destruct (ph b) as [|u|u i0 i1 i2] eqn:E; [done|by apply (Hrdy HN u)|]. exact (wa_awake _ _ _ _ W2 HN Haw u i0 i1 i2 Hph).
Qed.

(** The first loop, with the request that follows it. *)
Definition enough (n : nat) (t : vst) (p : phase) : Prop := (ready b t p ∧ 1 ≤ n)%nat ∨ (2 + (N0 - k_slept (v_kern t)) ≤ n)%nat.

Lemma sector_blockno s s' : vb_blockno (v_buf s' b) = vb_blockno (v_buf s b) → sector_of b s' = sector_of b s.
Proof. intros E. unfold sector_of. by rewrite E. Qed.

Lemma healthy_keeps c s s' ph ph' d : keeps c ph s s' → healthy (Vsys s ph d) → (∀ c', c' ≠ c → ph' c' = ph c') → aphase_of s' (ph' c) ≠ AFailed →
  healthy (Vsys s' ph' d).
Proof.
  intros (_ & _ & Hst) Hh Hph Hc c'. simpl. destruct (decide (c' = c)) as [->|Hne]; [done|]. specialize (Hh c'). rewrite Hph by done. simpl in Hh.
  unfold aphase_of in *. destruct (ph c') eqn:E; try done. by rewrite (Hst _ _ _ _ _ Hne E).
Qed.

Lemma held_full t ph d idx r t1 : held t ph d → ph b = PWait w → alloc3_desc t = Ok (r, idx) t1 → r ≠ 0 →
  kframe (v_kern t) (v_kern t1) → rest_of t1 = rest_of t → held t1 ph d ∧ vstep (Vsys (unlocked t) ph d) (Vsys (unlocked t1) ph d).
Proof.
  intros [HPh Hy Hh Hl Hm] E Ea Hr Hk Hrest. pose proof (f_equal snd Hrest) as Hl1. simpl in Hl1. rewrite Hl in Hl1.
  assert (vstep (Vsys (unlocked t) ph d) (Vsys (unlocked t1) ph d)) as Hst.
  { apply st_drv, (st_full b w); [done|]. unfold try_section. erewrite bind_ok by reflexivity.
    rewrite (bind_ok _ _ _ _ _ (lock_acquire_side vdisk_lock (unlocked t) eq_refl)). fold (locked (unlocked t)). rewrite relock by done.
    rewrite (bind_ok _ _ _ _ _ Ea), (proj2 (Z.eqb_neq _ _) Hr). by rewrite (bind_ok _ _ _ _ _ (lock_release_side vdisk_lock t1 Hl1)). }
  split; [|done]. constructor; [done|by apply (yinv_path _ _ (rtc_once _ _ Hst))| |done|].
  - intros c. unfold rest_of, core_of in Hrest. injection Hrest as _ _ _ _ _ Hin _ _ _. specialize (Hh c). simpl in *. unfold aphase_of in *.
    destruct (ph c); try done. simpl. by rewrite Hin.
  - destruct (kframe_fields _ _ Hk) as (_ & -> & -> & _). done.
Qed.

Lemma held_send t ph d i0 i1 i2 : held t ph d → ph b = PWait w → NoDup [i0; i1; i2] → Forall (λ j, is_index j ∧ free_at t j = 1) [i0; i1; i2] →
  alloc3_desc t = Ok (0, [i0; i1; i2]) (put_free i2 0 (put_free i1 0 (put_free i0 0 t))) →
  ∃ t2, (rw_format b w (sector_of b t) i0 i1 i2;; rw_notify i0) (put_free i2 0 (put_free i1 0 (put_free i0 0 t))) = Ok tt t2 ∧
    held t2 (fupd b (PFly w i0 i1 i2) ph) d ∧ vstep (Vsys (unlocked t) ph d) (Vsys (unlocked t2) (fupd b (PFly w i0 i1 i2) ph) d) ∧
    k_slept (v_kern t2) = k_slept (v_kern t).
Proof.
  intros [HPh Hy Hh Hl Hm] E Hnd Hf Ea. assert (Forall is_index [i0; i1; i2]) as Hr by (eapply Forall_impl; [exact Hf|]; by intros ? [? _]).
  destruct (fly_run b w i0 i1 i2 t Hnd Hr) as (t2 & Ef & Hfl). exists t2. split; [done|].
  pose proof (fl_lock _ _ _ _ _ _ _ Hfl) as Hl2. rewrite Hl in Hl2. pose proof (fl_kern _ _ _ _ _ _ _ Hfl) as Hk2.
  assert (try_section b w (unlocked t) = Ok (Some (i0, i1, i2)) (unlocked t2)) as Htry.
  { unfold try_section. erewrite bind_ok by reflexivity.
    rewrite (bind_ok _ _ _ _ _ (lock_acquire_side vdisk_lock (unlocked t) eq_refl)). fold (locked (unlocked t)). rewrite relock by done.
    rewrite (bind_ok _ _ _ _ _ Ea). cbn [Z.eqb nth]. rewrite (bind_ok _ _ _ _ _ Ef). by rewrite (bind_ok _ _ _ _ _ (lock_release_side vdisk_lock t2 Hl2)). }
  assert (vstep (Vsys (unlocked t) ph d) (Vsys (unlocked t2) (fupd b (PFly w i0 i1 i2) ph) d)) as Hst by (by apply st_drv, st_send).
  split_and!; [|done|by rewrite Hk2]. constructor; [by apply HP|by apply (yinv_path _ _ (rtc_once _ _ Hst))| |done|by rewrite Hk2].
  destruct Hy as [Hv Hl0]. simpl in Hv, Hl0.
  destruct (try_section_run _ _ _ _ _ Hv Hl0 E) as [(x & Ex & _)|(j0 & j1 & j2 & x & Ex & _ & Hkeep & H255 & _)]; rewrite Ex in Htry; [done|].
  apply ok_inj in Htry as [[= -> -> ->] ->]. apply (healthy_keeps b _ _ _ _ _ Hkeep Hh); [intros c Hc; by apply fupd_ne|].
  rewrite fupd_eq. simpl. simpl in H255. by rewrite H255.
Qed.

Lemma get_loop n t ph d : others_ok → held t ph d → ph b = PWait w → enough n t (PWait w) →
  ∃ i0 i1 i2 t1 t2 ph' d', loop n (λ _, get_turn) tt t = Ok [i0; i1; i2] t1 ∧
    (rw_format b w (sector_of b t) i0 i1 i2;; rw_notify i0) t1 = Ok tt t2 ∧ held t2 (fupd b (PFly w i0 i1 i2) ph') d' ∧
    rtc vstep (Vsys (unlocked t) ph d) (Vsys (unlocked t2) (fupd b (PFly w i0 i1 i2) ph') d').
Proof.
  intros Henv. revert t ph d. induction n as [|n IH]; intros t ph d Ht E Hen; [destruct Hen as [[_ ?]|?]; lia|]. cbn [loop].
  pose proof Ht as [_ Hy _ Hl _]. pose proof (vinv_locked _ _ _ (proj1 Hy)) as Hv. simpl in Hv. rewrite relock in Hv by done.
  destruct (alloc3_desc_spec t) as [(i0 & i1 & i2 & Hnd & Hf & Ea)|(idx & t1 & Ea & Hk & Hrest & Hfr & _ & _ & Hno)].
  - apply Hv.
  - intros j Hj. destruct (vi_free _ _ _ Hv j Hj) as [[? _]|[? _]]; auto.
  - destruct (held_send _ _ _ _ _ _ Ht E Hnd Hf Ea) as (t2 & Ef & Ht2 & Hst & _). eexists i0, i1, i2, _, t2, ph, d.
    split_and!; [|exact Ef|done|by apply rtc_once]. erewrite bind_ok; [|unfold get_turn; rewrite (bind_ok _ _ _ _ _ Ea); reflexivity]. done.
  - destruct (held_full _ _ _ _ _ _ Ht E Ea ltac:(done) Hk Hrest) as [Ht1 Hst].
    destruct (call_sleeps t1 ph d Henv Ht1) as (t2 & ph2 & d2 & Es & Ht2 & Hr & Hph & Hbn & Hsl & Hrdy); [by rewrite E| |].
    { rewrite E. intros Hx. apply Hno. eapply three_free_mono; [|exact Hx]. intros j. by rewrite Hfr. }
    destruct (kframe_fields _ _ Hk) as (_ & _ & _ & _ & Hsl1). rewrite Hsl1 in *. rewrite E in Es, Hph, Hrdy.
    assert (sector_of b t2 = sector_of b t) as Hsec.
    { rewrite (sector_blockno t1 t2 Hbn). apply sector_blockno. unfold rest_of, core_of in Hrest. injection Hrest as Hbuf _ _ _ _ _ _ _ _. by rewrite Hbuf. }
    destruct (IH t2 ph2 d2 Ht2 Hph) as (i0 & i1 & i2 & t3 & t4 & ph' & d' & El & Ef & Ht4 & Hr4).
    { unfold enough in *. destruct Hen as [[Hthree _]|Hen]; [done|]. rewrite Hsl. destruct (decide (N0 ≤ k_slept (v_kern t))%nat); [left|right; lia]. split; [by apply Hrdy|lia]. }
    exists i0, i1, i2, t3, t4, ph', d'. rewrite <- Hsec. split_and!; [|done|done|].
    + rewrite (bind_ok get_turn _ _ (inl tt) t2); [exact El|]. unfold get_turn. rewrite (bind_ok _ _ _ _ _ Ea). cbn [Z.eqb]. by rewrite (bind_ok _ _ _ _ _ Es).
    + eapply rtc_l; [exact Hst|]. by etrans.
Qed.

(** The second loop and the end of the call. *)
Lemma done_loop n t ph d i0 i1 i2 : others_ok → held t ph d → ph b = PFly w i0 i1 i2 → enough n t (ph b) →
  ∃ s' ph' d', (loop n (λ _, done_turn b) tt;; rw_done i0;; lock_release vdisk_lock) t = Ok tt s' ∧ ph' b = PIdle ∧
    rtc vstep (Vsys (unlocked t) ph d) (Vsys s' ph' d').
Proof.
  intros Henv. revert t ph d. induction n as [|n IH]; intros t ph d Ht E Hen; [destruct Hen as [[_ ?]|?]; lia|]. cbn [loop].
  pose proof Ht as [_ Hy _ Hl _]. rewrite bind_assoc. destruct (vb_disk (v_buf t b) =? 1) eqn:Ed.
  - destruct (call_sleeps t ph d Henv Ht) as (t2 & ph2 & d2 & Es & Ht2 & Hr & Hph & Hbn & Hsl & Hrdy); [by rewrite E|rewrite E; simpl; lia|].
    erewrite bind_ok; [|unfold done_turn; erewrite bind_ok by reflexivity; rewrite Ed; rewrite E in Es; rewrite (bind_ok _ _ _ _ _ Es); reflexivity].
    destruct (IH t2 ph2 d2 Ht2) as (s' & ph' & d' & El & Hp' & Hr'); [congruence| |].
    { unfold enough in *. destruct Hen as [[Hne _]|Hen]; [rewrite E in Hne; simpl in Hne; lia|]. rewrite Hsl, Hph.
      destruct (decide (N0 ≤ k_slept (v_kern t))%nat); [left|right; lia]. split; [by apply Hrdy|lia]. }
    exists s', ph', d'. split_and!; [done|done|by etrans].
  - pose proof (vinv_locked _ _ _ (proj1 Hy)) as Hv. simpl in Hv. rewrite relock in Hv by done.
    destruct (rw_done_run _ _ _ _ _ _ _ _ Hv E) as (t' & Er & Hfr). pose proof (fr_rest _ _ _ Hfr) as Hrest.
    apply (f_equal snd) in Hrest as Hl'. simpl in Hl'. rewrite Hl in Hl'.
    exists (unlocked t'), (fupd b PIdle ph), d. split_and!; [|apply fupd_eq|].
    + erewrite bind_ok; [|unfold done_turn; erewrite bind_ok by reflexivity; rewrite Ed; reflexivity]. cbv beta iota. erewrite bind_ok by reflexivity.
      rewrite (bind_ok _ _ _ _ _ Er). by rewrite (lock_release_side vdisk_lock t' Hl').
    + apply rtc_once, st_drv, (st_return b w i0 i1 i2); [done|]. unfold wake_section.
      rewrite (bind_ok _ _ _ _ _ (lock_acquire_side vdisk_lock (unlocked t) eq_refl)). fold (locked (unlocked t)). rewrite relock by done.
      erewrite bind_ok by reflexivity. rewrite Ed, (bind_ok _ _ _ _ _ Er). by rewrite (bind_ok _ _ _ _ _ (lock_release_side vdisk_lock t' Hl')).
Qed.

(** The call of virtio_disk_rw by process [i]. *)
Lemma call_run s ph d : others_ok → P ph → yinv (Vsys s ph d) → healthy (Vsys s ph d) → ph b = PIdle → k_me (v_kern s) = i ∧ 0 ≤ i < NPROC ∧ k_noff (v_kern s) = 0 →
  (N0 + 2 ≤ wait_bound)%nat →
  ∃ s' ph' d', virtio_disk_rw b w s = Ok tt s' ∧ ph' b = PIdle ∧ rtc vstep (Vsys s (fupd b (PWait w) ph) d) (Vsys s' ph' d').
Proof.
  intros Henv HPh Hy Hh E (Hme & Hi & Hn) HN. pose proof Hy as [Hv Hl]. simpl in Hv, Hl.
  assert (unlocked (locked s) = s) as Hul.
  { unfold locked, unlocked. destruct s as [k [] ? ? ?]. simpl in *. subst. unfold set_v_kern, set_v_d. simpl. by rewrite noff_back. }
  assert (vstep (Vsys s ph d) (Vsys s (fupd b (PWait w) ph) d)) as Hcall by (by apply st_drv, st_call).
  assert (held (locked s) (fupd b (PWait w) ph) d) as Ht.
  { constructor; [by apply HP|rewrite Hul; by apply (yinv_path _ _ (rtc_once _ _ Hcall))| |done|].
    { intros c. rewrite Hul. simpl. specialize (Hh c). simpl in Hh. unfold fupd. by destruct (c =? b). }
    split_and!; [done|lia|lia|]. simpl. lia. }
  destruct (get_loop wait_bound _ _ _ Henv Ht) as (i0 & i1 & i2 & t1 & t2 & ph2 & d2 & El & Ef & Ht2 & Hr2); [apply fupd_eq|right; lia|].
  destruct (done_loop wait_bound t2 _ _ i0 i1 i2 Henv Ht2) as (s' & ph' & d' & Ed & Hp' & Hr'); [apply fupd_eq|right; lia|].
  rewrite Hul in Hr2. exists s', ph', d'. split_and!; [|done|by etrans].
  unfold virtio_disk_rw. erewrite bind_ok by reflexivity. rewrite (bind_ok _ _ _ _ _ (lock_acquire_side vdisk_lock s Hl)).
  fold (locked s). change (sector_of b s) with (sector_of b (locked s)). rewrite (bind_ok _ _ _ _ _ El). cbn [nth].
  rewrite <- bind_assoc. rewrite (bind_ok _ _ _ _ _ Ef). exact Ed.
Qed.
End call.

(** A call that was asked for and has returned has had its transfer. *)
Lemma moves_ph b w x p a c : a_ph (moves b w x p a) c = fupd b p (a_ph a) c.
Proof. unfold moves. by destruct w. Qed.
Lemma transfer_ph b w a c : a_ph (transfer b w a) c = fupd b ADone (a_ph a) c.
Proof. unfold transfer. destruct (a_buf a b). apply moves_ph. Qed.
Lemma failed_stays b a a' : rtc astep a a' → a_ph a b = AFailed → a_ph a' b = AFailed.
Proof.
  induction 1 as [a|a a2 a3 Hst _ IH]; intros Ha; [done|]. apply IH.
  destruct Hst as [c u a E|c u a E|c u x a E|c a E|c x a E]; rewrite ?transfer_ph, ?moves_ph; simpl; try (rewrite fupd_ne; [done|]; intros <-; congruence). done.
Qed.
Lemma transfer_between b w a a' : rtc astep a a' → a_ph a b = AAsked w → a_ph a' b = AIdle →
  ∃ a1, rtc astep a a1 ∧ a_ph a1 b = AAsked w ∧ rtc astep (transfer b w a1) a'.
Proof.
  induction 1 as [a|a a2 a3 Hst Hr IH]; intros Ha Hn; [congruence|].
  destruct (decide (a_ph a2 b = AAsked w)) as [E|Hne].
  { destruct (IH E Hn) as (a1 & H1 & H2 & H3). exists a1. split_and!; [by eapply rtc_l|done|done]. }
  exists a. split_and!; [done|done|]. assert (a2 = transfer b w a) as <-; [|done].
  destruct Hst as [c u a E|c u a E|c u x a E _|c a E|c x a E]; rewrite ?transfer_ph, ?moves_ph in Hne; simpl in Hne;
    (destruct (decide (c = b)) as [->|Hc]; [|by rewrite ?fupd_ne in Hne by done]); try congruence.
  pose proof (failed_stays b _ _ Hr) as Hf. rewrite moves_ph, fupd_eq in Hf. by rewrite Hf in Hn.
Qed.

(** C2: the driver implements an atomic disk.  Let the critical sections of any number of calls
    of virtio_disk_rw, each with a buffer of its own, interleave with the interrupt handler
    and with a device that reads the descriptors, does anything at all with a chain that is
    not a well-formed request, carries out requests in any order, and may fail each with an
    error status.  No critical section panics, deadlocks or fails to end, but that
    virtio_disk_intr panics when, and only when, the device has reported an error.  What the
    callers see is what they would see of a disk that moves each call's whole block in one
    step between the call and its return: every return has had its transfer, a write
    changes its block of the disk and nothing else, and a read changes its buffer and
    nothing else; a request that fails may spoil its block or its buffer and nothing else,
    and its call does not return. *)
Theorem virtio_refines_atomic_disk y0 y a0 : vstart y0 → abs y0 a0 → rtc vstep y0 y →
  vsafe y ∧ ∃ a, rtc astep a0 a ∧ abs y a.
Proof.
  intros Hs Ha Hr. destruct (path_sim _ _ _ Hr (vstart_inv _ Hs) Ha) as (Hy & Hsim). split; [by apply yinv_safe|done].
Qed.

(** C8: a call of virtio_disk_rw returns.  Let the call be made by a process that holds no
    lock, at any point of the machine's run.  While it sleeps the others take steps of the
    machine: calls, the device, which reports no error, the interrupt handler, and
    changes of the process layer that leave the caller's entry alone, but that in the
    first [N0] sleeps they may wake it for nothing.  Nothing is assumed about when the
    driver wakes it: the others may let the caller sleep for ever once the device has no
    request left, no interrupt is pending and no other call can go on.  Of a caller that
    waits for descriptors it is assumed that after [N0] sleeps the others do not take
    them again before it runs.  Then the call returns, its own critical sections and what
    the others did are a run of the machine, and among the atomic transfers of that run is
    the call's own: the block of its buffer was written to the disk or read from it after
    the call and before the return. *)
Theorem virtio_disk_rw_transfers `{!KernelView vst} `{!WaitBound} b w i N0 P y0 s ph d a0 :
  vstart y0 → abs y0 a0 → rtc vstep y0 (Vsys s ph d) → healthy (Vsys s ph d) →
  (∀ ph p, P ph → P (fupd b p ph)) → others_ok b i N0 P → P ph → ph b = PIdle →
  k_me (v_kern s) = i ∧ 0 ≤ i < NPROC ∧ k_noff (v_kern s) = 0 → (N0 + 2 ≤ wait_bound)%nat →
  ∃ s' ph' d' a1 a', virtio_disk_rw b w s = Ok tt s' ∧ ph' b = PIdle ∧
    rtc vstep (Vsys s (fupd b (PWait w) ph) d) (Vsys s' ph' d') ∧
    rtc astep a0 a1 ∧ a_ph a1 b = AAsked w ∧ rtc astep (transfer b w a1) a' ∧ abs (Vsys s' ph' d') a'.
Proof.
  intros Hs Ha Hr Hh HP Henv HPh E Hme HN. destruct (path_sim _ _ _ Hr (vstart_inv _ Hs) Ha) as (Hy & a & Hra & Hab).
  destruct (call_run b w i N0 P HP s ph d Henv HPh Hy Hh E Hme HN) as (s' & ph' & d' & Er & Hp' & Hr').
  assert (vstep (Vsys s ph d) (Vsys s (fupd b (PWait w) ph) d)) as Hcall by (by apply st_drv, st_call).
  destruct (vstep_sim _ _ _ Hcall Hy Hab) as (Hy1 & a1 & Hra1 & Hab1).
  destruct (path_sim _ _ _ Hr' Hy1 Hab1) as (_ & a' & Hra' & Hab').
  destruct (transfer_between b w a1 a' Hra') as (a2 & Hr2 & Hask & Hr3).
  - rewrite (ab_ph _ _ Hab1). simpl. by rewrite fupd_eq.
  - rewrite (ab_ph _ _ Hab'). simpl. by rewrite Hp'.
  - exists s', ph', d', a2, a'. split_and!; try done. etrans; [done|]. by etrans.
Qed.
End machine.

(** ** Witnesses *)

(** A device that does all that the specification allows, and a driver that has just been
    initialised. *)
Definition any_device : VirtioDevice := {|
  dev := dview;
  dev_view := id;
  dev_step := dev_allowed;
  dev_step_allowed d s d' s' H := H;
|}.
Definition any_regs : Mmio := λ _ _, 1.
Definition vd0 : vdisk :=
  Vdisk (λ _, desc0) (Virtq_avail 0 (λ _, 0)) (Virtq_used 0 (λ _, Virtq_used_elem 0 0)) (λ _, 1) 0 (λ _, Vinfo NULLP 0)
    (λ _, Virtio_blk_req 0 0 0) false.
Definition v0 : vst :=
  Vst kern3 vd0 (λ b, Vbuf (100 + u8 b) (replicate (Z.to_nat BSIZE) b) 0) (λ n, replicate 512 (u8 n)) [].
Definition y0 : @vsys any_device := @Vsys any_device v0 (λ _, PIdle) (Dview 0 []).

Lemma y0_start : @vstart any_device y0.
Proof.
  constructor; try done.
  - apply kern3_ok.
  - intros b. split; [|apply length_replicate]. change (0 ≤ 100 + u8 b < 2 ^ 31). pose proof (u8_range b). lia.
Qed.

Definition after {A} (m : M vst A) (s : vst) : vst := match m s with Ok _ s' => s' | _ => s end.
Definition result {A} (m : M vst A) (s : vst) : option A := match m s with Ok r _ => Some r | _ => None end.
Lemma after_ok {A} (m : M vst A) s r : result m s = Some r → m s = Ok r (after m s).
Proof. unfold result, after. destruct (m s); try done. by intros [= ->]. Qed.

(** The device carries out the request with the head [h], for the buffer [b]. *)
Definition dev_ok (h b : Z) (s : vst) : vst := dev_finish h h b BSIZE h 0 1 (dev_data h b BSIZE s) s.
Lemma dev_ok_outcome h b s : dev_request h s = Some (h, b, BSIZE, h) →
  ∀ o b' len k, dev_request h s = Some (o, b', len, k) → dev_outcome h o b' len k s (dev_ok h b s).
Proof. intros E o b' len k E'. rewrite E in E'. injection E' as <- <- <- <-. exists 0, 1, (dev_data h b BSIZE s). split; [done|by left]. Qed.

(** A write of buffer 3 and a read of buffer 5 are in flight together, and the device
    carries out the read first. *)
Definition v1 : vst := after (try_section 3 true) v0.
Definition v2 : vst := after (try_section 5 false) v1.
Definition v3 : vst := dev_ok 3 5 v2.
Definition v4 : vst := dev_ok 0 3 v3.
Definition v5 : vst := after (@virtio_disk_intr any_regs) v4.
Definition v6 : vst := after (wake_section 3 0) v5.

Lemma v1_run : try_section 3 true v0 = Ok (Some (0, 1, 2)) v1.
Proof. apply (after_ok (try_section 3 true) v0). vm_compute. reflexivity. Qed.
Lemma v2_run : try_section 5 false v1 = Ok (Some (3, 4, 5)) v2.
Proof. apply (after_ok (try_section 5 false) v1). vm_compute. reflexivity. Qed.
Lemma v5_run : @virtio_disk_intr any_regs v4 = Ok tt v5.
Proof. apply (after_ok (@virtio_disk_intr any_regs) v4). vm_compute. reflexivity. Qed.
Lemma v6_run : wake_section 3 0 v5 = Ok true v6.
Proof. apply (after_ok (wake_section 3 0) v5). vm_compute. reflexivity. Qed.
Definition ph1 : Z → phase := fupd 5 (PWait false) (fupd 3 (PWait true) (λ _, PIdle)).
Definition ph2 : Z → phase := fupd 5 (PFly false 3 4 5) (fupd 3 (PFly true 0 1 2) ph1).
Definition y6 : @vsys any_device := @Vsys any_device v6 (fupd 3 PIdle ph2) (Dview 2 []).
Definition taking (v : dview) (s : vst) : dview := Dview (u16 (dv_seen v + 1)) (dv_taken v ++ [av_ring (vd_avail (v_d s)) (dv_seen v mod NUM)]).
Lemma v2_heads : dv_seen (Dview 0 []) ≠ av_idx (vd_avail (v_d v2)) ∧ dv_seen (Dview 1 [0]) ≠ av_idx (vd_avail (v_d v2)) ∧
  taking (Dview 0 []) v2 = Dview 1 [0] ∧ taking (Dview 1 [0]) v2 = Dview 2 [0; 3].
Proof. split_and!; vm_compute; congruence. Qed.

Lemma y6_reached : rtc (@vstep any_regs any_device) y0 y6.
Proof.
  set (Y := @Vsys any_device). destruct v2_heads as (Ha & Hb & T0 & T1).
  assert (@vstep any_regs any_device y0 (Y v0 (fupd 3 (PWait true) (λ _, PIdle)) (Dview 0 []))) as S1 by (by apply st_drv, (@st_call any_regs any_device)).
  assert (@vstep any_regs any_device (Y v0 (fupd 3 (PWait true) (λ _, PIdle)) (Dview 0 [])) (Y v0 ph1 (Dview 0 []))) as S2
    by (by apply st_drv, (@st_call any_regs any_device)).
  assert (@vstep any_regs any_device (Y v0 ph1 (Dview 0 [])) (Y v1 (fupd 3 (PFly true 0 1 2) ph1) (Dview 0 []))) as S3
    by (apply st_drv, (@st_send any_regs any_device); [done|exact v1_run]).
  assert (@vstep any_regs any_device (Y v1 (fupd 3 (PFly true 0 1 2) ph1) (Dview 0 [])) (Y v2 ph2 (Dview 0 []))) as S4
    by (apply st_drv, (@st_send any_regs any_device); [done|exact v2_run]).
  assert (@vstep any_regs any_device (Y v2 ph2 (Dview 0 [])) (Y v2 ph2 (Dview 1 [0]))) as S5.
  { apply st_drv, (@st_dev any_regs any_device). rewrite <- T0. by apply dev_take. }
  assert (@vstep any_regs any_device (Y v2 ph2 (Dview 1 [0])) (Y v2 ph2 (Dview 2 [0; 3]))) as S6.
  { apply st_drv, (@st_dev any_regs any_device). rewrite <- T1. by apply dev_take. }
  assert (@vstep any_regs any_device (Y v2 ph2 (Dview 2 [0; 3])) (Y v3 ph2 (Dview 2 [0]))) as S7.
  { apply st_drv, (@st_dev any_regs any_device), (dev_complete (Dview 2 [0; 3]) v2 [0] 3 [] v3); [done|]. apply dev_ok_outcome. vm_compute. reflexivity. }
  assert (@vstep any_regs any_device (Y v3 ph2 (Dview 2 [0])) (Y v4 ph2 (Dview 2 []))) as S8.
  { apply st_drv, (@st_dev any_regs any_device), (dev_complete (Dview 2 [0]) v3 [] 0 [] v4); [done|]. apply dev_ok_outcome. vm_compute. reflexivity. }
  assert (@vstep any_regs any_device (Y v4 ph2 (Dview 2 [])) (Y v5 ph2 (Dview 2 []))) as S9 by (apply st_drv, (@st_intr any_regs any_device); exact v5_run).
  assert (@vstep any_regs any_device (Y v5 ph2 (Dview 2 [])) y6) as S10
    by (apply st_drv, (@st_return any_regs any_device 3 true 0 1 2); [done|exact v6_run]).
  by eapply rtc_l; [exact S1|eapply rtc_l; [exact S2|eapply rtc_l; [exact S3|eapply rtc_l; [exact S4|eapply rtc_l; [exact S5|
    eapply rtc_l; [exact S6|eapply rtc_l; [exact S7|eapply rtc_l; [exact S8|eapply rtc_l; [exact S9|apply rtc_once; exact S10]]]]]]]]].
Qed.

Lemma virtio_refines_atomic_disk_witness :
  rtc (@vstep any_regs any_device) y0 y6 ∧ y_ph y6 3 = PIdle ∧ y_ph y6 5 = PFly false 3 4 5 ∧
  @vsafe any_regs any_device y6 ∧ ∃ a, rtc astep (abs_of y0) a ∧ abs y6 a.
Proof.
  split; [exact y6_reached|]. split; [reflexivity|]. split; [reflexivity|].
  exact (@virtio_refines_atomic_disk any_regs any_device y0 y6 (abs_of y0) y0_start (abs_of_ok _) y6_reached).
Defined.

(** A machine in which nobody else uses the disk: while the caller sleeps, the device
    carries out its request and the interrupt is handled; the processor is then free to
    run the caller. *)
Definition is_ops (l : loc) : bool := match l with LOps _ => true | _ => false end.
Definition heads (s : vst) : list Z := filter (λ i, free_at s i = 0 ∧ is_ops (d_addr (desc_at s i)) = true) (seqZ 0 NUM).
Definition kern_idle (n : nat) (k : kern) : kern := set_k_slept n (set_k_noff 0 (upd_proc 0 (set_p_cpu_mask (-1)) k)).
Definition serve (b : Z) : KernelView vst := λ _ s,
  match heads s with
  | [] => None
  | h :: _ =>
    let s' := after (@virtio_disk_intr any_regs) (if in_status (info_at s h) =? 0xff then dev_ok h b s else s) in
    Some (set_v_kern (kern_idle (k_slept (v_kern s)) (v_kern s')) s')
  end.

Definition only (b : Z) (ph : Z → phase) : Prop := ∀ c, c ≠ b → ph c = PIdle.

Lemma heads_fly s ph v b w i0 i1 i2 : vinv s ph v → only b ph → ph b = PFly w i0 i1 i2 → ∃ l, heads s = i0 :: l.
Proof.
  intros H Ho E. destruct (vi_req _ _ _ H _ _ _ _ _ E) as [R N D0 D1 D2 _ _].
  assert (∀ x, x ∈ heads s → x = i0) as Hx.
  { intros x [[Hf Hops] Hr]%list_elem_of_filter. apply elem_of_seqZ in Hr. destruct (vi_free _ _ _ H x Hr) as [[? _]|[_ (c & Hc)]]; [lia|].
    destruct (decide (c = b)) as [->|Hne]; [|rewrite (Ho c Hne) in Hc; by apply elem_of_nil in Hc]. rewrite E in Hc.
    apply elem_of_cons in Hc as [->|[->|[->|[]%elem_of_nil]%elem_of_cons]%elem_of_cons]; [done|by rewrite D1 in Hops|by rewrite D2 in Hops]. }
  assert (i0 ∈ heads s) as Hi.
  { apply Forall_cons in R as [R0 _]. apply list_elem_of_filter. split; [|by apply elem_of_seqZ]. split; [|by rewrite D0].
    apply (vi_busy _ _ _ b _ H); [rewrite E; by left|done]. }
  destruct (heads s) as [|x l]; [by apply elem_of_nil in Hi|]. exists l. f_equal. apply Hx. by left.
Qed.
(** Alone, the request is the device's next one or the one that it works on. *)
Lemma todo_alone s ph v b w i0 i1 i2 : vinv s ph v → only b ph → ph b = PFly w i0 i1 i2 → i0 ∈ todo s v → todo s v = [i0].
Proof.
  intros H Ho E Hi. assert (∀ x, x ∈ todo s v → x = i0) as Hx.
  { intros x Hx. destruct (vi_todo _ _ _ H x Hx) as (c & u & j1 & j2 & Ec & _). destruct (decide (c = b)) as [->|Hne]; [congruence|]. by rewrite (Ho c Hne) in Ec. }
  pose proof (vi_nodup _ _ _ H) as [Hnd _]%NoDup_app. destruct (todo s v) as [|x [|x' l]]; [by apply elem_of_nil in Hi| |].
  - f_equal. apply Hx. by left.
  - exfalso. apply NoDup_cons in Hnd as [Hn _]. apply Hn. rewrite (Hx x), (Hx x'); [by left|right; by left|by left].
Qed.

Lemma dev_ok_carried s b w i0 i1 i2 : request_ok s b w i0 i1 i2 → carried b w i0 0 (asked b w s) s (dev_ok i0 b s).
Proof. intros Hr. unfold dev_ok. rewrite (dev_data_asked _ _ _ _ _ _ Hr). apply (dev_finish_carried _ _ _ _ _ _ _ _ _ Hr). by left. Qed.

(** With one call the machine is healthy if the call's request has not failed. *)
Lemma only_healthy s ph (d : dview) b w i0 i1 i2 : only b ph → ph b = PFly w i0 i1 i2 → in_status (info_at s i0) = 0 →
  @healthy any_device (@Vsys any_device s ph d).
Proof.
  intros Ho E Hst c. simpl. destruct (decide (c = b)) as [->|Hne]; [rewrite E; simpl; by rewrite Hst|by rewrite (Ho c Hne)].
Qed.

Lemma device_serves s ph (d : dview) b w i0 i1 i2 : vinv s ph d → @healthy any_device (@Vsys any_device s ph d) → only b ph → ph b = PFly w i0 i1 i2 →
  i0 ∈ todo s d → ∃ d' : dview, rtc (@other any_regs any_device b 0 True) (@Vsys any_device s ph d) (@Vsys any_device (dev_ok i0 b s) ph d').
Proof.
  intros H Hh Ho E Hi. pose proof (todo_alone _ _ _ _ _ _ _ _ H Ho E Hi) as Ht. pose proof (vi_req _ _ _ H _ _ _ _ _ E) as Hr.
  assert (∀ seen, @other any_regs any_device b 0 True (@Vsys any_device s ph (Dview seen [i0])) (@Vsys any_device (dev_ok i0 b s) ph (Dview seen []))) as Hfin.
  { intros seen. split_and!; [done| |left].
    - eapply only_healthy; [done|done|]. by rewrite (ca_info _ _ _ _ _ _ _ (dev_ok_carried _ _ _ _ _ _ Hr)), decide_True.
    - apply (@st_dev any_regs any_device), (dev_complete (Dview seen [i0]) s [] i0 []); [done|]. by eapply dev_ok_outcome, request_form. }
  unfold todo in Ht. destruct d as [seen taken]. simpl in *. destruct (vi_idx _ _ _ H) as (Hs & Ha & _ & _). simpl in Hs.
  destruct (decide (seen = av_idx (vd_avail (v_d s)))) as [->|Hne].
  - rewrite window_nil in Ht. simpl in Ht. subst. eexists. by apply rtc_once.
  - rewrite (window_pop _ _ _ Hs Ha Hne) in Ht. injection Ht as Hh' Ht. apply app_nil in Ht as [_ ->].
    eexists. eapply rtc_l; [|by apply rtc_once, (Hfin (u16 (seen + 1)))]. split_and!; [done|exact Hh|left].
    apply (@st_dev any_regs any_device). rewrite <- Hh'. by apply (dev_take (Dview seen [])).
Qed.

(** The request is carried out, or the device has it no more. *)
Lemma serve_device s ph (d : dview) b w i0 i1 i2 : yinv (@Vsys any_device s ph d) → @healthy any_device (@Vsys any_device s ph d) → only b ph →
  ph b = PFly w i0 i1 i2 → vb_disk (v_buf s b) = 1 →
  let s1 := if in_status (info_at s i0) =? 0xff then dev_ok i0 b s else s in
  ∃ d1 : dview, rtc (@other any_regs any_device b 0 True) (@Vsys any_device s ph d) (@Vsys any_device s1 ph d1) ∧
    in_status (info_at s1 i0) = 0 ∧ vb_disk (v_buf s1 b) = 1.
Proof.
  intros [Hv _] Hh Ho E Hd. simpl in Hv. pose proof (vi_req _ _ _ Hv _ _ _ _ _ E) as Hr. pose proof (dev_ok_carried _ _ _ _ _ _ Hr) as Hc.
  destruct (vi_fly _ _ _ Hv _ _ _ _ _ E) as [Hi|[Hi|[? _]]]; [| |lia].
  - destruct (vi_todo _ _ _ Hv _ Hi) as (? & ? & ? & ? & _ & _ & ->). destruct (device_serves _ _ _ _ _ _ _ _ Hv Hh Ho E Hi) as (d1 & Hpath).
    exists d1. split_and!; [exact Hpath|by rewrite (ca_info _ _ _ _ _ _ _ Hc), decide_True|].
    cbn [Z.eqb Pos.eqb]. rewrite (ca_buf _ _ _ _ _ _ _ Hc), decide_True by done. by destruct w.
  - destruct (vi_fin _ _ _ Hv _ Hi) as (? & ? & ? & ? & _ & _ & Hne). specialize (Hh b). simpl in Hh. rewrite E in Hh. simpl in Hh.
    rewrite (proj2 (Z.eqb_neq _ _) Hne) in *. exists d. split_and!; [done| |done]. destruct (in_status (info_at s i0) =? 0) eqn:E0; [lia|done].
Qed.

(** The interrupt handler wakes the caller. *)
Lemma intr_wakes s ph (d : dview) b w i0 i1 i2 : yinv (@Vsys any_device s ph d) → waiting b 0 True (@Vsys any_device s ph d) → only b ph →
  ph b = PFly w i0 i1 i2 → in_status (info_at s i0) = 0 → vb_disk (v_buf s b) = 1 →
  ∃ t, @virtio_disk_intr any_regs s = Ok tt t ∧ table_ok (v_kern t) ∧ k_me (v_kern t) ≠ 0 ∧ p_state (procp 0 (v_kern t)) = RUNNABLE ∧
    in_status (info_at t i0) = 0.
Proof.
  intros Hy W Ho E Hst Hd. pose proof Hy as [Hv Hl]. simpl in Hv, Hl.
  pose proof (@healthy_finished any_device s ph d Hy (only_healthy _ _ _ _ _ _ _ _ Ho E Hst)) as Hok.
  destruct (@intr_run any_regs s ph d Hv Hl Hok) as (t & Et & Hvt & _ & _ & Hit & _ & _ & [Hm Hp] & _). exists t.
  assert (p_state (procp 0 (v_kern s)) = SLEEPING) as Hsl.
  { destruct (decide (p_state (procp 0 (v_kern s)) = SLEEPING)) as [|Hne]; [done|]. by destruct (wa_awake _ _ _ _ W I Hne _ _ _ _ E). }
  destruct (wa_asleep _ _ _ _ W Hsl) as [Hc _]. pose proof (wa_me _ _ _ _ W) as Hme. simpl in Hc, Hme. rewrite E in Hc. simpl in Hc.
  split_and!; [done|apply Hvt|congruence| |by rewrite Hit].
  rewrite Hp by (unfold NPROC; lia). rewrite rouse_state by done. rewrite Hc, decide_True; [done|]. apply list_elem_of_fmap. exists b. split; [done|].
  eapply bufs_of_elem; [done|done|]. destruct (vi_fly _ _ _ Hv _ _ _ _ _ E) as [Hi|[?|[? _]]]; [|done|lia].
  destruct (vi_todo _ _ _ Hv _ Hi) as (? & ? & ? & ? & _ & _ & ?). lia.
Qed.

Lemma kern_idle_other n k : table_ok k → k_me k ≠ 0 → kern_other 0 True k (kern_idle n k) ∧ procp 0 (kern_idle n k) = set_p_cpu_mask (-1) (procp 0 k).
Proof.
  intros Hk Hme. assert (procp 0 (kern_idle n k) = set_p_cpu_mask (-1) (procp 0 k)) as Hp.
  { change (procp 0 (kern_idle n k)) with (procp 0 (upd_proc 0 (set_p_cpu_mask (-1)) k)). rewrite procp_upd_eq; [done|done|apply Hk]. }
  split; [|done]. split_and!; [|done|left; by rewrite Hp].
  apply (table_ok_ext (upd_proc 0 (set_p_cpu_mask (-1)) k)); [done|]. apply table_ok_upd; [by constructor|done|done].
Qed.

Lemma other_strict strict b y y' : rtc (@other any_regs any_device b 0 True) y y' → rtc (@other any_regs any_device b 0 strict) y y'.
Proof.
  intros Hr. induction Hr as [|y y1 y2 (Hp & Hh & Ho) _ IH]; [done|]. eapply rtc_l; [|exact IH]. split_and!; [done|done|].
  destruct Ho as [?|(k & (Hk & Hm & Hs) & ->)]; [by left|right]. exists k. split; [|done]. split_and!; [done|done|].
  destruct Hs as [?|[[] _]]; [by left|done].
Qed.

Lemma serve_ok b : @others_ok any_regs any_device (serve b) b 0 0 (only b).
Proof.
  intros s ph d k Ho Hy Hh Hk Hp Hnr strict. pose proof Hy as [Hv Hl]. simpl in Hv, Hl.
  destruct (ph b) as [|w|w i0 i1 i2] eqn:E; [done| |].
  { destruct Hnr. eapply none_busy; [exact Hv|]. intros c. destruct (decide (c = b)) as [->|Hne]; [by rewrite E|by rewrite (Ho c Hne)]. }
  assert (vb_disk (v_buf s b) = 1) as Hd by (simpl in Hnr; lia).
  destruct (heads_fly _ _ _ _ _ _ _ _ Hv Ho E) as (l & Hhd). change (kv_env (k_slept k) s) with (serve b (k_slept k) s). unfold serve. rewrite Hhd.
  set (s1 := if in_status (info_at s i0) =? 0xff then dev_ok i0 b s else s).
  destruct (serve_device s ph d b w i0 i1 i2 Hy Hh Ho E Hd) as (d1 & Hr & Hst & Hd1). cbv zeta in Hr, Hst, Hd1. fold s1 in Hr, Hst, Hd1.
  assert (waiting b 0 True (@Vsys any_device s ph d)) as W.
  { apply (@waiting_away any_device b 0 s ph d k); [done| |by rewrite E|by rewrite E].
    rewrite <- (to_len _ (vi_kern _ _ _ Hv)), Hk. simpl. by rewrite length_alter. }
  assert (0 ≤ 0 < NPROC) as H0 by (unfold NPROC; lia).
  destruct (waiting_other b 0 True H0 _ _ Hr Hy) as (_ & Hy1 & W1 & Hh1 & _ & _); [simpl; by rewrite E|done|done|].
  destruct (intr_wakes _ _ _ _ _ _ _ _ Hy1 W1 Ho E Hst Hd1) as (t & Et & Hkt & Hmt & Hrun & Hst'). unfold after. rewrite Et.
  destruct (kern_idle_other (k_slept (v_kern s)) (v_kern t) Hkt Hmt) as [Hko Hpt].
  assert (rtc (@other any_regs any_device b 0 True) (@Vsys any_device s ph d) (@Vsys any_device t ph d1)) as Hr1.
  { eapply rtc_r; [exact Hr|]. split_and!; [done|by eapply only_healthy|left]. by apply (@st_intr any_regs any_device). }
  exists ph, d1. split_and!; [done| | |done|by rewrite Hk|by intros _ ? [=]].
  - apply other_strict. eapply rtc_r; [exact Hr1|]. split_and!; [done|by eapply only_healthy|right]. by exists (kern_idle (k_slept (v_kern s)) (v_kern t)).
  - change (sched_ok (k_cpuid (v_kern t)) (procp 0 (kern_idle (k_slept (v_kern s)) (v_kern t))) = true). rewrite Hpt. unfold sched_ok. simpl. by rewrite Hrun.
Qed.

Lemma virtio_disk_rw_transfers_witness :
  ∃ s' a1 a', @virtio_disk_rw (serve 3) 2%nat 3 true v0 = Ok tt s' ∧ rtc astep (abs_of y0) a1 ∧ a_ph a1 3 = AAsked true ∧
    rtc astep (transfer 3 true a1) a' ∧ a_ph a' 3 = AIdle.
Proof.
  destruct (@virtio_disk_rw_transfers any_regs any_device (serve 3) 2%nat 3 true 0 0 (only 3) y0 v0 (λ _, PIdle) (Dview 0 []) (abs_of y0))
    as (s' & ph' & d' & a1 & a' & Hr & Hp & _ & H1 & H2 & H3 & Ha).
  - exact y0_start.
  - apply abs_of_ok.
  - reflexivity.
  - intros c. discriminate.
  - intros ph p Ho c Hc. rewrite fupd_ne by exact Hc. exact (Ho c Hc).
  - apply serve_ok.
  - intros c Hc. reflexivity.
  - reflexivity.
  - split_and!; try reflexivity; unfold NPROC; lia.
  - unfold wait_bound. lia.
  - exists s', a1, a'. split_and!; [exact Hr|exact H1|exact H2|exact H3|]. rewrite (ab_ph _ _ Ha). simpl. rewrite Hp. reflexivity.
Defined.

(** ** Initialisation *)

(** A device that is a virtio disk and accepts the driver's features. *)
Record is_virtio_disk `{!Mmio} : Prop := {
  vr_id ws : u32 (mmio_read ws VIRTIO_MMIO_MAGIC_VALUE) = 0x74726976 ∧ u32 (mmio_read ws VIRTIO_MMIO_VERSION) = 2 ∧
    u32 (mmio_read ws VIRTIO_MMIO_DEVICE_ID) = 2 ∧ u32 (mmio_read ws VIRTIO_MMIO_VENDOR_ID) = 0x554d4551;
  vr_status ws v : Z.land v VIRTIO_CONFIG_S_FEATURES_OK ≠ 0 →
    Z.land (u32 (mmio_read (ws ++ [(VIRTIO_MMIO_STATUS, v)]) VIRTIO_MMIO_STATUS)) VIRTIO_CONFIG_S_FEATURES_OK ≠ 0;
  vr_ready ws : (∀ v, (VIRTIO_MMIO_QUEUE_READY, v) ∉ ws) → u32 (mmio_read ws VIRTIO_MMIO_QUEUE_READY) = 0;
  vr_max ws : NUM ≤ u32 (mmio_read ws VIRTIO_MMIO_QUEUE_NUM_MAX);
}.

Lemma init_device_run `{!Mmio} s : is_virtio_disk → v_mmio s = [] →
  ∃ status ws, init_device s = Ok status (set_v_mmio ws s).
Proof.
  intros [Hid Hst Hrdy Hmax] Hm. unfold init_device, check_reg, mmio_get, mmio_put.
  destruct (Hid []) as (I1 & I2 & I3 & I4). munfold. rewrite Hm, I1, I2, I3, I4. cbn [Z.eqb Pos.eqb andb negb v_mmio set_v_mmio]. rewrite Hm.
  match goal with |- context [mmio_read (?ws ++ [(VIRTIO_MMIO_STATUS, ?v)]) VIRTIO_MMIO_STATUS] =>
    pose proof (Hst ws v ltac:(vm_compute; discriminate)) as Hok end.
  unfold ctrue. rewrite (proj2 (Z.eqb_neq _ _) Hok). cbn [negb v_mmio set_v_mmio].
  rewrite (Hrdy _) by (intros v Hin; simpl in Hin; set_solver). cbn [negb Z.eqb v_mmio set_v_mmio].
  match goal with |- context [mmio_read ?ws VIRTIO_MMIO_QUEUE_NUM_MAX] => pose proof (Hmax ws) as Hn end. unfold NUM in *.
  rewrite (proj2 (Z.eqb_neq _ _)) by lia. rewrite (proj2 (Z.ltb_ge _ _)) by lia. by eexists _, _.
Qed.

Definition queue_regs (desc avail used : Z) : list (Z * Z) :=
  [(VIRTIO_MMIO_QUEUE_NUM, u32 NUM);
   (VIRTIO_MMIO_QUEUE_DESC_LOW, u32 desc); (VIRTIO_MMIO_QUEUE_DESC_HIGH, u32 (Z.shiftr desc 32));
   (VIRTIO_MMIO_DRIVER_DESC_LOW, u32 avail); (VIRTIO_MMIO_DRIVER_DESC_HIGH, u32 (Z.shiftr avail 32));
   (VIRTIO_MMIO_DEVICE_DESC_LOW, u32 used); (VIRTIO_MMIO_DEVICE_DESC_HIGH, u32 (Z.shiftr used 32));
   (VIRTIO_MMIO_QUEUE_READY, 1)].

Lemma kalloc_run `{!KernelImage} s p l : kmem_inv (k_mem (v_kern s)) (p :: l) →
  ∃ m, lift kmem_l kalloc s = Ok p (set_v_kern (set_k_mem m (v_kern s)) s) ∧ kmem_inv m l ∧ page_ok p ∧ (p ∉ l).
Proof.
  intros Hi. destruct (kalloc_cons _ _ _ Hi) as (Hr & Hi' & Hp & Hn). exists (kalloced (k_mem (v_kern s)) p).
  split_and!; [exact (lift_ok kmem_l kalloc s _ _ Hr)|done|done|done].
Qed.

Lemma tell_queue_run p1 p2 p3 s : tell_queue p1 p2 p3 s = Ok tt (set_v_mmio (v_mmio s ++ queue_regs p1 p2 p3) s).
Proof.
  unfold tell_queue, mmio_put. do 7 (erewrite bind_ok by reflexivity). unfold modify. f_equal. destruct s. unfold set_v_mmio. simpl. f_equal.
  by rewrite <- !app_assoc.
Qed.

Lemma init_queue_run `{!KernelImage} s p1 p2 p3 l : kmem_inv (k_mem (v_kern s)) (p1 :: p2 :: p3 :: l) →
  ∃ m, init_queue s = Ok tt (Vst (set_k_mem m (v_kern s))
    (set_vd_desc (λ _, desc0) (set_vd_avail (Virtq_avail 0 (λ _, 0)) (set_vd_used (Virtq_used 0 (λ _, Virtq_used_elem 0 0)) (v_d s))))
    (v_buf s) (v_sect s) (v_mmio s ++ queue_regs p1 p2 p3)).
Proof.
  intros Hi. destruct (kalloc_run s p1 _ Hi) as (m1 & E1 & Hi1 & Hp1 & _).
  destruct (kalloc_run (set_v_kern (set_k_mem m1 (v_kern s)) s) p2 (p3 :: l) Hi1) as (m2 & E2 & Hi2 & Hp2 & _).
  destruct (kalloc_run (set_v_kern (set_k_mem m2 (v_kern s)) s) p3 l Hi2) as (m3 & E3 & Hi3 & Hp3 & _).
  unfold init_queue. rewrite (bind_ok _ _ _ _ _ E1), (bind_ok _ _ _ _ _ E2), (bind_ok _ _ _ _ _ E3). unfold ctrue.
  rewrite (proj2 (Z.eqb_neq _ _) (page_ok_nonzero _ Hp1)), (proj2 (Z.eqb_neq _ _) (page_ok_nonzero _ Hp2)), (proj2 (Z.eqb_neq _ _) (page_ok_nonzero _ Hp3)).
  cbn [negb orb]. do 4 (erewrite bind_ok by reflexivity). rewrite tell_queue_run. by eexists.
Qed.

(** C20: virtio_disk_init prepares the driver.  With a device that is a virtio disk and three
    pages free it succeeds: every descriptor is free, both rings are empty, the lock is
    free, and the device knows the size of the queue and the physical addresses of its
    three pages before it is told that the queue is ready.  That is a start of the
    machine. *)
Theorem virtio_disk_init_starts `{!KernelImage} `{!Mmio} `{!VirtioDevice} s p1 p2 p3 l d :
  is_virtio_disk → v_mmio s = [] → kmem_inv (k_mem (v_kern s)) (p1 :: p2 :: p3 :: l) → table_ok (v_kern s) →
  vd_used_idx (v_d s) = 0 → dev_view d = Dview 0 [] →
  (∀ b, 0 ≤ vb_blockno (v_buf s b) < 2 ^ 31 ∧ length (vb_data (v_buf s b)) = Z.to_nat BSIZE) → (∀ n, length (v_sect s n) = 512%nat) →
  ∃ s' ws status, virtio_disk_init s = Ok tt s' ∧ vstart (Vsys s' (λ _, PIdle) d) ∧
    v_mmio s' = ws ++ queue_regs p1 p2 p3 ++ [(VIRTIO_MMIO_STATUS, u32 (Z.lor status VIRTIO_CONFIG_S_DRIVER_OK))].
Proof.
  intros Hdev Hm Hmem Hk Hui Hd Hb Hs. set (s1 := lset vdisk_lock false s).
  destruct (init_device_run s1 Hdev Hm) as (status & ws & E1). destruct (init_queue_run (set_v_mmio ws s1) p1 p2 p3 l Hmem) as (m & E2).
  unfold virtio_disk_init. erewrite bind_ok by reflexivity. fold s1. rewrite (bind_ok _ _ _ _ _ E1), (bind_ok _ _ _ _ _ E2).
  set (s2 := Vst _ _ _ _ _). eexists _, ws, status. split_and!.
  - erewrite bind_ok; [unfold mmio_put; reflexivity|]. change (S (Z.to_nat NUM)) with 9%nat. cbn [loop]. reflexivity.
  - constructor; try done.
    + by apply (table_ok_ext (v_kern s)).
    + intros i Hi. assert (i = 0 ∨ i = 1 ∨ i = 2 ∨ i = 3 ∨ i = 4 ∨ i = 5 ∨ i = 6 ∨ i = 7) as Hc by (unfold is_index, NUM in Hi; lia).
      by destruct Hc as [->|[->|[->|[->|[->|[->|[->| ->]]]]]]].
  - simpl. by rewrite <- app_assoc.
Qed.

(** The registers of qemu's disk, and a kernel with three free pages. *)
Definition last_put (r : Z) (ws : list (Z * Z)) : Z := foldl (λ v '(r', v'), if r' =? r then v' else v) 0 ws.
Definition qemu_regs : Mmio := λ ws r,
  if r =? VIRTIO_MMIO_MAGIC_VALUE then 0x74726976 else if r =? VIRTIO_MMIO_VERSION then 2
  else if r =? VIRTIO_MMIO_DEVICE_ID then 2 else if r =? VIRTIO_MMIO_VENDOR_ID then 0x554d4551
  else if r =? VIRTIO_MMIO_QUEUE_NUM_MAX then 1024 else last_put r ws.
Lemma qemu_is_virtio_disk : @is_virtio_disk qemu_regs.
Proof.
  constructor.
  - done.
  - intros ws v Hv. change (mmio_read _ VIRTIO_MMIO_STATUS) with (last_put VIRTIO_MMIO_STATUS (ws ++ [(VIRTIO_MMIO_STATUS, v)])).
    unfold last_put. rewrite foldl_app. simpl. intros Hz. apply Hv. apply Z.bits_inj'. intros n Hn. rewrite Z.bits_0.
    destruct (decide (n = 3)) as [->|Hne].
    + apply (f_equal (λ x, Z.testbit x 3)) in Hz. rewrite Z.land_spec, Z.bits_0 in Hz. unfold u32 in Hz. rewrite Z.mod_pow2_bits_low in Hz by lia.
      by rewrite Z.land_spec.
    + rewrite Z.land_spec. change VIRTIO_CONFIG_S_FEATURES_OK with (2 ^ 3). rewrite (Z.pow2_bits_false 3) by lia. apply andb_false_r.
  - intros ws Hn. change (mmio_read ws VIRTIO_MMIO_QUEUE_READY) with (last_put VIRTIO_MMIO_QUEUE_READY ws).
    assert (last_put VIRTIO_MMIO_QUEUE_READY ws = 0) as ->; [|done]. unfold last_put. induction ws as [|[r v] ws IH] using rev_ind; [done|].
    rewrite foldl_app. simpl. destruct (r =? VIRTIO_MMIO_QUEUE_READY) eqn:E.
    + apply Z.eqb_eq in E as ->. destruct (Hn v). set_solver.
    + apply IH. intros v' Hv'. apply (Hn v'). set_solver.
  - intros ws. vm_compute. discriminate.
Qed.

Definition v_boot : vst := Vst (set_k_mem machine8 kern3) (set_vd_lock true (set_vd_free (λ _, 0) vd0)) (v_buf v0) (v_sect v0) [].
Lemma virtio_disk_init_starts_witness :
  ∃ s' ws status, @virtio_disk_init img8 qemu_regs v_boot = Ok tt s' ∧ @vstart any_device (@Vsys any_device s' (λ _, PIdle) (Dview 0 [])) ∧
    v_mmio s' = ws ++ queue_regs (nth 0 pages8 0) (nth 1 pages8 0) (nth 2 pages8 0) ++ [(VIRTIO_MMIO_STATUS, u32 (Z.lor status VIRTIO_CONFIG_S_DRIVER_OK))].
Proof.
  apply (@virtio_disk_init_starts img8 qemu_regs any_device v_boot (nth 0 pages8 0) (nth 1 pages8 0) (nth 2 pages8 0) (drop 3 pages8)).
  - exact qemu_is_virtio_disk.
  - reflexivity.
  - exact machine8_inv.
  - exact (table_ok_ext kern3 (v_kern v_boot) eq_refl kern3_ok).
  - reflexivity.
  - reflexivity.
  - exact (vs_buf _ y0_start).
  - exact (vs_sect _ y0_start).
Defined.
