(* ===== verification/Mkfs.v ===== *)
(** * The disk image: mkfs/mkfs.c

    mkfs runs on the build machine and writes the disk that the kernel boots from.  Its
    state is the image, one list of bytes per block and the empty list after its end, and
    the two counters; the image file is written without errors, and a read after its end
    makes mkfs die.  A file to be added is its command line argument
    and what the reads of it return, one list per call.

    The host is little-endian, as xshort and xint allow it to be.

    The theorems say that the image is a file system for the kernel: it satisfies the
    predicates that the theorems about kernel/fs.c assume, and every file is in it. *)
From stdpp Require Import gmap.
From S2P Require Import Prelude Bytes Riscv Vm Proc Kstate Console Bio Fs FsBlocks FsFile FsInode FsWrite.
Open Scope Z_scope.

Definition NINODES : Z := 200.
Definition nbitmap : Z := FSSIZE / BPB + 1.
Definition ninodeblocks : Z := NINODES / IPB + 1.
Definition nlog : Z := LOGSIZE.
Definition nmeta : Z := 2 + nlog + ninodeblocks + nbitmap.
Definition nblocks : Z := FSSIZE - nmeta.

Record mst := Mst {
  m_img : Z → list Z;
  m_freeinode : Z;
  m_freeblock : Z;
}.
Definition set_m_img (v : Z → list Z) (r : mst) : mst := Mst v (m_freeinode r) (m_freeblock r).
Definition set_m_freeinode (v : Z) (r : mst) : mst := Mst (m_img r) v (m_freeblock r).
Definition set_m_freeblock (v : Z) (r : mst) : mst := Mst (m_img r) (m_freeinode r) v.

(** convert to riscv byte order *)
Definition xshort (x : Z) : Z := le_val [u8 x; u8 (Z.shiftr x 8)].
Definition xint (x : Z) : Z := le_val [u8 x; u8 (Z.shiftr x 8); u8 (Z.shiftr x 16); u8 (Z.shiftr x 24)].

Definition mk_sb : superblock :=
  Superblock FSMAGIC (xint FSSIZE) (xint nblocks) (xint NINODES) (xint nlog) (xint 2) (xint (2 + nlog)) (xint (2 + nlog + ninodeblocks)).

(** The bytes of struct superblock. *)
Definition sb_bytes (sb : superblock) : list Z :=
  concat (le_bytes 4 <$> [sb_magic sb; sb_size sb; sb_nblocks sb; sb_ninodes sb; sb_nlog sb; sb_logstart sb; sb_inodestart sb; sb_bmapstart sb]).
Definition zeroes : list Z := replicate (Z.to_nat BSIZE) 0.

(** ** Sectors, inodes *)

Definition wsect (sec : Z) (buf : list Z) : M mst unit := modify (λ s, set_m_img (fupd sec buf (m_img s)) s).
Definition rsect (sec : Z) : M mst (list Z) :=
  buf ← gets (λ s, m_img s sec);
  if negb (Z.of_nat (length buf) =? BSIZE) then panic "read" else mret buf.

Definition winode (inum : Z) (ip : inode) : M mst unit :=
  let bn := IBLOCK inum mk_sb in
  buf ← rsect bn;
  wsect bn (dinode_put ip buf (inum mod IPB * DINODE_SIZE)).
Definition rinode (inum : Z) : M mst inode :=
  let bn := IBLOCK inum mk_sb in
  buf ← rsect bn;
  mret (dinode_get buf (inum mod IPB * DINODE_SIZE) inode0).

Definition mkfs_ialloc (type : Z) : M mst Z :=
  inum ← gets m_freeinode;
  modify (λ s, set_m_freeinode (u32 (m_freeinode s + 1)) s);;
  winode inum (set_i_size (xint 0) (set_i_nlink (xshort 1) (set_i_type (xshort type) inode0)));;
  mret inum.

(** ** The bitmap *)

Fixpoint set_bits (buf : list Z) (i : Z) (n : nat) : list Z :=
  match n with
  | O => buf
  | S n => set_bits (<[Z.to_nat (i / 8) := u8 (Z.lor (nth (Z.to_nat (i / 8)) buf 0) (Z.shiftl 1 (i mod 8)))]> buf) (i + 1) n
  end.
Definition mkfs_balloc (used : Z) : M mst unit :=
  if negb (used <? BPB) then panic "used < BPB" else
  wsect (sb_bmapstart mk_sb) (set_bits zeroes 0 (Z.to_nat used)).

(** ** Appending to a file *)

(** [freeblock++] *)
Definition take_block : M mst Z :=
  b ← gets m_freeblock;
  modify (λ s, set_m_freeblock (u32 (m_freeblock s + 1)) s);;
  mret b.

Definition addr_of (din : inode) (k : Z) : Z := nth (Z.to_nat k) (i_addrs din) 0.
Definition set_addr (k v : Z) (din : inode) : inode := set_i_addrs (<[Z.to_nat k := v]> (i_addrs din)) din.

(** The block of the file that has the next byte, allocated if need be. *)
Definition iappend_block (din : inode) (fbn : Z) : M mst (Z * inode) :=
  if fbn <? NDIRECT then
    din ← (if xint (addr_of din fbn) =? 0 then b ← take_block; mret (set_addr fbn (xint b) din) else mret din);
    mret (xint (addr_of din fbn), din)
  else
    din ← (if xint (addr_of din NDIRECT) =? 0 then b ← take_block; mret (set_addr NDIRECT (xint b) din) else mret din);
    indirect ← rsect (xint (addr_of din NDIRECT));
    indirect ← (if get32 indirect (4 * (fbn - NDIRECT)) =? 0 then
        b ← take_block;
        let indirect := put32 indirect (4 * (fbn - NDIRECT)) (xint b) in
        wsect (xint (addr_of din NDIRECT)) indirect;;
        mret indirect
      else mret indirect);
    mret (xint (get32 indirect (4 * (fbn - NDIRECT))), din).

(** One turn of the loop, for the bytes [p] still to be written. *)
Definition iappend_turn '((din, off, p) : inode * Z * list Z) : M mst ((inode * Z * list Z) + (inode * Z)) :=
  match p with
  | [] => mret (inr (din, off))
  | _ =>
      let fbn := off / BSIZE in
      if negb (fbn <? MAXFILE) then panic "fbn < MAXFILE" else
      '(x, din) ← iappend_block din fbn;
      let n1 := Z.min (Z.of_nat (length p)) ((fbn + 1) * BSIZE - off) in
      buf ← rsect x;
      wsect x (splice buf (off - fbn * BSIZE) (take (Z.to_nat n1) p));;
      mret (inl (din, u32 (off + n1), drop (Z.to_nat n1) p))
  end.
Definition iappend (inum : Z) (p : list Z) : M mst unit :=
  din ← rinode inum;
  '(din, off) ← loop (S (length p)) iappend_turn (din, xint (i_size din), p);
  winode inum (set_i_size (xint off) din).

(** ** main *)

(** struct dirent with a name of at most DIRSIZ bytes. *)
Definition dirent_bytes (inum : Z) (name : list Z) : list Z := le_bytes 2 (xshort inum) ++ strncpy_bytes name (Z.to_nat DIRSIZ).

(** [strncmp(argv[i], "user/", 5) == 0], and the name without its directory and underscore. *)
Definition shortname (arg : list Z) : list Z :=
  if decide (str "user/" `prefix_of` arg) then drop 5 arg else arg.
Definition skip_underscore (name : list Z) : list Z := if hd 0 name =? 95 then tail name else name.

Fixpoint append_all (inum : Z) (reads : list (list Z)) : M mst unit :=
  match reads with
  | [] => mret tt
  | buf :: reads => iappend inum buf;; append_all inum reads
  end.
Definition add_file (rootino : Z) '((arg, reads) : list Z * list (list Z)) : M mst unit :=
  let name := shortname arg in
  if bool_decide (SLASH ∈ name) then panic "index(shortname, '/') == 0" else
  let name := skip_underscore name in
  if negb (Z.of_nat (length name) <=? DIRSIZ) then panic "strlen(shortname) <= DIRSIZ" else
  inum ← mkfs_ialloc T_FILE;
  iappend rootino (dirent_bytes inum name);;
  append_all inum reads.
Fixpoint add_files (rootino : Z) (files : list (list Z * list (list Z))) : M mst unit :=
  match files with
  | [] => mret tt
  | f :: files => add_file rootino f;; add_files rootino files
  end.

(** [for(i = 0; i < FSSIZE; i++) wsect(i, zeroes)], on the empty file. *)
Definition blank_img : Z → list Z := λ n, if (0 <=? n) && (n <? FSSIZE) then zeroes else [].

Definition mkfs (files : list (list Z * list (list Z))) : M mst unit :=
  modify (set_m_freeblock nmeta);;
  modify (set_m_img blank_img);;
  wsect 1 (splice zeroes 0 (sb_bytes mk_sb));;
  rootino ← mkfs_ialloc T_DIR;
  if negb (rootino =? ROOTINO) then panic "rootino == ROOTINO" else
  iappend rootino (dirent_bytes rootino (str "."));;
  iappend rootino (dirent_bytes rootino (str ".."));;
  add_files rootino files;;
  din ← rinode rootino;
  let off := xint (i_size din) in
  let off := u32 ((off / BSIZE + 1) * BSIZE) in
  winode rootino (set_i_size (xint off) din);;
  used ← gets m_freeblock;
  mkfs_balloc (s32 used).

(** ** Conversions *)

Lemma xint_id x : 0 ≤ x < 2 ^ 32 → xint x = x.
Proof.
  intros Hx. unfold xint. cbn [le_val]. unfold u8. rewrite !Z.shiftr_div_pow2 by lia. change (2 ^ 8) with 256. change (2 ^ 16) with 65536.
  change (2 ^ 24) with 16777216. Z.to_euclidean_division_equations. lia.
Qed.
Lemma xshort_id x : 0 ≤ x < 2 ^ 16 → xshort x = x.
Proof. intros Hx. unfold xshort. cbn [le_val]. unfold u8. rewrite Z.shiftr_div_pow2 by lia. change (2 ^ 8) with 256. Z.to_euclidean_division_equations. lia. Qed.

(** ** Files on the image

    [X] has the inodes and [C] the contents of the files; the loop of iappend has the inode
    it changes in a variable. *)
Definition ind_of (x : inode) : Z := addr_of x NDIRECT.
Definition daddr (D : Z → list Z) (x : inode) (k : Z) : Z :=
  if k <? NDIRECT then addr_of x k else if ind_of x =? 0 then 0 else get32 (D (ind_of x)) (4 * (k - NDIRECT)).
(** The places where block numbers are: the direct ones, those in the indirect block, and
    the number of the indirect block, as -1. *)
Definition slot (D : Z → list Z) (x : inode) (k : Z) : Z := if k =? -1 then ind_of x else daddr D x k.
Definition is_slot (k : Z) : Prop := -1 ≤ k < MAXFILE.
Abbreviation len l := (Z.of_nat (length l)).

Record blocks_ok (D : Z → list Z) (fb n : Z) (X : Z → inode) (C : Z → list Z) : Prop := {
  bo_len b : 0 ≤ b < FSSIZE → len (D b) = BSIZE;
  bo_fb : nmeta ≤ fb ≤ FSSIZE;
  bo_fresh b : fb ≤ b < FSSIZE → D b = zeroes;
  bo_addrs i : 1 ≤ i < n → len (i_addrs (X i)) = NDIRECT + 1;
  bo_range i k : 1 ≤ i < n → is_slot k → slot D (X i) k ≠ 0 → nmeta ≤ slot D (X i) k < fb;
  bo_inj i k j l : 1 ≤ i < n → is_slot k → 1 ≤ j < n → is_slot l → slot D (X i) k = slot D (X j) l → slot D (X i) k ≠ 0 → i = j ∧ k = l;
  bo_size i : 1 ≤ i < n → len (C i) ≤ MAXFILE * BSIZE;
  bo_map i k : 1 ≤ i < n → 0 ≤ k → k * BSIZE < len (C i) → slot D (X i) k ≠ 0;
  bo_byte i k j : 1 ≤ i < n → 0 ≤ k < MAXFILE → slot D (X i) k ≠ 0 → 0 ≤ j < BSIZE →
    nth (Z.to_nat j) (D (slot D (X i) k)) 0 = nth (Z.to_nat (k * BSIZE + j)) (C i) 0;
}.

(** Blocks that files of these lengths need. *)
Definition nblk (n : Z) : Z := (n + BSIZE - 1) / BSIZE + (if NDIRECT * BSIZE <? n then 1 else 0).
Lemma consts : BSIZE = 1024 ∧ MAXFILE = 268 ∧ NDIRECT = 12 ∧ nmeta = 46 ∧ FSSIZE = 2000.
Proof. done. Qed.
Lemma nth_rep0 n j : nth j (replicate n 0) 0 = 0.
Proof. revert j. induction n; intros [|j]; simpl; auto. Qed.
Lemma nth_zeroes j : nth j zeroes 0 = 0.
Proof. apply nth_rep0. Qed.
Ltac at_index j i := destruct (decide (j = i)) as [->|?]; [rewrite ?fupd_eq|rewrite ?(fupd_ne i j) by done].
Ltac sizes := pose proof consts as (HBSIZE & HMAXFILE & HNDIRECT & Hnmeta & HFSSIZE).

(** The block numbers of another file, when one block is written. *)
Lemma slot_other D D' x k b : (∀ c, c ≠ b → D' c = D c) → (ind_of x ≠ 0 → ind_of x ≠ b) → slot D' x k = slot D x k.
Proof.
  intros HD Hb. unfold slot, daddr. destruct (k =? -1); [done|]. destruct (k <? NDIRECT); [done|].
  destruct (ind_of x =? 0) eqn:E; [done|]. rewrite HD; [done|]. apply Hb. lia.
Qed.
Lemma slot_ind D x : slot D x (-1) = ind_of x.
Proof. done. Qed.
Lemma is_slot_ind : is_slot (-1).
Proof. split; [done|]. by vm_compute. Qed.

(** A block for a place that had none; the indirect block may be written for that. *)
Record new_block (D D' : Z → list Z) (fb : Z) (x x' : inode) (k : Z) : Prop := {
  nb_slot : is_slot k;
  nb_none : slot D x k = 0;
  nb_new l : is_slot l → slot D' x' l = if decide (l = k) then fb else slot D x l;
  nb_addrs : len (i_addrs x') = NDIRECT + 1;
  nb_same b : (ind_of x ≠ 0 → b ≠ ind_of x) → D' b = D b;
  nb_len b : length (D' b) = length (D b);
}.
Lemma slots_new D D' fb n X C i k x' : blocks_ok D fb n X C → 1 ≤ i < n → new_block D D' fb (X i) x' k →
  ∀ j l, 1 ≤ j < n → is_slot l → slot D' (fupd i x' X j) l = if decide (j = i ∧ l = k) then fb else slot D (X j) l.
Proof.
  intros B Hi [Hk Hz Hs Hl HD HL] j l Hj Hl'. destruct (decide (j = i)) as [->|Hne].
  - rewrite fupd_eq, Hs by done. by repeat case_decide; naive_solver.
  - rewrite fupd_ne, decide_False by naive_solver. destruct (decide (ind_of (X j) = 0)) as [E|E].
    + unfold slot, daddr. by rewrite E.
    + destruct (decide (ind_of (X i) = 0)) as [E'|E']; [apply (slot_other _ _ _ _ 0)|apply (slot_other _ _ _ _ (ind_of (X i)))]; try done.
      * intros c Hc. apply HD. done.
      * intros c Hc. by apply HD.
      * intros _ E2. destruct (bo_inj _ _ _ _ _ B j (-1) i (-1)); try done; apply is_slot_ind.
Qed.
Lemma blocks_new D D' fb n X C i k x' : blocks_ok D fb n X C → 1 ≤ i < n → fb < FSSIZE → new_block D D' fb (X i) x' k →
  blocks_ok D' (fb + 1) n (fupd i x' X) C.
Proof.
  intros B Hi Hfb N. pose proof (slots_new _ _ _ _ _ _ _ _ _ B Hi N) as S. destruct N as [Hk Hz Hs Hl HD HL]. sizes. pose proof (bo_fb _ _ _ _ _ B).
  assert (∀ j l, 1 ≤ j < n → is_slot l → slot D (X j) l ≠ 0 → slot D (X j) l ≠ fb) as F.
  { intros j l Hj Hl' Hn0. pose proof (bo_range _ _ _ _ _ B j l Hj Hl' Hn0). lia. }
  constructor.
  - intros b Hb. rewrite HL. by apply (bo_len _ _ _ _ _ B).
  - lia.
  - intros b Hb. rewrite HD; [apply (bo_fresh _ _ _ _ _ B); lia|]. intros E.
    pose proof (bo_range _ _ _ _ _ B i (-1) Hi is_slot_ind E). rewrite slot_ind in *. lia.
  - intros j Hj. at_index j i; [done|]. by apply (bo_addrs _ _ _ _ _ B).
  - intros j l Hj Hl'. rewrite S by done. case_decide; [lia|]. intros Hn0. pose proof (bo_range _ _ _ _ _ B j l Hj Hl' Hn0). lia.
  - intros j l j' l' Hj Hl1 Hj' Hl2. rewrite !S by done. case_decide as E1; case_decide as E2.
    + destruct E1 as [-> ->], E2 as [-> ->]. done.
    + intros E E0. exfalso. apply (F j' l'); [done..|congruence|done].
    + intros E E0. exfalso. by apply (F j l).
    + by apply (bo_inj _ _ _ _ _ B).
  - apply (bo_size _ _ _ _ _ B).
  - intros j l Hj Hl1 Hl2. assert (is_slot l) by (pose proof (bo_size _ _ _ _ _ B j Hj); split; nia). rewrite S by done.
    case_decide; [lia|]. by apply (bo_map _ _ _ _ _ B).
  - intros j l o Hj Hl1. assert (is_slot l) by (split; lia). rewrite S by done. case_decide as Ed.
    + intros _ Ho. destruct Ed as [-> ->]. rewrite HD.
      2:{ intros E. rewrite <- (slot_ind D). rewrite <- (slot_ind D) in E. apply not_eq_sym, (F i (-1)); [done|apply is_slot_ind|done]. }
      rewrite (bo_fresh _ _ _ _ _ B) by lia. rewrite nth_zeroes, nth_overflow; [done|].
      destruct (decide (k * BSIZE < len (C i))); [|nia]. pose proof (bo_map _ _ _ _ _ B i k). lia.
    + intros Hn0 Ho. rewrite HD; [by apply (bo_byte _ _ _ _ _ B)|]. intros E Eb.
      rewrite <- (slot_ind D) in Eb, E. destruct (bo_inj _ _ _ _ _ B j l i (-1)) as [_ ->]; [done..|apply is_slot_ind|done|done|lia].
Qed.

(** The bytes of a block of a file. *)
Lemma slots_write D fb n X C i k buf : blocks_ok D fb n X C → 1 ≤ i < n → 0 ≤ k < MAXFILE → slot D (X i) k ≠ 0 →
  ∀ j l, 1 ≤ j < n → slot (fupd (slot D (X i) k) buf D) (X j) l = slot D (X j) l.
Proof.
  intros B Hi Hk Hs j l Hj. apply (slot_other _ _ _ _ (slot D (X i) k)); [intros b Hb; by rewrite fupd_ne|]. rewrite <- (slot_ind D). intros E Et.
  assert (is_slot k) by (split; lia). destruct (bo_inj _ _ _ _ _ B j (-1) i k) as [_ E1]; [done|apply is_slot_ind|done..|lia].
Qed.
Lemma blocks_write D fb n X C i k buf c : blocks_ok D fb n X C → 1 ≤ i < n → 0 ≤ k < MAXFILE → slot D (X i) k ≠ 0 → len buf = BSIZE →
  len c ≤ MAXFILE * BSIZE → (∀ l, 0 ≤ l → l * BSIZE < len c → slot D (X i) l ≠ 0) →
  (∀ m, 0 ≤ m → m / BSIZE ≠ k → nth (Z.to_nat m) c 0 = nth (Z.to_nat m) (C i) 0) →
  (∀ j, 0 ≤ j < BSIZE → nth (Z.to_nat j) buf 0 = nth (Z.to_nat (k * BSIZE + j)) c 0) →
  blocks_ok (fupd (slot D (X i) k) buf D) fb n X (fupd i c C).
Proof.
  intros B Hi Hk Hs Hl Hc Hm Hother Hbuf. sizes. pose proof (slots_write _ _ _ _ _ _ _ buf B Hi Hk Hs) as S. set (t := slot D (X i) k) in *.
  assert (is_slot k) as Hk' by (split; lia). pose proof (bo_range _ _ _ _ _ B i k Hi Hk' Hs) as Ht. fold t in Ht.
  constructor.
  - intros b Hb. at_index b t; [done|]. by apply (bo_len _ _ _ _ _ B).
  - apply (bo_fb _ _ _ _ _ B).
  - intros b Hb. rewrite fupd_ne by lia. by apply (bo_fresh _ _ _ _ _ B).
  - apply (bo_addrs _ _ _ _ _ B).
  - intros j l Hj Hl'. rewrite S by done. by apply (bo_range _ _ _ _ _ B).
  - intros j l j' l' Hj Hl1 Hj' Hl2. rewrite !S by done. by apply (bo_inj _ _ _ _ _ B).
  - intros j Hj. at_index j i; [done|]. by apply (bo_size _ _ _ _ _ B).
  - intros j l Hj Hl1. at_index j i.
    + intros Hl2. rewrite S by done. by apply Hm.
    + intros Hl2. pose proof (bo_size _ _ _ _ _ B j Hj). rewrite S by done. by apply (bo_map _ _ _ _ _ B).
  - intros j l o Hj Hl1. assert (is_slot l) by (split; lia). rewrite S by done. intros Hn0 Ho. destruct (decide (slot D (X j) l = t)) as [E|E].
    + destruct (bo_inj _ _ _ _ _ B j l i k) as [-> ->]; try done. rewrite E, !fupd_eq. by apply Hbuf.
    + rewrite (fupd_ne _ _ _ _ E), (bo_byte _ _ _ _ _ B) by done. at_index j i; [|done].
      rewrite Hother; [done|lia|]. rewrite HBSIZE in *. replace ((l * 1024 + o) / 1024) with l by (Z.to_euclidean_division_equations; lia).
      intros ->. done.
Qed.

(** ** The block of the next byte *)

Lemma mret_bind {S A B} (a : A) (k : A → M S B) s : (a ← mret a; k a) s = k a s.
Proof. done. Qed.

Lemma addr_of_set_addr x m v l : 0 ≤ m ≤ NDIRECT → len (i_addrs x) = NDIRECT + 1 → 0 ≤ l → addr_of (set_addr m v x) l = if decide (l = m) then v else addr_of x l.
Proof.
  intros Hm Hx Hl. unfold addr_of, set_addr. simpl. rewrite nth_insert by lia. repeat case_decide; try done; lia.
Qed.
(** A direct block, and the indirect block when it has no entries yet. *)
Lemma slot_direct D x m v l : 0 ≤ m < NDIRECT → len (i_addrs x) = NDIRECT + 1 → is_slot l →
  slot D (set_addr m v x) l = if decide (l = m) then v else slot D x l.
Proof.
  intros Hm Hx Hl. sizes. unfold slot, daddr, ind_of. rewrite !addr_of_set_addr by lia. rewrite (decide_False (P := NDIRECT = m)) by lia.
  destruct (l =? -1) eqn:E1; [rewrite decide_False by lia; done|]. destruct (l <? NDIRECT) eqn:E2; [|rewrite decide_False by lia; done].
  rewrite addr_of_set_addr by (unfold is_slot in Hl; lia). done.
Qed.
Lemma slot_indirect D x v l : ind_of x = 0 → D v = zeroes → len (i_addrs x) = NDIRECT + 1 → is_slot l →
  slot D (set_addr NDIRECT v x) l = if decide (l = -1) then v else slot D x l.
Proof.
  intros Hi Hv Hx Hl. sizes. unfold slot, daddr. rewrite Hi. unfold ind_of. rewrite addr_of_set_addr, decide_True by lia.
  destruct (l =? -1) eqn:E1; [rewrite decide_True by lia; done|]. rewrite decide_False by lia. destruct (l <? NDIRECT) eqn:E2.
  - rewrite addr_of_set_addr by (unfold is_slot in Hl; lia). by rewrite decide_False by lia.
  - rewrite Hv. unfold get32, zeroes. rewrite get_replicate0. by destruct (v =? 0).
Qed.
Lemma slot_entry D x k v l : ind_of x ≠ 0 → NDIRECT ≤ k < MAXFILE → 0 ≤ v < 2 ^ 32 → len (D (ind_of x)) = BSIZE → is_slot l →
  slot (fupd (ind_of x) (put32 (D (ind_of x)) (4 * (k - NDIRECT)) v) D) x l = if decide (l = k) then v else slot D x l.
Proof.
  intros Hi Hk Hv Hd Hl. sizes. unfold slot, daddr. rewrite fupd_eq.
  destruct (l =? -1) eqn:E1; [rewrite decide_False by lia; done|]. destruct (l <? NDIRECT) eqn:E2; [rewrite decide_False by lia; done|].
  replace (ind_of x =? 0) with false by lia. case_decide; subst.
  - rewrite get32_put32 by lia. done.
  - rewrite get32_put32_ne by lia. done.
Qed.

(** The file has no block more than its bytes need. *)
Definition exact1 (D : Z → list Z) (x : inode) (c : list Z) : Prop :=
  (∀ k, 0 ≤ k < MAXFILE → slot D x k ≠ 0 → k * BSIZE < len c) ∧ (ind_of x ≠ 0 → NDIRECT * BSIZE < len c).

Section turn.
Variables (s : mst) (n : Z) (X : Z → inode) (C : Z → list Z) (i : Z).
Abbreviation D := (m_img s).
Abbreviation fb := (m_freeblock s).
Hypothesis B : blocks_ok D fb n X C.
Hypothesis Hi : 1 ≤ i < n.

Lemma slot_u32 k : is_slot k → xint (slot D (X i) k) = slot D (X i) k ∧ 0 ≤ slot D (X i) k < FSSIZE.
Proof.
  intros Hk. sizes. pose proof (bo_fb _ _ _ _ _ B). destruct (decide (slot D (X i) k = 0)) as [->|E]; [done|].
  pose proof (bo_range _ _ _ _ _ B i k Hi Hk E). split; [apply xint_id|]; lia.
Qed.

Lemma rsect_run b s' : len (m_img s' b) = BSIZE → rsect b s' = Ok (m_img s' b) s'.
Proof. intros E. unfold rsect. rewrite (bind_ok (gets (λ s, m_img s b)) _ s' (m_img s' b) s' eq_refl). by rewrite E, Z.eqb_refl. Qed.

Lemma block_mapped k : 0 ≤ k < MAXFILE → slot D (X i) k ≠ 0 → iappend_block (X i) k s = Ok (slot D (X i) k, X i) s.
Proof.
  intros Hk Hs. sizes. assert (is_slot k) as Hk' by (split; lia). destruct (slot_u32 k Hk') as [Ex Hr]. unfold iappend_block.
  assert (slot D (X i) k = daddr D (X i) k) as Es by (unfold slot; by replace (k =? -1) with false by lia). rewrite Es in *. unfold daddr in *.
  destruct (k <? NDIRECT).
  - rewrite Ex. replace (addr_of (X i) k =? 0) with false by lia. by rewrite mret_bind, Ex.
  - destruct (ind_of (X i) =? 0) eqn:E; [done|]. destruct (slot_u32 (-1) is_slot_ind) as [Ei Hri]. rewrite slot_ind in *.
    fold (ind_of (X i)). rewrite Ei, E, mret_bind. fold (ind_of (X i)). rewrite Ei, (bind_ok _ _ _ _ _ (rsect_run _ s (bo_len _ _ _ _ _ B _ Hri))).
    replace (get32 _ _ =? 0) with false by lia. by rewrite mret_bind, Ex.
Qed.

Hypothesis Hfb : fb < FSSIZE.

Lemma take_block_run : take_block s = Ok fb (set_m_freeblock (fb + 1) s).
Proof.
  sizes. pose proof (bo_fb _ _ _ _ _ B). change (take_block s) with (Ok fb (set_m_freeblock (u32 (fb + 1)) s)).
  by rewrite u32_small by lia.
Qed.

Lemma block_direct k : 0 ≤ k < NDIRECT → slot D (X i) k = 0 →
  iappend_block (X i) k s = Ok (fb, set_addr k fb (X i)) (set_m_freeblock (fb + 1) s).
Proof.
  intros Hk Hs. sizes. pose proof (bo_fb _ _ _ _ _ B). unfold iappend_block. unfold slot, daddr in Hs.
  replace (k =? -1) with false in Hs by lia. replace (k <? NDIRECT) with true in * by lia. rewrite Hs. change (xint 0 =? 0) with true. cbv iota.
  rewrite (bind_ok _ _ s (set_addr k fb (X i)) (set_m_freeblock (fb + 1) s)).
  2:{ rewrite (bind_ok _ _ _ _ _ take_block_run). by rewrite xint_id by lia. }
  rewrite addr_of_set_addr, decide_True by (try done; try lia; by apply (bo_addrs _ _ _ _ _ B)). by rewrite xint_id by lia.
Qed.

Lemma block_entry k : NDIRECT ≤ k < MAXFILE → ind_of (X i) ≠ 0 → slot D (X i) k = 0 →
  iappend_block (X i) k s = Ok (fb, X i)
    (Mst (fupd (ind_of (X i)) (put32 (D (ind_of (X i))) (4 * (k - NDIRECT)) fb) D) (m_freeinode s) (fb + 1)).
Proof.
  intros Hk Hind Hs. sizes. pose proof (bo_fb _ _ _ _ _ B). destruct (slot_u32 (-1) is_slot_ind) as [Ei Hri]. rewrite slot_ind in *.
  pose proof (bo_len _ _ _ _ _ B _ Hri) as Hl. unfold iappend_block. unfold slot, daddr in Hs.
  replace (k =? -1) with false in Hs by lia. replace (k <? NDIRECT) with false in * by lia. replace (ind_of (X i) =? 0) with false in Hs by lia.
  fold (ind_of (X i)). rewrite Ei. replace (ind_of (X i) =? 0) with false by lia. rewrite mret_bind. fold (ind_of (X i)). rewrite Ei.
  rewrite (bind_ok _ _ _ _ _ (rsect_run _ s Hl)), Hs. change (0 =? 0) with true. cbv iota.
  erewrite bind_ok.
  2:{ rewrite (bind_ok _ _ _ _ _ take_block_run). cbv zeta. rewrite xint_id by lia. reflexivity. }
  rewrite get32_put32 by lia. by rewrite xint_id by lia.
Qed.

Lemma block_ind k : NDIRECT ≤ k → ind_of (X i) = 0 →
  iappend_block (X i) k s = iappend_block (set_addr NDIRECT fb (X i)) k (set_m_freeblock (fb + 1) s).
Proof.
  intros Hk Hind. sizes. pose proof (bo_fb _ _ _ _ _ B). unfold iappend_block. replace (k <? NDIRECT) with false by lia.
  fold (ind_of (X i)). rewrite Hind. change (xint 0 =? 0) with true. cbv iota.
  assert (addr_of (set_addr NDIRECT fb (X i)) NDIRECT = fb) as E.
  { rewrite addr_of_set_addr, decide_True by (try done; try lia; by apply (bo_addrs _ _ _ _ _ B)). done. }
  rewrite E. rewrite !(xint_id fb) by lia. replace (fb =? 0) with false by lia.
  rewrite (bind_ok _ _ s (set_addr NDIRECT fb (X i)) (set_m_freeblock (fb + 1) s)).
  2:{ rewrite (bind_ok _ _ _ _ _ take_block_run). by rewrite xint_id by lia. }
  rewrite mret_bind. done.
Qed.
End turn.

(** ** One turn of iappend *)

(** The rest of the image: inodes, other files. *)
Definition keeps (n : Z) (X : Z → inode) (i : Z) (s s' : mst) : Prop :=
  m_freeinode s' = m_freeinode s ∧ (∀ b, b < nmeta → m_img s' b = m_img s b) ∧
  ∀ j l, 1 ≤ j < n → j ≠ i → is_slot l → slot (m_img s') (X j) l = slot (m_img s) (X j) l.
Lemma keeps_trans n X i x' s1 s2 s3 : keeps n X i s1 s2 → keeps n (fupd i x' X) i s2 s3 → keeps n X i s1 s3.
Proof.
  intros (E1 & E2 & E3) (F1 & F2 & F3). split_and!; [congruence|intros b Hb; by rewrite F2, E2|].
  intros j l Hj Hne Hl. specialize (F3 j l Hj Hne Hl). rewrite fupd_ne in F3 by done. by rewrite F3, E3.
Qed.

Definition state_ok (s : mst) (n : Z) X C : Prop := blocks_ok (m_img s) (m_freeblock s) n X C.

Lemma state_new s D' n X C i k x' : state_ok s n X C → 1 ≤ i < n → m_freeblock s < FSSIZE →
  new_block (m_img s) D' (m_freeblock s) (X i) x' k → let s' := Mst D' (m_freeinode s) (m_freeblock s + 1) in
  state_ok s' n (fupd i x' X) C ∧ keeps n X i s s'.
Proof.
  intros B Hi Hfb N s'. split; [by apply (blocks_new (m_img s) D' _ _ _ _ _ k)|]. split_and!; [done|..].
  - intros b Hb. apply (nb_same _ _ _ _ _ _ N). intros E. pose proof (bo_range _ _ _ _ _ B i (-1) Hi is_slot_ind E). rewrite slot_ind in *. lia.
  - intros j l Hj Hne Hl. pose proof (slots_new _ _ _ _ _ _ _ _ _ B Hi N j l Hj Hl) as E. rewrite fupd_ne in E by done.
    rewrite decide_False in E by naive_solver. done.
Qed.

(** The three cases of [new_block]. *)
Lemma new_direct s n X C i k : state_ok s n X C → 1 ≤ i < n → 0 ≤ k < NDIRECT → slot (m_img s) (X i) k = 0 →
  new_block (m_img s) (m_img s) (m_freeblock s) (X i) (set_addr k (m_freeblock s) (X i)) k.
Proof.
  intros B Hi Hk Hs. sizes. pose proof (bo_addrs _ _ _ _ _ B i Hi). constructor; try done; [split; lia|..].
  - intros l Hl. by apply slot_direct.
  - simpl. by rewrite length_insert.
Qed.
Lemma new_indirect s n X C i : state_ok s n X C → 1 ≤ i < n → m_freeblock s < FSSIZE → ind_of (X i) = 0 →
  new_block (m_img s) (m_img s) (m_freeblock s) (X i) (set_addr NDIRECT (m_freeblock s) (X i)) (-1).
Proof.
  intros B Hi Hfb Hs. pose proof (bo_addrs _ _ _ _ _ B i Hi). pose proof (bo_fb _ _ _ _ _ B). constructor; try done.
  - intros l Hl. apply slot_indirect; [done| |done|done]. apply (bo_fresh _ _ _ _ _ B). lia.
  - simpl. by rewrite length_insert.
Qed.
Lemma new_entry s n X C i k : state_ok s n X C → 1 ≤ i < n → NDIRECT ≤ k < MAXFILE → ind_of (X i) ≠ 0 → slot (m_img s) (X i) k = 0 →
  new_block (m_img s) (fupd (ind_of (X i)) (put32 (m_img s (ind_of (X i))) (4 * (k - NDIRECT)) (m_freeblock s)) (m_img s))
    (m_freeblock s) (X i) (X i) k.
Proof.
  intros B Hi Hk Hind Hs. sizes. pose proof (bo_fb _ _ _ _ _ B). pose proof (slot_u32 _ _ _ _ _ B Hi (-1) is_slot_ind) as [_ Hr]. rewrite slot_ind in Hr.
  constructor; try done; [split; lia|..].
  - intros l Hl. apply slot_entry; try done; [lia|]. by apply (bo_len _ _ _ _ _ B).
  - by apply (bo_addrs _ _ _ _ _ B).
  - intros b Hb. rewrite fupd_ne; [done|]. auto.
  - intros b. at_index b (ind_of (X i)); [apply length_put32|done].
Qed.

(** iappend_block has found or made block [k] of file [i]. *)
Record got (s s' : mst) (n : Z) (X : Z → inode) (C : Z → list Z) (i : Z) (x' : inode) (k : Z) : Prop := {
  go_ok : state_ok s' n (fupd i x' X) C;
  go_keeps : keeps n X i s s';
  go_slot : slot (m_img s') x' k ≠ 0;
  go_other l : 0 ≤ l < MAXFILE → l ≠ k → slot (m_img s') x' l = slot (m_img s) (X i) l;
  go_ind : ind_of x' ≠ 0 → ind_of (X i) ≠ 0 ∨ NDIRECT ≤ k;
  go_rest : x' = set_i_addrs (i_addrs x') (X i);
}.

Lemma slot_ext D x y l : i_addrs y = i_addrs x → slot D y l = slot D x l.
Proof. intros E. unfold slot, daddr, ind_of, addr_of. by rewrite E. Qed.
Lemma blocks_ext D fb n X Y C E : blocks_ok D fb n X C → (∀ j, 1 ≤ j < n → i_addrs (Y j) = i_addrs (X j)) → (∀ j, 1 ≤ j < n → E j = C j) → blocks_ok D fb n Y E.
Proof.
  intros B EX EC. pose proof (λ j l Hj, slot_ext D (X j) (Y j) l (EX j Hj)) as S. destruct B as [B1 B2 B3 B4 B5 B6 B7 B8 B9]. constructor; try done.
  - intros i Hi. rewrite EX by done. auto.
  - intros i k Hi. rewrite S by done. auto.
  - intros i k j l Hi Hk Hj. rewrite !S by done. auto.
  - intros i Hi. rewrite EC by done. auto.
  - intros i k Hi. rewrite EC, S by done. auto.
  - intros i k j Hi. rewrite EC, S by done. auto.
Qed.

Lemma got_new s D' n X C i k x' : state_ok s n X C → 1 ≤ i < n → m_freeblock s < FSSIZE → 0 ≤ k →
  new_block (m_img s) D' (m_freeblock s) (X i) x' k → x' = set_i_addrs (i_addrs x') (X i) →
  slot D' x' k = m_freeblock s ∧ got s (Mst D' (m_freeinode s) (m_freeblock s + 1)) n X C i x' k.
Proof.
  intros B Hi Hfb Hk N Hx. sizes. destruct (state_new _ _ _ _ _ _ _ _ B Hi Hfb N) as [B' K]. pose proof (bo_fb _ _ _ _ _ B).
  destruct N as [N1 N2 N3 _ _ _]. assert (slot D' x' k = m_freeblock s) as E by by rewrite N3, decide_True. split; [done|]. constructor; try done.
  - simpl. lia.
  - intros l Hl Hne. simpl. rewrite N3 by (split; lia). by rewrite decide_False.
  - rewrite <- (slot_ind D'). rewrite (N3 _ is_slot_ind), decide_False by lia. rewrite slot_ind. auto.
Qed.

(** The next block of a file without its indirect block. *)
Lemma got_ind s n X C i k : state_ok s n X C → 1 ≤ i < n → m_freeblock s + 1 < FSSIZE → NDIRECT ≤ k < MAXFILE → ind_of (X i) = 0 →
  ∃ x' s', iappend_block (X i) k s = Ok (slot (m_img s') x' k, x') s' ∧ got s s' n X C i x' k ∧ m_freeblock s' = m_freeblock s + 2.
Proof.
  intros B Hi Hfb Hk Hind. sizes. pose proof (bo_fb _ _ _ _ _ B). assert (m_freeblock s < FSSIZE) as Hfb' by lia.
  pose proof (new_indirect _ _ _ _ _ B Hi Hfb' Hind) as N. destruct (state_new _ _ _ _ _ _ _ _ B Hi Hfb' N) as [B1 K1].
  destruct N as [_ _ N3 _ _ _]. set (x1 := set_addr NDIRECT (m_freeblock s) (X i)) in *.
  set (s1 := Mst (m_img s) (m_freeinode s) (m_freeblock s + 1)) in *.
  assert (slot (m_img s) (X i) k = 0) as Hs0.
  { unfold slot, daddr. rewrite Hind. replace (k =? -1) with false by lia. by replace (k <? NDIRECT) with false by lia. }
  assert (ind_of (fupd i x1 X i) ≠ 0) as Hind1.
  { rewrite fupd_eq. rewrite <- (slot_ind (m_img s)), N3, decide_True by (done || apply is_slot_ind). lia. }
  assert (slot (m_img s1) (fupd i x1 X i) k = 0) as Hs1.
  { rewrite fupd_eq. change (m_img s1) with (m_img s). rewrite N3 by (split; lia). by rewrite decide_False by lia. }
  assert (m_freeblock s1 < FSSIZE) as Hfb1 by (simpl; lia).
  pose proof (new_entry _ _ _ _ _ _ B1 Hi Hk Hind1 Hs1) as N'. assert (0 ≤ k) as Hk0 by lia.
  assert (fupd i x1 X i = set_i_addrs (i_addrs (fupd i x1 X i)) (fupd i x1 X i)) as Hx by (rewrite fupd_eq; done).
  destruct (got_new _ _ _ _ _ _ _ _ B1 Hi Hfb1 Hk0 N' Hx) as [E [G1 G2 G3 G4 G5 G6]].
  pose proof (block_entry s1 _ _ _ _ B1 Hi Hfb1 k Hk Hind1 Hs1) as R. rewrite fupd_eq in *.
  match type of G1 with state_ok ?s2 _ _ _ => exists x1, s2 end.
  split; [rewrite (block_ind s _ _ _ _ B Hi Hfb' k) by (done || lia); etrans; [exact R|do 2 f_equal; symmetry; exact E]|].
  split; [|simpl; lia]. constructor.
  - apply (blocks_ext _ _ _ _ _ _ _ G1); [|done]. intros j _. by at_index j i.
  - by apply (keeps_trans _ _ _ x1 s s1).
  - done.
  - intros l Hl Hne. rewrite G4 by done. change (m_img s1) with (m_img s). rewrite N3 by (split; lia). by rewrite decide_False by lia.
  - intros _. right. lia.
  - done.
Qed.

Lemma nblk_in off : 0 ≤ off → off mod BSIZE ≠ 0 → nblk (off + 1) = nblk off.
Proof.
  intros Ho Hm. sizes. unfold nblk. rewrite HBSIZE, HNDIRECT in *. f_equal; [Z.to_euclidean_division_equations; lia|].
  destruct (decide (off = 12 * 1024)) as [->|]; [done|]. repeat case_match; lia.
Qed.
Lemma nblk_new off : 0 ≤ off → off mod BSIZE = 0 → nblk (off + 1) = nblk off + 1 + (if off =? NDIRECT * BSIZE then 1 else 0).
Proof.
  intros Ho Hm. sizes. unfold nblk. rewrite HBSIZE, HNDIRECT in *.
  assert ((off + 1 + 1024 - 1) / 1024 = (off + 1024 - 1) / 1024 + 1) as -> by (Z.to_euclidean_division_equations; lia).
  repeat case_match; lia.
Qed.
Lemma nblk_more off n1 : 0 ≤ off → 1 ≤ n1 → off mod BSIZE + n1 ≤ BSIZE → nblk (off + n1) = nblk (off + 1).
Proof.
  intros Ho Hn Hm. sizes. unfold nblk. rewrite HBSIZE, HNDIRECT in *. f_equal; [Z.to_euclidean_division_equations; lia|].
  repeat case_match; Z.to_euclidean_division_equations; lia.
Qed.
Lemma nblk_mono a b : a ≤ b → nblk a ≤ nblk b.
Proof.
  intros H. sizes. unfold nblk. rewrite HBSIZE, HNDIRECT in *. pose proof (Z.div_le_mono (a + 1024 - 1) (b + 1024 - 1) 1024).
  repeat case_match; lia.
Qed.

Lemma iappend_block_run s n X C i : let off := len (C i) in let k := off / BSIZE in
  state_ok s n X C → 1 ≤ i < n → off < MAXFILE * BSIZE → exact1 (m_img s) (X i) (C i) → m_freeblock s + (nblk (off + 1) - nblk off) ≤ FSSIZE →
  ∃ x' s', iappend_block (X i) k s = Ok (slot (m_img s') x' k, x') s' ∧ got s s' n X C i x' k ∧
    m_freeblock s' = m_freeblock s + (nblk (off + 1) - nblk off).
Proof.
  intros off k B Hi Hoff [Hex Hexi] Hfb. sizes. assert (0 ≤ k < MAXFILE) as Hk by (unfold k, off in *; Z.to_euclidean_division_equations; lia).
  assert (k * BSIZE ≤ off < k * BSIZE + BSIZE) as Hko by (unfold k, off in *; Z.to_euclidean_division_equations; lia).
  pose proof (Z.mod_eq off BSIZE) as Hmod. fold k in Hmod. destruct (decide (off mod BSIZE = 0)) as [Hm|Hm].
  - rewrite (nblk_new off) in * by lia. assert (slot (m_img s) (X i) k = 0) as Hs0.
    { destruct (decide (slot (m_img s) (X i) k = 0)) as [|Hn0]; [done|]. pose proof (Hex k Hk Hn0). lia. }
    destruct (decide (k < NDIRECT)) as [Hd|Hd]; [|destruct (decide (k = NDIRECT)) as [Hn|Hn]].
    + replace (off =? NDIRECT * BSIZE) with false in * by lia. assert (m_freeblock s < FSSIZE) as Hlt by lia. assert (0 ≤ k < NDIRECT) as Hk' by lia.
      destruct (got_new _ _ _ _ _ _ _ _ B Hi Hlt (proj1 Hk) (new_direct _ _ _ _ _ _ B Hi Hk' Hs0) eq_refl) as [E G].
      eexists _, _. split_and!; [|exact G|simpl; lia]. simpl. rewrite E. by apply (block_direct s n X C i B Hi Hlt).
    + replace (off =? NDIRECT * BSIZE) with true in * by lia. assert (ind_of (X i) = 0) as Hz.
      { destruct (decide (ind_of (X i) = 0)) as [|E]; [done|]. pose proof (Hexi E). lia. }
      destruct (got_ind s n X C i k) as (x' & s' & E1 & E2 & E3); [done..|lia|lia|done|]. exists x', s'. split_and!; [done..|lia].
    + replace (off =? NDIRECT * BSIZE) with false in * by lia. assert (m_freeblock s < FSSIZE) as Hlt by lia. assert (NDIRECT ≤ k < MAXFILE) as Hk' by lia.
      assert (ind_of (X i) ≠ 0) as Hn0.
      { pose proof (bo_map _ _ _ _ _ B i NDIRECT Hi) as Hm'. intros E. apply Hm'; [lia|lia|]. unfold slot, daddr. by rewrite E. }
      destruct (got_new _ _ _ _ _ _ _ _ B Hi Hlt (proj1 Hk) (new_entry _ _ _ _ _ _ B Hi Hk' Hn0 Hs0)) as [E G]; [by destruct (X i)|].
      eexists _, _. split_and!; [|exact G|simpl; lia]. simpl. rewrite E. by apply (block_entry s n X C i B Hi Hlt).
  - rewrite (nblk_in off) in * by lia. assert (slot (m_img s) (X i) k ≠ 0) as Hn0 by (apply (bo_map _ _ _ _ _ B); lia).
    exists (X i), s. split_and!; [by apply (block_mapped s n X C i)| |lia]. constructor; try done; [|auto|by destruct (X i)].
    apply (blocks_ext _ _ _ _ _ _ _ B); [|done]. intros j _. by at_index j i.
Qed.

(** The file [i] has the content [c] now. *)
Record appended (s s' : mst) (n : Z) (X : Z → inode) (C : Z → list Z) (i : Z) (x' : inode) (c : list Z) : Prop := {
  ap_ok : state_ok s' n (fupd i x' X) (fupd i c C);
  ap_keeps : keeps n X i s s';
  ap_exact : exact1 (m_img s') x' c;
  ap_free : m_freeblock s' = m_freeblock s + (nblk (len c) - nblk (len (C i)));
  ap_rest : x' = set_i_addrs (i_addrs x') (X i);
}.

Lemma nth_app_at (c p : list Z) m : 0 ≤ m → nth (Z.to_nat m) (c ++ p) 0 = if decide (m < len c) then nth (Z.to_nat m) c 0 else nth (Z.to_nat (m - len c)) p 0.
Proof. intros Hm. case_decide; [by rewrite app_nth1 by lia|]. rewrite app_nth2 by lia. f_equal. lia. Qed.

(** The bytes of the block after the copy. *)
Lemma copied_block (d c q : list Z) k o : 0 ≤ k → o = len c - k * BSIZE → 0 ≤ o → o + len q ≤ BSIZE → len d = BSIZE →
  (∀ j, 0 ≤ j < BSIZE → nth (Z.to_nat j) d 0 = nth (Z.to_nat (k * BSIZE + j)) c 0) →
  ∀ j, 0 ≤ j < BSIZE → nth (Z.to_nat j) (splice d o q) 0 = nth (Z.to_nat (k * BSIZE + j)) (c ++ q) 0.
Proof.
  intros Hk Ho Ho0 Hq Hd Hb j Hj. sizes. rewrite nth_splice, nth_app_at by lia. case_decide as E1; case_decide as E2; try lia.
  - f_equal. lia.
  - by apply Hb.
  - rewrite Hb by done. rewrite !nth_overflow by lia. done.
Qed.

Lemma write_turn s n X C i x' k s1 q : got s s1 n X C i x' k → 1 ≤ i < n → k = len (C i) / BSIZE → 0 ≤ k < MAXFILE → q ≠ [] →
  len (C i) - k * BSIZE + len q ≤ BSIZE → exact1 (m_img s) (X i) (C i) → m_freeblock s1 = m_freeblock s + (nblk (len (C i) + 1) - nblk (len (C i))) →
  let t := slot (m_img s1) x' k in
  appended s (set_m_img (fupd t (splice (m_img s1 t) (len (C i) - k * BSIZE) q) (m_img s1)) s1) n X C i x' (C i ++ q).
Proof.
  intros [B K Hs Ho Hind Hx] Hi Hk Hkr Hq Hlen [Hex Hexi] Hfb t. sizes.
  assert (k * BSIZE ≤ len (C i) < k * BSIZE + BSIZE) as Hko by (rewrite Hk; Z.to_euclidean_division_equations; lia).
  assert (1 ≤ len q) as Hq1 by (destruct q; [done|simpl; lia]). pose proof (fupd_eq i x' X) as Ex. fold t in Hs.
  assert (slot (m_img s1) (fupd i x' X i) k ≠ 0) as Hs' by by rewrite Ex.
  assert (is_slot k) as Hk' by (split; lia). pose proof (bo_range _ _ _ _ _ B i k Hi Hk' Hs') as Ht. rewrite Ex in Ht. fold t in Ht.
  pose proof (bo_fb _ _ _ _ _ B). assert (len (m_img s1 t) = BSIZE) as Hl by (apply (bo_len _ _ _ _ _ B); lia).
  assert (∀ l, 0 ≤ l → l * BSIZE < len (C i ++ q) → slot (m_img s1) x' l ≠ 0) as Hmap.
  { intros l Hl0 Hlc. rewrite length_app in Hlc. destruct (decide (l = k)) as [->|Hne]; [done|]. rewrite Ho by lia.
    pose proof (bo_map _ _ _ _ _ B i l Hi Hl0) as Hm. rewrite Ex, Ho in Hm by lia. apply Hm. nia. }
  assert (∀ j l, 1 ≤ j < n → slot (fupd t (splice (m_img s1 t) (len (C i) - k * BSIZE) q) (m_img s1)) (fupd i x' X j) l = slot (m_img s1) (fupd i x' X j) l) as S.
  { intros j l Hj. pose proof (slots_write _ _ _ _ _ _ _ (splice (m_img s1 t) (len (C i) - k * BSIZE) q) B Hi Hkr Hs' j l Hj) as E. rewrite Ex in E. done. }
  pose proof (S i) as Si. rewrite Ex in Si. constructor; simpl.
  - pose proof (blocks_write _ _ _ _ _ i k (splice (m_img s1 t) (len (C i) - k * BSIZE) q) (C i ++ q) B Hi Hkr Hs') as W. rewrite Ex in W. apply W; clear W.
    + by rewrite length_splice.
    + rewrite length_app. nia.
    + done.
    + intros m Hm Hne. rewrite nth_app_at by done. case_decide; [done|]. rewrite !nth_overflow; [done|lia|].
      assert (¬ m < k * BSIZE + BSIZE) by (intros ?; apply Hne; Z.to_euclidean_division_equations; lia). lia.
    + apply (copied_block (m_img s1 t)); try done; [lia..|]. intros j Hj. pose proof (bo_byte _ _ _ _ _ B i k j Hi Hkr Hs' Hj) as E. by rewrite Ex in E.
  - destruct K as (K1 & K2 & K3). split_and!; [done|..].
    + intros b Hb. simpl. rewrite fupd_ne by lia. by apply K2.
    + intros j l Hj Hne Hl'. rewrite <- K3 by done. specialize (S j l Hj). by rewrite fupd_ne in S.
  - split.
    + intros l Hl1. rewrite Si by done. rewrite length_app. intros Hn0. destruct (decide (l = k)) as [->|Hne]; [lia|]. rewrite Ho in Hn0 by done. pose proof (Hex l Hl1 Hn0). lia.
    + intros E. rewrite length_app. destruct (Hind E) as [E'|E']; [pose proof (Hexi E')|]; nia.
  - rewrite length_app, Nat2Z.inj_add, nblk_more; [done|lia..|]. rewrite Z.mod_eq, <- Hk by lia. lia.
  - done.
Qed.

Lemma iappend_turn_run s n X C i p : state_ok s n X C → 1 ≤ i < n → p ≠ [] → len (C i) < MAXFILE * BSIZE →
  let n1 := Z.min (len p) ((len (C i) / BSIZE + 1) * BSIZE - len (C i)) in
  exact1 (m_img s) (X i) (C i) → m_freeblock s + (nblk (len (C i) + n1) - nblk (len (C i))) ≤ FSSIZE →
  1 ≤ n1 ≤ len p ∧ ∃ x' s', iappend_turn (X i, len (C i), p) s = Ok (inl (x', len (C i) + n1, drop (Z.to_nat n1) p)) s' ∧
    appended s s' n X C i x' (C i ++ take (Z.to_nat n1) p).
Proof.
  intros B Hi Hp Hlt n1 Hex Hfb. sizes. set (k := len (C i) / BSIZE) in *.
  assert (k * BSIZE ≤ len (C i) < k * BSIZE + BSIZE) as Hko by (unfold k; Z.to_euclidean_division_equations; lia).
  assert (1 ≤ len p) as Hp1 by (destruct p; [done|simpl; lia]). assert (1 ≤ n1 ≤ len p) as Hn1 by lia. split; [done|].
  assert (0 ≤ k < MAXFILE) as Hk by lia.
  assert (nblk (len (C i) + n1) = nblk (len (C i) + 1)) as En by (apply nblk_more; [lia..|rewrite Z.mod_eq by lia; fold k; lia]). rewrite En in Hfb.
  destruct (iappend_block_run s n X C i B Hi Hlt Hex Hfb) as (x' & s1 & R & G & F). fold k in R, G.
  pose proof (write_turn s n X C i x' k s1 (take (Z.to_nat n1) p) G Hi eq_refl Hk) as W. cbv zeta in W.
  exists x'. eexists. split; [|apply W; [|rewrite length_take; lia|done|done]].
  2:{ intros E%(f_equal length). rewrite length_take in E. simpl in E. lia. }
  unfold iappend_turn. destruct p as [|a p]; [done|]. fold k. replace (k <? MAXFILE) with true by lia.
  cbn [negb]. rewrite (bind_ok _ _ _ _ _ R). fold n1.
  assert (is_slot k) as Hk' by (split; lia). pose proof (fupd_eq i x' X) as Ex.
  assert (slot (m_img s1) (fupd i x' X i) k ≠ 0) as Hs' by (rewrite Ex; apply (go_slot _ _ _ _ _ _ _ _ G)).
  pose proof (bo_range _ _ _ _ _ (go_ok _ _ _ _ _ _ _ _ G) i k Hi Hk' Hs') as Hr. rewrite Ex in Hr. pose proof (bo_fb _ _ _ _ _ (go_ok _ _ _ _ _ _ _ _ G)).
  rewrite (bind_ok _ _ _ _ _ (rsect_run _ s1 (bo_len _ _ _ _ _ (go_ok _ _ _ _ _ _ _ _ G) (slot (m_img s1) x' k) ltac:(lia)))).
  rewrite u32_small by lia. reflexivity.
Qed.

Lemma appended_trans s s1 s2 n X C i x1 x2 c1 c2 : appended s s1 n X C i x1 c1 →
  appended s1 s2 n (fupd i x1 X) (fupd i c1 C) i x2 c2 → appended s s2 n X C i x2 c2.
Proof.
  intros [A1 A2 A3 A4 A5] [B1 B2 B3 B4 B5]. rewrite !fupd_eq in *. constructor; try done.
  - apply (blocks_ext _ _ _ _ _ _ _ B1); intros j _; by at_index j i.
  - by apply (keeps_trans _ _ _ x1 _ s1).
  - lia.
  - rewrite B5 at 1. rewrite A5. done.
Qed.

Lemma iappend_loop n i : 1 ≤ i < n → ∀ fuel p s X C, (length p < fuel)%nat → state_ok s n X C → exact1 (m_img s) (X i) (C i) →
  len (C i) + len p ≤ MAXFILE * BSIZE → m_freeblock s + (nblk (len (C i) + len p) - nblk (len (C i))) ≤ FSSIZE →
  ∃ x' s', loop fuel iappend_turn (X i, len (C i), p) s = Ok (x', len (C i) + len p) s' ∧ appended s s' n X C i x' (C i ++ p).
Proof.
  intros Hi. induction fuel as [|fuel IH]; intros p s X C Hf B Hex Hmax Hfb; [lia|]. destruct (decide (p = [])) as [->|Hp].
  - exists (X i), s. change (len []) with 0. rewrite Z.add_0_r, app_nil_r. split; [by apply loop_end|]. constructor; try done; [|lia|by destruct (X i)].
    apply (blocks_ext _ _ _ _ _ _ _ B); intros j _; by at_index j i.
  - assert (1 ≤ len p) as Hp1 by (destruct p; [done|simpl; lia]).
    pose proof (iappend_turn_run s n X C i p B Hi Hp ltac:(lia)) as T. cbv zeta in T. set (n1 := Z.min _ _) in T.
    pose proof (nblk_mono (len (C i) + n1) (len (C i) + len p) ltac:(lia)).
    destruct T as (Hn & x1 & s1 & R & A); [done|lia|]. pose proof (fupd_eq i x1 X) as Ex. set (c1 := C i ++ take (Z.to_nat n1) p) in *.
    pose proof (fupd_eq i c1 C) as Ec. assert (len c1 = len (C i) + n1) as El by (unfold c1; rewrite length_app, length_take; lia).
    destruct (IH (drop (Z.to_nat n1) p) s1 (fupd i x1 X) (fupd i c1 C)) as (x2 & s2 & R2 & A2).
    + rewrite length_drop. lia.
    + apply (ap_ok _ _ _ _ _ _ _ _ A).
    + rewrite Ex, Ec. apply (ap_exact _ _ _ _ _ _ _ _ A).
    + rewrite Ec, El, length_drop. lia.
    + pose proof (ap_free _ _ _ _ _ _ _ _ A) as F. rewrite Ec, F, El, length_drop. replace (_ + n1 + _) with (len (C i) + len p) by lia. lia.
    + exists x2, s2. rewrite Ex, Ec, El in R2. split.
      * cbn [loop]. rewrite (bind_ok _ _ _ _ _ R), R2. rewrite length_drop. do 2 f_equal. lia.
      * replace (C i ++ p) with (fupd i c1 C i ++ drop (Z.to_nat n1) p) by (rewrite Ec; unfold c1; rewrite <- app_assoc, take_drop; done).
        by apply (appended_trans _ s1 _ _ _ _ _ x1 _ c1).
Qed.

(** ** Inodes on the image *)

Definition dinode_at (D : Z → list Z) (i : Z) : inode := dinode_get (D (IBLOCK i mk_sb)) (i mod IPB * DINODE_SIZE) inode0.

Lemma iblock_eq i : 0 ≤ i < NINODES → IBLOCK i mk_sb = i / 16 + 32 ∧ 32 ≤ IBLOCK i mk_sb < 45.
Proof.
  intros Hi. unfold NINODES in Hi. assert (IBLOCK i mk_sb = i / 16 + 32) as E.
  { unfold IBLOCK. change IPB with 16. change (sb_inodestart mk_sb) with 32. apply u32_small. Z.to_euclidean_division_equations; lia. }
  rewrite E. split; [done|]. Z.to_euclidean_division_equations; lia.
Qed.

Lemma dinode_get_sub d d' o x : (∀ p n, o ≤ p → 0 ≤ n → p + n ≤ o + DINODE_SIZE → sub d' p n = sub d p n) → dinode_get d' o x = dinode_get d o x.
Proof.
  intros E. assert (DINODE_SIZE = 64) as H64 by done. assert (NDIRECT = 12) as H12 by done.
  assert (∀ p, o ≤ p → p + 2 ≤ o + 64 → gets16 d' p = gets16 d p) as E16 by (intros p H1 H2; unfold gets16; by rewrite !get_sub, E by lia).
  assert (∀ p, o ≤ p → p + 4 ≤ o + 64 → get32 d' p = get32 d p) as E32 by (intros p H1 H2; unfold get32; by rewrite !get_sub, E by lia).
  unfold dinode_get. rewrite !E16, E32 by lia. f_equal. unfold dinode_addrs. apply list_fmap_ext. intros k a Hk%lookup_seqZ. apply E32; lia.
Qed.

Lemma winode_run i x s : 0 ≤ i < NINODES → inode_fits x → len (m_img s (IBLOCK i mk_sb)) = BSIZE →
  ∃ D', winode i x s = Ok tt (set_m_img D' s) ∧ (∀ b, b ≠ IBLOCK i mk_sb → D' b = m_img s b) ∧ (∀ b, length (D' b) = length (m_img s b)) ∧
    same_disk x (dinode_at D' i) ∧ ∀ j, 0 ≤ j < NINODES → j ≠ i → dinode_at D' j = dinode_at (m_img s) j.
Proof.
  intros Hi Hx Hl. assert (DINODE_SIZE = 64) as H64 by done. assert (IPB = 16) as HIPB by done. sizes.
  pose proof (iblock_eq i Hi) as [Ei Hri]. pose proof (Z.mod_pos_bound i 16).
  exists (fupd (IBLOCK i mk_sb) (dinode_put x (m_img s (IBLOCK i mk_sb)) (i mod IPB * DINODE_SIZE)) (m_img s)). split_and!.
  - unfold winode. cbv zeta. by rewrite (bind_ok _ _ _ _ _ (rsect_run _ s Hl)).
  - intros b Hb. by rewrite fupd_ne.
  - intros b. at_index b (IBLOCK i mk_sb); [apply length_dinode_put|done].
  - unfold dinode_at. rewrite fupd_eq, HIPB. apply dinode_roundtrip; [done|lia..].
  - intros j Hj Hne. unfold dinode_at. rewrite HIPB. pose proof (iblock_eq j Hj) as [Ej Hrj]. destruct (decide (IBLOCK j mk_sb = IBLOCK i mk_sb)) as [e|e]; [|by rewrite fupd_ne].
    rewrite e, fupd_eq. pose proof (Z.mod_pos_bound j 16). apply dinode_get_sub. intros p m Hp Hm Hpm. apply dinode_put_ne; [lia..|apply (fi_addrs _ Hx)|].
    rewrite Ei, Ej in e. assert (j mod 16 ≠ i mod 16) by (Z.to_euclidean_division_equations; lia). lia.
Qed.
Lemma rinode_run i s : len (m_img s (IBLOCK i mk_sb)) = BSIZE → rinode i s = Ok (dinode_at (m_img s) i) s.
Proof. intros Hl. unfold rinode. cbv zeta. by rewrite (bind_ok _ _ _ _ _ (rsect_run _ s Hl)). Qed.

(** ** The image while mkfs runs *)

(** The blocks of the files 1, ..., [m]. *)
Fixpoint total (C : Z → list Z) (m : nat) : Z :=
  match m with O => 0 | S m' => total C m' + nblk (len (C (Z.of_nat m))) end.
Lemma total_upd C i c m : 1 ≤ i → total (fupd i c C) m = total C m + (if decide (i ≤ Z.of_nat m) then nblk (len c) - nblk (len (C i)) else 0).
Proof.
  intros Hi. induction m as [|m IH]; cbn [total]; [rewrite decide_False by lia; lia|]. rewrite IH. destruct (decide (Z.of_nat (S m) = i)) as [e|Hne].
  - rewrite e, fupd_eq, decide_False, decide_True by lia. lia.
  - rewrite fupd_ne by done. repeat case_decide; lia.
Qed.

Record minv (s : mst) (C : Z → list Z) : Prop := {
  mi_n : 1 ≤ m_freeinode s ≤ NINODES;
  mi_ok : state_ok s (m_freeinode s) (dinode_at (m_img s)) C;
  mi_exact i : 1 ≤ i < m_freeinode s → exact1 (m_img s) (dinode_at (m_img s) i) (C i);
  mi_free : m_freeblock s = nmeta + total C (Z.to_nat (m_freeinode s - 1));
  mi_size i : 1 ≤ i < m_freeinode s → i_size (dinode_at (m_img s) i) = len (C i);
  mi_kind i : 1 ≤ i < m_freeinode s → let x := dinode_at (m_img s) i in
    i_type x = (if i =? ROOTINO then T_DIR else T_FILE) ∧ i_nlink x = 1 ∧ i_major x = 0 ∧ i_minor x = 0;
  mi_unused i : m_freeinode s ≤ i < NINODES → i_type (dinode_at (m_img s) i) = 0;
  mi_sb : m_img s 1 = splice zeroes 0 (sb_bytes mk_sb);
  mi_log b : 2 ≤ b < 32 → m_img s b = zeroes;
}.

Lemma fits_of s n X C i x : state_ok s n X C → 1 ≤ i < n → i_addrs x = i_addrs (X i) → short (i_type x) → i_nlink x = 1 → i_major x = 0 → i_minor x = 0 →
  0 ≤ i_size x < 2 ^ 32 → inode_fits x.
Proof.
  intros B Hi Ha Ht Hn Hm1 Hm2 Hs. sizes. constructor; rewrite ?Hn, ?Hm1, ?Hm2; try done.
  - rewrite Ha. by apply (bo_addrs _ _ _ _ _ B).
  - rewrite Ha. apply Forall_lookup. intros k a Hk. pose proof (bo_addrs _ _ _ _ _ B i Hi). pose proof (lookup_lt_Some _ _ _ Hk).
    assert (a = addr_of (X i) (Z.of_nat k)) as -> by (unfold addr_of; rewrite Nat2Z.id, nth_lookup, Hk; done).
    destruct (decide (Z.of_nat k = NDIRECT)) as [->|Hne].
    + fold (ind_of (X i)). rewrite <- (slot_ind (m_img s)). pose proof (slot_u32 s _ _ _ _ B Hi (-1) is_slot_ind). lia.
    + assert (is_slot (Z.of_nat k)) as Hk' by (split; lia). pose proof (slot_u32 s _ _ _ _ B Hi _ Hk') as [_ H1].
      unfold slot, daddr in H1. replace (Z.of_nat k =? -1) with false in H1 by lia. replace (Z.of_nat k <? NDIRECT) with true in H1 by lia. lia.
Qed.

(** Writing an inode leaves the files. *)
Lemma slot_meta D D' fb n X C i l : blocks_ok D fb n X C → 1 ≤ i < n → (∀ b, nmeta ≤ b → D' b = D b) → slot D' (X i) l = slot D (X i) l.
Proof.
  intros B Hi HD. unfold slot, daddr. destruct (l =? -1); [done|]. destruct (l <? NDIRECT); [done|]. destruct (ind_of (X i) =? 0) eqn:E; [done|].
  rewrite HD; [done|]. pose proof (bo_range _ _ _ _ _ B i (-1) Hi is_slot_ind) as H1. rewrite slot_ind in H1. lia.
Qed.
Lemma blocks_meta D D' fb n X C : blocks_ok D fb n X C → (∀ b, nmeta ≤ b → D' b = D b) → (∀ b, length (D' b) = length (D b)) → blocks_ok D' fb n X C.
Proof.
  intros B HD HL. pose proof (λ i l Hi, slot_meta D D' fb n X C i l B Hi HD) as S. destruct B as [B1 B2 B3 B4 B5 B6 B7 B8 B9]. constructor; try done.
  - intros b Hb. rewrite HL. auto.
  - intros b Hb. rewrite HD by lia. auto.
  - intros i k Hi. rewrite S by done. auto.
  - intros i k j l Hi Hk Hj. rewrite !S by done. auto.
  - intros i k Hi. rewrite S by done. auto.
  - intros i k j Hi Hk. rewrite S by done. intros Hn0 Hj. rewrite HD; [auto|]. assert (is_slot k) as Hk' by (split; lia). pose proof (B5 i k Hi Hk' Hn0). lia.
Qed.

Lemma low_block s C i : minv s C → 1 ≤ i < NINODES → len (m_img s (IBLOCK i mk_sb)) = BSIZE.
Proof. intros I Hi. sizes. apply (bo_len _ _ _ _ _ (mi_ok _ _ I)). pose proof (iblock_eq i). lia. Qed.
Lemma dinode_at_low D D' i : (∀ b, b < nmeta → D' b = D b) → 0 ≤ i < NINODES → dinode_at D' i = dinode_at D i.
Proof. intros E Hi. sizes. unfold dinode_at. rewrite E; [done|]. pose proof (iblock_eq i Hi). lia. Qed.
Lemma exact1_ext D D' x y c : (∀ l, is_slot l → slot D' y l = slot D x l) → exact1 D x c → exact1 D' y c.
Proof.
  intros E [H1 H2]. split.
  - intros k Hk. rewrite E by (split; lia). by apply H1.
  - rewrite <- (slot_ind D'), E, slot_ind by apply is_slot_ind. done.
Qed.

(** The inode is written back with the new size. *)
Lemma minv_appended s s1 C i x' c D' : minv s C → 1 ≤ i < m_freeinode s → appended s s1 (m_freeinode s) (dinode_at (m_img s)) C i x' c →
  (∀ b, b ≠ IBLOCK i mk_sb → D' b = m_img s1 b) → (∀ b, length (D' b) = length (m_img s1 b)) →
  same_disk (set_i_size (len c) x') (dinode_at D' i) → (∀ j, 0 ≤ j < NINODES → j ≠ i → dinode_at D' j = dinode_at (m_img s1) j) →
  minv (set_m_img D' s1) (fupd i c C).
Proof.
  intros I Hi [A1 (K1 & K2 & K3) A3 A4 A5] HD HL (S1 & S2 & S3 & S4 & S5 & S6) HO. sizes. pose proof (mi_n _ _ I) as Hn. pose proof (iblock_eq i ltac:(lia)) as Hib.
  assert (∀ j, 0 ≤ j < NINODES → j ≠ i → dinode_at D' j = dinode_at (m_img s) j) as HO'.
  { intros j Hj Hne. rewrite HO by done. by apply dinode_at_low. }
  assert (∀ b, nmeta ≤ b → D' b = m_img s1 b) as HDm by (intros b Hb; apply HD; lia).
  assert (state_ok (set_m_img D' s1) (m_freeinode s) (fupd i x' (dinode_at (m_img s))) (fupd i c C)) as B1 by (by apply (blocks_meta (m_img s1))).
  assert (∀ j, 1 ≤ j < m_freeinode s → i_addrs (dinode_at D' j) = i_addrs (fupd i x' (dinode_at (m_img s)) j)) as HX.
  { intros j Hj. at_index j i; [done|]. by rewrite HO' by lia. }
  constructor; simpl m_img; simpl m_freeblock; change (m_freeinode (set_m_img D' s1)) with (m_freeinode s1); rewrite ?K1.
  - done.
  - by apply (blocks_ext _ _ _ _ _ _ _ B1).
  - intros j Hj. at_index j i.
    + apply (exact1_ext (m_img s1) D' x'); [|done]. intros l _. rewrite (slot_ext _ x') by done.
      pose proof (slot_meta (m_img s1) D' _ _ _ _ i l A1 Hi HDm) as E. by rewrite fupd_eq in E.
    + rewrite HO' by lia. apply (exact1_ext (m_img s) D' (dinode_at (m_img s) j)); [|by apply (mi_exact _ _ I)]. intros l Hl.
      pose proof (slot_meta (m_img s1) D' _ _ _ _ j l A1 Hj HDm) as E. rewrite fupd_ne in E by done. rewrite E. by apply K3.
  - rewrite total_upd, decide_True by lia. rewrite A4, (mi_free _ _ I). lia.
  - intros j Hj. at_index j i; [by rewrite S5|]. rewrite HO' by lia. by apply (mi_size _ _ I).
  - intros j Hj. at_index j i; [|rewrite HO' by lia; by apply (mi_kind _ _ I)]. pose proof (mi_kind _ _ I i Hi) as H1. simpl in S1, S2, S3, S4.
    rewrite A5 in S1, S2, S3, S4. simpl in *. rewrite S1, S2, S3, S4. done.
  - intros j Hj. rewrite HO' by lia. by apply (mi_unused _ _ I).
  - rewrite HD, K2 by lia. apply (mi_sb _ _ I).
  - intros b Hb. rewrite HD, K2 by lia. by apply (mi_log _ _ I).
Qed.

Lemma iappend_run s C i p : minv s C → 1 ≤ i < m_freeinode s → len (C i) + len p ≤ MAXFILE * BSIZE →
  m_freeblock s + (nblk (len (C i) + len p) - nblk (len (C i))) ≤ FSSIZE →
  ∃ s', iappend i p s = Ok tt s' ∧ minv s' (fupd i (C i ++ p) C) ∧ m_freeinode s' = m_freeinode s ∧
    m_freeblock s' = m_freeblock s + (nblk (len (C i) + len p) - nblk (len (C i))).
Proof.
  intros I Hi Hmax Hfb. sizes. pose proof (mi_n _ _ I) as Hn. assert (1 ≤ i < NINODES) as Hi' by lia. unfold iappend.
  rewrite (bind_ok _ _ _ _ _ (rinode_run i s (low_block _ _ _ I Hi'))). rewrite (mi_size _ _ I) by done. rewrite xint_id by lia.
  destruct (iappend_loop _ i Hi (S (length p)) p s (dinode_at (m_img s)) C) as (x' & s1 & R & A);
    [lia|apply (mi_ok _ _ I)|by apply (mi_exact _ _ I)|done|done|].
  rewrite (bind_ok _ _ _ _ _ R). rewrite xint_id by lia. pose proof (mi_kind _ _ I i Hi) as (H1 & H2 & H3 & H4).
  pose proof (ap_ok _ _ _ _ _ _ _ _ A) as B1. pose proof (fupd_eq i x' (dinode_at (m_img s))) as Ex.
  pose proof (iblock_eq i ltac:(lia)) as Hib. replace (len (C i) + len p) with (len (C i ++ p)) by (rewrite length_app; lia).
  destruct (winode_run i (set_i_size (len (C i ++ p)) x') s1) as (D' & W1 & W2 & W3 & W4 & W5).
  - lia.
  - apply (fits_of s1 _ _ _ i _ B1 Hi); rewrite ?Ex; simpl; try (rewrite (ap_rest _ _ _ _ _ _ _ _ A); done).
    + rewrite (ap_rest _ _ _ _ _ _ _ _ A). change (short (i_type (dinode_at (m_img s) i))). rewrite H1. by destruct (i =? ROOTINO).
    + rewrite length_app. lia.
  - apply (bo_len _ _ _ _ _ B1). lia.
  - exists (set_m_img D' s1). split_and!; [done|by apply (minv_appended s s1 C i x')|apply (ap_keeps _ _ _ _ _ _ _ _ A)|].
    simpl. rewrite (ap_free _ _ _ _ _ _ _ _ A), length_app. by rewrite Nat2Z.inj_add.
Qed.

(** A new, empty file. *)
Lemma slot_empty D l : slot D inode0 l = 0.
Proof.
  assert (∀ k, addr_of inode0 k = 0) as E by (intros k; apply nth_rep0).
  unfold slot, daddr, ind_of. rewrite !E. simpl. by destruct (l =? -1), (l <? NDIRECT).
Qed.
Lemma blocks_grow D fb n X C x : blocks_ok D fb n X C → len (i_addrs x) = NDIRECT + 1 → (∀ l, slot D x l = 0) →
  blocks_ok D fb (n + 1) (fupd n x X) (fupd n [] C).
Proof.
  intros B Hx Hs. sizes.
  assert (∀ j, 1 ≤ j < n + 1 → j ≠ n → 1 ≤ j < n) as Hj by lia. destruct B as [B1 B2 B3 B4 B5 B6 B7 B8 B9]. constructor; try done.
  - intros i Hi. at_index i n; auto.
  - intros i k Hi. at_index i n; [by rewrite Hs|auto].
  - intros i k j l Hi Hk Hj' Hl. at_index i n; [by rewrite Hs|]. at_index j n; [rewrite Hs; congruence|auto].
  - intros i Hi. at_index i n; [simpl; lia|auto].
  - intros i k Hi. at_index i n; [simpl; lia|auto].
  - intros i k j Hi Hk. at_index i n; [by rewrite Hs|auto].
Qed.

Lemma minv_grow s C D' x : minv s C → let n := m_freeinode s in n < NINODES → x = dinode_at D' n → (∀ b, b ≠ IBLOCK n mk_sb → D' b = m_img s b) →
  (∀ b, length (D' b) = length (m_img s b)) → i_addrs x = i_addrs inode0 → i_size x = 0 →
  i_type x = (if n =? ROOTINO then T_DIR else T_FILE) ∧ i_nlink x = 1 ∧ i_major x = 0 ∧ i_minor x = 0 →
  (∀ j, 0 ≤ j < NINODES → j ≠ n → dinode_at D' j = dinode_at (m_img s) j) →
  minv (Mst D' (n + 1) (m_freeblock s)) (fupd n [] C).
Proof.
  intros I n Hlt Ex HD HL Ha Hsz Hk HO. sizes. pose proof (mi_n _ _ I) as Hn. fold n in Hn. pose proof (iblock_eq n ltac:(lia)) as Hib.
  assert (∀ b, nmeta ≤ b → D' b = m_img s b) as HDm by (intros b Hb; apply HD; lia).
  pose proof (mi_ok _ _ I) as B. fold n in B. assert (blocks_ok D' (m_freeblock s) n (dinode_at (m_img s)) C) as B1 by (by apply (blocks_meta (m_img s))).
  assert (∀ l, slot D' x l = 0) as Hs by (intros l; rewrite (slot_ext _ inode0) by done; apply slot_empty).
  pose proof (blocks_grow _ _ _ _ _ x B1 ltac:(rewrite Ha; done) Hs) as B2.
  constructor; cbn [m_img m_freeinode m_freeblock].
  - lia.
  - apply (blocks_ext _ _ _ _ _ _ _ B2); [|done]. intros j Hj. cbn [m_img]. at_index j n; [by rewrite <- Ex|]. by rewrite HO by lia.
  - intros j Hj. at_index j n.
    + rewrite <- Ex. split; [intros k _; by rewrite Hs|]. rewrite <- (slot_ind D'). by rewrite Hs.
    + rewrite HO by lia. apply (exact1_ext (m_img s) D' (dinode_at (m_img s) j)); [|apply (mi_exact _ _ I); fold n; lia]. intros l Hl.
      apply (slot_meta (m_img s) D' _ _ _ _ j l B); [lia|done].
  - replace (Z.to_nat (n + 1 - 1)) with (S (Z.to_nat (n - 1))) by lia. cbn [total]. replace (Z.of_nat (S (Z.to_nat (n - 1)))) with n by lia.
    rewrite fupd_eq, total_upd, decide_False by lia. change (nblk (len [])) with 0. rewrite (mi_free _ _ I). fold n. lia.
  - intros j Hj. at_index j n; [by rewrite <- Ex|]. rewrite HO by lia. apply (mi_size _ _ I). fold n. lia.
  - intros j Hj. destruct (decide (j = n)) as [->|]; [by rewrite <- Ex|]. rewrite HO by lia. apply (mi_kind _ _ I). fold n. lia.
  - intros j Hj. rewrite HO by lia. apply (mi_unused _ _ I). fold n. lia.
  - rewrite HD by lia. apply (mi_sb _ _ I).
  - intros b Hb. rewrite HD by lia. by apply (mi_log _ _ I).
Qed.

Lemma ialloc_run s C type : minv s C → m_freeinode s < NINODES → type = (if m_freeinode s =? ROOTINO then T_DIR else T_FILE) →
  ∃ s', mkfs_ialloc type s = Ok (m_freeinode s) s' ∧ minv s' (fupd (m_freeinode s) [] C) ∧ m_freeinode s' = m_freeinode s + 1 ∧ m_freeblock s' = m_freeblock s.
Proof.
  intros I Hlt Ht. sizes. pose proof (mi_n _ _ I) as Hn. set (n := m_freeinode s) in *.
  set (x := set_i_size (xint 0) (set_i_nlink (xshort 1) (set_i_type (xshort type) inode0))).
  assert (short type ∧ xshort type = type) as [Hsh Hxs] by (subst type; by destruct (n =? ROOTINO)).
  set (s1 := set_m_freeinode (u32 (n + 1)) s). assert (s1 = Mst (m_img s) (n + 1) (m_freeblock s)) as E1 by (unfold s1; by rewrite u32_small by (unfold NINODES in *; lia)).
  destruct (winode_run n x s1) as (D' & W1 & W2 & W3 & (S1 & S2 & S3 & S4 & S5 & S6) & W5).
  - lia.
  - constructor; try done; [simpl; by rewrite Hxs|]. by apply Forall_replicate.
  - rewrite E1. apply (low_block s C); [done|lia].
  - exists (set_m_img D' s1). rewrite E1 in *. split_and!; [|apply (minv_grow s C D' (dinode_at D' n))|done|done]; try done.
    + unfold mkfs_ialloc. rewrite (bind_ok (gets m_freeinode) _ s n s eq_refl). fold n.
      rewrite (bind_ok (modify (λ s, set_m_freeinode (u32 (m_freeinode s + 1)) s)) _ s tt s1 eq_refl). fold x. rewrite E1. by rewrite (bind_ok _ _ _ _ _ W1).
    + rewrite S1, S2, S3, S4. simpl. by rewrite Hxs.
Qed.

(** ** The files of the command line *)

Lemma nblk_nonneg n : 0 ≤ n → 0 ≤ nblk n.
Proof. intros H. etrans; [|apply (nblk_mono 0); done]. done. Qed.

Lemma append_all_run i reads : ∀ s C, minv s C → 1 ≤ i < m_freeinode s → len (C i) + len (concat reads) ≤ MAXFILE * BSIZE →
  let more := nblk (len (C i) + len (concat reads)) - nblk (len (C i)) in m_freeblock s + more ≤ FSSIZE →
  ∃ s' C', append_all i reads s = Ok tt s' ∧ minv s' C' ∧ C' i = C i ++ concat reads ∧ (∀ j, j ≠ i → C' j = C j) ∧
    m_freeinode s' = m_freeinode s ∧ m_freeblock s' = m_freeblock s + more.
Proof.
  induction reads as [|buf reads IH]; intros s C I Hi Hmax more Hfb.
  - exists s, C. unfold more. cbn [concat]. rewrite app_nil_r. change (len []) with 0. split_and!; try done. rewrite Z.add_0_r. lia.
  - unfold more in *. cbn [concat append_all] in *. rewrite length_app in *.
    pose proof (nblk_mono (len (C i) + len buf) (len (C i) + Z.of_nat (length buf + length (concat reads))) ltac:(lia)).
    destruct (iappend_run s C i buf I Hi) as (s1 & R1 & I1 & N1 & F1); [lia..|]. rewrite (bind_ok _ _ _ _ _ R1).
    assert (len (C i ++ buf) + len (concat reads) = len (C i) + Z.of_nat (length buf + length (concat reads))) as El by (rewrite length_app; lia).
    assert (len (C i ++ buf) = len (C i) + len buf) as El1 by (rewrite length_app; lia).
    destruct (IH s1 _ I1) as (s2 & C2 & R2 & I2 & E2 & O2 & N2 & F2); [lia|rewrite fupd_eq, El; lia|rewrite fupd_eq, El, El1; lia|].
    exists s2, C2. rewrite fupd_eq in *. split_and!; try done.
    + by rewrite E2, <- app_assoc.
    + intros j Hj. rewrite O2 by done. by rewrite fupd_ne.
    + congruence.
    + rewrite F2, F1, El, El1. lia.
Qed.

(** A file of the command line, with the name it has on the image. *)
Definition file : Type := list Z * list (list Z).
Definition file_name (f : file) : list Z := skip_underscore (shortname (fst f)).
Definition file_bytes (f : file) : list Z := concat (snd f).
Record file_fits (f : file) : Prop := {
  ff_slash : (SLASH ∉ shortname (fst f));
  ff_name : len (file_name f) ≤ DIRSIZ;
  ff_bytes : len (file_bytes f) ≤ MAXFILE * BSIZE;
}.

Lemma length_strncpy t n : length (strncpy_bytes t n) = n.
Proof. revert t. induction n as [|n IH]; intros t; cbn [strncpy_bytes]; [done|]. destruct (hd 0 t =? 0); [apply length_replicate|]. simpl. by rewrite IH. Qed.
Lemma length_dirent i name : len (dirent_bytes i name) = DIRENT_SIZE.
Proof. unfold dirent_bytes. by rewrite length_app, length_le_bytes, length_strncpy. Qed.

Lemma add_file_run s C f n : m_freeinode s = n → minv s C → 2 ≤ n < NINODES → file_fits f → len (C 1) + DIRENT_SIZE ≤ MAXFILE * BSIZE →
  let more := nblk (len (C 1) + DIRENT_SIZE) - nblk (len (C 1)) + nblk (len (file_bytes f)) in m_freeblock s + more ≤ FSSIZE →
  ∃ s' C', add_file ROOTINO f s = Ok tt s' ∧ minv s' C' ∧ C' 1 = C 1 ++ dirent_bytes n (file_name f) ∧ C' n = file_bytes f ∧
    (∀ j, j ≠ 1 → j ≠ n → C' j = C j) ∧ m_freeinode s' = n + 1 ∧ m_freeblock s' = m_freeblock s + more.
Proof.
  intros Hs I Hn [F1 F2 F3] Hroot more Hfb. unfold more in *. destruct f as [arg reads]. unfold file_name, file_bytes in *. cbn [fst snd] in *.
  pose proof (nblk_nonneg (len (concat reads)) ltac:(lia)).
  destruct (ialloc_run s C T_FILE I) as (s1 & R1 & I1 & N1 & B1); [lia|rewrite Hs; by replace (n =? ROOTINO) with false by (unfold ROOTINO; lia)|].
  rewrite Hs in *. pose proof (fupd_eq n [] C) as En. assert (fupd n [] C 1 = C 1) as E1 by (apply fupd_ne; lia).
  destruct (iappend_run s1 _ 1 (dirent_bytes n (skip_underscore (shortname arg))) I1) as (s2 & R2 & I2 & N2 & B2); [lia|..].
  { rewrite E1, length_dirent. done. } { rewrite E1, length_dirent. lia. }
  rewrite E1, length_dirent in *. set (c1 := C 1 ++ _) in *. assert (fupd 1 c1 (fupd n [] C) n = []) as En' by (by rewrite fupd_ne by lia).
  destruct (append_all_run n reads s2 _ I2) as (s3 & C3 & R3 & I3 & C3n & C3o & N3 & B3).
  { lia. } { rewrite En'. simpl. lia. } { rewrite En'. change (nblk (len [])) with 0. change (len []) with 0. rewrite Z.add_0_l. lia. }
  rewrite En' in *. exists s3, C3. split_and!; try done.
  - unfold add_file. cbv zeta. rewrite bool_decide_eq_false_2 by done. replace (len _ <=? DIRSIZ) with true by lia. cbn [negb].
    rewrite (bind_ok _ _ _ _ _ R1), (bind_ok _ _ _ _ _ R2). done.
  - rewrite C3o by lia. by rewrite fupd_eq.
  - intros j Hj1 Hj2. rewrite C3o by done. by rewrite !fupd_ne.
  - lia.
  - rewrite B3, B2, B1. change (nblk (len [])) with 0. change (len []) with 0. rewrite Z.add_0_l. lia.
Qed.

(** The directory entries of the files, the first of which has inode [n], and their blocks. *)
Fixpoint entries (n : Z) (files : list file) : list Z :=
  match files with [] => [] | f :: files => dirent_bytes n (file_name f) ++ entries (n + 1) files end.
Fixpoint need (files : list file) : Z :=
  match files with [] => 0 | f :: files => nblk (len (file_bytes f)) + need files end.
Lemma length_entries n files : len (entries n files) = DIRENT_SIZE * len files.
Proof.
  assert (DIRENT_SIZE = 16) as H16 by done. revert n. induction files as [|f files IH]; intros n; cbn [entries length]; [done|].
  pose proof (length_dirent n (file_name f)). specialize (IH (n + 1)). rewrite length_app. lia.
Qed.
Lemma need_nonneg files : 0 ≤ need files.
Proof. induction files as [|f files IH]; simpl; [done|]. pose proof (nblk_nonneg (len (file_bytes f))). lia. Qed.

Lemma add_files_run files : ∀ s C n, m_freeinode s = n → minv s C → 2 ≤ n → n + len files ≤ NINODES → Forall file_fits files →
  len (C 1) + DIRENT_SIZE * len files ≤ MAXFILE * BSIZE →
  m_freeblock s + (nblk (len (C 1) + DIRENT_SIZE * len files) - nblk (len (C 1))) + need files ≤ FSSIZE →
  ∃ s' C', add_files ROOTINO files s = Ok tt s' ∧ minv s' C' ∧ C' 1 = C 1 ++ entries n files ∧
    (∀ k f, files !! k = Some f → C' (n + Z.of_nat k) = file_bytes f) ∧ (∀ j, 1 < j < n → C' j = C j) ∧ m_freeinode s' = n + len files.
Proof.
  assert (DIRENT_SIZE = 16) as H16 by done. induction files as [|f files IH]; intros s C n Hs I Hn Hlt Hf Hroot Hfb.
  - exists s, C. cbn [entries length]. rewrite app_nil_r. split_and!; try done. lia.
  - apply Forall_cons in Hf as [Hf Hfs]. cbn [length need] in *. pose proof (need_nonneg files).
    pose proof (nblk_mono (len (C 1) + DIRENT_SIZE) (len (C 1) + DIRENT_SIZE * Z.of_nat (S (length files))) ltac:(lia)).
    destruct (add_file_run s C f n Hs I) as (s1 & C1 & R1 & I1 & E1 & En & Eo & N1 & B1); [lia|done|lia|lia|].
    assert (len (C1 1) = len (C 1) + DIRENT_SIZE) as El by (rewrite E1, length_app, Nat2Z.inj_add, length_dirent; done).
    replace (len (C 1) + DIRENT_SIZE * Z.of_nat (S (length files))) with (len (C1 1) + DIRENT_SIZE * len files) in * by lia.
    destruct (IH s1 C1 (n + 1) N1 I1) as (s2 & C2 & R2 & I2 & F1 & Fn & Fo & N2); [lia|lia|done|lia|rewrite B1, El in *; lia|].
    exists s2, C2. split_and!; try done.
    + cbn [add_files]. by rewrite (bind_ok _ _ _ _ _ R1).
    + cbn [entries]. by rewrite F1, E1, <- app_assoc.
    + intros [|k] g Hk; simpl in Hk.
      * injection Hk as <-. rewrite Z.add_0_r, Fo by lia. done.
      * replace (n + Z.of_nat (S k)) with (n + 1 + Z.of_nat k) by lia. by apply Fn.
    + intros j Hj. rewrite Fo by lia. apply Eo; lia.
    + lia.
Qed.

(** ** main *)

Definition start_img : Z → list Z := fupd 1 (splice zeroes 0 (sb_bytes mk_sb)) blank_img.
Lemma length_zeroes : len zeroes = BSIZE.
Proof. unfold zeroes. rewrite length_replicate. done. Qed.
Lemma start_zero b : 0 ≤ b < FSSIZE → b ≠ 1 → start_img b = zeroes.
Proof. intros Hb Hne. unfold start_img. rewrite fupd_ne by done. unfold blank_img. by replace ((0 <=? b) && (b <? FSSIZE)) with true by lia. Qed.
Lemma minv_start : minv (Mst start_img 1 nmeta) (λ _, []).
Proof.
  sizes. constructor; cbn [m_img m_freeinode m_freeblock]; try lia; try done.
  - constructor; cbn [m_img m_freeblock]; try lia.
    + intros b Hb. destruct (decide (b = 1)) as [->|]; [unfold start_img; rewrite fupd_eq, length_splice; apply length_zeroes|].
      rewrite start_zero by done. apply length_zeroes.
    + intros b Hb. apply start_zero; lia.
  - intros i Hi. pose proof (iblock_eq i ltac:(lia)). unfold dinode_at. rewrite start_zero by lia. unfold dinode_get, zeroes. cbn [i_type set_i_addrs set_i_size set_i_nlink set_i_minor set_i_major set_i_type].
    unfold gets16. by rewrite get_replicate0.
  - intros b Hb. apply start_zero; lia.
Qed.

(** The bitmap: the bits of the blocks before [freeblock] are set. *)
Lemma length_set_bits n : ∀ buf i, length (set_bits buf i n) = length buf.
Proof. induction n as [|n IH]; intros buf i; cbn [set_bits]; [done|]. by rewrite IH, length_insert. Qed.
Lemma bit_at_set_bits n : ∀ buf i j, 0 ≤ i → i + Z.of_nat n ≤ 8 * len buf → 0 ≤ j →
  bit_at (set_bits buf i n) j = (i <=? j) && (j <? i + Z.of_nat n) || bit_at buf j.
Proof.
  induction n as [|n IH]; intros buf i j Hi Hn Hj; cbn [set_bits].
  - replace ((i <=? j) && (j <? i + Z.of_nat 0)) with false by lia. done.
  - fold (bit_set buf i). rewrite IH by (rewrite ?length_insert; unfold bit_set; rewrite ?length_insert; lia).
    rewrite bit_at_set by lia. destruct (bit_at buf j); rewrite ?orb_true_r, ?orb_false_r; [done|]. lia.
Qed.

(** The files after main: only the size of the root directory differs from the bytes in it. *)
Definition root_dir (files : list file) : list Z :=
  dirent_bytes ROOTINO (str ".") ++ dirent_bytes ROOTINO (str "..") ++ entries 2 files.
Definition root_size (files : list file) : Z := (len (root_dir files) / BSIZE + 1) * BSIZE.
Lemma length_root_dir files : len (root_dir files) = DIRENT_SIZE * (2 + len files).
Proof.
  assert (DIRENT_SIZE = 16) as H16 by done. pose proof (length_dirent ROOTINO (str ".")). pose proof (length_dirent ROOTINO (str "..")).
  pose proof (length_entries 2 files). unfold root_dir. rewrite !length_app. lia.
Qed.

Record image (D : Z → list Z) (fb : Z) (files : list file) (C : Z → list Z) : Prop := {
  im_sb : D 1 = splice zeroes 0 (sb_bytes mk_sb);
  im_log b : 2 ≤ b < 32 → D b = zeroes;
  im_bit b : 0 ≤ b < BPB → bit_at (D 45) b = (b <? fb);
  im_blocks : blocks_ok D fb (2 + len files) (dinode_at D) C;
  im_exact i : 1 ≤ i < 2 + len files → exact1 D (dinode_at D i) (C i);
  im_root : C 1 = root_dir files;
  im_file k f : files !! k = Some f → C (2 + Z.of_nat k) = file_bytes f;
  im_size i : 1 ≤ i < 2 + len files → i_size (dinode_at D i) = if i =? ROOTINO then root_size files else len (C i);
  im_kind i : 1 ≤ i < 2 + len files → i_type (dinode_at D i) = (if i =? ROOTINO then T_DIR else T_FILE) ∧ i_nlink (dinode_at D i) = 1;
  im_unused i : 2 + len files ≤ i < NINODES → i_type (dinode_at D i) = 0;
}.

(** The last two steps: the size of the root directory, the bitmap. *)
Lemma image_of s C files D' bits : minv s C → m_freeinode s = 2 + len files → C 1 = root_dir files →
  (∀ k f, files !! k = Some f → C (2 + Z.of_nat k) = file_bytes f) →
  (∀ b, b ≠ IBLOCK ROOTINO mk_sb → D' b = m_img s b) → (∀ b, length (D' b) = length (m_img s b)) →
  same_disk (set_i_size (root_size files) (dinode_at (m_img s) ROOTINO)) (dinode_at D' ROOTINO) →
  (∀ j, 0 ≤ j < NINODES → j ≠ ROOTINO → dinode_at D' j = dinode_at (m_img s) j) →
  len bits = BSIZE → (∀ b, 0 ≤ b < BPB → bit_at bits b = (b <? m_freeblock s)) →
  image (fupd 45 bits D') (m_freeblock s) files C.
Proof.
  intros I Hn Hroot Hfile HD HL (S1 & S2 & S3 & S4 & S5 & S6) HO Hb Hbits. sizes. assert (ROOTINO = 1) as HR by done. rewrite HR in *.
  pose proof (mi_n _ _ I) as Hn'. pose proof (iblock_eq 1 ltac:(done)) as Hib.
  assert (∀ j, 0 ≤ j < NINODES → dinode_at (fupd 45 bits D') j = dinode_at D' j) as HB.
  { intros j Hj. unfold dinode_at. rewrite fupd_ne; [done|]. pose proof (iblock_eq j Hj). lia. }
  assert (∀ j, 0 ≤ j < NINODES → i_addrs (dinode_at D' j) = i_addrs (dinode_at (m_img s) j)) as HA.
  { intros j Hj. destruct (decide (j = 1)) as [->|]; [done|by rewrite HO]. }
  assert (∀ b, nmeta ≤ b → fupd 45 bits D' b = m_img s b) as HDm by (intros b Hb'; rewrite fupd_ne by lia; apply HD; lia).
  pose proof (mi_ok _ _ I) as B. rewrite Hn in *. constructor.
  - rewrite fupd_ne, HD by lia. apply (mi_sb _ _ I).
  - intros b Hb'. rewrite fupd_ne, HD by lia. by apply (mi_log _ _ I).
  - by rewrite fupd_eq.
  - apply (blocks_ext _ _ _ (dinode_at (m_img s)) _ C); [|intros j Hj; by rewrite HB, HA by lia|done].
    apply (blocks_meta (m_img s)); [done|done|]. intros b. at_index b 45; [|done].
    apply Nat2Z.inj. rewrite Hb. symmetry. apply (bo_len _ _ _ _ _ B). lia.
  - intros i Hi. apply (exact1_ext (m_img s) _ (dinode_at (m_img s) i)); [|apply (mi_exact _ _ I); lia].
    intros l _. rewrite (slot_ext _ (dinode_at (m_img s) i)) by (by rewrite HB, HA by lia). by apply (slot_meta (m_img s) _ _ _ _ _ _ _ B).
  - done.
  - done.
  - intros i Hi. rewrite HB by lia. destruct (decide (i = 1)) as [->|]; [by rewrite S5|]. replace (i =? ROOTINO) with false by lia. rewrite HO by lia. apply (mi_size _ _ I). lia.
  - intros i Hi. rewrite HB by lia. pose proof (mi_kind _ _ I i ltac:(lia)) as (K1 & K2 & _). rewrite HR in *. destruct (decide (i = 1)) as [->|].
    + rewrite S1, S4. done.
    + by rewrite HO by lia.
  - intros i Hi. rewrite HB, HO by lia. apply (mi_unused _ _ I). lia.
Qed.

(** What mkfs is given fits on the disk. *)
Record fits (files : list file) : Prop := {
  ft_files : Forall file_fits files;
  ft_inodes : 2 + len files ≤ NINODES;
  ft_blocks : nmeta + nblk (DIRENT_SIZE * (2 + len files)) + need files ≤ FSSIZE;
}.

Lemma set_bits_img fb : 0 ≤ fb ≤ FSSIZE → len (set_bits zeroes 0 (Z.to_nat fb)) = BSIZE ∧
  ∀ b, 0 ≤ b < BPB → bit_at (set_bits zeroes 0 (Z.to_nat fb)) b = (b <? fb).
Proof.
  intros Hfb. sizes. pose proof length_zeroes. split; [by rewrite length_set_bits|]. intros b Hb. rewrite bit_at_set_bits by lia.
  assert (bit_at zeroes b = false) as -> by (unfold bit_at; rewrite nth_zeroes; apply Z.bits_0). lia.
Qed.

(** From the first directory entry to the last file. *)
Lemma files_run files s C : fits files → minv s C → C 1 = [] → m_freeinode s = 2 → m_freeblock s = nmeta →
  ∃ s' C', (iappend ROOTINO (dirent_bytes ROOTINO (str "."));; iappend ROOTINO (dirent_bytes ROOTINO (str ".."));; add_files ROOTINO files) s = Ok tt s' ∧
    minv s' C' ∧ C' 1 = root_dir files ∧ (∀ k f, files !! k = Some f → C' (2 + Z.of_nat k) = file_bytes f) ∧ m_freeinode s' = 2 + len files.
Proof.
  intros [Hf Hi Hb] I E0 N B. sizes. assert (DIRENT_SIZE = 16) as H16 by done. unfold NINODES in Hi. pose proof (need_nonneg files).
  pose proof (nblk_mono 16 (DIRENT_SIZE * (2 + len files)) ltac:(lia)). pose proof (nblk_mono 32 (DIRENT_SIZE * (2 + len files)) ltac:(lia)).
  change (nblk 16) with 1 in *. change (nblk 32) with 1 in *.
  destruct (iappend_run s C 1 (dirent_bytes ROOTINO (str ".")) I) as (s1 & R1 & I1 & N1 & B1); [lia|rewrite E0, length_dirent; simpl; lia|..].
  { rewrite E0, length_dirent. change (len []) with 0. change (nblk (0 + DIRENT_SIZE)) with 1. change (nblk 0) with 0. lia. }
  rewrite E0, length_dirent in B1. change (len []) with 0 in B1. change (nblk (0 + DIRENT_SIZE)) with 1 in B1. change (nblk 0) with 0 in B1.
  rewrite E0 in I1. cbn [app] in I1. pose proof (fupd_eq 1 (dirent_bytes ROOTINO (str ".")) C) as E1.
  destruct (iappend_run s1 _ 1 (dirent_bytes ROOTINO (str "..")) I1) as (s2 & R2 & I2 & N2 & B2); [lia|rewrite E1, !length_dirent; lia|..].
  { rewrite E1, !length_dirent. change (nblk (DIRENT_SIZE + DIRENT_SIZE)) with 1. change (nblk DIRENT_SIZE) with 1. lia. }
  rewrite E1, !length_dirent in B2. change (nblk (DIRENT_SIZE + DIRENT_SIZE)) with 1 in B2. change (nblk DIRENT_SIZE) with 1 in B2. rewrite E1 in I2.
  set (c2 := _ ++ _) in I2. assert (len c2 = 32) as El by (unfold c2; rewrite length_app, Nat2Z.inj_add, !length_dirent; done).
  destruct (add_files_run files s2 _ 2 ltac:(lia) I2) as (s3 & C3 & R3 & I3 & F1 & Fn & _ & N3);
    [lia|unfold NINODES; lia|done|rewrite fupd_eq; lia|..].
  { rewrite fupd_eq, El. change (nblk 32) with 1. replace (32 + DIRENT_SIZE * len files) with (DIRENT_SIZE * (2 + len files)) by lia. lia. }
  exists s3, C3. split_and!; try done.
  - rewrite (bind_ok _ _ _ _ _ R1), (bind_ok _ _ _ _ _ R2). done.
Qed.

Lemma bind_three {S A} (a b c : M S unit) (k : M S A) s s' : (a;; b;; c) s = Ok tt s' → (a;; b;; c;; k) s = k s'.
Proof.
  intros E. rewrite <- (bind_ok _ (λ _, k) _ _ _ E), bind_assoc. apply bind_ext. intros [] s1. by rewrite bind_assoc.
Qed.
Lemma mkfs_run files s0 : fits files → m_freeinode s0 = 1 → ∃ s C, mkfs files s0 = Ok tt s ∧ image (m_img s) (m_freeblock s) files C.
Proof.
  intros Hfit H0. destruct s0 as [img0 n0 fb0]. cbn [m_freeinode] in H0. subst n0. sizes. pose proof (ft_inodes _ Hfit) as Hi. set (sA := Mst start_img 1 nmeta).
  destruct (ialloc_run sA _ T_DIR minv_start) as (s1 & R1 & I1 & N1 & B1); [done..|]. change (m_freeinode sA) with ROOTINO in *.
  destruct (files_run files s1 _ Hfit I1) as (s2 & C2 & R2 & I2 & E2 & F2 & N2); [done|by rewrite N1|by rewrite B1|].
  pose proof (mi_n _ _ I2). unfold NINODES in *. assert (len (C2 1) = len (root_dir files)) as El by by rewrite E2.
  pose proof (length_root_dir files) as Hrl. change DIRENT_SIZE with 16 in Hrl. assert (ROOTINO = 1) as HR by done.
  pose proof (mi_kind _ _ I2 1 ltac:(lia)) as (K1 & K2 & K3 & K4). pose proof (mi_ok _ _ I2) as Bo. pose proof (bo_fb _ _ _ _ _ Bo).
  assert (0 ≤ root_size files < 2 ^ 32) as Hrs by (unfold root_size; Z.to_euclidean_division_equations; lia).
  destruct (winode_run ROOTINO (set_i_size (root_size files) (dinode_at (m_img s2) ROOTINO)) s2) as (D' & W1 & W2 & W3 & W4 & W5).
  { done. } { apply (fits_of s2 _ _ _ 1 _ Bo); try done; [lia|]. change (short (i_type (dinode_at (m_img s2) 1))). rewrite K1. done. }
  { apply (low_block s2 C2); done. }
  set (fb := m_freeblock s2) in *. destruct (set_bits_img fb ltac:(lia)) as [Hb1 Hb2].
  exists (Mst (fupd 45 (set_bits zeroes 0 (Z.to_nat fb)) D') (m_freeinode s2) fb), C2. split; [|by apply (image_of s2 C2 files D')].
  assert (∀ k : M mst unit, (modify (set_m_freeblock nmeta);; modify (set_m_img blank_img);; wsect 1 (splice zeroes 0 (sb_bytes mk_sb));; k) (Mst img0 1 fb0) = k sA) as Hst.
  { intros k. by apply bind_three. }
  unfold mkfs. rewrite Hst, (bind_ok _ _ _ _ _ R1). change (negb (ROOTINO =? ROOTINO)) with false. cbv iota. rewrite (bind_three _ _ _ _ _ _ R2).
  rewrite (bind_ok _ _ _ _ _ (rinode_run ROOTINO s2 (low_block _ _ _ I2 ltac:(done)))). rewrite (mi_size _ _ I2) by lia. cbv zeta.
  change (C2 ROOTINO) with (C2 1). rewrite El, (xint_id (len (root_dir files))) by lia. fold (root_size files).
  rewrite u32_small by done. rewrite xint_id by done. rewrite (bind_ok _ _ _ _ _ W1).
  rewrite (bind_ok (gets m_freeblock) _ (set_m_img D' s2) fb (set_m_img D' s2) eq_refl). unfold mkfs_balloc. rewrite s32_small by lia.
  replace (fb <? BPB) with true by (unfold BPB; lia). reflexivity.
Qed.

(** ** The image under the kernel

    A state of the kernel whose disk, seen through the buffer cache, is the image. *)
Definition on_disk (dev i : Z) (D : Z → list Z) : inode := set_i_dev dev (dinode_at D i).
Lemma on_disk_fields dev i D : let x := on_disk dev i D in let y := dinode_at D i in
  i_size x = i_size y ∧ i_type x = i_type y ∧ i_nlink x = i_nlink y ∧ i_addrs x = i_addrs y ∧ i_dev x = dev.
Proof. unfold on_disk. by generalize (dinode_at D i). Qed.
Lemma on_disk_ind dev i D : ind (on_disk dev i D) = ind_of (dinode_at D i).
Proof. unfold on_disk. by generalize (dinode_at D i). Qed.
Record boots (dev : Z) (D : Z → list Z) (k : kst) : Prop := {
  bt_sb : s_sb k = superblock_of (D 1);
  bt_blk b : 0 ≤ b < FSSIZE → blk dev k b = D b;
}.

Lemma layout_mkfs : layout 2 mk_sb.
Proof. by constructor. Qed.

Section kernel.
Variables (dev : Z) (D : Z → list Z) (k : kst) (fb : Z) (files : list file) (C : Z → list Z).
Hypothesis Him : image D fb files C.
Hypothesis Hboot : boots dev D k.
Hypothesis Hfit : fits files.

Lemma image_sb : superblock_of (D 1) = mk_sb.
Proof. rewrite (im_sb _ _ _ _ Him). by vm_compute. Qed.

Lemma used_image b : 0 ≤ b < FSSIZE → used dev mk_sb k b = (b <? fb).
Proof.
  intros Hb. sizes. unfold used. assert (BBLOCK b mk_sb = 45) as ->.
  { unfold BBLOCK. change BPB with 8192. change (sb_bmapstart mk_sb) with 45. rewrite Z.div_small by lia. done. }
  rewrite (bt_blk _ _ _ Hboot) by lia. change BPB with 8192. rewrite Z.mod_small by lia. apply (im_bit _ _ _ _ Him). change BPB with 8192. lia.
Qed.

Lemma bitmap_image : bitmap_ok dev mk_sb k.
Proof.
  pose proof (im_blocks _ _ _ _ Him) as B. sizes. pose proof (bo_fb _ _ _ _ _ B). constructor.
  - rewrite (bt_sb _ _ _ Hboot). apply image_sb.
  - intros b Hb. change (sb_size mk_sb) with 2000 in Hb. assert (BBLOCK b mk_sb = 45) as ->.
    { unfold BBLOCK. change BPB with 8192. change (sb_bmapstart mk_sb) with 45. rewrite Z.div_small by lia. done. }
    rewrite (bt_blk _ _ _ Hboot) by lia. apply (bo_len _ _ _ _ _ B). lia.
  - intros b Hb. change (data_start mk_sb) with 46 in Hb. rewrite used_image; lia.
Qed.

Abbreviation X := (dinode_at D).
Lemma addr_image i l : 1 ≤ i < 2 + len files → 0 ≤ l < MAXFILE → addr dev k (on_disk dev i D) l = slot D (X i) l.
Proof.
  intros Hi Hl. sizes. pose proof (im_blocks _ _ _ _ Him) as B. pose proof (bo_fb _ _ _ _ _ B).
  pose proof (bo_range _ _ _ _ _ B i (-1) Hi is_slot_ind) as Hr. rewrite slot_ind in Hr. pose proof (on_disk_fields dev i D) as (_ & _ & _ & H1 & _).
  unfold addr, slot, daddr. replace (l =? -1) with false by lia. destruct (l <? NDIRECT); [unfold addr_of; by rewrite H1|].
  rewrite on_disk_ind. destruct (ind_of (X i) =? 0) eqn:E; [done|]. by rewrite (bt_blk _ _ _ Hboot) by lia.
Qed.

Lemma data_block_image i l : 1 ≤ i < 2 + len files → is_slot l → slot D (X i) l ≠ 0 → data_block dev mk_sb k (slot D (X i) l).
Proof.
  intros Hi Hl Hn0. sizes. pose proof (im_blocks _ _ _ _ Him) as B. pose proof (bo_fb _ _ _ _ _ B). pose proof (bo_range _ _ _ _ _ B i l Hi Hl Hn0) as Hr.
  constructor.
  - change (data_start mk_sb) with 46. change (sb_size mk_sb) with 2000. lia.
  - rewrite used_image; lia.
  - rewrite (bt_blk _ _ _ Hboot) by lia. apply (bo_len _ _ _ _ _ B). lia.
Qed.

(** A file whose size is covered by its blocks. *)
Lemma file_image i : 1 ≤ i < 2 + len files → 0 ≤ i_size (X i) ≤ MAXFILE * BSIZE → (∀ l, 0 ≤ l → l * BSIZE < i_size (X i) → slot D (X i) l ≠ 0) →
  file_ok dev mk_sb k (on_disk dev i D).
Proof.
  intros Hi Hs Hm. sizes. pose proof (im_blocks _ _ _ _ Him) as B. assert (∀ l, 0 ≤ l < MAXFILE → is_slot l) as Sl by (intros l Hl; split; lia).
  pose proof (on_disk_fields dev i D) as (F1 & _ & _ & F4 & F5). constructor; rewrite ?F1, ?on_disk_ind, <- ?(slot_ind D).
  - exact F5.
  - rewrite F4. apply (bo_addrs _ _ _ _ _ B i Hi).
  - exact Hs.
  - intros l Hl Hlt. rewrite addr_image by (done || nia). by apply Hm.
  - intros l Hl. rewrite addr_image by done. intros Hn0. apply data_block_image; auto.
  - intros j l Hj Hl. rewrite !addr_image by done. intros E Hn0. apply (bo_inj _ _ _ _ _ B i j i l); auto.
  - intros Hn0. by apply (data_block_image i (-1) Hi is_slot_ind).
  - intros l Hl Hn0. rewrite addr_image by done. intros E.
    destruct (bo_inj _ _ _ _ _ B i (-1) i l Hi is_slot_ind Hi (Sl l Hl) (eq_sym E) Hn0). lia.
Qed.

Lemma content_image i n : 1 ≤ i < 2 + len files → 0 ≤ n ≤ MAXFILE * BSIZE → (∀ l, 0 ≤ l → l * BSIZE < n → slot D (X i) l ≠ 0) → len (C i) ≤ n →
  content dev k (on_disk dev i D) 0 n = C i ++ replicate (Z.to_nat (n - len (C i))) 0.
Proof.
  intros Hi Hn Hm Hlen. sizes. pose proof (im_blocks _ _ _ _ Him) as B. pose proof (bo_fb _ _ _ _ _ B). unfold content. apply list_eq. intros o. rewrite list_lookup_fmap.
  destruct (decide (Z.of_nat o < n)) as [Ho|Ho].
  - rewrite lookup_seqZ_lt by lia. cbn [fmap option_fmap option_map]. rewrite !Z.add_0_l. unfold byte.
    assert (0 ≤ Z.of_nat o / BSIZE < MAXFILE ∧ Z.of_nat o / BSIZE * BSIZE < n) as [Hl1 Hl2] by (Z.to_euclidean_division_equations; lia).
    assert (is_slot (Z.of_nat o / BSIZE)) as Hl by (split; lia). pose proof (Hm _ (proj1 Hl1) Hl2) as Hn0.
    pose proof (bo_range _ _ _ _ _ B i _ Hi Hl Hn0). rewrite addr_image, (bt_blk _ _ _ Hboot) by (done || lia).
    rewrite (bo_byte _ _ _ _ _ B i _ _ Hi Hl1 Hn0) by (apply Z.mod_pos_bound; lia).
    replace (Z.of_nat o / BSIZE * BSIZE + Z.of_nat o mod BSIZE) with (Z.of_nat o) by (pose proof (Z.div_mod (Z.of_nat o) BSIZE); lia). rewrite Nat2Z.id.
    destruct (decide (o < length (C i))%nat) as [Hc|Hc].
    + rewrite lookup_app_l by done. destruct (lookup_lt_is_Some_2 _ _ Hc) as [v Hv]. rewrite Hv. by rewrite nth_lookup, Hv.
    + rewrite lookup_app_r by lia. rewrite lookup_replicate_2 by lia. by rewrite nth_overflow by lia.
  - rewrite lookup_seqZ_ge by lia. symmetry. apply lookup_ge_None. rewrite length_app, length_replicate. lia.
Qed.
End kernel.

(** ** The theorems *)

(** The last block of the root directory is there when its entries do not end with a block. *)
Lemma root_mapped D fb files C l : image D fb files C → fits files → (2 + len files) mod 64 ≠ 0 → 0 ≤ l → l * BSIZE < root_size files →
  slot D (dinode_at D ROOTINO) l ≠ 0.
Proof.
  intros I Hfit Hmod Hl Hlt. sizes. pose proof (length_root_dir files) as Hr. change DIRENT_SIZE with 16 in Hr. unfold root_size in Hlt.
  apply (bo_map _ _ _ _ _ (im_blocks _ _ _ _ I)); [change ROOTINO with 1; lia|done|]. change (C ROOTINO) with (C 1). rewrite (im_root _ _ _ _ I).
  rewrite HBSIZE in *. Z.to_euclidean_division_equations. lia.
Qed.
Lemma root_size_bounds files : fits files → len (root_dir files) ≤ root_size files ≤ MAXFILE * BSIZE.
Proof.
  intros [_ Hi _]. sizes. pose proof (length_root_dir files) as Hr. change DIRENT_SIZE with 16 in Hr. unfold NINODES in Hi. unfold root_size. rewrite HBSIZE, HMAXFILE.
  Z.to_euclidean_division_equations. lia.
Qed.

(** C4: mkfs makes a file system that the kernel can use.  For files whose names have no
    slash and at most DIRSIZ bytes, that fit in the inodes and blocks of the disk, and whose
    entries with "." and ".." do not exactly fill the blocks of the root directory, mkfs
    does not fail.  The super block says where things are and the log is empty.  In every state of
    the kernel that has this disk, the bitmap has exactly the blocks that are in use, the
    root directory is a file with the entries ".", ".." and those of the files, inode 2 + j
    is a file with the bytes of the j-th, and no block belongs to two of them. *)
Theorem mkfs_makes_filesystem files s0 : fits files → (2 + len files) mod 64 ≠ 0 → m_freeinode s0 = 1 →
  ∃ s, mkfs files s0 = Ok tt s ∧ let D := m_img s in let x dev i := on_disk dev i D in
    superblock_of (D 1) = mk_sb ∧ layout 2 mk_sb ∧ (∀ b, 2 ≤ b < 2 + LOGSIZE → D b = zeroes) ∧
    (∀ i, 2 + len files ≤ i < NINODES → i_type (dinode_at D i) = 0) ∧
    ∀ dev k, boots dev D k →
      bitmap_ok dev mk_sb k ∧ (∀ b, 0 ≤ b < FSSIZE → used dev mk_sb k b = (b <? m_freeblock s)) ∧
      (file_ok dev mk_sb k (x dev ROOTINO) ∧ i_type (x dev ROOTINO) = T_DIR ∧ ∃ pad,
        content dev k (x dev ROOTINO) 0 (i_size (x dev ROOTINO)) = root_dir files ++ replicate pad 0) ∧
      (∀ j f, files !! j = Some f → let y := x dev (2 + Z.of_nat j) in
        file_ok dev mk_sb k y ∧ i_type y = T_FILE ∧ i_nlink y = 1 ∧ i_size y = len (file_bytes f) ∧ content dev k y 0 (i_size y) = file_bytes f) ∧
      (∀ i j a b, 1 ≤ i < 2 + len files → 1 ≤ j < 2 + len files → 0 ≤ a < MAXFILE → 0 ≤ b < MAXFILE →
        addr dev k (x dev i) a = addr dev k (x dev j) b → addr dev k (x dev i) a ≠ 0 → i = j ∧ a = b).
Proof.
  intros Hfit Hmod H0. destruct (mkfs_run files s0 Hfit H0) as (s & C & R & I). exists s. split; [done|]. cbv zeta. set (D := m_img s) in *. sizes.
  pose proof (im_blocks _ _ _ _ I) as B. pose proof (root_size_bounds _ Hfit) as Hrs.
  split_and!; [by apply (image_sb D (m_freeblock s) files C)|apply layout_mkfs|apply (im_log _ _ _ _ I)|apply (im_unused _ _ _ _ I)|].
  intros dev k Hb. assert (1 ≤ ROOTINO < 2 + len files) as Hr by (unfold ROOTINO; lia).
  pose proof (im_size _ _ _ _ I ROOTINO Hr) as Hsz. rewrite Z.eqb_refl in Hsz.
  pose proof (on_disk_fields dev ROOTINO D) as (Fs & Ft & _). split_and!.
  - by apply (bitmap_image dev D k (m_freeblock s) files C).
  - intros b. by apply (used_image dev D k (m_freeblock s) files C).
  - apply (file_image dev D k (m_freeblock s) files C); [done..|rewrite Hsz; lia|]. intros l Hl. rewrite Hsz. by apply (root_mapped D (m_freeblock s) files C).
  - rewrite Ft. apply (im_kind _ _ _ _ I ROOTINO Hr).
  - exists (Z.to_nat (root_size files - len (C 1))). rewrite Fs, Hsz.
    rewrite <- (im_root _ _ _ _ I). apply (content_image dev D k (m_freeblock s) files C); [done..|lia| |].
    + intros l Hl. by apply (root_mapped D (m_freeblock s) files C).
    + change (C ROOTINO) with (C 1). rewrite (im_root _ _ _ _ I). lia.
  - intros j f Hj. pose proof (lookup_lt_Some _ _ _ Hj). clear Hr Hsz. assert (1 ≤ 2 + Z.of_nat j < 2 + len files) as Hr by lia.
    pose proof (im_size _ _ _ _ I _ Hr) as Hsz. pose proof (im_kind _ _ _ _ I _ Hr) as [Hk1 Hk2].
    replace (2 + Z.of_nat j =? ROOTINO) with false in * by (unfold ROOTINO; lia).
    pose proof (on_disk_fields dev (2 + Z.of_nat j) D) as (F1 & F2 & F3 & _). rewrite Hsz in F1. pose proof (bo_size _ _ _ _ _ B _ Hr).
    pose proof (λ l, bo_map _ _ _ _ _ B (2 + Z.of_nat j) l Hr) as Hm. rewrite F1, F2, F3. split_and!.
    + apply (file_image dev D k (m_freeblock s) files C); [done..|rewrite Hsz; lia|]. intros l Hl. rewrite Hsz. by apply Hm.
    + exact Hk1.
    + exact Hk2.
    + by rewrite (im_file _ _ _ _ I _ _ Hj).
    + rewrite (content_image dev D k (m_freeblock s) files C) by (done || lia || auto). rewrite Z.sub_diag, app_nil_r. by apply (im_file _ _ _ _ I).
  - intros i j a b Hi Hj Ha Hb'. rewrite !(addr_image dev D k (m_freeblock s) files C) by done. intros E Hn0.
    apply (bo_inj _ _ _ _ _ B i a j b); try done; split; lia.
Qed.

Lemma mkfs_makes_filesystem_witness : let files := [(str "user/_cat", [str "ELF"; str "code"]); (str "README", [str "xv6"])] in let s0 := Mst (λ _, []) 1 0 in
  fits files ∧ file_name <$> files = [str "cat"; str "README"] ∧ ∃ s, mkfs files s0 = Ok tt s ∧ superblock_of (m_img s 1) = mk_sb.
Proof.
  intros files s0. assert (fits files) as Hfit.
  { constructor; [|done|by vm_compute]. do 2 (apply Forall_cons; split; [constructor; [apply (bool_decide_unpack _); by vm_compute|done|done]|]). done. }
  split; [done|]. split; [done|]. destruct (mkfs_makes_filesystem files s0 Hfit) as (s & R & Hsb & _); [by vm_compute|done|]. exists s. exact (conj R Hsb).
Defined.

(** The size of the root directory is rounded up by a block too many when the entries end
    with a block: then the last block of the directory is missing. *)
Lemma mkfs_root_hole files s0 : fits files → (2 + len files) mod 64 = 0 → m_freeinode s0 = 1 →
  ∃ s, mkfs files s0 = Ok tt s ∧ ∀ dev k, boots dev (m_img s) k → let x := on_disk dev ROOTINO (m_img s) in
    ∃ l, 0 ≤ l ∧ l * BSIZE < i_size x ∧ addr dev k x l = 0.
Proof.
  intros Hfit Hmod H0. destruct (mkfs_run files s0 Hfit H0) as (s & C & R & I). exists s. split; [done|]. intros dev k Hb x. sizes.
  assert (1 ≤ ROOTINO < 2 + len files) as Hr by (unfold ROOTINO; lia). pose proof (im_size _ _ _ _ I ROOTINO Hr) as Hsz. rewrite Z.eqb_refl in Hsz.
  pose proof (length_root_dir files) as Hrl. change DIRENT_SIZE with 16 in Hrl. pose proof (root_size_bounds _ Hfit) as Hrs. unfold root_size in *.
  set (l := len (root_dir files) / BSIZE) in *. assert (l * BSIZE = len (root_dir files)) as El by (unfold l; rewrite HBSIZE; Z.to_euclidean_division_equations; lia).
  exists l. split; [lia|]. split; [pose proof (on_disk_fields dev ROOTINO (m_img s)) as [F1 _]; unfold x; lia|].
  unfold x. rewrite (addr_image dev _ k (m_freeblock s) files C) by (done || lia). pose proof (im_exact _ _ _ _ I ROOTINO Hr) as [Hex _].
  destruct (decide (slot (m_img s) (dinode_at (m_img s) ROOTINO) l = 0)) as [|Hn0]; [done|]. pose proof (Hex l ltac:(lia) Hn0) as H1.
  change (C ROOTINO) with (C 1) in H1. rewrite (im_root _ _ _ _ I) in H1. lia.
Qed.
