(* ===== verification/Umalloc.v ===== *)
(** * The allocator of the user programs (user/umalloc.c)

    The memory of the process is a map from addresses to bytes; every load and store of
    the allocator is one of its bytes, and one above the pages that the process has is a
    page fault, which kills the process (a panic here).  sbrk is the system call of
    kernel/sysproc.c as a process sees it: the kernel may refuse to grow the process, and
    the state has its answers; a positive request is granted only as far as the machine
    has memory.

    The theorems relate the allocator to what its users rely on: blocks of bytes that are
    theirs until they free them. *)
From stdpp Require Import gmap sorting.
From S2P Require Import Prelude Mem Riscv.
Open Scope Z_scope.

(** The address of the static [base]. *)
Class UserImage := base : Z.

Record ust := Ust {
  u_mem : mem;
  u_brk : Z;
  u_freep : Z;
  u_answers : list bool;
}.
Definition set_u_mem (v : mem) (r : ust) : ust := Ust v (u_brk r) (u_freep r) (u_answers r).
Definition set_u_freep (v : Z) (r : ust) : ust := Ust (u_mem r) (u_brk r) v (u_answers r).

(** ** union header *)

Definition HEADER : Z := 16.
Definition ptr (m : mem) (p : Z) : Z := load64 m p.
Definition size (m : mem) (p : Z) : Z := load_le m (p + 8) 4.

(** The process has the pages below its break. *)
Definition mapped (a n : Z) (s : ust) : bool := (0 <=? a) && (a + n <=? PGROUNDUP (u_brk s)).
Definition access (a n : Z) : M ust unit :=
  b ← gets (mapped a n);
  if b : bool then mret tt else panic "usertrap".
Definition get_ptr (p : Z) : M ust Z := access p 8;; gets (λ s, ptr (u_mem s) p).
Definition get_size (p : Z) : M ust Z := access (p + 8) 4;; gets (λ s, size (u_mem s) p).
Definition put_ptr (p v : Z) : M ust unit := access p 8;; modify (λ s, set_u_mem (store64 (u_mem s) p v) s).
Definition put_size (p v : Z) : M ust unit := access (p + 8) 4;; modify (λ s, set_u_mem (store_le (u_mem s) (p + 8) 4 v) s).
(** [p + n] for a pointer to Header. *)
Definition header_add (p n : Z) : Z := u64 (p + HEADER * n).

(** ** sbrk *)

(** The kernel has no more memory than this for a process. *)
Definition brk_max : Z := PHYSTOP - KERNBASE.
(** growproc for [n > 0]: new pages are zero; [n < 0] gives pages up (uvmdealloc ignores a
    size that is not smaller). *)
Definition sbrk (n : Z) : M ust Z := λ s,
  let sz := u_brk s in
  if n >? 0 then
    match u_answers s with
    | true :: l =>
        if sz + n <=? brk_max then
          Ok sz (Ust (λ x, if (PGROUNDUP sz <=? x) && (x <? PGROUNDUP (sz + n)) then 0 else u_mem s x) (sz + n) (u_freep s) l)
        else Ok (u64 (-1)) (Ust (u_mem s) sz (u_freep s) l)
    | l => Ok (u64 (-1)) (Ust (u_mem s) sz (u_freep s) (tail l))
    end
  else if n <? 0 then Ok sz (Ust (u_mem s) (if u64 (sz + n) >=? sz then sz else u64 (sz + n)) (u_freep s) (u_answers s))
  else Ok sz s.

(** ** free *)

(** [for(p = freep; !(bp > p && bp < p->s.ptr); p = p->s.ptr)
       if(p >= p->s.ptr && (bp > p || bp < p->s.ptr)) break;] *)
Definition find_turn (bp p : Z) : M ust (Z + Z) :=
  nxt ← get_ptr p;
  if (bp >? p) && (bp <? nxt) then mret (inr p)
  else if (p >=? nxt) && ((bp >? p) || (bp <? nxt)) then mret (inr p)
  else mret (inl nxt).

(** No more headers than the memory has room for. *)
Definition headers (s : ust) : nat := Z.to_nat (u_brk s / HEADER).

(** [if(bp + bp->s.size == p->s.ptr){ ... } else bp->s.ptr = p->s.ptr;] *)
Definition join_next (bp p : Z) : M ust unit :=
  sz ← get_size bp;
  nxt ← get_ptr p;
  if header_add bp sz =? nxt then
    nsz ← get_size nxt;
    put_size bp (u32 (sz + nsz));;
    nxt ← get_ptr p;
    nn ← get_ptr nxt;
    put_ptr bp nn
  else put_ptr bp nxt.
(** [if(p + p->s.size == bp){ ... } else p->s.ptr = bp;] *)
Definition join_prev (bp p : Z) : M ust unit :=
  psz ← get_size p;
  if header_add p psz =? bp then
    sz ← get_size bp;
    put_size p (u32 (psz + sz));;
    nn ← get_ptr bp;
    put_ptr p nn
  else put_ptr p bp.
Definition free (ap : Z) : M ust unit :=
  let bp := u64 (ap - HEADER) in
  freep ← gets u_freep;
  n ← gets headers;
  p ← loop (2 * n + 4) (find_turn bp) freep;
  join_next bp p;;
  join_prev bp p;;
  modify (set_u_freep p).

(** ** malloc *)

Definition morecore (nu : Z) : M ust Z :=
  let nu := if nu <? 4096 then 4096 else nu in
  p ← sbrk (s32 (nu * HEADER));
  if p =? u64 (-1) then mret 0 else
  put_size p nu;;
  free (header_add p 1);;
  gets u_freep.

(** The body of the loop for [prevp] and [p]. *)
Definition malloc_turn (nunits : Z) '((prevp, p) : Z * Z) : M ust ((Z * Z) + Z) :=
  sz ← get_size p;
  if sz >=? nunits then
    p ← (if sz =? nunits then
           nxt ← get_ptr p;
           put_ptr prevp nxt;;
           mret p
         else
           put_size p (u32 (sz - nunits));;
           sz ← get_size p;
           let p := header_add p sz in
           put_size p nunits;;
           mret p);
    modify (set_u_freep prevp);;
    mret (inr (header_add p 1))
  else
    freep ← gets u_freep;
    if p =? freep then
      p ← morecore nunits;
      if p =? 0 then mret (inr 0) else
      nxt ← get_ptr p;
      mret (inl (p, nxt))
    else
      nxt ← get_ptr p;
      mret (inl (p, nxt)).

Definition malloc `{!UserImage} (nbytes : Z) : M ust Z :=
  let nunits := u32 ((nbytes + HEADER - 1) / HEADER + 1) in
  freep ← gets u_freep;
  prevp ← (if freep =? 0 then
             modify (set_u_freep base);;
             put_ptr base base;;
             put_size base 0;;
             mret base
           else mret freep);
  p ← get_ptr prevp;
  n ← gets headers;
  loop (2 * n + 4) (malloc_turn nunits) (prevp, p).

(** ** Headers in memory *)

(** The bytes of the headers at [l] are the only ones that may differ. *)
Definition only_at (l : list Z) (m m' : mem) : Prop := ∀ x, (∀ z, z ∈ l → ¬ z ≤ x < z + HEADER) → m' x = m x.
Definition apart (x y : Z) : Prop := x + HEADER ≤ y ∨ y + HEADER ≤ x.

Lemma ptr_only l m m' p : only_at l m m' → (∀ z, z ∈ l → apart p z) → ptr m' p = ptr m p.
Proof. intros H Ha. unfold ptr. apply load64_ext. intros x Hx. apply H. intros z Hz. pose proof (Ha z Hz). unfold apart, HEADER in *. lia. Qed.
Lemma size_only l m m' p : only_at l m m' → (∀ z, z ∈ l → apart p z) → size m' p = size m p.
Proof. intros H Ha. unfold size. apply load_le_ext. intros x Hx. apply H. intros z Hz. pose proof (Ha z Hz). unfold apart, HEADER in *. lia. Qed.
Lemma only_at_refl l m : only_at l m m.
Proof. done. Qed.
Lemma only_at_trans l m1 m2 m3 : only_at l m1 m2 → only_at l m2 m3 → only_at l m1 m3.
Proof. intros H1 H2 x Hx. by rewrite H2, H1. Qed.
Lemma only_at_mono l l' m m' : (∀ z, z ∈ l → z ∈ l') → only_at l m m' → only_at l' m m'.
Proof. intros H1 H2 x Hx. apply H2. auto. Qed.

Definition st_ptr (p v : Z) (m : mem) : mem := store64 m p v.
Definition st_size (p v : Z) (m : mem) : mem := store_le m (p + 8) 4 v.
Lemma only_ptr p v m : only_at [p] m (st_ptr p v m).
Proof. intros x Hx. unfold st_ptr. rewrite store64_other; [done|]. pose proof (Hx p ltac:(by apply list_elem_of_singleton)). unfold HEADER in *. lia. Qed.
Lemma only_size p v m : only_at [p] m (st_size p v m).
Proof. intros x Hx. unfold st_size. rewrite store_le_other; [done|]. pose proof (Hx p ltac:(by apply list_elem_of_singleton)). unfold HEADER in *. lia. Qed.
Lemma ptr_st_ptr p v m : 0 ≤ v < 2 ^ 64 → ptr (st_ptr p v m) p = v.
Proof. intros Hv. unfold ptr, st_ptr. rewrite load64_store64_eq. by apply u64_small. Qed.
Lemma size_st_size p v m : 0 ≤ v < 2 ^ 32 → size (st_size p v m) p = v.
Proof. intros Hv. unfold size, st_size. rewrite load_store_le. apply Z.mod_small. done. Qed.
Lemma size_st_ptr p v m : size (st_ptr p v m) p = size m p.
Proof. unfold size, st_ptr. apply load_le_ext. intros x Hx. apply store64_other. lia. Qed.
Lemma ptr_st_size p v m : ptr (st_size p v m) p = ptr m p.
Proof. unfold ptr, st_size. apply load64_ext. intros x Hx. apply store_le_other. lia. Qed.

(** ** The ring of free blocks

    [links m x l]: from the header [x] the pointers lead through [l]. *)
Fixpoint links (m : mem) (x : Z) (l : list Z) : Prop :=
  match l with [] => True | y :: l => ptr m x = y ∧ links m y l end.
(** The last header on the way. *)
Definition end_of (x : Z) (l : list Z) : Z := default x (last l).

Lemma end_of_cons x y l : end_of x (y :: l) = end_of y l.
Proof. unfold end_of. rewrite last_cons. by destruct (last l). Qed.
Lemma end_of_snoc x l y : end_of x (l ++ [y]) = y.
Proof. unfold end_of. by rewrite last_snoc. Qed.
Lemma end_of_in x l : end_of x l ∈ x :: l.
Proof. unfold end_of. destruct (last l) eqn:E; [|left]. right. by apply last_Some_elem_of. Qed.
Lemma links_app m x l1 l2 : links m x (l1 ++ l2) ↔ links m x l1 ∧ links m (end_of x l1) l2.
Proof.
  revert x. induction l1 as [|y l1 IH]; intros x; simpl; [tauto|]. rewrite IH, end_of_cons. tauto.
Qed.

Lemma links_ext m m' x l : (∀ z, z ∈ x :: l → z ≠ end_of x l → ptr m' z = ptr m z) → NoDup (x :: l) → links m x l → links m' x l.
Proof.
  revert x. induction l as [|y l IH]; intros x H Hnd; simpl; [done|]. rewrite end_of_cons in H. intros [H1 H2].
  apply NoDup_cons in Hnd as [Hx Hnd]. split.
  - rewrite H; [done|left|]. intros ->. apply Hx, end_of_in.
  - apply IH; [|done|done]. intros z Hz. apply H. by right.
Qed.
(** Leaving from another header with the same pointer. *)
Lemma links_from m m' x y l : links m y l → ptr m' x = ptr m y → (∀ z, z ∈ l → ptr m' z = ptr m z) →
  links m' x l ∧ ptr m' (end_of x l) = ptr m (end_of y l).
Proof.
  revert x y. induction l as [|z l IH]; intros x y; [done|]. cbn [links]. rewrite !end_of_cons. intros [H1 H2] E Hl.
  destruct (IH z z H2) as [IH1 IH2]; [apply Hl; left|intros w Hw; apply Hl; by right|]. split; [split; [congruence|done]|done].
Qed.

Definition ring `{!UserImage} (m : mem) (l : list Z) : Prop := links m base l ∧ ptr m (end_of base l) = base.

(** ** The blocks of the heap

    From the first break on, the memory is a sequence of blocks: free ones, ones in use,
    and memory that others got with sbrk, whose length is in bytes. *)
Inductive bkind := BFree | BUsed | BGap.
Abbreviation block := (bkind * Z)%type.
Definition is_free (k : bkind) : bool := match k with BFree => true | _ => false end.
Definition is_gap (k : bkind) : bool := match k with BGap => true | _ => false end.
Definition blen (b : block) : Z := if is_gap b.1 then b.2 else HEADER * b.2.

Fixpoint total (B : list block) : Z := match B with [] => 0 | b :: B => blen b + total B end.
Fixpoint frees (lo : Z) (B : list block) : list Z :=
  match B with [] => [] | b :: B => (if is_free b.1 then [lo] else []) ++ frees (lo + blen b) B end.
Fixpoint starts (lo : Z) (B : list block) : list Z :=
  match B with [] => [] | b :: B => (if is_gap b.1 then [] else [lo]) ++ starts (lo + blen b) B end.
(** The headers have the sizes of their blocks. *)
Fixpoint sized (m : mem) (lo : Z) (B : list block) : Prop :=
  match B with [] => True | b :: B => (is_gap b.1 = false → size m lo = b.2) ∧ sized m (lo + blen b) B end.
(** Free blocks are not neighbours; [p] says that the block before is free. *)
Fixpoint coalesced (p : bool) (B : list block) : Prop :=
  match B with [] => True | b :: B => p && is_free b.1 = false ∧ coalesced (is_free b.1) B end.
Definition ends_free (p : bool) (B : list block) : bool := default p (is_free ∘ fst <$> last B).
(** The memory that is not the allocator's. *)
Fixpoint gaps (B : list block) : list block := match B with [] => [] | b :: B => (if is_gap b.1 then [b] else []) ++ gaps B end.
Definition pos (B : list block) : Prop := Forall (λ b, 1 ≤ b.2) B.

Lemma total_app B1 B2 : total (B1 ++ B2) = total B1 + total B2.
Proof. induction B1; simpl; lia. Qed.
Lemma gaps_app B1 B2 : gaps (B1 ++ B2) = gaps B1 ++ gaps B2.
Proof. induction B1 as [|b B1 IH]; simpl; [done|]. by rewrite IH, app_assoc. Qed.
Lemma frees_app lo B1 B2 : frees lo (B1 ++ B2) = frees lo B1 ++ frees (lo + total B1) B2.
Proof. revert lo. induction B1 as [|b B1 IH]; intros lo; simpl; [by rewrite Z.add_0_r|]. by rewrite IH, <- app_assoc, Z.add_assoc. Qed.
Lemma starts_app lo B1 B2 : starts lo (B1 ++ B2) = starts lo B1 ++ starts (lo + total B1) B2.
Proof. revert lo. induction B1 as [|b B1 IH]; intros lo; simpl; [by rewrite Z.add_0_r|]. by rewrite IH, <- app_assoc, Z.add_assoc. Qed.
Lemma sized_app m lo B1 B2 : sized m lo (B1 ++ B2) ↔ sized m lo B1 ∧ sized m (lo + total B1) B2.
Proof. revert lo. induction B1 as [|b B1 IH]; intros lo; simpl; [rewrite Z.add_0_r; tauto|]. rewrite IH, <- Z.add_assoc. tauto. Qed.
Lemma coalesced_app p B1 B2 : coalesced p (B1 ++ B2) ↔ coalesced p B1 ∧ coalesced (ends_free p B1) B2.
Proof.
  revert p. induction B1 as [|b B1 IH]; intros p; simpl; [tauto|]. rewrite IH.
  replace (ends_free (is_free b.1) B1) with (ends_free p (b :: B1)); [tauto|]. unfold ends_free. rewrite last_cons. by destruct (last B1).
Qed.
Lemma pos_app B1 B2 : pos (B1 ++ B2) ↔ pos B1 ∧ pos B2.
Proof. apply Forall_app. Qed.
Lemma sized_ext m m' lo B : (∀ z, z ∈ starts lo B → size m' z = size m z) → sized m lo B → sized m' lo B.
Proof.
  revert lo. induction B as [|b B IH]; intros lo H; simpl; [done|]. intros [H1 H2]. split.
  - intros E. rewrite H; [auto|]. simpl. rewrite E. left.
  - apply IH; [|done]. intros z Hz. apply H. simpl. apply elem_of_app. by right.
Qed.

Lemma blen_pos b : 1 ≤ b.2 → 1 ≤ blen b ∧ (is_gap b.1 = false → blen b = HEADER * b.2).
Proof. unfold blen, HEADER. destruct (is_gap b.1); simpl; [done|lia]. Qed.
Lemma total_nonneg B : pos B → 0 ≤ total B.
Proof. induction 1 as [|b B Hb _ IH]; simpl; [done|]. pose proof (blen_pos b Hb). lia. Qed.
Lemma frees_starts lo B z : z ∈ frees lo B → z ∈ starts lo B.
Proof.
  revert lo. induction B as [|[k n] B IH]; intros lo; simpl; [done|]. rewrite !elem_of_app. intros [H|H]; [|right; auto]. left. destruct k; simpl in *; [done|by apply elem_of_nil in H..].
Qed.
Lemma starts_range lo B z : pos B → z ∈ starts lo B → lo ≤ z ∧ z + HEADER ≤ lo + total B.
Proof.
  intros HB. revert lo. induction HB as [|b B Hb HB IH]; intros lo; simpl; [by intros ?%elem_of_nil|]. pose proof (blen_pos b Hb) as [H1 H2].
  pose proof (total_nonneg B HB). rewrite elem_of_app. intros [Hz|Hz].
  - destruct (is_gap b.1); [by apply elem_of_nil in Hz|]. apply list_elem_of_singleton in Hz as ->. unfold HEADER in *. lia.
  - apply IH in Hz. lia.
Qed.
Lemma starts_apart lo B x y : pos B → x ∈ starts lo B → y ∈ starts lo B → x ≠ y → apart x y.
Proof.
  intros HB. revert lo. induction HB as [|b B Hb HB IH]; intros lo; simpl; [by intros ?%elem_of_nil|]. pose proof (blen_pos b Hb) as [H1 H2].
  assert (∀ z, z ∈ starts (lo + blen b) B → is_gap b.1 = false → lo + HEADER ≤ z) as Hz.
  { intros z Hz E. apply starts_range in Hz; [|done]. unfold HEADER in *. lia. }
  rewrite !elem_of_app. destruct (is_gap b.1); rewrite ?list_elem_of_singleton, ?elem_of_nil; intros [Hx|Hx] [Hy|Hy] Hne; try done; try (by eapply IH).
  - congruence.
  - subst. left. auto.
  - subst. right. auto.
Qed.
Lemma frees_sorted lo B : pos B → StronglySorted Z.lt (frees lo B) ∧ Forall (λ z, lo ≤ z) (frees lo B).
Proof.
  intros HB. split.
  - revert lo. induction HB as [|b B Hb HB IH]; intros lo; simpl; [constructor|]. destruct (is_free b.1) eqn:E; simpl; [|auto]. constructor; [auto|].
    apply Forall_forall. intros z Hz%frees_starts. apply starts_range in Hz; [|done]. pose proof (blen_pos b Hb). lia.
  - apply Forall_forall. intros z Hz%frees_starts. apply starts_range in Hz; [|done]. lia.
Qed.
Lemma length_frees lo B : pos B → HEADER * Z.of_nat (length (frees lo B)) ≤ total B.
Proof.
  intros HB. revert lo. induction HB as [|b B Hb HB IH]; intros lo; simpl; [unfold HEADER; lia|]. rewrite length_app. specialize (IH (lo + blen b)).
  pose proof (blen_pos b Hb) as [H1 H2]. unfold HEADER in *. destruct b as [[] n]; simpl in *; lia.
Qed.

(** ** Loads and stores that do not fault *)

Definition room (z : Z) (s : ust) : Prop := 0 ≤ z ∧ z + HEADER ≤ u_brk s ≤ brk_max.

Lemma access_run a n z s : room z s → z ≤ a → 0 ≤ n → a + n ≤ z + HEADER → access a n s = Ok tt s.
Proof.
  intros [H1 H2] H3 H4 H5. unfold access. rewrite (bind_ok (gets (mapped a n)) _ s (mapped a n s) s eq_refl).
  assert (mapped a n s = true) as ->; [|done]. unfold mapped. assert (brk_max = 134217728) by done. assert (PGSIZE = 4096) by done. unfold HEADER in *.
  pose proof (PGROUNDUP_bounds (u_brk s)). lia.
Qed.
Lemma get_ptr_run z s : room z s → get_ptr z s = Ok (ptr (u_mem s) z) s.
Proof. intros H. unfold get_ptr. rewrite (bind_ok _ _ _ _ _ (access_run z 8 z s H ltac:(lia) ltac:(lia) ltac:(unfold HEADER; lia))). done. Qed.
Lemma get_size_run z s : room z s → get_size z s = Ok (size (u_mem s) z) s.
Proof. intros H. unfold get_size. rewrite (bind_ok _ _ _ _ _ (access_run (z + 8) 4 z s H ltac:(lia) ltac:(lia) ltac:(unfold HEADER; lia))). done. Qed.
Lemma put_ptr_run z v s : room z s → put_ptr z v s = Ok tt (set_u_mem (st_ptr z v (u_mem s)) s).
Proof. intros H. unfold put_ptr. rewrite (bind_ok _ _ _ _ _ (access_run z 8 z s H ltac:(lia) ltac:(lia) ltac:(unfold HEADER; lia))). done. Qed.
Lemma put_size_run z v s : room z s → put_size z v s = Ok tt (set_u_mem (st_size z v (u_mem s)) s).
Proof. intros H. unfold put_size. rewrite (bind_ok _ _ _ _ _ (access_run (z + 8) 4 z s H ltac:(lia) ltac:(lia) ltac:(unfold HEADER; lia))). done. Qed.
Lemma room_mem z m s : room z s → room z (set_u_mem m s).
Proof. done. Qed.
Lemma room_range z s : room z s → 0 ≤ z < 2 ^ 63.
Proof. intros [H1 H2]. assert (brk_max = 134217728) by done. unfold HEADER in *. lia. Qed.
Lemma header_add_small z n s : room z s → 0 ≤ n < 2 ^ 32 → header_add z n = z + HEADER * n.
Proof. intros H Hn. apply room_range in H. apply u64_small. unfold HEADER. lia. Qed.

(** ** The invariant *)

Section heap.
Context `{UI : !UserImage}.
Variable h0 : Z.

Record heap_inv (s : ust) (B : list block) : Prop := {
  hi_base : 0 < base ∧ base + HEADER ≤ h0;
  hi_brk : h0 + total B = u_brk s ∧ u_brk s ≤ brk_max;
  hi_pos : pos B;
  hi_coal : coalesced false B;
  hi_sized : sized (u_mem s) h0 B;
  hi_bsize : size (u_mem s) base = 0;
  hi_ring : ring (u_mem s) (frees h0 B);
  hi_freep : u_freep s ∈ base :: frees h0 B;
}.

Lemma node_room s B z : heap_inv s B → z ∈ base :: starts h0 B → room z s.
Proof.
  intros [H1 H2 H3 _ _ _ _ _] [->|Hz]%elem_of_cons; unfold room.
  - pose proof (total_nonneg B H3). lia.
  - apply starts_range in Hz; [|done]. unfold HEADER in *. lia.
Qed.
Lemma node_apart s B x y : heap_inv s B → x ∈ base :: starts h0 B → y ∈ base :: starts h0 B → x ≠ y → apart x y.
Proof.
  intros [H1 _ H3 _ _ _ _ _] Hx Hy Hne. assert (∀ z, z ∈ starts h0 B → base + HEADER ≤ z) as Hb.
  { intros z Hz. apply starts_range in Hz; [|done]. lia. }
  apply elem_of_cons in Hx as [->|Hx], Hy as [->|Hy].
  - done.
  - left. auto.
  - right. auto.
  - by apply (starts_apart h0 B).
Qed.
Lemma ring_node B z : z ∈ base :: frees h0 B → z ∈ base :: starts h0 B.
Proof. rewrite !elem_of_cons. intros [->|H%frees_starts]; auto. Qed.

(** The headers of the ring in the order of their addresses. *)
Lemma ring_sorted s B : heap_inv s B → StronglySorted Z.lt (base :: frees h0 B).
Proof.
  intros [H1 _ H3 _ _ _ _ _]. pose proof (frees_sorted h0 B H3) as [S F]. constructor; [done|].
  apply (Forall_impl _ _ _ F). intros z Hz. unfold HEADER in *. simpl in *. lia.
Qed.
Lemma sorted_nodup l : StronglySorted Z.lt l → NoDup l.
Proof. induction 1 as [|x l _ IH H]; [constructor|]. apply NoDup_cons. split; [|done]. intros Hx. rewrite Forall_forall in H. apply H in Hx. lia. Qed.
Lemma sorted_app_lt (l1 l2 : list Z) x y : StronglySorted Z.lt (l1 ++ l2) → x ∈ l1 → y ∈ l2 → x < y.
Proof.
  induction l1 as [|z l1 IH]; simpl; [by intros _ ?%elem_of_nil|]. intros [S F]%StronglySorted_inv [->|Hx]%elem_of_cons Hy; [|auto].
  rewrite Forall_forall in F. apply F, elem_of_app. auto.
Qed.
Lemma sorted_app_r (l1 l2 : list Z) : StronglySorted Z.lt (l1 ++ l2) → StronglySorted Z.lt l2.
Proof. induction l1 as [|z l1 IH]; simpl; [done|]. intros [S F]%StronglySorted_inv. auto. Qed.
Lemma sorted_app_l (l1 l2 : list Z) : StronglySorted Z.lt (l1 ++ l2) → StronglySorted Z.lt l1.
Proof. induction l1 as [|z l1 IH]; simpl; [constructor|]. intros [S F]%StronglySorted_inv. apply Forall_app in F as [F _]. constructor; auto. Qed.

(** ** The place of a block in the ring *)

Lemma find_skip bp l : ∀ x fuel s, links (u_mem s) x l → (∀ z, z ∈ x :: l → room z s) → StronglySorted Z.lt (x :: l) →
  end_of x l < bp ∨ bp < x → loop (length l + fuel) (find_turn bp) x s = loop fuel (find_turn bp) (end_of x l) s.
Proof.
  induction l as [|y l IH]; intros x fuel s L R S H; [done|]. destruct L as [L1 L2]. rewrite end_of_cons in *. simpl length. cbn [Nat.add loop].
  apply StronglySorted_inv in S as [S F]. assert (x < y) as Hxy by (by apply Forall_inv in F).
  assert (find_turn bp x s = Ok (inl y) s) as E.
  { unfold find_turn. rewrite (bind_ok _ _ _ _ _ (get_ptr_run x s (R x ltac:(left)))), L1. replace (x >=? y) with false by lia.
    assert (end_of y l = y ∨ y < end_of y l) as Hend.
    { pose proof (end_of_in y l) as [->|Hin]%elem_of_cons; [by left|right]. apply StronglySorted_inv in S as [_ F']. rewrite Forall_forall in F'. auto. }
    replace ((bp >? x) && (bp <? y)) with false by lia. done. }
  rewrite (bind_ok _ _ _ _ _ E). apply IH; [done|intros z Hz; apply R; by right|done|]. lia.
Qed.

Lemma find_stop bp x nx fuel s : room x s → ptr (u_mem s) x = nx → x < bp → (bp < nx ∨ nx ≤ x) → loop (S fuel) (find_turn bp) x s = Ok x s.
Proof.
  intros R L H1 H2. apply loop_end. unfold find_turn. rewrite (bind_ok _ _ _ _ _ (get_ptr_run x s R)), L. replace (bp >? x) with true by lia.
  simpl. destruct (bp <? nx) eqn:E; [done|]. replace (x >=? nx) with true by lia. done.
Qed.
Lemma find_wrap bp x fuel s : room x s → ptr (u_mem s) x = base → base < bp < x → loop (S fuel) (find_turn bp) x s = loop fuel (find_turn bp) base s.
Proof.
  intros R L H. cbn [loop]. assert (find_turn bp x s = Ok (inl base) s) as E; [|by rewrite (bind_ok _ _ _ _ _ E)].
  unfold find_turn. rewrite (bind_ok _ _ _ _ _ (get_ptr_run x s R)), L.
  replace ((bp >? x) && (bp <? base)) with false by lia. by replace ((x >=? base) && ((bp >? x) || (bp <? base))) with false by lia.
Qed.

(** What follows the free blocks [F1] in the ring. *)
Lemma ring_next m F1 F2 : ring m (F1 ++ F2) → ptr m (end_of base F1) = hd base F2.
Proof.
  intros [L Lw]. apply links_app in L as [_ L2]. destruct F2 as [|y F2]; simpl; [by rewrite app_nil_r in Lw|]. apply L2.
Qed.
Lemma end_of_app x l1 l2 : end_of x (l1 ++ l2) = end_of (end_of x l1) l2.
Proof. revert x. induction l1 as [|y l1 IH]; intros x; [done|]. cbn [app]. by rewrite !end_of_cons. Qed.

(** A block between the free blocks [F1] and [F2]. *)
Lemma find_run s B F1 F2 bp fuel : heap_inv s B → frees h0 B = F1 ++ F2 → base < bp → (∀ z, z ∈ F1 → z < bp) → (∀ z, z ∈ F2 → bp < z) →
  (length (frees h0 B) + 2 ≤ fuel)%nat → loop fuel (find_turn bp) (u_freep s) s = Ok (end_of base F1) s.
Proof.
  intros I E Hb H1 H2 Hf. pose proof (ring_sorted s B I) as Hs. pose proof (hi_ring _ _ I) as HR. pose proof (hi_freep _ _ I) as Hfp.
  assert (∀ z, z ∈ base :: frees h0 B → room z s) as R by (intros z Hz; by apply (node_room s B), ring_node).
  rewrite E in *. pose proof (ring_next _ _ _ HR) as Hn. destruct HR as [L Lw]. apply links_app in L as [L1 L2]. rewrite length_app in Hf.
  rewrite app_comm_cons in *. pose proof (sorted_app_l _ _ Hs) as Hs1. pose proof (end_of_in base F1) as Hend.
  assert (end_of base F1 < bp) as He by (apply elem_of_cons in Hend as [->|Hin]; auto).
  assert (∀ fuel x, room x s → x = end_of base F1 → loop (S fuel) (find_turn bp) x s = Ok x s) as Hstop.
  { intros fuel' x Rx ->. apply (find_stop bp _ (hd base F2)); [done..|]. destruct F2 as [|y F2]; simpl; [right|left; apply H2; left].
    apply elem_of_cons in Hend as [->|Hin]; [done|]. apply StronglySorted_inv in Hs1 as [_ F]. rewrite Forall_forall in F. specialize (F _ Hin). lia. }
  assert (room (end_of base F1) s) as Re by (apply R, elem_of_app; auto).
  assert (∀ l x fuel, links (u_mem s) x l → StronglySorted Z.lt (x :: l) → (∀ z, z ∈ x :: l → room z s) → end_of x l = end_of base F1 →
    (length l + 1 ≤ fuel)%nat → loop fuel (find_turn bp) x s = Ok (end_of base F1) s) as Hwalk.
  { intros l x fuel' Hl Hsl HRl Ee Hf'. replace fuel' with (length l + S (fuel' - length l - 1))%nat by lia.
    rewrite (find_skip bp l) by (done || (left; by rewrite Ee)). rewrite Ee. by apply Hstop. }
  apply elem_of_app in Hfp as [Hfp|Hfp].
  - destruct (decide (u_freep s = base)) as [->|Hne].
    + apply (Hwalk F1); try done; [intros z Hz; apply R, elem_of_app; auto|lia].
    + apply elem_of_cons in Hfp as [|Hfp]; [done|]. apply list_elem_of_split in Hfp as (l1 & l2 & EF). rewrite EF in *.
      apply (Hwalk l2); try done.
      * apply links_app in L1 as [_ L1]. apply L1.
      * rewrite app_comm_cons in Hs1. by apply sorted_app_r in Hs1.
      * intros z Hz. apply R. apply elem_of_app. left. right. apply elem_of_app. by right.
      * by rewrite end_of_app, end_of_cons.
      * rewrite length_app in Hf. simpl in Hf. lia.
  - apply list_elem_of_split in Hfp as (l1 & l2 & EF). rewrite EF in *. assert (∀ z, z ∈ u_freep s :: l2 → bp < z) as Hgt.
    { intros z Hz. apply H2, elem_of_app. by right. }
    rewrite length_app in Hf. simpl in Hf. assert (bp < end_of (u_freep s) l2) as Hgt2 by (apply Hgt, end_of_in).
    replace fuel with (length l2 + S (fuel - length l2 - 1))%nat by lia. rewrite (find_skip bp l2).
    + rewrite find_wrap; [apply (Hwalk F1); try done; [intros z Hz; apply R, elem_of_app; auto|lia]| | |lia].
      * apply R, elem_of_app. right. apply elem_of_app. right. apply end_of_in.
      * rewrite <- Lw, end_of_app, end_of_app, end_of_cons. done.
    + apply links_app in L2 as [_ L2]. apply L2.
    + intros z Hz. apply R, elem_of_app. right. apply elem_of_app. by right.
    + apply sorted_app_r in Hs. by apply sorted_app_r in Hs.
    + right. apply Hgt. left.
Qed.

(** ** free *)

(** A block that is free, and where it ends. *)
Lemma sized_end m lo B z : pos B → sized m lo B → z ∈ starts lo B → z + HEADER * size m z ≤ lo + total B.
Proof.
  intros HB. revert lo. induction HB as [|b B Hb HB IH]; intros lo; simpl; [by intros _ ?%elem_of_nil|]. intros [Hs HS]. rewrite elem_of_app.
  pose proof (total_nonneg B HB). pose proof (blen_pos b Hb) as [H1 H2]. destruct (is_gap b.1) eqn:E.
  - intros [?%elem_of_nil|Hz]; [done|]. specialize (IH _ HS Hz). lia.
  - intros [->%list_elem_of_singleton|Hz]; [rewrite Hs by done; lia|]. specialize (IH _ HS Hz). lia.
Qed.
Lemma sized_pos m lo B z : pos B → sized m lo B → z ∈ starts lo B → 1 ≤ size m z.
Proof.
  intros HB. revert lo. induction HB as [|b B Hb HB IH]; intros lo; simpl; [by intros _ ?%elem_of_nil|]. intros [Hs HS]. rewrite elem_of_app.
  destruct (is_gap b.1); [intros [?%elem_of_nil|Hz]; [done|by apply (IH _ HS)]|].
  intros [->%list_elem_of_singleton|Hz]; [by rewrite Hs|by apply (IH _ HS)].
Qed.
Lemma frees_first lo B d : pos B → d < lo → hd d (frees lo B) = lo → ∃ n B', B = (BFree, n) :: B'.
Proof.
  intros HB Hd E. destruct B as [|[k n] B]; [simpl in E; lia|]. apply Forall_cons in HB as [Hn HB]. destruct k; [by eauto| |]; exfalso.
  all: simpl in E; set (lo' := lo + _) in E.
  all: destruct (frees lo' B) as [|z l] eqn:Ez; simpl in E; [lia|]; assert (z ∈ starts lo' B) as Hz by (apply frees_starts; rewrite Ez; left).
  all: apply starts_range in Hz; [|done]; unfold lo', blen, HEADER in *; simpl in *; lia.
Qed.
Lemma frees_last m lo B l z : pos B → sized m lo B → frees lo B = l ++ [z] → z + HEADER * size m z = lo + total B →
  ∃ B' n, B = B' ++ [(BFree, n)] ∧ z = lo + total B' ∧ l = frees lo B' ∧ size m z = n.
Proof.
  intros HB HS E Hend. destruct B as [|[k n] B' _] using rev_ind; [by destruct l|]. apply pos_app in HB as [HB' Hn]. apply Forall_inv in Hn. simpl in Hn.
  apply sized_app in HS as [HS' [Hk _]]. rewrite frees_app in E. rewrite total_app in Hend. cbn [total] in Hend. destruct k.
  - simpl in E. apply app_inj_tail in E as [<- <-]. exists B', n. simpl in Hk. auto.
  - exfalso. simpl in E. rewrite app_nil_r in E. assert (z ∈ starts lo B') as Hz by (apply frees_starts; rewrite E; set_solver).
    pose proof (sized_end _ _ _ _ HB' HS' Hz). unfold blen, HEADER in *. cbn [is_gap fst snd] in *. lia.
  - exfalso. simpl in E. rewrite app_nil_r in E. assert (z ∈ starts lo B') as Hz by (apply frees_starts; rewrite E; set_solver).
    pose proof (sized_end _ _ _ _ HB' HS' Hz). unfold blen, HEADER in *. cbn [is_gap fst snd] in *. lia.
Qed.

(** The ring with a gap: the block [bp] of [n] units points at what follows it, and the
    free blocks before it do not yet point at it. *)
Record opened (m : mem) (B1 : list block) (n : Z) (B2 : list block) : Prop := {
  op_sized : sized m h0 (B1 ++ (BUsed, n) :: B2);
  op_bsize : size m base = 0;
  op_before : links m base (frees h0 B1);
  op_after : links m (h0 + total B1) (frees (h0 + total B1 + HEADER * n) B2);
  op_end : ptr m (end_of (h0 + total B1) (frees (h0 + total B1 + HEADER * n) B2)) = base;
}.

Fixpoint useds (lo : Z) (B : list block) : list (Z * Z) :=
  match B with [] => [] | b :: B => (match b.1 with BUsed => [(lo, b.2)] | _ => [] end) ++ useds (lo + blen b) B end.
Lemma useds_app lo B1 B2 : useds lo (B1 ++ B2) = useds lo B1 ++ useds (lo + total B1) B2.
Proof. revert lo. induction B1 as [|b B1 IH]; intros lo; simpl; [by rewrite Z.add_0_r|]. by rewrite IH, <- app_assoc, Z.add_assoc. Qed.

(** The block [bp] in use, between [B1] and [B2]. *)
Section freeing.
Variables (s : ust) (B1 : list block) (n : Z) (B2 : list block).
Abbreviation bp := (h0 + total B1).
Abbreviation F1 := (frees h0 B1).
Abbreviation F2 := (frees (bp + HEADER * n) B2).
Abbreviation B := (B1 ++ (BUsed, n) :: B2).
Hypothesis I : heap_inv s B.

Lemma frees_around : frees h0 B = F1 ++ F2.
Proof. by rewrite frees_app. Qed.
Lemma around_pos : pos B1 ∧ 1 ≤ n ∧ pos B2.
Proof. pose proof (hi_pos _ _ I) as H. apply pos_app in H as [H1 H]. apply Forall_cons in H as [H2 H3]. done. Qed.
Lemma around_order : base < bp ∧ (∀ z, z ∈ F1 → z + HEADER ≤ bp) ∧ (∀ z, z ∈ F2 → bp + HEADER * n ≤ z).
Proof.
  pose proof around_pos as (H1 & H2 & H3). pose proof (hi_base _ _ I). pose proof (total_nonneg B1 H1). unfold HEADER in *. split_and!; [lia|..].
  - intros z Hz%frees_starts. apply starts_range in Hz; [|done]. unfold HEADER in *. lia.
  - intros z Hz%frees_starts. apply starts_range in Hz; [|done]. lia.
Qed.
Lemma bp_node : bp ∈ base :: starts h0 B.
Proof. right. rewrite starts_app. apply elem_of_app. right. left. Qed.
Lemma bp_size : size (u_mem s) bp = n.
Proof. pose proof (hi_sized _ _ I) as H. apply sized_app in H as [_ [H _]]. by apply H. Qed.
Lemma free_nodes z : z ∈ base :: F1 ++ F2 → z ∈ base :: starts h0 B.
Proof. rewrite <- frees_around. apply ring_node. Qed.
Lemma free_ne_bp z : z ∈ base :: F1 ++ F2 → z ≠ bp.
Proof.
  pose proof around_order as (H1 & H2 & H3). pose proof around_pos as (_ & H4 & _). rewrite elem_of_cons, elem_of_app. unfold HEADER in *.
  intros [->|[Hz|Hz]]; [lia|apply H2 in Hz; lia|apply H3 in Hz; lia].
Qed.
Lemma free_apart z : z ∈ base :: F1 ++ F2 → apart z bp.
Proof. intros Hz. apply (node_apart s B); [done|by apply free_nodes|apply bp_node|by apply free_ne_bp]. Qed.
Lemma n_small : n < 2 ^ 31.
Proof.
  pose proof (hi_brk _ _ I) as H. rewrite total_app in H. cbn [total] in H. pose proof around_pos as (H1 & H2 & H3).
  pose proof (total_nonneg _ H1). pose proof (total_nonneg _ H3). pose proof (hi_base _ _ I). assert (brk_max = 134217728) by done.
  unfold blen, HEADER in *. cbn [is_gap fst snd] in *. lia.
Qed.

(** bp with the free block after it. *)
Definition joined (m1 : mem) (n' : Z) (B2' : list block) : Prop :=
  opened m1 B1 n' B2' ∧ only_at [bp] (u_mem s) m1 ∧ n ≤ n' ∧ HEADER * n + total B2 = HEADER * n' + total B2' ∧ pos B2' ∧ coalesced true B2' ∧
  useds (bp + HEADER * n) B2 = useds (bp + HEADER * n') B2' ∧ gaps B2 = gaps B2' ∧
  (∀ z, z ∈ frees (bp + HEADER * n') B2' → z ∈ F2) ∧ (∀ z, z ∈ starts (bp + HEADER * n') B2' → z ∈ starts (bp + HEADER * n) B2) ∧
  (length (frees (bp + HEADER * n') B2') ≤ length F2)%nat.

Lemma after_ring : let p := end_of base F1 in links (u_mem s) base F1 ∧ links (u_mem s) p F2 ∧ ptr (u_mem s) (end_of p F2) = base ∧ ptr (u_mem s) p = hd base F2.
Proof.
  intros p. pose proof (hi_ring _ _ I) as HR. rewrite frees_around in HR. pose proof (ring_next _ _ _ HR). destruct HR as [L Lw]. apply links_app in L as [L1 L2].
  rewrite end_of_app in Lw. done.
Qed.
Lemma around_coal : coalesced false B1 ∧ coalesced false B2.
Proof. pose proof (hi_coal _ _ I) as H. apply coalesced_app in H as [H1 [_ H2]]. done. Qed.

(** A write of the header of [bp] leaves the other headers. *)
Lemma opened_intro m1 n' B2' x : only_at [bp] (u_mem s) m1 → size m1 bp = n' → (∀ z, z ∈ starts (bp + HEADER * n') B2' → z ∈ starts (bp + HEADER * n) B2) →
  sized (u_mem s) (bp + HEADER * n') B2' → (∀ z, z ∈ frees (bp + HEADER * n') B2' → z ∈ F2) →
  links (u_mem s) x (frees (bp + HEADER * n') B2') → ptr m1 bp = ptr (u_mem s) x → ptr (u_mem s) (end_of x (frees (bp + HEADER * n') B2')) = base →
  opened m1 B1 n' B2'.
Proof.
  intros O Hs Hst Hsz Hfr L Hp He. assert (∀ z, z ∈ base :: starts h0 B → z ≠ bp → apart z bp) as Ha.
  { intros z Hz Hne. apply (node_apart s B); [done|done|apply bp_node|done]. }
  assert (∀ z, z ∈ base :: starts h0 B → z ≠ bp → ptr m1 z = ptr (u_mem s) z ∧ size m1 z = size (u_mem s) z) as Hsame.
  { intros z Hz Hne. split; [apply (ptr_only [bp])|apply (size_only [bp])]; try done; intros w ->%list_elem_of_singleton; auto. }
  pose proof around_pos as (P1 & P2 & P3).
  assert (∀ z, z ∈ starts h0 B1 → z ∈ base :: starts h0 B ∧ z ≠ bp) as H1.
  { intros z Hz. split; [right; rewrite starts_app; apply elem_of_app; auto|]. apply starts_range in Hz; [|done]. unfold HEADER in *. lia. }
  assert (∀ z, z ∈ starts (bp + HEADER * n) B2 → z ∈ base :: starts h0 B ∧ z ≠ bp) as H2.
  { intros z Hz. split; [right; rewrite starts_app; apply elem_of_app; right; right; done|]. apply starts_range in Hz; [|done]. unfold HEADER in *. lia. }
  assert (∀ z, z ∈ base :: F1 ++ F2 → ptr m1 z = ptr (u_mem s) z) as H3.
  { intros z Hz. apply Hsame; [by apply free_nodes|by apply free_ne_bp]. }
  pose proof (hi_sized _ _ I) as HS. apply sized_app in HS as [HS1 _]. pose proof after_ring as (L1 & _).
  assert (base ∈ base :: F1 ++ F2) as Hb0 by left. constructor.
  - apply sized_app. split; [|split; [by intros _|]].
    + apply (sized_ext (u_mem s)); [|done]. intros z Hz. by apply Hsame; apply H1.
    + apply (sized_ext (u_mem s)); [|done]. intros z Hz%Hst. by apply Hsame; apply H2.
  - rewrite <- (hi_bsize _ _ I). apply Hsame; [left|by apply free_ne_bp].
  - apply (links_from (u_mem s) m1 base base F1 L1); [by apply H3|]. intros z Hz. apply H3. right. apply elem_of_app. auto.
  - apply (links_from (u_mem s) m1 bp x _ L); [done|]. intros z Hz%Hfr. apply H3. right. apply elem_of_app. auto.
  - rewrite <- He. apply (links_from (u_mem s) m1 bp x _ L); [done|]. intros z Hz%Hfr. apply H3. right. apply elem_of_app. auto.
Qed.

Lemma node_ok z : z ∈ base :: F1 ++ F2 → room z s.
Proof. intros Hz. by apply (node_room s B), free_nodes. Qed.
Lemma bp_room : room bp s.
Proof. apply (node_room s B); [done|apply bp_node]. Qed.
Lemma end_node : end_of base F1 ∈ base :: F1 ++ F2.
Proof. pose proof (end_of_in base F1) as H. rewrite app_comm_cons. apply elem_of_app. auto. Qed.

Lemma bp_other z v : z ∈ base :: F1 ++ F2 → ptr (st_size bp v (u_mem s)) z = ptr (u_mem s) z.
Proof. intros Hz. apply (ptr_only [bp]); [apply only_size|]. intros w ->%list_elem_of_singleton. by apply free_apart. Qed.

(** The block after it is free. *)
Lemma join_next_free n2 B2' : B2 = (BFree, n2) :: B2' →
  ∃ m1, join_next bp (end_of base F1) s = Ok tt (set_u_mem m1 s) ∧ joined m1 (n + n2) B2'.
Proof.
  intros EB. set (p := end_of base F1). set (y := bp + HEADER * n). pose proof around_pos as (P1 & P2 & P3). pose proof around_coal as [_ C2].
  pose proof after_ring as (L1 & L2 & Le & Lp). fold p in L2, Le, Lp. assert (room p s) as Rp by apply node_ok, end_node. pose proof n_small as Hsm.
  assert (F2 = y :: frees (bp + HEADER * (n + n2)) B2') as EF.
  { rewrite EB. cbn [frees is_free fst app]. f_equal. f_equal. unfold blen, HEADER. cbn [is_gap fst snd]. lia. }
  assert (y ∈ base :: F1 ++ F2) as Hy by (rewrite EF; right; apply elem_of_app; right; left). pose proof (node_ok y Hy) as Ry.
  pose proof (hi_sized _ _ I) as HS. apply sized_app in HS as [_ [_ HS2]]. change (bp + blen (BUsed, n)) with y in HS2. rewrite EB in HS2. destruct HS2 as [Hysz HS2].
  specialize (Hysz eq_refl). cbn [snd] in Hysz. rewrite EB in P3, C2. apply Forall_cons in P3 as [Pn2 P3]. cbn [snd] in Pn2. destruct C2 as [_ C2].
  assert (y + blen (BFree, n2) = bp + HEADER * (n + n2)) as Ey by (unfold y, blen, HEADER; cbn [is_gap fst snd]; lia). rewrite Ey in HS2.
  assert (n + n2 < 2 ^ 31) as Hsm2.
  { pose proof (hi_brk _ _ I) as HB. rewrite total_app, EB in HB. cbn [total blen is_gap fst snd] in HB. pose proof (total_nonneg _ P1). pose proof (total_nonneg _ P3).
    pose proof (hi_base _ _ I). assert (brk_max = 134217728) by done. unfold HEADER in *. lia. }
  rewrite EF in L2, Le, Lp. destruct L2 as [_ L2]. rewrite end_of_cons in Le. cbn [hd] in Lp.
  set (m0 := st_size bp (n + n2) (u_mem s)). set (s0 := set_u_mem m0 s). pose proof (room_range _ _ Ry).
  exists (st_ptr bp (ptr (u_mem s) y) m0). split.
  - unfold join_next. rewrite (bind_ok _ _ _ _ _ (get_size_run _ s bp_room)), bp_size, (bind_ok _ _ _ _ _ (get_ptr_run _ s Rp)), Lp.
    rewrite (header_add_small _ _ s bp_room) by lia. fold y. rewrite Z.eqb_refl.
    rewrite (bind_ok _ _ _ _ _ (get_size_run _ s Ry)), Hysz, u32_small by lia. rewrite (bind_ok _ _ _ _ _ (put_size_run _ _ s bp_room)). fold m0 s0.
    rewrite (bind_ok _ _ _ _ _ (get_ptr_run p s0 Rp)). change (ptr (u_mem s0) p) with (ptr m0 p). unfold m0. rewrite bp_other, Lp by apply end_node.
    rewrite (bind_ok _ _ _ _ _ (get_ptr_run y s0 Ry)). change (ptr (u_mem s0) y) with (ptr m0 y). unfold m0. rewrite bp_other by done.
    by rewrite (put_ptr_run _ _ s0 bp_room).
  - assert (only_at [bp] (u_mem s) (st_ptr bp (ptr (u_mem s) y) m0)) as O by (eapply only_at_trans; [apply only_size|apply only_ptr]).
    assert (0 ≤ ptr (u_mem s) y < 2 ^ 64) as Hpy.
    { destruct (frees (bp + HEADER * (n + n2)) B2') as [|w l] eqn:Ew.
      - change (end_of y []) with y in Le. rewrite Le. pose proof (room_range _ _ (node_ok base ltac:(left))). lia.
      - destruct L2 as [-> _]. assert (w ∈ base :: F1 ++ F2) as Hw by (rewrite EF; right; apply elem_of_app; right; right; left). pose proof (room_range _ _ (node_ok w Hw)). lia. }
    split_and!; try done; try lia.
    + apply (opened_intro _ (n + n2) B2' y); try done.
      * rewrite size_st_ptr. apply size_st_size. lia.
      * intros z Hz. rewrite EB. cbn [starts]. apply elem_of_app. right. fold y. by rewrite Ey.
      * intros z Hz. rewrite EF. by right.
      * by apply ptr_st_ptr.
    + rewrite EB. cbn [total blen is_gap fst snd]. unfold HEADER. lia.
    + rewrite EB. cbn [useds fst app]. fold y. by rewrite Ey.
    + by rewrite EB.
    + intros z Hz. rewrite EF. by right.
    + intros z Hz. rewrite EB. cbn [starts]. apply elem_of_app. right. fold y. by rewrite Ey.
    + rewrite EF. simpl. lia.
Qed.

Lemma join_next_run : ∃ m1 n' B2', join_next bp (end_of base F1) s = Ok tt (set_u_mem m1 s) ∧ joined m1 n' B2'.
Proof.
  pose proof around_pos as (P1 & P2 & P3). pose proof around_order as (O1 & O2 & O3). pose proof around_coal as [_ C2]. pose proof n_small as Hsm.
  destruct (decide (bp + HEADER * n = hd base F2)) as [E|E].
  - destruct (frees_first (bp + HEADER * n) B2 base) as (n2 & B2' & EB); [done|unfold HEADER in *; lia|done|].
    destruct (join_next_free n2 B2' EB) as (m1 & H1 & H2). by exists m1, (n + n2), B2'.
  - set (p := end_of base F1) in *. pose proof after_ring as (L1 & L2 & Le & Lp). fold p in L2, Le, Lp. assert (room p s) as Rp by apply node_ok, end_node.
    pose proof (hi_sized _ _ I) as HS. apply sized_app in HS as [_ [_ HS2]]. change (bp + blen (BUsed, n)) with (bp + HEADER * n) in HS2.
    assert (hd base F2 ∈ base :: F1 ++ F2) as Hh by (destruct F2 as [|y l]; [left|right; apply elem_of_app; right; left]).
    pose proof (room_range _ _ (node_ok _ Hh)). exists (st_ptr bp (hd base F2) (u_mem s)), n, B2. split.
    + unfold join_next. rewrite (bind_ok _ _ _ _ _ (get_size_run _ s bp_room)), bp_size, (bind_ok _ _ _ _ _ (get_ptr_run _ s Rp)), Lp.
      rewrite (header_add_small _ _ s bp_room) by lia. replace (bp + HEADER * n =? hd base F2) with false by lia. by apply put_ptr_run, bp_room.
    + split_and!; try done; [|apply only_ptr|].
      * apply (opened_intro _ n B2 p); try done; [apply only_ptr|rewrite size_st_ptr; apply bp_size|]. rewrite Lp. apply ptr_st_ptr. lia.
      * destruct B2 as [|[k n2] B2']; [done|]. destruct C2 as [_ C2]. split; [|done]. destruct k; [|done|done]. by destruct E.
Qed.

(** The free block before it, if it is a neighbour. *)
Section join_prev.
Variables (m1 : mem) (n' : Z) (B2' : list block).
Hypothesis J : joined m1 n' B2'.
Abbreviation p := (end_of base F1).
Abbreviation s1 := (set_u_mem m1 s).
Abbreviation F2' := (frees (bp + HEADER * n') B2').

Lemma prev_facts : room p s1 ∧ room bp s1 ∧ apart p bp ∧ p < bp ∧ 1 ≤ n' < 2 ^ 31.
Proof.
  destruct J as (_ & _ & J3 & J4 & J5 & _). pose proof end_node as He. pose proof around_pos as (P1 & P2 & P3). pose proof around_order as (O1 & O2 & O3).
  split_and!; [by apply node_ok|apply bp_room|by apply free_apart| |lia|].
  - pose proof (end_of_in base F1) as [->|Hz]%elem_of_cons; [done|]. apply O2 in Hz. unfold HEADER in *. lia.
  - pose proof (hi_brk _ _ I) as HB. rewrite total_app in HB. cbn [total blen is_gap fst snd] in HB. pose proof (total_nonneg _ P1). pose proof (total_nonneg _ J5).
    pose proof (hi_base _ _ I). assert (brk_max = 134217728) by done. unfold HEADER in *. lia.
Qed.

(** A write of the header of [p]. *)
Lemma prev_other m2 z : only_at [p] m1 m2 → z ∈ base :: starts h0 B → z ≠ p → ptr m2 z = ptr m1 z ∧ size m2 z = size m1 z.
Proof.
  intros O Hz Hne. assert (apart z p) as Ha.
  { apply (node_apart s B); [done|done| |done]. apply free_nodes, end_node. }
  split; [apply (ptr_only [p])|apply (size_only [p])]; try done; by intros w ->%list_elem_of_singleton.
Qed.
Lemma after_node z : z ∈ starts (bp + HEADER * n') B2' → z ∈ base :: starts h0 B ∧ z ≠ p ∧ z ≠ bp.
Proof.
  destruct J as (_ & _ & J3 & _ & J5 & _ & _ & _ & _ & Hst & _). intros Hz. pose proof prev_facts as (_ & _ & _ & Hp & Hn). pose proof (starts_range _ _ _ J5 Hz).
  split; [|unfold HEADER in *; lia]. right. rewrite starts_app. apply elem_of_app. right. right. by apply Hst.
Qed.
Lemma before_node z : z ∈ starts h0 B1 → z ∈ base :: starts h0 B ∧ z ≠ bp.
Proof.
  pose proof around_pos as (P1 & _). intros Hz. pose proof (starts_range _ _ _ P1 Hz). split; [|unfold HEADER in *; lia].
  right. rewrite starts_app. apply elem_of_app. auto.
Qed.

(** The heap afterwards. *)
Definition freed (m2 : mem) (B' : list block) : Prop :=
  heap_inv (set_u_freep p (set_u_mem m2 s)) B' ∧ only_at [p] m1 m2 ∧ useds h0 B' = useds h0 B1 ++ useds (bp + HEADER * n') B2' ∧
  gaps B' = gaps B1 ++ gaps B2' ∧ (length (frees h0 B') ≤ S (length F1 + length F2'))%nat ∧ ∃ z, z ∈ frees h0 B' ∧ n' ≤ size m2 z.

Lemma ends_free_last (B0 : list block) k x : ends_free false (B0 ++ [(k, x)]) = is_free k.
Proof. unfold ends_free. by rewrite last_snoc. Qed.

Lemma before_links m2 : only_at [p] m1 m2 → links m2 base F1.
Proof.
  intros O. pose proof J as ([_ _ O3 _ _] & _). pose proof (ring_sorted s B I) as Hs. rewrite frees_around, app_comm_cons in Hs.
  apply (links_ext m1); [|by apply sorted_nodup, (sorted_app_l _ F2)|done]. intros z Hz Hne. apply prev_other; [done| |done].
  apply free_nodes. rewrite app_comm_cons. apply elem_of_app. auto.
Qed.
(** From [x], whose pointer is that of [bp], to the free blocks after it. *)
Lemma after_links m2 x : only_at [p] m1 m2 → ptr m2 x = ptr m1 bp → links m2 x F2' ∧ ptr m2 (end_of x F2') = base.
Proof.
  intros O E. pose proof J as ([_ _ _ O4 O5] & _). rewrite <- O5. apply links_from; [done|done|].
  intros z Hz%frees_starts%after_node. apply prev_other; naive_solver.
Qed.
Lemma after_sized m2 : only_at [p] m1 m2 → sized m2 (bp + HEADER * n') B2'.
Proof.
  intros O. pose proof J as ([O1 _ _ _ _] & _). apply sized_app in O1 as [_ [_ O1]]. apply (sized_ext m1); [|done].
  intros z Hz%after_node. apply prev_other; naive_solver.
Qed.
Lemma after_brk : h0 + total B1 + HEADER * n' + total B2' = u_brk s ∧ u_brk s ≤ brk_max.
Proof.
  pose proof J as (_ & _ & _ & J4 & _). pose proof (hi_brk _ _ I) as [E ?]. rewrite total_app in E. cbn [total blen is_gap fst snd] in E. lia.
Qed.

Lemma prev_link : (∀ B1' n1, B1 ≠ B1' ++ [(BFree, n1)]) → freed (st_ptr p bp m1) (B1 ++ (BFree, n') :: B2').
Proof.
  intros Hnf. pose proof prev_facts as (Rp & Rb & Ha & Hlt & Hn'). pose proof J as ([O1 O2 O3 O4 O5] & J2 & J3 & J4 & J5 & J6 & J7 & Jg & J8 & J9 & J10).
  pose proof around_pos as (P1 & P2 & P3). pose proof around_coal as [C1 _]. set (m2 := st_ptr p bp m1). assert (only_at [p] m1 m2) as O by apply only_ptr.
  assert (∀ z, z ∈ base :: starts h0 B → size m2 z = size m1 z) as HS.
  { intros z Hz. destruct (decide (z = p)) as [->|Hne]; [apply size_st_ptr|by apply prev_other]. }
  apply sized_app in O1 as [S1 [Sb _]]. specialize (Sb eq_refl). cbn [snd] in Sb.
  assert (frees h0 (B1 ++ (BFree, n') :: B2') = F1 ++ bp :: F2') as EF by by rewrite frees_app.
  assert (size m2 bp = n') as Eb by (rewrite HS; [done|apply bp_node]).
  pose proof (room_range _ _ Rb). destruct (prev_other m2 bp O bp_node) as [Epb _]; [lia|]. destruct (after_links m2 bp O Epb) as [L2 Le].
  split_and!; [constructor|done|..].
  - apply (hi_base _ _ I).
  - rewrite total_app. cbn [total blen is_gap fst snd]. pose proof after_brk. simpl. lia.
  - apply pos_app. split; [done|]. apply Forall_cons. split; [simpl; lia|done].
  - apply coalesced_app. split; [done|]. split; [|done]. destruct B1 as [|[k x] B1' _] eqn:EB using rev_ind; [done|]. rewrite ends_free_last. destruct k; [|done|done].
    exfalso. by apply (Hnf B1' x).
  - apply sized_app. split; [|split; [by intros _|by apply after_sized]]. apply (sized_ext m1); [|done]. intros z Hz%before_node. apply HS, Hz.
  - cbn [u_mem set_u_freep set_u_mem]. rewrite HS by left. done.
  - cbn [u_mem set_u_freep set_u_mem]. rewrite EF. split.
    + apply links_app. split; [by apply before_links|]. split; [|done]. apply ptr_st_ptr. lia.
    + by rewrite end_of_app, end_of_cons.
  - cbn [u_freep set_u_freep]. rewrite EF, app_comm_cons. apply elem_of_app. left. apply end_of_in.
  - by rewrite useds_app.
  - by rewrite gaps_app.
  - rewrite EF, length_app. simpl. lia.
  - exists bp. rewrite EF, Eb. split; [apply elem_of_app; right; left|lia].
Qed.

Lemma prev_merge B1' n1 : B1 = B1' ++ [(BFree, n1)] →
  freed (st_ptr p (ptr m1 bp) (st_size p (n1 + n') m1)) (B1' ++ (BFree, n1 + n') :: B2').
Proof.
  intros EB. pose proof prev_facts as (Rp & Rb & Ha & Hlt & Hn'). pose proof J as ([O1 O2 O3 O4 O5] & J2 & J3 & J4 & J5 & J6 & J7 & Jg & J8 & J9 & J10).
  pose proof around_pos as (P1 & P2 & P3). pose proof around_coal as [C1 _].
  set (m2 := st_ptr p (ptr m1 bp) (st_size p (n1 + n') m1)). assert (only_at [p] m1 m2) as O by (eapply only_at_trans; [apply only_size|apply only_ptr]).
  assert (F1 = frees h0 B1' ++ [h0 + total B1']) as EF1 by by rewrite EB, frees_app.
  assert (p = h0 + total B1') as Ep by (rewrite EF1; apply end_of_snoc).
  assert (bp = p + HEADER * n1) as Ebp by (rewrite Ep, EB, total_app; cbn [total blen is_gap fst snd]; lia).
  rewrite EB in C1, P1. apply pos_app in P1 as [P1 P1n]. apply Forall_inv in P1n. cbn [snd] in P1n. apply coalesced_app in C1 as [C1 [C1n _]].
  assert (n1 + n' < 2 ^ 31) as Hsm.
  { pose proof after_brk as HB. pose proof (total_nonneg _ P1). pose proof (total_nonneg _ J5). pose proof (hi_base _ _ I).
    assert (brk_max = 134217728) by done. unfold HEADER in *. lia. }
  assert (size m2 p = n1 + n') as Es by (unfold m2; rewrite size_st_ptr; apply size_st_size; lia).
  assert (0 ≤ ptr m1 bp < 2 ^ 64) as Hpb.
  { destruct F2' as [|y l] eqn:E2.
    - change (end_of bp []) with bp in O5. rewrite O5. pose proof (room_range _ _ (node_ok base ltac:(left))). lia.
    - destruct O4 as [-> _]. assert (y ∈ F2) as Hy by (apply J8; left). assert (y ∈ base :: F1 ++ F2) as Hy' by (right; apply elem_of_app; auto).
      pose proof (room_range _ _ (node_ok y Hy')). lia. }
  assert (ptr m2 p = ptr m1 bp) as Epp by by apply ptr_st_ptr. destruct (after_links m2 p O Epp) as [L2 Le].
  assert (frees h0 (B1' ++ (BFree, n1 + n') :: B2') = frees h0 B1' ++ p :: F2') as EF.
  { rewrite frees_app. cbn [frees is_free fst app blen is_gap snd]. rewrite <- Ep. do 3 f_equal. unfold HEADER in *. lia. }
  apply sized_app in O1 as [S1 _]. rewrite EB in S1. apply sized_app in S1 as [S1 _].
  pose proof (before_links m2 O) as Lb. rewrite EF1, <- Ep in Lb.
  split_and!; [constructor|done|..].
  - apply (hi_base _ _ I).
  - rewrite total_app. cbn [total blen is_gap fst snd u_brk set_u_freep set_u_mem]. pose proof after_brk. unfold HEADER in *. lia.
  - apply pos_app. split; [done|]. apply Forall_cons. split; [cbn [snd]; lia|done].
  - apply coalesced_app. split; [done|]. done.
  - assert (p + blen (BFree, n1 + n') = bp + HEADER * n') as Ea by (unfold blen, HEADER in *; cbn [is_gap fst snd]; lia).
    apply sized_app. rewrite <- Ep. split; [|split; [by intros _|rewrite Ea; by apply after_sized]]. apply (sized_ext m1); [|done].
    intros z Hz. assert (z ∈ starts h0 B1) as Hz' by (rewrite EB, starts_app; apply elem_of_app; auto).
    apply before_node in Hz' as [Hz' _]. apply prev_other; [done|done|]. apply starts_range in Hz; [|done]. unfold HEADER in *. lia.
  - cbn [u_mem set_u_freep set_u_mem]. rewrite <- O2. apply prev_other; [done|left|]. pose proof (hi_base _ _ I). pose proof (total_nonneg _ P1). unfold HEADER in *. lia.
  - cbn [u_mem set_u_freep set_u_mem]. rewrite EF. split.
    + change (p :: F2') with ([p] ++ F2'). rewrite app_assoc. apply links_app. split; [done|]. by rewrite end_of_snoc.
    + by rewrite end_of_app, end_of_cons.
  - cbn [u_freep set_u_freep]. rewrite EF. right. apply elem_of_app. right. left.
  - rewrite useds_app, EB, useds_app. cbn [useds fst app]. rewrite app_nil_r. do 2 f_equal. rewrite total_app.
    cbn [total blen is_gap fst snd]. unfold HEADER. lia.
  - rewrite EB, !gaps_app. simpl. by rewrite app_nil_r.
  - rewrite EF, EF1, !length_app. simpl. lia.
  - exists p. rewrite EF, Es. split; [apply elem_of_app; right; left|lia].
Qed.

Lemma ends_free_dec (B0 : list block) : (∃ B0' x, B0 = B0' ++ [(BFree, x)]) ∨ (∀ B0' x, B0 ≠ B0' ++ [(BFree, x)]).
Proof.
  destruct B0 as [|[k x] B0' _] using rev_ind; [right; by intros [] ?|]. destruct k; [left; eauto|right..].
  all: intros B0'' y [_ E]%app_inj_tail; done.
Qed.

Lemma join_prev_run : ∃ m2 B', join_prev bp p s1 = Ok tt (set_u_mem m2 s) ∧ freed m2 B'.
Proof.
  pose proof prev_facts as (Rp & Rb & Ha & Hlt & Hn'). pose proof J as ([O1 O2 O3 O4 O5] & _). pose proof around_pos as (P1 & _).
  apply sized_app in O1 as [S1 [Sb _]]. specialize (Sb eq_refl). cbn [snd] in Sb. pose proof around_order as (Ob & _).
  unfold join_prev. rewrite (bind_ok _ _ _ _ _ (get_size_run _ s1 Rp)). change (u_mem s1) with m1. destruct (ends_free_dec B1) as [(B1' & n1 & EB)|Hnf].
  - exists (st_ptr p (ptr m1 bp) (st_size p (n1 + n') m1)). eexists. split; [|by apply prev_merge].
    assert (p = h0 + total B1') as Ep by (rewrite EB, frees_app; apply end_of_snoc).
    assert (size m1 p = n1) as En. { rewrite EB in S1. apply sized_app in S1 as [_ [S1 _]]. rewrite Ep. by apply S1. }
    assert (bp = p + HEADER * n1) as Ebp by (rewrite Ep, EB, total_app; cbn [total blen is_gap fst snd]; lia).
    rewrite EB in P1. apply pos_app in P1 as [P1 P1n]. apply Forall_inv in P1n. cbn [snd] in P1n.
    assert (n1 + n' < 2 ^ 31) as Hsm.
    { pose proof after_brk as HB. pose proof (total_nonneg _ P1). pose proof J as (_ & _ & _ & _ & J5 & _). pose proof (total_nonneg _ J5). pose proof (hi_base _ _ I).
      assert (brk_max = 134217728) by done. unfold HEADER in *. lia. }
    rewrite En, (header_add_small _ _ s1 Rp) by lia. rewrite <- Ebp, Z.eqb_refl.
    rewrite (bind_ok _ _ _ _ _ (get_size_run _ s1 Rb)). change (u_mem s1) with m1. rewrite Sb, u32_small by lia.
    rewrite (bind_ok _ _ _ _ _ (put_size_run _ _ s1 Rp)). change (u_mem s1) with m1. set (s2 := set_u_mem _ s1).
    rewrite (bind_ok _ _ _ _ _ (get_ptr_run _ s2 Rb)). change (u_mem s2) with (st_size p (n1 + n') m1).
    rewrite (ptr_only [p] m1) by (apply only_size || intros w ->%list_elem_of_singleton; unfold apart in *; lia).
    by rewrite (put_ptr_run _ _ s2 Rp).
  - exists (st_ptr p bp m1). eexists. split; [|by apply prev_link].
    replace (header_add p (size m1 p) =? bp) with false; [by rewrite (put_ptr_run _ _ s1 Rp)|]. symmetry. apply Z.eqb_neq.
    pose proof (end_of_in base F1) as [Eb|Hin]%elem_of_cons.
    + rewrite Eb, O2, (header_add_small base 0 s1) by (by rewrite Eb in Rp || lia). unfold HEADER. lia.
    + pose proof (sized_end _ _ _ _ P1 S1 (frees_starts _ _ _ Hin)) as He. pose proof (room_range _ _ Rp). pose proof (room_range _ _ Rb).
      pose proof (sized_pos _ _ _ _ P1 S1 (frees_starts _ _ _ Hin)) as Hs0.
      unfold header_add. rewrite u64_small by (unfold HEADER in *; lia). intros E.
      destruct F1 as [|y l _] eqn:EF using rev_ind; [by apply elem_of_nil in Hin|]. rewrite end_of_snoc in *.
      destruct (frees_last m1 h0 B1 l y) as (B1' & n1 & EB & _); try done. by apply (Hnf B1' n1).
Qed.
End join_prev.

Lemma headers_enough : (length (frees h0 B) + 2 ≤ 2 * headers s + 4)%nat.
Proof.
  pose proof (length_frees h0 B (hi_pos _ _ I)) as H. pose proof (hi_brk _ _ I) as [E _]. pose proof (hi_base _ _ I) as Hb. unfold headers, HEADER in *.
  pose proof (Z.div_le_mono (total B) (u_brk s) 16 ltac:(lia) ltac:(lia)). pose proof (Z.div_le_lower_bound (total B) 16 (Z.of_nat (length (frees h0 B)))). lia.
Qed.

Lemma free_run : ∃ s' B', free (bp + HEADER) s = Ok tt s' ∧ heap_inv s' B' ∧ useds h0 B' = useds h0 B1 ++ useds (bp + HEADER * n) B2 ∧
  only_at (bp :: base :: F1 ++ F2) (u_mem s) (u_mem s') ∧ u_brk s' = u_brk s ∧ u_answers s' = u_answers s ∧ gaps B' = gaps B ∧
  (length (frees h0 B') ≤ S (length (frees h0 B)))%nat ∧ ∃ z, z ∈ frees h0 B' ∧ n ≤ size (u_mem s') z.
Proof.
  pose proof around_order as (O1 & O2 & O3). pose proof around_pos as (P1 & P2 & P3). destruct join_next_run as (m1 & n' & B2' & R1 & J).
  destruct (join_prev_run m1 n' B2' J) as (m2 & B' & R2 & I' & O & U & G & Hl & z & Hz & Hsz). pose proof J as (_ & O' & Hn & _ & _ & _ & U' & G' & _ & _ & Hl').
  eexists _, B'. split; [|split; [exact I'|]].
  - unfold free. replace (bp + HEADER - HEADER) with bp by lia. rewrite u64_small by (pose proof (room_range _ _ bp_room); lia).
    rewrite (bind_ok (gets u_freep) _ s (u_freep s) s eq_refl), (bind_ok (gets headers) _ s (headers s) s eq_refl).
    erewrite bind_ok; [|apply (find_run s B F1 F2); [done|apply frees_around|done| | |apply headers_enough]].
    + rewrite (bind_ok _ _ _ _ _ R1), (bind_ok _ _ _ _ _ R2). reflexivity.
    + intros w Hw. apply O2 in Hw. unfold HEADER in *. lia.
    + intros w Hw. apply O3 in Hw. unfold HEADER in *. lia.
  - cbn [u_mem u_brk u_answers set_u_freep set_u_mem]. split_and!; try done.
    + by rewrite U, U'.
    + apply (only_at_trans _ _ m1).
      * apply (only_at_mono [bp]); [|done]. intros w ->%list_elem_of_singleton. left.
      * apply (only_at_mono [end_of base F1]); [|done]. intros w ->%list_elem_of_singleton. right. apply end_node.
    + by rewrite G, gaps_app, <- G'.
    + rewrite frees_around, length_app. lia.
    + exists z. split; [done|lia].
Qed.
End freeing.

(** ** malloc *)

Lemma coalesced_weaken B : coalesced true B → coalesced false B.
Proof. destruct B as [|b B]; simpl; [done|]. intros [_ H]. done. Qed.

(** Taking [k] units from the free block [z] of [n]. *)
Section taking.
Variables (s : ust) (B1 : list block) (n : Z) (B2 : list block) (k : Z).
Abbreviation z := (h0 + total B1).
Abbreviation F1 := (frees h0 B1).
Abbreviation F2 := (frees (z + HEADER * n) B2).
Abbreviation B := (B1 ++ (BFree, n) :: B2).
Abbreviation p := (end_of base F1).
Hypothesis I : heap_inv s B.
Hypothesis Hk : 1 ≤ k ≤ n.

Lemma frees_with : frees h0 B = F1 ++ z :: F2.
Proof. by rewrite frees_app. Qed.
Lemma with_pos : pos B1 ∧ pos B2 ∧ n < 2 ^ 31.
Proof.
  pose proof (hi_pos _ _ I) as H. apply pos_app in H as [H1 H]. apply Forall_cons in H as [H2 H3]. split_and!; [done|done|].
  pose proof (hi_brk _ _ I) as HB. rewrite total_app in HB. cbn [total blen is_gap fst snd] in HB.
  pose proof (total_nonneg _ H1). pose proof (total_nonneg _ H3). pose proof (hi_base _ _ I). assert (brk_max = 134217728) by done. unfold HEADER in *. lia.
Qed.
Lemma with_coal : coalesced false B1 ∧ ends_free false B1 = false ∧ coalesced true B2.
Proof. pose proof (hi_coal _ _ I) as H. apply coalesced_app in H as [H1 [H2 H3]]. simpl in H2. rewrite andb_true_r in H2. done. Qed.
Lemma with_sized : sized (u_mem s) h0 B1 ∧ size (u_mem s) z = n ∧ sized (u_mem s) (z + HEADER * n) B2.
Proof. pose proof (hi_sized _ _ I) as H. apply sized_app in H as [H1 [H2 H3]]. auto. Qed.
Lemma with_ring : links (u_mem s) base F1 ∧ ptr (u_mem s) p = z ∧ links (u_mem s) z F2 ∧ ptr (u_mem s) (end_of z F2) = base.
Proof.
  pose proof (hi_ring _ _ I) as [L Lw]. rewrite frees_with in *. apply links_app in L as [L1 [L2 L3]]. by rewrite end_of_app, end_of_cons in Lw.
Qed.
Lemma z_free : z ∈ base :: frees h0 B.
Proof. right. rewrite frees_with. apply elem_of_app. right. left. Qed.
Lemma p_free : p ∈ base :: frees h0 B.
Proof. rewrite frees_with, app_comm_cons. apply elem_of_app. left. apply end_of_in. Qed.
Lemma p_below : p + HEADER ≤ z.
Proof.
  pose proof with_pos as (P1 & _). pose proof (end_of_in base F1) as [->|H]%elem_of_cons.
  - pose proof (hi_base _ _ I). pose proof (total_nonneg _ P1). lia.
  - apply frees_starts, starts_range in H; [|done]. lia.
Qed.
(** The other headers are before the block or after it. *)
Lemma outside_block w : w ∈ base :: starts h0 B → w ≠ z → w + HEADER ≤ z ∨ z + HEADER * n ≤ w.
Proof.
  pose proof with_pos as (P1 & P2 & _). rewrite starts_app, elem_of_cons, elem_of_app. cbn [starts is_gap fst app]. rewrite elem_of_cons. intros [->|[H|[->|H]]] Hne.
  - left. pose proof (hi_base _ _ I). pose proof (total_nonneg _ P1). lia.
  - left. apply starts_range in H; [|done]. lia.
  - done.
  - right. apply starts_range in H; [|done]. unfold blen in H. simpl in H. lia.
Qed.
Lemma starts_with w : w ∈ starts h0 B1 ∨ w ∈ starts (z + HEADER * n) B2 → w ∈ base :: starts h0 B ∧ w ≠ z.
Proof.
  pose proof with_pos as (P1 & P2 & _). intros H. split.
  - right. rewrite starts_app. apply elem_of_app. destruct H; [auto|right]. right. done.
  - destruct H as [H|H]; apply starts_range in H; try done; unfold HEADER in *; lia.
Qed.

(** The whole block. *)
Lemma take_all : n = k → let m2 := st_ptr p (ptr (u_mem s) z) (u_mem s) in
  heap_inv (set_u_freep p (set_u_mem m2 s)) (B1 ++ (BUsed, n) :: B2).
Proof.
  intros _ m2. pose proof with_pos as (P1 & P2 & Hn). pose proof with_coal as (C1 & Ce & C2). pose proof with_sized as (S1 & Sz & S2). pose proof with_ring as (L1 & Lp & L2 & Le).
  assert (only_at [p] (u_mem s) m2) as O by apply only_ptr. assert (∀ w, w ∈ base :: starts h0 B → w ≠ p → ptr m2 w = ptr (u_mem s) w) as HP.
  { intros w Hw Hne. apply (ptr_only [p]); [done|]. intros w' ->%list_elem_of_singleton. apply (node_apart s B); [done|done|apply ring_node, p_free|done]. }
  assert (∀ w, w ∈ base :: starts h0 B → size m2 w = size (u_mem s) w) as HS.
  { intros w Hw. destruct (decide (w = p)) as [->|Hne]; [apply size_st_ptr|]. apply (size_only [p]); [done|]. intros w' ->%list_elem_of_singleton.
    apply (node_apart s B); [done|done|apply ring_node, p_free|done]. }
  pose proof p_below as Hpz. assert (0 ≤ ptr (u_mem s) z < 2 ^ 64) as Hpr.
  { destruct F2 as [|y l] eqn:E2.
    - change (end_of z []) with z in Le. rewrite Le. pose proof (room_range _ _ (node_room s B base I ltac:(left))). lia.
    - destruct L2 as [-> _]. assert (y ∈ base :: frees h0 B) as Hy by (right; rewrite frees_with, E2; apply elem_of_app; right; right; left).
      pose proof (room_range _ _ (node_room s B y I (ring_node _ _ Hy))). lia. }
  destruct (links_from (u_mem s) m2 p z F2 L2) as [L2' Le'].
  { by apply ptr_st_ptr. } { intros w Hw. apply HP; [by apply starts_with; right; apply frees_starts|]. apply frees_starts, starts_range in Hw; [|done]. unfold HEADER in *. lia. }
  assert (frees h0 (B1 ++ (BUsed, n) :: B2) = F1 ++ F2) as EF by by rewrite frees_app.
  constructor; cbn [u_mem u_brk u_freep set_u_freep set_u_mem].
  - apply (hi_base _ _ I).
  - pose proof (hi_brk _ _ I) as HB. rewrite total_app in *. exact HB.
  - apply pos_app. split; [done|]. apply Forall_cons. split; [cbn [snd]; lia|done].
  - apply coalesced_app. split; [done|]. split; [by rewrite Ce|by apply coalesced_weaken].
  - apply sized_app. split; [|split].
    + apply (sized_ext (u_mem s)); [|done]. intros w Hw. apply HS, starts_with. auto.
    + intros _. rewrite HS; [done|]. apply ring_node, z_free.
    + apply (sized_ext (u_mem s)); [|done]. intros w Hw. apply HS, starts_with. auto.
  - rewrite HS by left. apply (hi_bsize _ _ I).
  - rewrite EF. split; [|by rewrite end_of_app, Le']. apply links_app. split; [|done]. pose proof (ring_sorted s B I) as Hs. rewrite frees_with, app_comm_cons in Hs.
    apply (links_ext (u_mem s)); [|by apply sorted_nodup, (sorted_app_l _ (z :: F2))|done]. intros w Hw Hne. apply HP; [|done]. apply ring_node.
    rewrite frees_with, app_comm_cons. apply elem_of_app. auto.
  - rewrite EF, app_comm_cons. apply elem_of_app. left. apply end_of_in.
Qed.

(** The tail of the block. *)
Lemma take_part : k < n → let a := z + HEADER * (n - k) in let m2 := st_size a k (st_size z (n - k) (u_mem s)) in
  heap_inv (set_u_freep p (set_u_mem m2 s)) (B1 ++ (BFree, n - k) :: (BUsed, k) :: B2).
Proof.
  intros Hlt a m2. pose proof with_pos as (P1 & P2 & Hn). pose proof with_coal as (C1 & Ce & C2). pose proof with_sized as (S1 & Sz & S2). pose proof with_ring as (L1 & Lp & L2 & Le).
  assert (only_at [a] (st_size z (n - k) (u_mem s)) m2) as O by apply only_size. assert (only_at [z] (u_mem s) (st_size z (n - k) (u_mem s))) as O0 by apply only_size.
  assert (∀ w, w ∈ base :: starts h0 B → apart w a) as Ha.
  { intros w Hw. destruct (decide (w = z)) as [->|Hne]; [left; unfold a, HEADER; lia|]. destruct (outside_block w Hw Hne); [left|right]; unfold a, HEADER in *; lia. }
  assert (∀ w, w ∈ base :: starts h0 B → ptr m2 w = ptr (u_mem s) w) as HP.
  { intros w Hw. rewrite (ptr_only [a] (st_size z (n - k) (u_mem s))); [|done|intros ? ->%list_elem_of_singleton; auto].
    destruct (decide (w = z)) as [->|Hne]; [apply ptr_st_size|]. apply (ptr_only [z]); [done|]. intros ? ->%list_elem_of_singleton.
    apply (node_apart s B); [done|done|apply ring_node, z_free|done]. }
  assert (∀ w, w ∈ base :: starts h0 B → w ≠ z → size m2 w = size (u_mem s) w) as HS.
  { intros w Hw Hne. rewrite (size_only [a] (st_size z (n - k) (u_mem s))); [|done|intros ? ->%list_elem_of_singleton; auto].
    apply (size_only [z]); [done|]. intros ? ->%list_elem_of_singleton. apply (node_apart s B); [done|done|apply ring_node, z_free|done]. }
  assert (size m2 z = n - k) as Hz.
  { rewrite (size_only [a] (st_size z (n - k) (u_mem s))); [apply size_st_size; lia|done|]. intros ? ->%list_elem_of_singleton. apply Ha, ring_node, z_free. }
  assert (a + HEADER * k = z + HEADER * n) as Ea by (unfold a, HEADER; lia).
  assert (frees h0 (B1 ++ (BFree, n - k) :: (BUsed, k) :: B2) = F1 ++ z :: F2) as EF.
  { rewrite frees_app. cbn [frees is_free fst app blen is_gap snd]. fold a. by rewrite Ea. }
  constructor; cbn [u_mem u_brk u_freep set_u_freep set_u_mem].
  - apply (hi_base _ _ I).
  - pose proof (hi_brk _ _ I) as HB. rewrite total_app in *. cbn [total blen is_gap fst snd] in *. unfold HEADER in *. lia.
  - apply pos_app. split; [done|]. repeat (apply Forall_cons; split; [cbn [snd]; lia|]). done.
  - apply coalesced_app. split; [done|]. split; [by rewrite Ce|]. split; [done|by apply coalesced_weaken].
  - apply sized_app. split; [|split; [by intros _|]].
    + apply (sized_ext (u_mem s)); [|done]. intros w Hw. apply HS; apply starts_with; auto.
    + change (z + blen (BFree, n - k)) with a. split; [intros _; apply size_st_size; cbn [snd]; lia|]. change (a + blen (BUsed, k)) with (a + HEADER * k). rewrite Ea.
      apply (sized_ext (u_mem s)); [|done]. intros w Hw. apply HS; apply starts_with; auto.
  - rewrite HS; [apply (hi_bsize _ _ I)|left|]. pose proof (hi_base _ _ I). pose proof (total_nonneg _ P1). unfold HEADER in *. lia.
  - rewrite EF, <- frees_with. pose proof (hi_ring _ _ I) as [L Lw].
    destruct (links_from (u_mem s) m2 base base (frees h0 B) L) as [L' Lw']; [apply HP; left|intros w Hw; apply HP, ring_node; by right|].
    split; [done|by rewrite Lw'].
  - rewrite EF, <- frees_with. apply p_free.
Qed.

Lemma take_run : ∃ s' B' a, malloc_turn k (p, z) s = Ok (inr (a + HEADER)) s' ∧ heap_inv s' B' ∧
  useds h0 B' = useds h0 B1 ++ (a, k) :: useds (z + HEADER * n) B2 ∧ only_at (a :: base :: frees h0 B) (u_mem s) (u_mem s') ∧
  z ≤ a ∧ a + HEADER * k = z + HEADER * n ∧ u_brk s' = u_brk s ∧ gaps B' = gaps B.
Proof.
  pose proof with_pos as (P1 & P2 & Hn). pose proof with_sized as (S1 & Sz & S2).
  assert (room z s) as Rz by (apply (node_room s B), ring_node, z_free; done). assert (room p s) as Rp by (apply (node_room s B), ring_node, p_free; done).
  unfold malloc_turn. rewrite (bind_ok _ _ _ _ _ (get_size_run _ s Rz)), Sz. replace (n >=? k) with true by lia. destruct (decide (n = k)) as [E|E].
  - eexists _, _, z. split; [|split; [by apply take_all|]].
    + replace (n =? k) with true by lia. erewrite bind_ok.
      2:{ rewrite (bind_ok _ _ _ _ _ (get_ptr_run _ s Rz)), (bind_ok _ _ _ _ _ (put_ptr_run p _ s Rp)). reflexivity. }
      erewrite bind_ok by reflexivity. by rewrite (header_add_small _ _ s Rz) by lia.
    + split_and!; try done; [by rewrite useds_app, E| |by rewrite E|by rewrite !gaps_app]. cbn [u_mem set_u_freep set_u_mem]. apply (only_at_mono [p]); [|apply only_ptr].
      intros w ->%list_elem_of_singleton. right. apply p_free.
  - set (a := z + HEADER * (n - k)). eexists _, _, a. split; [|split; [by apply take_part; lia|]].
    + replace (n =? k) with false by lia. rewrite u32_small by lia. set (m1 := st_size z (n - k) (u_mem s)). set (s1 := set_u_mem m1 s).
      assert (room a s1) as Ra.
      { pose proof (hi_brk _ _ I) as HB. rewrite total_app in HB. cbn [total blen is_gap fst snd] in HB. pose proof (total_nonneg _ P2).
        destruct Rz as [Rz _]. unfold room, a, HEADER in *. simpl. lia. }
      erewrite bind_ok.
      2:{ rewrite (bind_ok _ _ _ _ _ (put_size_run z _ s Rz)). fold m1 s1. rewrite (bind_ok _ _ _ _ _ (get_size_run z s1 Rz)). change (u_mem s1) with m1.
          assert (size m1 z = n - k) as -> by (apply size_st_size; lia). cbv zeta. rewrite (header_add_small z _ s Rz) by lia. fold a.
          rewrite (bind_ok _ _ _ _ _ (put_size_run a _ s1 Ra)). reflexivity. }
      erewrite bind_ok by reflexivity. rewrite (header_add_small a 1 s1 Ra) by lia. reflexivity.
    + split_and!; try done; try (unfold a, HEADER; lia).
      * rewrite useds_app. cbn [useds fst snd app blen is_gap]. fold a. do 3 f_equal. unfold a, HEADER. lia.
      * cbn [u_mem set_u_freep set_u_mem]. eapply only_at_trans.
        -- apply (only_at_mono [z]); [|apply only_size]. intros w ->%list_elem_of_singleton. right. apply z_free.
        -- apply (only_at_mono [a]); [|apply only_size]. intros w ->%list_elem_of_singleton. left.
      * by rewrite !gaps_app.
Qed.
End taking.

(** *** The walk around the ring *)

Lemma malloc_skip k L : ∀ x y fuel s, links (u_mem s) x (L ++ [y]) → (∀ z, z ∈ L → room z s ∧ size (u_mem s) z < k ∧ z ≠ u_freep s) →
  loop (length L + fuel) (malloc_turn k) (x, hd y L) s = loop fuel (malloc_turn k) (end_of x L, y) s.
Proof.
  induction L as [|z L IH]; intros x y fuel s Hl HL; [done|]. destruct Hl as [_ Hl]. destruct (HL z ltac:(left)) as (Rz & Hz & Hne).
  rewrite end_of_cons. simpl length. cbn [Nat.add hd loop].
  assert (malloc_turn k (x, z) s = Ok (inl (z, hd y L)) s) as E.
  { unfold malloc_turn. rewrite (bind_ok _ _ _ _ _ (get_size_run _ s Rz)). replace (size (u_mem s) z >=? k) with false by lia.
    rewrite (bind_ok (gets u_freep) _ s (u_freep s) s eq_refl). replace (z =? u_freep s) with false by lia.
    rewrite (bind_ok _ _ _ _ _ (get_ptr_run _ s Rz)). destruct L as [|w L]; destruct Hl as [-> _]; done. }
  rewrite (bind_ok _ _ _ _ _ E). apply IH; [done|]. intros w Hw. apply HL. by right.
Qed.

(** The ring from one of its headers on. *)
Lemma rotate m l f : ring m l → NoDup (base :: l) → f ∈ base :: l →
  ∃ R, links m f (R ++ [f]) ∧ (∀ z, z ∈ R ++ [f] ↔ z ∈ base :: l) ∧ (f ∉ R) ∧ length R = length l.
Proof.
  intros [L Lw] Hnd Hf. destruct (decide (f = base)) as [->|Hne].
  - exists l. apply NoDup_cons in Hnd as [Hb _]. split_and!; [|set_solver|done|done]. apply links_app. split; [done|]. done.
  - apply elem_of_cons in Hf as [|Hf]; [done|]. apply list_elem_of_split in Hf as (l1 & l2 & ->). apply links_app in L as [L1 [L2 L3]].
    rewrite end_of_app, end_of_cons in Lw. exists (l2 ++ base :: l1). split_and!.
    + rewrite <- app_assoc. apply links_app. split; [done|]. split; [done|]. apply links_app. split; [done|]. done.
    + intros z. set_solver.
    + apply NoDup_cons in Hnd as [Hb Hnd]. apply NoDup_app in Hnd as (N1 & N2 & N3). apply NoDup_cons in N3 as [N3 _]. set_solver.
    + rewrite !length_app. simpl. lia.
Qed.

Lemma split_unique (z : Z) l1 l2 l1' l2' : NoDup (l1 ++ z :: l2) → l1 ++ z :: l2 = l1' ++ z :: l2' → l1 = l1'.
Proof.
  revert l1'. induction l1 as [|x l1 IH]; intros [|x' l1'] Hnd E; simpl in *; simplify_eq; try done.
  - apply NoDup_cons in Hnd as [Hnd _]. set_solver.
  - apply NoDup_cons in Hnd as [Hnd _]. set_solver.
  - apply NoDup_cons in Hnd as [_ Hnd]. f_equal. by apply (IH l1').
Qed.
Lemma node_prefix x l : x ∈ base :: l → ∃ l1 l2, l = l1 ++ l2 ∧ x = end_of base l1.
Proof.
  intros [->|H]%elem_of_cons; [by exists [], l|]. apply list_elem_of_split in H as (l1 & l2 & ->). exists (l1 ++ [x]), l2.
  by rewrite <- app_assoc, end_of_snoc.
Qed.
(** The header that points at a free block is the one before it. *)
Lemma pred_unique m l1 z l2 x : ring m (l1 ++ z :: l2) → NoDup (base :: l1 ++ z :: l2) → x ∈ base :: l1 ++ z :: l2 → ptr m x = z → x = end_of base l1.
Proof.
  intros R Hnd Hx E. apply node_prefix in Hx as (l1' & l2' & El & ->). rewrite El in R. apply ring_next in R. rewrite R in E.
  apply NoDup_cons in Hnd as [Hb Hnd]. destruct l2' as [|w l2']; simpl in E; subst.
  - set_solver.
  - f_equal. symmetry. by apply (split_unique z l1 l2 l1' l2').
Qed.

Lemma frees_split lo B z : z ∈ frees lo B → ∃ B1 n B2, B = B1 ++ (BFree, n) :: B2 ∧ z = lo + total B1.
Proof.
  revert lo. induction B as [|b B IH]; intros lo; simpl; [by intros ?%elem_of_nil|]. rewrite elem_of_app. intros [H|H].
  - destruct b as [[] n]; simpl in H; try by apply elem_of_nil in H. apply list_elem_of_singleton in H as ->. exists [], n, B. split; [done|simpl; lia].
  - apply IH in H as (B1 & n & B2 & -> & ->). exists (b :: B1), n, B2. split; [done|simpl; lia].
Qed.
Lemma first_fit (P : Z → Prop) `{∀ x, Decision (P x)} l : (∃ l1 z l2, l = l1 ++ z :: l2 ∧ P z ∧ ∀ w, w ∈ l1 → ¬ P w) ∨ (∀ w, w ∈ l → ¬ P w).
Proof.
  induction l as [|x l IH]; [right; by intros w ?%elem_of_nil|]. destruct (decide (P x)) as [Hx|Hx].
  - left. exists [], x, l. split_and!; [done|done|by intros w ?%elem_of_nil].
  - destruct IH as [(l1 & z & l2 & -> & Hz & Hl)|Hl]; [left; exists (x :: l1), z, l2; split_and!; [done|done|]|right]; set_solver.
Qed.

Definition takes (s : ust) (B : list block) (k r : Z) (s' : ust) : Prop := ∃ B' B1 n B2 a, let z := h0 + total B1 in
  B = B1 ++ (BFree, n) :: B2 ∧ r = a + HEADER ∧ heap_inv s' B' ∧ useds h0 B' = useds h0 B1 ++ (a, k) :: useds (z + HEADER * n) B2 ∧
  only_at (a :: base :: frees h0 B) (u_mem s) (u_mem s') ∧ z ≤ a ∧ a + HEADER * k = z + HEADER * n ∧ u_brk s' = u_brk s ∧ gaps B' = gaps B.

Section walk.
Variables (s : ust) (B : list block) (k : Z).
Hypothesis I : heap_inv s B.
Hypothesis Hk : 1 ≤ k.
Abbreviation F := (frees h0 B).
Abbreviation f := (u_freep s).

Lemma ring_nodup : NoDup (base :: F).
Proof. by apply sorted_nodup, (ring_sorted s). Qed.
Lemma ring_room z : z ∈ base :: F → room z s.
Proof. intros Hz. by apply (node_room s B), ring_node. Qed.
Lemma large_free z : z ∈ base :: F → k ≤ size (u_mem s) z → ∃ B1 n B2, B = B1 ++ (BFree, n) :: B2 ∧ z = h0 + total B1 ∧ k ≤ n.
Proof.
  intros [->|Hz]%elem_of_cons Hs; [rewrite (hi_bsize _ _ I) in Hs; lia|]. pose proof Hz as (B1 & n & B2 & E & Ez)%frees_split.
  exists B1, n, B2. split_and!; [done|done|]. pose proof (hi_sized _ _ I) as HS. rewrite E in HS. apply sized_app in HS as [_ [HS _]]. rewrite <- Ez in HS.
  specialize (HS eq_refl). cbn [snd] in HS. lia.
Qed.

Lemma malloc_found fuel : (∃ z, z ∈ F ∧ k ≤ size (u_mem s) z) → (length F + 1 ≤ fuel)%nat →
  ∃ r s', loop fuel (malloc_turn k) (f, ptr (u_mem s) f) s = Ok r s' ∧ takes s B k r s'.
Proof.
  intros (z0 & Hz0 & Hs0) Hf. destruct (rotate _ _ f (hi_ring _ _ I) ring_nodup (hi_freep _ _ I)) as (R & L & HR & Hfr & HlR).
  destruct (first_fit (λ z, k ≤ size (u_mem s) z) (R ++ [f])) as [(L1 & z & L2 & E & Hz & HL)|Hall].
  2:{ exfalso. apply (Hall z0); [|done]. apply HR. by right. }
  assert (z ∈ base :: F) as Hzn by (apply HR; rewrite E; set_solver). destruct (large_free z Hzn Hz) as (B1 & n & B2 & EB & Ez & Hn).
  assert (∀ w, w ∈ L1 → w ∈ R) as HLR.
  { intros w Hw. destruct L2 as [|y L2 _] using rev_ind.
    - apply app_inj_tail in E as [-> _]. done.
    - change (z :: L2 ++ [y]) with ((z :: L2) ++ [y]) in E. rewrite app_assoc in E. apply app_inj_tail in E as [-> _]. set_solver. }
  assert (links (u_mem s) f (L1 ++ [z])) as Lz.
  { rewrite E in L. change (z :: L2) with ([z] ++ L2) in L. rewrite app_assoc in L. by apply links_app in L as [L _]. }
  assert (ptr (u_mem s) f = hd z L1) as Ep by (destruct L1; apply Lz). rewrite Ep.
  assert (length L1 ≤ length R)%nat as HlL by (apply (f_equal length) in E; rewrite !length_app in E; simpl in E; lia).
  replace fuel with (length L1 + S (fuel - length L1 - 1))%nat by lia. rewrite malloc_skip; [|done|].
  2:{ intros w Hw. split_and!; [apply ring_room, HR; set_solver|specialize (HL w Hw); lia|]. intros ->. by apply Hfr, HLR. }
  assert (end_of f L1 = end_of base (frees h0 B1)) as Epr.
  { assert (F = frees h0 B1 ++ z :: frees (z + HEADER * n) B2) as EF by (rewrite EB, frees_app, Ez; done).
    pose proof (hi_ring _ _ I) as HRg. pose proof ring_nodup as Hnd. rewrite EF in HRg, Hnd. apply (pred_unique _ _ z _ _ HRg Hnd).
    - rewrite <- EF. pose proof (end_of_in f L1) as [->|Hin]%elem_of_cons; [apply (hi_freep _ _ I)|]. apply HR. set_solver.
    - apply links_app in Lz as [_ [Lz _]]. done. }
  rewrite Epr, Ez. pose proof I as I'. rewrite EB in I'. destruct (take_run s B1 n B2 k I' ltac:(lia)) as (s' & B' & a & R1 & R2 & R3 & R4 & R5).
  exists (a + HEADER), s'. split; [by apply loop_end|]. exists B', B1, n, B2, a. rewrite EB. done.
Qed.

Lemma malloc_none fuel : (∀ z, z ∈ F → size (u_mem s) z < k) →
  ∃ x, loop (length F + fuel) (malloc_turn k) (f, ptr (u_mem s) f) s = loop fuel (malloc_turn k) (x, f) s.
Proof.
  intros Hall. destruct (rotate _ _ f (hi_ring _ _ I) ring_nodup (hi_freep _ _ I)) as (R & L & HR & Hfr & HlR). exists (end_of f R).
  assert (ptr (u_mem s) f = hd f R) as -> by (destruct R; apply L). rewrite <- HlR. apply malloc_skip; [done|]. intros w Hw.
  assert (w ∈ base :: F) as Hw' by (apply HR; set_solver). split_and!; [by apply ring_room| |by intros ->].
  apply elem_of_cons in Hw' as [->|Hw']; [rewrite (hi_bsize _ _ I); lia|auto].
Qed.
End walk.

(** *** morecore *)

Definition core_units (k : Z) : Z := Z.max k 4096.
Definition granted (s : ust) (k : Z) : Prop := (∃ l, u_answers s = true :: l) ∧ u_brk s + HEADER * core_units k ≤ brk_max.

Lemma granted_dec s k : granted s k ∨ ¬ granted s k.
Proof.
  unfold granted. destruct (decide (u_brk s + HEADER * core_units k ≤ brk_max)); [|right; tauto]. destruct (u_answers s) as [|[] l0]; [right|left|right]; naive_solver.
Qed.
Lemma heap_grow s B m' l b : heap_inv s B → 1 ≤ b.2 → is_free b.1 = false → u_brk s + blen b ≤ brk_max → (∀ x, x < u_brk s → m' x = u_mem s x) →
  (is_gap b.1 = false → size m' (u_brk s) = b.2) → heap_inv (Ust m' (u_brk s + blen b) (u_freep s) l) (B ++ [b]).
Proof.
  intros I Hb Hfr Hmax Hm Hs. pose proof (hi_brk _ _ I) as [Eb _]. assert (∀ w, w ∈ base :: starts h0 B → ptr m' w = ptr (u_mem s) w ∧ size m' w = size (u_mem s) w) as HP.
  { intros w Hw. destruct (node_room s B w I Hw) as [H1 H2]. split; [apply load64_ext|apply load_le_ext]; intros x Hx; apply Hm; unfold HEADER in *; lia. }
  assert (frees h0 (B ++ [b]) = frees h0 B) as EF by (rewrite frees_app; simpl; rewrite Hfr; by rewrite app_nil_r).
  constructor; cbn [u_mem u_brk u_freep]; rewrite ?EF.
  - apply (hi_base _ _ I).
  - rewrite total_app. cbn [total]. lia.
  - apply pos_app. split; [apply (hi_pos _ _ I)|]. by apply Forall_singleton.
  - apply coalesced_app. split; [apply (hi_coal _ _ I)|]. split; [rewrite Hfr; apply andb_false_r|done].
  - apply sized_app. split; [|split; [|done]].
    + apply (sized_ext (u_mem s)); [|apply (hi_sized _ _ I)]. intros w Hw. apply HP. by right.
    + by rewrite Eb.
  - rewrite <- (hi_bsize _ _ I). apply HP. left.
  - destruct (hi_ring _ _ I) as [L Lw]. destruct (links_from (u_mem s) m' base base (frees h0 B) L) as [L' Lw'].
    + apply HP. left.
    + intros w Hw. apply HP, ring_node. by right.
    + split; [done|]. by rewrite Lw'.
  - apply (hi_freep _ _ I).
Qed.

Lemma morecore_refused s k : 1 ≤ k < 2 ^ 27 → ¬ granted s k → morecore k s = Ok 0 (Ust (u_mem s) (u_brk s) (u_freep s) (tail (u_answers s))).
Proof.
  intros Hk Hng. unfold morecore. assert ((if k <? 4096 then 4096 else k) = core_units k) as -> by (unfold core_units; destruct (k <? 4096) eqn:?; lia).
  rewrite s32_small by (unfold core_units, HEADER; lia).
  assert (sbrk (core_units k * HEADER) s = Ok (u64 (-1)) (Ust (u_mem s) (u_brk s) (u_freep s) (tail (u_answers s)))) as E.
  { unfold sbrk. replace (core_units k * HEADER >? 0) with true by (unfold core_units, HEADER; lia).
    destruct (u_answers s) as [|[] l] eqn:Ea; [done| |done]. replace (u_brk s + core_units k * HEADER <=? brk_max) with false; [done|].
    symmetry. apply Z.leb_gt. destruct (decide (u_brk s + HEADER * core_units k ≤ brk_max)); [|lia]. exfalso. apply Hng. split; [by exists l|done]. }
  rewrite (bind_ok _ _ _ _ _ E). done.
Qed.

Lemma morecore_granted s B k : heap_inv s B → 1 ≤ k < 2 ^ 27 → granted s k → ∃ s' B', morecore k s = Ok (u_freep s') s' ∧ heap_inv s' B' ∧
  useds h0 B' = useds h0 B ∧ (∀ x, x < u_brk s → (∀ w, w ∈ base :: frees h0 B → ¬ w ≤ x < w + HEADER) → u_mem s' x = u_mem s x) ∧
  u_brk s' = u_brk s + HEADER * core_units k ∧ gaps B' = gaps B ∧ u_freep s' ≠ 0 ∧
  (length (frees h0 B') ≤ S (length (frees h0 B)))%nat ∧ ∃ z, z ∈ frees h0 B' ∧ k ≤ size (u_mem s') z.
Proof.
  intros I Hk [[l Ea] Hmax]. set (nu := core_units k) in *. assert (1 ≤ nu ∧ k ≤ nu ∧ nu < 2 ^ 27) as Hnu by (unfold nu, core_units; lia).
  pose proof (hi_brk _ _ I) as [Eb Hb]. pose proof (hi_base _ _ I) as Hb0. pose proof (total_nonneg _ (hi_pos _ _ I)) as Htot. assert (brk_max = 134217728) as Emax by done.
  set (mz := λ x, if (PGROUNDUP (u_brk s) <=? x) && (x <? PGROUNDUP (u_brk s + HEADER * nu)) then 0 else u_mem s x).
  set (s0 := Ust mz (u_brk s + HEADER * nu) (u_freep s) l). assert (PGSIZE = 4096) as HPG by done.
  pose proof (PGROUNDUP_bounds (u_brk s) ltac:(unfold HEADER in *; lia)) as Hpg.
  assert (room (u_brk s) s0) as R0 by (unfold room, s0, HEADER in *; simpl; lia).
  set (s1 := set_u_mem (st_size (u_brk s) nu mz) s0).
  assert (heap_inv s1 (B ++ [(BUsed, nu)])) as I1.
  { apply (heap_grow s B _ l (BUsed, nu) I); [cbn [snd]; lia|done|done| |intros _; apply size_st_size; cbn [snd]; lia]. intros x Hx. unfold st_size. rewrite store_le_other by lia. unfold mz.
    by replace (PGROUNDUP (u_brk s) <=? x) with false by lia. }
  pose proof (free_run s1 B nu [] I1) as (s2 & B' & R & I2 & U & O & Ebk & _ & G & Hl & z & Hz & Hsz). rewrite Eb in R.
  exists s2, B'. split_and!; try done.
  - unfold morecore. assert ((if k <? 4096 then 4096 else k) = nu) as -> by (unfold nu, core_units; destruct (k <? 4096) eqn:?; lia).
    rewrite s32_small by (unfold HEADER; lia). replace (nu * HEADER) with (HEADER * nu) by lia.
    assert (sbrk (HEADER * nu) s = Ok (u_brk s) s0) as E.
    { unfold sbrk. replace (HEADER * nu >? 0) with true by (unfold HEADER; lia). rewrite Ea. by replace (u_brk s + HEADER * nu <=? brk_max) with true by lia. }
    rewrite (bind_ok _ _ _ _ _ E). replace (u_brk s =? u64 (-1)) with false by (symmetry; apply Z.eqb_neq; change (u64 (-1)) with (2 ^ 64 - 1); lia).
    rewrite (bind_ok _ _ _ _ _ (put_size_run _ nu s0 R0)). change (u_mem s0) with mz. fold s1. rewrite (header_add_small _ 1 s0 R0) by lia.
    rewrite Z.mul_1_r, (bind_ok _ _ _ _ _ R). done.
  - rewrite U. by rewrite app_nil_r.
  - intros x Hx Hout. rewrite O.
    + change (u_mem s1) with (st_size (u_brk s) nu mz). unfold st_size. rewrite store_le_other by lia. unfold mz. by replace (PGROUNDUP (u_brk s) <=? x) with false by lia.
    + intros w [->|Hw]%elem_of_cons; [unfold HEADER in *; lia|]. apply Hout. by rewrite app_nil_r in Hw.
  - rewrite G, gaps_app. apply app_nil_r.
  - pose proof (hi_freep _ _ I2) as Hfp. pose proof (hi_base _ _ I2). apply elem_of_cons in Hfp as [->|Hfp]; [lia|].
    apply frees_starts, starts_range in Hfp; [|apply (hi_pos _ _ I2)]. unfold HEADER in *. lia.
  - rewrite frees_app in Hl. simpl in Hl. by rewrite app_nil_r in Hl.
  - exists z. split; [done|lia].
Qed.

(** *** The blocks in use *)

Lemma useds_range lo B a n : pos B → (a, n) ∈ useds lo B → lo ≤ a ∧ a + HEADER * n ≤ lo + total B ∧ 1 ≤ n.
Proof.
  intros HB. revert lo. induction HB as [|b B Hb HB IH]; intros lo; simpl; [by intros ?%elem_of_nil|]. pose proof (total_nonneg B HB). pose proof (blen_pos b Hb) as [Hl _].
  rewrite elem_of_app. intros [Hu|Hu]; [|apply IH in Hu; lia]. destruct b as [[] x]; cbn [fst snd] in *; try by apply elem_of_nil in Hu.
  apply list_elem_of_singleton in Hu as [= -> ->]. unfold blen in *. cbn [is_gap fst snd] in *. lia.
Qed.
Lemma useds_frees lo B a n w : pos B → (a, n) ∈ useds lo B → w ∈ frees lo B → w + HEADER ≤ a ∨ a + HEADER * n ≤ w.
Proof.
  intros HB. revert lo. induction HB as [|b B Hb HB IH]; intros lo; simpl; [by intros ?%elem_of_nil|]. pose proof (blen_pos b Hb) as [Hl _].
  rewrite !elem_of_app. intros [Hu|Hu] [Hw|Hw].
  - destruct b as [[] x]; cbn [fst snd is_free] in *; by apply elem_of_nil in Hu || by apply elem_of_nil in Hw.
  - right. destruct b as [[] x]; cbn [fst snd is_free] in *; try by apply elem_of_nil in Hu. apply list_elem_of_singleton in Hu as [= -> ->].
    apply frees_starts, starts_range in Hw; [|done]. unfold blen in *. cbn [is_gap fst snd] in *. lia.
  - left. destruct b as [[] x]; cbn [fst snd is_free] in *; try by apply elem_of_nil in Hw. apply list_elem_of_singleton in Hw as ->.
    apply useds_range in Hu; [|done]. unfold blen, HEADER in *. cbn [is_gap fst snd] in *. lia.
  - by apply (IH (lo + blen b)).
Qed.
(** Their bytes are the same. *)
Definition kept (U : list (Z * Z)) (m m' : mem) : Prop := ∀ a n x, (a, n) ∈ U → a + HEADER ≤ x < a + HEADER * n → m' x = m x.
Lemma kept_trans U m1 m2 m3 : kept U m1 m2 → kept U m2 m3 → kept U m1 m3.
Proof. intros H1 H2 a n x Hu Hx. rewrite (H2 a n x) by done. by apply (H1 a n). Qed.

Lemma used_outside s B a n x w : heap_inv s B → (a, n) ∈ useds h0 B → a + HEADER ≤ x < a + HEADER * n → w ∈ base :: frees h0 B → ¬ w ≤ x < w + HEADER.
Proof.
  intros I Hu Hx [->|Hw]%elem_of_cons.
  - apply useds_range in Hu; [|apply (hi_pos _ _ I)]. pose proof (hi_base _ _ I). lia.
  - pose proof (useds_frees _ _ _ _ _ (hi_pos _ _ I) Hu Hw). lia.
Qed.
Lemma takes_kept s B k r s' : heap_inv s B → 1 ≤ k → takes s B k r s' → kept (useds h0 B) (u_mem s) (u_mem s').
Proof.
  intros I Hk (B' & B1 & n & B2 & a' & EB & _ & _ & _ & O & Ha1 & Ha2 & _) a n' x Hu Hx. apply O. intros w [->|Hw]%elem_of_cons; [|by apply (used_outside s B a n')].
  pose proof (hi_pos _ _ I) as HP. rewrite EB in HP. apply pos_app in HP as [P1 P2]. apply Forall_cons in P2 as [Pn P2]. cbn [snd] in Pn. rewrite EB, useds_app in Hu.
  cbn [useds fst app] in Hu. apply elem_of_app in Hu as [Hu|Hu]; apply useds_range in Hu; try done; unfold blen, HEADER in *; cbn [is_gap fst snd] in *; lia.
Qed.

(** *** malloc as a whole *)

(** Before the first call there is no ring. *)
Record fresh (s : ust) (B : list block) : Prop := {
  fr_freep : u_freep s = 0;
  fr_base : 0 < base ∧ base + HEADER ≤ h0;
  fr_brk : h0 + total B = u_brk s ∧ u_brk s ≤ brk_max;
  fr_pos : pos B;
  fr_gaps : Forall (λ b, b.1 = BGap) B;
}.
Definition heap_ok (s : ust) (B : list block) : Prop := heap_inv s B ∨ fresh s B.

Lemma gaps_empty B lo p m : Forall (λ b : block, b.1 = BGap) B → frees lo B = [] ∧ useds lo B = [] ∧ coalesced p B ∧ sized m lo B.
Proof.
  intros H. revert lo p. induction H as [|[k n] B Hb _ IH]; intros lo p; [done|]. cbn [fst] in Hb. subst k. simpl.
  destruct (IH (lo + blen (BGap, n)) false) as (-> & -> & H1 & H2). split_and!; try done. by rewrite andb_false_r.
Qed.
Lemma fresh_init s B : fresh s B → heap_inv (set_u_mem (st_size base 0 (st_ptr base base (u_mem s))) (set_u_freep base s)) B ∧ room base s ∧ useds h0 B = [].
Proof.
  intros [H1 H2 H3 H4 H5]. destruct (gaps_empty B h0 false (st_size base 0 (st_ptr base base (u_mem s))) H5) as (Ef & Eu & Hc & Hs).
  assert (room base s) as R by (pose proof (total_nonneg _ H4); unfold room; lia). split; [|done]. constructor; cbn [u_mem u_brk u_freep set_u_mem set_u_freep]; try done.
  - by apply size_st_size.
  - rewrite Ef. split; [done|]. change (end_of base []) with base. rewrite ptr_st_size. apply ptr_st_ptr. pose proof (room_range _ _ R). lia.
  - left.
Qed.

Definition units (nbytes : Z) : Z := (nbytes + HEADER - 1) / HEADER + 1.

(** What malloc does to the blocks in use: a new one, or none when there is no memory. *)
Definition allocates (s : ust) (B : list block) (k r : Z) (U' : list (Z * Z)) : Prop :=
  (r = 0 ∧ U' = useds h0 B ∧ ¬ granted s k ∧ ∀ z, z ∈ frees h0 B → size (u_mem s) z < k) ∨
  (∃ a U1 U2, r = a + HEADER ∧ 0 < a ∧ useds h0 B = U1 ++ U2 ∧ U' = U1 ++ (a, k) :: U2).

Lemma takes_allocates s0 B0 s B k r s' : heap_inv s B → useds h0 B = useds h0 B0 → takes s B k r s' →
  ∃ B', heap_inv s' B' ∧ allocates s0 B0 k r (useds h0 B') ∧ gaps B' = gaps B.
Proof.
  intros I E (B' & B1 & n & B2 & a & EB & -> & I' & U & _ & Ha & _ & _ & G). exists B'. split; [done|]. split; [|done]. right. exists a, (useds h0 B1), (useds (h0 + total B1 + HEADER * n) B2).
  pose proof (hi_base _ _ I). pose proof (hi_pos _ _ I) as HP. rewrite EB in HP. apply pos_app in HP as [P1 _]. pose proof (total_nonneg _ P1).
  split_and!; [done|unfold HEADER in *; lia| |done]. by rewrite <- E, EB, useds_app.
Qed.

Lemma malloc_loop_run s B k fuel : heap_inv s B → 1 ≤ k < 2 ^ 27 → (2 * length (frees h0 B) + 3 ≤ fuel)%nat →
  ∃ r s' B', loop fuel (malloc_turn k) (u_freep s, ptr (u_mem s) (u_freep s)) s = Ok r s' ∧ heap_inv s' B' ∧
    kept (useds h0 B) (u_mem s) (u_mem s') ∧ allocates s B k r (useds h0 B') ∧ gaps B' = gaps B.
Proof.
  intros I Hk Hf. assert (1 ≤ k) as Hk1 by lia. destruct (first_fit (λ z, k ≤ size (u_mem s) z) (frees h0 B)) as [(l1 & z & l2 & E & Hz & _)|Hall].
  - destruct (malloc_found s B k I Hk1 fuel) as (r & s' & R & T); [exists z; split; [rewrite E; set_solver|done]|lia|].
    destruct (takes_allocates s B s B k r s' I eq_refl T) as (B' & I' & A & G). exists r, s', B'. split_and!; try done. by apply (takes_kept s B k r s').
  - destruct (malloc_none s B k I Hk1 (S (fuel - length (frees h0 B) - 1))) as [x Ex]; [intros z Hz; specialize (Hall z Hz); lia|].
    replace (length (frees h0 B) + S (fuel - length (frees h0 B) - 1))%nat with fuel in Ex by lia. rewrite Ex.
    assert (size (u_mem s) (u_freep s) < k) as Hfs.
    { pose proof (hi_freep _ _ I) as [->|Hin]%elem_of_cons; [rewrite (hi_bsize _ _ I); lia|]. specialize (Hall _ Hin). lia. }
    assert (room (u_freep s) s) as Rf by (apply (ring_room s B I), (hi_freep _ _ I)).
    assert (malloc_turn k (x, u_freep s) s = (p ← morecore k; if p =? 0 then mret (inr 0) else nxt ← get_ptr p; mret (inl (p, nxt))) s) as Et.
    { unfold malloc_turn. rewrite (bind_ok _ _ _ _ _ (get_size_run _ s Rf)). replace (size (u_mem s) (u_freep s) >=? k) with false by lia.
      rewrite (bind_ok (gets u_freep) _ s (u_freep s) s eq_refl). by rewrite Z.eqb_refl. }
    destruct (granted_dec s k) as [Hg|Hg].
    + destruct (morecore_granted s B k I Hk Hg) as (s1 & B1 & R1 & I1 & U1 & K1 & Eb & G1 & Hfp & Hl & Hlarge).
      assert (room (u_freep s1) s1) as Rf1 by (apply (ring_room s1 B1 I1), (hi_freep _ _ I1)).
      assert (malloc_turn k (x, u_freep s) s = Ok (inl (u_freep s1, ptr (u_mem s1) (u_freep s1))) s1) as Et'.
      { rewrite Et, (bind_ok _ _ _ _ _ R1). replace (u_freep s1 =? 0) with false by lia. by rewrite (bind_ok _ _ _ _ _ (get_ptr_run _ s1 Rf1)). }
      cbn [loop]. rewrite (bind_ok _ _ _ _ _ Et'). destruct (malloc_found s1 B1 k I1 Hk1 (fuel - length (frees h0 B) - 1) Hlarge) as (r & s' & R & T); [lia|].
      destruct (takes_allocates s B s1 B1 k r s' I1 U1 T) as (B' & I' & A & G). exists r, s', B'. split_and!; try done; [|congruence].
      apply (kept_trans _ _ (u_mem s1)); [|rewrite <- U1; by apply (takes_kept s1 B1 k r s')]. intros a n y Hu Hy. apply K1.
      * apply useds_range in Hu; [|apply (hi_pos _ _ I)]. pose proof (hi_brk _ _ I). lia.
      * intros w Hw. by apply (used_outside s B a n y w).
    + eexists 0, _, B. split; [|split_and!].
      * apply loop_end. rewrite Et, (bind_ok _ _ _ _ _ (morecore_refused s k Hk Hg)). reflexivity.
      * destruct I. by constructor.
      * done.
      * left. split_and!; try done. intros z Hz. specialize (Hall z Hz). lia.
      * done.
Qed.

Lemma malloc_run s B nbytes : heap_ok s B → 0 ≤ nbytes → units nbytes < 2 ^ 27 → ∃ r s' B', malloc nbytes s = Ok r s' ∧ heap_inv s' B' ∧
  kept (useds h0 B) (u_mem s) (u_mem s') ∧ allocates s B (units nbytes) r (useds h0 B') ∧ gaps B' = gaps B.
Proof.
  intros Hok Hn Hmax. assert (1 ≤ units nbytes) as Hu by (unfold units, HEADER; Z.to_euclidean_division_equations; lia).
  unfold malloc. fold (units nbytes). rewrite u32_small by lia. rewrite (bind_ok (gets u_freep) _ s (u_freep s) s eq_refl).
  assert (∃ s1, (if u_freep s =? 0 then modify (set_u_freep base);; put_ptr base base;; put_size base 0;; mret base else mret (u_freep s)) s = Ok (u_freep s1) s1 ∧
    heap_inv s1 B ∧ kept (useds h0 B) (u_mem s) (u_mem s1) ∧ u_brk s1 = u_brk s ∧ (∀ r U', allocates s1 B (units nbytes) r U' → allocates s B (units nbytes) r U')) as (s1 & R1 & I1 & K1 & Eb & HA).
  { destruct Hok as [I|Fr].
    - exists s. split_and!; try done. replace (u_freep s =? 0) with false; [done|]. symmetry. apply Z.eqb_neq. pose proof (hi_base _ _ I).
      pose proof (hi_freep _ _ I) as [->|Hin]%elem_of_cons; [lia|]. apply frees_starts, starts_range in Hin; [|apply (hi_pos _ _ I)]. unfold HEADER in *. lia.
    - destruct (fresh_init s B Fr) as (I1 & R & Eu). eexists. split; [|split_and!; [exact I1|..]].
      + rewrite (fr_freep _ _ Fr). change (0 =? 0) with true. cbv iota. erewrite bind_ok by reflexivity.
        rewrite (bind_ok _ _ _ _ _ (put_ptr_run base _ (set_u_freep base s) R)). by rewrite (bind_ok _ _ _ _ _ (put_size_run base _ (set_u_mem _ (set_u_freep base s)) R)).
      + rewrite Eu. intros a n x Hin. by apply elem_of_nil in Hin.
      + done.
      + intros r U' [(H1 & H2 & H3 & H4)|H]; [left|by right]. split_and!; try done. destruct (gaps_empty B h0 false (u_mem s) (fr_gaps _ _ Fr)) as (-> & _).
        by intros z Hz%elem_of_nil. }
  rewrite (bind_ok _ _ _ _ _ R1). rewrite (bind_ok _ _ _ _ _ (get_ptr_run _ s1 (ring_room s1 B I1 _ (hi_freep _ _ I1)))).
  rewrite (bind_ok (gets headers) _ s1 (headers s1) s1 eq_refl).
  destruct (malloc_loop_run s1 B (units nbytes) (2 * headers s1 + 4) I1) as (r & s' & B' & R & I' & K & A & G).
  - lia.
  - pose proof (length_frees h0 B (hi_pos _ _ I1)) as H. pose proof (hi_brk _ _ I1) as [E _]. pose proof (hi_base _ _ I1) as Hb. unfold headers, HEADER in *.
    pose proof (Z.div_le_mono (total B) (u_brk s1) 16 ltac:(lia) ltac:(lia)). pose proof (Z.div_le_lower_bound (total B) 16 (Z.of_nat (length (frees h0 B)))). lia.
  - exists r, s', B'. split_and!; try done; [|by apply HA]. by apply (kept_trans _ _ (u_mem s1)).
Qed.

Lemma useds_split lo B U1 a n U2 : useds lo B = U1 ++ (a, n) :: U2 →
  ∃ B1 B2, B = B1 ++ (BUsed, n) :: B2 ∧ a = lo + total B1 ∧ U1 = useds lo B1 ∧ U2 = useds (a + HEADER * n) B2.
Proof.
  revert lo U1. induction B as [|[k x] B IH]; intros lo U1 E; [by destruct U1|]. destruct k.
  - apply IH in E as (B1 & B2 & -> & -> & -> & ->). exists ((BFree, x) :: B1), B2. cbn [total]. split_and!; try done; try lia; f_equal; lia.
  - cbn [useds fst snd app] in E. destruct U1 as [|u U1]; [injection E as <- <- <-|injection E as <- E].
    + exists [], B. split_and!; try done. cbn [total]. lia.
    + apply IH in E as (B1 & B2 & -> & -> & -> & ->). exists ((BUsed, x) :: B1), B2. cbn [total]. split_and!; try done; try lia; f_equal; lia.
  - apply IH in E as (B1 & B2 & -> & -> & -> & ->). exists ((BGap, x) :: B1), B2. cbn [total]. split_and!; try done; try lia; f_equal; lia.
Qed.
(** Two blocks in use do not meet. *)
Lemma useds_disjoint s B U1 a n U2 b n' : heap_ok s B → useds h0 B = U1 ++ (a, n) :: U2 → (b, n') ∈ U1 ++ U2 → b + HEADER * n' ≤ a ∨ a + HEADER * n ≤ b.
Proof.
  intros Hok (B1 & B2 & -> & -> & -> & ->)%useds_split Hb. assert (pos (B1 ++ (BUsed, n) :: B2)) as HP by (destruct Hok as [I|Fr]; [apply (hi_pos _ _ I)|apply (fr_pos _ _ Fr)]).
  apply pos_app in HP as [P1 P2]. apply Forall_cons in P2 as [_ P2]. apply elem_of_app in Hb as [Hb|Hb]; apply useds_range in Hb; try done; lia.
Qed.
Lemma useds_pos s B a n : heap_ok s B → (a, n) ∈ useds h0 B → 0 < a ∧ 1 ≤ n ∧ a + HEADER * n ≤ u_brk s ∧ u_brk s ≤ brk_max ∧ h0 ≤ a.
Proof.
  intros Hok Hu. destruct Hok as [I|Fr].
  - pose proof (hi_base _ _ I). pose proof (hi_brk _ _ I). apply useds_range in Hu; [|apply (hi_pos _ _ I)]. unfold HEADER in *. lia.
  - destruct (gaps_empty B h0 false (u_mem s) (fr_gaps _ _ Fr)) as (_ & E & _). rewrite E in Hu. by apply elem_of_nil in Hu.
Qed.

Lemma free_block_run s B U1 a n U2 : heap_ok s B → useds h0 B = U1 ++ (a, n) :: U2 → ∃ s' B', free (a + HEADER) s = Ok tt s' ∧ heap_inv s' B' ∧
  useds h0 B' = U1 ++ U2 ∧ kept (U1 ++ U2) (u_mem s) (u_mem s') ∧ gaps B' = gaps B.
Proof.
  intros Hok E. assert (heap_inv s B) as I.
  { destruct Hok as [|Fr]; [done|]. destruct (gaps_empty B h0 false (u_mem s) (fr_gaps _ _ Fr)) as (_ & E0 & _). rewrite E0 in E. by destruct U1. }
  pose proof (λ b n', useds_disjoint s B U1 a n U2 b n' Hok E) as Hd. pose proof E as (B1 & B2 & EB & Ea & E1 & E2)%useds_split. rewrite EB in I.
  destruct (free_run s B1 n B2 I) as (s' & B' & R & I' & U & O & _ & _ & G & _). rewrite <- Ea in *. exists s', B'. rewrite E1, E2. split_and!; try done; [|by rewrite EB].
  intros b n' x Hu Hx. apply O. rewrite <- E1, <- E2 in Hu. intros w [->|Hw]%elem_of_cons.
  - pose proof (Hd b n' Hu) as Hd'. assert (1 ≤ n). { pose proof (useds_pos s B a n Hok ltac:(rewrite E; set_solver)). lia. } unfold HEADER in *. lia.
  - apply (used_outside s (B1 ++ (BUsed, n) :: B2) b n' x w I); [|done|].
    + rewrite <- EB, E. set_solver.
    + by rewrite frees_app, <- Ea.
Qed.

Lemma sbrk_run s B n : heap_ok s B → 0 < n → ∃ r s' B', sbrk n s = Ok r s' ∧ heap_ok s' B' ∧ useds h0 B' = useds h0 B ∧
  (∀ x, x < u_brk s → u_mem s' x = u_mem s x) ∧ ((r = u64 (-1) ∧ B' = B) ∨ (r = u_brk s ∧ u_brk s' = r + n ∧ B' = B ++ [(BGap, n)])).
Proof.
  intros Hok Hn. unfold sbrk. replace (n >? 0) with true by lia.
  assert (∀ l, heap_ok (Ust (u_mem s) (u_brk s) (u_freep s) l) B) as Hsame.
  { intros l. destruct Hok as [I|Fr]; [left; destruct I; by constructor|right; destruct Fr; by constructor]. }
  destruct (u_answers s) as [|[] l]; [eexists _, _, B; split_and!; [done|apply Hsame|done|done|by left]| |eexists _, _, B; split_and!; [done|apply Hsame|done|done|by left]].
  destruct (u_brk s + n <=? brk_max) eqn:E; [|eexists _, _, B; split_and!; [done|apply Hsame|done|done|by left]].
  assert (0 ≤ u_brk s ≤ brk_max) as Hb.
  { destruct Hok as [I|Fr]; [pose proof (hi_brk _ _ I); pose proof (hi_base _ _ I); pose proof (total_nonneg _ (hi_pos _ _ I))|
      pose proof (fr_brk _ _ Fr); pose proof (fr_base _ _ Fr); pose proof (total_nonneg _ (fr_pos _ _ Fr))]; unfold HEADER in *; lia. }
  assert (brk_max = 134217728) as Emax by done. assert (PGSIZE = 4096) as HPG by done. pose proof (PGROUNDUP_bounds (u_brk s) ltac:(lia)) as Hpg.
  set (mz := λ x, if (PGROUNDUP (u_brk s) <=? x) && (x <? PGROUNDUP (u_brk s + n)) then 0 else u_mem s x).
  assert (∀ x, x < u_brk s → mz x = u_mem s x) as Hmz by (intros x Hx; unfold mz; by replace (PGROUNDUP (u_brk s) <=? x) with false by lia).
  eexists _, _, (B ++ [(BGap, n)]). split_and!; [done| | |done|by right].
  - destruct Hok as [I|Fr]; [left; apply (heap_grow s B mz l (BGap, n)); try done; cbn [snd]; unfold blen; cbn [is_gap fst snd]; lia|right].
    destruct Fr as [H1 H2 H3 H4 H5]. constructor; cbn [u_freep u_brk]; try done.
    + rewrite total_app. cbn [total blen is_gap fst snd]. lia.
    + apply pos_app. split; [done|]. apply Forall_singleton. cbn [snd]. lia.
    + apply Forall_app. split; [done|]. by apply Forall_singleton.
  - rewrite useds_app. simpl. by rewrite app_nil_r.
Qed.

(** The program writes in a block that it has. *)
Lemma useds_starts lo B a n w : pos B → (a, n) ∈ useds lo B → w ∈ starts lo B → w = a ∨ w + HEADER ≤ a ∨ a + HEADER * n ≤ w.
Proof.
  intros HB (U1 & U2 & E)%list_elem_of_split Hw. apply useds_split in E as (B1 & B2 & -> & -> & _). apply pos_app in HB as [P1 P2]. apply Forall_cons in P2 as [_ P2].
  rewrite starts_app in Hw. apply elem_of_app in Hw as [Hw|Hw]; [apply starts_range in Hw; [|done]; lia|]. cbn [starts is_gap fst app] in Hw.
  apply elem_of_cons in Hw as [->|Hw]; [by left|]. apply starts_range in Hw; [|done]. unfold blen in Hw. cbn [is_gap fst snd] in Hw. lia.
Qed.
Lemma heap_store s B a n m' : heap_ok s B → (a, n) ∈ useds h0 B → (∀ x, ¬ a + HEADER ≤ x < a + HEADER * n → m' x = u_mem s x) → heap_ok (set_u_mem m' s) B.
Proof.
  intros Hok Hu Hm. destruct Hok as [I|Fr].
  2:{ right. destruct Fr. by constructor. }
  left. assert (∀ w, w ∈ base :: starts h0 B → ∀ x, w ≤ x < w + HEADER → m' x = u_mem s x) as Hsame.
  { intros w Hw x Hx. apply Hm. apply elem_of_cons in Hw as [->|Hw].
    - apply useds_range in Hu; [|apply (hi_pos _ _ I)]. pose proof (hi_base _ _ I). unfold HEADER in *. lia.
    - pose proof (useds_starts _ _ _ _ _ (hi_pos _ _ I) Hu Hw). unfold HEADER in *. lia. }
  assert (∀ w, w ∈ base :: starts h0 B → ptr m' w = ptr (u_mem s) w ∧ size m' w = size (u_mem s) w) as HP.
  { intros w Hw. split; [apply load64_ext|apply load_le_ext]; intros x Hx; apply (Hsame w Hw); unfold HEADER; lia. }
  destruct I as [I1 I2 I3 I4 I5 I6 I7 I8]. constructor; cbn [u_mem u_brk u_freep set_u_mem]; try done.
  - apply (sized_ext (u_mem s)); [|done]. intros w Hw. apply HP. by right.
  - rewrite <- I6. apply HP. left.
  - destruct I7 as [L Lw]. destruct (links_from (u_mem s) m' base base (frees h0 B) L) as [L' Lw']; [apply HP; left|intros w Hw; apply HP, ring_node; by right|].
    split; [done|by rewrite Lw'].
Qed.
End heap.
