(* ===== verification/UmallocUse.v ===== *)
(** * The allocator of user/umalloc.c and the program that uses it

    A program calls malloc and free, writes to the blocks it has, and may grow its memory
    itself with sbrk.  Against that stands the heap that it may think of: a map from the
    pointers it has to their bytes, in which a new block is apart from all others and
    nothing changes but what the program writes.  The history of the program is the list
    of its operations with their results, the last one first. *)
From stdpp Require Import gmap sorting.
From S2P Require Import Prelude Mem Riscv Umalloc.
Open Scope Z_scope.

Inductive uop := Malloc (nbytes : Z) | Free (p : Z) | Store (p off : Z) (bs : list Z) | Grow (n : Z).
Definition run `{!UserImage} (op : uop) : M ust Z :=
  match op with
  | Malloc nbytes => malloc nbytes
  | Free p => free p;; mret 0
  | Store p off bs => modify (λ s, set_u_mem (store_bytes (u_mem s) (p + off) bs) s);; mret 0
  | Grow n => sbrk n
  end.
Abbreviation event := (uop * Z)%type.
Inductive trace `{!UserImage} (s0 : ust) : list event → ust → Prop :=
| tr_nil : trace s0 [] s0
| tr_step tr s op r s' : trace s0 tr s → run op s = Ok r s' → trace s0 ((op, r) :: tr) s'.

(** The pointers that the program has, with the sizes it asked for. *)
Fixpoint live (tr : list event) : gmap Z Z :=
  match tr with
  | [] => ∅
  | (Malloc nbytes, r) :: tr => if r =? 0 then live tr else <[r := nbytes]> (live tr)
  | (Free p, _) :: tr => delete p (live tr)
  | _ :: tr => live tr
  end.
(** What a correct program does.  Requests of 2 GB and more are left out: sbrk takes an int. *)
Definition allowed (L : gmap Z Z) (op : uop) : Prop :=
  match op with
  | Malloc nbytes => 0 ≤ nbytes ∧ units nbytes < 2 ^ 27
  | Free p => is_Some (L !! p)
  | Store p off bs => ∃ n, L !! p = Some n ∧ 0 ≤ off ∧ off + Z.of_nat (length bs) ≤ n ∧ Forall (λ b, 0 ≤ b < 256) bs
  | Grow n => 0 < n
  end.
Fixpoint legal (tr : list event) : Prop :=
  match tr with [] => True | (op, _) :: tr => allowed (live tr) op ∧ legal tr end.

(** The heap of the program. *)
Abbreviation aheap := (gmap Z (list Z)).
Definition size_of (l : list Z) : Z := Z.of_nat (length l).
Inductive astep (A : aheap) : event → aheap → Prop :=
| as_malloc nbytes p l : p ≠ 0 → A !! p = None → size_of l = nbytes →
    (∀ q l', A !! q = Some l' → p + nbytes ≤ q ∨ q + size_of l' ≤ p) → astep A (Malloc nbytes, p) (<[p := l]> A)
| as_none nbytes : astep A (Malloc nbytes, 0) A
| as_free p : astep A (Free p, 0) (delete p A)
| as_store p off bs l : A !! p = Some l → astep A (Store p off bs, 0) (<[p := list_inserts (Z.to_nat off) bs l]> A)
| as_grow n r : (∀ q l, A !! q = Some l → r ≠ u64 (-1) → r + n ≤ q ∨ q + size_of l ≤ r) → astep A (Grow n, r) A.
Inductive atrace : list event → aheap → Prop :=
| at_nil : atrace [] ∅
| at_step tr A e A' : atrace tr A → astep A e A' → atrace (e :: tr) A'.

(** The two heaps. *)
Definition holds (m : mem) (A : aheap) : Prop := ∀ p l, A !! p = Some l → load_bytes m p (length l) = l.
Definition no_grow (tr : list event) : Prop := ∀ n r, (Grow n, r) ∉ tr.

Section use.
Context `{UI : !UserImage}.
Variable h0 : Z.

Record rel (s : ust) (B : list block) (A : aheap) : Prop := {
  rl_heap : heap_ok h0 s B;
  rl_block p l : A !! p = Some l → ∃ n, (p - HEADER, n) ∈ useds h0 B ∧ size_of l ≤ HEADER * (n - 1);
  rl_used a n : (a, n) ∈ useds h0 B → is_Some (A !! (a + HEADER));
  rl_bytes : holds (u_mem s) A;
}.

(** The bytes of the blocks that are kept. *)
Lemma holds_kept U m m' A : holds m A → kept U m m' → (∀ p l, A !! p = Some l → ∃ n, (p - HEADER, n) ∈ U ∧ size_of l ≤ HEADER * (n - 1)) → holds m' A.
Proof.
  intros H K HA p l E. rewrite <- (H p l E) at 2. destruct (HA p l E) as (n & Hn & Hs). apply load_bytes_ext. intros x Hx.
  apply (K (p - HEADER) n); [done|]. unfold size_of, HEADER in *. lia.
Qed.

Lemma step_malloc s B A nbytes : rel s B A → 0 ≤ nbytes → units nbytes < 2 ^ 27 → ∃ r s' B' A', run (Malloc nbytes) s = Ok r s' ∧
  astep A (Malloc nbytes, r) A' ∧ rel s' B' A' ∧ size_of <$> A' = (if r =? 0 then size_of <$> A else <[r := nbytes]> (size_of <$> A)) ∧
  gaps B' = gaps B ∧ (r = 0 → ¬ granted s (units nbytes)).
Proof.
  intros [H1 H2 H3 H4] Hn Hmax. destruct (malloc_run h0 s B nbytes H1 Hn Hmax) as (r & s' & B' & R & I' & K & [(-> & U & Hng & _)|(a & U1 & U2 & -> & Ha & U & U')] & G).
  - exists 0, s', B', A. split_and!; [done|constructor| |done..]. constructor; [by left|by rewrite U..|]. by apply (holds_kept (useds h0 B) (u_mem s)).
  - assert (heap_ok h0 s' B') as Hok by by left. pose proof (λ b n', useds_disjoint h0 s' B' U1 a (units nbytes) U2 b n' Hok U') as Hd. rewrite <- U in Hd.
    assert (nbytes ≤ HEADER * (units nbytes - 1)) as Hu by (unfold units, HEADER; Z.to_euclidean_division_equations; lia).
    assert (A !! (a + HEADER) = None) as Hfr.
    { destruct (A !! (a + HEADER)) as [l|] eqn:E; [|done]. destruct (H2 _ _ E) as (n & Hin & Hs). replace (a + HEADER - HEADER) with a in Hin by lia.
      pose proof (useds_pos h0 s B _ _ H1 Hin). specialize (Hd _ _ Hin). unfold HEADER in *. lia. }
    set (l := load_bytes (u_mem s') (a + HEADER) (Z.to_nat nbytes)). assert (size_of l = nbytes) as El by (unfold size_of, l; rewrite length_load_bytes; lia).
    exists (a + HEADER), s', B', (<[a + HEADER := l]> A). split_and!; [done| | | |done|unfold HEADER; lia].
    + constructor; [unfold HEADER; lia|done|done|]. intros q l' E. destruct (H2 _ _ E) as (n & Hin & Hs). specialize (Hd _ _ Hin). unfold HEADER in *. lia.
    + constructor; [done|..].
      * intros p l' [[<- <-]|[Hne E]]%lookup_insert_Some.
        -- exists (units nbytes). replace (a + HEADER - HEADER) with a by lia. rewrite U'. split; [set_solver|lia].
        -- destruct (H2 _ _ E) as (n & Hin & Hs). exists n. split; [|done]. rewrite U'. rewrite U in Hin. set_solver.
      * intros b n Hin. rewrite lookup_insert_is_Some. destruct (decide (a + HEADER = b + HEADER)); [by left|right]. split; [done|]. apply (H3 b n). rewrite U.
        rewrite U' in Hin. set_solver.
      * intros p l' [[<- <-]|[Hne E]]%lookup_insert_Some; [unfold l; by rewrite length_load_bytes|]. by apply (holds_kept (useds h0 B) (u_mem s) (u_mem s') A).
    + replace (a + HEADER =? 0) with false by (unfold HEADER; lia). by rewrite fmap_insert, El.
Qed.

(** A block of another pointer is another block. *)
Lemma other_used (U1 U2 : list (Z * Z)) p q k k' : (q - HEADER, k') ∈ U1 ++ (p - HEADER, k) :: U2 → p ≠ q → (q - HEADER, k') ∈ U1 ++ U2.
Proof. rewrite !elem_of_app, elem_of_cons. intros [?|[?|?]] Hne; [by left|simplify_eq; lia|by right]. Qed.

Lemma step_free s B A p : rel s B A → is_Some (A !! p) → ∃ s' B', run (Free p) s = Ok 0 s' ∧ rel s' B' (delete p A) ∧ gaps B' = gaps B.
Proof.
  intros [H1 H2 H3 H4] [l E]. destruct (H2 _ _ E) as (k & (U1 & U2 & EU)%list_elem_of_split & Hs).
  destruct (free_block_run h0 s B U1 (p - HEADER) k U2 H1 EU) as (s' & B' & R & I' & U & K & G). replace (p - HEADER + HEADER) with p in R by lia.
  assert (∀ q l', delete p A !! q = Some l' → ∃ n, (q - HEADER, n) ∈ U1 ++ U2 ∧ size_of l' ≤ HEADER * (n - 1)) as HA.
  { intros q l' [Hne Eq]%lookup_delete_Some. destruct (H2 _ _ Eq) as (k' & Hin & Hs'). exists k'. split; [|done]. rewrite EU in Hin. by apply (other_used U1 U2 p q k). }
  exists s', B'. split_and!; [simpl; by rewrite (bind_ok _ _ _ _ _ R)| |done]. constructor; [by left|by rewrite U| |].
  - intros b n Hb. rewrite U in Hb. apply lookup_delete_is_Some. split; [|apply (H3 b n); rewrite EU; set_solver].
    intros ->. assert ((b, n) ∈ useds h0 B) as Hin by (rewrite EU; set_solver). pose proof (useds_pos h0 s B _ _ H1 Hin).
    pose proof (useds_disjoint h0 s B U1 _ k U2 _ _ H1 EU Hb). assert ((b + HEADER - HEADER, k) ∈ useds h0 B) as Hin' by (rewrite EU; set_solver).
    pose proof (useds_pos h0 s B _ _ H1 Hin'). unfold HEADER in *. lia.
  - apply (holds_kept (U1 ++ U2) (u_mem s)); [|done|done]. intros q l' [_ Eq]%lookup_delete_Some. auto.
Qed.

Lemma load_store_inserts m p off bs l : 0 ≤ off → off + size_of bs ≤ size_of l → Forall (λ b, 0 ≤ b < 256) bs → load_bytes m p (length l) = l →
  load_bytes (store_bytes m (p + off) bs) p (length l) = list_inserts (Z.to_nat off) bs l.
Proof.
  unfold size_of. intros H0 H1 Hb E. apply list_eq. intros i. destruct (decide (i < length l)%nat) as [Hi|Hi].
  - rewrite lookup_load_bytes by done. assert (l !! i = Some (m (p + Z.of_nat i))) as El by (rewrite <- E; by apply lookup_load_bytes).
    destruct (decide (off ≤ Z.of_nat i < off + Z.of_nat (length bs))) as [Hin|Hin].
    + rewrite store_bytes_in by (done || lia). rewrite list_lookup_inserts by lia. replace (Z.to_nat (p + Z.of_nat i - (p + off))) with (i - Z.to_nat off)%nat by lia.
      destruct (lookup_lt_is_Some_2 bs (i - Z.to_nat off)) as [v Hv]; [lia|]. rewrite Hv. by rewrite nth_lookup, Hv.
    + rewrite store_bytes_other by lia. destruct (decide (Z.of_nat i < off)); [rewrite list_lookup_inserts_lt by lia|rewrite list_lookup_inserts_ge by lia]; done.
  - rewrite !lookup_ge_None_2; [done|rewrite length_inserts; lia|rewrite length_load_bytes; lia].
Qed.

Lemma step_store s B A p off bs n : rel s B A → (size_of <$> A) !! p = Some n → 0 ≤ off → off + Z.of_nat (length bs) ≤ n → Forall (λ b, 0 ≤ b < 256) bs →
  ∃ l, A !! p = Some l ∧ rel (set_u_mem (store_bytes (u_mem s) (p + off) bs) s) B (<[p := list_inserts (Z.to_nat off) bs l]> A).
Proof.
  intros [H1 H2 H3 H4] (l & <- & E)%lookup_fmap_Some H0 Hlen Hb. exists l. split; [done|]. destruct (H2 _ _ E) as (k & Hin & Hs).
  assert (∀ x, ¬ p ≤ x < p + size_of l → store_bytes (u_mem s) (p + off) bs x = u_mem s x) as Hout by (intros x Hx; apply store_bytes_other; unfold size_of in *; lia).
  constructor.
  - apply (heap_store h0 s B (p - HEADER) k); [done|done|]. intros x Hx. apply Hout. unfold HEADER in *. lia.
  - intros q l' [[<- <-]|[Hne Eq]]%lookup_insert_Some; [|auto]. exists k. split; [done|]. unfold size_of in *. rewrite length_inserts. done.
  - intros a n Ha. apply lookup_insert_is_Some. destruct (decide (p = a + HEADER)); [by left|right]. split; [done|by apply (H3 a n)].
  - cbn [u_mem set_u_mem]. intros q l' [[<- <-]|[Hne Eq]]%lookup_insert_Some.
    + rewrite length_inserts. by apply load_store_inserts; [..|apply H4].
    + rewrite <- (H4 q l' Eq) at 2. apply load_bytes_ext. intros x Hx. apply Hout. destruct (H2 _ _ Eq) as (k' & Hin' & Hs').
      apply list_elem_of_split in Hin as (U1 & U2 & EU). rewrite EU in Hin'. pose proof (other_used U1 U2 p q k k' Hin' Hne) as Hq.
      pose proof (useds_disjoint h0 s B U1 _ k U2 _ _ H1 EU Hq). unfold size_of, HEADER in *. lia.
Qed.

Lemma step_grow s B A n : rel s B A → 0 < n → ∃ r s' B', run (Grow n) s = Ok r s' ∧ astep A (Grow n, r) A ∧ rel s' B' A.
Proof.
  intros [H1 H2 H3 H4] Hn. destruct (sbrk_run h0 s B n H1 Hn) as (r & s' & B' & R & Hok & U & Hm & Hr). exists r, s', B'. split_and!; [done| |].
  - constructor. intros q l E Hne. right. destruct Hr as [[? _]|(-> & _)]; [done|]. destruct (H2 _ _ E) as (k & Hin & Hs).
    pose proof (useds_pos h0 s B _ _ H1 Hin). unfold HEADER in *. lia.
  - constructor; [done|by rewrite U..|]. intros q l E. rewrite <- (H4 q l E) at 2. apply load_bytes_ext. intros x Hx. apply Hm. destruct (H2 _ _ E) as (k & Hin & Hs).
    pose proof (useds_pos h0 s B _ _ H1 Hin). unfold size_of, HEADER in *. lia.
Qed.

(** One operation that a correct program does. *)
Lemma step_run s B A op : rel s B A → allowed (size_of <$> A) op → ∃ r s' B' A', run op s = Ok r s' ∧ astep A (op, r) A' ∧ rel s' B' A' ∧
  (∀ tr, live tr = size_of <$> A → live ((op, r) :: tr) = size_of <$> A') ∧ ((∀ n, op ≠ Grow n) → gaps B' = gaps B).
Proof.
  intros HR Ha. destruct op as [nbytes|p|p off bs|n]; simpl in Ha.
  - destruct Ha as [H0 H1]. destruct (step_malloc s B A nbytes HR H0 H1) as (r & s' & B' & A' & R & St & HR' & EA & G & _). exists r, s', B', A'. split_and!; try done.
    intros tr Ht. simpl. by rewrite Ht, EA.
  - rewrite lookup_fmap, fmap_is_Some in Ha. destruct (step_free s B A p HR Ha) as (s' & B' & R & HR' & G). exists 0, s', B', (delete p A).
    split_and!; try done; [constructor|]. intros tr Ht. simpl. by rewrite Ht, fmap_delete.
  - destruct Ha as (n & El & H0 & H1 & Hb). destruct (step_store s B A p off bs n HR El H0 H1 Hb) as (l & E & HR'). eexists 0, _, B, _.
    split_and!; [done|by apply as_store|exact HR'| |done]. intros tr Ht. simpl. rewrite Ht, fmap_insert. symmetry. apply insert_id.
    rewrite lookup_fmap, E. simpl. unfold size_of. by rewrite length_inserts.
  - destruct (step_grow s B A n HR Ha) as (r & s' & B' & R & St & HR'). exists r, s', B', A. split_and!; try done. intros Hg. by destruct (Hg n).
Qed.

(** A heap in which nothing is used and that nobody else grew is one free block. *)
Lemma empty_heap lo B : coalesced false B → useds lo B = [] → gaps B = [] → B = [] ∨ ∃ n, B = [(BFree, n)].
Proof.
  destruct B as [|[[] n] [|[[] n'] B]]; simpl; naive_solver.
Qed.

Lemma one_block s n : heap_inv h0 s [(BFree, n)] →
  ptr (u_mem s) base = h0 ∧ ptr (u_mem s) h0 = base ∧ HEADER * size (u_mem s) h0 = u_brk s - h0.
Proof.
  intros I. pose proof (hi_ring _ _ _ I) as [[L _] Lw]. pose proof (hi_sized _ _ _ I) as [Sz _]. pose proof (hi_brk _ _ _ I) as [Eb _].
  split_and!; [done|exact Lw|]. rewrite (Sz eq_refl). cbn [total] in Eb. unfold blen in Eb. cbn [is_gap fst snd] in *. lia.
Qed.

Definition starts_at (s : ust) : Prop := u_freep s = 0 ∧ 0 < base ∧ base + HEADER ≤ h0 ∧ u_brk s = h0 ∧ h0 ≤ brk_max.

Lemma trace_rel s0 tr s : starts_at s0 → trace s0 tr s → legal tr →
  ∃ B A, rel s B A ∧ atrace tr A ∧ live tr = size_of <$> A ∧ (no_grow tr → gaps B = []).
Proof.
  intros (E1 & E2 & E3 & E4 & E5). induction 1 as [|tr s op r s' T IH R]; simpl.
  - exists [], ∅. split_and!; [|constructor|by rewrite fmap_empty|done]. constructor; [|done|by intros ? ? ?%elem_of_nil|done].
    right. constructor; simpl; try done; [lia|constructor].
  - intros [Ha Hl]. destruct (IH Hl) as (B & A & HR & At & EA & HG). rewrite EA in Ha. destruct (step_run s B A op HR Ha) as (r' & s1 & B' & A' & R' & St & HR' & EA' & HG').
    rewrite R in R'. simplify_eq. exists B', A'. split_and!; [done|by apply (at_step tr A)|by apply EA'|].
    intros Hn. rewrite HG'; [apply HG; intros n x Hx; apply (Hn n x); by right|]. intros n ->. apply (Hn n r'). left.
Qed.
End use.

(** C5: the allocator implements blocks of bytes.  Take a program whose heap begins at the
    break, and any sequence of malloc of less than 2 GB, free of a block that it has, stores into its blocks
    and growths of the break of its own, in which the kernel may refuse any sbrk.  Every
    result is one that a heap of separate blocks allows: a new block overlaps no other
    block, and what a block holds is what the program stored there last.  Every next
    correct operation ends without a fault, malloc fails only when the kernel refuses
    the memory, and when everything is freed the whole heap is one free block again. *)
Theorem umalloc_refines_blocks `{UI : !UserImage} (h0 : Z) (s0 s : ust) (tr : list event) :
  starts_at h0 s0 → trace s0 tr s → legal tr →
  (∃ A, atrace tr A ∧ live tr = size_of <$> A ∧ holds (u_mem s) A) ∧
  (∀ op, allowed (live tr) op → ∃ r s', run op s = Ok r s') ∧
  (∀ nbytes s', allowed (live tr) (Malloc nbytes) → run (Malloc nbytes) s = Ok 0 s' → ¬ granted s (units nbytes)) ∧
  (no_grow tr → live tr = ∅ → u_freep s ≠ 0 → h0 < u_brk s →
     ptr (u_mem s) base = h0 ∧ ptr (u_mem s) h0 = base ∧ HEADER * size (u_mem s) h0 = u_brk s - h0).
Proof.
  intros H0 T L. destruct (trace_rel h0 s0 tr s H0 T L) as (B & A & HR & At & EA & HG). rewrite EA. split_and!.
  - exists A. split_and!; [done|done|apply (rl_bytes _ _ _ _ HR)].
  - intros op Ha. destruct (step_run h0 s B A op HR Ha) as (r & s' & _ & _ & R & _). eauto.
  - intros nbytes s' [Ha1 Ha2] R. destruct (step_malloc h0 s B A nbytes HR Ha1 Ha2) as (r & s1 & _ & _ & R' & _ & _ & _ & _ & Hr).
    rewrite R in R'. simplify_eq. by apply Hr.
  - intros Hn ->%fmap_empty_inv Hfp Hbrk. pose proof (rl_heap _ _ _ _ HR) as [I|Fr]; [|by rewrite (fr_freep _ _ _ Fr) in Hfp].
    assert (useds h0 B = []) as HU. { destruct (useds h0 B) as [|[a n] U] eqn:E; [done|]. destruct (rl_used _ _ _ _ HR a n) as [? ?]; [rewrite E; left|done]. }
    destruct (empty_heap h0 B (hi_coal _ _ _ I) HU (HG Hn)) as [->|[n ->]]; [|by apply (one_block h0 s n)].
    pose proof (hi_brk _ _ _ I) as [Eb _]. cbn [total] in Eb. lia.
Qed.

Definition after `{!UserImage} (op : uop) (s : ust) : ust := match run op s with Ok _ s' => s' | _ => s end.
Lemma trace_after `{UI : !UserImage} s0 tr s op r : trace s0 tr s → match run op s with Ok r' _ => r' =? r | _ => false end = true →
  trace s0 ((op, r) :: tr) (after op s).
Proof. intros T H. apply (tr_step _ _ s); [done|]. unfold after. destruct (run op s); try done. by replace r with a by lia. Qed.

(** Two blocks of one morecore, the first freed and used again. *)
Lemma umalloc_refines_blocks_witness :
  let UI : UserImage := 64 in
  let s0 := Ust (λ _, 0) 4096 0 [true] in
  let tr := [(Free 69616, 0); (Free 69584, 0); (Malloc 3, 69584); (Free 69584, 0); (Store 69616 1 [7; 8], 0); (Malloc 4, 69584); (Malloc 10, 69616)] in
  let s := fold_right (λ e s, after e.1 s) s0 tr in
  ptr (u_mem s) 64 = 4096 ∧ ptr (u_mem s) 4096 = 64 ∧ HEADER * size (u_mem s) 4096 = u_brk s - 4096.
Proof.
  intros UI s0 tr s. assert (trace s0 tr s) as T by (unfold s, tr; cbn [fold_right fst]; repeat (apply trace_after; [|vm_compute; reflexivity]); apply tr_nil).
  destruct (umalloc_refines_blocks 4096 s0 s tr) as (_ & _ & _ & H); [|exact T| |].
  - by vm_compute.
  - cbn -[Z.le Z.lt]. clear. split_and!; try done; try (eexists; vm_compute; reflexivity). exists 10. split_and!; [vm_compute; reflexivity|lia|lia|repeat constructor; lia].
  - apply H; [|vm_compute; reflexivity|vm_compute; congruence|vm_compute; reflexivity]. intros n r Hin. unfold tr in Hin. repeat (apply elem_of_cons in Hin as [[=]|Hin]). by apply elem_of_nil in Hin.
Defined.

(** A request of 2 GB: the size is passed to sbrk as a negative int, which returns the break
    without moving it, and the header of the block is stored above the memory. *)
Lemma malloc_huge_faults : let UI : UserImage := 64 in malloc (2 ^ 31) (Ust (λ _, 0) 4096 0 [true]) = Panic "usertrap".
Proof. vm_compute. reflexivity. Qed.
