(* ===== verification/Ulib.v ===== *)
(** * The library of the user programs (user/ulib.c)

    A program computes on its own memory and calls the kernel.  [SysCalls] is what a
    program sees of the system calls, on a state of the system that is left open; [Files]
    states what the programs here rely on: read takes bytes off the front of what is left
    to read at a descriptor, write appends to what was written at one.  The string
    routines are the C loops on a byte memory, and the programs pass strings as the
    lists of their bytes. *)
From stdpp Require Import list.
From S2P Require Import Prelude Mem Fs File Grep.
Open Scope Z_scope.

(** ** Programs *)

(** A program goes on, has called exit, or has used up the fuel of one of its loops. *)
Inductive pres (O A : Type) : Type :=
| Goes (a : A) (o : O)
| Exited (status : Z) (o : O)
| Spins.
Arguments Goes {O A} a o.
Arguments Exited {O A} status o.
Arguments Spins {O A}.

Definition P (O A : Type) : Type := O → pres O A.
#[export] Instance P_ret O : MRet (P O) := λ A a o, Goes a o.
#[export] Instance P_bind O : MBind (P O) := λ A B k m o,
  match m o with
  | Goes a o' => k a o'
  | Exited st o' => Exited st o'
  | Spins => Spins
  end.
Definition exit {O A} (status : Z) : P O A := λ o, Exited status o.
Fixpoint repeats {O A B} (fuel : nat) (body : A → P O (A + B)) (a : A) : P O B :=
  match fuel with
  | 0%nat => λ _, Spins
  | S fuel' =>
      r ← body a;
      match r with
      | inl a' => repeats fuel' body a'
      | inr b => mret b
      end
  end.

Lemma goes_on {O A B} (m : P O A) (k : A → P O B) o a o' : m o = Goes a o' → (m ≫= k) o = k a o'.
Proof. intros H. unfold mbind, P_bind. by rewrite H. Qed.

(** ** System calls *)

(** The results are those of the kernel; a failed read or fstat delivers nothing. *)
Class SysCalls (O : Type) := {
  os_read : Z → Z → O → option (list Z) * O;
  os_write : Z → list Z → O → Z * O;
  os_open : list Z → Z → O → Z * O;
  os_close : Z → O → Z * O;
  os_fstat : Z → O → option stat * O;
  os_link : list Z → list Z → O → Z * O;
  os_unlink : list Z → O → Z * O;
  os_mkdir : list Z → O → Z * O;
  os_kill : Z → O → Z * O;
}.
Definition call {O A} (f : O → A * O) : P O A := λ o, let '(a, o') := f o in Goes a o'.

(** What the programs rely on.  [input fd o] is left to read at [fd], and [output fd o]
    has been written to it. *)
Class Files (O : Type) `{SC : !SysCalls O} := {
  input : Z → O → list Z;
  output : Z → O → list Z;
  readable : Z → O → Prop;
  writable : Z → O → Prop;
  read_delivers fd n o : readable fd o → 0 < n → ∃ bs o', os_read fd n o = (Some bs, o') ∧
    input fd o = bs ++ input fd o' ∧ Z.of_nat (length bs) ≤ n ∧ (bs = [] → input fd o = []) ∧ readable fd o' ∧
    (∀ fd', output fd' o' = output fd' o) ∧ (∀ fd', writable fd' o → writable fd' o');
  write_appends fd bs o : writable fd o → ∃ o', os_write fd bs o = (Z.of_nat (length bs), o') ∧
    output fd o' = output fd o ++ bs ∧ (∀ fd', fd' ≠ fd → output fd' o' = output fd' o) ∧
    (∀ fd', input fd' o' = input fd' o) ∧ (∀ fd', readable fd' o → readable fd' o') ∧ (∀ fd', writable fd' o → writable fd' o');
}.

(** ** Strings and memory *)

(** [while(( *s++ = *t++) != 0) ;] *)
Fixpoint strcpy (m : mem) (s t : Z) (fuel : nat) : option mem :=
  match fuel with
  | 0%nat => None
  | S fuel' => let m' := store8 m s (m t) in
               if ctrue (m' s) then strcpy m' (s + 1) (t + 1) fuel' else Some m'
  end.

(** [while( *p && *p == *q) p++, q++; return (uchar)*p - (uchar)*q;] *)
Fixpoint strcmp (m : mem) (p q : Z) (fuel : nat) : option Z :=
  match fuel with
  | 0%nat => None
  | S fuel' => if ctrue (m p) && (m p =? m q) then strcmp m (p + 1) (q + 1) fuel'
               else Some (u8 (m p) - u8 (m q))
  end.

(** [for(n = 0; s[n]; n++) ; return n;], an int returned as a uint. *)
Fixpoint strlen_from (m : mem) (s n : Z) (fuel : nat) : option Z :=
  match fuel with
  | 0%nat => None
  | S fuel' => if ctrue (m (s + n)) then strlen_from m s (n + 1) fuel' else Some (u32 n)
  end.
Definition strlen (m : mem) (s : Z) (fuel : nat) : option Z := strlen_from m s 0 fuel.

(** [for(; *s; s++) if( *s == c) return s; return 0;] *)
Fixpoint strchr (m : mem) (s c : Z) (fuel : nat) : option Z :=
  match fuel with
  | 0%nat => None
  | S fuel' => if ctrue (m s) then if m s =? c then Some s else strchr m (s + 1) c fuel' else Some 0
  end.

(** [while('0' <= *s && *s <= '9') n = n*10 + *s++ - '0';]; an int that does not fit
    wraps around. *)
Fixpoint atoi_from (m : mem) (s n : Z) (fuel : nat) : option Z :=
  match fuel with
  | 0%nat => None
  | S fuel' => if (48 <=? m s) && (m s <=? 57) then atoi_from m (s + 1) (s32 (n * 10 + m s - 48)) fuel' else Some n
  end.
Definition atoi (m : mem) (s : Z) (fuel : nat) : option Z := atoi_from m s 0 fuel.

(** memset, memcmp and the two loops of memmove are those of kernel/string.c, which differs
    in when it copies downwards. *)
Definition memset (m : mem) (dst c n : Z) : mem := memset_loop m dst c 0 (Z.to_nat n).
Definition memmove (m : mem) (vdst vsrc n : Z) : mem :=
  if vsrc >? vdst then memmove_fwd m vdst vsrc (Z.to_nat n) else memmove_bwd m (vdst + n) (vsrc + n) (Z.to_nat n).
Definition memcmp (m : mem) (s1 s2 n : Z) : Z := memcmp_loop m s1 s2 (Z.to_nat n).
Definition memcpy (m : mem) (dst src n : Z) : mem := memmove m dst src (s32 n).

Section library.
Context {O : Type} `{SC : !SysCalls O}.

(** ** Reading a line *)

(** A turn of the loop of gets for [i] and the memory. *)
Definition gets_turn (buf max : Z) '((i, m) : Z * mem) : P O ((Z * mem) + (Z * mem)) :=
  if i + 1 <? max then
    r ← call (os_read 0 1);
    match r with
    | Some (c :: _) =>
        let m := store8 m (buf + i) c in
        let i := i + 1 in
        if (u8 c =? 10) || (u8 c =? 13) then mret (inr (i, m)) else mret (inl (i, m))
    | _ => mret (inr (i, m))
    end
  else mret (inr (i, m)).
Definition gets (m : mem) (buf max : Z) : P O mem :=
  '(i, m) ← repeats (S (Z.to_nat (max - 1))) (gets_turn buf max) (0, m);
  mret (store8 m (buf + i) 0).

(** ** stat *)

Definition stat (n : list Z) : P O (option Fs.stat) :=
  fd ← call (os_open n O_RDONLY);
  if fd <? 0 then mret None else
  r ← call (os_fstat fd);
  call (os_close fd);;
  mret r.
End library.

(** ** What the string routines do *)

Lemma strlen_from_cstr m s n l fuel : cstr m (s + n) l → (length l < fuel)%nat → strlen_from m s n fuel = Some (u32 (n + Z.of_nat (length l))).
Proof.
  revert n fuel. induction l as [|c l IH]; intros n [|fuel] Hl Hf; cbn [cstr length] in *; try lia; cbn [strlen_from]; unfold ctrue.
  - rewrite Hl. simpl. by rewrite Z.add_0_r.
  - destruct Hl as (-> & ? & Hl). replace (c =? 0) with false by lia. simpl. rewrite IH by (lia || by rewrite Z.add_assoc). do 2 f_equal. lia.
Qed.

(** strcpy into a place that the string does not reach. *)
Lemma strcpy_copies m s t l fuel : byte_mem m → cstr m t l → (length l < fuel)%nat → disjoint_rng s (Z.of_nat (length l) + 1) t (Z.of_nat (length l) + 1) →
  ∃ m', strcpy m s t fuel = Some m' ∧ cstr m' s l ∧ ∀ x, ¬ s ≤ x ≤ s + Z.of_nat (length l) → m' x = m x.
Proof.
  unfold disjoint_rng. revert m s t fuel. induction l as [|c l IH]; intros m s t [|fuel] Hm Hl Hf Hd; cbn [cstr length] in *; try lia; cbn [strcpy]; rewrite store8_eq, u8_small by apply Hm; unfold ctrue.
  - rewrite Hl. simpl. eexists. split_and!; [done|by rewrite store8_eq|]. intros x Hx. apply store8_ne. lia.
  - destruct Hl as (E & Hc & Hl). rewrite E. replace (c =? 0) with false by lia. cbn [negb].
    destruct (IH (store8 m s c) (s + 1) (t + 1) fuel) as (m' & R & Hs & Hx).
    + by apply store8_byte.
    + apply (cstr_ext m); [|done]. intros x Hx. apply store8_ne. lia.
    + lia.
    + lia.
    + exists m'. split_and!; [done| |done|done|].
      * rewrite Hx by lia. rewrite store8_eq, <- E. apply u8_small, Hm.
      * intros x Hx'. rewrite Hx by lia. apply store8_ne. lia.
Qed.

(** The order of strings by the first byte in which they differ. *)
Fixpoint lex (l1 l2 : list Z) : comparison :=
  match l1, l2 with
  | [], [] => Eq
  | [], _ => Lt
  | _, [] => Gt
  | a :: l1, b :: l2 => match a ?= b with Eq => lex l1 l2 | c => c end
  end.
Lemma strcmp_order m p q l1 l2 fuel : byte_mem m → cstr m p l1 → cstr m q l2 → (length l1 < fuel)%nat →
  ∃ r, strcmp m p q fuel = Some r ∧ (r ?= 0) = lex l1 l2.
Proof.
  intros Hm. revert p q l2 fuel. induction l1 as [|a l1 IH]; intros p q l2 [|fuel] H1 H2 Hf; cbn [length] in Hf; try lia; cbn [strcmp];
    pose proof (Hm p) as Bp; pose proof (Hm q) as Bq; rewrite !u8_small by done; unfold ctrue.
  - cbn [cstr] in H1. rewrite H1. simpl. eexists. split; [done|]. destruct l2 as [|b l2]; cbn [cstr lex] in *; [by rewrite H2|]. destruct H2 as (E2 & ? & _). apply Z.compare_lt_iff. lia.
  - destruct H1 as (E1 & Ha & H1). rewrite E1 in *. replace (a =? 0) with false by lia. destruct l2 as [|b l2]; cbn [cstr lex] in *.
    + rewrite H2 in *. replace (a =? 0) with false by lia. simpl. eexists. split; [done|]. apply Z.compare_gt_iff. lia.
    + destruct H2 as (E2 & Hb & H2). rewrite E2 in *. destruct (Z.compare_spec a b) as [->|Hlt|Hgt].
      * rewrite Z.eqb_refl. simpl. apply IH; [done|done|lia].
      * replace (a =? b) with false by lia. simpl. eexists. split; [done|]. apply Z.compare_lt_iff. lia.
      * replace (a =? b) with false by lia. simpl. eexists. split; [done|]. apply Z.compare_gt_iff. lia.
Qed.

(** The search in a string as the programs use it. *)
Lemma strchr_text m s c l fuel : cstr m s l → (length l < fuel)%nat →
  strchr m s c fuel = Some (match Grep.strchr l c with Some (u, _) => s + Z.of_nat (length u) | None => 0 end).
Proof.
  revert s fuel. induction l as [|b l IH]; intros s [|fuel] Hl Hf; cbn [cstr length] in *; try lia; cbn [strchr]; unfold ctrue.
  - by rewrite Hl.
  - destruct Hl as (-> & Hb & Hl). cbn [Grep.strchr]. replace (b =? 0) with false by lia. cbn [negb]. destruct (b =? c); [simpl; f_equal; lia|].
    rewrite IH by (done || lia). destruct (Grep.strchr l c) as [[u v]|]; [|done]. simpl length. f_equal. lia.
Qed.

(** memmove is the simultaneous copy. *)
Lemma memmove_moves m dst src n x : byte_mem m → 0 ≤ n → memmove m dst src n x = if (dst <=? x) && (x <? dst + n) then m (src + (x - dst)) else m x.
Proof.
  intros Hm Hn. unfold memmove. destruct (src >? dst) eqn:E.
  - rewrite memmove_fwd_spec by (done || lia). by rewrite Z2Nat.id.
  - rewrite memmove_bwd_spec by (done || lia). rewrite Z2Nat.id by done. replace (dst + n - n) with dst by lia.
    destruct (_ && _); [f_equal; lia|done].
Qed.

(** ** Reading a line *)

(** What gets takes of the input: up to a newline or carriage return, and no more than [n]. *)
Fixpoint line_of (n : nat) (l : list Z) : list Z :=
  match n, l with
  | S n, c :: l => c :: (if (c =? 10) || (c =? 13) then [] else line_of n l)
  | _, _ => []
  end.

Section gets_line.
Context {O : Type} `{SC : !SysCalls O} `{FO : !Files O}.

Lemma gets_loop buf max o m i k : readable 0 o → Forall (λ c, 0 ≤ c < 256) (input 0 o) → max = i + Z.of_nat k + 1 → 0 ≤ i →
  ∃ o', let l := line_of k (input 0 o) in
    repeats (S k) (gets_turn buf max) (i, m) o = Goes (i + Z.of_nat (length l), store_bytes m (buf + i) l) o' ∧
    input 0 o = l ++ input 0 o'.
Proof.
  revert o m i. induction k as [|k IH]; intros o m i Hr Hb Hm Hi.
  - exists o. split; [|done]. cbn [repeats line_of length store_bytes]. unfold gets_turn. replace (i + 1 <? max) with false by lia. by rewrite Z.add_0_r.
  - destruct (read_delivers 0 1 o Hr ltac:(lia)) as (bs & o1 & R & E & Hl & He & Hr1 & _ & _).
    cbn [repeats]. unfold mbind at 1, P_bind at 1. unfold gets_turn at 1. replace (i + 1 <? max) with true by lia.
    rewrite (goes_on _ _ _ (Some bs) o1) by (unfold call; by rewrite R). destruct bs as [|c [|c' bs]]; [| |simpl length in Hl; lia].
    + rewrite He by done. exists o1. rewrite He in E by done. split; [|by destruct (input 0 o1)]. cbn [line_of length store_bytes]. by rewrite Z.add_0_r.
    + rewrite E in Hb |- *. cbn [app line_of]. apply Forall_cons in Hb as [Hc Hb]. rewrite u8_small by done. destruct ((c =? 10) || (c =? 13)) eqn:Ec.
      * exists o1. split; [|done]. done.
      * destruct (IH o1 (store8 m (buf + i) c) (i + 1)) as (o2 & R2 & E2); [done|done|lia|lia|]. exists o2. split; [|by rewrite E2 at 1].
        cbn [length store_bytes]. replace (i + Z.of_nat (S (length (line_of k (input 0 o1))))) with (i + 1 + Z.of_nat (length (line_of k (input 0 o1)))) by lia.
        replace (buf + i + 1) with (buf + (i + 1)) by lia. exact R2.
Qed.

Lemma line_of_length n l : (length (line_of n l) ≤ n)%nat.
Proof. revert l. induction n as [|n IH]; intros [|c l]; simpl; try lia. destruct (_ || _); simpl; [lia|]. specialize (IH l). lia. Qed.

(** gets leaves one line in the buffer, as a string that fits, and takes it off the input. *)
Lemma gets_line m buf max o : readable 0 o → Forall (λ c, 0 ≤ c < 256) (input 0 o) → 0 < max →
  let l := line_of (Z.to_nat (max - 1)) (input 0 o) in
  ∃ m' o', gets m buf max o = Goes m' o' ∧ load_bytes m' buf (length l) = l ∧ m' (buf + Z.of_nat (length l)) = 0 ∧ input 0 o = l ++ input 0 o' ∧
    Z.of_nat (length l) < max ∧ ∀ x, ¬ buf ≤ x ≤ buf + Z.of_nat (length l) → m' x = m x.
Proof.
  intros Hr Hb Hm l. destruct (gets_loop buf max o m 0 (Z.to_nat (max - 1)) Hr Hb) as (o' & R & E); [lia|lia|]. fold l in R, E. rewrite Z.add_0_r, Z.add_0_l in R.
  pose proof (line_of_length (Z.to_nat (max - 1)) (input 0 o)) as Hl. fold l in Hl.
  eexists _, o'. unfold gets. split_and!; [by rewrite (goes_on _ _ _ _ _ R)| |by rewrite store8_eq|done|lia|].
  - rewrite E in Hb. apply Forall_app in Hb as [Hb _]. etrans; [|exact (load_store_bytes m buf l Hb)]. apply load_bytes_ext. intros x Hx. apply store8_ne. lia.
  - intros x Hx. rewrite store8_ne by lia. apply store_bytes_other. lia.
Qed.
End gets_line.

(** ** A system with nothing but files that are open *)

Record fdtable := FdTable { ft_in : Z → list Z; ft_out : Z → list Z }.
#[export] Instance fdtable_calls : SysCalls fdtable := {
  os_read fd n o := (Some (take (Z.to_nat n) (ft_in o fd)), FdTable (fupd fd (drop (Z.to_nat n) (ft_in o fd)) (ft_in o)) (ft_out o));
  os_write fd bs o := (Z.of_nat (length bs), FdTable (ft_in o) (fupd fd (ft_out o fd ++ bs) (ft_out o)));
  os_open _ _ o := (-1, o);
  os_close _ o := (0, o);
  os_fstat _ o := (None, o);
  os_link _ _ o := (-1, o);
  os_unlink _ o := (-1, o);
  os_mkdir _ o := (-1, o);
  os_kill _ o := (-1, o);
}.
#[export, program] Instance fdtable_files : Files fdtable := {
  input fd o := ft_in o fd;
  output fd o := ft_out o fd;
  readable _ _ := True;
  writable _ _ := True;
}.
Next Obligation.
  intros fd n o _ Hn. eexists _, _. split; [done|]. cbn [ft_in ft_out]. rewrite fupd_eq. split_and!; try done; [by rewrite take_drop|rewrite length_take; lia|].
  intros E. destruct (ft_in o fd) as [|b l]; [done|]. destruct (Z.to_nat n) eqn:En; [lia|done].
Qed.
Next Obligation.
  intros fd bs o _. eexists. split; [done|]. cbn [ft_in ft_out]. rewrite fupd_eq. split_and!; try done. intros fd' Hne. by apply fupd_ne.
Qed.
