(* ===== verification/Uprintf.v ===== *)
(** * printf of the user programs (user/printf.c)

    Every character is a write of its own.  The reference is a reading of the format as
    directives and the text that each of them stands for: a number is a numeral of its
    value, in the base of the directive and without leading zeros. *)
From stdpp Require Import list.
From S2P Require Import Prelude Mem Console Ulib.
Open Scope Z_scope.

Definition digits (d : Z) : Z := nth (Z.to_nat d) (str "0123456789ABCDEF") 0.

Section printf.
Context {O : Type} `{SC : !SysCalls O}.

Definition putc (fd c : Z) : P O unit := call (os_write fd [u8 c]);; mret tt.
Fixpoint puts (fd : Z) (cs : list Z) : P O unit :=
  match cs with
  | [] => mret tt
  | c :: cs' => putc fd c;; puts fd cs'
  end.

(** [do { buf[i++] = digits[x % base]; } while((x /= base) != 0);] for a uint *)
Fixpoint buf_digits (fuel : nat) (x base : Z) : list Z :=
  match fuel with
  | 0%nat => []
  | S fuel' => digits (x mod base) :: (if x / base =? 0 then [] else buf_digits fuel' (x / base) base)
  end.
(** buf, which has room for the ten digits of a uint and the sign. *)
Definition printint_buf (xx base : Z) (sgn : bool) : list Z :=
  let neg := sgn && (xx <? 0) in
  let x := if neg then u32 (- xx) else u32 xx in
  buf_digits 32 x base ++ (if neg then [45] else []).
Definition printint (fd xx base : Z) (sgn : bool) : P O unit := puts fd (reverse (printint_buf xx base sgn)).

(** [for(i = 0; i < 16; i++, x <<= 4) putc(fd, digits[x >> 60]);] *)
Fixpoint ptr_digits (n : nat) (x : Z) : list Z :=
  match n with
  | 0%nat => []
  | S n' => digits (Z.shiftr x 60) :: ptr_digits n' (u64 (Z.shiftl x 4))
  end.
Definition printptr (fd x : Z) : P O unit := putc fd 48;; putc fd 120;; puts fd (ptr_digits 16 x).

(** The body of the loop of vprintf for [i], [state] and the arguments.  A number passed
    to printint is cut to an int. *)
Definition vprintf_turn (fd : Z) (fmt : list Z) '((i, state, ap) : Z * Z * list varg) : P O ((Z * Z * list varg) + unit) :=
  let at_ k := nth (Z.to_nat k) fmt 0 in
  if at_ i =? 0 then mret (inr tt) else
  let c0 := at_ i in
  if state =? 0 then
    if c0 =? 37 then mret (inl (i + 1, 37, ap)) else putc fd c0;; mret (inl (i + 1, 0, ap))
  else
    let c1 := if ctrue c0 then at_ (i + 1) else 0 in
    let c2 := if ctrue c1 then at_ (i + 2) else 0 in
    let next k : P O ((Z * Z * list varg) + unit) := mret (inl (i + k + 1, 0, tail ap)) in
    if c0 =? 100 then printint fd (s32 (va_num ap)) 10 true;; next 0
    else if (c0 =? 108) && (c1 =? 100) then printint fd (s32 (u64 (va_num ap))) 10 true;; next 1
    else if (c0 =? 108) && (c1 =? 108) && (c2 =? 100) then printint fd (s32 (u64 (va_num ap))) 10 true;; next 2
    else if c0 =? 117 then printint fd (s32 (va_num ap)) 10 false;; next 0
    else if (c0 =? 108) && (c1 =? 117) then printint fd (s32 (u64 (va_num ap))) 10 false;; next 1
    else if (c0 =? 108) && (c1 =? 108) && (c2 =? 117) then printint fd (s32 (u64 (va_num ap))) 10 false;; next 2
    else if c0 =? 120 then printint fd (s32 (va_num ap)) 16 false;; next 0
    else if (c0 =? 108) && (c1 =? 120) then printint fd (s32 (u64 (va_num ap))) 16 false;; next 1
    else if (c0 =? 108) && (c1 =? 108) && (c2 =? 120) then printint fd (s32 (u64 (va_num ap))) 16 false;; next 2
    else if c0 =? 112 then printptr fd (u64 (va_num ap));; next 0
    else if c0 =? 115 then puts fd (default (str "(null)") (va_str ap));; next 0
    else if c0 =? 37 then putc fd 37;; mret (inl (i + 1, 0, ap))
    else putc fd 37;; putc fd c0;; mret (inl (i + 1, 0, ap)).
Definition vprintf (fd : Z) (fmt : list Z) (ap : list varg) : P O unit :=
  repeats (S (length fmt)) (vprintf_turn fd fmt) (0, 0, ap).
Definition fprintf (fd : Z) (fmt : list Z) (ap : list varg) : P O unit := vprintf fd fmt ap.
Definition printf (fmt : list Z) (ap : list varg) : P O unit := vprintf 1 fmt ap.
End printf.

(** ** What it should print *)

(** A directive of the format. *)
Inductive piece := Char (c : Z) | Number (base : Z) (sgn : bool) | Pointer | Text.

(** The numeral of [x]: its digits have the value [x], each is one of the base, and there is
    no leading zero. *)
Definition digit_of (c : Z) : Z := if c <? 58 then c - 48 else c - 55.
Definition value (base : Z) (l : list Z) : Z := fold_left (λ v c, base * v + digit_of c) l 0.
Definition is_digit (base c : Z) : Prop := (48 ≤ c < 58 ∨ 65 ≤ c < 71) ∧ 0 ≤ digit_of c < base.
Definition numeral (base x : Z) (l : list Z) : Prop :=
  value base l = x ∧ Forall (is_digit base) l ∧ (l = [48] ∨ ∃ c l', l = c :: l' ∧ c ≠ 48).

(** The text of a directive for its argument. *)
Inductive text_of : piece → list varg → list Z → list varg → Prop :=
| text_char c ap : text_of (Char c) ap [c] ap
| text_signed base ap l : numeral base (Z.abs (s32 (va_num ap))) l →
    text_of (Number base true) ap ((if s32 (va_num ap) <? 0 then [45] else []) ++ l) (tail ap)
| text_unsigned base ap l : numeral base (u32 (va_num ap)) l → text_of (Number base false) ap l (tail ap)
| text_pointer ap l : length l = 16%nat → Forall (is_digit 16) l → value 16 l = u64 (va_num ap) → text_of Pointer ap (48 :: 120 :: l) (tail ap)
| text_text ap : text_of Text ap (default (str "(null)") (va_str ap)) (tail ap).
Inductive texts : list piece → list varg → list Z → list varg → Prop :=
| texts_nil ap : texts [] ap [] ap
| texts_cons p ps ap ap' ap'' t ts : text_of p ap t ap' → texts ps ap' ts ap'' → texts (p :: ps) ap (t ++ ts) ap''.

(** The directives: what follows a percent sign is d, u or x, after up to two l, or p, s or
    another percent sign; anything else stands for itself, and a percent sign at the end
    for nothing. *)
Definition conversion (c : Z) : option piece :=
  if c =? 100 then Some (Number 10 true) else if c =? 117 then Some (Number 10 false) else if c =? 120 then Some (Number 16 false) else None.
Definition directive (l : list Z) : list piece * list Z :=
  match l with
  | [] => ([], [])
  | c :: l1 =>
      match conversion c with
      | Some p => ([p], l1)
      | None =>
          if c =? 112 then ([Pointer], l1) else if c =? 115 then ([Text], l1) else if c =? 37 then ([Char 37], l1) else
          let other := ([Char 37; Char c], l1) in
          if negb (c =? 108) then other else
          match l1 with
          | [] => other
          | c1 :: l2 =>
              match conversion c1 with
              | Some p => ([p], l2)
              | None => match l2 with
                        | c2 :: l3 => if c1 =? 108 then match conversion c2 with Some p => ([p], l3) | None => other end else other
                        | [] => other
                        end
              end
          end
      end
  end.
Fixpoint directives (fuel : nat) (fmt : list Z) : list piece :=
  match fuel, fmt with
  | S fuel, c :: fmt => if c =? 37 then let '(ps, l) := directive fmt in ps ++ directives fuel l else Char c :: directives fuel fmt
  | _, _ => []
  end.

Lemma texts_app ps ps' ap ap' ap'' t t' : texts ps ap t ap' → texts ps' ap' t' ap'' → texts (ps ++ ps') ap (t ++ t') ap''.
Proof. induction 1 as [|p ps ap ap' ap1 t ts T1 T2 IH]; intros T; [done|]. simpl. rewrite <- app_assoc. econstructor; eauto. Qed.
Lemma texts_one p ap t ap' : text_of p ap t ap' → texts [p] ap t ap'.
Proof. intros T. rewrite <- (app_nil_r t). econstructor; [done|constructor]. Qed.

(** ** Numerals *)

Lemma digits_of d : 0 ≤ d < 16 → digit_of (digits d) = d ∧ (48 ≤ digits d < 58 ∨ 65 ≤ digits d < 71) ∧ (digits d = 48 ↔ d = 0).
Proof.
  intros Hd. assert (forallb (λ d, (digit_of (digits d) =? d) && ((48 <=? digits d) && (digits d <? 58) || (65 <=? digits d) && (digits d <? 71)) &&
    Bool.eqb (digits d =? 48) (d =? 0)) (seqZ 0 16) = true) as H by (vm_compute; reflexivity).
  rewrite forallb_forall in H. specialize (H d). rewrite <- list_elem_of_In, elem_of_seqZ in H. specialize (H ltac:(lia)). lia.
Qed.
Lemma is_digit_digits base d : 0 ≤ d < base → base ≤ 16 → is_digit base (digits d).
Proof. intros Hd Hb. destruct (digits_of d) as (E & H & _); [lia|]. split; [done|lia]. Qed.
Lemma value_snoc base l c : value base (l ++ [c]) = base * value base l + digit_of c.
Proof. unfold value. by rewrite fold_left_app. Qed.

Lemma buf_digits_value fuel x base : 2 ≤ base ≤ 16 → 0 ≤ x < base ^ Z.of_nat fuel →
  value base (reverse (buf_digits fuel x base)) = x ∧ Forall (is_digit base) (reverse (buf_digits fuel x base)) ∧
  (0 < x → ∃ c l, reverse (buf_digits fuel x base) = c :: l ∧ c ≠ 48).
Proof.
  intros Hb. revert x. induction fuel as [|fuel IH]; intros x Hx; [simpl in *; split_and!; [change (value base (reverse [])) with 0; lia|constructor|lia]|].
  cbn [buf_digits]. rewrite reverse_cons, value_snoc, Forall_app, Forall_singleton.
  pose proof (Z.mod_pos_bound x base ltac:(lia)) as Hm. pose proof (Z.div_mod x base ltac:(lia)) as Hdm. destruct (digits_of (x mod base)) as (Ed & _ & E48); [lia|].
  replace (Z.of_nat (S fuel)) with (Z.of_nat fuel + 1) in Hx by lia. rewrite Z.pow_add_r, Z.pow_1_r in Hx by lia.
  pose proof (is_digit_digits base (x mod base) Hm ltac:(lia)) as Hd. destruct (x / base =? 0) eqn:E.
  - rewrite Ed. split_and!; [change (value base (reverse [])) with 0; lia|constructor|done|]. intros H0. eexists _, _. split; [done|]. lia.
  - destruct (IH (x / base)) as (Hv & Hf & Hl); [split; [apply Z.div_pos; lia|apply Z.div_lt_upper_bound; lia]|]. rewrite Hv, Ed. split_and!; [lia|done|done|].
    intros _. destruct Hl as (c & l & -> & Hc); [|by eexists _, _]. pose proof (Z.div_pos x base). lia.
Qed.
Lemma buf_digits_numeral x base : 2 ≤ base ≤ 16 → 0 ≤ x < 2 ^ 32 → numeral base x (reverse (buf_digits 32 x base)).
Proof.
  intros Hb Hx. destruct (buf_digits_value 32 x base Hb) as (Hv & Hf & Hl).
  { split; [lia|]. pose proof (Z.pow_le_mono_l 2 base (Z.of_nat 32)). change (Z.of_nat 32) with 32 in *. lia. }
  split_and!; [done|done|]. destruct (decide (x = 0)) as [->|]; [left|right; apply Hl; lia].
  cbn [buf_digits]. by rewrite Z.mod_0_l, Z.div_0_l by lia.
Qed.
Lemma printint_text xx base : 2 ≤ base ≤ 16 → - 2 ^ 31 ≤ xx < 2 ^ 31 →
  (∃ l, reverse (printint_buf xx base true) = (if xx <? 0 then [45] else []) ++ l ∧ numeral base (Z.abs xx) l) ∧ numeral base (u32 xx) (reverse (printint_buf xx base false)).
Proof.
  intros Hb Hx. unfold printint_buf. cbn [andb]. split.
  - destruct (xx <? 0) eqn:E; rewrite reverse_app; (eexists; split; [done|]); rewrite u32_small by lia.
    + replace (Z.abs xx) with (- xx) by lia. apply buf_digits_numeral; lia.
    + replace (Z.abs xx) with xx by lia. apply buf_digits_numeral; lia.
  - rewrite app_nil_r. apply buf_digits_numeral; [done|]. apply u32_range.
Qed.

Lemma value_cons base c l : value base (c :: l) = digit_of c * base ^ Z.of_nat (length l) + value base l.
Proof.
  induction l as [|d l IH] using rev_ind; [unfold value; simpl; lia|]. rewrite app_comm_cons, !value_snoc, IH, length_app. simpl length.
  replace (Z.of_nat (length l + 1)) with (Z.of_nat (length l) + 1) by lia. rewrite Z.pow_add_r, Z.pow_1_r by lia. lia.
Qed.
Lemma ptr_digits_length n x : length (ptr_digits n x) = n.
Proof. revert x. induction n as [|n IH]; intros x; simpl; [done|]. by rewrite IH. Qed.
Lemma ptr_digits_value (n : nat) x : (n ≤ 16)%nat → 0 ≤ x < 2 ^ 64 →
  Forall (is_digit 16) (ptr_digits n x) ∧ value 16 (ptr_digits n x) = x / 2 ^ (64 - 4 * Z.of_nat n).
Proof.
  revert x. induction n as [|n IH]; intros x Hn Hx; cbn [ptr_digits]; [split; [constructor|]; rewrite Z.div_small; [done|]; change (64 - 4 * Z.of_nat 0) with 64; lia|].
  rewrite Z.shiftr_div_pow2, Z.shiftl_mul_pow2 by lia. pose proof (Z.div_mod x (2 ^ 60) ltac:(lia)) as Hq. pose proof (Z.mod_pos_bound x (2 ^ 60) ltac:(lia)) as Hr.
  set (q := x / 2 ^ 60) in *. set (r := x mod 2 ^ 60) in *. assert (0 ≤ q < 16) as Hq16 by lia.
  assert (u64 (x * 2 ^ 4) = r * 2 ^ 4) as ->. { unfold u64. symmetry. apply (Z.mod_unique _ _ q); lia. }
  destruct (IH (r * 2 ^ 4)) as [Hf Hv]; [lia|lia|]. split; [constructor; [by apply is_digit_digits|done]|].
  rewrite value_cons, Hv, ptr_digits_length. destruct (digits_of q Hq16) as (-> & _).
  set (k := 60 - 4 * Z.of_nat n). replace (64 - 4 * Z.of_nat n) with (k + 4) by lia. replace (64 - 4 * Z.of_nat (S n)) with k by lia.
  assert (0 ≤ k) as Hk by lia. pose proof (Z.pow_pos_nonneg 2 k ltac:(lia) Hk) as Hp.
  rewrite Z.pow_add_r, Z.div_mul_cancel_r by lia. replace x with (r + q * 16 ^ Z.of_nat n * 2 ^ k); [rewrite Z.div_add by lia; lia|].
  change 16 with (2 ^ 4). rewrite <- Z.pow_mul_r, <- Z.mul_assoc, <- Z.pow_add_r by lia. replace (4 * Z.of_nat n + k) with 60 by lia. lia.
Qed.
(** The buffer of printint is large enough. *)
Lemma buf_digits_length fuel (k : nat) x base : 2 ≤ base → 0 ≤ x < base ^ Z.of_nat (S k) → (length (buf_digits fuel x base) ≤ S k)%nat.
Proof.
  intros Hb. revert k x. induction fuel as [|fuel IH]; intros k x Hx; cbn [buf_digits length]; [lia|]. destruct (x / base =? 0) eqn:E; [simpl; lia|].
  replace (Z.of_nat (S k)) with (Z.of_nat k + 1) in Hx by lia. rewrite Z.pow_add_r, Z.pow_1_r in Hx by lia. destruct k as [|k].
  - change (Z.of_nat 0) with 0 in Hx. rewrite Z.pow_0_r in Hx. rewrite Z.div_small in E; lia.
  - assert (length (buf_digits fuel (x / base) base) ≤ S k)%nat; [|lia]. apply IH. split; [apply Z.div_pos; lia|apply Z.div_lt_upper_bound; lia].
Qed.
Lemma printint_buf_fits xx base sgn : 10 ≤ base → (length (printint_buf xx base sgn) ≤ 16)%nat.
Proof.
  intros Hb. unfold printint_buf. rewrite length_app. set (x := if sgn && (xx <? 0) then u32 (- xx) else u32 xx). assert (0 ≤ x < 2 ^ 32) as Hx by (unfold x; destruct (_ && _); apply u32_range).
  assert (length (buf_digits 32 x base) ≤ 10)%nat; [|destruct (_ && _); cbn [length]; lia]. apply buf_digits_length; [lia|].
  pose proof (Z.pow_le_mono_l 10 base 10). change (Z.of_nat 10) with 10. lia.
Qed.

(** A number has one numeral, and a list of directives one text. *)
Lemma digit_of_inj base c d : is_digit base c → is_digit base d → digit_of c = digit_of d → c = d.
Proof. unfold is_digit, digit_of. intros [Hc _] [Hd _] E. repeat case_match; lia. Qed.
Lemma value_range base l : 0 < base → Forall (is_digit base) l → 0 ≤ value base l < base ^ Z.of_nat (length l).
Proof.
  intros Hb. induction 1 as [|c l Hc Hl IH]; [unfold value; simpl; lia|]. rewrite value_cons. cbn [length]. replace (Z.of_nat (S (length l))) with (Z.of_nat (length l) + 1) by lia.
  rewrite Z.pow_add_r, Z.pow_1_r by lia. destruct Hc as [_ Hc]. nia.
Qed.
Lemma value_inj base l1 l2 : 0 < base → Forall (is_digit base) l1 → Forall (is_digit base) l2 → length l1 = length l2 → value base l1 = value base l2 → l1 = l2.
Proof.
  intros Hb H1. revert l2. induction H1 as [|c l1 Hc H1 IH]; intros [|d l2] H2 El E; try done. apply Forall_cons in H2 as [Hd H2]. injection El as El.
  rewrite !value_cons, El in E. pose proof (value_range base l1 Hb H1) as R1. pose proof (value_range base l2 Hb H2) as R2. rewrite El in R1.
  set (k := base ^ Z.of_nat (length l2)) in *. assert (digit_of c = digit_of d) as Ed by nia. rewrite (digit_of_inj base c d) by done. f_equal. apply IH; [done|done|]. rewrite Ed in E. lia.
Qed.
Lemma numeral_longer base x l1 l2 : 1 < base → numeral base x l1 → numeral base x l2 → (length l1 ≤ length l2)%nat.
Proof.
  intros Hb (V1 & F1 & L1) (V2 & F2 & L2). destruct L1 as [->|(c & l & -> & Hc)]; [destruct L2 as [->|(? & ? & -> & ?)]; simpl; lia|].
  pose proof (value_range base l2 ltac:(lia) F2) as R2. apply Forall_cons in F1 as [[Hd Hd'] F1]. pose proof (value_range base l ltac:(lia) F1) as R1.
  rewrite value_cons in V1. assert (1 ≤ digit_of c) by (unfold digit_of in *; case_match; lia). destruct (decide (length (c :: l) ≤ length l2)%nat) as [|Hn]; [done|]. cbn [length] in *.
  pose proof (Z.pow_le_mono_r base (Z.of_nat (length l2)) (Z.of_nat (length l)) ltac:(lia) ltac:(lia)). nia.
Qed.
Lemma numeral_unique base x l1 l2 : 1 < base → numeral base x l1 → numeral base x l2 → l1 = l2.
Proof.
  intros Hb N1 N2. pose proof (numeral_longer base x l1 l2 Hb N1 N2). pose proof (numeral_longer base x l2 l1 Hb N2 N1). destruct N1 as (V1 & F1 & _), N2 as (V2 & F2 & _).
  apply (value_inj base); [lia|done|done|lia|congruence].
Qed.
Definition based (p : piece) : Prop := match p with Number base _ => 1 < base | _ => True end.
Lemma conversion_based c p : conversion c = Some p → based p.
Proof. unfold conversion. intros H. repeat case_match; simplify_eq; simpl; lia. Qed.
Lemma directive_based l : Forall based (directive l).1.
Proof. unfold directive. repeat case_match; cbn [fst]; repeat constructor; eauto using conversion_based. Qed.
Lemma directives_based n l : Forall based (directives n l).
Proof.
  revert l. induction n as [|n IH]; intros [|c l]; simpl; try constructor. destruct (c =? 37); [|by constructor].
  pose proof (directive_based l). destruct (directive l) as [ps r]. apply Forall_app. auto.
Qed.
Lemma text_of_unique p ap t1 t2 ap1 ap2 : based p → text_of p ap t1 ap1 → text_of p ap t2 ap2 → t1 = t2 ∧ ap1 = ap2.
Proof.
  intros Hb T1 T2. destruct T1; inversion T2; simplify_eq; simpl in Hb; split; try done; try f_equal; try (by eapply numeral_unique).
  repeat f_equal. apply (value_inj 16); try done; congruence.
Qed.
Lemma texts_unique ps ap t1 t2 ap1 ap2 : Forall based ps → texts ps ap t1 ap1 → texts ps ap t2 ap2 → t1 = t2.
Proof.
  intros Hb T1. revert t2 ap2. induction T1 as [|p ps ap ap' ap'' t ts T1 T1' IH]; intros t2 ap2 T2.
  - by inversion T2.
  - apply Forall_cons in Hb as [Hp Hb]. inversion T2 as [|? ? ? ap3 ? t3 ts3 T3 T3']; simplify_eq.
    destruct (text_of_unique p ap t t3 ap' ap3 Hp T1 T3) as [-> ->]. f_equal. by apply (IH Hb ts3 ap2).
Qed.

(** What printf prints of a number, atoi reads. *)
Abbreviation value_from base := (fold_left (λ v c, base * v + digit_of c)).
Lemma value_from_ge l n : Forall (is_digit 10) l → 0 ≤ n → n ≤ value_from 10 l n.
Proof. intros H. revert n. induction H as [|c l [_ Hc] Hl IH]; intros n Hn; simpl; [lia|]. specialize (IH (10 * n + digit_of c)). lia. Qed.
Lemma atoi_from_value m s n l fuel : cstr m s l → Forall (is_digit 10) l → 0 ≤ n → value_from 10 l n < 2 ^ 31 → (length l < fuel)%nat →
  atoi_from m s n fuel = Some (value_from 10 l n).
Proof.
  revert s n fuel. induction l as [|c l IH]; intros s n [|fuel] Hl Hd Hn Hv Hf; cbn [cstr length] in *; try lia; cbn [atoi_from].
  - by rewrite Hl.
  - destruct Hl as (-> & _ & Hl). apply Forall_cons in Hd as [Hc Hd]. assert (48 ≤ c < 58 ∧ digit_of c = c - 48) as [Hc1 Ec].
    { destruct Hc as [[?|?] H2]; unfold digit_of in *; case_match; lia. }
    replace ((48 <=? c) && (c <=? 57)) with true by lia. cbn [fold_left] in *. pose proof (value_from_ge l (10 * n + digit_of c) Hd ltac:(lia)).
    rewrite s32_small by lia. replace (n * 10 + c - 48) with (10 * n + digit_of c) by lia. apply IH; (done || lia).
Qed.
Lemma atoi_numeral m s x l fuel : cstr m s l → numeral 10 x l → x < 2 ^ 31 → (length l < fuel)%nat → atoi m s fuel = Some x.
Proof. intros Hl (<- & Hd & _) Hx Hf. by apply atoi_from_value. Qed.

(** ** Printing *)

Section prints.
Context {O : Type} `{SC : !SysCalls O} `{FO : !Files O}.

(** [o'] comes from [o] by writing [t] to [fd]. *)
Record wrote (fd : Z) (t : list Z) (o o' : O) : Prop := {
  wr_out : output fd o' = output fd o ++ t;
  wr_others fd' : fd' ≠ fd → output fd' o' = output fd' o;
  wr_input fd' : input fd' o' = input fd' o;
  wr_readable fd' : readable fd' o → readable fd' o';
  wr_writable fd' : writable fd' o → writable fd' o';
}.
Lemma wrote_nil fd o : wrote fd [] o o.
Proof. constructor; try done. by rewrite app_nil_r. Qed.
Lemma wrote_app fd t t' o o' o'' : wrote fd t o o' → wrote fd t' o' o'' → wrote fd (t ++ t') o o''.
Proof.
  intros [H1 H2 H3 H4 H5] [H1' H2' H3' H4' H5']. constructor; intros; [by rewrite H1', H1, app_assoc|by rewrite H2', H2|by rewrite H3', H3|auto..].
Qed.

Definition bytes : list Z → Prop := Forall (λ c, 0 ≤ c < 256).
Lemma putc_writes fd c o : writable fd o → 0 ≤ c < 256 → ∃ o', putc fd c o = Goes tt o' ∧ wrote fd [c] o o'.
Proof.
  intros W Hc. destruct (write_appends fd [c] o W) as (o' & R & H1 & H2 & H3 & H4 & H5). exists o'. split; [|by constructor].
  unfold putc. rewrite u8_small by done. rewrite (goes_on _ _ _ 1 o'); [done|]. unfold call. by rewrite R.
Qed.
Lemma puts_writes fd cs o : writable fd o → bytes cs → ∃ o', puts fd cs o = Goes tt o' ∧ wrote fd cs o o'.
Proof.
  intros W Hcs. revert o W. induction Hcs as [|c cs Hc Hcs IH]; intros o W; [exists o; split; [done|apply wrote_nil]|].
  destruct (putc_writes fd c o W Hc) as (o1 & R1 & W1). destruct (IH o1) as (o2 & R2 & W2); [by apply (wr_writable _ _ _ _ W1)|].
  exists o2. simpl. rewrite (goes_on _ _ _ _ _ R1). split; [done|]. exact (wrote_app fd [c] cs o o1 o2 W1 W2).
Qed.
Lemma is_digit_bytes base l : Forall (is_digit base) l → bytes l.
Proof. intros H. apply (Forall_impl _ _ _ H). unfold is_digit. lia. Qed.

(** A directive that prints [t] and goes on as the loop does. *)
Definition prints (fd : Z) (m : P O unit) (p : piece) (ap : list varg) (o : O) : Prop :=
  ∃ t o', m o = Goes tt o' ∧ wrote fd t o o' ∧ text_of p ap t (tail ap).

Lemma printint_prints fd base sgn ap o : writable fd o → 2 ≤ base ≤ 16 → prints fd (printint fd (s32 (va_num ap)) base sgn) (Number base sgn) ap o.
Proof.
  intros W Hb. destruct (printint_text (s32 (va_num ap)) base Hb (s32_range _)) as [(l & E & N) N']. destruct sgn.
  - destruct (puts_writes fd ((if s32 (va_num ap) <? 0 then [45] else []) ++ l) o W) as (o' & R & W').
    { apply Forall_app. split; [destruct (_ <? _); repeat constructor; lia|]. by eapply is_digit_bytes, N. }
    eexists _, o'. split_and!; [unfold printint; rewrite E; exact R|done|by constructor].
  - destruct (puts_writes fd (reverse (printint_buf (s32 (va_num ap)) base false)) o W) as (o' & R & W'); [by eapply is_digit_bytes, N'|].
    eexists _, o'. split_and!; [exact R|done|]. constructor. assert (u32 (va_num ap) = u32 (s32 (va_num ap))) as ->; [|done].
    unfold u32, s32. rewrite Zminus_mod_idemp_l. f_equal. lia.
Qed.
Lemma printptr_prints fd ap o : writable fd o → prints fd (printptr fd (u64 (va_num ap))) Pointer ap o.
Proof.
  intros W. destruct (ptr_digits_value 16 (u64 (va_num ap)) ltac:(lia) (u64_range _)) as [Hf Hv].
  destruct (puts_writes fd (48 :: 120 :: ptr_digits 16 (u64 (va_num ap))) o W) as (o' & R & W').
  { repeat (constructor; [lia|]). by eapply is_digit_bytes. }
  eexists _, o'. split_and!; [exact R|done|]. constructor; [apply ptr_digits_length|done|]. by rewrite Hv, Z.div_1_r.
Qed.
Definition strings_ok (ap : list varg) : Prop := Forall (λ v, match v with Str (Some s) => bytes s | _ => True end) ap.
Lemma puts_prints fd ap o : writable fd o → strings_ok ap → prints fd (puts fd (default (str "(null)") (va_str ap))) Text ap o.
Proof.
  intros W H. destruct (puts_writes fd (default (str "(null)") (va_str ap)) o W) as (o' & R & W'); [|eexists _, o'; split_and!; [exact R|done|constructor]].
  assert (bytes (str "(null)")) as Hn by (apply (bool_decide_unpack _); vm_compute; exact I). by destruct H as [|[v|[s|]] ap Hs _].
Qed.

(** A turn of the loop that has printed the directives [ps]; [r] is left of the format. *)
Definition turned (fd : Z) (fmt : list Z) (ps : list piece) (r : list Z) (ap : list varg) (o : O) (res : pres O ((Z * Z * list varg) + unit)) : Prop :=
  ∃ t ap' i' o', res = Goes (inl (i', 0, ap')) o' ∧ wrote fd t o o' ∧ texts ps ap t ap' ∧ strings_ok ap' ∧ 0 ≤ i' ∧ drop (Z.to_nat i') fmt = r.

Lemma strings_tail ap : strings_ok ap → strings_ok (tail ap).
Proof. intros H. destruct H; [constructor|done]. Qed.
Lemma turned_prints fd fmt m p ap o i r : prints fd m p ap o → strings_ok ap → 0 ≤ i → drop (Z.to_nat i) fmt = r →
  turned fd fmt [p] r ap o ((m;; mret (inl (i, 0, tail ap)) : P O _) o).
Proof.
  intros (t & o' & R & W & T) Hs Hi Hr. exists t, (tail ap), i, o'. split_and!; try done; [by rewrite (goes_on _ _ _ _ _ R)|by apply texts_one|by apply strings_tail].
Qed.
Lemma turned_chars fd fmt cs ap o i r : writable fd o → bytes cs → strings_ok ap → 0 ≤ i → drop (Z.to_nat i) fmt = r →
  turned fd fmt (Char <$> cs) r ap o ((puts fd cs;; mret (inl (i, 0, ap)) : P O _) o).
Proof.
  intros W Hc Hs Hi Hr. destruct (puts_writes fd cs o W Hc) as (o' & R & W'). exists cs, ap, i, o'. split_and!; try done; [by rewrite (goes_on _ _ _ _ _ R)|].
  clear. induction cs as [|c cs IH]; simpl; [constructor|]. change (c :: cs) with ([c] ++ cs). econstructor; [constructor|done].
Qed.
Lemma putc_one fd {B} (k : P O B) o c : (putc fd c;; k) o = (puts fd [c];; k) o.
Proof. cbn [puts]. unfold mbind, P_bind. by destruct (putc fd c o). Qed.
Lemma putc_two fd {B} (k : P O B) o c d : (putc fd c;; putc fd d;; k) o = (puts fd [c; d];; k) o.
Proof. cbn [puts]. unfold mbind, P_bind. destruct (putc fd c o) as [? o1| |]; [by destruct (putc fd d o1)|done|done]. Qed.
Lemma s32_u64 v : s32 (u64 v) = s32 v.
Proof. unfold s32, u64. rewrite <- (Zplus_mod_idemp_l (v mod 2 ^ 64)), <- (Zplus_mod_idemp_l v). do 3 f_equal. change (2 ^ 64) with (2 ^ 32 * 2 ^ 32). by rewrite Z.rem_mul_r, Z.mul_comm, Z.mod_add, Z.mod_mod by lia. Qed.

Lemma directive_turn fd fmt i ap o c l : 0 ≤ i → drop (Z.to_nat i) fmt = c :: l → Forall (λ c, 0 < c < 256) (c :: l) → writable fd o → strings_ok ap →
  turned fd fmt (directive (c :: l)).1 (directive (c :: l)).2 ap o (vprintf_turn fd fmt (i, 37, ap) o).
Proof.
  intros Hi E Hb W Hs. apply Forall_cons in Hb as [Hc Hb].
  assert (∀ k : nat, nth (Z.to_nat (i + Z.of_nat k)) fmt 0 = nth k (c :: l) 0) as Hat.
  { intros k. rewrite <- E, nth_drop_add. f_equal. lia. }
  assert (∀ k : nat, drop (Z.to_nat (i + Z.of_nat k + 1)) fmt = drop k l) as Hdr.
  { intros k. change (drop k l) with (drop (S k) (c :: l)). rewrite <- E, drop_drop. f_equal. lia. }
  pose proof (Hat 0%nat) as H0. pose proof (Hat 1%nat) as H1. pose proof (Hat 2%nat) as H2. cbn [nth] in H0, H1, H2. change (Z.of_nat 0) with 0 in H0. rewrite Z.add_0_r in H0.
  change (Z.of_nat 1) with 1 in H1. change (Z.of_nat 2) with 2 in H2.
  pose proof (Hdr 0%nat) as D0. pose proof (Hdr 1%nat) as D1. pose proof (Hdr 2%nat) as D2.
  change (Z.of_nat 0) with 0 in D0. change (Z.of_nat 1) with 1 in D1. change (Z.of_nat 2) with 2 in D2.
  assert (∀ base sgn k r, 2 ≤ base ≤ 16 → 0 ≤ k → drop (Z.to_nat (i + k + 1)) fmt = r → turned fd fmt [Number base sgn] r ap o
    ((printint fd (s32 (va_num ap)) base sgn;; mret (inl (i + k + 1, 0, tail ap)) : P O _) o)) as Hnum.
  { intros base sgn k r Hbase Hk Hr. apply turned_prints; [by apply printint_prints|done|lia|done]. }
  assert (drop (Z.to_nat (i + 1)) fmt = l) as D0' by (replace (i + 1) with (i + 0 + 1) by lia; exact D0).
  assert (turned fd fmt [Char 37; Char c] l ap o ((putc fd 37;; putc fd c;; mret (inl (i + 1, 0, ap)) : P O _) o)) as Hother.
  { rewrite putc_two. apply (turned_chars fd fmt [37; c]); [done|unfold bytes; repeat constructor; lia|done|lia|done]. }
  unfold vprintf_turn. rewrite H0, H1, H2, !s32_u64. unfold ctrue. replace (c =? 0) with false by lia. change (37 =? 0) with false. cbv beta iota zeta. cbn [negb].
  destruct (decide (c = 108)) as [->|Hne].
  - cbn [Z.eqb Pos.eqb andb directive conversion]. destruct l as [|c1 l]; [exact Hother|]. apply Forall_cons in Hb as [Hc1 Hb]. cbn [nth]. replace (c1 =? 0) with false by lia. cbn [negb].
    unfold conversion. change (negb (108 =? 108)) with false. cbv iota. destruct (c1 =? 100) eqn:E1; [by apply Hnum|]. destruct (c1 =? 108) eqn:E2.
    + replace (c1 =? 117) with false by lia. replace (c1 =? 120) with false by lia. cbn [andb]. destruct l as [|c2 l]; [exact Hother|]. cbn [nth].
      destruct (c2 =? 100) eqn:E3; [by apply Hnum|]. destruct (c2 =? 117) eqn:E4; [by apply Hnum|]. destruct (c2 =? 120) eqn:E5; [by apply Hnum|]. exact Hother.
    + cbn [andb]. destruct (c1 =? 117) eqn:E3; [by apply Hnum|]. destruct (c1 =? 120) eqn:E4; [by apply Hnum|]. destruct l; exact Hother.
  - unfold directive, conversion. replace (c =? 108) with false by lia. cbn [andb negb].
    destruct (c =? 100); [by apply Hnum|]. destruct (c =? 117); [by apply Hnum|]. destruct (c =? 120); [by apply Hnum|].
    destruct (c =? 112); [apply turned_prints; [by apply printptr_prints|done|lia|done]|]. destruct (c =? 115); [apply turned_prints; [by apply puts_prints|done|lia|done]|].
    destruct (c =? 37); [|exact Hother]. rewrite putc_one. apply (turned_chars fd fmt [37]); [done|unfold bytes; repeat constructor; lia|done|lia|done].
Qed.

Lemma directive_suffix c l : ∃ u, l = u ++ (directive (c :: l)).2.
Proof.
  unfold directive. repeat case_match; simplify_eq; try (by exists []); cbn [snd]; first [by eexists [_]|by eexists [_; _]].
Qed.
Lemma repeats_next {A B} fuel (body : A → P O (A + B)) a a' o o' : body a o = Goes (inl a') o' → repeats (S fuel) body a o = repeats fuel body a' o'.
Proof. intros H. cbn [repeats]. by rewrite (goes_on _ _ _ _ _ H). Qed.
Lemma repeats_end {A B} fuel (body : A → P O (A + B)) a b o o' : body a o = Goes (inr b) o' → repeats (S fuel) body a o = Goes b o'.
Proof. intros H. cbn [repeats]. by rewrite (goes_on _ _ _ _ _ H). Qed.
Lemma vprintf_turn_end fd fmt i st ap o : drop (Z.to_nat i) fmt = [] → vprintf_turn fd fmt (i, st, ap) o = Goes (inr tt) o.
Proof.
  intros E. unfold vprintf_turn. assert (nth (Z.to_nat i) fmt 0 = 0) as ->; [|done].
  rewrite <- (Nat.add_0_r (Z.to_nat i)), <- nth_drop_add. by rewrite E.
Qed.

Lemma vprintf_loop n : ∀ fd fmt l i ap o fuel, (length l ≤ n)%nat → (S (length l) ≤ fuel)%nat → 0 ≤ i → drop (Z.to_nat i) fmt = l →
  Forall (λ c, 0 < c < 256) l → writable fd o → strings_ok ap →
  ∃ t ap' o', repeats fuel (vprintf_turn fd fmt) (i, 0, ap) o = Goes tt o' ∧ wrote fd t o o' ∧ texts (directives n l) ap t ap'.
Proof.
  induction n as [|n IH]; intros fd fmt l i ap o [|fuel] Hn Hf Hi E Hb W Hs; try lia; destruct l as [|c l]; cbn [length] in Hn, Hf; try lia;
    try (exists [], ap, o; split_and!; [by apply repeats_end, vprintf_turn_end|apply wrote_nil|constructor]).
  apply Forall_cons in Hb as [Hc Hb]. assert (nth (Z.to_nat i) fmt 0 = c) as H0 by (rewrite <- (Nat.add_0_r (Z.to_nat i)), <- nth_drop_add; by rewrite E).
  assert (drop (Z.to_nat (i + 1)) fmt = l) as E1. { replace (Z.to_nat (i + 1)) with (Z.to_nat i + 1)%nat by lia. by rewrite <- drop_drop, E. }
  cbn [directives]. destruct (c =? 37) eqn:E37.
  - erewrite repeats_next by (unfold vprintf_turn; rewrite H0; replace (c =? 0) with false by lia; rewrite E37; reflexivity). destruct l as [|c' l].
    + destruct fuel as [|fuel]; [cbn [length] in Hf; lia|]. exists [], ap, o. cbn [directive app]. split_and!; [by apply repeats_end, vprintf_turn_end|apply wrote_nil|].
      destruct n; constructor.
    + cbn [length] in Hn, Hf. destruct fuel as [|fuel]; [lia|]. destruct (directive_turn fd fmt (i + 1) ap o c' l) as (t & ap' & i' & o' & R & W' & T & Hs' & Hi' & Er); try done; [lia|].
      rewrite (repeats_next _ _ _ _ _ _ R). destruct (directive_suffix c' l) as [u Eu]. destruct (directive (c' :: l)) as [ps r]. cbn [fst snd] in *.
      assert (length r ≤ length l)%nat by (rewrite Eu, length_app; lia).
      destruct (IH fd fmt r i' ap' o' fuel) as (t' & ap'' & o'' & R' & W'' & T'); try done; [lia|lia| |by apply (wr_writable _ _ _ _ W')|].
      * apply Forall_cons in Hb as [_ Hb]. rewrite Eu in Hb. by apply Forall_app in Hb as [_ ?].
      * exists (t ++ t'), ap'', o''. split_and!; [done|by eapply wrote_app|by eapply texts_app].
  - destruct (putc_writes fd c o W ltac:(lia)) as (o' & R & W'). destruct (IH fd fmt l (i + 1) ap o' fuel) as (t' & ap'' & o'' & R' & W'' & T'); try done; [lia|lia|lia|by apply (wr_writable _ _ _ _ W')|].
    exists ([c] ++ t'), ap'', o''. split_and!; [|by eapply wrote_app|econstructor; [constructor|done]]. rewrite <- R'. apply repeats_next.
    unfold vprintf_turn. rewrite H0. replace (c =? 0) with false by lia. rewrite E37. change (0 =? 0) with true. cbv beta iota zeta. by rewrite (goes_on _ _ _ _ _ R).
Qed.

(** The text of the directives, known in advance. *)
Lemma printf_writes fmt ap t ap' o : writable 1 o → Forall (λ c, 0 < c < 256) fmt → strings_ok ap → texts (directives (length fmt) fmt) ap t ap' →
  ∃ o', printf fmt ap o = Goes tt o' ∧ wrote 1 t o o'.
Proof.
  intros W Hf Hs T. destruct (vprintf_loop (length fmt) 1 fmt fmt 0 ap o (S (length fmt))) as (t1 & ap1 & o' & R & W' & T'); try done.
  rewrite (texts_unique _ _ t1 t ap1 ap' (directives_based _ _) T' T) in W'. by exists o'.
Qed.
End prints.

(** ** Formats of the documented directives *)

(** A format as its comment has it: plain characters, and %d, %x, %p and %s. *)
Inductive doc := Plain (c : Z) | PctD | PctX | PctP | PctS.
Definition spell (d : doc) : list Z :=
  match d with
  | Plain c => [c]
  | PctD => str "%d"
  | PctX => str "%x"
  | PctP => str "%p"
  | PctS => str "%s"
  end.
Definition format (ds : list doc) : list Z := ds ≫= spell.
Definition doc_ok (d : doc) : Prop := match d with Plain c => 0 < c < 256 ∧ c ≠ 37 | _ => True end.

(** What each stands for: a character itself, a signed decimal or an unsigned hexadecimal
    number, a pointer, a string. *)
Definition meaning (d : doc) : piece :=
  match d with
  | Plain c => Char c
  | PctD => Number 10 true
  | PctX => Number 16 false
  | PctP => Pointer
  | PctS => Text
  end.

Lemma directives_format ds n : Forall doc_ok ds → (length (format ds) ≤ n)%nat → directives n (format ds) = meaning <$> ds.
Proof.
  intros H. revert n. induction H as [|d ds Hd _ IH]; intros n Hn; [by destruct n|]. unfold format in *. rewrite bind_cons in *. rewrite length_app in Hn.
  destruct d as [c| | | |]; cbn [spell length] in Hn; (destruct n as [|n]; [simpl in Hn; lia|]); rewrite fmap_cons.
  - simpl. destruct Hd as [_ Hc]. replace (c =? 37) with false by lia. f_equal. apply IH. lia.
  - simpl. f_equal. apply IH. simpl in Hn. lia.
  - simpl. f_equal. apply IH. simpl in Hn. lia.
  - simpl. f_equal. apply IH. simpl in Hn. lia.
  - simpl. f_equal. apply IH. simpl in Hn. lia.
Qed.
Lemma format_bytes ds : Forall doc_ok ds → Forall (λ c, 0 < c < 256) (format ds).
Proof.
  induction 1 as [|d ds Hd _ IH]; [constructor|]. unfold format in *. rewrite bind_cons. apply Forall_app. split; [|done].
  destruct d as [c| | | |]; [constructor; [apply Hd|constructor]|..]; apply (bool_decide_unpack _); vm_compute; exact I.
Qed.

(** ** Properties *)

(** C18: printf prints what its format says, for the formats of its comment: plain
    characters, %d, %x, %p and %s.  The call ends, and what it has written to the
    descriptor, and nowhere else, is the text of the directives one after the other: a
    character stands for itself, %d for the signed decimal numeral of the argument as an
    int, %x for the hexadecimal numeral of the argument as a uint, %p for 0x and the 16
    hexadecimal digits of the argument, and %s for the bytes of the string, or (null).
    There is only one such text. *)
Theorem vprintf_prints_format {O : Type} `{SC : !SysCalls O} `{FO : !Files O} fd ds ap (o : O) :
  writable fd o → Forall doc_ok ds → strings_ok ap →
  ∃ t ap' o', vprintf fd (format ds) ap o = Goes tt o' ∧ texts (meaning <$> ds) ap t ap' ∧
    (∀ t2 ap2, texts (meaning <$> ds) ap t2 ap2 → t2 = t) ∧
    output fd o' = output fd o ++ t ∧ (∀ fd', fd' ≠ fd → output fd' o' = output fd' o) ∧ ∀ fd', input fd' o' = input fd' o.
Proof.
  intros W Hf Hs. destruct (vprintf_loop (length (format ds)) fd (format ds) (format ds) 0 ap o (S (length (format ds)))) as (t & ap' & o' & R & W' & T);
    try done; [by apply format_bytes|]. pose proof (directives_based (length (format ds)) (format ds)) as Hb. rewrite directives_format in T, Hb by done.
  exists t, ap', o'. split_and!; [done|done| |apply W'..]. intros t2 ap2 T2. by eapply texts_unique.
Qed.

Lemma vprintf_prints_format_witness :
  let o := FdTable (λ _, []) (λ _, []) in
  ∃ o', vprintf 1 (str "n=%d, %x: %s") [Num (-12); Num 175; Str (Some (str "ok"))] o = Goes tt o' ∧
    output 1 o' = str "n=-12, AF: ok" ∧ ∀ fd', fd' ≠ 1 → output fd' o' = [].
Proof.
  intros o. set (ds := (Plain <$> str "n=") ++ PctD :: (Plain <$> str ", ") ++ PctX :: (Plain <$> str ": ") ++ [PctS]).
  destruct (vprintf_prints_format 1 ds [Num (-12); Num 175; Str (Some (str "ok"))] o) as (t & ap' & o' & R & T & U & Hw & Ho & _).
  - done.
  - repeat (constructor; [vm_compute; intuition discriminate|]). constructor.
  - repeat constructor; vm_compute; intuition discriminate.
  - exists o'. split; [exact R|]. split; [|exact Ho].
    assert (match vprintf 1 (format ds) [Num (-12); Num 175; Str (Some (str "ok"))] o with Goes _ x => output 1 x | _ => [] end = str "n=-12, AF: ok") as E
      by (vm_compute; reflexivity). rewrite R in E. exact E.
Defined.
