(* ===== verification/Utils.v ===== *)
(** * The utilities wc, cat, echo, ls, rm, mkdir, ln and kill, and getcmd of the shell
    (user/*.c)

    A program is given its arguments, the first of which is its name, and calls the kernel
    through [SysCalls]; it ends by calling exit.  The loops that read a file have fuel. *)
From stdpp Require Import list.
From S2P Require Import Prelude Mem Fs File FsPath Console Grep Ulib Uprintf.
Open Scope Z_scope.

Definition NEWLINE : list Z := [10].

Section utilities.
Context {O : Type} `{SC : !SysCalls O}.

(** ** user/wc.c *)

(** strchr of the blanks. *)
Definition blank (c : Z) : bool := match Grep.strchr [32; 13; 9; 10; 11] c with Some _ => true | None => false end.
Record counts := Counts { n_l : Z; n_w : Z; n_c : Z; inword : bool }.
(** The body of the inner loop. *)
Definition wc_byte (k : counts) (b : Z) : counts :=
  let c := s32 (n_c k + 1) in
  let l := if b =? 10 then s32 (n_l k + 1) else n_l k in
  if blank b then Counts l (n_w k) c false
  else if negb (inword k) then Counts l (s32 (n_w k + 1)) c true
  else Counts l (n_w k) c (inword k).
Definition wc_turn (fd : Z) (k : counts) : P O (counts + (bool * counts)) :=
  r ← call (os_read fd 512);
  match r with
  | Some (b :: bs) => mret (inl (fold_left wc_byte (b :: bs) k))
  | Some [] => mret (inr (true, k))
  | None => mret (inr (false, k))
  end.
Definition wc (fuel : nat) (fd : Z) (name : list Z) : P O unit :=
  '(ok, k) ← repeats fuel (wc_turn fd) (Counts 0 0 0 false);
  (if ok : bool then mret tt else printf (str "wc: read error" ++ NEWLINE) [];; exit 1);;
  printf (str "%d %d %d %s" ++ NEWLINE) [Num (n_l k); Num (n_w k); Num (n_c k); Str (Some name)].

(** The loop of main over the arguments of wc and of cat. *)
Fixpoint each_file (cannot : list Z → P O unit) (f : Z → list Z → P O unit) (args : list (list Z)) : P O unit :=
  match args with
  | [] => mret tt
  | a :: args' =>
      fd ← call (os_open a O_RDONLY);
      (if fd <? 0 then cannot a;; exit 1 else mret tt);;
      f fd a;;
      call (os_close fd);;
      each_file cannot f args'
  end.
Definition wc_main (fuel : nat) (argv : list (list Z)) : P O unit :=
  (if (length argv <=? 1)%nat then wc fuel 0 [];; exit 0 else mret tt);;
  each_file (λ a, printf (str "wc: cannot open %s" ++ NEWLINE) [Str (Some a)]) (wc fuel) (tail argv);;
  exit 0.

(** ** user/cat.c *)

Definition cat_turn (fd : Z) (_ : unit) : P O (unit + bool) :=
  r ← call (os_read fd 512);
  match r with
  | Some (b :: bs) =>
      n ← call (os_write 1 (b :: bs));
      if negb (n =? Z.of_nat (length (b :: bs))) then fprintf 2 (str "cat: write error" ++ NEWLINE) [];; exit 1
      else mret (inl tt)
  | Some [] => mret (inr true)
  | None => mret (inr false)
  end.
Definition cat (fuel : nat) (fd : Z) : P O unit :=
  ok ← repeats fuel (cat_turn fd) tt;
  if ok : bool then mret tt else fprintf 2 (str "cat: read error" ++ NEWLINE) [];; exit 1.
Definition cat_main (fuel : nat) (argv : list (list Z)) : P O unit :=
  (if (length argv <=? 1)%nat then cat fuel 0;; exit 0 else mret tt);;
  each_file (λ a, fprintf 2 (str "cat: cannot open %s" ++ NEWLINE) [Str (Some a)]) (λ fd _, cat fuel fd) (tail argv);;
  exit 0.

(** ** user/echo.c *)

Fixpoint echo_args (args : list (list Z)) : P O unit :=
  match args with
  | [] => mret tt
  | a :: args' =>
      call (os_write 1 a);;
      call (os_write 1 (match args' with [] => NEWLINE | _ => [32] end));;
      echo_args args'
  end.
Definition echo_main (argv : list (list Z)) : P O unit := echo_args (tail argv);; exit 0.

(** ** user/rm.c, user/mkdir.c, user/ln.c, user/kill.c *)

(** [for(i = 1; i < argc; i++){ if(f(argv[i]) < 0){ fprintf(...); break; } }] *)
Fixpoint each_arg (f : list Z → O → Z * O) (failed : list Z → P O unit) (args : list (list Z)) : P O unit :=
  match args with
  | [] => mret tt
  | a :: args' => r ← call (f a); if r <? 0 then failed a else each_arg f failed args'
  end.
Definition rm_main (argv : list (list Z)) : P O unit :=
  (if (length argv <? 2)%nat then fprintf 2 (str "Usage: rm files..." ++ NEWLINE) [];; exit 1 else mret tt);;
  each_arg os_unlink (λ a, fprintf 2 (str "rm: %s failed to delete" ++ NEWLINE) [Str (Some a)]) (tail argv);;
  exit 0.
Definition mkdir_main (argv : list (list Z)) : P O unit :=
  (if (length argv <? 2)%nat then fprintf 2 (str "Usage: mkdir files..." ++ NEWLINE) [];; exit 1 else mret tt);;
  each_arg os_mkdir (λ a, fprintf 2 (str "mkdir: %s failed to create" ++ NEWLINE) [Str (Some a)]) (tail argv);;
  exit 0.
Definition ln_main (argv : list (list Z)) : P O unit :=
  match argv with
  | [_; old; new] =>
      r ← call (os_link old new);
      (if r <? 0 then fprintf 2 (str "link %s %s: failed" ++ NEWLINE) [Str (Some old); Str (Some new)] else mret tt);;
      exit 0
  | _ => fprintf 2 (str "Usage: ln old new" ++ NEWLINE) [];; exit 1
  end.
(** The argument is a string in memory. *)
Definition atoi_arg (a : list Z) : Z := default 0 (atoi (store_bytes (λ _, 0) 0 a) 0 (S (length a))).
Fixpoint kill_args (args : list (list Z)) : P O unit :=
  match args with
  | [] => mret tt
  | a :: args' => call (os_kill (atoi_arg a));; kill_args args'
  end.
Definition kill_main (argv : list (list Z)) : P O unit :=
  (if (length argv <? 2)%nat then fprintf 2 (str "usage: kill pid..." ++ NEWLINE) [];; exit 1 else mret tt);;
  kill_args (tail argv);;
  exit 0.

(** ** user/ls.c *)

(** [for(p = path + strlen(path); p >= path && *p != '/'; p--) ; p++;] from index [k] on *)
Fixpoint after_slash (path : list Z) (k : nat) : list Z :=
  if nth k path 0 =? 47 then drop (S k) path
  else match k with 0%nat => path | S k' => after_slash path k' end.
Definition fmtname (path : list Z) : list Z :=
  let p := after_slash path (length path) in
  if Z.of_nat (length p) >=? DIRSIZ then p else p ++ replicate (Z.to_nat (DIRSIZ - Z.of_nat (length p))) 32.
Definition ls_line (path : list Z) (st : Fs.stat) : P O unit :=
  printf (str "%s %d %d %d" ++ NEWLINE) [Str (Some (fmtname path)); Num (st_type st); Num (st_ino st); Num (s32 (st_size st))].
(** A turn of the loop over the entries of a directory; buf holds the path and a slash. *)
Definition ls_turn (fd : Z) (path : list Z) (_ : unit) : P O (unit + unit) :=
  r ← call (os_read fd DIRENT_SIZE);
  match r with
  | Some de =>
      if negb (Z.of_nat (length de) =? DIRENT_SIZE) then mret (inr tt) else
      if de_inum de =? 0 then mret (inl tt) else
      let buf := path ++ [47] ++ until0 (de_name de) in
      st ← stat buf;
      match st with
      | None => printf (str "ls: cannot stat %s" ++ NEWLINE) [Str (Some buf)];; mret (inl tt)
      | Some st => ls_line buf st;; mret (inl tt)
      end
  | None => mret (inr tt)
  end.
Definition ls (fuel : nat) (path : list Z) : P O unit :=
  fd ← call (os_open path O_RDONLY);
  if fd <? 0 then fprintf 2 (str "ls: cannot open %s" ++ NEWLINE) [Str (Some path)] else
  st ← call (os_fstat fd);
  match st with
  | None => fprintf 2 (str "ls: cannot stat %s" ++ NEWLINE) [Str (Some path)];; call (os_close fd);; mret tt
  | Some st =>
      (if (st_type st =? T_DEVICE) || (st_type st =? T_FILE) then ls_line path st
       else if st_type st =? T_DIR then
         if Z.of_nat (length path) + 1 + DIRSIZ + 1 >? 512 then printf (str "ls: path too long" ++ NEWLINE) []
         else repeats fuel (ls_turn fd path) tt
       else mret tt);;
      call (os_close fd);;
      mret tt
  end.
Fixpoint ls_args (fuel : nat) (args : list (list Z)) : P O unit :=
  match args with
  | [] => mret tt
  | a :: args' => ls fuel a;; ls_args fuel args'
  end.
Definition ls_main (fuel : nat) (argv : list (list Z)) : P O unit :=
  (if (length argv <? 2)%nat then ls fuel (str ".");; exit 0 else mret tt);;
  ls_args fuel (tail argv);;
  exit 0.

(** ** getcmd of user/sh.c *)

Definition getcmd (m : mem) (buf nbuf : Z) : P O (Z * mem) :=
  call (os_write 2 (str "$ "));;
  m ← gets (memset m buf 0 nbuf) buf nbuf;
  if m buf =? 0 then mret (-1, m) else mret (0, m).
End utilities.

(** ** What wc counts *)

(** The fields between the blanks, empty ones included; the words are the others. *)
Fixpoint blank_fields (l : list Z) : list (list Z) :=
  match l with
  | [] => [[]]
  | c :: l' =>
      if blank c then [] :: blank_fields l'
      else match blank_fields l' with f :: fs => (c :: f) :: fs | [] => [[c]] end
  end.
Definition words (l : list Z) : list (list Z) := filter (λ f, f ≠ []) (blank_fields l).
Definition lines (l : list Z) : Z := Z.of_nat (length (filter (λ c, c = 10) l)).

(** A word that has begun is not counted again. *)
Definition begun (inw : bool) (l : list Z) : Z := match blank_fields l with (_ :: _) :: _ => if inw then 1 else 0 | _ => 0 end.
Lemma words_cons inw c l : Z.of_nat (length (words (c :: l))) - begun inw (c :: l) =
  Z.of_nat (length (words l)) + (if blank c || inw then 0 else 1) - begun (negb (blank c)) l.
Proof.
  unfold words, begun. cbn [blank_fields]. destruct (blank c); cbn [negb orb].
  - rewrite filter_cons_False by naive_solver. destruct (blank_fields l) as [|[|] ?]; lia.
  - destruct (blank_fields l) as [|f fs] eqn:E; [by destruct l as [|d l]; simpl in E; repeat case_match|].
    rewrite filter_cons_True by done. destruct f as [|d f].
    + rewrite filter_cons_False by naive_solver. cbn [length]. destruct inw; lia.
    + rewrite (filter_cons_True _ (d :: f)) by done. cbn [length]. destruct inw; lia.
Qed.
Lemma lines_cons c l : lines (c :: l) = lines l + (if c =? 10 then 1 else 0).
Proof. unfold lines. destruct (c =? 10) eqn:E; [rewrite filter_cons_True by lia; cbn [length]; lia|rewrite filter_cons_False by lia; lia]. Qed.

Lemma wc_bytes_count l k : 0 ≤ n_l k ≤ n_c k → 0 ≤ n_w k ≤ n_c k → n_c k + Z.of_nat (length l) < 2 ^ 31 →
  let k' := fold_left wc_byte l k in
  n_l k' = n_l k + lines l ∧ n_w k' = n_w k + Z.of_nat (length (words l)) - begun (inword k) l ∧ n_c k' = n_c k + Z.of_nat (length l).
Proof.
  revert k. induction l as [|c l IH]; intros k Hl Hw Hc; [unfold lines, words, begun; simpl; lia|]. cbn [fold_left length] in *.
  assert (wc_byte k c = Counts (n_l k + (if c =? 10 then 1 else 0)) (n_w k + (if blank c || inword k then 0 else 1)) (n_c k + 1) (negb (blank c))) as ->.
  { unfold wc_byte. rewrite !s32_small by lia. destruct (blank c), (inword k), (c =? 10); cbn [negb orb]; f_equal; lia. }
  destruct (IH (Counts (n_l k + (if c =? 10 then 1 else 0)) (n_w k + (if blank c || inword k then 0 else 1)) (n_c k + 1) (negb (blank c)))) as (E1 & E2 & E3);
    cbn [n_l n_w n_c inword] in *; [case_match; lia|case_match; lia|lia|].
  rewrite E1, E2, E3, lines_cons. pose proof (words_cons (inword k) c l). lia.
Qed.

Lemma begun_false l : begun false l = 0.
Proof. unfold begun. by destruct (blank_fields l) as [|[|] ?]. Qed.
Lemma counts_bounded l : 0 ≤ lines l ≤ Z.of_nat (length l) ∧ Z.of_nat (length (words l)) ≤ Z.of_nat (length l).
Proof.
  induction l as [|c l [IH1 IH2]]; [done|]. rewrite lines_cons. pose proof (words_cons false c l) as H. rewrite begun_false in H. cbn [length].
  assert (0 ≤ begun (negb (blank c)) l) by (unfold begun; repeat case_match; lia). repeat case_match; lia.
Qed.

Section run.
Context {O : Type} `{SC : !SysCalls O} `{FO : !Files O}.

Lemma wc_loop fd o k fuel : readable fd o → (length (input fd o) < fuel)%nat →
  ∃ o', repeats fuel (wc_turn fd) k o = Goes (true, fold_left wc_byte (input fd o) k) o' ∧ input fd o' = [] ∧
    (∀ fd', output fd' o' = output fd' o) ∧ (∀ fd', writable fd' o → writable fd' o').
Proof.
  revert o k. induction fuel as [|fuel IH]; intros o k Hr Hf; [lia|]. destruct (read_delivers fd 512 o Hr ltac:(lia)) as (bs & o1 & R & E & _ & He & Hr1 & Ho & Hw).
  assert (call (os_read fd 512) o = Goes (Some bs) o1) as R' by (unfold call; by rewrite R). destruct bs as [|b bs].
  - exists o1. rewrite He in * by done. split_and!; [|by destruct (input fd o1)|done|done]. apply repeats_end. unfold wc_turn. by rewrite (goes_on _ _ _ _ _ R').
  - destruct (IH o1 (fold_left wc_byte (b :: bs) k)) as (o' & R2 & E2 & Ho2 & Hw2); [done|rewrite E, length_app in Hf; simpl in Hf; lia|].
    exists o'. split_and!; [|done|intros; by rewrite Ho2, Ho|auto]. rewrite E, fold_left_app, <- R2. apply repeats_next. unfold wc_turn. by rewrite (goes_on _ _ _ _ _ R').
Qed.

Lemma cat_loop fd o fuel : fd ≠ 1 → readable fd o → writable 1 o → (length (input fd o) < fuel)%nat →
  ∃ o', repeats fuel (cat_turn fd) tt o = Goes true o' ∧ output 1 o' = output 1 o ++ input fd o ∧ input fd o' = [].
Proof.
  intros Hfd. revert o. induction fuel as [|fuel IH]; intros o Hr W Hf; [lia|]. destruct (read_delivers fd 512 o Hr ltac:(lia)) as (bs & o1 & R & E & _ & He & Hr1 & Ho & Hw).
  assert (call (os_read fd 512) o = Goes (Some bs) o1) as R' by (unfold call; by rewrite R). destruct bs as [|b bs].
  - exists o1. rewrite He in * by done. split_and!; [|by rewrite Ho, app_nil_r|by destruct (input fd o1)]. apply repeats_end. unfold cat_turn. by rewrite (goes_on _ _ _ _ _ R').
  - destruct (write_appends 1 (b :: bs) o1 (Hw _ W)) as (o2 & R2 & Ho2 & _ & Hi2 & Hr2 & Hw2).
    assert (call (os_write 1 (b :: bs)) o1 = Goes (Z.of_nat (length (b :: bs))) o2) as R2' by (unfold call; by rewrite R2).
    destruct (IH o2) as (o' & R3 & E3 & Ei); [auto|auto|rewrite Hi2; rewrite E, length_app in Hf; simpl in Hf; lia|].
    exists o'. split_and!; [|by rewrite E3, Ho2, Ho, Hi2, E, app_assoc|done]. rewrite <- R3. apply repeats_next. unfold cat_turn.
    by rewrite (goes_on _ _ _ _ _ R'), (goes_on _ _ _ _ _ R2'), Z.eqb_refl.
Qed.

(** cat copies its input. *)
Lemma cat_copies fd o : fd ≠ 1 → readable fd o → writable 1 o →
  ∃ o', cat (S (length (input fd o))) fd o = Goes tt o' ∧ output 1 o' = output 1 o ++ input fd o ∧ input fd o' = [].
Proof.
  intros Hfd Hr W. destruct (cat_loop fd o (S (length (input fd o))) Hfd Hr W ltac:(lia)) as (o' & R & E). exists o'. split; [|done].
  unfold cat. by rewrite (goes_on _ _ _ _ _ R).
Qed.

(** echo prints its arguments with a space between them and a newline after the last. *)
Fixpoint joined (args : list (list Z)) : list Z :=
  match args with
  | [] => []
  | [a] => a ++ NEWLINE
  | a :: args' => a ++ [32] ++ joined args'
  end.
Lemma os_write_writes fd bs o : writable fd o → ∃ o', call (os_write fd bs) o = Goes (Z.of_nat (length bs)) o' ∧ wrote fd bs o o'.
Proof.
  intros W. destruct (write_appends fd bs o W) as (o' & R & H). exists o'. split; [unfold call; by rewrite R|]. by constructor; apply H.
Qed.
Lemma echo_prints argv o : writable 1 o → ∃ o', echo_main argv o = Exited 0 o' ∧ output 1 o' = output 1 o ++ joined (tail argv).
Proof.
  intros W. assert (∀ args o, writable 1 o → ∃ o', echo_args args o = Goes tt o' ∧ wrote 1 (joined args) o o') as H.
  - clear. intros args. induction args as [|a args IH]; intros o W; [exists o; split; [done|apply wrote_nil]|].
    destruct (os_write_writes 1 a o W) as (o1 & R1 & W1). pose proof (wr_writable _ _ _ _ W1 _ W) as W'.
    destruct (os_write_writes 1 (match args with [] => NEWLINE | _ => [32] end) o1 W') as (o2 & R2 & W2). pose proof (wr_writable _ _ _ _ W2 _ W') as W''.
    destruct (IH o2 W'') as (o3 & R3 & W3). exists o3. cbn [echo_args]. rewrite (goes_on _ _ _ _ _ R1), (goes_on _ _ _ _ _ R2). split; [done|].
    pose proof (wrote_app _ _ _ _ _ _ W1 (wrote_app _ _ _ _ _ _ W2 W3)) as W4. destruct args; [by rewrite app_nil_r in W4|done].
  - destruct (H (tail argv) o W) as (o' & R & W'). exists o'. unfold echo_main. rewrite (goes_on _ _ _ _ _ R). split; [done|apply W'].
Qed.

(** getcmd delivers the next line in a buffer that is zero behind it, and -1 at the end of
    the input. *)
Lemma getcmd_line m buf nbuf o : readable 0 o → writable 2 o → Forall (λ c, 0 < c < 256) (input 0 o) → 1 < nbuf →
  let l := line_of (Z.to_nat (nbuf - 1)) (input 0 o) in
  ∃ m' o', getcmd m buf nbuf o = Goes (if bool_decide (l = []) then -1 else 0, m') o' ∧ load_bytes m' buf (length l) = l ∧ input 0 o = l ++ input 0 o' ∧
    ∀ x, buf + Z.of_nat (length l) ≤ x < buf + nbuf → m' x = 0.
Proof.
  intros Hr W Hb Hn l. destruct (os_write_writes 2 (str "$ ") o W) as (o1 & R1 & W1). pose proof (wr_input _ _ _ _ W1 0) as Ei.
  destruct (gets_line (memset m buf 0 nbuf) buf nbuf o1) as (m' & o' & R2 & Hl & H0 & E & Hlen & Hx).
  - by apply (wr_readable _ _ _ _ W1).
  - rewrite Ei. eapply Forall_impl; [exact Hb|]. simpl. lia.
  - lia.
  - rewrite Ei in *. fold l in Hl, H0, E, Hlen, Hx. exists m', o'. split_and!; [|done|done|].
    + unfold getcmd. rewrite (goes_on _ _ _ _ _ R1), (goes_on _ _ _ _ _ R2). assert ((m' buf =? 0) = bool_decide (l = [])) as ->; [|by case_bool_decide].
      destruct l as [|c l'] eqn:El; [simpl in H0; rewrite Z.add_0_r in H0; by rewrite H0|]. injection Hl as Hc _. rewrite E in Hb. apply Forall_cons in Hb as [Hb _].
      rewrite bool_decide_eq_false_2 by done. lia.
    + intros x Hx'. destruct (decide (x = buf + Z.of_nat (length l))) as [->|]; [done|]. rewrite Hx by lia. apply (memset_in m buf 0 nbuf x). lia.
Qed.

(** The line of wc. *)
Lemma has_numeral x : 0 ≤ x < 2 ^ 31 → ∃ l, numeral 10 x l.
Proof. intros Hx. eexists. apply buf_digits_numeral; lia. Qed.
Definition wc_fmt : list Z := str "%d %d %d %s" ++ NEWLINE.
Lemma wc_line_text l w c name a b d : 0 ≤ l < 2 ^ 31 → 0 ≤ w < 2 ^ 31 → 0 ≤ c < 2 ^ 31 → numeral 10 l a → numeral 10 w b → numeral 10 c d →
  texts (directives (length wc_fmt) wc_fmt) [Num l; Num w; Num c; Str (Some name)] (a ++ [32] ++ b ++ [32] ++ d ++ [32] ++ name ++ [10]) [].
Proof.
  intros Hl Hw Hc Ha Hb Hd.
  change (directives (length wc_fmt) wc_fmt) with [Number 10 true; Char 32; Number 10 true; Char 32; Number 10 true; Char 32; Text; Char 10].
  assert (∀ x ap t, 0 ≤ x < 2 ^ 31 → numeral 10 x t → text_of (Number 10 true) (Num x :: ap) t ap) as Hnum.
  { intros x ap t Hx Ht. pose proof (text_signed 10 (Num x :: ap) t) as T. cbn [va_num tail] in T. rewrite s32_small in T by lia. replace (x <? 0) with false in T by lia. apply T. by rewrite Z.abs_eq by lia. }
  econstructor; [by apply Hnum|]. econstructor; [constructor|]. econstructor; [by apply Hnum|]. econstructor; [constructor|]. econstructor; [by apply Hnum|]. econstructor; [constructor|].
  econstructor; [apply (text_text [Str (Some name)])|]. rewrite <- (app_nil_r [10]). econstructor; [constructor|constructor].
Qed.
End run.

(** The name of a file, in a column of DIRSIZ characters. *)
Lemma after_slash_app dir name (k : nat) : 47 ∉ name → (length dir < k)%nat → (k ≤ length dir + S (length name))%nat → after_slash (dir ++ 47 :: name) k = name.
Proof.
  intros Hn. induction k as [|k IH]; intros H1 H2; [lia|]. cbn [after_slash].
  assert ((nth (S k) (dir ++ 47 :: name) 0 =? 47) = false) as ->.
  { apply Z.eqb_neq. intros E. rewrite nth_lookup, lookup_app_r in E by lia. replace (S k - length dir)%nat with (S (k - length dir)) in E by lia. simpl in E.
    destruct (name !! (k - length dir)%nat) eqn:El; simpl in E; [|lia]. subst. by apply Hn, (list_elem_of_lookup_2 _ _ _ El). }
  destruct (decide (length dir < k)%nat); [apply IH; lia|]. assert (k = length dir) as -> by lia.
  assert (after_slash (dir ++ 47 :: name) (length dir) = drop (S (length dir)) (dir ++ 47 :: name)) as ->.
  { destruct dir as [|d dir]; [done|]. cbn [after_slash length]. rewrite nth_lookup, lookup_app_r by (simpl; lia). by replace (S (length dir) - length (d :: dir))%nat with 0%nat by (simpl; lia). }
  replace (S (length dir)) with (length (dir ++ [47])) by (rewrite length_app; simpl; lia). change (47 :: name) with ([47] ++ name). by rewrite app_assoc, drop_app_length.
Qed.
Lemma fmtname_pads dir name : 47 ∉ name → Z.of_nat (length name) ≤ DIRSIZ →
  fmtname (dir ++ 47 :: name) = name ++ replicate (Z.to_nat DIRSIZ - length name) 32.
Proof.
  intros Hn Hl. unfold fmtname. rewrite after_slash_app; [|done|rewrite length_app; simpl; lia|rewrite length_app; simpl; lia].
  assert (DIRSIZ = 14) as HD by done. destruct (Z.of_nat (length name) >=? DIRSIZ) eqn:E.
  - replace (Z.to_nat DIRSIZ - length name)%nat with 0%nat by lia. by rewrite app_nil_r.
  - do 2 f_equal. lia.
Qed.

(** ** Properties *)

(** C19: wc counts lines, words and bytes.  However read divides the input, wc reads all of
    it and prints one line with three numerals and the name: the number of newlines, the
    number of words, that is of the non-empty fields between blanks, and the number of
    bytes. *)
Theorem wc_counts_input {O : Type} `{SC : !SysCalls O} `{FO : !Files O} fd name (o : O) :
  readable fd o → writable 1 o → Z.of_nat (length (input fd o)) < 2 ^ 31 → bytes name →
  ∃ a b d o', wc (S (length (input fd o))) fd name o = Goes tt o' ∧
    numeral 10 (lines (input fd o)) a ∧ numeral 10 (Z.of_nat (length (words (input fd o)))) b ∧ numeral 10 (Z.of_nat (length (input fd o))) d ∧
    output 1 o' = output 1 o ++ a ++ [32] ++ b ++ [32] ++ d ++ [32] ++ name ++ [10].
Proof.
  intros Hr W Hlen Hn. destruct (wc_loop fd o (Counts 0 0 0 false) (S (length (input fd o))) Hr ltac:(lia)) as (o1 & R & _ & Ho & Hw).
  destruct (wc_bytes_count (input fd o) (Counts 0 0 0 false)) as (El & Ew & Ec); cbn [n_l n_w n_c inword] in *; [lia|lia|lia|].
  rewrite begun_false in Ew. pose proof (counts_bounded (input fd o)) as [Bl Bw]. set (k := fold_left wc_byte (input fd o) (Counts 0 0 0 false)) in *.
  assert (0 ≤ n_l k < 2 ^ 31 ∧ 0 ≤ n_w k < 2 ^ 31 ∧ 0 ≤ n_c k < 2 ^ 31) as (Kl & Kw & Kc) by lia.
  destruct (has_numeral (n_l k) Kl) as [a Ha], (has_numeral (n_w k) Kw) as [b Hb], (has_numeral (n_c k) Kc) as [d Hd].
  pose proof (wc_line_text (n_l k) (n_w k) (n_c k) name a b d Kl Kw Kc Ha Hb Hd) as T.
  assert (Forall (λ c, 0 < c < 256) wc_fmt) as Hf by (apply (bool_decide_unpack _); vm_compute; exact I).
  assert (strings_ok [Num (n_l k); Num (n_w k); Num (n_c k); Str (Some name)]) as Hs by by repeat constructor.
  destruct (printf_writes wc_fmt _ _ _ o1 (Hw _ W) Hf Hs T) as (o' & R2 & W2).
  exists a, b, d, o'. unfold wc. rewrite (goes_on _ _ _ _ _ R), (goes_on _ _ _ tt o1) by done.
  split_and!; [exact R2|by rewrite <- (Z.add_0_l (lines _)), <- El| | |by rewrite (wr_out _ _ _ _ W2), Ho].
  - by replace (Z.of_nat (length (words (input fd o)))) with (n_w k) by lia.
  - by replace (Z.of_nat (length (input fd o))) with (n_c k) by lia.
Qed.

Lemma wc_counts_input_witness :
  let o := FdTable (λ fd, if fd =? 3 then str "two  words" ++ NEWLINE else []) (λ _, []) in
  ∃ a b d o', wc (S (length (input 3 o))) 3 (str "f") o = Goes tt o' ∧ numeral 10 1 a ∧ numeral 10 2 b ∧ numeral 10 11 d ∧
    output 1 o' = output 1 o ++ a ++ [32] ++ b ++ [32] ++ d ++ [32] ++ str "f" ++ [10].
Proof.
  intros o. assert (lines (input 3 o) = 1) as E1 by (vm_compute; reflexivity). assert (length (words (input 3 o)) = 2%nat) as E2 by (vm_compute; reflexivity).
  assert (length (input 3 o) = 11%nat) as E3 by (vm_compute; reflexivity).
  destruct (wc_counts_input 3 (str "f") o) as (a & b & d & o' & R & Ha & Hb & Hd & Ho).
  - exact I.
  - exact I.
  - rewrite E3. lia.
  - apply (bool_decide_unpack _). vm_compute. exact I.
  - rewrite E1 in Ha. rewrite E2 in Hb. rewrite E3 in Hd. exists a, b, d, o'. exact (conj R (conj Ha (conj Hb (conj Hd Ho)))).
Defined.
