(* ===== verification/ShRun.v ===== *)
(** * The shell's processes (user/sh.c: main, runcmd, fork1, panic)

    The shell and the children that it forks to run a command are programs of system
    calls, [prog]: what follows a fork is given for the child, the parent and for the
    failure of the fork.  A world is the table of processes, each with its program and its
    descriptors, and a step is one system call of one process: the processes run
    interleaved in any order, and a call that may fail may fail.  A program that was
    started by exec is left alone until it exits. *)
From stdpp Require Import gmap relations.
From S2P Require Import Prelude Mem Riscv Console FsPath File Sh.
Open Scope Z_scope.

Definition word : Type := list Z.

Inductive prog :=
| Exit (status : Z)
| Exec (argv : list word) (failed : prog)
| Print (fd : Z) (text : list Z) (k : prog)
| Close (fd : Z) (k : prog)
| Dup (fd : Z) (k : prog)
| Open (file : word) (mode : Z) (k : Z → prog)
| Pipe (k : option (Z * Z) → prog)
| Fork (child parent failed : prog)
| Wait (k : prog)
| Chdir (path : word) (k : Z → prog).

(** ** sh.c *)

Definition panic (s : string) : prog := Print 2 (str s ++ [10]) (Exit 1).
(** [if(fork1() == 0) child; parent] for a child that does not come back. *)
Definition fork1 (child parent : prog) : prog := Fork child parent (panic "fork").

Fixpoint runcmd (c : cmd word) : prog :=
  match c with
  | EXEC argv =>
      match argv with
      | [] => Exit 1
      | file :: _ => Exec argv (Print 2 (str "exec " ++ file ++ str " failed" ++ [10]) (Exit 0))
      end
  | REDIR c file mode fd =>
      Close fd (Open file mode (λ r,
        if r <? 0 then Print 2 (str "open " ++ file ++ str " failed" ++ [10]) (Exit 1) else runcmd c))
  | LIST lc rc => fork1 (runcmd lc) (Wait (runcmd rc))
  | PIPE lc rc =>
      Pipe (λ p,
        match p with
        | None => panic "pipe"
        | Some (p0, p1) =>
            fork1 (Close 1 (Dup p1 (Close p0 (Close p1 (runcmd lc)))))
              (fork1 (Close 0 (Dup p0 (Close p0 (Close p1 (runcmd rc)))))
                (Close p0 (Close p1 (Wait (Wait (Exit 0))))))
        end)
  | BACK c => fork1 (runcmd c) (Exit 0)
  end.

(** runcmd(parsecmd(buf)) in the child. *)
Definition run_line (buf : list Z) : prog :=
  match parsecmd (until0 buf) [] with
  | Ok (c, buf') _ => runcmd (cmd_map (string_of buf') c)
  | Panic msg => panic msg
  | _ => Exit 1
  end.

(** The loop of main over the lines that getcmd delivers; it ends with an empty one. *)
Fixpoint main_loop (lines : list (list Z)) : prog :=
  match lines with
  | [] => Exit 0
  | buf :: lines' =>
      let buf := until0 buf in
      if bool_decide (buf = []) then Exit 0
      else if bool_decide (take 3 buf = str "cd ") then
        let path := drop 3 (take (length buf - 1) buf) in
        Chdir path (λ r, if r <? 0 then Print 2 (str "cannot cd " ++ path ++ [10]) (main_loop lines') else main_loop lines')
      else fork1 (run_line buf) (Wait (main_loop lines'))
  end.
(** [while((fd = open("console", O_RDWR)) >= 0) if(fd >= 3){ close(fd); break; }]: four
    turns are enough, since every one takes the lowest descriptor that is free. *)
Fixpoint open_console (n : nat) (k : prog) : prog :=
  match n with
  | 0%nat => k
  | S n' => Open (str "console") O_RDWR (λ fd, if fd >=? 0 then if fd >=? 3 then Close fd k else open_console n' k else k)
  end.
Definition main (lines : list (list Z)) : prog := open_console 4 (main_loop lines).

(** ** The processes *)

(** What a descriptor refers to: what the shell was given, a file, or an end of a pipe. *)
Inductive obj := Given (i : Z) | OpenFile (file : word) (mode : Z) | PipeR (id : Z) | PipeW (id : Z).
Abbreviation fds := (gmap Z obj).
(** The lowest descriptor that is free, as fdalloc of the kernel takes it. *)
Definition free_fd (f : fds) : option Z := head (filter (λ fd, f !! fd = None) (seqZ 0 NOFILE)).

Inductive code := Run (p : prog) | Image (argv : list word) | Zombie (status : Z).
Record process := Proc { p_code : code; p_fds : fds; p_parent : Z }.
Record world := World { procs : gmap Z process; next_pipe : Z }.
Definition initproc : Z := 1.
Definition to_init (pid : Z) (m : gmap Z process) : gmap Z process :=
  (λ p, if p_parent p =? pid then Proc (p_code p) (p_fds p) initproc else p) <$> m.

(** The process [pid] goes on with [c] and [f]. *)
Definition becomes (pid : Z) (c : code) (f : fds) (par : Z) (w : world) : world := World (<[pid := Proc c f par]> (procs w)) (next_pipe w).

Inductive acts (pid : Z) (f : fds) (par : Z) (w : world) : code → world → Prop :=
| act_exit st : acts pid f par w (Run (Exit st)) (World (to_init pid (<[pid := Proc (Zombie st) ∅ par]> (procs w))) (next_pipe w))
| act_exec argv k : acts pid f par w (Run (Exec argv k)) (becomes pid (Image argv) f par w)
| act_exec_failed argv k : acts pid f par w (Run (Exec argv k)) (becomes pid (Run k) f par w)
| act_image_exits argv st : acts pid f par w (Image argv) (World (to_init pid (<[pid := Proc (Zombie st) ∅ par]> (procs w))) (next_pipe w))
| act_print fd t k : acts pid f par w (Run (Print fd t k)) (becomes pid (Run k) f par w)
| act_close fd k : acts pid f par w (Run (Close fd k)) (becomes pid (Run k) (delete fd f) par w)
| act_dup fd k o n : f !! fd = Some o → free_fd f = Some n → acts pid f par w (Run (Dup fd k)) (becomes pid (Run k) (<[n := o]> f) par w)
| act_dup_failed fd k : f !! fd = None ∨ free_fd f = None → acts pid f par w (Run (Dup fd k)) (becomes pid (Run k) f par w)
| act_open file mode k n : free_fd f = Some n → acts pid f par w (Run (Open file mode k)) (becomes pid (Run (k n)) (<[n := OpenFile file mode]> f) par w)
| act_open_failed file mode k : acts pid f par w (Run (Open file mode k)) (becomes pid (Run (k (-1))) f par w)
| act_pipe k a b : free_fd f = Some a → free_fd (<[a := PipeR (next_pipe w)]> f) = Some b →
    acts pid f par w (Run (Pipe k))
      (World (<[pid := Proc (Run (k (Some (a, b)))) (<[b := PipeW (next_pipe w)]> (<[a := PipeR (next_pipe w)]> f)) par]> (procs w)) (next_pipe w + 1))
| act_pipe_failed k : acts pid f par w (Run (Pipe k)) (becomes pid (Run (k None)) f par w)
| act_fork child parent failed pid' : procs w !! pid' = None → pid' ≠ initproc →
    acts pid f par w (Run (Fork child parent failed))
      (World (<[pid' := Proc (Run child) f pid]> (<[pid := Proc (Run parent) f par]> (procs w))) (next_pipe w))
| act_fork_failed child parent failed : acts pid f par w (Run (Fork child parent failed)) (becomes pid (Run failed) f par w)
| act_wait k pid' st f' : procs w !! pid' = Some (Proc (Zombie st) f' pid) → pid' ≠ pid →
    acts pid f par w (Run (Wait k)) (World (<[pid := Proc (Run k) f par]> (delete pid' (procs w))) (next_pipe w))
| act_wait_none k : (∀ pid' p, procs w !! pid' = Some p → p_parent p ≠ pid) → acts pid f par w (Run (Wait k)) (becomes pid (Run k) f par w)
| act_chdir path k r : acts pid f par w (Run (Chdir path k)) (becomes pid (Run (k r)) f par w).
Inductive step (w : world) : world → Prop :=
| step_acts pid c f par w' : procs w !! pid = Some (Proc c f par) → acts pid f par w c w' → step w w'.

(** The children that a process has not waited for. *)
Definition of_parent (pid : Z) (kv : Z * process) : Prop := p_parent kv.2 = pid.
#[export] Instance of_parent_dec pid kv : Decision (of_parent pid kv) := Z.eq_dec _ _.
Definition children (m : gmap Z process) (pid : Z) : nat := size (filter (of_parent pid) m).

(** ** One process *)

Lemma fdalloc_lowest (f : fds) n : 0 ≤ n < NOFILE → f !! n = None → (∀ m, 0 ≤ m < n → is_Some (f !! m)) → free_fd f = Some n.
Proof.
  intros Hn Hf Hlow. unfold free_fd. replace NOFILE with (n + (NOFILE - n)) by lia. rewrite seqZ_app by lia. rewrite filter_app.
  assert (filter (λ fd, f !! fd = None) (seqZ 0 n) = []) as ->.
  { apply elem_of_nil_inv. intros m [Hm Hin%elem_of_seqZ]%list_elem_of_filter. destruct (Hlow m) as [? ?]; [lia|congruence]. }
  rewrite seqZ_cons by lia. rewrite filter_cons_True by (by rewrite Z.add_0_l). by rewrite Z.add_0_l.
Qed.

Section safe.
(** What the standard error of the shell is. *)
Variable err : obj.

(** Descriptors 0, 1 and 2 and no others; a pipe is read at 0 and written at 1. *)
Definition std (f : fds) : Prop :=
  dom f = {[0; 1; 2]} ∧ (∀ id, f !! 0 ≠ Some (PipeW id)) ∧ (∀ id, f !! 1 ≠ Some (PipeR id)) ∧ f !! 2 = Some err.

(** A program with the descriptors [f] and [n] children execs and waits only with these
    descriptors, execs without children, and waits only for children that it has. *)
Fixpoint safe (p : prog) (f : fds) (n : nat) : Prop :=
  match p with
  | Exit _ => True
  | Exec _ k => std f ∧ n = 0%nat ∧ safe k f n
  | Print _ _ k => safe k f n
  | Close fd k => safe k (delete fd f) n
  | Dup fd k => (∀ o a, f !! fd = Some o → free_fd f = Some a → safe k (<[a := o]> f) n) ∧ (f !! fd = None ∨ free_fd f = None → safe k f n)
  | Open file mode k => (∀ a, free_fd f = Some a → safe (k a) (<[a := OpenFile file mode]> f) n) ∧ safe (k (-1)) f n
  | Pipe k => (∀ id a b, free_fd f = Some a → free_fd (<[a := PipeR id]> f) = Some b → safe (k (Some (a, b))) (<[b := PipeW id]> (<[a := PipeR id]> f)) n) ∧ safe (k None) f n
  | Fork c p x => safe c f 0 ∧ safe p f (S n) ∧ safe x f n
  | Wait k => std f ∧ (0 < n)%nat ∧ safe k f (n - 1)
  | Chdir _ k => ∀ r, safe (k r) f n
  end.

Lemma safe_fork1 c p f n : safe c f 0 → safe p f (S n) → safe (fork1 c p) f n.
Proof. intros Hc Hp. by split_and!. Qed.

Lemma std_lookup f fd : std f → is_Some (f !! fd) ↔ fd = 0 ∨ fd = 1 ∨ fd = 2.
Proof. intros (Hd & _). rewrite <- elem_of_dom, Hd. set_solver. Qed.
Lemma std_none f fd : std f → fd ≠ 0 → fd ≠ 1 → fd ≠ 2 → f !! fd = None.
Proof. intros Hs H0 H1 H2. apply eq_None_not_Some. rewrite std_lookup by done. lia. Qed.
Lemma std_ext f f' : std f → (∀ fd, f' !! fd = f !! fd) → std f'.
Proof. intros Hs E. replace f' with f; [done|]. by apply map_eq. Qed.
Lemma std_insert f fd o : std f → (fd = 0 ∧ (∀ id, o ≠ PipeW id)) ∨ (fd = 1 ∧ (∀ id, o ≠ PipeR id)) → std (<[fd := o]> f).
Proof.
  intros (Hd & H0 & H1 & H2) H. split_and!.
  - rewrite dom_insert_L, Hd. set_solver.
  - intros id. destruct H as [[-> Ho]|[-> Ho]]; [rewrite lookup_insert_eq; naive_solver|by rewrite lookup_insert_ne by lia].
  - intros id. destruct H as [[-> Ho]|[-> Ho]]; [by rewrite lookup_insert_ne by lia|rewrite lookup_insert_eq; naive_solver].
  - rewrite lookup_insert_ne by lia. done.
Qed.

(** The descriptor that was closed is the one that is allocated next. *)
Lemma fdalloc_closed (f : fds) fd : fd = 0 ∨ fd = 1 → is_Some (f !! 0) → free_fd (delete fd f) = Some fd.
Proof.
  intros Hfd H0. apply fdalloc_lowest; [unfold NOFILE; lia|by apply lookup_delete_eq|]. intros m Hm. assert (m = 0 ∧ fd = 1) as [-> ->] by lia. by rewrite lookup_delete_ne.
Qed.
Lemma fdalloc_std f : std f → free_fd f = Some 3.
Proof. intros Hs. apply fdalloc_lowest; [unfold NOFILE; lia|apply std_none; (done || lia)|]. intros m Hm. apply std_lookup; [done|lia]. Qed.
Lemma fdalloc_std3 f o : std f → free_fd (<[3 := o]> f) = Some 4.
Proof.
  intros Hs. apply fdalloc_lowest; [unfold NOFILE; lia|rewrite lookup_insert_ne by lia; apply std_none; (done || lia)|].
  intros m Hm. destruct (decide (m = 3)) as [->|]; [rewrite lookup_insert_eq; eauto|]. rewrite lookup_insert_ne by lia. apply std_lookup; [done|lia].
Qed.
(** The parser's commands redirect 0 and 1 only. *)
Fixpoint redirs {W} (c : cmd W) : Prop :=
  match c with
  | EXEC _ => True
  | REDIR c _ _ fd => redirs c ∧ (fd = 0 ∨ fd = 1)
  | PIPE l r | LIST l r => redirs l ∧ redirs r
  | BACK c => redirs c
  end.

(** The side of a pipeline: what was made of [f], with both ends of the pipe, by closing
    [fd], moving the end [e] there and closing both ends. *)
Lemma side_std f fd e o a b : std f → std (<[fd := o]> f) → (fd = 0 ∨ fd = 1) → (e = 3 ∨ e = 4) →
  let f4 := <[4 := b]> (<[3 := a]> f) in f4 !! e = Some o →
  ∀ k n, (∀ f', std f' → safe k f' n) → safe (Close fd (Dup e (Close 3 (Close 4 k)))) f4 n.
Proof.
  intros Hs Hs' Hfd He f4 Eo k n Hk. cbn [safe]. assert (free_fd (delete fd f4) = Some fd) as Ea.
  { apply fdalloc_closed; [done|]. unfold f4. rewrite !lookup_insert_ne by lia. apply std_lookup; auto. }
  rewrite lookup_delete_ne by lia. split; [|rewrite Eo, Ea; naive_solver]. intros o' a' Eo' Ea'. rewrite Eo in Eo'. rewrite Ea in Ea'. injection Eo' as <-. injection Ea' as <-. apply Hk.
  apply (std_ext _ _ Hs'). intros x. unfold f4. destruct (decide (x = 4)) as [->|]; [rewrite lookup_delete_eq; rewrite lookup_insert_ne by lia; symmetry; apply std_none; (done || lia)|].
  rewrite lookup_delete_ne by done. destruct (decide (x = 3)) as [->|]; [rewrite lookup_delete_eq; rewrite lookup_insert_ne by lia; symmetry; apply std_none; (done || lia)|].
  rewrite lookup_delete_ne by done. destruct (decide (x = fd)) as [->|]; [by rewrite !lookup_insert_eq|]. by rewrite !lookup_insert_ne, lookup_delete_ne, !lookup_insert_ne by done.
Qed.
Lemma closed_std f a b : std f → std (delete 4 (delete 3 (<[4 := b]> (<[3 := a]> f)))).
Proof.
  intros Hs. apply (std_ext _ _ Hs). intros x. destruct (decide (x = 4)) as [->|]; [rewrite lookup_delete_eq; symmetry; apply std_none; (done || lia)|].
  rewrite lookup_delete_ne by done. destruct (decide (x = 3)) as [->|]; [rewrite lookup_delete_eq; symmetry; apply std_none; (done || lia)|].
  by rewrite lookup_delete_ne, !lookup_insert_ne by done.
Qed.

Lemma runcmd_safe c f : redirs c → std f → safe (runcmd c) f 0.
Proof.
  revert f. induction c as [[|file argv]|c IH file mode fd|l IHl r IHr|l IHl r IHr|c IH]; intros f Hr Hs; simpl in Hr; cbn [runcmd].
  - done.
  - by cbn [safe].
  - destruct Hr as [Hr Hfd]. cbn [safe]. split; [|done]. intros a Ea. assert (free_fd (delete fd f) = Some fd) as E by (apply fdalloc_closed; [done|apply std_lookup; auto]).
    rewrite E in Ea. injection Ea as <-. replace (fd <? 0) with false by lia. apply IH; [done|]. rewrite insert_delete_eq. apply std_insert; [done|]. destruct Hfd; [left|right]; done.
  - destruct Hr as [Hl Hr]. split; [|done]. intros id a b Ea Eb. rewrite fdalloc_std in Ea by done. simplify_eq. rewrite fdalloc_std3 in Eb by done. simplify_eq.
    apply safe_fork1; [|apply safe_fork1].
    + apply (side_std f 1 4 (PipeW id)); auto; [apply std_insert; [done|right; done]|by rewrite lookup_insert_eq].
    + apply (side_std f 0 3 (PipeR id)); auto; [apply std_insert; [done|left; done]|by rewrite lookup_insert_ne, lookup_insert_eq by lia].
    + cbn [safe]. split_and!; try lia; try done; by apply closed_std.
  - destruct Hr as [Hl Hr]. apply safe_fork1; [auto|]. cbn [safe Nat.sub]. auto with lia.
  - apply safe_fork1; [auto|done].
Qed.

Lemma wf_redirs line c : wf line c → redirs c.
Proof. induction c as [argv|c IH w m d|c1 IH1 c2 IH2|c1 IH1 c2 IH2|c IH]; simpl; intuition. Qed.
Lemma cmd_map_redirs {V W} (g : V → W) c : redirs c → redirs (cmd_map g c).
Proof. induction c as [argv|c IH w m d|c1 IH1 c2 IH2|c1 IH1 c2 IH2|c IH]; simpl; intuition. Qed.
Lemma run_line_safe buf f : std f → safe (run_line buf) f 0.
Proof.
  intros Hs. assert (Forall (λ c, c ≠ 0) (until0 buf)) as Hz.
  { clear. induction buf as [|c buf IH]; simpl; [constructor|]. destruct (c =? 0) eqn:E; constructor; [lia|done]. }
  unfold run_line. pose proof (parsecmd_ensures (until0 buf) [] Hz) as H. unfold ensures in H. destruct (parsecmd (until0 buf) []) as [[c l] s|msg|s|]; try done.
  destruct H as [H _]. apply runcmd_safe; [|done]. by eapply cmd_map_redirs, wf_redirs.
Qed.
Lemma main_loop_safe lines f : std f → safe (main_loop lines) f 0.
Proof.
  intros Hs. induction lines as [|buf lines IH]; [done|]. cbn [main_loop]. case_bool_decide; [done|]. case_bool_decide.
  - intros r. by destruct (r <? 0).
  - apply safe_fork1; [by apply run_line_safe|]. cbn [safe Nat.sub]. auto with lia.
Qed.
Lemma main_safe lines f : std f → safe (main lines) f 0.
Proof.
  intros Hs. unfold main. cbn [open_console]. split; [|by apply main_loop_safe]. intros a Ea. rewrite fdalloc_std in Ea by done. injection Ea as <-.
  change (3 >=? 0) with true. change (3 >=? 3) with true. cbn [safe]. rewrite delete_insert_id by (apply std_none; (done || lia)). by apply main_loop_safe.
Qed.
End safe.

(** ** All processes *)

Abbreviation one_if P := (if decide P then 1%nat else 0%nat).

Lemma children_new (m : gmap Z process) i p q : m !! i = None → children (<[i := p]> m) q = (children m q + one_if (p_parent p = q))%nat.
Proof.
  intros Hi. unfold children. destruct (decide (p_parent p = q)) as [E|E].
  - rewrite map_filter_insert_True by done. rewrite map_size_insert_None; [lia|]. apply map_lookup_filter_None. by left.
  - rewrite map_filter_insert_False by done. rewrite delete_id by done. lia.
Qed.
Lemma children_delete (m : gmap Z process) i p q : m !! i = Some p → children m q = (children (delete i m) q + one_if (p_parent p = q))%nat.
Proof. intros Hi. rewrite <- (insert_delete_id m i p Hi) at 1. apply children_new. by rewrite lookup_delete_eq. Qed.
Lemma children_update (m : gmap Z process) i p p' q : m !! i = Some p → p_parent p' = p_parent p → children (<[i := p']> m) q = children m q.
Proof.
  intros Hi E. rewrite <- insert_delete_eq, children_new, E by (by rewrite lookup_delete_eq). symmetry. by apply children_delete.
Qed.
Lemma children_reparent (m : gmap Z process) pid q : q ≠ initproc → children (to_init pid m) q = if decide (q = pid) then 0%nat else children m q.
Proof.
  intros Hq. unfold to_init, children. rewrite map_filter_fmap, map_size_fmap. case_decide as E.
  - subst q. apply map_size_empty_iff, map_empty_filter_2. intros i p _. unfold of_parent. simpl. destruct (p_parent p =? pid) eqn:E'; simpl; [congruence|lia].
  - f_equal. apply map_filter_ext. intros i p _. unfold of_parent. simpl. destruct (p_parent p =? pid) eqn:E'; simpl; [|done]. split; [congruence|lia].
Qed.

Lemma lookup_reparent pid (m : gmap Z process) q : to_init pid m !! q = (λ p, if p_parent p =? pid then Proc (p_code p) (p_fds p) initproc else p) <$> m !! q.
Proof. apply lookup_fmap. Qed.

Section machine.
Variable err : obj.

Definition proc_ok (p : process) (n : nat) : Prop :=
  match p_code p with
  | Run q => safe err q (p_fds p) n
  | Image _ => std err (p_fds p) ∧ n = 0%nat
  | Zombie _ => n = 0%nat
  end.
Record inv (m : gmap Z process) : Prop := {
  in_proc pid p : m !! pid = Some p → pid ≠ initproc ∧ proc_ok p (children m pid);
  in_gone pid : m !! pid = None → pid ≠ initproc → children m pid = 0%nat;
}.

(** A process goes on by itself. *)
Lemma inv_becomes m pid p c f : inv m → m !! pid = Some p → proc_ok (Proc c f (p_parent p)) (children m pid) → inv (<[pid := Proc c f (p_parent p)]> m).
Proof.
  intros [H1 H2] E Hok. assert (∀ q, children (<[pid := Proc c f (p_parent p)]> m) q = children m q) as Ek by (intros; by eapply children_update).
  constructor; intros q; [intros p'|]; rewrite Ek.
  - intros [[<- <-]|[Hne E']]%lookup_insert_Some; [|by apply H1]. split; [by eapply H1|done].
  - intros [E' _]%lookup_insert_None. by apply H2.
Qed.
Lemma inv_exit m pid p st : inv m → m !! pid = Some p → inv (to_init pid (<[pid := Proc (Zombie st) ∅ (p_parent p)]> m)).
Proof.
  intros [H1 H2] E. set (m' := <[pid := Proc (Zombie st) ∅ (p_parent p)]> m).
  assert (∀ q, children m' q = children m q) as Ek by (intros; by eapply children_update).
  constructor; intros q.
  - intros p'. rewrite lookup_reparent. intros (p0 & Ep & ->)%fmap_Some. assert (q ≠ initproc) as Hq.
    { apply lookup_insert_Some in Ep as [[<- _]|[_ Ep]]; by eapply H1. }
    split; [done|]. rewrite children_reparent by done. rewrite Ek.
    assert (proc_ok p0 (if decide (q = pid) then 0 else children m q)%nat) as Hok.
    { apply lookup_insert_Some in Ep as [[-> <-]|[Hne Ep]]; [by rewrite decide_True|]. rewrite decide_False by done. by apply H1. }
    unfold proc_ok in *. by destruct (p_parent p0 =? pid).
  - rewrite lookup_reparent, fmap_None. intros [Eq Hne]%lookup_insert_None Hq. rewrite children_reparent by done. case_decide; [done|]. rewrite Ek. by apply H2.
Qed.
Lemma inv_fork m pid p child parent f pid' : inv m → m !! pid = Some p → m !! pid' = None → pid' ≠ initproc →
  safe err child f 0 → safe err parent f (S (children m pid)) →
  inv (<[pid' := Proc (Run child) f pid]> (<[pid := Proc (Run parent) f (p_parent p)]> m)).
Proof.
  intros [H1 H2] E E' Hi Hc Hp. assert (pid ≠ pid') as Hne by congruence. set (m1 := <[pid := Proc (Run parent) f (p_parent p)]> m).
  assert (∀ q, children (<[pid' := Proc (Run child) f pid]> m1) q = (children m q + one_if (pid = q))%nat) as Ek.
  { intros q. rewrite children_new by (unfold m1; by rewrite lookup_insert_ne). f_equal. by eapply children_update. }
  constructor; intros q; [intros p'|]; rewrite Ek.
  - intros [[<- <-]|[Hq Eq]]%lookup_insert_Some; [|unfold m1 in Eq; apply lookup_insert_Some in Eq as [[<- <-]|[Hq' Eq]]].
    + split; [done|]. rewrite decide_False by done. rewrite (H2 pid') by done. exact Hc.
    + split; [by eapply H1|]. rewrite decide_True by done. by rewrite Nat.add_1_r.
    + rewrite decide_False by done. rewrite Nat.add_0_r. by apply H1.
  - intros [[Eq Hq']%lookup_insert_None Hq]%lookup_insert_None Hqi. rewrite decide_False by done. rewrite H2 by done. done.
Qed.
Lemma inv_wait m pid p k f pid' st f' : inv m → m !! pid = Some p → m !! pid' = Some (Proc (Zombie st) f' pid) → pid' ≠ pid →
  safe err k f (children m pid - 1) → inv (<[pid := Proc (Run k) f (p_parent p)]> (delete pid' m)).
Proof.
  intros [H1 H2] E E' Hne Hk. assert (∀ q, children m q = (children (<[pid := Proc (Run k) f (p_parent p)]> (delete pid' m)) q + one_if (pid = q))%nat) as Ek.
  { intros q. rewrite (children_delete m pid' _ q E'). f_equal. symmetry. eapply children_update; [by rewrite lookup_delete_ne|done]. }
  constructor; intros q; specialize (Ek q); [intros p'|].
  - intros [[<- <-]|[Hq [Hq' Eq]%lookup_delete_Some]]%lookup_insert_Some.
    + split; [by eapply H1|]. rewrite decide_True in Ek by done. rewrite Ek in Hk. unfold proc_ok. simpl. by rewrite Nat.add_sub in Hk.
    + rewrite decide_False in Ek by done. rewrite Nat.add_0_r in Ek. rewrite <- Ek. by apply H1.
  - intros [Eq Hq]%lookup_insert_None Hqi. rewrite decide_False in Ek by done. destruct (decide (q = pid')) as [->|Hq'].
    + pose proof (H1 _ _ E') as [_ Hz]. unfold proc_ok in Hz. simpl in Hz. lia.
    + rewrite lookup_delete_ne in Eq by done. specialize (H2 q Eq Hqi). lia.
Qed.

Lemma inv_step w w' : inv (procs w) → step w w' → inv (procs w').
Proof.
  intros I [pid c f par w1 E A]. pose proof (in_proc _ I pid _ E) as [Hi Hok]. unfold proc_ok in Hok. cbn [p_code p_fds] in Hok.
  pose proof (λ c' f', inv_becomes (procs w) pid (Proc c f par) c' f' I E) as Hb. cbn [p_parent] in Hb.
  destruct A; cbn [procs becomes safe] in *; try (apply Hb; unfold proc_ok; cbn [p_code p_fds]; naive_solver).
  - exact (inv_exit (procs w) pid _ st I E).
  - exact (inv_exit (procs w) pid _ st I E).
  - eapply (inv_fork (procs w) pid (Proc _ f par)); try done; apply Hok.
  - eapply (inv_wait (procs w) pid (Proc _ f par)); try done; apply Hok.
  - apply Hb. unfold proc_ok. cbn [p_code p_fds]. destruct Hok as (_ & Hn & Hk). exfalso. assert (children (procs w) pid = 0%nat); [|lia].
    apply map_size_empty_iff, map_empty_filter_2. intros i p Ep. by apply H in Ep.
Qed.
Lemma inv_rtc w w' : rtc step w w' → inv (procs w) → inv (procs w').
Proof. induction 1 as [|w1 w2 w3 Hst _ IH]; [done|]. intros I. by apply IH, (inv_step w1). Qed.
Lemma inv_one pid q f : pid ≠ initproc → safe err q f 0 → inv {[pid := Proc (Run q) f initproc]}.
Proof.
  intros Hi Hs. assert (∀ x, x ≠ initproc → children {[pid := Proc (Run q) f initproc]} x = 0%nat) as Ek.
  { intros x Hx. unfold children. rewrite map_filter_singleton_False; [apply map_size_empty|]. unfold of_parent. simpl. congruence. }
  constructor; intros x; [|by intros _ ?%Ek]. intros p [<- <-]%lookup_singleton_Some. split; [done|]. by rewrite Ek.
Qed.
End machine.

(** ** Properties *)

(** The shell with the descriptors that it was given. *)
Definition shell (lines : list (list Z)) (f : fds) (sh : Z) : world := World {[sh := Proc (Run (main lines)) f initproc]} 0.

(** C15: the shell's plumbing.  Whatever lines the shell is given and however its processes
    are interleaved, calls that fail included, a program that it starts has the
    descriptors 0, 1 and 2 and no others: 0 is not the write end of a pipe, 1 not the read
    end and 2 the standard error of the shell, so no program keeps a pipe open by
    accident.  Its process has no children left, so the commands before a semicolon have
    been waited for.  A process that waits holds no more than these descriptors either,
    and there is a child to wait for. *)
Theorem shell_plumbing err lines f sh w : std err f → sh ≠ initproc → rtc step (shell lines f sh) w → ∀ pid p, procs w !! pid = Some p →
  match p_code p with
  | Run (Exec _ _) | Image _ => std err (p_fds p) ∧ children (procs w) pid = 0%nat
  | Run (Wait _) => std err (p_fds p) ∧ (0 < children (procs w) pid)%nat
  | _ => True
  end.
Proof.
  intros Hs Hsh Hrtc pid p E. assert (inv err (procs w)) as I by (apply (inv_rtc err _ _ Hrtc), inv_one; [done|by apply main_safe]).
  pose proof (in_proc _ _ I pid p E) as [_ Hok]. unfold proc_ok in Hok. destruct (p_code p) as [[]| |]; simpl in Hok; tauto.
Qed.

(** The left side of a pipeline. *)
Lemma shell_plumbing_witness :
  let f := {[0 := Given 0; 1 := Given 1; 2 := Given 2]} : fds in
  ∃ w p, rtc step (shell [str "a|b"] f 2) w ∧ procs w !! 4 = Some p ∧ p_code p = Image [str "a"] ∧ p_fds p !! 1 = Some (PipeW 0) ∧ std (Given 2) (p_fds p).
Proof.
  intros f. assert (∃ w p, rtc step (shell [str "a|b"] f 2) w ∧ procs w !! 4 = Some p ∧ p_code p = Image [str "a"] ∧ p_fds p !! 1 = Some (PipeW 0)) as (w & p & R & E & Ec & Ef).
  - eexists _, _. split; [|split; [|split]].
    + eapply rtc_l; [eapply (step_acts _ 2); [reflexivity|apply act_open_failed]|].
      eapply rtc_l; [eapply (step_acts _ 2); [vm_compute; reflexivity|apply (act_fork _ _ _ _ _ _ _ 3); [vm_compute; reflexivity|done]]|].
      eapply rtc_l; [eapply (step_acts _ 3); [vm_compute; reflexivity|apply (act_pipe _ _ _ _ _ 3 4); vm_compute; reflexivity]|].
      eapply rtc_l; [eapply (step_acts _ 3); [vm_compute; reflexivity|apply (act_fork _ _ _ _ _ _ _ 4); [vm_compute; reflexivity|done]]|].
      eapply rtc_l; [eapply (step_acts _ 4); [vm_compute; reflexivity|apply act_close]|].
      eapply rtc_l; [eapply (step_acts _ 4); [vm_compute; reflexivity|apply (act_dup _ _ _ _ _ _ (PipeW 0) 1); vm_compute; reflexivity]|].
      do 2 (eapply rtc_l; [eapply (step_acts _ 4); [vm_compute; reflexivity|apply act_close]|]).
      eapply rtc_l; [eapply (step_acts _ 4); [vm_compute; reflexivity|apply act_exec]|]. apply rtc_refl.
    + vm_compute. reflexivity.
    + vm_compute. reflexivity.
    + vm_compute. reflexivity.
  - exists w, p. split_and!; try done. assert (std (Given 2) f) as Hs by (split_and!; [vm_compute; reflexivity|done|done|done]).
    pose proof (shell_plumbing (Given 2) [str "a|b"] f 2 w Hs ltac:(done) R 4 p E) as H. rewrite Ec in H. apply H.
Defined.
